(* ===== verification/_CoqProject ===== *)
-Q . S2P
Prelude.v
Disk.v
InodeManager.v
FileSystem.v
FileOps.v
FileWrite.v
FileSpec.v
ExtentServer.v
Marshall.v
RpcWindow.v
LockServer.v
LockClient.v
LockProtocol.v
LockUse.v
LockTester.v
LockPool.v
ExtentClient.v
YfsDir.v
YfsOps.v
YfsClient.v
YfsProgram.v
LockedStore.v
LockOrder.v
Cluster.v
ClusterExec.v
Coherence.v
Address.v
Connection.v
RpcServer.v
RpcClient.v
RpcSystem.v
RpcCalls.v
PollMgr.v
ThreadPool.v
ExtentProgram.v
RpcService.v
LockRpc.v
ExtentRpc.v
ExtentRace.v
RpcTest.v
ConnSend.v
Acceptor.v
Handle.v
FuseServer.v
Posix.v
PosixFiles.v
LabTests.v
LabSpecs.v
LabShared.v
LabRuns.v
