(* ===== verification/Prelude.v ===== *)
(** * YFS: a verification of the lab file system

    ** The program

    YFS is a distributed file system in C++.  The kernel talks to a FUSE
    daemon (src/fuse.cc).  Its callbacks run the operations of the file system
    client (src/yfs_client.cc), which stores directories and files as extents:
    byte strings named by an inode number.  Extents are cached by the extent
    client (src/extent_client.cc) and kept by the extent server
    (src/extent_server.cc), which lays them out on a 16 MB disk in memory
    (src/inode_manager.cc).  Consistency between several daemons comes from
    locks, which are cached as well: src/lock_client_cache.cc asks
    src/lock_server_cache.cc for a lock and keeps it until it is revoked; on
    the way back the extent of the same number is flushed.  All servers are
    reached through the RPC library (src/rpc): arguments are marshalled into
    messages, messages are framed on a TCP connection, requests carry
    transaction ids and are retransmitted, and a window of replies makes them
    run at most once.

    ** The development

    Files are listed from the bottom of the system to its top.

    - Prelude.v: the [outcome] of a C++ routine (a value, a failed VERIFY, an
      access out of bounds, an uncaught exception, exhausted fuel), machine
      words with their wrap-around, little- and big-endian words, byte blocks,
      and the tactics and hints the other files use.
    - Disk.v: class disk and class block_manager of inode_manager.cc: blocks,
      super block, alloc_block and free_block on the bytes of the bitmap.
    - InodeManager.v: class inode_manager: inodes encoded in the inode table,
      alloc_inode, free_inode, read_file, write_file, getattr, remove_file.
    - FileSystem.v, FileOps.v, FileWrite.v, FileSpec.v: the proofs about it.
      FileSystem.v has the views of a disk (inode table, bitmap, data) and the
      invariant [fs_ok]; FileOps.v and FileWrite.v describe every operation by
      its effect on the views; FileSpec.v is the refinement of the map
      [fstore] from inode numbers to a type and a byte string.
    - ExtentServer.v: the remote procedures of extent_server.cc and the class
      [ExtentService], the contract between the extent service and its
      clients.  The server over the disk is one instance; the abstract store
      is another.
    - Marshall.v: marshall and unmarshall of src/rpc, with the interface
      [codec] of types that can be sent, and the request and reply messages.
    - RpcWindow.v: the window of replies of a server (struct reply_t,
      checkduplicate_and_update, add_reply, free_reply_window), the
      acknowledgement window of a client (update_xid_rep) and the deadline
      arithmetic.
    - LockServer.v: lock_server.cc (module [Simple]), lock_server_cache.cc
      (module [Cache]) and the stubs of lock_client.cc (module [Stub]).
    - LockClient.v: lock_client_cache.cc, cut at the points where a thread
      gives up the client's mutex.
    - LockProtocol.v: any number of clients and threads together with the
      server, as a step relation [step] with messages in any order.
    - LockUse.v: the facts about it that programs above rely on.
    - LockTester.v: lock_tester.cc, its threads and checks over the protocol.
    - LockPool.v: the protocol on the six threads of the server's pool, with
      handlers that wait for their callbacks.
    - ExtentClient.v: extent_client.cc over any [ExtentService].
    - YfsDir.v: the bytes of a directory and the loops that walk them.
    - YfsOps.v: yfs_client.cc, whole operations over the class [YfsPrims] of
      calls they make to the extent client and the lock client.
    - YfsClient.v: the operations on one client, in a state and error monad.
    - YfsProgram.v: the operations as trees of calls, and the discipline
      [two_phase] they keep.
    - LockedStore.v: programs of many clients interleaved on one store with
      locks, and the store on which operations happen at once.  LockOrder.v:
      the order in which they take locks.
    - Cluster.v: the whole system: many file system clients with their caches,
      the lock protocol, the extent server.  ClusterExec.v: a scheduler that
      computes runs of it.
    - Coherence.v: the invariant of that system and its refinement of
      LockedStore.v.
    - Address.v: how programs name each other: make_sockaddr, the port and id
      of a lock client, the listening socket, n2i and filename.
    - Connection.v: class connection of src/rpc/connection.cc: framing,
      partial reads and writes, reference counts.
    - RpcServer.v: class rpcs of src/rpc/rpc.cc: registration, dispatch and
      statistics over the windows of RpcWindow.v.  A handler is a program
      [hprog] of steps that may wait; dispatch is cut where it takes or gives up
      a mutex, and any number of threads run it at once ([serving]).
    - RpcClient.v: class rpcc of src/rpc/rpc.cc: bind, call1, got_pdu, cancel and
      the marshalling templates, cut where a thread gives up the mutex.
    - RpcSystem.v: one rpcc and one rpcs, both with many threads, over a network
      that delays, loses and repeats messages, as a step relation.
    - RpcCalls.v: the threads of one rpcc with the clock and its connections:
      time limits, references.
    - PollMgr.v: pollmgr.cc: the two implementations of aio_mgr behind the
      class [AioMgr] and its laws [AioSpec], and the poll thread with the
      threads that remove descriptors.
    - ThreadPool.v: fifo.h and thr_pool.cc: the bounded queue, the workers and
      the destructor.
    - ExtentProgram.v: the inode manager and the extent server as programs of
      single accesses to the disk.  One that runs alone is the routine of
      InodeManager.v or ExtentServer.v ([requests_alone]).
    - RpcService.v: what services behind RPC have in common: typed methods,
      registration, typed calls, and servers that were replaced.
    - LockRpc.v: lock_smain.cc: the caching lock server registered with rpcs,
      with handlers that wait for calls of their own.
    - ExtentRpc.v: extent_smain.cc: these programs registered with rpcs, so that
      the threads of the server interleave at every access to the disk, and
      called through rpcc.
    - ExtentRace.v: two such programs at a time.
    - RpcTest.v: rpctest.cc: its handlers, and its tests as programs over remote
      calls.
    - ConnSend.v: send and write_cb of connection.cc with several threads.
    - Acceptor.v: class tcpsconn of connection.cc: accepted connections on a
      heap, their collection, and connect_to_dst.
    - Handle.v: handle.cc: the cache of endpoints, on a heap of hinfos.
    - FuseServer.v: the callbacks of fuse.cc over YfsClient.v.
    - Posix.v, PosixFiles.v: programs of POSIX calls with fork and waitpid, what
      POSIX says of the calls, the class [PosixSystem] of systems that do that
      or refuse, and a rely-guarantee logic for a process and its child.
    - LabTests.v, LabSpecs.v, LabShared.v, LabRuns.v: test-lab-3-a.c and
      test-lab-3-b.c as such programs, what their functions do, the processes
      that share files, and the runs of the whole.

    A definition has the name of the function it models where that is
    possible.  A state a class keeps is a record; an operation takes and
    returns it.  What comes from outside is an argument: the clock, the
    contents of uninitialised arrays, the results of system calls, whether a
    remote call reaches its server, the handlers a server registers, and the
    layout of directory entries in libfuse.

    ** What the theorems show

    - The whole system (Coherence.v, LockedStore.v, YfsProgram.v).  In the runs
      described under "Assumptions" below, however the calls of any number of
      clients, the callbacks of the lock protocol and the flushes of caches
      interleave, operations start and end as if each had happened as a whole at
      one moment in between, on one store of file contents
      ([file_system_atomic]).  At most one client has the contents of a file in
      its cache, and they are current ([caches_coherent]).  This rests on two
      facts proved on their own: operations take all locks before they write
      or release ([operations_two_phase]), and programs that do so are atomic
      on a store with locks ([locked_store_atomic]).  Making a directory breaks
      the discipline, and a run shows what follows ([directories_not_shared]).
      Operations do not wait for each other in a circle
      ([operations_progress]).
    - Storage (Disk.v, FileSpec.v, ExtentServer.v).  A block allocated is the
      lowest free one and no other bit changes.  After any sequence of requests
      the free blocks and the blocks of files partition the usable blocks
      ([blocks_accounted]).  A write replaces the bytes of one
      file, for equal, shrinking and growing sizes; a read returns them; a
      removal gives every block back.  Any sequence of requests that fits on
      the disk, served one at a time, is answered as by a map from ids to byte
      strings.
    - Caching (ExtentClient.v).  While remote calls are answered, a program over
      the cache gets the ids, contents and sizes an uncached one gets wherever
      the flushes fall, and the right type or none ([put_forgets_type]); a flush makes the server
      agree with the program's view; what a client wrote before giving up the
      lock is what the next one reads.
    - Locks (LockServer.v, LockProtocol.v).  In every reachable state at most
      one thread holds the lock, and while calls are answered no assertion of a
      client or about the server's table fails; the assertions about the
      server's callbacks hold exactly when those return ([callback_end]).
      A run in which a waiting thread is never woken is exhibited.  The checks
      of the lock tester never fail (LockTester.v).  The six threads of the
      server can block each other until a callback times out, which ends the
      server (LockPool.v).
    - Messages (Marshall.v, Connection.v).  Requests and replies are unpacked
      as they were packed; input is never read beyond its end when a word is
      taken from it; the receiver of a connection hands over the messages
      sent, in order, each once, however the bytes are cut into pieces, as long
      as the four bytes of a length are not: that ends the connection.
    - At most once (RpcWindow.v, RpcServer.v).  No handler is started twice for
      a client with a nonce and a transaction id, whatever arrives and however
      the threads of the server interleave; every thread gives back a reference
      to a connection that is still there, unless the request was for an earlier
      server; and a client acknowledges exactly the answered prefix.
    - Remote calls (RpcSystem.v, ExtentRpc.v, LockRpc.v, RpcCalls.v, Handle.v).  A
      call that returns a result ran its procedure exactly once, on its
      arguments, and returns what that run produced, also when the procedure
      blocks; for the extent service this is what the specification of the store
      allows if no other thread of the server changed the disk during the run
      ([remote_extent_call]), and for the lock service one transition of the protocol on the
      lock of the call ([remote_lock_call]).  A call takes at most a fixed number
      of steps, can go on from its time limit on even when nothing answers
      (unless its deadline is not a valid timespec), and reports a timeout only
      after its limit; [call_errors] and [timeout_in_time] list what it returns.  A server that replaced another one refuses the clients of the old
      one ([replaced_server_detected]).  The checks of rpctest.cc do not fail on
      answers without errors (RpcTest.v).  Every connection has as many references as holders; the table of
      calls has no dangling pointer; a cached endpoint has as many references
      as handles, and no operation of the cache uses a freed entry.
    - Threads (PollMgr.v, ThreadPool.v, ConnSend.v, Acceptor.v).  After
      block_remove_fd was woken by the poll thread and has returned, the callback
      of the descriptor is not called again; after a spurious wake-up it can be
      ([spurious_removal]).  Select and epoll watch alike, but the latter's
      is_watched is always false.  Every job added to the pool is
      called once, taken in the order of the queue, before the destructor returns;
      the workers never all sleep while there is work.  Messages of concurrent
      senders are written one after the other, and those reported as sent are
      on the wire whole.  The accepting thread frees exactly the dead
      connections nobody else uses.
    - Tests (LabRuns.v).  test-lab-3-a and test-lab-3-b accept every system
      whose calls do what POSIX says: in runs in which it refuses no call for
      want of something, every check holds, however parent and child interleave,
      and the main process comes to exit(0) ([lab_tests_pass]).
    - File system (YfsDir.v, YfsClient.v, FuseServer.v).  create, unlink,
      lookup, readdir, read, write and setattr act on the list of slots of a
      directory and on the bytes of files as they should and change nothing
      else, where create appends (no slot has room) and unlink knows the type of
      the file; the attributes and listings replied to the kernel are those of
      the files.
    - Defects.  Where the code does not do what it means to, a theorem says
      what it does: the end of the bitmap, the length checks of rawbytes and
      readpdu, the assertion of add_reply, the lost wake-up, the reused
      directory slot, the lock kept after a failed unlink, the count replied
      to a write behind the end, the deadline that pthread_cond_timedwait
      rejects, the race between write_cb and send, the endpoint a
      bound handle loses to delete_handle, the directory made without its lock
      ([directories_not_shared]), the file that unlink takes for a directory
      ([unlink_after_put]), the wait of block_remove_fd ([spurious_removal]), the root directory erased by every mount, the deadlock of the lock
      server's pool, the host name that is too long, the reply that is freed
      while it is sent ([reply_freed_in_use]), the inode or block given to two
      clients by an extent server that runs on six threads without a mutex
      ([clients_share_a_file], [free_undoes_allocation]), the comparison of
      check1 that looks at the first bytes only ([check1_accepts]).

    ** Bounds and fuel

    Words are integers with explicit wrap-around at their width.  The disk has
    BLOCK_NUM = 32768 blocks, of which the allocator can use blocks 353 to
    4098; theorems about storage ask for enough free blocks ([free_space]) and
    for files of at most MAXFILE = 160 blocks where write_file does.  Loops
    over the blocks of a file, the bits of the bitmap or the inode numbers are
    bounded by those constants.  The loops over a directory take fuel because
    a slot of length 0 makes them run for ever; callers pass the size of the
    directory plus one, and on the bytes of a list of slots that is shown to
    be enough ([Done] is the conclusion of the theorems).  The loops of a
    connection over partial reads and writes recurse on the list of results of
    the system calls.  The lock protocol, the network, the thread pool and the
    poll manager have no bound on threads, messages or steps.  A call of
    RpcCalls.v returns after at most 70 of its own steps: the first wait is
    a second and every round doubles it, so a limit below 2^31 ms is passed
    after at most 23 rounds, each of which sends, sets a deadline and waits.
    Deadlines carry at most one second over ([carry] gets one round where it
    is used), and messages have fewer than 2^30 bytes ([MSG_LIMIT]).  The loop of
    dircheck over readdir gets fuel for the thousand names its array has room
    for, and two more; that it does not run out is part of [lab_tests_pass].

    ** Assumptions about the surroundings

    accept returns a descriptor that is not open, and connect a connection
    nobody holds.  Waiting threads may wake up without reason in ThreadPool.v,
    ConnSend.v, RpcCalls.v and PollMgr.v.

    The theorems of Coherence.v are about the runs of Cluster.v whose steps meet
    the assumptions that their labels name ([holds]): no operation makes a
    directory; a file exists when its lock is taken, when it is read from the
    cache and when it is written; no directory lists itself; what is sent to the
    extent server fits its disk.  In all runs of Cluster.v remote calls are
    answered, the attributes operations read are arbitrary to the theorem, since
    cached ones can be stale, and the extent server serves one request at a
    time.  The code has no mutex that would ensure the last point: ExtentRpc.v
    has its threads interleaved and ExtentRace.v shows what can happen.

    LockProtocol.v answers every remote call in the end; LockPool.v adds the
    failure of callbacks.  ExtentClient.v is about calls that are answered.
    The system below the test programs is any instance of [PosixSystem]; runs in
    which it refuses a call end, but nothing is said of where.

    ** What is not modelled

    - gettime.cc, tprintf.h, jsl_log.cc, slock.h and method_thread.h: clocks,
      logging and wrappers of system calls.
    - The main programs (but extent_smain.cc and lock_smain.cc); the parts of
      rpctest.cc that start threads and replace servers.
    - A fault of the extent server in Cluster.v: the system then has no further
      step there.
    - The kernel between the test programs and the FUSE callbacks.
    - The lossy mode of connections, which drops messages at random for tests;
      RpcSystem.v lets any message be lost anyway.
    - The lock protocol is for one lock, of which Cluster.v, LockTester.v and
      LockPool.v run a copy per lock id: the code keeps one independent entry
      per id, and no operation of client or server touches two
      ([remote_lock_call]).  Its calls to the server are delivered exactly once,
      which LockRpc.v shows; its calls back to the clients are taken to be.

    ** What is left

    In the order of importance: the callbacks of the lock client behind an RPC
    server of its own; operations on files that another client has removed in
    Cluster.v; the destructor of tcpsconn. *)

From Stdlib Require Export ZArith Lia Bool.
From stdpp Require Export base numbers strings option list_numbers gmap list.

#[export] Set Default Goal Selector "!".
#[global] Open Scope Z_scope.

(** ** Outcomes

    A C++ routine returns a value, or it stops the process: a failed
    [assert]/[VERIFY], an access outside of an array, an exception nobody
    catches.  [OutOfFuel] is only produced by loops that are given a fuel
    argument. *)

Inductive fault := AssertFailed | OutOfBounds | UncaughtException | OutOfFuel.

Inductive outcome (A : Type) :=
| Done (a : A)
| Fault (f : fault).
Arguments Done {A} a.
Arguments Fault {A} f.

#[export] Instance fault_eq_dec : EqDecision fault.
Proof. solve_decision. Defined.

#[export] Instance outcome_eq_dec `{EqDecision A} : EqDecision (outcome A).
Proof. solve_decision. Defined.

#[export] Instance outcome_ret : MRet outcome := @Done.

#[export] Instance outcome_bind : MBind outcome :=
  fun A B k m => match m with Done a => k a | Fault f => Fault f end.

#[export] Instance outcome_fmap : FMap outcome :=
  fun A B g m => match m with Done a => Done (g a) | Fault f => Fault f end.

(** [assert(b)] and [VERIFY(b)]. *)
Definition verify (b : bool) : outcome unit :=
  if b then Done tt else Fault AssertFailed.

Definition is_done {A} (m : outcome A) : bool :=
  match m with Done _ => true | Fault _ => false end.

Lemma bind_Done {A B} (a : A) (k : A -> outcome B) : (Done a ≫= k) = k a.
Proof. reflexivity. Qed.

Lemma bind_Done_inv {A B} (m : outcome A) (k : A -> outcome B) b :
  (m ≫= k) = Done b -> exists a, m = Done a /\ k a = Done b.
Proof. destruct m; simpl; [eauto | discriminate]. Qed.

Lemma verify_Done b : verify b = Done tt <-> b = true.
Proof. destruct b; simpl; split; congruence. Qed.

(** ** Machine integers *)

Definition u8 (z : Z) : Z := z mod 2 ^ 8.
Definition u16 (z : Z) : Z := z mod 2 ^ 16.
Definition u32 (z : Z) : Z := z mod 2 ^ 32.
Definition u64 (z : Z) : Z := z mod 2 ^ 64.

(** Conversion to a signed type of [w] bits (two's complement). *)
Definition wrap_signed (w z : Z) : Z :=
  let y := z mod 2 ^ w in if y <? 2 ^ (w - 1) then y else y - 2 ^ w.
Definition s16 (z : Z) : Z := wrap_signed 16 z.
Definition s32 (z : Z) : Z := wrap_signed 32 z.

Definition is_u32 (z : Z) : Prop := 0 <= z < 2 ^ 32.
Definition is_s32 (z : Z) : Prop := - 2 ^ 31 <= z < 2 ^ 31.
Definition is_s16 (z : Z) : Prop := - 2 ^ 15 <= z < 2 ^ 15.
Definition is_byte (z : Z) : Prop := 0 <= z < 2 ^ 8.

#[export] Instance is_u32_dec z : Decision (is_u32 z).
Proof. unfold is_u32. apply _. Defined.
#[export] Instance is_byte_dec z : Decision (is_byte z).
Proof. unfold is_byte. apply _. Defined.

Create HintDb yfs.

Lemma u32_range z : is_u32 (u32 z).
Proof. unfold is_u32, u32. apply Z.mod_pos_bound. lia. Qed.

Lemma u32_id z : is_u32 z -> u32 z = z.
Proof. unfold is_u32, u32. intros. apply Z.mod_small. lia. Qed.

Lemma u8_range z : is_byte (u8 z).
Proof. unfold is_byte, u8. apply Z.mod_pos_bound. lia. Qed.

Lemma u8_id z : is_byte z -> u8 z = z.
Proof. unfold is_byte, u8. intros. apply Z.mod_small. lia. Qed.

Lemma wrap_signed_id w z :
  0 < w -> - 2 ^ (w - 1) <= z < 2 ^ (w - 1) -> wrap_signed w z = z.
Proof.
  intros Hw Hz. unfold wrap_signed.
  assert (H2 : 2 ^ w = 2 * 2 ^ (w - 1)) by (rewrite <- Z.pow_succ_r by lia; f_equal; lia).
  destruct (Z.le_gt_cases 0 z).
  - rewrite Z.mod_small by lia. destruct (Z.ltb_spec z (2 ^ (w - 1))); lia.
  - replace (z mod 2 ^ w) with (z + 2 ^ w).
    + destruct (Z.ltb_spec (z + 2 ^ w) (2 ^ (w - 1))); lia.
    + apply Z.mod_unique with (-1); lia.
Qed.

Lemma s32_id z : is_s32 z -> s32 z = z.
Proof. intros H. by apply (wrap_signed_id 32). Qed.

Lemma wrap_signed_range w z :
  0 < w -> - 2 ^ (w - 1) <= wrap_signed w z < 2 ^ (w - 1).
Proof.
  intros Hw. unfold wrap_signed.
  assert (H2 : 2 ^ w = 2 * 2 ^ (w - 1)) by (rewrite <- Z.pow_succ_r by lia; f_equal; lia).
  assert (0 < 2 ^ (w - 1)) by (apply Z.pow_pos_nonneg; lia).
  pose proof (Z.mod_pos_bound z (2 ^ w) ltac:(lia)).
  destruct (Z.ltb_spec (z mod 2 ^ w) (2 ^ (w - 1))); lia.
Qed.

Lemma wrap_signed_mod w z : 0 < w -> wrap_signed w (z mod 2 ^ w) = wrap_signed w z.
Proof. intros. unfold wrap_signed. rewrite Z.mod_mod; [done | lia]. Qed.

Lemma mod_wrap_signed w z : 0 < w -> wrap_signed w z mod 2 ^ w = z mod 2 ^ w.
Proof.
  intros Hw. unfold wrap_signed.
  assert (0 < 2 ^ w) by (apply Z.pow_pos_nonneg; lia).
  destruct (_ <? _).
  - apply Z.mod_mod. lia.
  - rewrite Zminus_mod, Z.mod_mod, Z_mod_same_full, Z.sub_0_r, Z.mod_mod by lia. done.
Qed.

#[export] Hint Resolve u32_range u8_range : yfs.

(** ** Sequences of bytes: [memcpy] as splicing *)

Definition sub {A} (l : list A) (off n : nat) : list A := take n (drop off l).

Definition splice {A} (l : list A) (off : nat) (src : list A) : list A :=
  take off l ++ src ++ drop (off + length src) l.

Lemma length_splice {A} (l : list A) off src :
  (off + length src <= length l)%nat -> length (splice l off src) = length l.
Proof. intros. unfold splice. rewrite !length_app, length_take, length_drop. lia. Qed.

Lemma length_sub {A} (l : list A) off n :
  (off + n <= length l)%nat -> length (sub l off n) = n.
Proof. intros. unfold sub. rewrite length_take, length_drop. lia. Qed.

Lemma lookup_sub {A} (l : list A) off n i :
  (i < n)%nat -> sub l off n !! i = l !! (off + i)%nat.
Proof. intros. unfold sub. rewrite lookup_take_lt, lookup_drop by lia. done. Qed.

Lemma lookup_splice_new {A} (l : list A) off src i :
  (off + length src <= length l)%nat -> (off <= i < off + length src)%nat ->
  splice l off src !! i = src !! (i - off)%nat.
Proof.
  intros. unfold splice.
  rewrite lookup_app_r; rewrite length_take; [| lia].
  rewrite lookup_app_l by lia. f_equal. lia.
Qed.

Lemma lookup_splice_old {A} (l : list A) off src i :
  (off + length src <= length l)%nat -> (i < off \/ off + length src <= i)%nat ->
  splice l off src !! i = l !! i.
Proof.
  intros Hl Hi. unfold splice. destruct (decide (i < off)%nat).
  - rewrite lookup_app_l by (rewrite length_take; lia). by rewrite lookup_take_lt.
  - rewrite !lookup_app_r by (rewrite ?length_take; lia).
    rewrite lookup_drop, length_take. f_equal. lia.
Qed.

Lemma sub_ext {A} (l k : list A) off off' n :
  length l = length k -> (off + n <= length l)%nat -> (off' + n <= length k)%nat ->
  (forall i, (i < n)%nat -> l !! (off + i)%nat = k !! (off' + i)%nat) ->
  sub l off n = sub k off' n.
Proof.
  intros Hlen Ho Ho' Hi. apply list_eq. intros i.
  destruct (decide (i < n)%nat).
  - rewrite !lookup_sub by done. auto.
  - rewrite !lookup_ge_None_2; rewrite ?length_sub; auto; lia.
Qed.

Lemma sub_splice_same {A} (l : list A) off src :
  (off + length src <= length l)%nat -> sub (splice l off src) off (length src) = src.
Proof.
  intros. apply list_eq. intros i. destruct (decide (i < length src)%nat).
  - rewrite lookup_sub, lookup_splice_new by lia. f_equal. lia.
  - rewrite !lookup_ge_None_2; rewrite ?length_sub; auto; rewrite ?length_splice; lia.
Qed.

Lemma sub_splice_disj {A} (l : list A) off src off' n :
  (off + length src <= length l)%nat -> (off' + n <= length l)%nat ->
  (off' + n <= off \/ off + length src <= off')%nat ->
  sub (splice l off src) off' n = sub l off' n.
Proof.
  intros. apply sub_ext; rewrite ?length_splice; auto.
  intros i ?. apply lookup_splice_old; lia.
Qed.

Lemma sub_sub {A} (l : list A) o1 n1 o2 n2 :
  (o2 + n2 <= n1)%nat -> sub (sub l o1 n1) o2 n2 = sub l (o1 + o2) n2.
Proof.
  intros. apply list_eq. intros i. destruct (decide (i < n2)%nat).
  - rewrite !lookup_sub by lia. f_equal. lia.
  - unfold sub. rewrite !lookup_take_ge by lia. done.
Qed.

Lemma splice_splice_app {A} (l : list A) off x y :
  (off + length x + length y <= length l)%nat ->
  splice (splice l off x) (off + length x) y = splice l off (x ++ y).
Proof.
  intros Hl. unfold splice at 1 3. rewrite length_app.
  assert (Ht : take (off + length x) (splice l off x) = take off l ++ x).
  { unfold splice. rewrite app_assoc. apply take_app_length'.
    rewrite length_app, length_take. lia. }
  assert (Hd : drop (off + length x + length y) (splice l off x)
               = drop (off + (length x + length y)) l).
  { unfold splice. rewrite app_assoc, drop_app_ge by (rewrite length_app, length_take; lia).
    rewrite length_app, length_take, drop_drop. f_equal. lia. }
  rewrite Ht, Hd, <- !app_assoc. done.
Qed.

Lemma splice_full {A} (l : list A) x : length x = length l -> splice l 0 x = x.
Proof.
  intros Hx. unfold splice. rewrite take_0, drop_ge by lia. by rewrite app_nil_r.
Qed.

Lemma splice_nil {A} (l : list A) off : splice l off [] = l.
Proof. unfold splice. simpl. rewrite Nat.add_0_r. apply take_drop. Qed.

Lemma insert_splice {A} (l : list A) i x : (i < length l)%nat -> <[i := x]> l = splice l i [x].
Proof.
  intros. rewrite insert_take_drop by done. unfold splice. simpl.
  by replace (i + 1)%nat with (S i) by lia.
Qed.

Lemma sub_take {A} (l : list A) m : sub l 0 m = take m l.
Proof. unfold sub. by rewrite drop_0. Qed.

Lemma sub_all {A} (l : list A) n : length l = n -> sub l 0 n = l.
Proof. intros <-. unfold sub. rewrite drop_0. apply take_ge. lia. Qed.

Lemma mjoin_cons {A} (x : list A) (l : list (list A)) : mjoin (x :: l) = x ++ mjoin l.
Proof. reflexivity. Qed.

(** Bounds-checked accesses at the [Z] offsets of the source. *)

Definition load (buf : list Z) (i : Z) : outcome Z :=
  if 0 <=? i
  then match buf !! Z.to_nat i with Some b => Done b | None => Fault OutOfBounds end
  else Fault OutOfBounds.

Definition store (buf : list Z) (i v : Z) : outcome (list Z) :=
  if (0 <=? i) && (i <? Z.of_nat (length buf))
  then Done (<[Z.to_nat i := v]> buf) else Fault OutOfBounds.

Definition load_bytes (buf : list Z) (off : Z) (n : nat) : outcome (list Z) :=
  if (0 <=? off) && (off + Z.of_nat n <=? Z.of_nat (length buf))
  then Done (sub buf (Z.to_nat off) n) else Fault OutOfBounds.

Definition store_bytes (buf : list Z) (off : Z) (src : list Z) : outcome (list Z) :=
  if (0 <=? off) && (off + Z.of_nat (length src) <=? Z.of_nat (length buf))
  then Done (splice buf (Z.to_nat off) src) else Fault OutOfBounds.

(** ** Little-endian words, as the x86 code reads and writes them *)

Fixpoint le_enc (n : nat) (z : Z) : list Z :=
  match n with
  | O => []
  | S n => z mod 2 ^ 8 :: le_enc n (z / 2 ^ 8)
  end.

Fixpoint le_dec (l : list Z) : Z :=
  match l with
  | [] => 0
  | b :: l => b mod 2 ^ 8 + 2 ^ 8 * le_dec l
  end.

Lemma length_le_enc n z : length (le_enc n z) = n.
Proof. revert z. induction n; simpl; auto. Qed.

Lemma le_dec_range l : 0 <= le_dec l < 2 ^ (8 * Z.of_nat (length l)).
Proof.
  induction l as [|b l IH]; [simpl; lia |]. cbn [le_dec length].
  pose proof (Z.mod_pos_bound b (2 ^ 8) ltac:(lia)).
  replace (8 * Z.of_nat (S (length l))) with (8 + 8 * Z.of_nat (length l)) by lia.
  rewrite Z.pow_add_r by lia. lia.
Qed.

Lemma le_dec_enc n z : le_dec (le_enc n z) = z mod 2 ^ (8 * Z.of_nat n).
Proof.
  revert z. induction n as [|n IH]; intros z.
  - simpl. by rewrite Z.mod_1_r.
  - cbn [le_enc le_dec]. rewrite IH, Z.mod_mod by lia.
    replace (8 * Z.of_nat (S n)) with (8 + 8 * Z.of_nat n) by lia.
    rewrite Z.pow_add_r by lia.
    rewrite Z.rem_mul_r by lia. lia.
Qed.

Lemma le_dec_enc32 z : is_u32 z -> le_dec (le_enc 4 z) = z.
Proof. intros. rewrite le_dec_enc. by apply u32_id. Qed.

Lemma le_dec_u32 l : length l = 4%nat -> is_u32 (le_dec l).
Proof. intros Hl. pose proof (le_dec_range l) as Hr. by rewrite Hl in Hr. Qed.

Definition load32 (buf : list Z) (off : Z) : outcome Z :=
  bs ← load_bytes buf off 4; mret (le_dec bs).

Definition store32 (buf : list Z) (off v : Z) : outcome (list Z) :=
  store_bytes buf off (le_enc 4 v).

(** Arrays of 32-bit words. *)

Fixpoint dec32s (n : nat) (bs : list Z) : list Z :=
  match n with
  | O => []
  | S n => le_dec (take 4 bs) :: dec32s n (drop 4 bs)
  end.

Definition enc32s (l : list Z) : list Z := mjoin (le_enc 4 <$> l).

Lemma length_dec32s n bs : length (dec32s n bs) = n.
Proof. revert bs. induction n; simpl; auto. Qed.

Lemma length_enc32s l : length (enc32s l) = (4 * length l)%nat.
Proof.
  induction l as [|x l IH]; [done |].
  change (enc32s (x :: l)) with (le_enc 4 x ++ enc32s l).
  rewrite length_app, length_le_enc, IH. simpl length. lia.
Qed.

Lemma lookup_dec32s n bs i :
  (i < n)%nat -> dec32s n bs !! i = Some (le_dec (sub bs (4 * i) 4)).
Proof.
  revert bs i. induction n as [|n IH]; intros bs i Hi; [lia |].
  destruct i as [|i]; simpl dec32s; cbn [lookup list_lookup].
  - done.
  - rewrite IH by lia. unfold sub. rewrite drop_drop.
    do 4 f_equal. lia.
Qed.

Lemma dec_enc32s l rest :
  Forall is_u32 l -> dec32s (length l) (enc32s l ++ rest) = l.
Proof.
  induction 1 as [|x l Hx Hl IH]; [done |].
  change (enc32s (x :: l)) with (le_enc 4 x ++ enc32s l). rewrite <- app_assoc.
  cbn [length dec32s]. rewrite take_app_length', drop_app_length' by (by rewrite length_le_enc).
  rewrite le_dec_enc32, IH by done. done.
Qed.

Lemma dec32s_u32 n bs :
  (4 * n <= length bs)%nat -> Forall is_u32 (dec32s n bs).
Proof.
  revert bs. induction n as [|n IH]; intros bs Hl; [constructor |].
  cbn [dec32s]. constructor.
  - apply le_dec_u32. rewrite length_take. lia.
  - apply IH. rewrite length_drop. lia.
Qed.

Lemma dec32s_splice n bs i v :
  (i < n)%nat -> (4 * n <= length bs)%nat -> is_u32 v ->
  dec32s n (splice bs (4 * i) (le_enc 4 v)) = <[i := v]> (dec32s n bs).
Proof.
  intros Hi Hl Hv. apply list_eq. intros j.
  destruct (decide (j < n)%nat) as [Hj|Hj].
  - rewrite lookup_dec32s by done. destruct (decide (i = j)) as [->|Hne].
    + rewrite list_lookup_insert_eq by (rewrite length_dec32s; lia).
      rewrite <- (length_le_enc 4 v) at 3.
      rewrite sub_splice_same by (rewrite length_le_enc; lia). by rewrite le_dec_enc32.
    + rewrite list_lookup_insert_ne, lookup_dec32s by done.
      rewrite sub_splice_disj; rewrite ?length_le_enc; auto; lia.
  - rewrite !lookup_ge_None_2; rewrite ?length_insert, ?length_dec32s; auto; lia.
Qed.

Lemma load32_done bs i :
  (4 * (i + 1) <= length bs)%nat ->
  load32 bs (4 * Z.of_nat i) = Done (le_dec (sub bs (4 * i) 4)).
Proof.
  intros. unfold load32, load_bytes.
  destruct (Z.leb_spec 0 (4 * Z.of_nat i)); [| lia].
  destruct (Z.leb_spec (4 * Z.of_nat i + Z.of_nat 4) (Z.of_nat (length bs))); [| lia].
  simpl. replace (Z.to_nat _) with (4 * i)%nat by lia. done.
Qed.

Lemma store32_done bs i v :
  (4 * (i + 1) <= length bs)%nat ->
  store32 bs (4 * Z.of_nat i) v = Done (splice bs (4 * i) (le_enc 4 v)).
Proof.
  intros. unfold store32, store_bytes. rewrite length_le_enc.
  destruct (Z.leb_spec 0 (4 * Z.of_nat i)); [| lia].
  destruct (Z.leb_spec (4 * Z.of_nat i + Z.of_nat 4) (Z.of_nat (length bs))); [| lia].
  simpl. replace (Z.to_nat _) with (4 * i)%nat by lia. done.
Qed.

(** ** Counting the entries of a map *)

Definition count {B} (P : B -> bool) (m : gmap nat B) : nat := size (filter (fun x => P (snd x) = true) m).

Lemma count_new {B} (P : B -> bool) (m : gmap nat B) t x :
  m !! t = None -> count P (<[t := x]> m) = (count P m + Nat.b2n (P x))%nat.
Proof.
  intros Ht. unfold count. destruct (P x) eqn:E; cbn [Nat.b2n].
  - rewrite map_filter_insert_True by done. rewrite map_size_insert_None; [lia |].
    apply map_lookup_filter_None. by left.
  - rewrite map_filter_insert_False by (cbn; congruence). rewrite delete_id by done. lia.
Qed.

Lemma count_delete {B} (P : B -> bool) (m : gmap nat B) t y :
  m !! t = Some y -> (count P (delete t m) + Nat.b2n (P y))%nat = count P m.
Proof.
  intros Ht. rewrite <- (insert_delete_id m t y Ht) at 2. by rewrite count_new by apply lookup_delete_eq.
Qed.

Lemma count_insert {B} (P : B -> bool) (m : gmap nat B) t x y :
  m !! t = Some y -> (count P (<[t := x]> m) + Nat.b2n (P y))%nat = (count P m + Nat.b2n (P x))%nat.
Proof.
  intros Ht. rewrite <- insert_delete_eq, count_new by apply lookup_delete_eq. pose proof (count_delete P m t y Ht). lia.
Qed.

Lemma count_pos {B} (P : B -> bool) (m : gmap nat B) t y : m !! t = Some y -> P y = true -> (0 < count P m)%nat.
Proof. intros Ht HP. pose proof (count_delete P m t y Ht) as H. rewrite HP in H. cbn in H. lia. Qed.

Lemma count_zero {B} (P : B -> bool) (m : gmap nat B) : (forall t y, m !! t = Some y -> P y = false) -> count P m = 0%nat.
Proof.
  intros H. unfold count. apply map_size_empty_iff, map_empty_filter_2.
  intros t y Ht. cbn. by rewrite (H t y Ht).
Qed.

Lemma count_all {B} (P : B -> bool) (m : gmap nat B) : (forall t y, m !! t = Some y -> P y = true) -> count P m = size m.
Proof. intros H. unfold count. f_equal. apply map_filter_id. intros t y Ht. by apply (H t). Qed.
