(* ===== verification/Disk.v ===== *)
(** * The disk and the block manager (src/inode_manager.h, src/inode_manager.cc)

    [disk] is the in-memory array of blocks; [block_manager] keeps the
    superblock and allocates blocks from the bitmap that starts at block 2.
    The theorems describe the allocator on its usable range, [FIRST_DATA] to
    [END_DATA], and what happens at the end of that range. *)

From S2P Require Import Prelude.

(** ** Geometry *)

Definition DISK_SIZE : Z := 1024 * 1024 * 16.
Definition BLOCK_SIZE : Z := 512.
Definition BLOCK_NUM : Z := DISK_SIZE / BLOCK_SIZE.
Definition INODE_NUM : Z := 1024.

(** [sizeof(struct inode)] on x86-64: a [short], two bytes of padding, four
    words and [NDIRECT+1] block addresses. *)
Definition NDIRECT : Z := 32.
Definition sizeof_inode : Z := 2 + 2 + 4 * 4 + 4 * (NDIRECT + 1).
Definition IPB : Z := BLOCK_SIZE / sizeof_inode.
Definition BPB : Z := BLOCK_SIZE * 8.
Definition IBLOCK (i nblocks : Z) : Z := nblocks / BPB + i / IPB + 3.
Definition BBLOCK (b : Z) : Z := b / BPB + 2.
Definition CEIL (a b : Z) : Z := Z.quot a b + (if Z.rem a b =? 0 then 0 else 1).

(** ** Disk layer

    [blocks] is the array [blocks[BLOCK_NUM][BLOCK_SIZE]]; an index without
    an entry is a block that still has the zeroes the constructor wrote. *)

Record disk := Disk { blocks : gmap Z (list Z) }.

Definition zero_block : list Z := replicate (Z.to_nat BLOCK_SIZE) 0.

Definition disk_new : disk := Disk ∅.

Definition block_at (d : disk) (id : Z) : list Z := default zero_block (blocks d !! id).

(** [buf] is a local array of [BLOCK_SIZE] bytes: it keeps its contents when
    the block number is out of range. *)
Definition disk_read_block (d : disk) (id : Z) (buf : list Z) : list Z :=
  if (id <? 0) || (BLOCK_NUM <=? id) then buf else block_at d id.

(** [buf] is the memory that starts at the pointer: [memcpy] reads
    [BLOCK_SIZE] bytes of it. *)
Definition disk_write_block (d : disk) (id : Z) (buf : list Z) : outcome disk :=
  if (id <? 0) || (BLOCK_NUM <=? id) then Done d
  else bs ← load_bytes buf 0 (Z.to_nat BLOCK_SIZE);
       mret (Disk (<[id := bs]> (blocks d))).

(** ** Block layer *)

Record superblock := Superblock { sb_size : Z; sb_nblocks : Z; sb_ninodes : Z }.

Record block_manager := BlockManager { bm_d : disk; bm_sb : superblock }.

Definition block_manager_new : block_manager :=
  BlockManager disk_new
    (Superblock (u32 (BLOCK_SIZE * BLOCK_NUM)) (u32 BLOCK_NUM) (u32 INODE_NUM)).

Definition bm_read_block (bm : block_manager) (id : Z) (buf : list Z) : list Z :=
  disk_read_block (bm_d bm) id buf.

Definition bm_write_block (bm : block_manager) (id : Z) (buf : list Z)
    : outcome block_manager :=
  d ← disk_write_block (bm_d bm) id buf; mret (BlockManager d (bm_sb bm)).

(** The contents of an uninitialised [char buf[BLOCK_SIZE]]. *)
Section allocator.
Variable junk : list Z.

(** One iteration per block number from [i] on; [n] is the number of
    iterations left before [i] reaches [sb.nblocks]. *)
Fixpoint alloc_scan (n : nat) (bm : block_manager) (i : Z) (buf : list Z)
    : outcome (block_manager * Z) :=
  match n with
  | O => Done (bm, 0)
  | S n =>
      let buf := bm_read_block bm (BBLOCK i) buf in
      let t := u32 (i - BBLOCK i) in
      byte ← load buf (Z.shiftr t 3);
      if Z.land byte (Z.shiftl 1 (t mod 8)) =? 0
      then buf ← store buf (Z.shiftr t 3) (u8 (Z.lor byte (Z.shiftl 1 (t mod 8))));
           bm ← bm_write_block bm (BBLOCK i) buf;
           mret (bm, i)
      else alloc_scan n bm (i + 1) buf
  end.

Definition first_candidate (sb : superblock) : Z :=
  u32 (IBLOCK (u32 (sb_ninodes sb - 1)) (sb_nblocks sb) + 1).

Definition alloc_block (bm : block_manager) : outcome (block_manager * Z) :=
  let i := first_candidate (bm_sb bm) in
  alloc_scan (Z.to_nat (sb_nblocks (bm_sb bm) - i)) bm i junk.

Definition free_block (bm : block_manager) (id : Z) : outcome block_manager :=
  let i := u32 (BBLOCK id) in
  let t := u32 (id - i) in
  let buf := bm_read_block bm i junk in
  byte ← load buf (Z.shiftr t 3);
  buf ← store buf (Z.shiftr t 3) (u8 (Z.land byte (Z.lnot (Z.shiftl 1 (t mod 8)))));
  bm_write_block bm i buf.

End allocator.

(** ** Well-formed disks and the bitmap *)

Definition disk_ok (d : disk) : Prop := forall id, length (block_at d id) = 512%nat.

Definition bm_ok (bm : block_manager) : Prop :=
  disk_ok (bm_d bm) /\ bm_sb bm = bm_sb block_manager_new.

(** The blocks whose bitmap bit lies inside the bitmap block the code picks. *)
Definition FIRST_DATA : Z := 353.
Definition END_DATA : Z := 4099.
Definition data_block (b : Z) : Prop := FIRST_DATA <= b < END_DATA.

Definition bit_index (b : Z) : Z := u32 (b - BBLOCK b).

Definition block_used (d : disk) (b : Z) : bool :=
  Z.testbit (default 0 (block_at d (BBLOCK b) !! Z.to_nat (bit_index b / 8)))
            (bit_index b mod 8).

Definition free_blocks (d : disk) : list Z :=
  filter (fun b => block_used d b = false) (seqZ FIRST_DATA (END_DATA - FIRST_DATA)).

(** [d'] is [d] with the bit of [b] set to [v]; no other bit of the usable
    range and no other block changes. *)
Definition bit_update (d : disk) (b : Z) (v : bool) (d' : disk) : Prop :=
  disk_ok d' /\
  (forall b', data_block b' ->
     block_used d' b' = if decide (b' = b) then v else block_used d b') /\
  (forall id, id <> BBLOCK b -> block_at d' id = block_at d id).

(** ** Lemmas: reading and writing blocks *)

Lemma disk_new_ok : disk_ok disk_new.
Proof. intros id. reflexivity. Qed.

Lemma block_manager_new_ok : bm_ok block_manager_new.
Proof. split; [apply disk_new_ok | reflexivity]. Qed.

Lemma BLOCK_NUM_eq : BLOCK_NUM = 32768.
Proof. reflexivity. Qed.

Lemma disk_read_block_in d id buf :
  0 <= id < BLOCK_NUM -> disk_read_block d id buf = block_at d id.
Proof.
  intros. unfold disk_read_block.
  destruct (Z.ltb_spec id 0); [lia |]. by destruct (Z.leb_spec BLOCK_NUM id); [lia |].
Qed.

Lemma disk_write_block_in d id buf :
  0 <= id < BLOCK_NUM -> (512 <= length buf)%nat ->
  disk_write_block d id buf = Done (Disk (<[id := take 512 buf]> (blocks d))).
Proof.
  intros. unfold disk_write_block.
  destruct (Z.ltb_spec id 0); [lia |]. destruct (Z.leb_spec BLOCK_NUM id); [lia |].
  unfold load_bytes. change (Z.to_nat BLOCK_SIZE) with 512%nat.
  destruct (Z.leb_spec (0 + Z.of_nat 512) (Z.of_nat (length buf))); [| lia].
  reflexivity.
Qed.

Lemma block_at_insert d id bs id' :
  block_at (Disk (<[id := bs]> (blocks d))) id' =
  if decide (id = id') then bs else block_at d id'.
Proof. unfold block_at. simpl. rewrite lookup_insert. by case_decide. Qed.

Lemma disk_ok_insert d id bs :
  disk_ok d -> length bs = 512%nat -> disk_ok (Disk (<[id := bs]> (blocks d))).
Proof. intros Hd Hb id'. rewrite block_at_insert. by case_decide. Qed.

#[export] Hint Resolve disk_new_ok block_manager_new_ok disk_ok_insert : yfs.

(** ** Lemmas: single bits of a byte *)

Lemma set_bit_testbit byte k j :
  0 <= k < 8 -> 0 <= j < 8 ->
  Z.testbit (u8 (Z.lor byte (Z.shiftl 1 k))) j = (j =? k) || Z.testbit byte j.
Proof.
  intros Hk Hj. unfold u8. rewrite Z.mod_pow2_bits_low, Z.lor_spec by lia.
  rewrite Z.shiftl_1_l, orb_comm. f_equal. rewrite Z.pow2_bits_eqb by lia. lia.
Qed.

Lemma clear_bit_testbit byte k j :
  0 <= k < 8 -> 0 <= j < 8 ->
  Z.testbit (u8 (Z.land byte (Z.lnot (Z.shiftl 1 k)))) j = negb (j =? k) && Z.testbit byte j.
Proof.
  intros Hk Hj. unfold u8. rewrite Z.mod_pow2_bits_low, Z.land_spec by lia.
  rewrite Z.lnot_spec, Z.shiftl_1_l, Z.pow2_bits_eqb by lia.
  rewrite andb_comm, (Z.eqb_sym k j). done.
Qed.

Lemma land_bit_zero byte k :
  0 <= k -> (Z.land byte (Z.shiftl 1 k) =? 0) = negb (Z.testbit byte k).
Proof.
  intros Hk. rewrite Z.shiftl_1_l. destruct (Z.testbit byte k) eqn:Hb; simpl.
  - apply Z.eqb_neq. intros H0. apply (f_equal (fun z => Z.testbit z k)) in H0.
    rewrite Z.land_spec, Hb, Z.pow2_bits_true, Z.bits_0 in H0 by lia. done.
  - apply Z.eqb_eq. apply Z.bits_inj'. intros j Hj.
    rewrite Z.land_spec, Z.bits_0, Z.pow2_bits_eqb by lia.
    destruct (Z.eqb_spec k j) as [<-|]; [by rewrite Hb | apply andb_false_r].
Qed.

(** ** Lemmas: where the bit of a data block is *)

Lemma BBLOCK_range b : data_block b -> 2 <= BBLOCK b <= 3.
Proof.
  unfold data_block, FIRST_DATA, END_DATA, BBLOCK. change BPB with 4096. intros Hb.
  pose proof (Z.div_le_mono b 4098 4096 ltac:(lia) ltac:(lia)).
  pose proof (Z.div_pos b 4096 ltac:(lia) ltac:(lia)).
  change (4098 / 4096) with 1 in *. lia.
Qed.

Lemma bit_index_eq b : data_block b -> bit_index b = b - BBLOCK b.
Proof.
  intros Hb. pose proof (BBLOCK_range b Hb). unfold bit_index. apply u32_id.
  unfold is_u32, data_block, FIRST_DATA, END_DATA in *. lia.
Qed.

Lemma bit_index_range b : data_block b -> 0 <= bit_index b < 4096.
Proof.
  intros Hb. rewrite bit_index_eq by done. pose proof (BBLOCK_range b Hb).
  unfold data_block, FIRST_DATA, END_DATA, BBLOCK in *. change BPB with 4096 in *.
  pose proof (Z.div_mod b 4096 ltac:(lia)). pose proof (Z.mod_pos_bound b 4096 ltac:(lia)). lia.
Qed.

Lemma bit_location_inj b b' :
  data_block b -> data_block b' ->
  BBLOCK b = BBLOCK b' -> bit_index b = bit_index b' -> b = b'.
Proof. intros Hb Hb' HB. rewrite !bit_index_eq by done. lia. Qed.

Lemma byte_bit_inj t t' : t / 8 = t' / 8 -> t mod 8 = t' mod 8 -> t = t'.
Proof. intros. rewrite (Z.div_mod t 8), (Z.div_mod t' 8) by lia. congruence. Qed.

Lemma BBLOCK_u32 id : is_u32 id -> is_u32 (BBLOCK id).
Proof.
  unfold is_u32, BBLOCK. change BPB with 4096. intros Hid.
  pose proof (Z.div_pos id 4096 ltac:(lia) ltac:(lia)).
  pose proof (Z.div_le_upper_bound id 4096 (2 ^ 20) ltac:(lia) ltac:(lia)). lia.
Qed.

Lemma bit_index_in_buffer id :
  is_u32 id -> (bit_index id / 8 < 512 <-> 2 <= id < END_DATA).
Proof.
  unfold bit_index, END_DATA, BBLOCK, is_u32. change BPB with 4096. intros Hid.
  pose proof (Z.div_mod id 4096 ltac:(lia)).
  pose proof (Z.mod_pos_bound id 4096 ltac:(lia)).
  destruct (Z.le_gt_cases 2 id) as [H2|H2].
  - rewrite u32_id by (unfold is_u32; lia). split; intros Hlt.
    + assert (id - (id / 4096 + 2) < 4096) by
        (apply Z.nle_gt; intros Hge;
         apply (Z.div_le_mono _ _ 8 ltac:(lia)) in Hge; change (4096 / 8) with 512 in Hge; lia).
      lia.
    + apply Z.div_lt_upper_bound; lia.
  - rewrite (Z.div_small id 4096) by lia. unfold u32. rewrite <- (Z.mod_add _ 1) by lia.
    rewrite Z.mod_small by lia. split; [| lia]. intros Hlt.
    apply Z.nle_gt in Hlt. destruct Hlt. apply Z.div_le_lower_bound; lia.
Qed.

(** ** Lemmas: rewriting one byte of the bitmap *)

Definition bitmap_byte (d : disk) (b : Z) : Z :=
  default 0 (block_at d (BBLOCK b) !! Z.to_nat (bit_index b / 8)).

Definition set_bitmap_byte (d : disk) (b v : Z) : disk :=
  Disk (<[BBLOCK b := <[Z.to_nat (bit_index b / 8) := v]> (block_at d (BBLOCK b))]> (blocks d)).

Lemma bitmap_byte_index b :
  data_block b -> 0 <= bit_index b / 8 < 512 /\ 0 <= bit_index b mod 8 < 8.
Proof.
  intros Hb. pose proof (bit_index_range b Hb).
  split; [| apply Z.mod_pos_bound; lia].
  split; [apply Z.div_pos; lia | apply Z.div_lt_upper_bound; lia].
Qed.

Lemma load_bitmap_byte d b :
  disk_ok d -> data_block b ->
  load (block_at d (BBLOCK b)) (bit_index b / 8) = Done (bitmap_byte d b).
Proof.
  intros Hd Hb. destruct (bitmap_byte_index b Hb) as [Hi _].
  unfold load, bitmap_byte. destruct (Z.leb_spec 0 (bit_index b / 8)); [| lia].
  destruct (lookup_lt_is_Some_2 (block_at d (BBLOCK b)) (Z.to_nat (bit_index b / 8))) as [x Hx].
  - rewrite Hd. lia.
  - by rewrite Hx.
Qed.

Lemma bit_update_byte d b v val :
  disk_ok d -> data_block b ->
  (forall j, 0 <= j < 8 ->
     Z.testbit val j = if j =? bit_index b mod 8 then v else Z.testbit (bitmap_byte d b) j) ->
  bit_update d b v (set_bitmap_byte d b val).
Proof.
  intros Hd Hb Hval. destruct (bitmap_byte_index b Hb) as [Hi Hm].
  split; [| split].
  - apply disk_ok_insert; [done |]. by rewrite length_insert.
  - intros b' Hb'. destruct (bitmap_byte_index b' Hb') as [Hi' Hm'].
    unfold block_used, set_bitmap_byte. rewrite block_at_insert.
    destruct (decide (BBLOCK b = BBLOCK b')) as [HB|HB].
    + rewrite list_lookup_insert. rewrite (Hd (BBLOCK b)).
      case_decide as Hidx.
      * destruct Hidx as [Hidx _]. assert (bit_index b / 8 = bit_index b' / 8) by lia.
        simpl. rewrite Hval by lia. unfold bitmap_byte. rewrite HB, Hidx.
        destruct (Z.eqb_spec (bit_index b' mod 8) (bit_index b mod 8)) as [Hq|Hq];
          case_decide as Hbb; subst; try done.
        destruct Hbb. symmetry. apply bit_location_inj; auto using byte_bit_inj.
      * rewrite HB. case_decide as Hbb; [| done]. subst. destruct Hidx. split; [done | lia].
    + case_decide as Hbb; [| done]. by subst.
  - intros id Hid. unfold set_bitmap_byte. rewrite block_at_insert. by case_decide.
Qed.

(** Storing a byte of the bitmap and writing the block back. *)
Lemma store_bitmap_byte bm b v buf :
  bm_ok bm -> data_block b -> buf = block_at (bm_d bm) (BBLOCK b) ->
  (buf ← store buf (bit_index b / 8) v; bm_write_block bm (BBLOCK b) buf) =
  Done (BlockManager (set_bitmap_byte (bm_d bm) b v) (bm_sb bm)).
Proof.
  intros [Hd _] Hb ->. destruct (bitmap_byte_index b Hb) as [Hi _].
  pose proof (BBLOCK_range b Hb).
  unfold store. rewrite (Hd (BBLOCK b)).
  destruct (Z.leb_spec 0 (bit_index b / 8)); [| lia].
  destruct (Z.ltb_spec (bit_index b / 8) (Z.of_nat 512)); [| lia].
  cbn [andb]. rewrite bind_Done. unfold bm_write_block.
  rewrite disk_write_block_in.
  - cbn. unfold set_bitmap_byte. rewrite take_ge by (rewrite length_insert, Hd; lia). done.
  - rewrite BLOCK_NUM_eq. lia.
  - rewrite length_insert, Hd. lia.
Qed.

(** ** The allocator *)

Lemma shiftr3 t : Z.shiftr t 3 = t / 8.
Proof. by rewrite Z.shiftr_div_pow2. Qed.

Lemma block_used_byte d b : block_used d b = Z.testbit (bitmap_byte d b) (bit_index b mod 8).
Proof. reflexivity. Qed.

Lemma bm_read_bitmap bm b buf :
  data_block b -> bm_read_block bm (BBLOCK b) buf = block_at (bm_d bm) (BBLOCK b).
Proof.
  intros Hb. pose proof (BBLOCK_range b Hb). apply disk_read_block_in.
  rewrite BLOCK_NUM_eq. lia.
Qed.

Lemma alloc_scan_used n bm i buf :
  bm_ok bm -> data_block i -> block_used (bm_d bm) i = true ->
  alloc_scan (S n) bm i buf = alloc_scan n bm (i + 1) (block_at (bm_d bm) (BBLOCK i)).
Proof.
  intros [Hd _] Hi Hu. destruct (bitmap_byte_index i Hi) as [_ Hm]. cbn [alloc_scan].
  rewrite bm_read_bitmap by done. fold (bit_index i). rewrite shiftr3.
  rewrite load_bitmap_byte by done. rewrite bind_Done, land_bit_zero by lia.
  rewrite block_used_byte in Hu. by rewrite Hu.
Qed.

Definition set_used (bm : block_manager) (b : Z) : block_manager :=
  BlockManager
    (set_bitmap_byte (bm_d bm) b
       (u8 (Z.lor (bitmap_byte (bm_d bm) b) (Z.shiftl 1 (bit_index b mod 8)))))
    (bm_sb bm).

Lemma alloc_scan_free n bm i buf :
  bm_ok bm -> data_block i -> block_used (bm_d bm) i = false ->
  alloc_scan (S n) bm i buf = Done (set_used bm i, i).
Proof.
  intros Hbm Hi Hu. destruct (bitmap_byte_index i Hi) as [_ Hm]. cbn [alloc_scan].
  rewrite bm_read_bitmap by done. fold (bit_index i). rewrite shiftr3.
  rewrite load_bitmap_byte by (done || apply Hbm). rewrite bind_Done, land_bit_zero by lia.
  rewrite block_used_byte in Hu. rewrite Hu. cbn [negb].
  pose proof (store_bitmap_byte bm i
    (u8 (Z.lor (bitmap_byte (bm_d bm) i) (Z.shiftl 1 (bit_index i mod 8)))) _ Hbm Hi eq_refl) as Hs.
  destruct (store _ _ _) as [buf'|f] ; [| discriminate].
  rewrite bind_Done. simpl in Hs. rewrite Hs. done.
Qed.

Lemma alloc_scan_skip n m bm i buf :
  bm_ok bm -> FIRST_DATA <= i -> i + Z.of_nat m <= END_DATA ->
  (forall b, i <= b < i + Z.of_nat m -> block_used (bm_d bm) b = true) ->
  exists buf', alloc_scan (m + n) bm i buf = alloc_scan n bm (i + Z.of_nat m) buf'.
Proof.
  intros Hbm. revert i buf. induction m as [|m IH]; intros i buf Hi He Hu.
  - exists buf. rewrite Z.add_0_r. done.
  - destruct (IH (i + 1) (block_at (bm_d bm) (BBLOCK i))) as [buf' Hb]; try lia.
    + intros b ?. apply Hu. lia.
    + exists buf'. simpl plus. rewrite alloc_scan_used.
      * rewrite Hb. f_equal. lia.
      * done.
      * unfold data_block. lia.
      * apply Hu. lia.
Qed.

Lemma set_used_update bm b :
  bm_ok bm -> data_block b -> bit_update (bm_d bm) b true (bm_d (set_used bm b)).
Proof.
  intros [Hd _] Hb. destruct (bitmap_byte_index b Hb) as [_ Hm].
  apply bit_update_byte; [done | done |]. intros j Hj.
  rewrite set_bit_testbit by lia. by destruct (j =? _).
Qed.

Lemma set_used_ok bm b : bm_ok bm -> data_block b -> bm_ok (set_used bm b).
Proof. intros Hbm Hb. split; [apply set_used_update; auto | apply Hbm]. Qed.

Lemma first_candidate_std bm :
  bm_ok bm -> first_candidate (bm_sb bm) = FIRST_DATA /\ sb_nblocks (bm_sb bm) = BLOCK_NUM.
Proof. intros [_ ->]. split; reflexivity. Qed.

Lemma alloc_block_scan junk bm :
  bm_ok bm ->
  alloc_block junk bm = alloc_scan (Z.to_nat (BLOCK_NUM - FIRST_DATA)) bm FIRST_DATA junk.
Proof.
  intros Hbm. unfold alloc_block. destruct (first_candidate_std bm Hbm) as [-> ->]. done.
Qed.

(** The head of a filtered interval is its least element with the property. *)
Lemma filter_seqZ_head (P : Z -> Prop) `{!forall z, Decision (P z)} m n b rest :
  filter P (seqZ m n) = b :: rest ->
  m <= b < m + n /\ P b /\ forall c, m <= c < b -> ~ P c.
Proof.
  intros Hf. assert (Hin : b ∈ filter P (seqZ m n)) by (rewrite Hf; left).
  apply list_elem_of_filter in Hin as [HP Hb]. apply elem_of_seqZ in Hb.
  split; [lia |]. split; [done |]. intros c Hc HPc.
  assert (Hs : seqZ m n = seqZ m (b - m) ++ seqZ b (m + n - b)).
  { replace n with ((b - m) + (m + n - b)) at 1 by lia.
    rewrite seqZ_app by lia. do 2 f_equal. lia. }
  assert (Hc' : c ∈ filter P (seqZ m (b - m))).
  { apply list_elem_of_filter. split; [done |]. apply elem_of_seqZ. lia. }
  rewrite Hs, filter_app in Hf.
  destruct (filter P (seqZ m (b - m))) as [|x l] eqn:Hx; [by apply not_elem_of_nil in Hc' |].
  assert (Hxin : x ∈ filter P (seqZ m (b - m))) by (rewrite Hx; left).
  simpl in Hf. injection Hf as -> _.
  apply list_elem_of_filter in Hxin as [_ Hxin]. apply elem_of_seqZ in Hxin. lia.
Qed.

Lemma filter_ext_in (P Q : Z -> Prop) `{!forall z, Decision (P z)}
    `{!forall z, Decision (Q z)} (l : list Z) :
  (forall z, z ∈ l -> (P z <-> Q z)) -> filter P l = filter Q l.
Proof.
  induction l as [|x l IH]; intros HPQ; [done |]. rewrite !filter_cons.
  rewrite IH by (intros; apply HPQ; by right).
  pose proof (HPQ x ltac:(left)). do 2 case_decide; tauto.
Qed.

Lemma filter_drop_head (P Q : Z -> Prop) `{!forall z, Decision (P z)}
    `{!forall z, Decision (Q z)} (l : list Z) b rest :
  NoDup l -> (forall z, z ∈ l -> (Q z <-> P z /\ z <> b)) ->
  filter P l = b :: rest -> filter Q l = rest.
Proof.
  induction 1 as [|x l Hx Hnd IH]; [discriminate |]. intros HQ Hf.
  rewrite filter_cons in Hf |- *.
  destruct (decide (P x)) as [HP|HP].
  - injection Hf as -> <-. destruct (decide (Q b)) as [Hq|Hq].
    { apply HQ in Hq; [by destruct Hq | left]. }
    apply filter_ext_in. intros z Hz.
    rewrite HQ by (by right). split; [tauto |]. intros; split; [done |]. by intros ->.
  - destruct (decide (Q x)) as [Hq|Hq].
    { apply HQ in Hq; [by destruct Hq | left]. }
    apply IH; [| done]. intros z Hz. apply HQ. by right.
Qed.

Lemma free_blocks_data d b : b ∈ free_blocks d <-> data_block b /\ block_used d b = false.
Proof.
  unfold free_blocks, data_block. rewrite list_elem_of_filter, elem_of_seqZ.
  unfold FIRST_DATA, END_DATA. split; intros [? ?]; split; auto; lia.
Qed.

Lemma free_blocks_NoDup d : NoDup (free_blocks d).
Proof. apply NoDup_filter, NoDup_seqZ. Qed.

(** Allocation in terms of the list of free blocks. *)
Lemma alloc_block_done junk bm b rest :
  bm_ok bm -> free_blocks (bm_d bm) = b :: rest ->
  alloc_block junk bm = Done (set_used bm b, b) /\ data_block b /\
  free_blocks (bm_d (set_used bm b)) = rest.
Proof.
  intros Hbm Hf. destruct (filter_seqZ_head _ _ _ _ _ Hf) as (Hb & Hu & Hmin).
  assert (Hdb : data_block b) by (unfold data_block, END_DATA, FIRST_DATA in *; lia).
  split; [| split; [done |]].
  - rewrite alloc_block_scan by done.
    destruct (alloc_scan_skip (Z.to_nat (BLOCK_NUM - b - 1) + 1)%nat
                (Z.to_nat (b - FIRST_DATA)) bm FIRST_DATA junk) as [buf' Hs].
    + done.
    + lia.
    + unfold data_block in Hdb. lia.
    + intros c Hc. destruct (block_used (bm_d bm) c) eqn:E; [done |].
      destruct (Hmin c); [lia | done].
    + replace (Z.to_nat (BLOCK_NUM - FIRST_DATA)) with
        (Z.to_nat (b - FIRST_DATA) + (Z.to_nat (BLOCK_NUM - b - 1) + 1))%nat
        by (unfold data_block, FIRST_DATA, END_DATA in *; rewrite BLOCK_NUM_eq; lia).
      rewrite Hs, Nat.add_1_r, Z2Nat.id by (unfold data_block in *; lia).
      replace (FIRST_DATA + (b - FIRST_DATA)) with b by lia.
      by apply alloc_scan_free.
  - destruct (set_used_update bm b Hbm Hdb) as (_ & Hupd & _).
    eapply filter_drop_head; [apply NoDup_seqZ | | exact Hf].
    intros z Hz. apply elem_of_seqZ in Hz.
    rewrite Hupd by (unfold data_block, FIRST_DATA, END_DATA in *; lia).
    case_decide; split; intros; try tauto; done.
Qed.

Lemma alloc_block_none junk bm :
  bm_ok bm -> free_blocks (bm_d bm) = [] -> alloc_block junk bm = Fault OutOfBounds.
Proof.
  intros Hbm Hf. rewrite alloc_block_scan by done.
  destruct (alloc_scan_skip (Z.to_nat (BLOCK_NUM - END_DATA - 1) + 1)%nat
              (Z.to_nat (END_DATA - FIRST_DATA)) bm FIRST_DATA junk) as [buf' Hs].
  - done.
  - lia.
  - unfold END_DATA, FIRST_DATA. lia.
  - intros b Hb. destruct (block_used (bm_d bm) b) eqn:E; [done |].
    assert (Hin : b ∈ free_blocks (bm_d bm)).
    { apply free_blocks_data. unfold data_block, END_DATA, FIRST_DATA in *. split; [lia | done]. }
    rewrite Hf in Hin. by apply not_elem_of_nil in Hin.
  - replace (Z.to_nat (BLOCK_NUM - FIRST_DATA)) with
      (Z.to_nat (END_DATA - FIRST_DATA) + (Z.to_nat (BLOCK_NUM - END_DATA - 1) + 1))%nat
      by (unfold FIRST_DATA, END_DATA; rewrite BLOCK_NUM_eq; lia).
    rewrite Hs, Nat.add_1_r, Z2Nat.id by (unfold FIRST_DATA, END_DATA; lia).
    replace (FIRST_DATA + (END_DATA - FIRST_DATA)) with END_DATA by lia.
    cbn [alloc_scan]. unfold bm_read_block.
    rewrite disk_read_block_in by (vm_compute; split; congruence).
    change (Z.shiftr (u32 (END_DATA - BBLOCK END_DATA)) 3) with 512.
    unfold load. cbn [Z.leb]. rewrite lookup_ge_None_2; [done |].
    destruct Hbm as [Hd _]. rewrite Hd. lia.
Qed.

Definition set_free (bm : block_manager) (b : Z) : block_manager :=
  BlockManager
    (set_bitmap_byte (bm_d bm) b
       (u8 (Z.land (bitmap_byte (bm_d bm) b) (Z.lnot (Z.shiftl 1 (bit_index b mod 8))))))
    (bm_sb bm).

Lemma free_block_done junk bm b :
  bm_ok bm -> data_block b -> free_block junk bm b = Done (set_free bm b).
Proof.
  intros Hbm Hb. pose proof (BBLOCK_range b Hb). unfold free_block.
  rewrite (u32_id (BBLOCK b)) by (unfold is_u32; lia).
  rewrite bm_read_bitmap by done. fold (bit_index b). rewrite shiftr3.
  rewrite load_bitmap_byte by (done || apply Hbm). rewrite bind_Done.
  by apply store_bitmap_byte.
Qed.

Lemma set_free_update bm b :
  bm_ok bm -> data_block b -> bit_update (bm_d bm) b false (bm_d (set_free bm b)).
Proof.
  intros [Hd _] Hb. destruct (bitmap_byte_index b Hb) as [_ Hm].
  apply bit_update_byte; [done | done |]. intros j Hj.
  rewrite clear_bit_testbit by lia. by destruct (j =? _).
Qed.

Lemma set_free_ok bm b : bm_ok bm -> data_block b -> bm_ok (set_free bm b).
Proof. intros Hbm Hb. split; [apply set_free_update; auto | apply Hbm]. Qed.

#[export] Hint Resolve set_used_ok set_free_ok : yfs.

(** ** Theorems *)

(** On a well-formed disk with a free block in the usable range,
    [alloc_block] returns the lowest-numbered free block, marks exactly that
    block in the bitmap, changes no block of the disk other than the bitmap
    block holding its bit, and so removes the head of the list of free
    blocks. *)
Theorem alloc_block_spec junk bm b rest :
  bm_ok bm -> free_blocks (bm_d bm) = b :: rest ->
  exists bm',
    alloc_block junk bm = Done (bm', b) /\ bm_ok bm' /\ data_block b /\
    (forall c, FIRST_DATA <= c < b -> block_used (bm_d bm) c = true) /\
    bit_update (bm_d bm) b true (bm_d bm') /\ free_blocks (bm_d bm') = rest.
Proof.
  intros Hbm Hf. destruct (alloc_block_done junk bm b rest Hbm Hf) as (Ha & Hb & Hr).
  exists (set_used bm b). split_and!; auto using set_used_update with yfs.
  destruct (filter_seqZ_head _ _ _ _ _ Hf) as (_ & _ & Hmin).
  intros c Hc. destruct (block_used (bm_d bm) c) eqn:E; [done | by destruct (Hmin c Hc)].
Qed.

Lemma alloc_block_spec_witness :
  exists bm', alloc_block zero_block block_manager_new = Done (bm', 353) /\ bm_ok bm'.
Proof.
  destruct (alloc_block_spec zero_block block_manager_new 353
              (tail (free_blocks (bm_d block_manager_new)))) as (bm' & Ha & Hok & _).
  - apply block_manager_new_ok.
  - vm_compute. reflexivity.
  - exists bm'. split; assumption.
Defined.

(** [free_block] of a block in the usable range clears exactly that
    block's bit; freeing the block an allocation just returned gives back the
    same set of free blocks. *)
Theorem free_block_spec junk bm b :
  bm_ok bm -> data_block b ->
  exists bm',
    free_block junk bm b = Done bm' /\ bm_ok bm' /\
    bit_update (bm_d bm) b false (bm_d bm') /\
    (forall bm0, alloc_block junk bm0 = Done (bm, b) -> bm_ok bm0 ->
       free_blocks (bm_d bm0) <> [] -> free_blocks (bm_d bm') = free_blocks (bm_d bm0)).
Proof.
  intros Hbm Hb. exists (set_free bm b).
  pose proof (set_free_update bm b Hbm Hb) as Hupd.
  split; [by apply free_block_done |]. split; [auto with yfs |]. split; [done |].
  intros bm0 Ha Hbm0 Hne. destruct (free_blocks (bm_d bm0)) as [|c rest] eqn:Hf; [done |].
  destruct (alloc_block_done junk bm0 c rest Hbm0 Hf) as (Ha' & Hc & _).
  rewrite Ha in Ha'. injection Ha' as -> ->. rewrite <- Hf.
  destruct Hupd as (_ & Hu & _). destruct (set_used_update bm0 c Hbm0 Hc) as (_ & Hu0 & _).
  assert (Hcf : block_used (bm_d bm0) c = false).
  { apply free_blocks_data. rewrite Hf. left. }
  apply filter_ext_in. intros z Hz. apply elem_of_seqZ in Hz.
  assert (data_block z) by (unfold data_block, FIRST_DATA, END_DATA in *; lia).
  rewrite Hu by done. case_decide; [by subst |]. rewrite Hu0 by done. by rewrite decide_False.
Qed.

Lemma free_block_spec_witness :
  exists bm', free_block zero_block block_manager_new 4000 = Done bm' /\ bm_ok bm'.
Proof.
  destruct (free_block_spec zero_block block_manager_new 4000) as (bm' & Hf & Hok & _).
  - apply block_manager_new_ok.
  - unfold data_block, FIRST_DATA, END_DATA. lia.
  - exists bm'. split; assumption.
Defined.

(** The allocator's end.  Once every block below [END_DATA] = 4099 is in
    use, [alloc_block] does not return 0: the bit index of block 4099 relative
    to its bitmap block is 4096, and the test reads one byte past the
    512-byte buffer, although [sb.nblocks] is 32768. *)
Theorem alloc_block_overruns_bitmap junk bm :
  bm_ok bm ->
  (alloc_block junk bm = Fault OutOfBounds <-> free_blocks (bm_d bm) = []).
Proof.
  intros Hbm. split; [| by apply alloc_block_none].
  destruct (free_blocks (bm_d bm)) as [|b rest] eqn:Hf; [done |].
  destruct (alloc_block_done junk bm b rest Hbm Hf) as [-> _]. discriminate.
Qed.

Lemma alloc_block_overruns_bitmap_witness :
  alloc_block zero_block block_manager_new <> Fault OutOfBounds.
Proof.
  intros Ha.
  apply (alloc_block_overruns_bitmap zero_block block_manager_new block_manager_new_ok) in Ha.
  vm_compute in Ha. discriminate Ha.
Defined.

(** [free_block] touches memory inside its buffer exactly for block
    numbers from 2 to 4098: a block number of 0, which is what a failed
    allocation would leave in an inode, and every block from 4099 on index
    outside of the bitmap buffer. *)
Theorem free_block_bounds junk bm id :
  bm_ok bm -> length junk = 512%nat -> is_u32 id ->
  (is_done (free_block junk bm id) = true <-> 2 <= id < END_DATA).
Proof.
  intros [Hd Hsb] Hj Hid. unfold free_block.
  rewrite (u32_id (BBLOCK id)) by auto using BBLOCK_u32. rewrite shiftr3. fold (bit_index id).
  assert (Hlen : length (bm_read_block bm (BBLOCK id) junk) = 512%nat).
  { unfold bm_read_block, disk_read_block. destruct (_ || _); auto. }
  assert (Ht : 0 <= bit_index id / 8) by (apply Z.div_pos; [apply u32_range | lia]).
  rewrite <- bit_index_in_buffer by done. unfold load, store. rewrite Hlen.
  destruct (Z.leb_spec 0 (bit_index id / 8)); [| lia].
  destruct (Z.le_gt_cases 512 (bit_index id / 8)) as [Hge|Hlt].
  - rewrite lookup_ge_None_2 by (rewrite Hlen; lia). simpl. split; [discriminate | lia].
  - destruct (lookup_lt_is_Some_2 (bm_read_block bm (BBLOCK id) junk)
                (Z.to_nat (bit_index id / 8))) as [x ->]; [rewrite Hlen; lia |].
    rewrite bind_Done. destruct (Z.ltb_spec (bit_index id / 8) (Z.of_nat 512)); [| lia].
    cbn [andb]. rewrite bind_Done. split; [done | intros _].
    unfold bm_write_block, disk_write_block. destruct (_ || _); [done |].
    unfold load_bytes. rewrite length_insert, Hlen. done.
Qed.

Lemma free_block_bounds_witness :
  is_done (free_block zero_block block_manager_new 0) <> true.
Proof.
  intros H.
  apply (free_block_bounds zero_block block_manager_new 0 block_manager_new_ok) in H.
  - lia.
  - reflexivity.
  - unfold is_u32. lia.
Defined.
