(* ===== verification/InodeManager.v ===== *)
(** * The inode manager (src/inode_manager.h, src/inode_manager.cc)

    Inodes are read from and written to the inode table byte for byte; files
    are lists of blocks reached through 32 direct addresses and one indirect
    block.  [time(NULL)] is the argument [cur] of the operations that read the
    clock; the contents of uninitialised local arrays are arguments too. *)

From S2P Require Import Prelude Disk.

(** ** struct inode *)

Record inode := Inode {
  i_type : Z;            (* short *)
  i_size : Z;            (* unsigned int, as the next three *)
  i_atime : Z;
  i_mtime : Z;
  i_ctime : Z;
  i_blocks : list Z      (* blockid_t blocks[NDIRECT+1] *)
}.

Definition NINDIRECT : Z := BLOCK_SIZE / 4.
Definition MAXFILE : Z := NDIRECT + NINDIRECT.

(** [((struct inode * ) buf) + k] *)
Definition inode_off (k : Z) : nat := Z.to_nat (k * sizeof_inode).

Definition inode_of_bytes (p : list Z) : inode :=
  Inode (s16 (le_dec (sub p 0 2))) (le_dec (sub p 4 4)) (le_dec (sub p 8 4))
        (le_dec (sub p 12 4)) (le_dec (sub p 16 4)) (dec32s 33 (sub p 20 132)).

Definition inode_bytes (pad : list Z) (ino : inode) : list Z :=
  le_enc 2 (i_type ino) ++ pad ++ le_enc 4 (i_size ino) ++ le_enc 4 (i_atime ino) ++
  le_enc 4 (i_mtime ino) ++ le_enc 4 (i_ctime ino) ++ enc32s (i_blocks ino).

Definition load_inode (buf : list Z) (k : Z) : inode :=
  inode_of_bytes (sub buf (inode_off k) 152).

(** An assignment to [*ino_disk] leaves the padding bytes as they are. *)
Definition store_inode (buf : list Z) (k : Z) (ino : inode) : list Z :=
  splice buf (inode_off k) (inode_bytes (sub buf (inode_off k + 2) 2) ino).

Definition set_times (ino : inode) (mtime ctime : Z) : inode :=
  Inode (i_type ino) (i_size ino) (i_atime ino) mtime ctime (i_blocks ino).
Definition set_atime (ino : inode) (t : Z) : inode :=
  Inode (i_type ino) (i_size ino) t (i_mtime ino) (i_ctime ino) (i_blocks ino).
Definition set_size (ino : inode) (n : Z) : inode :=
  Inode (i_type ino) n (i_atime ino) (i_mtime ino) (i_ctime ino) (i_blocks ino).
Definition set_type (ino : inode) (t : Z) : inode :=
  Inode t (i_size ino) (i_atime ino) (i_mtime ino) (i_ctime ino) (i_blocks ino).
Definition set_block (ino : inode) (i : nat) (b : Z) : inode :=
  Inode (i_type ino) (i_size ino) (i_atime ino) (i_mtime ino) (i_ctime ino)
        (<[i := b]> (i_blocks ino)).

(** ** extent_protocol::attr *)

Record attr := Attr { a_type : Z; a_atime : Z; a_mtime : Z; a_ctime : Z; a_size : Z }.

Definition T_DIR : Z := 1.
Definition T_FILE : Z := 2.

Section inode_manager.
(** Uninitialised [char buf[BLOCK_SIZE]] and [char ind_buf[BLOCK_SIZE]]. *)
Variables junk junk_ind : list Z.

(** ** alloc_inode *)

(** The inner loop over the inodes of block [i]: [Some] is a [return] out of
    both loops, [None] the end of the inner loop. *)
Fixpoint inode_slots (n : nat) (cur type : Z) (bm : block_manager) (i j : Z) (buf : list Z)
    : outcome (option (block_manager * Z)) :=
  match n with
  | O => Done None
  | S n =>
      if (i =? 0) && (j =? 0) then inode_slots n cur type bm i (j + 1) buf
      else if INODE_NUM <=? j + i * IPB then Done (Some (bm, 0))
      else
        let ino := load_inode buf j in
        if i_type ino =? 0 then
          let ino' := Inode (s16 type) 0 (i_atime ino) (u32 cur) (u32 cur) (replicate 33 0) in
          bm ← bm_write_block bm (i + IBLOCK 0 (sb_nblocks (bm_sb bm))) (store_inode buf j ino');
          mret (Some (bm, j + i * IPB))
        else inode_slots n cur type bm i (j + 1) buf
  end.

Fixpoint inode_table_scan (n : nat) (cur type : Z) (bm : block_manager) (i : Z) (buf : list Z)
    : outcome (block_manager * Z) :=
  match n with
  | O => Done (bm, 0)
  | S n =>
      let buf := bm_read_block bm (i + IBLOCK 0 (sb_nblocks (bm_sb bm))) buf in
      r ← inode_slots (Z.to_nat IPB) cur type bm i 0 buf;
      match r with
      | Some res => Done res
      | None => inode_table_scan n cur type bm (i + 1) buf
      end
  end.

Definition alloc_inode (cur type : Z) (bm : block_manager) : outcome (block_manager * Z) :=
  inode_table_scan (Z.to_nat (CEIL (sb_ninodes (bm_sb bm)) IPB)) cur type bm 0 junk.

(** [exit(0)] when the first inode is not 1. *)
Definition inode_manager_new (cur : Z) : outcome block_manager :=
  r ← alloc_inode cur T_DIR block_manager_new;
  if snd r =? 1 then Done (fst r) else Fault AssertFailed.

(** ** get_inode, put_inode, free_inode *)

Definition get_inode (bm : block_manager) (inum : Z) : option inode :=
  if (inum <? 0) || (INODE_NUM <=? inum) then None
  else
    let buf := bm_read_block bm (IBLOCK inum (sb_nblocks (bm_sb bm))) junk in
    let ino_disk := load_inode buf (inum mod IPB) in
    if i_type ino_disk =? 0 then None else Some ino_disk.

Definition put_inode (bm : block_manager) (inum : Z) (ino : inode) : outcome block_manager :=
  let buf := bm_read_block bm (IBLOCK inum (sb_nblocks (bm_sb bm))) junk in
  bm_write_block bm (IBLOCK inum (sb_nblocks (bm_sb bm))) (store_inode buf (inum mod IPB) ino).

Definition free_inode (cur : Z) (bm : block_manager) (inum : Z) : outcome block_manager :=
  match get_inode bm inum with
  | None => Done bm
  | Some ino =>
      if i_type ino =? 0 then Done bm
      else put_inode bm inum (set_times (set_type ino 0) (u32 cur) (u32 cur))
  end.

(** ** BLK(ino, ind, i), as a value and as the target of an assignment *)

Definition BLK (ino : inode) (ind : list Z) (i : Z) : outcome Z :=
  if i <? NDIRECT then load (i_blocks ino) i else load32 ind (4 * (i - NDIRECT)).

Definition BLK_set (ino : inode) (ind : list Z) (i v : Z) : outcome (inode * list Z) :=
  if i <? NDIRECT
  then bs ← store (i_blocks ino) i v;
       mret (Inode (i_type ino) (i_size ino) (i_atime ino) (i_mtime ino) (i_ctime ino) bs, ind)
  else ind ← store32 ind (4 * (i - NDIRECT)) v; mret (ino, ind).

(** [ino->blocks[NDIRECT]] *)
Definition ind_block (ino : inode) : Z := default 0 (i_blocks ino !! Z.to_nat NDIRECT).

(** ** read_file *)

Fixpoint read_blocks (n : nat) (bm : block_manager) (ino : inode) (ind : list Z) (i : Z)
    (buf out : list Z) : outcome (list Z * list Z) :=
  match n with
  | O => Done (buf, out)
  | S n =>
      b ← BLK ino ind i;
      let buf := bm_read_block bm b buf in
      out ← store_bytes out (i * BLOCK_SIZE) (take (Z.to_nat BLOCK_SIZE) buf);
      read_blocks n bm ino ind (i + 1) buf out
  end.

(** [out] is [( *buf_out, *size)] as the caller passes them and gets them
    back, [None] for a null pointer.  Every byte of the [malloc]ed buffer is
    overwritten before it is returned, so it starts as zeroes here. *)
Definition read_file (cur : Z) (bm : block_manager) (inum : Z) (out : option (list Z) * Z)
    : outcome (block_manager * (option (list Z) * Z)) :=
  match get_inode bm inum with
  | None => Done (bm, out)
  | Some ino =>
      if i_type ino =? 0 then Done (bm, (None, 0))
      else
        let bc := CEIL (i_size ino) BLOCK_SIZE in
        let ind := if NDIRECT <? bc then bm_read_block bm (ind_block ino) junk_ind else junk_ind in
        let size := s32 (i_size ino) in
        if size =? 0 then Done (bm, (fst out, size))
        else
          r ← read_blocks (Z.to_nat (bc - 1)) bm ino ind 0 junk
                (replicate (Z.to_nat (i_size ino)) 0);
          let '(buf, mem) := r in
          b ← BLK ino ind (bc - 1);
          let buf := bm_read_block bm b buf in
          let last := if i_size ino mod BLOCK_SIZE =? 0 then BLOCK_SIZE
                      else i_size ino mod BLOCK_SIZE in
          mem ← store_bytes mem ((bc - 1) * BLOCK_SIZE) (take (Z.to_nat last) buf);
          bm ← put_inode bm inum (set_atime ino (u32 cur));
          mret (bm, (Some mem, size))
  end.

(** ** write_file *)

(** [bm->write_block(BLK(ino, ind, i), buf + i * BLOCK_SIZE)] for [n]
    successive values of [i]. *)
Fixpoint write_blocks (n : nat) (bm : block_manager) (ino : inode) (ind : list Z) (i : Z)
    (buf : list Z) : outcome block_manager :=
  match n with
  | O => Done bm
  | S n =>
      b ← BLK ino ind i;
      bm ← bm_write_block bm b (drop (Z.to_nat (i * BLOCK_SIZE)) buf);
      write_blocks n bm ino ind (i + 1) buf
  end.

Fixpoint free_tail (n : nat) (bm : block_manager) (ino : inode) (ind : list Z) (i : Z)
    : outcome (block_manager * inode * list Z) :=
  match n with
  | O => Done (bm, ino, ind)
  | S n =>
      b ← BLK ino ind i;
      bm ← free_block junk bm b;
      r ← BLK_set ino ind i 0;
      free_tail n bm (fst r) (snd r) (i + 1)
  end.

Fixpoint grow_blocks (n : nat) (bm : block_manager) (ino : inode) (ind : list Z) (i : Z)
    (buf : list Z) : outcome (block_manager * inode * list Z) :=
  match n with
  | O => Done (bm, ino, ind)
  | S n =>
      a ← alloc_block junk bm;
      r ← BLK_set ino ind i (snd a);
      b ← BLK (fst r) (snd r) i;
      bm ← bm_write_block (fst a) b (drop (Z.to_nat (i * BLOCK_SIZE)) buf);
      grow_blocks n bm (fst r) (snd r) (i + 1) buf
  end.

(** [buf] is the memory from the pointer on; [size] is an [int]. *)
Definition write_file (cur : Z) (bm : block_manager) (inum : Z) (buf : list Z) (size : Z)
    : outcome block_manager :=
  match get_inode bm inum with
  | None => Done bm
  | Some ino =>
      if i_type ino =? 0 then Done bm
      else
        let bc := CEIL (i_size ino) BLOCK_SIZE in
        let bc_new := CEIL size BLOCK_SIZE in
        let ind := if NDIRECT <? bc then bm_read_block bm (ind_block ino) junk_ind else junk_ind in
        bm ← write_blocks (Z.to_nat (Z.min bc_new bc)) bm ino ind 0 buf;
        if bc_new =? bc then
          let ino := set_times ino (u32 cur) (u32 cur) in
          let ino := if u32 size =? i_size ino then ino
                     else set_times (set_size ino (u32 size)) (i_mtime ino) (u32 cur) in
          put_inode bm inum ino
        else if bc_new <? bc then
          r ← free_tail (Z.to_nat (bc - bc_new)) bm ino ind bc_new;
          let '(bm, ino, ind) := r in
          r ← (if (NDIRECT <? bc) && (bc_new <=? NDIRECT)
               then bm ← free_block junk bm (ind_block ino);
                    mret (bm, set_block ino (Z.to_nat NDIRECT) 0)
               else mret (bm, ino));
          put_inode (fst r) inum (set_size (set_times (snd r) (u32 cur) (u32 cur)) (u32 size))
        else
          r ← (if (bc <=? NDIRECT) && (NDIRECT <? bc_new)
               then a ← alloc_block junk bm;
                    mret (fst a, set_block ino (Z.to_nat NDIRECT) (snd a), zero_block)
               else mret (bm, ino, ind));
          let '(bm, ino, ind) := r in
          r ← grow_blocks (Z.to_nat (bc_new - bc)) bm ino ind bc buf;
          let '(bm, ino, ind) := r in
          bm ← (if ind_block ino =? 0 then mret bm else bm_write_block bm (ind_block ino) ind);
          put_inode bm inum (set_size (set_times ino (u32 cur) (u32 cur)) (u32 size))
  end.

(** ** getattr and remove_file *)

Definition im_getattr (bm : block_manager) (inum : Z) : attr :=
  let buf := bm_read_block bm (u32 (IBLOCK inum (sb_nblocks (bm_sb bm)))) junk in
  let ino_disk := load_inode buf (inum mod IPB) in
  Attr (u32 (i_type ino_disk)) (i_atime ino_disk) (i_mtime ino_disk) (i_ctime ino_disk)
       (i_size ino_disk).

Fixpoint free_blocks_of (n : nat) (bm : block_manager) (ino : inode) (ind : list Z) (i : Z)
    : outcome block_manager :=
  match n with
  | O => Done bm
  | S n =>
      b ← BLK ino ind i;
      bm ← free_block junk bm b;
      free_blocks_of n bm ino ind (i + 1)
  end.

Definition remove_file (cur : Z) (bm : block_manager) (inum : Z) : outcome block_manager :=
  match get_inode bm inum with
  | None => Done bm
  | Some ino =>
      if i_type ino =? 0 then Done bm
      else
        let bc := CEIL (i_size ino) BLOCK_SIZE in
        r ← (if NDIRECT <? bc
             then let ind := bm_read_block bm (ind_block ino) junk_ind in
                  bm ← free_block junk bm (ind_block ino); mret (bm, ind)
             else mret (bm, junk_ind));
        bm ← free_blocks_of (Z.to_nat bc) (fst r) ino (snd r) 0;
        free_inode cur bm inum
  end.

End inode_manager.

(** ** Lemmas: the layout of an inode *)

Definition inode_ok (ino : inode) : Prop :=
  is_s16 (i_type ino) /\ is_u32 (i_size ino) /\ is_u32 (i_atime ino) /\
  is_u32 (i_mtime ino) /\ is_u32 (i_ctime ino) /\
  length (i_blocks ino) = 33%nat /\ Forall is_u32 (i_blocks ino).

Lemma sub_app_l {A} (l k : list A) off n :
  (off + n <= length l)%nat -> sub (l ++ k) off n = sub l off n.
Proof.
  intros. unfold sub. rewrite drop_app_le, take_app_le; [done | rewrite length_drop |]; lia.
Qed.

Lemma sub_app_r {A} (l k : list A) off n :
  (length l <= off)%nat -> sub (l ++ k) off n = sub k (off - length l) n.
Proof. intros. unfold sub. by rewrite drop_app_ge. Qed.

Lemma inode_of_inode_bytes pad ino rest :
  length pad = 2%nat -> inode_ok ino -> inode_of_bytes (inode_bytes pad ino ++ rest) = ino.
Proof.
  intros Hp (Ht & Hs & Ha & Hm & Hc & Hl & Hb). unfold inode_of_bytes, inode_bytes.
  destruct ino as [ty sz at_ mt ct bs]; cbn [i_type i_size i_atime i_mtime i_ctime i_blocks] in *.
  rewrite <- !app_assoc.
  assert (Hb' : dec32s 33 (sub (enc32s bs ++ rest) 0 132) = bs).
  { rewrite sub_app_l by (rewrite length_enc32s; lia).
    rewrite sub_all by (rewrite length_enc32s; lia).
    rewrite <- (app_nil_r (enc32s bs)), <- Hl. by apply dec_enc32s. }
  f_equal;
    repeat (rewrite sub_app_r by (rewrite ?length_le_enc; lia); rewrite ?length_le_enc, ?Hp;
            cbn [Nat.sub]);
    try (rewrite sub_app_l by (rewrite ?length_le_enc; lia);
         rewrite sub_all by apply length_le_enc);
    try (apply le_dec_enc32; assumption); [| assumption].
  rewrite le_dec_enc. unfold s16. change (8 * Z.of_nat 2) with 16.
  rewrite wrap_signed_mod by lia. by apply wrap_signed_id.
Qed.

Lemma length_inode_bytes pad ino :
  length pad = 2%nat -> length (i_blocks ino) = 33%nat ->
  length (inode_bytes pad ino) = 152%nat.
Proof.
  intros Hp Hl. unfold inode_bytes. rewrite !length_app, !length_le_enc, length_enc32s. lia.
Qed.

Lemma inode_of_bytes_ok p : length p = 152%nat -> inode_ok (inode_of_bytes p).
Proof.
  intros Hl. unfold inode_of_bytes, inode_ok. cbn -[dec32s].
  split_and!; try (apply le_dec_u32, length_sub; lia).
  - apply (wrap_signed_range 16). lia.
  - apply length_dec32s.
  - apply dec32s_u32. rewrite length_sub by lia. lia.
Qed.

Lemma inode_off_eq k : 0 <= k < 3 -> Z.of_nat (inode_off k) = k * 152.
Proof. intros. unfold inode_off. change sizeof_inode with 152. lia. Qed.

Lemma load_inode_ok buf k :
  length buf = 512%nat -> 0 <= k < 3 -> inode_ok (load_inode buf k).
Proof.
  intros Hl Hk. pose proof (inode_off_eq k Hk).
  apply inode_of_bytes_ok. rewrite length_sub; lia.
Qed.

Lemma store_inode_splice buf k ino :
  length buf = 512%nat -> 0 <= k < 3 -> inode_ok ino ->
  length (inode_bytes (sub buf (inode_off k + 2) 2) ino) = 152%nat /\
  (inode_off k + 152 <= 512)%nat.
Proof.
  intros Hl Hk Hino. pose proof (inode_off_eq k Hk). split; [| lia].
  apply length_inode_bytes; [apply length_sub; lia | apply Hino].
Qed.

Lemma length_store_inode buf k ino :
  length buf = 512%nat -> 0 <= k < 3 -> inode_ok ino ->
  length (store_inode buf k ino) = 512%nat.
Proof.
  intros Hl Hk Hino. destruct (store_inode_splice buf k ino Hl Hk Hino).
  unfold store_inode. rewrite length_splice; lia.
Qed.

Lemma load_store_inode buf k k' ino :
  length buf = 512%nat -> 0 <= k < 3 -> 0 <= k' < 3 -> inode_ok ino ->
  load_inode (store_inode buf k ino) k' = if decide (k = k') then ino else load_inode buf k'.
Proof.
  intros Hl Hk Hk' Hino. destruct (store_inode_splice buf k ino Hl Hk Hino) as [Hlen Hoff].
  pose proof (inode_off_eq k Hk). pose proof (inode_off_eq k' Hk').
  unfold load_inode, store_inode. case_decide as Hkk.
  - subst k'. rewrite <- Hlen, sub_splice_same by lia.
    rewrite <- (app_nil_r (inode_bytes _ _)). apply inode_of_inode_bytes; [| done].
    apply length_sub. lia.
  - rewrite sub_splice_disj; [done | lia | lia |]. rewrite Hlen. lia.
Qed.
