(* ===== verification/FileSystem.v ===== *)
(** * Files on the disk: what the inode manager's operations do

    The disk is looked at through three views: the inode table, the bitmap of
    used blocks and the data blocks.  [eff] says how an operation changes
    each of them; every operation of InodeManager.v gets such a description,
    and the invariant [fs_ok] and the file contents [file_data] are then
    proved from the views. *)

From S2P Require Import Prelude Disk InodeManager.

(** ** Views and effects *)

Definition valid_inum (n : Z) : Prop := 0 <= n < INODE_NUM.

Definition inode_at (d : disk) (n : Z) : inode :=
  load_inode (block_at d (IBLOCK n BLOCK_NUM)) (n mod IPB).

(** [bm'] is [bm] with the data blocks of [A], the bitmap bits of [S] and the
    inodes of [I] replaced. *)
Definition eff (bm bm' : block_manager)
    (A : gmap Z (list Z)) (S : gmap Z bool) (I : gmap Z inode) : Prop :=
  bm_ok bm' /\
  (forall b, data_block b ->
     block_at (bm_d bm') b = default (block_at (bm_d bm) b) (A !! b)) /\
  (forall b, data_block b ->
     block_used (bm_d bm') b = default (block_used (bm_d bm) b) (S !! b)) /\
  (forall n, valid_inum n ->
     inode_at (bm_d bm') n = default (inode_at (bm_d bm) n) (I !! n)).

Lemma eff_refl bm : bm_ok bm -> eff bm bm ∅ ∅ ∅.
Proof. intros. split_and!; [done | intros; by rewrite lookup_empty ..]. Qed.

Lemma default_union {V} (x : V) (m1 m2 : gmap Z V) k :
  default (default x (m1 !! k)) (m2 !! k) = default x ((m2 ∪ m1) !! k).
Proof. rewrite lookup_union. by destruct (m2 !! k), (m1 !! k). Qed.

Lemma eff_trans bm1 bm2 bm3 A1 A2 S1 S2 I1 I2 :
  eff bm1 bm2 A1 S1 I1 -> eff bm2 bm3 A2 S2 I2 ->
  eff bm1 bm3 (A2 ∪ A1) (S2 ∪ S1) (I2 ∪ I1).
Proof.
  intros (_ & HA1 & HS1 & HI1) (Hok & HA2 & HS2 & HI2).
  split_and!; [done | intros x Hx ..]; rewrite <- default_union.
  - by rewrite HA2, HA1.
  - by rewrite HS2, HS1.
  - by rewrite HI2, HI1.
Qed.

Lemma eff_ok bm bm' A S I : eff bm bm' A S I -> bm_ok bm'.
Proof. by intros []. Qed.
#[export] Hint Resolve eff_ok eff_refl : yfs.

(** ** Where things are on the disk *)

Lemma IBLOCK_range n : valid_inum n -> 11 <= IBLOCK n BLOCK_NUM <= 352.
Proof.
  unfold valid_inum, IBLOCK, INODE_NUM. change (BLOCK_NUM / BPB) with 8. change IPB with 3.
  intros. pose proof (Z.div_pos n 3 ltac:(lia) ltac:(lia)).
  pose proof (Z.div_le_mono n 1023 3 ltac:(lia) ltac:(lia)).
  change (1023 / 3) with 341 in *. lia.
Qed.

Lemma inum_slot n : 0 <= n mod IPB < 3.
Proof. change IPB with 3. apply Z.mod_pos_bound. lia. Qed.

Lemma inum_location_inj n m :
  IBLOCK n BLOCK_NUM = IBLOCK m BLOCK_NUM -> n mod IPB = m mod IPB -> n = m.
Proof.
  unfold IBLOCK. change (BLOCK_NUM / BPB) with 8. change IPB with 3. intros.
  rewrite (Z.div_mod n 3), (Z.div_mod m 3) by lia. lia.
Qed.

Lemma std_nblocks bm : bm_ok bm -> sb_nblocks (bm_sb bm) = BLOCK_NUM.
Proof. by intros [_ ->]. Qed.

Lemma inode_at_ok bm n : bm_ok bm -> inode_ok (inode_at (bm_d bm) n).
Proof. intros [Hd _]. apply load_inode_ok; [apply Hd | apply inum_slot]. Qed.

Ltac locs :=
  repeat match goal with
  | H : data_block ?b |- _ =>
      lazymatch goal with
      | _ : 2 <= BBLOCK b <= 3 |- _ => fail
      | _ => pose proof (BBLOCK_range b H)
      end
  | H : valid_inum ?n |- _ =>
      lazymatch goal with
      | _ : 11 <= IBLOCK n BLOCK_NUM <= 352 |- _ => fail
      | _ => pose proof (IBLOCK_range n H)
      end
  end; unfold data_block, FIRST_DATA, END_DATA in *; try rewrite BLOCK_NUM_eq in *; lia.

(** ** The primitive effects *)

Lemma bm_write_data bm b c :
  bm_ok bm -> data_block b -> (512 <= length c)%nat ->
  exists bm', bm_write_block bm b c = Done bm' /\ eff bm bm' {[b := take 512 c]} ∅ ∅.
Proof.
  intros [Hd Hsb] Hb Hc. eexists. split.
  - unfold bm_write_block. rewrite disk_write_block_in; [reflexivity | locs | done].
  - split_and!; [split; [| done] | intros x Hx ..]; cbn [bm_d].
    + apply disk_ok_insert; [done |]. rewrite length_take. lia.
    + rewrite block_at_insert, lookup_singleton. by case_decide.
    + unfold block_used. rewrite block_at_insert, lookup_empty, decide_False by locs. done.
    + unfold inode_at. rewrite block_at_insert, lookup_empty, decide_False by locs. done.
Qed.

Lemma bit_update_eff bm b v d' :
  bm_ok bm -> data_block b -> bit_update (bm_d bm) b v d' ->
  eff bm (BlockManager d' (bm_sb bm)) ∅ {[b := v]} ∅.
Proof.
  intros [Hd Hsb] Hb (Hd' & Hu & Hsame).
  split_and!; [by split | intros x Hx ..]; cbn [bm_d].
  - rewrite Hsame, lookup_empty by locs. done.
  - rewrite Hu, lookup_singleton by done. repeat case_decide; subst; done.
  - unfold inode_at. rewrite Hsame, lookup_empty by locs. done.
Qed.

Lemma alloc_block_eff junk bm b rest :
  bm_ok bm -> free_blocks (bm_d bm) = b :: rest ->
  exists bm', alloc_block junk bm = Done (bm', b) /\ eff bm bm' ∅ {[b := true]} ∅ /\
              data_block b /\ free_blocks (bm_d bm') = rest.
Proof.
  intros Hbm Hf. destruct (alloc_block_done junk bm b rest Hbm Hf) as (Ha & Hb & Hr).
  exists (set_used bm b). split_and!; auto. apply bit_update_eff; auto using set_used_update.
Qed.

Lemma free_block_eff junk bm b :
  bm_ok bm -> data_block b ->
  exists bm', free_block junk bm b = Done bm' /\ eff bm bm' ∅ {[b := false]} ∅.
Proof.
  intros Hbm Hb. exists (set_free bm b). split; [by apply free_block_done |].
  apply bit_update_eff; auto using set_free_update.
Qed.

(** Writing inode [n] of the table. *)
Lemma write_inode_eff bm n ino :
  bm_ok bm -> valid_inum n -> inode_ok ino ->
  exists bm',
    bm_write_block bm (IBLOCK n BLOCK_NUM)
      (store_inode (block_at (bm_d bm) (IBLOCK n BLOCK_NUM)) (n mod IPB) ino) = Done bm' /\
    eff bm bm' ∅ ∅ {[n := ino]}.
Proof.
  intros [Hd Hsb] Hn Hino. pose proof (inum_slot n) as Hk.
  pose proof (length_store_inode _ _ ino (Hd (IBLOCK n BLOCK_NUM)) Hk Hino) as Hlen.
  eexists. split.
  - unfold bm_write_block. rewrite disk_write_block_in; [reflexivity | locs | lia].
  - split_and!; [split; [| done] | intros x Hx ..]; cbn [bm_d].
    + apply disk_ok_insert; [done |]. rewrite length_take. lia.
    + rewrite block_at_insert, lookup_empty, decide_False by locs. done.
    + unfold block_used. rewrite block_at_insert, lookup_empty, decide_False by locs. done.
    + unfold inode_at. rewrite block_at_insert, lookup_singleton, take_ge by lia.
      destruct (decide (IBLOCK n BLOCK_NUM = IBLOCK x BLOCK_NUM)) as [He|He].
      * rewrite load_store_inode; auto using inum_slot. rewrite He.
        repeat case_decide; subst; try done. destruct H0. by apply inum_location_inj.
      * rewrite decide_False by (by intros ->). done.
Qed.

Lemma bm_read_table bm n junk :
  bm_ok bm -> valid_inum n ->
  bm_read_block bm (IBLOCK n (sb_nblocks (bm_sb bm))) junk = block_at (bm_d bm) (IBLOCK n BLOCK_NUM).
Proof.
  intros Hbm Hn. rewrite std_nblocks by done. apply disk_read_block_in. locs.
Qed.

Lemma put_inode_eff junk bm n ino :
  bm_ok bm -> valid_inum n -> inode_ok ino ->
  exists bm', put_inode junk bm n ino = Done bm' /\ eff bm bm' ∅ ∅ {[n := ino]}.
Proof.
  intros. unfold put_inode. rewrite bm_read_table, std_nblocks by done.
  by apply write_inode_eff.
Qed.

Lemma get_inode_view junk bm n :
  bm_ok bm ->
  get_inode junk bm n =
  if decide (valid_inum n /\ i_type (inode_at (bm_d bm) n) <> 0)
  then Some (inode_at (bm_d bm) n) else None.
Proof.
  intros Hbm. unfold get_inode. destruct (decide (valid_inum n)) as [Hn|Hn].
  - rewrite bm_read_table by done. fold (inode_at (bm_d bm) n).
    unfold valid_inum in Hn. destruct (Z.ltb_spec n 0); [lia |].
    destruct (Z.leb_spec INODE_NUM n); [lia |]. cbn [orb].
    destruct (Z.eqb_spec (i_type (inode_at (bm_d bm) n)) 0).
    + rewrite decide_False; [done | tauto].
    + rewrite decide_True; [done | split; [done |]; done].
  - rewrite decide_False by tauto. unfold valid_inum in Hn.
    destruct (Z.ltb_spec n 0); [done |]. destruct (Z.leb_spec INODE_NUM n); [done | lia].
Qed.

(** ** Block pointers

    The addresses [BLK(ino, ind, 0)], ..., [BLK(ino, ind, 159)]. *)

Definition ptrs (ino : inode) (ind : list Z) : list Z :=
  take 32 (i_blocks ino) ++ dec32s 128 ind.

Lemma length_ptrs ino ind : length (i_blocks ino) = 33%nat -> length (ptrs ino ind) = 160%nat.
Proof. intros H. unfold ptrs. rewrite length_app, length_take, length_dec32s. lia. Qed.

Lemma ptrs_lookup_l ino ind i : (i < 32)%nat -> length (i_blocks ino) = 33%nat ->
  ptrs ino ind !! i = i_blocks ino !! i.
Proof.
  intros. unfold ptrs. rewrite lookup_app_l by (rewrite length_take; lia).
  by rewrite lookup_take_lt.
Qed.

Lemma ptrs_lookup_r ino ind i : (32 <= i)%nat -> length (i_blocks ino) = 33%nat ->
  ptrs ino ind !! i = dec32s 128 ind !! (i - 32)%nat.
Proof.
  intros. unfold ptrs. rewrite lookup_app_r by (rewrite length_take; lia).
  rewrite length_take. f_equal. lia.
Qed.

Lemma BLK_ptrs ino ind i b :
  length (i_blocks ino) = 33%nat -> length ind = 512%nat ->
  ptrs ino ind !! i = Some b -> BLK ino ind (Z.of_nat i) = Done b.
Proof.
  intros Hl Hind Hi. unfold BLK, NDIRECT.
  pose proof (lookup_lt_Some _ _ _ Hi) as Hlt. rewrite length_ptrs in Hlt by done.
  destruct (Z.ltb_spec (Z.of_nat i) 32).
  - rewrite ptrs_lookup_l in Hi by (lia || done).
    unfold load. destruct (Z.leb_spec 0 (Z.of_nat i)); [| lia]. by rewrite Nat2Z.id, Hi.
  - rewrite ptrs_lookup_r, lookup_dec32s in Hi by (lia || done). injection Hi as <-.
    replace (4 * (Z.of_nat i - 32)) with (4 * Z.of_nat (i - 32)) by lia.
    apply load32_done. lia.
Qed.

Definition with_blocks (ino : inode) (bs : list Z) : inode :=
  Inode (i_type ino) (i_size ino) (i_atime ino) (i_mtime ino) (i_ctime ino) bs.

(** [ino'] is [ino] with other direct block addresses. *)
Definition same_head (ino ino' : inode) : Prop :=
  ino' = with_blocks ino (i_blocks ino') /\ ind_block ino' = ind_block ino.

Lemma same_head_refl ino : same_head ino ino.
Proof. split; [by destruct ino | done]. Qed.

Lemma same_head_trans a b c : same_head a b -> same_head b c -> same_head a c.
Proof.
  intros [H1 E1] [H2 E2]. split; [| congruence]. rewrite H2, H1. done.
Qed.

Lemma set_block_ok ino i v : inode_ok ino -> is_u32 v -> inode_ok (set_block ino i v).
Proof.
  intros (? & ? & ? & ? & ? & ? & ?) Hv. unfold inode_ok, set_block; cbn.
  rewrite length_insert. split_and!; auto. by apply Forall_insert.
Qed.

Lemma BLK_set_ptrs ino ind i v :
  inode_ok ino -> length ind = 512%nat -> (i < 160)%nat -> is_u32 v ->
  exists ino' ind',
    BLK_set ino ind (Z.of_nat i) v = Done (ino', ind') /\
    ptrs ino' ind' = <[i := v]> (ptrs ino ind) /\
    same_head ino ino' /\ inode_ok ino' /\ length ind' = 512%nat.
Proof.
  intros Hino Hind Hi Hv. assert (Hl : length (i_blocks ino) = 33%nat) by apply Hino.
  unfold BLK_set, NDIRECT. destruct (Z.ltb_spec (Z.of_nat i) 32).
  - unfold store. rewrite Hl. destruct (Z.leb_spec 0 (Z.of_nat i)); [| lia].
    destruct (Z.ltb_spec (Z.of_nat i) (Z.of_nat 33)); [| lia]. cbn [andb]. rewrite Nat2Z.id.
    do 2 eexists. split; [reflexivity |]. split_and!; auto.
    + unfold ptrs. cbn. rewrite insert_app_l by (rewrite length_take; lia).
      by rewrite take_insert_lt by lia.
    + split; [done |]. unfold ind_block. cbn.
      rewrite list_lookup_insert_ne; [done |]. unfold NDIRECT. lia.
    + apply (set_block_ok ino i v Hino Hv).
  - replace (4 * (Z.of_nat i - 32)) with (4 * Z.of_nat (i - 32)) by lia.
    rewrite store32_done by lia. do 2 eexists. split; [reflexivity |].
    split_and!; auto using same_head_refl.
    + unfold ptrs. rewrite insert_app_r_alt by (rewrite length_take; lia).
      rewrite length_take, dec32s_splice by (lia || done).
      do 2 f_equal. lia.
    + rewrite length_splice; rewrite ?length_le_enc; lia.
Qed.

(** ** Sequences of updates *)

Fixpoint wmap {V} (l : list (Z * V)) : gmap Z V :=
  match l with
  | [] => ∅
  | (b, c) :: l => wmap l ∪ {[b := c]}
  end.

Lemma wmap_not_in {V} (l : list (Z * V)) b : b ∉ l.*1 -> wmap l !! b = None.
Proof.
  induction l as [|[b' c] l IH]; [intros; apply lookup_empty |].
  cbn [fmap list_fmap fst]. intros Hb. apply not_elem_of_cons in Hb as [Hne Hb]. simpl wmap.
  rewrite lookup_union, IH by done. rewrite lookup_singleton_ne by done. done.
Qed.

Lemma wmap_in {V} (l : list (Z * V)) b c :
  NoDup l.*1 -> (b, c) ∈ l -> wmap l !! b = Some c.
Proof.
  induction l as [|[b' c'] l IH]; intros Hnd Hin; [by apply not_elem_of_nil in Hin |].
  cbn [fmap list_fmap fst] in Hnd. apply NoDup_cons in Hnd as [Hb' Hnd]. simpl wmap.
  rewrite lookup_union. apply elem_of_cons in Hin as [Heq|Hin].
  - injection Heq as -> ->. rewrite wmap_not_in, lookup_singleton_eq by done. done.
  - rewrite IH by done. destruct (({[b' := c']} : gmap Z V) !! b); done.
Qed.

Lemma wmap_const {V} (v : V) (l : list Z) b :
  wmap ((fun b => (b, v)) <$> l) !! b = if decide (b ∈ l) then Some v else None.
Proof.
  induction l as [|b' l IH].
  - rewrite decide_False by apply not_elem_of_nil. apply lookup_empty.
  - rewrite fmap_cons. cbn [wmap]. rewrite lookup_union, IH.
    destruct (decide (b ∈ l)) as [Hin|Hin].
    + rewrite decide_True by (by right). rewrite lookup_singleton. by case_decide.
    + rewrite lookup_singleton. destruct (decide (b' = b)) as [->|Hne].
      * rewrite decide_True by left. done.
      * rewrite decide_False by (rewrite elem_of_cons; intros [->|]; done). done.
Qed.

(** The [i]-th block-sized piece of a buffer. *)
Definition chunk (buf : list Z) (i : nat) : list Z := sub buf (512 * i) 512.
Definition chunks (buf : list Z) (i n : nat) : list (list Z) := chunk buf <$> seq i n.

Lemma chunk_drop buf i :
  take 512 (drop (Z.to_nat (Z.of_nat i * BLOCK_SIZE)) buf) = chunk buf i.
Proof. unfold chunk, sub, BLOCK_SIZE. do 2 f_equal. lia. Qed.

Lemma sub_cons {A} (P : list A) i b L :
  sub P i (S (length L)) = b :: L ->
  P !! i = Some b /\ sub P (S i) (length L) = L.
Proof.
  unfold sub. intros H. destruct (drop i P) as [|x l] eqn:Hd; [discriminate |].
  simpl in H. injection H as -> HL. split.
  - rewrite <- (Nat.add_0_r i), <- lookup_drop, Hd. done.
  - rewrite <- Nat.add_1_r, <- drop_drop, Hd. simpl. by rewrite drop_0.
Qed.

(** ** The loops *)

Lemma chunks_S buf i n : chunks buf i (S n) = chunk buf i :: chunks buf (S i) n.
Proof. reflexivity. Qed.

Lemma write_blocks_eff bm ino ind i L buf :
  bm_ok bm -> length (i_blocks ino) = 33%nat -> length ind = 512%nat ->
  sub (ptrs ino ind) i (length L) = L -> Forall data_block L ->
  (512 * (i + length L) <= length buf)%nat ->
  exists bm',
    write_blocks (length L) bm ino ind (Z.of_nat i) buf = Done bm' /\
    eff bm bm' (wmap (zip L (chunks buf i (length L)))) ∅ ∅.
Proof.
  revert bm i. induction L as [|b L IH]; intros bm i Hbm Hl Hind HP Hdata Hbuf.
  - exists bm. split; [done |]. auto with yfs.
  - apply Forall_cons in Hdata as [Hb Hdata]. cbn [length] in *.
    apply sub_cons in HP as [Hi HP].
    destruct (bm_write_data bm b (drop (Z.to_nat (Z.of_nat i * BLOCK_SIZE)) buf))
      as (bm1 & Hw & He1); [done | done | rewrite length_drop; unfold BLOCK_SIZE; lia |].
    destruct (IH bm1 (S i)) as (bm2 & Hr & He2); eauto with yfs; [lia |].
    exists bm2. split.
    + cbn [write_blocks]. rewrite (BLK_ptrs _ _ _ b) by done. rewrite bind_Done, Hw, bind_Done.
      by replace (Z.of_nat i + 1) with (Z.of_nat (S i)) by lia.
    + rewrite chunks_S. cbn [zip zip_with wmap]. rewrite <- chunk_drop.
      apply (eff_trans _ _ _ _ _ _ _ _ _ He1 He2).
Qed.

Lemma lookup_sub_insert_ge {A} (P : list A) i v j n :
  (i < j)%nat -> sub (<[i := v]> P) j n = sub P j n.
Proof. intros. unfold sub. by rewrite drop_insert_lt. Qed.

Lemma take_insert_S {A} (P Q : list A) i v :
  (i < length P)%nat -> take (S i) Q = take (S i) (<[i := v]> P) ->
  take i Q = take i P /\ Q !! i = Some v.
Proof.
  intros Hi H. split.
  - apply (f_equal (take i)) in H. rewrite !take_take, !Nat.min_l in H by lia.
    rewrite H. apply take_insert_ge. lia.
  - apply (f_equal (lookup i)) in H. rewrite !lookup_take_lt in H by lia.
    rewrite H. by apply list_lookup_insert_eq.
Qed.

Lemma data_block_u32 b : data_block b -> is_u32 b.
Proof. unfold data_block, is_u32, FIRST_DATA, END_DATA. lia. Qed.

Lemma u32_0 : is_u32 0.
Proof. unfold is_u32. lia. Qed.
#[export] Hint Resolve data_block_u32 u32_0 same_head_refl : yfs.

Lemma free_tail_eff junk bm ino ind i L :
  bm_ok bm -> inode_ok ino -> length ind = 512%nat ->
  sub (ptrs ino ind) i (length L) = L -> Forall data_block L ->
  exists bm' ino' ind',
    free_tail junk (length L) bm ino ind (Z.of_nat i) = Done (bm', ino', ind') /\
    eff bm bm' ∅ (wmap ((fun b => (b, false)) <$> L)) ∅ /\
    same_head ino ino' /\ inode_ok ino' /\ length ind' = 512%nat /\
    take i (ptrs ino' ind') = take i (ptrs ino ind).
Proof.
  revert bm ino ind i. induction L as [|b L IH]; intros bm ino ind i Hbm Hino Hind HP Hdata.
  - exists bm, ino, ind. split_and!; auto with yfs.
  - apply Forall_cons in Hdata as [Hb Hdata]. cbn [length] in *.
    assert (Hl : length (i_blocks ino) = 33%nat) by apply Hino.
    apply sub_cons in HP as [Hi HP].
    pose proof (lookup_lt_Some _ _ _ Hi) as Hlt. rewrite length_ptrs in Hlt by done.
    destruct (free_block_eff junk bm b) as (bm1 & Hf & He1); [done | done |].
    destruct (BLK_set_ptrs ino ind i 0) as (ino1 & ind1 & Hs & Hp & Hh & Hok & Hind1);
      auto with yfs.
    destruct (IH bm1 ino1 ind1 (S i)) as (bm2 & ino2 & ind2 & Hr & He2 & Hh2 & Hok2 & Hind2 & Ht);
      eauto with yfs.
    { rewrite Hp, lookup_sub_insert_ge; [done | lia]. }
    exists bm2, ino2, ind2. split_and!; eauto using same_head_trans.
    + cbn [free_tail]. rewrite (BLK_ptrs _ _ _ b) by done.
      rewrite bind_Done, Hf, bind_Done, Hs, bind_Done. cbn [fst snd].
      by replace (Z.of_nat i + 1) with (Z.of_nat (S i)) by lia.
    + rewrite fmap_cons. cbn [wmap].
      apply (eff_trans _ _ _ _ _ _ _ _ _ He1 He2).
    + rewrite Hp in Ht. apply take_insert_S in Ht as [Ht _]; [done |].
      rewrite length_ptrs by done. lia.
Qed.

Lemma eff_free_blocks bm bm' A I :
  eff bm bm' A ∅ I -> free_blocks (bm_d bm') = free_blocks (bm_d bm).
Proof.
  intros (_ & _ & HS & _). apply filter_ext_in. intros z Hz. apply elem_of_seqZ in Hz.
  rewrite HS, lookup_empty by (unfold data_block, FIRST_DATA, END_DATA in *; lia). done.
Qed.

Lemma grow_blocks_eff junk bm ino ind i L rest buf :
  bm_ok bm -> inode_ok ino -> length ind = 512%nat ->
  free_blocks (bm_d bm) = L ++ rest -> (i + length L <= 160)%nat ->
  (512 * (i + length L) <= length buf)%nat ->
  exists bm' ino' ind',
    grow_blocks junk (length L) bm ino ind (Z.of_nat i) buf = Done (bm', ino', ind') /\
    eff bm bm' (wmap (zip L (chunks buf i (length L)))) (wmap ((fun b => (b, true)) <$> L)) ∅ /\
    same_head ino ino' /\ inode_ok ino' /\ length ind' = 512%nat /\
    take i (ptrs ino' ind') = take i (ptrs ino ind) /\
    sub (ptrs ino' ind') i (length L) = L /\ free_blocks (bm_d bm') = rest.
Proof.
  revert bm ino ind i. induction L as [|b L IH]; intros bm ino ind i Hbm Hino Hind HF Hi Hbuf.
  - exists bm, ino, ind. split_and!; auto with yfs.
  - cbn [length] in *. simpl app in HF.
    assert (Hl : length (i_blocks ino) = 33%nat) by apply Hino.
    destruct (alloc_block_eff junk bm b (L ++ rest) Hbm HF) as (bm1 & Ha & He1 & Hb & HF1).
    destruct (BLK_set_ptrs ino ind i b) as (ino1 & ind1 & Hs & Hp & Hh & Hok & Hind1);
      auto with yfs; [lia |].
    assert (Hpi : ptrs ino1 ind1 !! i = Some b).
    { rewrite Hp. apply list_lookup_insert_eq. rewrite length_ptrs by done. lia. }
    destruct (bm_write_data bm1 b (drop (Z.to_nat (Z.of_nat i * BLOCK_SIZE)) buf))
      as (bm2 & Hw & He2);
      [eauto with yfs | done | rewrite length_drop; unfold BLOCK_SIZE; lia |].
    destruct (IH bm2 ino1 ind1 (S i))
      as (bm3 & ino3 & ind3 & Hr & He3 & Hh3 & Hok3 & Hind3 & Ht & Hsub & HF3);
      eauto with yfs; [by rewrite (eff_free_blocks _ _ _ _ He2) | lia | lia |].
    exists bm3, ino3, ind3. rewrite Hp in Ht.
    apply take_insert_S in Ht as [Ht Hti]; [| rewrite length_ptrs by done; lia].
    split_and!; eauto using same_head_trans.
    + cbn [grow_blocks]. rewrite Ha, bind_Done. cbn [fst snd].
      rewrite Hs, bind_Done. cbn [fst snd].
      rewrite (BLK_ptrs _ _ _ b) by (done || apply Hok).
      rewrite bind_Done, Hw, bind_Done.
      by replace (Z.of_nat i + 1) with (Z.of_nat (S i)) by lia.
    + rewrite fmap_cons, chunks_S. cbn [zip zip_with wmap]. rewrite <- chunk_drop.
      pose proof (eff_trans _ _ _ _ _ _ _ _ _ (eff_trans _ _ _ _ _ _ _ _ _ He1 He2) He3) as He.
      by rewrite !(left_id_L ∅ (∪)), !(right_id_L ∅ (∪)) in He.
    + unfold sub in Hsub |- *. rewrite (drop_S _ b) by done. cbn [take]. by rewrite Hsub.
Qed.

Lemma free_blocks_of_eff junk bm ino ind i L :
  bm_ok bm -> length (i_blocks ino) = 33%nat -> length ind = 512%nat ->
  sub (ptrs ino ind) i (length L) = L -> Forall data_block L ->
  exists bm',
    free_blocks_of junk (length L) bm ino ind (Z.of_nat i) = Done bm' /\
    eff bm bm' ∅ (wmap ((fun b => (b, false)) <$> L)) ∅.
Proof.
  revert bm i. induction L as [|b L IH]; intros bm i Hbm Hl Hind HP Hdata.
  - exists bm. split; auto with yfs.
  - apply Forall_cons in Hdata as [Hb Hdata]. cbn [length] in *.
    apply sub_cons in HP as [Hi HP].
    destruct (free_block_eff junk bm b) as (bm1 & Hf & He1); [done | done |].
    destruct (IH bm1 (S i)) as (bm2 & Hr & He2); eauto with yfs.
    exists bm2. split.
    + cbn [free_blocks_of]. rewrite (BLK_ptrs _ _ _ b) by done.
      rewrite bind_Done, Hf, bind_Done.
      by replace (Z.of_nat i + 1) with (Z.of_nat (S i)) by lia.
    + rewrite fmap_cons. cbn [wmap]. apply (eff_trans _ _ _ _ _ _ _ _ _ He1 He2).
Qed.

Lemma store_bytes_done buf (off : nat) src :
  (off + length src <= length buf)%nat ->
  store_bytes buf (Z.of_nat off) src = Done (splice buf off src).
Proof.
  intros. unfold store_bytes. destruct (Z.leb_spec 0 (Z.of_nat off)); [| lia].
  destruct (Z.leb_spec (Z.of_nat off + Z.of_nat (length src)) (Z.of_nat (length buf))); [| lia].
  simpl. by rewrite Nat2Z.id.
Qed.

Lemma bm_read_data bm b buf :
  data_block b -> bm_read_block bm b buf = block_at (bm_d bm) b.
Proof. intros. apply disk_read_block_in. locs. Qed.

Lemma length_mjoin_blocks d L :
  disk_ok d -> length (mjoin (block_at d <$> L)) = (512 * length L)%nat.
Proof.
  intros Hd. induction L as [|b L IH]; [done |].
  rewrite fmap_cons, mjoin_cons, length_app, IH, Hd. simpl length. lia.
Qed.

Lemma read_blocks_done bm ino ind i L buf out :
  bm_ok bm -> length (i_blocks ino) = 33%nat -> length ind = 512%nat ->
  sub (ptrs ino ind) i (length L) = L -> Forall data_block L ->
  (512 * (i + length L) <= length out)%nat ->
  exists buf',
    read_blocks (length L) bm ino ind (Z.of_nat i) buf out =
    Done (buf', splice out (512 * i) (mjoin (block_at (bm_d bm) <$> L))).
Proof.
  intros Hbm Hl Hind. revert i buf out. induction L as [|b L IH]; intros i buf out HP Hdata Hout.
  - exists buf. simpl. by rewrite splice_nil.
  - apply Forall_cons in Hdata as [Hb Hdata]. cbn [length] in *.
    apply sub_cons in HP as [Hi HP]. destruct Hbm as [Hd Hsb].
    assert (Hlen : length (block_at (bm_d bm) b) = 512%nat) by apply Hd.
    destruct (IH (S i) (block_at (bm_d bm) b) (splice out (512 * i) (block_at (bm_d bm) b)))
      as [buf' Hr]; auto; [rewrite length_splice; lia |].
    exists buf'. cbn [read_blocks]. rewrite (BLK_ptrs _ _ _ b) by done. rewrite bind_Done.
    rewrite bm_read_data by done.
    replace (Z.of_nat i * BLOCK_SIZE) with (Z.of_nat (512 * i)) by (unfold BLOCK_SIZE; lia).
    rewrite take_ge by (rewrite Hlen; unfold BLOCK_SIZE; lia).
    rewrite store_bytes_done by lia. rewrite bind_Done.
    replace (Z.of_nat i + 1) with (Z.of_nat (S i)) by lia. rewrite Hr.
    rewrite fmap_cons, mjoin_cons.
    rewrite <- splice_splice_app by (rewrite length_mjoin_blocks by done; lia).
    do 3 f_equal. lia.
Qed.

(** ** Files *)

Definition bcount (ino : inode) : nat := Z.to_nat (CEIL (i_size ino) BLOCK_SIZE).

(** The data blocks of a file, in order. *)
Definition file_ptrs (d : disk) (ino : inode) : list Z :=
  take (bcount ino) (ptrs ino (block_at d (ind_block ino))).

(** All the blocks a file owns: its data and its indirect block. *)
Definition file_blocks (d : disk) (ino : inode) : list Z :=
  file_ptrs d ino ++ (if decide (32 < bcount ino)%nat then [ind_block ino] else []).

(** The bytes of a file. *)
Definition file_data (d : disk) (ino : inode) : list Z :=
  take (Z.to_nat (i_size ino)) (mjoin (block_at d <$> file_ptrs d ino)).

Definition file_ok (d : disk) (ino : inode) : Prop :=
  (bcount ino <= 160)%nat /\
  ((bcount ino <= 32)%nat -> ind_block ino = 0) /\
  NoDup (file_blocks d ino) /\
  (forall b, b ∈ file_blocks d ino -> data_block b /\ block_used d b = true).

Definition live (bm : block_manager) (n : Z) : Prop :=
  valid_inum n /\ i_type (inode_at (bm_d bm) n) <> 0.

Definition blocks_of (bm : block_manager) (n : Z) : list Z :=
  file_blocks (bm_d bm) (inode_at (bm_d bm) n).

Definition data_of (bm : block_manager) (n : Z) : list Z :=
  file_data (bm_d bm) (inode_at (bm_d bm) n).

(** The invariant: every file is well formed, no block belongs to two files,
    and every block in use belongs to a file. *)
Definition fs_ok (bm : block_manager) : Prop :=
  bm_ok bm /\
  (forall n, live bm n -> file_ok (bm_d bm) (inode_at (bm_d bm) n)) /\
  (forall n m b, live bm n -> live bm m -> n <> m -> b ∈ blocks_of bm n -> b ∉ blocks_of bm m) /\
  (forall b, data_block b -> block_used (bm_d bm) b = true ->
     exists n, live bm n /\ b ∈ blocks_of bm n).

Lemma bcount_Z ino : inode_ok ino -> Z.of_nat (bcount ino) = CEIL (i_size ino) BLOCK_SIZE.
Proof.
  intros (_ & Hs & _). unfold bcount, CEIL, BLOCK_SIZE, is_u32 in *.
  pose proof (Z.quot_pos (i_size ino) 512 ltac:(lia) ltac:(lia)).
  destruct (_ =? _); lia.
Qed.

Lemma CEIL_bounds a : 0 <= a -> a <= 512 * CEIL a BLOCK_SIZE < a + 512.
Proof.
  intros Ha. unfold CEIL, BLOCK_SIZE.
  rewrite Z.quot_div_nonneg, Z.rem_mod_nonneg by lia.
  pose proof (Z.div_mod a 512 ltac:(lia)). pose proof (Z.mod_pos_bound a 512 ltac:(lia)).
  destruct (Z.eqb_spec (a mod 512) 0); lia.
Qed.

Lemma length_file_ptrs d ino :
  inode_ok ino -> (bcount ino <= 160)%nat -> length (file_ptrs d ino) = bcount ino.
Proof.
  intros Hino Hb. unfold file_ptrs. rewrite length_take, length_ptrs; [lia | apply Hino].
Qed.

(** Up to 32 blocks, the pointers do not depend on the indirect block. *)
Lemma take_ptrs_direct ino ind ind' n :
  (n <= 32)%nat -> length (i_blocks ino) = 33%nat ->
  take n (ptrs ino ind) = take n (ptrs ino ind').
Proof.
  intros Hn Hl. unfold ptrs.
  rewrite !take_app_le by (rewrite length_take; lia). done.
Qed.
