(* ===== verification/FileOps.v ===== *)
(** * Correctness of the inode manager's operations

    [fs_update] is the one step every operation goes through: it changes one
    inode, and only blocks that the file owned or that were free.  The
    theorems state the result of each operation on the file concerned, that
    every other file keeps its inode and its bytes, and that [fs_ok] is kept. *)

From S2P Require Import Prelude Disk InodeManager FileSystem.

(** Every file other than [n] is as before. *)
Definition others_same (bm bm' : block_manager) (n : Z) : Prop :=
  forall m, valid_inum m -> m <> n ->
    inode_at (bm_d bm') m = inode_at (bm_d bm) m /\
    (live bm m -> data_of bm' m = data_of bm m).

(** The blocks the operation on inode [n] may touch. *)
Definition owned (bm : block_manager) (n b : Z) : Prop :=
  (live bm n /\ b ∈ blocks_of bm n) \/ b ∈ free_blocks (bm_d bm).

Lemma file_blocks_ind d ino : (32 < bcount ino)%nat -> ind_block ino ∈ file_blocks d ino.
Proof.
  intros. unfold file_blocks. rewrite decide_True by done. apply elem_of_app. right. left.
Qed.

Lemma file_ptrs_blocks d ino b : b ∈ file_ptrs d ino -> b ∈ file_blocks d ino.
Proof. intros. unfold file_blocks. apply elem_of_app. by left. Qed.

(** A file is unchanged when none of its blocks is. *)
Lemma file_same bm bm' ino :
  inode_ok ino -> file_ok (bm_d bm) ino ->
  (forall b, b ∈ file_blocks (bm_d bm) ino ->
     block_at (bm_d bm') b = block_at (bm_d bm) b) ->
  file_ptrs (bm_d bm') ino = file_ptrs (bm_d bm) ino /\
  file_blocks (bm_d bm') ino = file_blocks (bm_d bm) ino /\
  file_data (bm_d bm') ino = file_data (bm_d bm) ino.
Proof.
  intros Hino (Hb & Hi & Hnd & Hdata) Hsame.
  assert (Hp : file_ptrs (bm_d bm') ino = file_ptrs (bm_d bm) ino).
  { unfold file_ptrs. destruct (decide (32 < bcount ino)%nat).
    - by rewrite Hsame by (by apply file_blocks_ind).
    - apply take_ptrs_direct; [lia | apply Hino]. }
  split_and!; [done | unfold file_blocks; by rewrite Hp |].
  unfold file_data. rewrite Hp. do 2 f_equal. apply list_fmap_ext. intros k b Hk.
  apply Hsame, file_ptrs_blocks. by apply list_elem_of_lookup_2 with k.
Qed.

Section update.
Context (bm bm' : block_manager) (A : gmap Z (list Z)) (S : gmap Z bool) (n : Z) (ino : inode).
Hypothesis Hfs : fs_ok bm.
Hypothesis Hn : valid_inum n.
Hypothesis Heff : eff bm bm' A S {[n := ino]}.
Hypothesis HA : forall b, data_block b -> A !! b <> None -> owned bm n b.
Hypothesis HS : forall b, S !! b = Some false -> live bm n /\ b ∈ blocks_of bm n.

Lemma update_other_inode m :
  valid_inum m -> m <> n -> inode_at (bm_d bm') m = inode_at (bm_d bm) m.
Proof.
  intros Hm Hne. destruct Heff as (_ & _ & _ & HI).
  by rewrite HI, lookup_singleton_ne by done.
Qed.

Lemma update_this_inode : inode_at (bm_d bm') n = ino.
Proof. destruct Heff as (_ & _ & _ & HI). by rewrite HI, lookup_singleton_eq. Qed.

Lemma update_other_block m b :
  live bm m -> m <> n -> b ∈ blocks_of bm m ->
  block_at (bm_d bm') b = block_at (bm_d bm) b /\
  block_used (bm_d bm') b = true /\ ~ owned bm n b.
Proof.
  intros Hm Hne Hb. destruct Hfs as (Hbm & Hok & Hdis & Hleak).
  destruct (Hok m Hm) as (_ & _ & _ & Hdata). destruct (Hdata b Hb) as [Hdb Hu].
  assert (Hno : ~ owned bm n b).
  { intros [[Hl Hin]|Hin].
    - by apply (Hdis m n b).
    - apply free_blocks_data in Hin as [_ Hin]. congruence. }
  destruct Heff as (_ & HAe & HSe & _). rewrite HAe, HSe by done.
  split_and!; [| | done].
  - destruct (A !! b) eqn:E; [| done]. destruct Hno. apply HA; [done | congruence].
  - destruct (S !! b) as [[]|] eqn:E; [done | | done].
    destruct Hno. left. by apply HS.
Qed.

Lemma update_other_file m :
  live bm m -> m <> n ->
  file_ok (bm_d bm') (inode_at (bm_d bm) m) /\
  blocks_of bm' m = blocks_of bm m /\ data_of bm' m = data_of bm m.
Proof.
  intros Hm Hne. pose proof Hfs as (Hbm & Hok & _).
  pose proof (Hok m Hm) as Hf. pose proof (inode_at_ok bm m Hbm) as Hi.
  destruct (file_same bm bm' _ Hi Hf) as (Hp & Hb & Hd).
  { intros b Hb. by apply (update_other_block m b). }
  unfold blocks_of, data_of. rewrite update_other_inode by (done || apply Hm).
  split_and!; auto.
  destruct Hf as (H1 & H2 & H3 & H4). split_and!; auto; rewrite Hb; [done |].
  intros b Hin. split; [by apply H4 | by apply (update_other_block m b)].
Qed.

(** If the new version of file [n] is well formed and made of its own blocks
    and of free ones, then the whole file system is well formed again. *)
Lemma fs_update :
  (i_type ino <> 0 ->
   file_ok (bm_d bm') ino /\ forall b, b ∈ file_blocks (bm_d bm') ino -> owned bm n b) ->
  (forall b, S !! b = Some true -> i_type ino <> 0 /\ b ∈ file_blocks (bm_d bm') ino) ->
  (forall b, live bm n -> b ∈ blocks_of bm n ->
     S !! b = Some false \/ (i_type ino <> 0 /\ b ∈ file_blocks (bm_d bm') ino)) ->
  fs_ok bm' /\ others_same bm bm' n /\ inode_at (bm_d bm') n = ino.
Proof.
  intros Hnew Hgain Hkeep. pose proof Hfs as (Hbm & Hok & Hdis & Hleak).
  assert (Hlive : forall m, m <> n -> live bm' m -> live bm m).
  { intros m Hne [Hv Ht]. rewrite update_other_inode in Ht by done. by split. }
  assert (Hlive_n : live bm' n -> i_type ino <> 0).
  { intros [_ Ht]. by rewrite update_this_inode in Ht. }
  split_and!; [| | apply update_this_inode].
  - split_and!; [by eapply eff_ok | | |].
    + intros m Hm. destruct (decide (m = n)) as [->|Hne].
      * rewrite update_this_inode. by apply Hnew, Hlive_n.
      * rewrite update_other_inode by (done || apply Hm). by apply update_other_file; auto.
    + assert (Hsep : forall m b, m <> n -> live bm' m -> live bm' n ->
                b ∈ blocks_of bm' m -> b ∉ blocks_of bm' n).
      { intros m b Hne Hm Hl Hb Hb'. apply Hlive in Hm; [| done].
        destruct (update_other_file m Hm Hne) as (_ & Heq & _). rewrite Heq in Hb.
        destruct (update_other_block m b Hm Hne Hb) as (_ & _ & Hno).
        apply Hno, Hnew; [by apply Hlive_n |].
        unfold blocks_of in Hb'. by rewrite update_this_inode in Hb'. }
      intros m k b Hm Hk Hne Hb Hb'.
      destruct (decide (m = n)) as [->|Hmn]; [by eapply (Hsep k) |].
      destruct (decide (k = n)) as [->|Hkn]; [by eapply (Hsep m) |].
      apply Hlive in Hm, Hk; [| done ..].
      destruct (update_other_file m Hm Hmn) as (_ & Heq & _). rewrite Heq in Hb.
      destruct (update_other_file k Hk Hkn) as (_ & Heq' & _). rewrite Heq' in Hb'.
      by apply (Hdis m k b).
    + assert (Hthis : forall b, i_type ino <> 0 /\ b ∈ file_blocks (bm_d bm') ino ->
                exists m, live bm' m /\ b ∈ blocks_of bm' m).
      { intros b [Ht Hb]. exists n. unfold live, blocks_of. by rewrite update_this_inode. }
      intros b Hb Hu. destruct Heff as (_ & _ & HSe & _). rewrite HSe in Hu by done.
      destruct (S !! b) as [[]|] eqn:E; [by apply Hthis, Hgain | done |].
      destruct (Hleak b Hb Hu) as (m & Hm & Hin).
      destruct (decide (m = n)) as [->|Hne].
      * destruct (Hkeep b Hm Hin) as [|]; [congruence | by apply Hthis].
      * exists m. destruct (update_other_file m Hm Hne) as (_ & Heq & _).
        rewrite Heq. split; [| done]. destruct Hm as [Hv Ht].
        split; [done |]. by rewrite update_other_inode.
  - intros m Hm Hne. split; [by apply update_other_inode |].
    intros Hl. by apply update_other_file.
Qed.

End update.

(** ** What the operations start from *)

(** The [ind_buf] that read_file, write_file and remove_file work with. *)
Definition ind_buf (junk_ind : list Z) (bm : block_manager) (ino : inode) : list Z :=
  if NDIRECT <? CEIL (i_size ino) BLOCK_SIZE
  then bm_read_block bm (ind_block ino) junk_ind else junk_ind.

Section live_file.
Context (bm : block_manager) (n : Z) (junk junk_ind : list Z).
Hypothesis Hfs : fs_ok bm.
Hypothesis Hlive : live bm n.
Hypothesis Hjunk : length junk_ind = 512%nat.

Let d := bm_d bm.
Let ino := inode_at d n.
Let ind := ind_buf junk_ind bm ino.

Lemma lf_bm : bm_ok bm.
Proof. apply Hfs. Qed.

Lemma lf_ino : inode_ok ino.
Proof. apply inode_at_ok, Hfs. Qed.

Lemma lf_file : file_ok d ino.
Proof. by apply Hfs. Qed.

Lemma lf_len : length (i_blocks ino) = 33%nat.
Proof. apply lf_ino. Qed.

Lemma lf_get : get_inode junk bm n = Some ino /\ (i_type ino =? 0) = false.
Proof.
  rewrite get_inode_view by apply lf_bm. rewrite decide_True by done.
  split; [done |]. apply Z.eqb_neq, Hlive.
Qed.

Lemma lf_bc : CEIL (i_size ino) BLOCK_SIZE = Z.of_nat (bcount ino).
Proof. symmetry. apply bcount_Z, lf_ino. Qed.

Lemma lf_size : 0 <= i_size ino /\ i_size ino <= 512 * Z.of_nat (bcount ino) < i_size ino + 512.
Proof.
  destruct lf_ino as (_ & Hs & _). rewrite <- lf_bc.
  split; [apply Hs | apply CEIL_bounds, Hs].
Qed.

Lemma lf_ind_big : (32 < bcount ino)%nat -> ind = block_at d (ind_block ino) /\ data_block (ind_block ino).
Proof.
  intros Hb. assert (Hdb : data_block (ind_block ino)).
  { apply lf_file. by apply file_blocks_ind. }
  split; [| done]. unfold ind, ind_buf. rewrite lf_bc, bm_read_data by done.
  unfold NDIRECT. destruct (Z.ltb_spec 32 (Z.of_nat (bcount ino))); [done | lia].
Qed.

Lemma lf_ind_len : length ind = 512%nat.
Proof.
  unfold ind, ind_buf. destruct (_ <? _); [| done].
  unfold bm_read_block, disk_read_block. destruct (_ || _); [done | apply lf_bm].
Qed.

Lemma lf_ptrs : take (bcount ino) (ptrs ino ind) = file_ptrs d ino.
Proof.
  unfold file_ptrs. destruct (decide (32 < bcount ino)%nat) as [Hb|Hb].
  - by destruct (lf_ind_big Hb) as [-> _].
  - apply take_ptrs_direct; [lia | apply lf_len].
Qed.

Lemma lf_ptrs_len : length (file_ptrs d ino) = bcount ino.
Proof. apply length_file_ptrs; [apply lf_ino | apply lf_file]. Qed.

Lemma lf_ptrs_data : Forall data_block (file_ptrs d ino).
Proof.
  apply Forall_forall. intros b Hb. apply lf_file. by apply file_ptrs_blocks.
Qed.

Lemma lf_owned b : b ∈ file_blocks d ino -> owned bm n b.
Proof. intros. left. by split. Qed.

End live_file.

(** ** read_file *)

Lemma take_last_block (size : Z) (c : nat) :
  0 < size -> size <= 512 * Z.of_nat (S c) < size + 512 ->
  Z.to_nat (if size mod BLOCK_SIZE =? 0 then BLOCK_SIZE else size mod BLOCK_SIZE)
  = (Z.to_nat size - 512 * c)%nat.
Proof.
  intros Hs Hc. unfold BLOCK_SIZE. destruct (Z.eq_dec size (512 * Z.of_nat (S c))) as [E|E].
  - assert (Hm : size mod 512 = 0) by (rewrite E, Z.mul_comm; apply Z_mod_mult).
    rewrite Hm. simpl. lia.
  - assert (Hm : size mod 512 = size - 512 * Z.of_nat c).
    { symmetry. apply Z.mod_unique with (Z.of_nat c); lia. }
    rewrite Hm. destruct (Z.eqb_spec (size - 512 * Z.of_nat c) 0); lia.
Qed.

(** The last data block of a file and the ones before it. *)
Lemma file_data_snoc d ino L b :
  disk_ok d -> file_ptrs d ino = L ++ [b] -> (512 * length L <= Z.to_nat (i_size ino))%nat ->
  file_data d ino =
  mjoin (block_at d <$> L) ++ take (Z.to_nat (i_size ino) - 512 * length L) (block_at d b).
Proof.
  intros Hd Hp Hs. unfold file_data. rewrite Hp, fmap_app, join_app, take_app_ge
    by (rewrite length_mjoin_blocks; done).
  rewrite length_mjoin_blocks by done. f_equal.
  cbn [fmap list_fmap mjoin list_join]. by rewrite app_nil_r.
Qed.

Lemma length_file_data bm n :
  fs_ok bm -> live bm n ->
  Z.of_nat (length (data_of bm n)) = i_size (inode_at (bm_d bm) n).
Proof.
  intros Hfs Hl. unfold data_of, file_data. rewrite length_take, length_mjoin_blocks by apply Hfs.
  rewrite lf_ptrs_len by done. pose proof (lf_size bm n Hfs). lia.
Qed.

Lemma set_atime_ok ino t : inode_ok ino -> inode_ok (set_atime ino (u32 t)).
Proof. intros (? & ? & ? & ? & ? & ? & ?). unfold inode_ok. cbn. split_and!; auto with yfs. Qed.

Lemma read_file_body junk junk_ind cur bm n out :
  fs_ok bm -> live bm n -> length junk_ind = 512%nat -> 0 < i_size (inode_at (bm_d bm) n) ->
  read_file junk junk_ind cur bm n out =
  (bm' ← put_inode junk bm n (set_atime (inode_at (bm_d bm) n) (u32 cur));
   mret (bm', (Some (data_of bm n), i_size (inode_at (bm_d bm) n)))).
Proof.
  intros Hfs Hl Hj Hpos. destruct (lf_get bm n junk Hfs Hl) as [Hg Ht].
  pose proof (lf_file bm n Hfs Hl) as Hok. pose proof (lf_size bm n Hfs) as Hsz.
  pose proof (lf_ptrs_len bm n Hfs Hl) as Hplen. pose proof (lf_ptrs_data bm n Hfs Hl) as Hpd.
  pose proof (lf_ind_len bm n junk_ind Hfs Hj) as Hil.
  pose proof (lf_ptrs bm n junk_ind Hfs Hl Hj) as Hp. pose proof (lf_bc bm n Hfs) as Hbc.
  pose proof (lf_len bm n Hfs) as Hbl. assert (Hd : disk_ok (bm_d bm)) by apply Hfs. unfold data_of.
  unfold read_file. rewrite Hg. cbn zeta. rewrite Ht. fold (ind_buf junk_ind bm (inode_at (bm_d bm) n)).
  set (ino := inode_at (bm_d bm) n) in *. set (ind := ind_buf junk_ind bm ino) in *.
  rewrite Hbc.
  assert (Hs32 : s32 (i_size ino) = i_size ino).
  { apply wrap_signed_id; [lia |]. destruct Hok as [Hb _]. lia. }
  rewrite Hs32. destruct (Z.eqb_spec (i_size ino) 0); [lia |].
  destruct (file_ptrs (bm_d bm) ino) as [|b L _] eqn:HL using rev_ind;
    [simpl in Hplen; lia |].
  assert (HLen : bcount ino = S (length L)).
  { rewrite length_app in Hplen. simpl in Hplen. lia. }
  apply Forall_app in Hpd as [HLd Hbd]. apply Forall_cons in Hbd as [Hbd _].
  rewrite HLen in Hp, Hsz |- *. replace (Z.of_nat (S (length L)) - 1) with (Z.of_nat (length L)) by lia.
  rewrite Nat2Z.id.
  destruct (read_blocks_done bm ino ind 0 L junk (replicate (Z.to_nat (i_size ino)) 0)) as [buf' Hr].
  - apply Hfs.
  - done.
  - done.
  - pose proof (f_equal (take (length L)) Hp) as Hp'. unfold sub.
    rewrite take_take, Nat.min_l, take_app_length in Hp' by lia. by rewrite drop_0.
  - done.
  - rewrite length_replicate. lia.
  - change (Z.of_nat 0) with 0 in Hr. rewrite Hr, bind_Done. cbn beta iota.
    rewrite (BLK_ptrs _ _ _ b); [| done | done |].
    2:{ pose proof (f_equal (lookup (length L)) Hp) as Hp'.
        rewrite lookup_take_lt, lookup_app_r, Nat.sub_diag in Hp' by lia. done. }
    rewrite bind_Done, bm_read_data by done.
    rewrite (take_last_block (i_size ino) (length L)) by lia.
    replace (Z.of_nat (length L) * BLOCK_SIZE) with (Z.of_nat (512 * length L))
      by (unfold BLOCK_SIZE; lia).
    rewrite store_bytes_done.
    2:{ rewrite length_take, Hd, length_splice; rewrite length_replicate;
        [lia |]. rewrite length_mjoin_blocks by done. lia. }
    rewrite bind_Done, (file_data_snoc _ _ L b) by (done || lia).
    rewrite <- (splice_full (replicate (Z.to_nat (i_size ino)) 0) (_ ++ _)).
    2:{ rewrite length_app, length_mjoin_blocks, length_take, Hd, length_replicate by done. lia. }
    rewrite <- splice_splice_app, length_mjoin_blocks by
      (try done; rewrite length_mjoin_blocks, length_take, Hd, length_replicate by done; lia).
    done.
Qed.

(** Changing only the times of an inode. *)
Definition same_file (ino ino' : inode) : Prop :=
  i_type ino' = i_type ino /\ i_size ino' = i_size ino /\ i_blocks ino' = i_blocks ino.

Lemma same_file_facts d ino ino' :
  same_file ino ino' ->
  bcount ino' = bcount ino /\ ind_block ino' = ind_block ino /\
  file_ptrs d ino' = file_ptrs d ino /\ file_blocks d ino' = file_blocks d ino /\
  file_data d ino' = file_data d ino.
Proof.
  intros (_ & Hs & Hb). unfold file_data, file_blocks, file_ptrs, ptrs, bcount, ind_block.
  rewrite Hs, Hb. done.
Qed.

Lemma fs_touch bm bm' n ino :
  fs_ok bm -> live bm n -> same_file (inode_at (bm_d bm) n) ino ->
  eff bm bm' ∅ ∅ {[n := ino]} ->
  fs_ok bm' /\ others_same bm bm' n /\ inode_at (bm_d bm') n = ino /\
  data_of bm' n = data_of bm n /\ free_blocks (bm_d bm') = free_blocks (bm_d bm).
Proof.
  intros Hfs Hl Hsf He. pose proof Hfs as (Hbm & Hok & _).
  destruct (same_file_facts (bm_d bm') _ _ Hsf) as (F1 & F2 & F3 & F4 & F5).
  destruct (file_same bm bm' _ (inode_at_ok bm n Hbm) (Hok n Hl)) as (G1 & G2 & G3).
  { intros b Hb. destruct He as (_ & HA & _). rewrite HA, lookup_empty; [done |].
    by apply (lf_file bm n). }
  destruct (fs_update bm bm' ∅ ∅ n ino Hfs (proj1 Hl) He) as (H1 & H2 & H3).
  - intros b _. by rewrite lookup_empty.
  - intros b. by rewrite lookup_empty.
  - intros _. destruct (Hok n Hl) as (O1 & O2 & O3 & O4). unfold file_ok.
    rewrite F1, F2, F4, G2. split; [split_and!; auto |].
    + intros b Hb. split; [by apply O4 |]. destruct He as (_ & _ & HS & _).
      rewrite HS, lookup_empty by (by apply O4). by apply O4.
    + intros b Hb. by apply lf_owned.
  - intros b. by rewrite lookup_empty.
  - intros b _ Hb. right. split; [destruct Hsf as [-> _]; apply Hl |]. by rewrite F4, G2.
  - split_and!; auto; [| by apply eff_free_blocks with ∅ {[n := ino]}].
    unfold data_of at 1. by rewrite H3, F5, G3.
Qed.

Lemma read_file_done junk junk_ind cur bm n out :
  fs_ok bm -> live bm n -> length junk_ind = 512%nat ->
  exists bm',
    read_file junk junk_ind cur bm n out =
      Done (bm', (if decide (data_of bm n = []) then fst out else Some (data_of bm n),
                  Z.of_nat (length (data_of bm n)))) /\
    fs_ok bm' /\ others_same bm bm' n /\ data_of bm' n = data_of bm n /\
    same_file (inode_at (bm_d bm) n) (inode_at (bm_d bm') n) /\
    free_blocks (bm_d bm') = free_blocks (bm_d bm).
Proof.
  intros Hfs Hl Hj. pose proof (length_file_data bm n Hfs Hl) as Hlen.
  pose proof (lf_size bm n Hfs) as Hsz. set (ino := inode_at (bm_d bm) n) in *.
  destruct (decide (data_of bm n = [])) as [Hnil|Hne].
  - assert (Hs0 : i_size ino = 0) by (rewrite <- Hlen, Hnil; done).
    exists bm. split_and!; try done.
    unfold read_file. destruct (lf_get bm n junk Hfs Hl) as [-> ->]. fold ino.
    rewrite Hs0, Hnil. done.
  - assert (0 < i_size ino).
    { destruct (data_of bm n); [done |]. cbn [length] in Hlen. lia. }
    destruct (put_inode_eff junk bm n (set_atime ino (u32 cur))) as (bm' & Hp & He).
    { apply Hfs. } { apply Hl. } { by apply set_atime_ok, lf_ino. }
    destruct (fs_touch bm bm' n (set_atime ino (u32 cur)) Hfs Hl) as (H1 & H2 & H3 & H4 & H5);
      [done | done |].
    exists bm'. split_and!; auto.
    + rewrite read_file_body by done. fold ino. by rewrite Hp, bind_Done, Hlen.
    + by rewrite H3.
Qed.

(** ** remove_file *)

Lemma set_times_type_ok ino ty t :
  inode_ok ino -> is_s16 ty -> inode_ok (set_times (set_type ino ty) (u32 t) (u32 t)).
Proof. intros (? & ? & ? & ? & ? & ? & ?) ?. unfold inode_ok. cbn. split_and!; auto with yfs. Qed.

(** Freeing the indirect block (if there is one) and the data blocks. *)
Lemma remove_blocks_eff junk junk_ind bm n :
  fs_ok bm -> live bm n -> length junk_ind = 512%nat ->
  let ino := inode_at (bm_d bm) n in
  exists bm' S,
    (r ← (if NDIRECT <? CEIL (i_size ino) BLOCK_SIZE
          then let ind := bm_read_block bm (ind_block ino) junk_ind in
               bm ← free_block junk bm (ind_block ino); mret (bm, ind)
          else mret (bm, junk_ind));
     free_blocks_of junk (Z.to_nat (CEIL (i_size ino) BLOCK_SIZE)) (fst r) ino (snd r) 0)
    = Done bm' /\
    eff bm bm' ∅ S ∅ /\
    forall b, S !! b = if decide (b ∈ blocks_of bm n) then Some false else None.
Proof.
  intros Hfs Hl Hj ino. pose proof (lf_bc bm n Hfs) as Hbc. fold ino in Hbc.
  pose proof (lf_ptrs_len bm n Hfs Hl) as Hplen. pose proof (lf_ptrs_data bm n Hfs Hl) as Hpd.
  pose proof (lf_ptrs bm n junk_ind Hfs Hl Hj) as Hp.
  pose proof (lf_ind_len bm n junk_ind Hfs Hj) as Hil. fold ino in Hplen, Hpd, Hp, Hil.
  pose proof (lf_len bm n Hfs) as Hbl. fold ino in Hbl.
  unfold ind_buf in Hp, Hil. rewrite Hbc, Nat2Z.id in *. unfold NDIRECT in *.
  unfold blocks_of. fold ino. unfold file_blocks.
  destruct (Z.ltb_spec 32 (Z.of_nat (bcount ino))) as [Hb|Hb].
  - destruct (free_block_eff junk bm (ind_block ino)) as (bm1 & Hf & He1).
    { apply Hfs. } { apply (lf_ind_big bm n junk_ind Hfs Hl Hj). fold ino. lia. }
    destruct (free_blocks_of_eff junk bm1 ino (bm_read_block bm (ind_block ino) junk_ind) 0
                (file_ptrs (bm_d bm) ino)) as (bm2 & Hr & He2); eauto with yfs.
    { rewrite sub_take, Hplen. done. }
    exists bm2. eexists. split_and!.
    + rewrite Hf, bind_Done. cbn [fst snd mret outcome_ret mbind outcome_bind].
      rewrite Hplen in Hr. apply Hr.
    + pose proof (eff_trans _ _ _ _ _ _ _ _ _ He1 He2) as He.
      rewrite !(left_id_L ∅ (∪)) in He. apply He.
    + intros b. destruct (decide (32 < bcount ino)%nat) as [_|]; [| lia].
      rewrite lookup_union, wmap_const, lookup_singleton.
      destruct (decide (b ∈ file_ptrs (bm_d bm) ino ++ _)) as [Hin|Hin];
        rewrite elem_of_app, list_elem_of_singleton in Hin;
        destruct (decide (b ∈ file_ptrs (bm_d bm) ino)), (decide (ind_block ino = b));
        try done; exfalso; intuition congruence.
  - destruct (free_blocks_of_eff junk bm ino junk_ind 0 (file_ptrs (bm_d bm) ino))
      as (bm2 & Hr & He2); auto.
    { apply Hfs. } { rewrite sub_take, Hplen. done. }
    exists bm2. eexists. split_and!.
    + cbn [fst snd mret outcome_ret mbind outcome_bind]. rewrite Hplen in Hr. apply Hr.
    + apply He2.
    + intros b. destruct (decide (32 < bcount ino)%nat) as [|_]; [lia |].
      rewrite app_nil_r. apply wmap_const.
Qed.

Lemma remove_file_done junk junk_ind cur bm n :
  fs_ok bm -> live bm n -> length junk_ind = 512%nat ->
  exists bm',
    remove_file junk junk_ind cur bm n = Done bm' /\ fs_ok bm' /\ others_same bm bm' n /\
    i_type (inode_at (bm_d bm') n) = 0 /\
    (forall b, data_block b ->
       block_used (bm_d bm') b = if decide (b ∈ blocks_of bm n) then false
                                 else block_used (bm_d bm) b).
Proof.
  intros Hfs Hl Hj.
  destruct (remove_blocks_eff junk junk_ind bm n Hfs Hl Hj) as (bm1 & S & Hr & He1 & HS).
  destruct (lf_get bm n junk Hfs Hl) as [Hg Ht].
  assert (Hi1 : inode_at (bm_d bm1) n = inode_at (bm_d bm) n).
  { destruct He1 as (_ & _ & _ & HI). rewrite HI, lookup_empty; [done | apply Hl]. }
  set (ino := inode_at (bm_d bm) n) in *.
  destruct (put_inode_eff junk bm1 n (set_times (set_type ino 0) (u32 cur) (u32 cur)))
    as (bm2 & Hp & He2); [eauto with yfs | apply Hl | |].
  { apply set_times_type_ok; [by apply lf_ino | unfold is_s16; lia]. }
  pose proof (eff_trans _ _ _ _ _ _ _ _ _ He1 He2) as He.
  rewrite !(left_id_L ∅ (∪)), !(right_id_L ∅ (∪)) in He.
  destruct (fs_update bm bm2 ∅ S n _ Hfs (proj1 Hl) He) as (H1 & H2 & H3).
  { intros b _. by rewrite lookup_empty. }
  { intros b Hb. split; [done |]. rewrite HS in Hb. by case_decide. }
  { intros []. done. }
  { intros b Hb. rewrite HS in Hb. by case_decide. }
  { intros b _ Hb. left. by rewrite HS, decide_True. }
  exists bm2. split_and!; auto.
  - unfold remove_file. rewrite Hg, Ht. fold ino in Hr.
    destruct (if _ <? _ then _ else _) as [r|]; [| discriminate].
    cbn [mbind outcome_bind] in Hr |- *. rewrite Hr, bind_Done.
    unfold free_inode. rewrite get_inode_view by eauto with yfs.
    rewrite Hi1, decide_True by (split; [apply Hl | apply Hl]). fold ino. by rewrite Ht.
  - by rewrite H3.
  - intros b Hb. destruct He as (_ & _ & HSe & _). rewrite HSe, HS by done. by case_decide.
Qed.
