(* ===== verification/FileWrite.v ===== *)
(** * Allocating inodes and writing files

    The two operations of the inode manager that create state: alloc_inode
    (lowest free inode number) and write_file (overwrite, shrink or grow). *)

From S2P Require Import Prelude Disk InodeManager FileSystem FileOps.

(** ** alloc_inode *)

Definition free_inodes (d : disk) (m : Z) : list Z :=
  filter (fun n => i_type (inode_at d n) = 0) (seqZ m (INODE_NUM - m)).

Definition fresh_inode (old : inode) (cur type : Z) : inode :=
  Inode (s16 type) 0 (i_atime old) (u32 cur) (u32 cur) (replicate 33 0).

Section alloc_inode.
Context (junk : list Z) (cur type : Z) (bm : block_manager).
Hypothesis Hbm : bm_ok bm.

Let take_inode (n : Z) : outcome (block_manager * Z) :=
  bm' ← bm_write_block bm (IBLOCK n BLOCK_NUM)
          (store_inode (block_at (bm_d bm) (IBLOCK n BLOCK_NUM)) (n mod IPB)
             (fresh_inode (inode_at (bm_d bm) n) cur type));
  mret (bm', n).

Let result_from (n : Z) : outcome (block_manager * Z) :=
  match free_inodes (bm_d bm) (Z.max 1 n) with
  | [] => Done (bm, 0)
  | m :: _ => take_inode m
  end.

Lemma slot_location i j :
  0 <= i -> 0 <= j < 3 ->
  i + IBLOCK 0 (sb_nblocks (bm_sb bm)) = IBLOCK (j + i * IPB) BLOCK_NUM /\
  (j + i * IPB) mod IPB = j.
Proof.
  intros Hi Hj. rewrite std_nblocks by done. unfold IBLOCK. change IPB with 3.
  rewrite Z.div_add, Z.mod_add by lia. rewrite (Z.div_small j), (Z.mod_small j) by lia.
  change (0 / 3) with 0. lia.
Qed.

Lemma seqZ_S m n : 0 < n -> seqZ m n = m :: seqZ (m + 1) (n - 1).
Proof. intros. rewrite seqZ_cons by lia. do 2 f_equal; lia. Qed.

Lemma result_from_step n :
  1 <= n < INODE_NUM ->
  result_from n =
  if decide (i_type (inode_at (bm_d bm) n) = 0) then take_inode n else result_from (n + 1).
Proof.
  intros Hn. unfold result_from, free_inodes. rewrite !Z.max_r by lia.
  rewrite seqZ_S by lia. rewrite filter_cons.
  replace (INODE_NUM - n - 1) with (INODE_NUM - (n + 1)) by lia.
  by case_decide.
Qed.

Lemma result_from_end n : INODE_NUM <= n -> result_from n = Done (bm, 0).
Proof.
  unfold INODE_NUM. intros. unfold result_from, free_inodes.
  rewrite (seqZ_nil _ (INODE_NUM - _)) by (unfold INODE_NUM; lia). done.
Qed.

(** One block of the inode table, from slot [j] on, followed by the rest of
    the table. *)
Lemma slots_result k i j rest :
  0 <= i -> 0 <= j -> j + Z.of_nat k = 3 -> i <= 341 ->
  (3 * (i + 1) <= INODE_NUM -> rest = result_from (3 * (i + 1))) ->
  (r ← inode_slots k cur type bm i j (block_at (bm_d bm) (i + IBLOCK 0 (sb_nblocks (bm_sb bm))));
   match r with Some res => Done res | None => rest end) = result_from (j + i * IPB)
  \/ (j = 3 /\ INODE_NUM < 3 * (i + 1)).
Proof.
  intros Hi. revert j. induction k as [|k IH]; intros j Hj Hk Hi' Hrest.
  - destruct (Z.le_gt_cases (3 * (i + 1)) INODE_NUM) as [Hle|Hgt]; [left | right; lia].
    rewrite Hrest by done. simpl. f_equal. change IPB with 3. lia.
  - destruct (slot_location i j) as [Hloc Hmod]; [lia | lia |].
    assert (Hnext : (r ← inode_slots k cur type bm i (j + 1)
                (block_at (bm_d bm) (i + IBLOCK 0 (sb_nblocks (bm_sb bm))));
              match r with Some res => Done res | None => rest end)
            = result_from (j + i * IPB + 1) \/ (j + 1 = 3 /\ INODE_NUM < 3 * (i + 1))).
    { replace (j + i * IPB + 1) with (j + 1 + i * IPB) by lia. apply IH; lia || done. }
    left. cbn [inode_slots].
    destruct ((i =? 0) && (j =? 0)) eqn:E0.
    { assert (i = 0 /\ j = 0) as [-> ->] by lia.
      destruct Hnext as [->|]; [done | unfold INODE_NUM in *; lia]. }
    assert (Hpos : 1 <= j + i * IPB) by (change IPB with 3; lia).
    destruct (Z.leb_spec INODE_NUM (j + i * IPB)) as [Hge|Hlt].
    { rewrite result_from_end by done. done. }
    assert (Hia : load_inode (block_at (bm_d bm) (IBLOCK (j + i * IPB) BLOCK_NUM)) j
                  = inode_at (bm_d bm) (j + i * IPB)) by (unfold inode_at; by rewrite Hmod).
    rewrite result_from_step by lia. rewrite Hloc in Hnext |- *. rewrite Hia.
    destruct (Z.eqb_spec (i_type (inode_at (bm_d bm) (j + i * IPB))) 0) as [Hz|Hnz].
    + rewrite decide_True by done. unfold take_inode. rewrite Hmod.
      fold (fresh_inode (inode_at (bm_d bm) (j + i * IPB)) cur type).
      destruct (bm_write_block _ _ _); done.
    + rewrite decide_False by done.
      destruct Hnext as [Hn|[Hj3 Hbig]]; [done |].
      change IPB with 3 in *. unfold INODE_NUM in *. lia.
Qed.

Lemma table_scan_result k i buf :
  0 <= i -> i + Z.of_nat k = 342 ->
  inode_table_scan k cur type bm i buf = result_from (3 * i).
Proof.
  revert i buf. induction k as [|k IH]; intros i buf Hi Hk.
  - rewrite result_from_end by (unfold INODE_NUM; lia). done.
  - cbn [inode_table_scan].
    replace (bm_read_block bm (i + IBLOCK 0 (sb_nblocks (bm_sb bm))) buf)
      with (block_at (bm_d bm) (i + IBLOCK 0 (sb_nblocks (bm_sb bm)))).
    2:{ rewrite std_nblocks by done. symmetry. apply disk_read_block_in.
        unfold IBLOCK. change (BLOCK_NUM / BPB) with 8. change (0 / IPB) with 0.
        rewrite BLOCK_NUM_eq. lia. }
    destruct (slots_result 3 i 0
       (inode_table_scan k cur type bm (i + 1)
          (block_at (bm_d bm) (i + IBLOCK 0 (sb_nblocks (bm_sb bm)))))) as [Hr|[? _]]; try lia.
    + intros _. apply IH; lia.
    + change (Z.to_nat IPB) with 3%nat. rewrite Hr. f_equal. change IPB with 3. lia.
Qed.

Lemma alloc_inode_result :
  alloc_inode junk cur type bm =
  match free_inodes (bm_d bm) 1 with
  | [] => Done (bm, 0)
  | n :: _ => take_inode n
  end.
Proof.
  unfold alloc_inode. destruct Hbm as [_ Hsb]. rewrite Hsb.
  change (Z.to_nat (CEIL (sb_ninodes (bm_sb block_manager_new)) IPB)) with 342%nat.
  rewrite table_scan_result by lia. done.
Qed.

End alloc_inode.

Lemma fresh_inode_ok old cur type : inode_ok old -> inode_ok (fresh_inode old cur type).
Proof.
  intros (? & ? & ? & ? & ? & ? & ?). unfold inode_ok, fresh_inode. cbn [i_type i_size i_atime
    i_mtime i_ctime i_blocks]. split_and!; auto with yfs.
  - apply (wrap_signed_range 16). lia.
  - apply Forall_replicate. auto with yfs.
Qed.

Lemma fresh_file_empty d old cur type :
  let ino := fresh_inode old cur type in
  file_ptrs d ino = [] /\ file_blocks d ino = [] /\ file_data d ino = [] /\ file_ok d ino.
Proof.
  simpl. split_and!; try done. split_and!; try done.
  - apply Nat.le_0_l.
  - constructor.
  - intros b Hb. by apply not_elem_of_nil in Hb.
Qed.

Lemma alloc_inode_done junk cur type bm n rest :
  fs_ok bm -> free_inodes (bm_d bm) 1 = n :: rest ->
  exists bm',
    alloc_inode junk cur type bm = Done (bm', n) /\ fs_ok bm' /\ others_same bm bm' n /\
    valid_inum n /\ inode_at (bm_d bm') n = fresh_inode (inode_at (bm_d bm) n) cur type /\
    data_of bm' n = [] /\ free_blocks (bm_d bm') = free_blocks (bm_d bm).
Proof.
  intros Hfs Hf. assert (Hbm : bm_ok bm) by apply Hfs.
  destruct (filter_seqZ_head _ _ _ _ _ Hf) as (Hn & Hty & Hmin).
  assert (Hv : valid_inum n) by (unfold valid_inum; lia).
  destruct (write_inode_eff bm n (fresh_inode (inode_at (bm_d bm) n) cur type)) as (bm' & Hw & He);
    [done | done | by apply fresh_inode_ok, inode_at_ok |].
  destruct (fresh_file_empty (bm_d bm') (inode_at (bm_d bm) n) cur type) as (_ & Hb & Hd & Hok).
  destruct (fs_update bm bm' ∅ ∅ n _ Hfs Hv He) as (H1 & H2 & H3).
  { intros b _. by rewrite lookup_empty. }
  { intros b. by rewrite lookup_empty. }
  { intros _. split; [done |]. intros b Hin. rewrite Hb in Hin. by apply not_elem_of_nil in Hin. }
  { intros b. by rewrite lookup_empty. }
  { intros b [_ Hne]. done. }
  exists bm'. split_and!; auto.
  - rewrite alloc_inode_result, Hf, Hw by done. done.
  - unfold data_of. by rewrite H3.
  - by apply eff_free_blocks in He.
Qed.

(** ** write_file *)

Lemma take_plus {A} (l : list A) a b : take (a + b) l = take a l ++ take b (drop a l).
Proof. symmetry. apply take_take_drop. Qed.

Lemma mjoin_chunks d N buf i :
  (forall k b, N !! k = Some b -> block_at d b = chunk buf (i + k)) ->
  mjoin (block_at d <$> N) = sub buf (512 * i) (512 * length N).
Proof.
  revert i. induction N as [|b N IH]; intros i HN.
  - unfold sub. rewrite Nat.mul_0_r, take_0. done.
  - rewrite fmap_cons, mjoin_cons. rewrite (IH (S i)).
    + rewrite (HN 0%nat b) by done. rewrite Nat.add_0_r. unfold chunk, sub. cbn [length].
      replace (512 * S (length N))%nat with (512 + 512 * length N)%nat by lia.
      rewrite take_plus, drop_drop. do 3 f_equal. lia.
    + intros k c Hk. rewrite (HN (S k) c) by done. f_equal. lia.
Qed.

Lemma file_data_chunks d ino N buf :
  file_ptrs d ino = N -> (forall k b, N !! k = Some b -> block_at d b = chunk buf k) ->
  (Z.to_nat (i_size ino) <= 512 * length N)%nat ->
  file_data d ino = take (Z.to_nat (i_size ino)) buf.
Proof.
  intros Hp HN Hs. unfold file_data. rewrite Hp, (mjoin_chunks d N buf 0) by done.
  rewrite sub_take, take_take, Nat.min_l by lia. done.
Qed.

Lemma owned_data bm n b : fs_ok bm -> owned bm n b -> data_block b.
Proof.
  intros Hfs [[Hl Hb]|Hb].
  - by apply (lf_file bm n Hfs Hl).
  - apply free_blocks_data in Hb as [Hb _]. done.
Qed.

(** Installing a new version of file [n]. *)
Lemma install bm bm' A S n ino N buf :
  fs_ok bm -> live bm n -> eff bm bm' A S {[n := ino]} ->
  (forall b, A !! b <> None -> owned bm n b) ->
  (forall b, S !! b = Some false -> b ∈ blocks_of bm n) ->
  file_ptrs (bm_d bm') ino = N -> length N = bcount ino -> (bcount ino <= 160)%nat ->
  ((bcount ino <= 32)%nat -> ind_block ino = 0) -> inode_ok ino ->
  NoDup (file_blocks (bm_d bm') ino) ->
  (forall b, b ∈ file_blocks (bm_d bm') ino ->
     owned bm n b /\ (S !! b = Some true \/ (S !! b = None /\ b ∈ blocks_of bm n))) ->
  (forall b, S !! b = Some true -> b ∈ file_blocks (bm_d bm') ino) ->
  (forall b, b ∈ blocks_of bm n -> S !! b = Some false \/ b ∈ file_blocks (bm_d bm') ino) ->
  i_type ino <> 0 ->
  (forall k b, N !! k = Some b -> block_at (bm_d bm') b = chunk buf k) ->
  fs_ok bm' /\ others_same bm bm' n /\ inode_at (bm_d bm') n = ino /\
  data_of bm' n = take (Z.to_nat (i_size ino)) buf.
Proof.
  intros Hfs Hl He HA HS Hp Hlen Hbc Hind Hino Hnd Hown Hgain Hkeep Hty Hcont.
  destruct (fs_update bm bm' A S n ino Hfs (proj1 Hl) He) as (H1 & H2 & H3).
  - intros b _. apply HA.
  - intros b Hb. split; [done |]. by apply HS.
  - intros _. split; [| intros b Hb; by apply Hown].
    split_and!; auto. intros b Hb. destruct (Hown b Hb) as [Ho Hu].
    pose proof (owned_data bm n b Hfs Ho) as Hd. split; [done |].
    destruct He as (_ & _ & HSe & _). rewrite HSe by done.
    destruct Hu as [->|[-> Hin]]; [done |]. by apply (lf_file bm n Hfs Hl).
  - intros b Hb. by split; [| apply Hgain].
  - intros b _ Hb. destruct (Hkeep b Hb); [by left | by right].
  - split_and!; auto. unfold data_of. rewrite H3.
    apply file_data_chunks with N; auto.
    rewrite Hlen. pose proof (bcount_Z ino Hino) as Hb.
    pose proof (CEIL_bounds (i_size ino)) as Hc. destruct Hino as (_ & Hs & _).
    unfold is_u32 in Hs. lia.
Qed.

(** The update map of the data written through a list of pointers. *)
Definition data_map (L : list Z) (buf : list Z) (i : nat) : gmap Z (list Z) :=
  wmap (zip L (chunks buf i (length L))).

Lemma length_chunks buf i n : length (chunks buf i n) = n.
Proof. unfold chunks. by rewrite length_fmap, length_seq. Qed.

Lemma data_map_in L buf i k b :
  NoDup L -> L !! k = Some b -> data_map L buf i !! b = Some (chunk buf (i + k)).
Proof.
  intros Hnd Hk. pose proof (lookup_lt_Some _ _ _ Hk) as Hlt. apply wmap_in.
  - rewrite fst_zip; [done |]. rewrite length_chunks. lia.
  - apply list_elem_of_lookup. exists k. apply lookup_zip_with_Some.
    exists b, (chunk buf (i + k)). split_and!; auto.
    unfold chunks. rewrite list_lookup_fmap, lookup_seq_lt by done. done.
Qed.

Lemma data_map_not_in L buf i b : b ∉ L -> data_map L buf i !! b = None.
Proof.
  intros Hb. apply wmap_not_in. rewrite fst_zip; [done |]. rewrite length_chunks. lia.
Qed.

Lemma data_map_dom L buf i b : data_map L buf i !! b <> None -> b ∈ L.
Proof.
  intros Hb. destruct (decide (b ∈ L)); [done |]. destruct Hb. by apply data_map_not_in.
Qed.

Section write_file.
Context (junk junk_ind : list Z) (cur : Z) (bm : block_manager) (n : Z) (buf : list Z) (size : Z).
Hypothesis Hfs : fs_ok bm.
Hypothesis Hl : live bm n.
Hypothesis Hj : length junk_ind = 512%nat.
Hypothesis Hsize : 0 <= size <= 512 * MAXFILE.

Let ino := inode_at (bm_d bm) n.
Let ind := ind_buf junk_ind bm ino.
Let O := file_ptrs (bm_d bm) ino.
Let bc := bcount ino.
Let bc' := Z.to_nat (CEIL size BLOCK_SIZE).
Hypothesis Hbuf : (512 * bc' <= length buf)%nat.

Lemma wf_bc' : CEIL size BLOCK_SIZE = Z.of_nat bc' /\ (bc' <= 160)%nat /\
  size <= 512 * Z.of_nat bc' < size + 512.
Proof.
  pose proof (CEIL_bounds size ltac:(lia)) as Hc. unfold bc'.
  change (512 * MAXFILE) with 81920 in Hsize. lia.
Qed.

Lemma wf_u32 : u32 size = size.
Proof. apply u32_id. unfold is_u32. change (512 * MAXFILE) with 81920 in Hsize. lia. Qed.

Lemma wf_nodup : NoDup O.
Proof.
  destruct (lf_file bm n Hfs Hl) as (_ & _ & Hnd & _).
  unfold file_blocks in Hnd. by apply NoDup_app in Hnd as [Hnd _].
Qed.

Lemma wf_len_O : length O = bc.
Proof. by apply lf_ptrs_len. Qed.

Lemma wf_O : O = take bc (ptrs ino ind).
Proof. symmetry. by apply lf_ptrs. Qed.

Lemma wf_ind_notin : (32 < bc)%nat -> ind_block ino ∉ O.
Proof.
  intros Hb Hin. destruct (lf_file bm n Hfs Hl) as (_ & _ & Hnd & _).
  unfold file_blocks in Hnd. fold ino in Hnd. rewrite decide_True in Hnd by done.
  apply NoDup_app in Hnd as (_ & Hdis & _). apply (Hdis _ Hin). left.
Qed.

Lemma wf_owned b : b ∈ O -> owned bm n b.
Proof. intros Hb. apply lf_owned; [done |]. by apply file_ptrs_blocks. Qed.

(** The new inode: size and times, and the block addresses of [ino']. *)
Definition new_inode (ino' : inode) : inode :=
  set_size (set_times ino' (u32 cur) (u32 cur)) (u32 size).

Lemma new_inode_ok ino' : inode_ok ino' -> inode_ok (new_inode ino').
Proof.
  intros (? & ? & ? & ? & ? & ? & ?). unfold inode_ok. cbn. split_and!; auto with yfs.
Qed.

Lemma new_bcount ino' : bcount (new_inode ino') = bc'.
Proof. unfold bcount, new_inode. cbn [i_size set_size]. by rewrite wf_u32. Qed.

(** The first loop. *)
Lemma wf_first : exists bm1,
  write_blocks (Z.to_nat (Z.min (CEIL size BLOCK_SIZE) (CEIL (i_size ino) BLOCK_SIZE)))
    bm ino ind 0 buf = Done bm1 /\
  eff bm bm1 (data_map (take (bc' `min` bc) O) buf 0) ∅ ∅.
Proof.
  destruct wf_bc' as (Hb1 & Hb2 & Hb3). pose proof (lf_bc bm n Hfs) as Hbc. fold ino bc in Hbc.
  rewrite Hb1, Hbc. replace (Z.to_nat _) with (bc' `min` bc)%nat by lia.
  set (k := (bc' `min` bc)%nat).
  assert (Hk : length (take k O) = k) by (rewrite length_take, wf_len_O; lia).
  destruct (write_blocks_eff bm ino ind 0 (take k O) buf) as (bm1 & Hw & He).
  - apply Hfs.
  - by apply lf_len.
  - by apply lf_ind_len.
  - rewrite Hk, sub_take, wf_O, take_take. f_equal. lia.
  - apply Forall_take. by apply lf_ptrs_data.
  - rewrite Hk. lia.
  - rewrite Hk in Hw. exists bm1. split; [done |]. unfold data_map. exact He.
Qed.

Lemma elem_of_take_incl (l : list Z) k b : b ∈ take k l -> b ∈ l.
Proof. intros. rewrite <- (take_drop k l). apply elem_of_app. by left. Qed.

(** What write_file promises. *)
Definition wf_post (bm' : block_manager) : Prop :=
  fs_ok bm' /\ others_same bm bm' n /\ data_of bm' n = take (Z.to_nat size) buf /\
  i_type (inode_at (bm_d bm') n) = i_type ino /\ i_size (inode_at (bm_d bm') n) = size /\
  i_mtime (inode_at (bm_d bm') n) = u32 cur /\ i_ctime (inode_at (bm_d bm') n) = u32 cur.

Lemma wf_blocks_of : blocks_of bm n = O ++ (if decide (32 < bc)%nat then [ind_block ino] else []).
Proof. reflexivity. Qed.

Lemma wf_nodup_blocks : NoDup (blocks_of bm n).
Proof. by apply (lf_file bm n Hfs Hl). Qed.

Lemma wf_O_blocks b : b ∈ O -> b ∈ blocks_of bm n.
Proof. apply file_ptrs_blocks. Qed.

(** The pointers of the new file when it is not longer than the old one. *)
Lemma wf_ptrs_keep bm' ino' ind' :
  (bc' <= bc)%nat -> inode_ok ino' ->
  take bc' (ptrs ino' ind') = take bc' (ptrs ino ind) ->
  ((32 < bc')%nat -> ind_block ino' = ind_block ino /\
     block_at (bm_d bm') (ind_block ino) = block_at (bm_d bm) (ind_block ino)) ->
  file_ptrs (bm_d bm') (new_inode ino') = take bc' O.
Proof.
  intros Hle Hok Ht Hbig. assert (Hlen : length (i_blocks ino') = 33%nat) by apply Hok.
  assert (Hlen0 : length (i_blocks ino) = 33%nat) by (by apply lf_len).
  assert (HO : take bc' O = take bc' (ptrs ino ind)).
  { by rewrite wf_O, take_take, Nat.min_l. }
  rewrite HO, <- Ht. unfold file_ptrs. rewrite new_bcount.
  change (ptrs (new_inode ino')) with (ptrs ino').
  change (ind_block (new_inode ino')) with (ind_block ino').
  destruct (decide (32 < bc')%nat) as [Hb|Hb].
  - destruct (Hbig Hb) as [-> ->].
    assert (Hind : ind = block_at (bm_d bm) (ind_block ino)).
    { apply (lf_ind_big bm n junk_ind Hfs Hl Hj). fold ino bc. lia. }
    rewrite Ht, <- Hind. f_equal. unfold ptrs. f_equal.
    apply (f_equal (take 32)) in Ht. rewrite !take_take, !Nat.min_l in Ht by lia.
    unfold ptrs in Ht. rewrite !take_app_length' in Ht; [done | rewrite length_take; lia ..].
  - by apply take_ptrs_direct; [lia |].
Qed.

(** Installing a file that keeps the first [bc'] data blocks and frees the
    others. *)
Lemma wf_install_keep bm' S ino' ind' :
  (bc' <= bc)%nat -> inode_ok ino' -> i_type ino' = i_type ino ->
  take bc' (ptrs ino' ind') = take bc' (ptrs ino ind) ->
  ((32 < bc')%nat -> ind_block ino' = ind_block ino) ->
  ((bc' <= 32)%nat -> ind_block ino' = 0) ->
  eff bm bm' (data_map (take bc' O) buf 0) S {[n := new_inode ino']} ->
  (forall b, S !! b =
     if decide (b ∈ drop bc' O ++ (if decide (bc' <= 32 < bc)%nat then [ind_block ino] else []))
     then Some false else None) ->
  wf_post bm'.
Proof.
  intros Hle Hok Hty Ht Hbig Hsmall He HS.
  destruct wf_bc' as (Hb1 & Hb2 & Hb3).
  assert (HtO : NoDup (take bc' O)) by (eapply sublist_NoDup; [apply wf_nodup | apply sublist_take]).
  assert (Hind_same : (32 < bc')%nat ->
            block_at (bm_d bm') (ind_block ino) = block_at (bm_d bm) (ind_block ino)).
  { intros Hb. destruct He as (_ & HA & _). rewrite HA, data_map_not_in; [done | |].
    - intros Hin. apply (wf_ind_notin ltac:(lia)). by apply elem_of_take_incl in Hin.
    - apply (lf_ind_big bm n junk_ind Hfs Hl Hj). fold ino bc. lia. }
  assert (Hp : file_ptrs (bm_d bm') (new_inode ino') = take bc' O).
  { apply (wf_ptrs_keep bm' ino' ind'); auto. }
  assert (Hperm : blocks_of bm n ≡ₚ file_blocks (bm_d bm') (new_inode ino') ++ drop bc' O ++
            (if decide (bc' <= 32 < bc)%nat then [ind_block ino] else [])).
  { rewrite wf_blocks_of. unfold file_blocks. rewrite Hp, new_bcount.
    change (ind_block (new_inode ino')) with (ind_block ino').
    rewrite <- (take_drop bc' O) at 1. destruct (decide (32 < bc')%nat).
    - rewrite Hbig, decide_True, decide_False by lia. rewrite app_nil_r.
      rewrite <- !app_assoc. f_equiv. apply Permutation_app_comm.
    - rewrite app_nil_r, <- app_assoc. repeat case_decide; try lia; done. }
  pose proof wf_nodup_blocks as Hnd. rewrite Hperm in Hnd.
  apply NoDup_app in Hnd as (Hnd & Hdis & _).
  assert (Hsub : forall b, b ∈ file_blocks (bm_d bm') (new_inode ino') -> b ∈ blocks_of bm n).
  { intros b Hb. rewrite Hperm. apply elem_of_app. by left. }
  destruct (install bm bm' (data_map (take bc' O) buf 0) S n (new_inode ino') (take bc' O) buf)
    as (H1 & H2 & H3 & H4); auto.
  - intros b Hb%data_map_dom. apply wf_owned. by apply elem_of_take_incl in Hb.
  - intros b Hb. rewrite HS in Hb. case_decide as Hin; [| done].
    rewrite Hperm. apply elem_of_app. by right.
  - rewrite new_bcount, length_take, wf_len_O. lia.
  - rewrite new_bcount. lia.
  - rewrite new_bcount. done.
  - by apply new_inode_ok.
  - intros b Hb. split; [left; auto |]. right. split; [| auto].
    rewrite HS, decide_False; [done |]. by apply Hdis.
  - intros b Hb. rewrite HS in Hb. by case_decide.
  - intros b Hb. rewrite Hperm in Hb. apply elem_of_app in Hb as [Hb|Hb]; [by right |].
    left. by rewrite HS, decide_True.
  - change (i_type (new_inode ino')) with (i_type ino'). rewrite Hty. apply Hl.
  - intros k b Hk. destruct He as (_ & HA & _). rewrite HA.
    + by rewrite (data_map_in _ _ _ k).
    + apply (lf_file bm n Hfs Hl), wf_O_blocks.
      apply elem_of_take_incl with bc'. by apply list_elem_of_lookup_2 with k.
  - cbn [new_inode i_size set_size] in H4. rewrite wf_u32 in H4.
    split_and!; auto; rewrite H3; cbn; auto using wf_u32.
Qed.

(** write_file after its first loop. *)
Lemma wf_after_first bm1 :
  write_blocks (Z.to_nat (Z.min (CEIL size BLOCK_SIZE) (CEIL (i_size ino) BLOCK_SIZE)))
    bm ino ind 0 buf = Done bm1 ->
  write_file junk junk_ind cur bm n buf size =
  if Z.of_nat bc' =? Z.of_nat bc then
    put_inode junk bm1 n (new_inode ino)
  else if Z.of_nat bc' <? Z.of_nat bc then
    r ← free_tail junk (bc - bc') bm1 ino ind (Z.of_nat bc');
    let '(bm, ino, ind) := r in
    r ← (if (NDIRECT <? Z.of_nat bc) && (Z.of_nat bc' <=? NDIRECT)
         then bm ← free_block junk bm (ind_block ino);
              mret (bm, set_block ino (Z.to_nat NDIRECT) 0)
         else mret (bm, ino));
    put_inode junk (fst r) n (new_inode (snd r))
  else
    r ← (if (Z.of_nat bc <=? NDIRECT) && (NDIRECT <? Z.of_nat bc')
         then a ← alloc_block junk bm1;
              mret (fst a, set_block ino (Z.to_nat NDIRECT) (snd a), zero_block)
         else mret (bm1, ino, ind));
    let '(bm, ino, ind) := r in
    r ← grow_blocks junk (bc' - bc) bm ino ind (Z.of_nat bc) buf;
    let '(bm, ino, ind) := r in
    bm ← (if ind_block ino =? 0 then mret bm else bm_write_block bm (ind_block ino) ind);
    put_inode junk bm n (new_inode ino).
Proof.
  intros Hw. destruct (lf_get bm n junk Hfs Hl) as [Hg Ht].
  destruct wf_bc' as (Hb1 & Hb2 & Hb3). pose proof (lf_bc bm n Hfs) as Hbc. fold ino bc in Hbc.
  unfold write_file. rewrite Hg, Ht. fold ino. fold (ind_buf junk_ind bm ino). fold ind.
  rewrite Hw, bind_Done, Hb1, Hbc.
  replace (Z.to_nat (Z.of_nat bc - Z.of_nat bc')) with (bc - bc')%nat by lia.
  replace (Z.to_nat (Z.of_nat bc' - Z.of_nat bc)) with (bc' - bc)%nat by lia.
  destruct (Z.of_nat bc' =? Z.of_nat bc); [| done]. f_equal.
  unfold new_inode. cbn [i_size set_times].
  destruct (Z.eqb_spec (u32 size) (i_size ino)) as [->|]; by destruct ino.
Qed.

Lemma wf_equal : bc' = bc ->
  exists bm', write_file junk junk_ind cur bm n buf size = Done bm' /\ wf_post bm'.
Proof.
  intros Heq. destruct wf_first as (bm1 & Hw & He1).
  destruct (put_inode_eff junk bm1 n (new_inode ino)) as (bm2 & Hp & He2);
    [eauto with yfs | apply Hl | by apply new_inode_ok, lf_ino |].
  exists bm2. split.
  - rewrite (wf_after_first bm1 Hw), Heq, Z.eqb_refl. done.
  - pose proof (eff_trans _ _ _ _ _ _ _ _ _ He1 He2) as He.
    rewrite !(left_id_L ∅ (∪)), !(right_id_L ∅ (∪)), Nat.min_l in He by lia.
    apply (wf_install_keep bm2 ∅ ino ind); auto; try lia.
    + by apply lf_ino.
    + rewrite Heq. apply (lf_file bm n Hfs Hl).
    + intros b. rewrite lookup_empty, decide_False; [done |].
      rewrite drop_ge by (rewrite wf_len_O; lia).
      rewrite decide_False by lia. apply not_elem_of_nil.
Qed.

Lemma take_32_set_block ino' v ind' :
  ptrs (set_block ino' (Z.to_nat NDIRECT) v) ind' = ptrs ino' ind'.
Proof. unfold ptrs, set_block. cbn [i_blocks]. by rewrite take_insert_ge. Qed.

Lemma set_block_ind ino' v :
  length (i_blocks ino') = 33%nat -> ind_block (set_block ino' (Z.to_nat NDIRECT) v) = v.
Proof.
  intros Hlen. unfold ind_block, set_block. cbn [i_blocks].
  rewrite list_lookup_insert_eq; [done |]. rewrite Hlen. unfold NDIRECT. lia.
Qed.

(** The indirect block is released when the file becomes short. *)
Lemma wf_release_ind bm2 ino2 ind2 :
  bm_ok bm2 -> inode_ok ino2 -> (bc' < bc)%nat -> ind_block ino2 = ind_block ino ->
  i_type ino2 = i_type ino ->
  exists bm3 ino3 S3,
    (if (NDIRECT <? Z.of_nat bc) && (Z.of_nat bc' <=? NDIRECT)
     then bm ← free_block junk bm2 (ind_block ino2);
          mret (bm, set_block ino2 (Z.to_nat NDIRECT) 0)
     else mret (bm2, ino2)) = Done (bm3, ino3) /\
    eff bm2 bm3 ∅ S3 ∅ /\ inode_ok ino3 /\ i_type ino3 = i_type ino /\
    ptrs ino3 ind2 = ptrs ino2 ind2 /\
    ((32 < bc')%nat -> ind_block ino3 = ind_block ino) /\ ((bc' <= 32)%nat -> ind_block ino3 = 0) /\
    forall b, S3 !! b =
      if decide (b ∈ if decide (bc' <= 32 < bc)%nat then [ind_block ino] else [])
      then Some false else None.
Proof.
  intros Hbm2 Hok2 Hlt Hh2 Hty.
  unfold NDIRECT at 1 2. destruct (decide (bc' <= 32 < bc)%nat) as [Hc|Hc].
  - destruct (free_block_eff junk bm2 (ind_block ino)) as (bm3 & Hf3 & He3); [eauto with yfs | |].
    { apply (lf_ind_big bm n junk_ind Hfs Hl Hj). fold ino bc. lia. }
    exists bm3, (set_block ino2 (Z.to_nat NDIRECT) 0), {[ind_block ino := false]}.
    assert (Hl2 : length (i_blocks ino2) = 33%nat) by apply Hok2.
    split_and!; auto using take_32_set_block, set_block_ind, set_block_ok with yfs; [| lia |].
    + destruct (Z.ltb_spec 32 (Z.of_nat bc)); [| lia].
      destruct (Z.leb_spec (Z.of_nat bc') 32); [| lia].
      cbn [andb]. by rewrite Hh2, Hf3, bind_Done.
    + intros b. rewrite lookup_singleton.
      destruct (decide (b ∈ [ind_block ino])) as [Hin|Hin];
        rewrite list_elem_of_singleton in Hin; case_decide; congruence.
  - exists bm2, ino2, ∅. split_and!; eauto with yfs.
    + destruct (Z.ltb_spec 32 (Z.of_nat bc)), (Z.leb_spec (Z.of_nat bc') 32); try done. lia.
    + intros Hb. rewrite Hh2. apply (lf_file bm n Hfs Hl). fold ino bc. lia.
Qed.

Lemma wf_shrink : (bc' < bc)%nat ->
  exists bm', write_file junk junk_ind cur bm n buf size = Done bm' /\ wf_post bm'.
Proof.
  intros Hlt. destruct wf_first as (bm1 & Hw & He1). rewrite Nat.min_l in He1 by lia.
  pose proof wf_len_O as HlO.
  assert (HlD : length (drop bc' O) = (bc - bc')%nat) by (rewrite length_drop; lia).
  destruct (free_tail_eff junk bm1 ino ind bc' (drop bc' O))
    as (bm2 & ino2 & ind2 & Hf & He2 & Hh & Hok2 & Hil2 & Ht); eauto with yfs.
  { by apply lf_ino. } { by apply lf_ind_len. }
  { rewrite HlD, wf_O. unfold sub. by rewrite skipn_firstn_comm. }
  { apply Forall_drop. by apply lf_ptrs_data. }
  rewrite HlD in Hf. destruct Hh as [Hh1 Hh2].
  assert (Hty : i_type ino2 = i_type ino) by (by rewrite Hh1).
  destruct (wf_release_ind bm2 ino2 ind2)
    as (bm3 & ino3 & S3 & Hr3 & He3 & Hok3 & Hty3 & Hp3 & Hbig3 & Hsm3 & HS3); eauto with yfs.
  destruct (put_inode_eff junk bm3 n (new_inode ino3)) as (bm4 & Hp4 & He4);
    [eauto with yfs | apply Hl | by apply new_inode_ok |].
  exists bm4. split.
  - rewrite (wf_after_first bm1 Hw).
    destruct (Z.eqb_spec (Z.of_nat bc') (Z.of_nat bc)); [lia |].
    destruct (Z.ltb_spec (Z.of_nat bc') (Z.of_nat bc)); [| lia].
    by rewrite Hf, bind_Done, Hr3, bind_Done.
  - pose proof (eff_trans _ _ _ _ _ _ _ _ _
      (eff_trans _ _ _ _ _ _ _ _ _ (eff_trans _ _ _ _ _ _ _ _ _ He1 He2) He3) He4) as He.
    rewrite !(left_id_L ∅ (∪)), !(right_id_L ∅ (∪)) in He.
    apply (wf_install_keep bm4 _ ino3 ind2) with (7 := He); auto; [lia | by rewrite Hp3 |].
    intros b. rewrite lookup_union, HS3, wmap_const.
    destruct (decide (b ∈ drop bc' O ++ _)) as [Hin|Hin]; rewrite elem_of_app in Hin;
      repeat case_decide; try done; exfalso; tauto.
Qed.

(** Growing: the number of blocks needed, the indirect block included. *)
Definition need : nat := (bc' - bc) + (if decide (bc <= 32 < bc')%nat then 1 else 0).

Lemma wf_get_ind bm1 :
  (bc < bc')%nat -> bm_ok bm1 -> (need <= length (free_blocks (bm_d bm1)))%nat ->
  exists bm2 ino2 ind2 I,
    (if (Z.of_nat bc <=? NDIRECT) && (NDIRECT <? Z.of_nat bc')
     then a ← alloc_block junk bm1;
          mret (fst a, set_block ino (Z.to_nat NDIRECT) (snd a), zero_block)
     else mret (bm1, ino, ind)) = Done (bm2, ino2, ind2) /\
    eff bm1 bm2 ∅ (wmap ((fun b => (b, true)) <$> I)) ∅ /\
    inode_ok ino2 /\ i_type ino2 = i_type ino /\ length ind2 = 512%nat /\
    take bc (ptrs ino2 ind2) = O /\ free_blocks (bm_d bm1) = I ++ free_blocks (bm_d bm2) /\
    (((bc <= 32 < bc')%nat /\ I = [ind_block ino2]) \/
     (~ (bc <= 32 < bc')%nat /\ I = [] /\ ind_block ino2 = ind_block ino)).
Proof.
  intros Hlt Hbm1 Hneed. unfold need in Hneed. unfold NDIRECT at 1 2.
  destruct (decide (bc <= 32 < bc')%nat) as [Hc|Hc].
  - destruct (free_blocks (bm_d bm1)) as [|x F] eqn:HF; [simpl in Hneed; lia |].
    destruct (alloc_block_eff junk bm1 x F Hbm1 HF) as (bm2 & Ha & He & Hx & HF2).
    assert (Hino : inode_ok ino) by (by apply lf_ino).
    assert (Hlen : length (i_blocks ino) = 33%nat) by apply Hino.
    exists bm2, (set_block ino (Z.to_nat NDIRECT) x), zero_block, [x].
    split_and!; auto using set_block_ok with yfs.
    + destruct (Z.leb_spec (Z.of_nat bc) 32); [| lia].
      destruct (Z.ltb_spec 32 (Z.of_nat bc')); [| lia]. cbn [andb]. by rewrite Ha, bind_Done.
    + simpl wmap. by rewrite (left_id_L ∅ (∪)).
    + rewrite take_32_set_block, wf_O. apply take_ptrs_direct; [lia | done].
    + by rewrite HF2.
  - exists bm1, ino, ind, []. split_and!; eauto with yfs.
    + destruct (Z.leb_spec (Z.of_nat bc) 32), (Z.ltb_spec 32 (Z.of_nat bc')); try done. lia.
    + by apply lf_ino.
    + by apply lf_ind_len.
    + by rewrite wf_O.
Qed.

Lemma free_not_own b : b ∈ free_blocks (bm_d bm) -> b ∉ blocks_of bm n.
Proof.
  intros Hb Hin. apply free_blocks_data in Hb as [_ Hb].
  destruct (lf_file bm n Hfs Hl) as (_ & _ & _ & Hu). destruct (Hu b Hin). congruence.
Qed.

(** Installing the grown file: old blocks [O], new data blocks [L], a new
    indirect block if [I] is not empty. *)
Section grown.
Context (bm' : block_manager) (ino' : inode) (ind' I L rest : list Z).
Hypothesis Hlt : (bc < bc')%nat.
Hypothesis Hok : inode_ok ino'.
Hypothesis Hty : i_type ino' = i_type ino.
Hypothesis Hil : length ind' = 512%nat.
Hypothesis HlL : length L = (bc' - bc)%nat.
Hypothesis Ht : take bc' (ptrs ino' ind') = O ++ L.
Hypothesis HF : free_blocks (bm_d bm) = I ++ L ++ rest.
Hypothesis Hcase :
  ((bc <= 32 < bc')%nat /\ I = [ind_block ino']) \/
  (~ (bc <= 32 < bc')%nat /\ I = [] /\ ind_block ino' = ind_block ino).
Hypothesis He : eff bm bm'
  ((if decide (32 < bc')%nat then {[ind_block ino' := ind']} else ∅) ∪
     (data_map L buf bc ∪ data_map O buf 0))
  (wmap ((fun b => (b, true)) <$> L) ∪ wmap ((fun b => (b, true)) <$> I))
  {[n := new_inode ino']}.

Lemma grown_free b : b ∈ I \/ b ∈ L -> b ∈ free_blocks (bm_d bm).
Proof. rewrite HF, !elem_of_app. tauto. Qed.

Lemma grown_free_data b : b ∈ I \/ b ∈ L -> data_block b.
Proof. intros Hb%grown_free. by apply free_blocks_data in Hb as [? _]. Qed.

Lemma grown_disjoint b : b ∈ blocks_of bm n -> (b ∉ L) /\ (b ∉ I).
Proof. intros Hb. split; intros Hin; apply (free_not_own b); auto using grown_free. Qed.

Lemma grown_nodup : NoDup L /\ (forall b, b ∈ I -> b ∉ L).
Proof.
  pose proof (free_blocks_NoDup (bm_d bm)) as Hnd. rewrite HF in Hnd.
  apply NoDup_app in Hnd as (_ & Hd & Hnd). apply NoDup_app in Hnd as (Hnd & _).
  split; [done |]. intros b Hb Hin. apply (Hd b Hb). apply elem_of_app. by left.
Qed.

Lemma grown_nodup_O : NoDup (O ++ L).
Proof.
  apply NoDup_app. split_and!; [apply wf_nodup | | apply grown_nodup].
  intros b Hb. by apply (grown_disjoint b), wf_O_blocks.
Qed.

(** The indirect block of a long file is new or the old one. *)
Lemma grown_ind : (32 < bc')%nat ->
  (ind_block ino' ∉ O ++ L) /\ data_block (ind_block ino') /\
  (ind_block ino' ∈ I \/ (I = [] /\ (32 < bc)%nat /\ ind_block ino' = ind_block ino)).
Proof.
  intros Hb. rewrite not_elem_of_app. destruct Hcase as [[Hc HI]|(Hc & HI & Hxe)].
  - assert (Hin : ind_block ino' ∈ I) by (rewrite HI; left).
    split_and!; auto using grown_free_data.
    + intros Hx. by apply (grown_disjoint (ind_block ino') (wf_O_blocks _ Hx)).
    + by apply (proj2 grown_nodup).
  - assert (Hbig : (32 < bc)%nat) by lia.
    assert (Hin : ind_block ino' ∈ blocks_of bm n) by (rewrite Hxe; by apply file_blocks_ind).
    split_and!; auto.
    + rewrite Hxe. by apply wf_ind_notin.
    + by apply grown_disjoint.
    + by apply (lf_file bm n Hfs Hl).
Qed.

Lemma grown_block b : data_block b ->
  block_at (bm_d bm') b =
  default (default (block_at (bm_d bm) b) ((data_map L buf bc ∪ data_map O buf 0) !! b))
    ((if decide (32 < bc')%nat then {[ind_block ino' := ind']} else ∅ : gmap Z (list Z)) !! b).
Proof. intros Hb. destruct He as (_ & HA & _). by rewrite HA, default_union. Qed.

Lemma grown_ptrs : file_ptrs (bm_d bm') (new_inode ino') = O ++ L.
Proof.
  assert (Hlen : length (i_blocks ino') = 33%nat) by apply Hok.
  unfold file_ptrs. rewrite new_bcount, <- Ht.
  change (ptrs (new_inode ino')) with (ptrs ino').
  change (ind_block (new_inode ino')) with (ind_block ino').
  destruct (Nat.lt_ge_cases 32 bc') as [Hb|Hb]; [| apply take_ptrs_direct; [lia | done]].
  destruct (grown_ind Hb) as (_ & Hd & _). rewrite grown_block by done.
  rewrite decide_True by done. by rewrite lookup_singleton_eq.
Qed.

Lemma grown_contents k b : (O ++ L) !! k = Some b -> block_at (bm_d bm') b = chunk buf k.
Proof.
  intros Hk. assert (Hin : b ∈ O ++ L) by (by apply list_elem_of_lookup_2 with k).
  assert (Hd : data_block b).
  { apply elem_of_app in Hin as [Hin|Hin]; [| auto using grown_free_data].
    by apply (lf_file bm n Hfs Hl), wf_O_blocks. }
  rewrite grown_block by done.
  assert (Hno : (if decide (32 < bc')%nat then {[ind_block ino' := ind']} else ∅
                 : gmap Z (list Z)) !! b = None).
  { destruct (Nat.lt_ge_cases 32 bc') as [Hb|Hb]; [| by rewrite decide_False by lia].
    rewrite decide_True by done. apply lookup_singleton_ne. intros Heq. rewrite <- Heq in Hin.
    by destruct (proj1 (grown_ind Hb)). }
  rewrite Hno, lookup_union. simpl default. apply lookup_app_Some in Hk as [Hk|[Hge Hk]].
  - rewrite data_map_not_in, (data_map_in O buf 0 k) by
      (apply wf_nodup || done || by apply grown_disjoint, wf_O_blocks, list_elem_of_lookup_2 with k).
    done.
  - rewrite (data_map_in L buf bc (k - length O)) by (apply grown_nodup || done).
    rewrite wf_len_O in *. replace (bc + (k - bc))%nat with k by lia.
    by destruct (data_map O buf 0 !! b).
Qed.

Lemma grown_gained b :
  (wmap ((fun b => (b, true)) <$> L) ∪ wmap ((fun b => (b, true)) <$> I)) !! b =
  if decide (b ∈ L \/ b ∈ I) then Some true else None.
Proof.
  rewrite lookup_union, !wmap_const. repeat case_decide; try done; exfalso; tauto.
Qed.

Lemma grown_blocks b :
  b ∈ file_blocks (bm_d bm') (new_inode ino') <-> b ∈ blocks_of bm n \/ b ∈ L \/ b ∈ I.
Proof.
  rewrite wf_blocks_of. unfold file_blocks. rewrite grown_ptrs, new_bcount.
  change (ind_block (new_inode ino')) with (ind_block ino').
  rewrite !elem_of_app. destruct (Nat.lt_ge_cases 32 bc') as [Hb|Hb].
  - rewrite (decide_True (P := (32 < bc')%nat)) by done.
    destruct Hcase as [[Hc HI]|(Hc & HI & Hxe)]; rewrite HI.
    + rewrite decide_False by lia. rewrite ?list_elem_of_singleton, ?elem_of_nil; tauto.
    + rewrite Hxe, decide_True by lia. rewrite ?list_elem_of_singleton, ?elem_of_nil; tauto.
  - destruct Hcase as [[Hc HI]|(Hc & HI & Hxe)]; [lia |]. rewrite HI, !decide_False by lia.
    rewrite ?list_elem_of_singleton, ?elem_of_nil; tauto.
Qed.

Lemma grown_nodup_blocks : NoDup (file_blocks (bm_d bm') (new_inode ino')).
Proof.
  unfold file_blocks. rewrite grown_ptrs, new_bcount.
  change (ind_block (new_inode ino')) with (ind_block ino').
  apply NoDup_app. split_and!; [apply grown_nodup_O | |].
  - intros b Hb. destruct (Nat.lt_ge_cases 32 bc') as [H32|H32].
    + rewrite decide_True, list_elem_of_singleton by done. intros ->. by destruct (proj1 (grown_ind H32)).
    + rewrite decide_False by lia. apply not_elem_of_nil.
  - destruct (decide (32 < bc')%nat); [apply NoDup_singleton | constructor].
Qed.

Lemma grown_written b :
  ((if decide (32 < bc')%nat then {[ind_block ino' := ind']} else ∅) ∪
     (data_map L buf bc ∪ data_map O buf 0)) !! b <> None -> owned bm n b.
Proof.
  intros Hb. destruct (decide (b ∈ blocks_of bm n)) as [Hin|Hin]; [by left |].
  destruct (decide (b ∈ L)); [right; auto using grown_free |].
  right. rewrite !lookup_union, !data_map_not_in in Hb by (auto using wf_O_blocks).
  destruct (Nat.lt_ge_cases 32 bc') as [H32|H32].
  - rewrite decide_True, lookup_singleton in Hb by done. case_decide as Hx; [subst b | done].
    destruct (grown_ind H32) as (_ & _ & [HI|(_ & Hbig & Hxe)]); [auto using grown_free |].
    destruct Hin. rewrite Hxe. by apply file_blocks_ind.
  - by rewrite decide_False, lookup_empty in Hb by lia.
Qed.

Lemma wf_install_grow : wf_post bm'.
Proof.
  destruct wf_bc' as (Hb1 & Hb2 & Hb3). pose proof wf_len_O as HlO.
  destruct (install bm bm' _ _ n (new_inode ino') (O ++ L) buf Hfs Hl He)
    as (H1 & H2 & H3 & H4); rewrite ?new_bcount; auto using grown_ptrs, grown_nodup_blocks,
      grown_contents, new_inode_ok, grown_written.
  - intros b. rewrite grown_gained. by destruct (decide (b ∈ L \/ b ∈ I)).
  - rewrite length_app. lia.
  - intros Hb. destruct Hcase as [[Hc HI]|(Hc & HI & Hxe)]; [lia |].
    change (ind_block (new_inode ino')) with (ind_block ino'). rewrite Hxe.
    apply (lf_file bm n Hfs Hl). fold ino bc. lia.
  - intros b Hb%grown_blocks. rewrite grown_gained. unfold owned. destruct Hb as [Hb|Hb].
    + split; [auto |]. right. destruct (grown_disjoint b Hb). rewrite decide_False by tauto. done.
    + rewrite decide_True by done. split; [right | by left]. apply grown_free. tauto.
  - intros b. rewrite grown_gained. destruct (decide (b ∈ L \/ b ∈ I)); [| done]. intros _. apply grown_blocks. tauto.
  - intros b Hb. right. apply grown_blocks. by left.
  - change (i_type (new_inode ino')) with (i_type ino'). rewrite Hty. apply Hl.
  - cbn [new_inode i_size set_size] in H4. rewrite wf_u32 in H4.
    split_and!; auto; rewrite H3; cbn; auto using wf_u32.
Qed.
End grown.

(** Writing the indirect block back. *)
Lemma wf_put_ind bm3 ino3 ind3 (I : list Z) :
  bm_ok bm3 -> inode_ok ino3 -> length ind3 = 512%nat -> (bc < bc')%nat ->
  (forall b, b ∈ I -> data_block b) ->
  ((bc <= 32 < bc')%nat /\ I = [ind_block ino3]) \/
    (~ (bc <= 32 < bc')%nat /\ I = [] /\ ind_block ino3 = ind_block ino) ->
  exists bm4,
    (if ind_block ino3 =? 0 then mret bm3 else bm_write_block bm3 (ind_block ino3) ind3)
    = Done bm4 /\
    eff bm3 bm4 (if decide (32 < bc')%nat then {[ind_block ino3 := ind3]} else ∅) ∅ ∅.
Proof.
  intros Hbm3 Hok Hil Hlt HI Hcase. destruct (decide (32 < bc')%nat) as [Hb|Hb].
  - assert (Hd : data_block (ind_block ino3)).
    { destruct Hcase as [[Hc HIe]|(Hc & _ & ->)]; [apply HI; rewrite HIe; left |].
      apply (lf_ind_big bm n junk_ind Hfs Hl Hj). fold ino bc. lia. }
    destruct (bm_write_data bm3 _ ind3 Hbm3 Hd) as (bm4 & Hw & He); [lia |].
    rewrite take_ge in He by lia. exists bm4. split; [| done].
    destruct (Z.eqb_spec (ind_block ino3) 0) as [Hz|]; [| done].
    rewrite Hz in Hd. unfold data_block, FIRST_DATA in Hd. lia.
  - exists bm3. split; [| eauto with yfs]. destruct Hcase as [[Hc _]|(Hc & _ & ->)]; [lia |].
    assert (Hz : ind_block ino = 0) by (apply (lf_file bm n Hfs Hl); fold ino bc; lia).
    by rewrite Hz.
Qed.

Lemma wf_grow : (bc < bc')%nat -> (need <= length (free_blocks (bm_d bm)))%nat ->
  exists bm', write_file junk junk_ind cur bm n buf size = Done bm' /\ wf_post bm'.
Proof.
  intros Hlt Hneed. destruct wf_first as (bm1 & Hw & He1). destruct wf_bc' as (Hb1 & Hb2 & Hb3).
  pose proof wf_len_O as HlO. rewrite Nat.min_r, take_ge in He1 by lia.
  pose proof (eff_free_blocks _ _ _ _ He1) as HF1.
  destruct (wf_get_ind bm1) as (bm2 & ino2 & ind2 & I & Hg & He2 & Hok2 & Hty2 & Hil2 & Ht2 & HF2
    & Hcase); [done | eauto with yfs | by rewrite HF1 |].
  assert (HlF : (bc' - bc <= length (free_blocks (bm_d bm2)))%nat).
  { rewrite <- HF1, HF2, length_app in Hneed. unfold need in Hneed.
    destruct Hcase as [[Hc ->]|(Hc & -> & _)]; case_decide; simpl in *; lia. }
  set (L := take (bc' - bc) (free_blocks (bm_d bm2))).
  assert (HlL : length L = (bc' - bc)%nat) by (unfold L; rewrite length_take; lia).
  destruct (grow_blocks_eff junk bm2 ino2 ind2 bc L (drop (bc' - bc) (free_blocks (bm_d bm2))) buf)
    as (bm3 & ino3 & ind3 & Hgr & He3 & Hh3 & Hok3 & Hil3 & Ht3 & Hs3 & HF3);
    eauto with yfs; try (rewrite HlL; lia).
  { unfold L. by rewrite take_drop. }
  rewrite HlL in Hgr. destruct Hh3 as [Hh3 Hi3].
  assert (Hcase3 : ((bc <= 32 < bc')%nat /\ I = [ind_block ino3]) \/
    (~ (bc <= 32 < bc')%nat /\ I = [] /\ ind_block ino3 = ind_block ino)) by (by rewrite Hi3).
  destruct (wf_put_ind bm3 ino3 ind3 I) as (bm4 & Hpi & He4); eauto with yfs.
  { intros b Hb. apply (free_blocks_data (bm_d bm1)). rewrite HF2. apply elem_of_app. by left. }
  destruct (put_inode_eff junk bm4 n (new_inode ino3)) as (bm5 & Hp5 & He5);
    [eauto with yfs | apply Hl | by apply new_inode_ok |].
  exists bm5. split.
  - rewrite (wf_after_first bm1 Hw).
    destruct (Z.eqb_spec (Z.of_nat bc') (Z.of_nat bc)); [lia |].
    destruct (Z.ltb_spec (Z.of_nat bc') (Z.of_nat bc)); [lia |].
    by rewrite Hg, bind_Done, Hgr, bind_Done, Hpi, bind_Done.
  - pose proof (eff_trans _ _ _ _ _ _ _ _ _ (eff_trans _ _ _ _ _ _ _ _ _
      (eff_trans _ _ _ _ _ _ _ _ _ (eff_trans _ _ _ _ _ _ _ _ _ He1 He2) He3) He4) He5) as He.
    rewrite !(left_id_L ∅ (∪)), !(right_id_L ∅ (∪)) in He.
    apply (wf_install_grow bm5 ino3 ind3 I L (free_blocks (bm_d bm3))); auto.
    + by rewrite Hh3.
    + replace bc' with (bc + (bc' - bc))%nat by lia.
      rewrite take_plus, Ht3, Ht2, <- HlL. f_equal. exact Hs3.
    + rewrite <- HF1, HF2, HF3. unfold L. by rewrite take_drop.
Qed.

(** write_file, all three cases. *)
Lemma write_file_done :
  (need <= length (free_blocks (bm_d bm)))%nat ->
  exists bm', write_file junk junk_ind cur bm n buf size = Done bm' /\ wf_post bm'.
Proof.
  intros. destruct (Nat.lt_trichotomy bc' bc) as [|[|]]; auto using wf_equal, wf_shrink, wf_grow.
Qed.

End write_file.
