(* ===== verification/FileSpec.v ===== *)
(** * The inode manager as a store of files

    An abstract file store is a finite map from inode numbers to a type and a
    byte string.  [abs] reads it off the disk; every operation of the inode
    manager is shown to act on the disk as its counterpart acts on the map,
    to keep the invariant [fs_ok], and never to fault as long as the blocks it
    needs are free.  [free_space] says how many blocks that is, in terms of
    the abstract store alone. *)

From S2P Require Import Prelude Disk InodeManager FileSystem FileOps FileWrite.

#[export] Instance live_dec bm n : Decision (live bm n).
Proof. unfold live, valid_inum. apply _. Defined.

(** ** The abstract store *)

Record file := File { f_type : Z; f_data : list Z }.
Abbreviation fstore := (gmap Z file).

Module Spec.

Definition free_inums (m : fstore) : list Z :=
  filter (fun n => m !! n = None) (seqZ 1 (INODE_NUM - 1)).

Definition create (type : Z) (m : fstore) : fstore * Z :=
  match free_inums m with
  | [] => (m, 0)
  | n :: _ => (<[n := File (s16 type) []]> m, n)
  end.

Definition read (n : Z) (m : fstore) : option (list Z) := f_data <$> m !! n.

Definition write (n : Z) (data : list Z) (m : fstore) : fstore :=
  alter (fun f => File (f_type f) data) n m.

Definition remove (n : Z) (m : fstore) : fstore := delete n m.

(** The blocks a file of [size] bytes takes, its indirect block included. *)
Definition file_cost (size : nat) : nat :=
  let c := Z.to_nat (CEIL (Z.of_nat size) BLOCK_SIZE) in
  if decide (32 < c)%nat then S c else c.

Definition used_space (m : fstore) : nat :=
  sum_list ((fun '(_, f) => file_cost (length (f_data f))) <$> map_to_list m).

(** Blocks that are neither super block, bitmap nor inode table, below the
    first one whose bit alloc_block does not find. *)
Definition capacity : nat := Z.to_nat (END_DATA - FIRST_DATA).

End Spec.

Definition file_at (bm : block_manager) (n : Z) : file :=
  File (i_type (inode_at (bm_d bm) n)) (data_of bm n).

Definition abs (bm : block_manager) : fstore :=
  list_to_map ((fun n => (n, file_at bm n)) <$> filter (live bm) (seqZ 0 INODE_NUM)).

Lemma abs_lookup bm n : abs bm !! n = if decide (live bm n) then Some (file_at bm n) else None.
Proof.
  unfold abs. set (l := filter (live bm) (seqZ 0 INODE_NUM)).
  assert (Hfst : ((fun n => (n, file_at bm n)) <$> l).*1 = l).
  { rewrite <- list_fmap_compose. apply list_fmap_id. }
  assert (Hin : n ∈ l <-> live bm n).
  { unfold l. rewrite list_elem_of_filter, elem_of_seqZ. unfold live, valid_inum. lia. }
  case_decide as Hl.
  - apply elem_of_list_to_map.
    + rewrite Hfst. apply NoDup_filter, NoDup_seqZ.
    + apply list_elem_of_fmap. exists n. split; [done | by apply Hin].
  - apply not_elem_of_list_to_map. rewrite Hfst. by rewrite Hin.
Qed.

Lemma live_others bm bm' n m :
  others_same bm bm' n -> m <> n -> live bm' m <-> live bm m.
Proof.
  intros Ho Hne. unfold live. split; intros [Hv Ht]; destruct (Ho m Hv Hne) as [He _];
    [rewrite He in Ht | rewrite He]; done.
Qed.

Lemma abs_others bm bm' n m :
  others_same bm bm' n -> m <> n -> abs bm' !! m = abs bm !! m.
Proof.
  intros Ho Hne. rewrite !abs_lookup. pose proof (live_others bm bm' n m Ho Hne) as Hl.
  destruct (decide (live bm m)) as [Hm|Hm].
  - rewrite decide_True by (by apply Hl). destruct (Ho m (proj1 Hm) Hne) as [He Hd].
    unfold file_at. by rewrite He, Hd.
  - rewrite decide_False; [done |]. by rewrite Hl.
Qed.

Lemma abs_set bm bm' n :
  others_same bm bm' n -> live bm' n -> abs bm' = <[n := file_at bm' n]> (abs bm).
Proof.
  intros Ho Hl. apply map_eq. intros m. rewrite lookup_insert. case_decide as He.
  - subst. by rewrite abs_lookup, decide_True.
  - by apply abs_others with n.
Qed.

Lemma abs_delete bm bm' n :
  others_same bm bm' n -> ~ live bm' n -> abs bm' = delete n (abs bm).
Proof.
  intros Ho Hl. apply map_eq. intros m. rewrite lookup_delete. case_decide as He.
  - subst. by rewrite abs_lookup, decide_False.
  - by apply abs_others with n.
Qed.

Lemma abs_live bm n : is_Some (abs bm !! n) <-> live bm n.
Proof.
  rewrite abs_lookup. case_decide; by split.
Qed.

Lemma free_inums_abs bm : Spec.free_inums (abs bm) = free_inodes (bm_d bm) 1.
Proof.
  unfold Spec.free_inums, free_inodes. apply filter_ext_in. intros n Hn.
  apply elem_of_seqZ in Hn. rewrite abs_lookup. case_decide as Hl.
  - split; [done |]. intros. by destruct Hl.
  - split; [| done]. intros _. destruct (decide (i_type (inode_at (bm_d bm) n) = 0)); [done |].
    destruct Hl. split; [| done]. unfold valid_inum. lia.
Qed.

(** ** Space accounting *)

Lemma length_blocks_of bm n :
  fs_ok bm -> live bm n -> length (blocks_of bm n) = Spec.file_cost (length (data_of bm n)).
Proof.
  intros Hfs Hl. unfold blocks_of, file_blocks, Spec.file_cost.
  rewrite length_app, lf_ptrs_len by done.
  pose proof (length_file_data bm n Hfs Hl) as Hlen. rewrite Hlen.
  fold (bcount (inode_at (bm_d bm) n)). case_decide; simpl; lia.
Qed.

Lemma NoDup_mjoin (f : Z -> list Z) l :
  NoDup l -> (forall n, n ∈ l -> NoDup (f n)) ->
  (forall n m b, n ∈ l -> m ∈ l -> n <> m -> b ∈ f n -> b ∉ f m) ->
  NoDup (mjoin (f <$> l)).
Proof.
  induction l as [|n l IH]; intros Hnd Hf Hd; [constructor |].
  apply NoDup_cons in Hnd as [Hn Hnd]. rewrite fmap_cons, mjoin_cons. apply NoDup_app.
  split_and!.
  - apply Hf. left.
  - intros b Hb Hin. apply list_elem_of_join in Hin as (k & Hbk & Hk).
    apply list_elem_of_fmap in Hk as (m & -> & Hm).
    apply (Hd n m b); [left | by right | by intros -> | done | done].
  - apply IH; auto; intros; [apply Hf | eapply Hd]; eauto; by right.
Qed.

Lemma length_mjoin_sum {A} (l : list (list A)) : length (mjoin l) = sum_list (length <$> l).
Proof. induction l as [|x l IH]; [done |]. rewrite mjoin_cons, length_app, IH. done. Qed.

Lemma blocks_partition bm :
  fs_ok bm ->
  free_blocks (bm_d bm) ++ mjoin (blocks_of bm <$> filter (live bm) (seqZ 0 INODE_NUM))
  ≡ₚ seqZ FIRST_DATA (END_DATA - FIRST_DATA).
Proof.
  intros Hfs. destruct (Hfs) as (_ & Hok & Hdis & Hleak).
  assert (Hl : forall n, n ∈ filter (live bm) (seqZ 0 INODE_NUM) <-> live bm n).
  { intros n. rewrite list_elem_of_filter, elem_of_seqZ. unfold live, valid_inum. lia. }
  assert (Hm : forall b, b ∈ mjoin (blocks_of bm <$> filter (live bm) (seqZ 0 INODE_NUM)) <->
                 exists n, live bm n /\ b ∈ blocks_of bm n).
  { intros b. rewrite list_elem_of_join. split.
    - intros (k & Hb & Hk). apply list_elem_of_fmap in Hk as (n & -> & Hn). exists n.
      by rewrite <- Hl.
    - intros (n & Hn & Hb). exists (blocks_of bm n). split; [done |].
      apply list_elem_of_fmap. exists n. by rewrite Hl. }
  apply NoDup_Permutation.
  - apply NoDup_app. split_and!; [apply free_blocks_NoDup | |].
    + intros b Hb Hin. apply Hm in Hin as (n & Hn & Hin). by apply (free_not_own bm n Hfs Hn b).
    + apply NoDup_mjoin; [apply NoDup_filter, NoDup_seqZ | |].
      * intros n Hn%Hl. apply (Hok n Hn).
      * intros n m b Hn%Hl Hm'%Hl. by apply Hdis.
  - apply NoDup_seqZ.
  - intros b. rewrite elem_of_app, Hm, free_blocks_data, elem_of_seqZ. split.
    + intros [[Hd _]|(n & Hn & Hb)]; [| destruct (Hok n Hn) as (_ & _ & _ & Hu);
        destruct (Hu b Hb) as [Hd _]]; unfold data_block in Hd; lia.
    + intros Hd. assert (Hd' : data_block b) by (unfold data_block; lia).
      destruct (block_used (bm_d bm) b) eqn:E; [right; auto | left; done].
Qed.

Lemma map_to_list_abs bm :
  map_to_list (abs bm) ≡ₚ (fun n => (n, file_at bm n)) <$> filter (live bm) (seqZ 0 INODE_NUM).
Proof.
  unfold abs. apply map_to_list_to_map. rewrite <- list_fmap_compose, list_fmap_id.
  apply NoDup_filter, NoDup_seqZ.
Qed.

#[export] Instance sum_list_Proper : Proper ((≡ₚ) ==> (=)) sum_list.
Proof. intros l k H. induction H; simpl; lia. Qed.

(** The free blocks are the capacity less what the files take. *)
Lemma free_space bm :
  fs_ok bm ->
  (length (free_blocks (bm_d bm)) + Spec.used_space (abs bm))%nat = Spec.capacity.
Proof.
  intros Hfs. pose proof (Permutation_length (blocks_partition bm Hfs)) as Hlen.
  rewrite length_app, length_seqZ, length_mjoin_sum, <- list_fmap_compose in Hlen.
  fold Spec.capacity in Hlen. rewrite <- Hlen. f_equal.
  unfold Spec.used_space. rewrite map_to_list_abs, <- list_fmap_compose. f_equal.
  apply list_fmap_ext. intros k n Hn. simpl.
  apply list_elem_of_lookup_2, list_elem_of_filter in Hn as [Hn _].
  symmetry. by apply length_blocks_of.
Qed.

Lemma used_space_insert m n f :
  m !! n = None ->
  Spec.used_space (<[n := f]> m) =
  (Spec.file_cost (length (f_data f)) + Spec.used_space m)%nat.
Proof. intros Hn. unfold Spec.used_space. by rewrite map_to_list_insert by done. Qed.

Lemma used_space_delete m n f :
  m !! n = Some f ->
  Spec.used_space m =
  (Spec.file_cost (length (f_data f)) + Spec.used_space (delete n m))%nat.
Proof.
  intros Hn. rewrite <- (insert_delete_id m n f Hn) at 1.
  apply used_space_insert, lookup_delete_eq.
Qed.

Lemma used_space_write m n f data :
  m !! n = Some f ->
  (Spec.used_space (Spec.write n data m) + Spec.file_cost (length (f_data f)) =
   Spec.used_space m + Spec.file_cost (length data))%nat.
Proof.
  intros Hn. rewrite (used_space_delete m n f Hn).
  rewrite (used_space_delete (Spec.write n data m) n (File (f_type f) data)).
  - unfold Spec.write. rewrite delete_alter, decide_True by done. cbn [f_data]. lia.
  - unfold Spec.write. by rewrite lookup_alter_eq, Hn.
Qed.

(** A write fits when the store after it does. *)
Lemma write_space bm n size buf :
  fs_ok bm -> live bm n -> 0 <= size -> (Z.to_nat size <= length buf)%nat ->
  (Spec.used_space (Spec.write n (take (Z.to_nat size) buf) (abs bm)) <= Spec.capacity)%nat ->
  (need bm n size <= length (free_blocks (bm_d bm)))%nat.
Proof.
  intros Hfs Hl Hs Hb Hcap. pose proof (free_space bm Hfs) as Hfree.
  assert (Hn : abs bm !! n = Some (file_at bm n)) by (by rewrite abs_lookup, decide_True).
  pose proof (used_space_write (abs bm) n (file_at bm n) (take (Z.to_nat size) buf) Hn) as Hw.
  cbn [f_data file_at] in Hw. rewrite length_take, Nat.min_l in Hw by done.
  pose proof (length_file_data bm n Hfs Hl) as Hlen.
  unfold Spec.file_cost in Hw. rewrite Hlen in Hw. rewrite Z2Nat.id in Hw by done.
  fold (bcount (inode_at (bm_d bm) n)) in Hw.
  set (c := Z.to_nat (CEIL size BLOCK_SIZE)) in *.
  unfold need. fold c. set (bc := bcount _) in *.
  destruct (decide (bc <= 32 < c)%nat), (decide (32 < c)%nat), (decide (32 < bc)%nat); lia.
Qed.

Lemma get_inode_dead junk bm n : fs_ok bm -> ~ live bm n -> get_inode junk bm n = None.
Proof.
  intros Hfs Hl. rewrite get_inode_view by apply Hfs. by rewrite decide_False.
Qed.

Lemma abs_dead bm n : ~ live bm n -> abs bm !! n = None.
Proof. intros. by rewrite abs_lookup, decide_False. Qed.

Lemma alter_id_dead (g : file -> file) n (m : fstore) : m !! n = None -> alter g n m = m.
Proof.
  intros Hn. apply map_eq. intros k. destruct (decide (k = n)) as [->|].
  - by rewrite lookup_alter_eq, Hn.
  - by rewrite lookup_alter_ne.
Qed.

(** ** Each operation refines its specification *)

Section refinement.
Context (junk junk_ind : list Z) (cur : Z) (bm : block_manager).
Hypothesis Hfs : fs_ok bm.
Hypothesis Hj : length junk_ind = 512%nat.

Lemma read_refines n out :
  exists bm' res,
    read_file junk junk_ind cur bm n out = Done (bm', res) /\ fs_ok bm' /\ abs bm' = abs bm /\
    match Spec.read n (abs bm) with
    | None => res = out
    | Some data => snd res = Z.of_nat (length data) /\ (data <> [] -> fst res = Some data)
    end.
Proof.
  unfold Spec.read. destruct (decide (live bm n)) as [Hl|Hl].
  - rewrite abs_lookup, decide_True by done.
    destruct (read_file_done junk junk_ind cur bm n out Hfs Hl Hj)
      as (bm' & Hr & Hok & Ho & Hd & Hsf & _).
    assert (Ht : i_type (inode_at (bm_d bm') n) = i_type (inode_at (bm_d bm) n)) by apply Hsf.
    exists bm'. eexists. split; [exact Hr |]. split_and!; [done | |].
    + rewrite (abs_set bm bm' n Ho).
      * apply insert_id. rewrite abs_lookup, decide_True by done. unfold file_at.
        by rewrite Hd, Ht.
      * destruct Hl. split; [done |]. by rewrite Ht.
    + split; [done |]. simpl. intros Hne. by rewrite decide_False.
  - rewrite abs_dead by done. exists bm, out. split_and!; try done.
    unfold read_file. by rewrite get_inode_dead.
Qed.

Lemma write_refines n buf size :
  0 <= size <= 512 * MAXFILE ->
  (512 * Z.to_nat (CEIL size BLOCK_SIZE) <= length buf)%nat ->
  (Spec.used_space (Spec.write n (take (Z.to_nat size) buf) (abs bm)) <= Spec.capacity)%nat ->
  exists bm',
    write_file junk junk_ind cur bm n buf size = Done bm' /\ fs_ok bm' /\
    abs bm' = Spec.write n (take (Z.to_nat size) buf) (abs bm).
Proof.
  intros Hs Hb Hcap. destruct (decide (live bm n)) as [Hl|Hl].
  - assert (Hlb : (Z.to_nat size <= length buf)%nat).
    { pose proof (CEIL_bounds size ltac:(lia)). lia. }
    pose proof (write_space bm n size buf Hfs Hl ltac:(lia) Hlb Hcap) as Hneed.
    destruct (write_file_done junk junk_ind cur bm n buf size Hfs Hl Hj Hs Hb Hneed)
      as (bm' & Hw & Hok & Ho & Hd & Ht & _).
    exists bm'. split_and!; [done | done |].
    rewrite (abs_set bm bm' n Ho) by (split; [apply Hl | rewrite Ht; apply Hl]).
    unfold Spec.write. symmetry. apply map_eq. intros m.
    rewrite lookup_insert. case_decide as He.
    + subst m. rewrite lookup_alter_eq, abs_lookup, decide_True by done. simpl.
      unfold file_at. by rewrite Hd, Ht.
    + by rewrite lookup_alter_ne.
  - exists bm. split_and!; [| done |].
    + unfold write_file. by rewrite get_inode_dead.
    + unfold Spec.write. by rewrite alter_id_dead by (by apply abs_dead).
Qed.

Lemma remove_refines n :
  exists bm',
    remove_file junk junk_ind cur bm n = Done bm' /\ fs_ok bm' /\
    abs bm' = Spec.remove n (abs bm).
Proof.
  destruct (decide (live bm n)) as [Hl|Hl].
  - destruct (remove_file_done junk junk_ind cur bm n Hfs Hl Hj) as (bm' & Hr & Hok & Ho & Ht & _).
    exists bm'. split_and!; [done | done |]. apply abs_delete; [done |]. by intros [_ ?].
  - exists bm. split_and!; [| done |].
    + unfold remove_file. by rewrite get_inode_dead.
    + unfold Spec.remove. by rewrite delete_id by (by apply abs_dead).
Qed.

Lemma create_refines type :
  s16 type <> 0 ->
  exists bm' n,
    alloc_inode junk cur type bm = Done (bm', n) /\ fs_ok bm' /\
    (abs bm', n) = Spec.create type (abs bm).
Proof.
  intros Hty. unfold Spec.create. rewrite free_inums_abs.
  destruct (free_inodes (bm_d bm) 1) as [|n rest] eqn:Hf.
  - exists bm, 0. rewrite alloc_inode_result, Hf by apply Hfs. done.
  - destruct (alloc_inode_done junk cur type bm n rest Hfs Hf)
      as (bm' & Ha & Hok & Ho & Hv & Hi & Hd & _).
    exists bm', n. split_and!; [done | done |]. f_equal.
    rewrite (abs_set bm bm' n Ho) by (split; [done | by rewrite Hi]).
    unfold file_at. by rewrite Hd, Hi.
Qed.

End refinement.

(** ** The initial file system *)

Lemma inode_at_new n : i_type (inode_at disk_new n) = 0.
Proof.
  unfold inode_at. pose proof (inum_slot n) as Hs.
  assert (Hc : n mod IPB = 0 \/ n mod IPB = 1 \/ n mod IPB = 2) by lia.
  replace (block_at disk_new (IBLOCK n BLOCK_NUM)) with zero_block by done.
  by destruct Hc as [-> | [-> | ->]].
Qed.

Lemma block_used_new b : block_used disk_new b = false.
Proof.
  rewrite block_used_byte. unfold bitmap_byte, block_at, disk_new.
  cbn [blocks]. rewrite lookup_empty. cbn [default]. unfold zero_block.
  destruct (decide (Z.to_nat (bit_index b / 8) < 512)%nat).
  - rewrite lookup_replicate_2 by done. apply Z.testbit_0_l.
  - rewrite lookup_ge_None_2 by (rewrite length_replicate; unfold BLOCK_SIZE; lia).
    apply Z.testbit_0_l.
Qed.

Lemma not_live_new n : ~ live block_manager_new n.
Proof. intros [_ H]. by destruct H; apply inode_at_new. Qed.

Lemma fs_ok_new : fs_ok block_manager_new.
Proof.
  split_and!.
  - apply block_manager_new_ok.
  - by intros n ?%not_live_new.
  - by intros n m b ?%not_live_new.
  - intros b _. cbn [bm_d block_manager_new]. by rewrite block_used_new.
Qed.

Lemma abs_new : abs block_manager_new = ∅.
Proof. apply map_eq. intros n. rewrite abs_dead by apply not_live_new. done. Qed.

Lemma Spec_create_first type : Spec.create type ∅ = ({[1 := File (s16 type) []]}, 1).
Proof.
  unfold Spec.create, Spec.free_inums. rewrite seqZ_S by (unfold INODE_NUM; lia).
  rewrite filter_cons, decide_True by done. done.
Qed.

Lemma inode_manager_new_done junk cur :
  exists bm, inode_manager_new junk cur = Done bm /\ fs_ok bm /\ abs bm = {[1 := File T_DIR []]}.
Proof.
  destruct (create_refines junk cur block_manager_new fs_ok_new T_DIR)
    as (bm & n & Ha & Hok & Hc); [done |].
  rewrite abs_new, Spec_create_first in Hc. injection Hc as Habs ->.
  exists bm. unfold inode_manager_new. rewrite Ha. done.
Qed.

(** getattr of an inode number within the table reads that inode. *)
Lemma im_getattr_done junk bm n :
  fs_ok bm -> valid_inum n ->
  let ino := inode_at (bm_d bm) n in
  im_getattr junk bm n =
  Attr (u32 (i_type ino)) (i_atime ino) (i_mtime ino) (i_ctime ino) (i_size ino).
Proof.
  intros Hfs Hv ino. unfold im_getattr.
  rewrite (u32_id (IBLOCK _ _)).
  - by rewrite bm_read_table by (apply Hfs || done).
  - rewrite std_nblocks by apply Hfs. pose proof (IBLOCK_range n Hv). unfold is_u32. lia.
Qed.

(** ** Theorems *)

(** C28: writing [size] bytes to inode [inum] of a consistent file system
    replaces the contents of that file by those bytes and changes no other
    file, keeps the file system consistent, and does not fault, whether the
    file keeps its number of blocks, shrinks (releasing blocks) or grows
    (allocating them, and the indirect block); for an inode number that is
    not in use it does nothing.  It needs a size of at most MAXFILE blocks,
    the whole last block to be readable, and space for the result. *)
Theorem write_file_correct junk junk_ind cur bm inum buf size :
  fs_ok bm -> length junk_ind = 512%nat -> 0 <= size <= 512 * MAXFILE ->
  (512 * Z.to_nat (CEIL size BLOCK_SIZE) <= length buf)%nat ->
  (Spec.used_space (Spec.write inum (take (Z.to_nat size) buf) (abs bm)) <= Spec.capacity)%nat ->
  exists bm',
    write_file junk junk_ind cur bm inum buf size = Done bm' /\ fs_ok bm' /\
    abs bm' = Spec.write inum (take (Z.to_nat size) buf) (abs bm).
Proof. intros. by apply write_refines. Qed.

Lemma write_file_correct_witness :
  exists bm bm', inode_manager_new zero_block 7 = Done bm /\
    write_file zero_block zero_block 9 bm 1 (replicate 1024 65) 700 = Done bm' /\
    abs bm' = {[1 := File T_DIR (replicate 700 65)]}.
Proof.
  destruct (inode_manager_new_done zero_block 7) as (bm & Hn & Hok & Habs).
  destruct (write_file_correct zero_block zero_block 9 bm 1 (replicate 1024 65) 700)
    as (bm' & Hw & _ & Hr).
  - exact Hok.
  - reflexivity.
  - change (512 * MAXFILE) with 81920. lia.
  - rewrite length_replicate. vm_compute. repeat constructor.
  - rewrite Habs. apply Nat.leb_le. vm_compute. reflexivity.
  - exists bm, bm'. split; [exact Hn |]. split; [exact Hw |]. rewrite Hr, Habs.
    unfold Spec.write. rewrite alter_singleton. do 3 f_equal.
Defined.

(** What is read is what was written: after a successful write of a
    non-empty buffer to a live inode, read_file hands back a buffer with
    exactly these bytes and their number, at any later time and whatever is
    in the caller's variables. *)
Theorem read_after_write junk junk_ind cur cur' bm inum buf size out :
  fs_ok bm -> length junk_ind = 512%nat -> live bm inum -> 0 < size <= 512 * MAXFILE ->
  (512 * Z.to_nat (CEIL size BLOCK_SIZE) <= length buf)%nat ->
  (Spec.used_space (Spec.write inum (take (Z.to_nat size) buf) (abs bm)) <= Spec.capacity)%nat ->
  exists bm1 bm2,
    write_file junk junk_ind cur bm inum buf size = Done bm1 /\
    read_file junk junk_ind cur' bm1 inum out =
      Done (bm2, (Some (take (Z.to_nat size) buf), size)) /\ abs bm2 = abs bm1.
Proof.
  intros Hfs Hj Hl Hs Hb Hcap.
  destruct (write_refines junk junk_ind cur bm Hfs Hj inum buf size) as (bm1 & Hw & Hok1 & Ha1);
    [lia | done | done |].
  destruct (read_refines junk junk_ind cur' bm1 Hok1 Hj inum out)
    as (bm2 & [p s] & Hr & _ & Ha2 & Hres).
  exists bm1, bm2. split_and!; [done | | done]. rewrite Hr.
  assert (Hlen : length (take (Z.to_nat size) buf) = Z.to_nat size).
  { pose proof (CEIL_bounds size ltac:(lia)). rewrite length_take. lia. }
  unfold Spec.read in Hres. rewrite Ha1 in Hres. unfold Spec.write in Hres.
  rewrite lookup_alter_eq, abs_lookup, decide_True in Hres by done. simpl in Hres.
  destruct Hres as [Hsz Hp]. rewrite Hlen, Z2Nat.id in Hsz by lia. rewrite Hsz, Hp; [done |].
  intros Hnil. rewrite Hnil in Hlen. simpl in Hlen. lia.
Qed.

Lemma read_after_write_witness :
  exists bm bm1 bm2, inode_manager_new zero_block 7 = Done bm /\
    write_file zero_block zero_block 9 bm 1 (replicate 1024 65) 700 = Done bm1 /\
    read_file zero_block zero_block 11 bm1 1 (None, 0) = Done (bm2, (Some (replicate 700 65), 700)).
Proof.
  destruct (inode_manager_new_done zero_block 7) as (bm & Hn & Hok & Habs).
  destruct (read_after_write zero_block zero_block 9 11 bm 1 (replicate 1024 65) 700 (None, 0))
    as (bm1 & bm2 & Hw & Hr & _).
  - exact Hok.
  - reflexivity.
  - apply abs_live. rewrite Habs. exists (File T_DIR []). reflexivity.
  - change (512 * MAXFILE) with 81920. lia.
  - rewrite length_replicate. vm_compute. repeat constructor.
  - rewrite Habs. apply Nat.leb_le. vm_compute. reflexivity.
  - exists bm, bm1, bm2. split; [exact Hn |]. split; [exact Hw |]. exact Hr.
Defined.

(** Removing a file deletes exactly that file, keeps the file system
    consistent and returns all its blocks, the indirect one included, to the
    free list; a removed or never allocated inode number is left alone. *)
Theorem remove_file_correct junk junk_ind cur bm inum :
  fs_ok bm -> length junk_ind = 512%nat ->
  exists bm',
    remove_file junk junk_ind cur bm inum = Done bm' /\ fs_ok bm' /\
    abs bm' = Spec.remove inum (abs bm) /\
    length (free_blocks (bm_d bm')) =
      (length (free_blocks (bm_d bm)) +
       match Spec.read inum (abs bm) with
       | Some data => Spec.file_cost (length data)
       | None => 0
       end)%nat.
Proof.
  intros Hfs Hj. destruct (remove_refines junk junk_ind cur bm Hfs Hj inum)
    as (bm' & Hr & Hok & Ha).
  exists bm'. split_and!; try done.
  pose proof (free_space bm Hfs). pose proof (free_space bm' Hok) as Hs.
  rewrite Ha in Hs. unfold Spec.remove, Spec.read in *.
  destruct (abs bm !! inum) as [f|] eqn:E; simpl.
  - rewrite (used_space_delete (abs bm) inum f E) in *. lia.
  - rewrite delete_id in Hs by done. lia.
Qed.

Lemma remove_file_correct_witness :
  exists bm bm', inode_manager_new zero_block 7 = Done bm /\
    remove_file zero_block zero_block 9 bm 1 = Done bm' /\ abs bm' = ∅.
Proof.
  destruct (inode_manager_new_done zero_block 7) as (bm & Hn & Hok & Habs).
  destruct (remove_file_correct zero_block zero_block 9 bm 1 Hok eq_refl)
    as (bm' & Hr & _ & Ha & _).
  exists bm, bm'. split; [exact Hn |]. split; [exact Hr |]. rewrite Ha, Habs.
  apply delete_singleton_eq.
Defined.

(** Alloc_inode gives the lowest inode number from 1 on that is not in
    use, as an empty file of the given type, and 0 without any change when
    all 1023 are taken. *)
Theorem alloc_inode_correct junk cur type bm :
  fs_ok bm -> s16 type <> 0 ->
  exists bm' n,
    alloc_inode junk cur type bm = Done (bm', n) /\ fs_ok bm' /\
    (abs bm', n) = Spec.create type (abs bm) /\ free_blocks (bm_d bm') = free_blocks (bm_d bm).
Proof.
  intros Hfs Hty. destruct (create_refines junk cur bm Hfs type Hty) as (bm' & n & Ha & Hok & Hc).
  exists bm', n. split_and!; try done.
  destruct (free_inodes (bm_d bm) 1) as [|k rest] eqn:Hf.
  - rewrite alloc_inode_result, Hf in Ha by apply Hfs. by injection Ha as <- <-.
  - destruct (alloc_inode_done junk cur type bm k rest Hfs Hf) as (bm2 & Ha2 & _ & _ & _ & _ & _ & Hb).
    rewrite Ha in Ha2. by injection Ha2 as -> ->.
Qed.

Lemma alloc_inode_correct_witness :
  exists bm bm', inode_manager_new zero_block 7 = Done bm /\
    alloc_inode zero_block 9 T_FILE bm = Done (bm', 2).
Proof.
  destruct (inode_manager_new_done zero_block 7) as (bm & Hn & Hok & Habs).
  destruct (alloc_inode_correct zero_block 9 T_FILE bm Hok) as (bm' & n & Ha & _ & Hc & _).
  - discriminate.
  - exists bm, bm'. split; [exact Hn |]. rewrite Habs in Hc.
    assert (Hn2 : n = 2); [| rewrite <- Hn2; exact Ha].
    apply (f_equal snd) in Hc. simpl in Hc. rewrite Hc. vm_compute. reflexivity.
Defined.

(** The constructor formats the disk into a consistent file system whose
    only file is the empty root directory, inode 1 (so its [exit] is not
    reached). *)
Theorem inode_manager_init junk cur :
  exists bm, inode_manager_new junk cur = Done bm /\ fs_ok bm /\ abs bm = {[1 := File T_DIR []]}.
Proof. apply inode_manager_new_done. Qed.

(** In a consistent file system the free blocks and the blocks of the files are
    together all the blocks there are for data, each once. *)
Lemma blocks_accounted_ok bm :
  fs_ok bm ->
  free_blocks (bm_d bm) ++ mjoin (blocks_of bm <$> filter (live bm) (seqZ 0 INODE_NUM))
    ≡ₚ seqZ FIRST_DATA (END_DATA - FIRST_DATA) /\
  (length (free_blocks (bm_d bm)) + Spec.used_space (abs bm))%nat = Spec.capacity.
Proof. split; [by apply blocks_partition | by apply free_space]. Qed.

(** Getattr of an inode in use reports its type and the number of bytes
    that read_file would return; for a free inode of the table it reports
    type 0. *)
Theorem getattr_correct junk bm inum :
  fs_ok bm -> valid_inum inum ->
  a_type (im_getattr junk bm inum) = u32 (default 0 (f_type <$> abs bm !! inum)) /\
  (live bm inum ->
   a_size (im_getattr junk bm inum) = Z.of_nat (length (default [] (Spec.read inum (abs bm))))).
Proof.
  intros Hfs Hv. rewrite im_getattr_done by done. unfold Spec.read. rewrite abs_lookup.
  case_decide as Hl; cbn [a_type a_size].
  - split; [done |]. intros _. symmetry. by apply length_file_data.
  - split; [| done]. destruct (decide (i_type (inode_at (bm_d bm) inum) = 0)) as [->|]; [done |].
    by destruct Hl.
Qed.

Lemma getattr_correct_witness :
  exists bm, inode_manager_new zero_block 7 = Done bm /\ a_type (im_getattr zero_block bm 1) = T_DIR.
Proof.
  destruct (inode_manager_new_done zero_block 7) as (bm & Hn & Hok & Habs).
  destruct (getattr_correct zero_block bm 1 Hok) as [Ht _].
  - unfold valid_inum, INODE_NUM. lia.
  - exists bm. split; [exact Hn |]. rewrite Ht, Habs. vm_compute. reflexivity.
Defined.
