(* ===== verification/ExtentServer.v ===== *)
(** * The extent server (src/extent_server.cc, src/extent_protocol.h)

    The remote procedures of the extent service: thin wrappers that mask the
    extent id to 31 bits and call the inode manager.  The class
    [ExtentService] states what the service promises its clients in terms of
    the abstract store of FileSpec.v; the server over the inode manager is
    shown to be an instance.  Runs of requests are compared with runs over
    the abstract store. *)

From S2P Require Import Prelude Disk InodeManager FileSystem FileOps FileWrite FileSpec.

(** ** The server *)

(** enum xxstatus *)
Definition OK : Z := 0.
Definition RPCERR : Z := 1.
Definition NOENT : Z := 2.
Definition IOERR : Z := 3.

(** What a call finds in its surroundings: the clock, uninitialised stack
    arrays, and the memory behind the characters of the string it is given
    (after the terminating NUL). *)
Record env := Env { e_cur : Z; e_junk : list Z; e_junk_ind : list Z; e_slack : list Z }.

(** [id &= 0x7fffffff]; the inode manager then takes a [uint32_t]. *)
Definition mask_id (id : Z) : Z := Z.land id 0x7fffffff.

Definition es_create (e : env) (type : Z) (bm : block_manager)
    : outcome (block_manager * (Z * Z)) :=
  r ← alloc_inode (e_junk e) (e_cur e) type bm; mret (fst r, (OK, snd r)).

(** [write_file] copies whole blocks from [buf.c_str()]. *)
Definition es_put (e : env) (id : Z) (buf : list Z) (bm : block_manager)
    : outcome (block_manager * Z) :=
  bm ← write_file (e_junk e) (e_junk_ind e) (e_cur e) bm (u32 (mask_id id))
         (buf ++ 0 :: e_slack e) (s32 (Z.of_nat (length buf)));
  mret (bm, OK).

(** [buf.assign(cbuf, size)] with [cbuf] as [read_file] left it. *)
Definition es_get (e : env) (id : Z) (bm : block_manager)
    : outcome (block_manager * (Z * list Z)) :=
  r ← read_file (e_junk e) (e_junk_ind e) (e_cur e) bm (u32 (mask_id id)) (None, 0);
  let '(bm, (cbuf, size)) := r in
  if size =? 0 then mret (bm, (OK, []))
  else match cbuf with
       | None => Fault UncaughtException
       | Some p => buf ← load_bytes p 0 (Z.to_nat size); mret (bm, (OK, buf))
       end.

Definition es_getattr (e : env) (id : Z) (bm : block_manager) : Z * attr :=
  (OK, im_getattr (e_junk e) bm (u32 (mask_id id))).

Definition es_remove (e : env) (id : Z) (bm : block_manager) : outcome (block_manager * Z) :=
  bm ← remove_file (e_junk e) (e_junk_ind e) (e_cur e) bm (u32 (mask_id id));
  mret (bm, OK).

(** ** Requests *)

Inductive request :=
| ReqCreate (type : Z)
| ReqPut (id : Z) (buf : list Z)
| ReqGet (id : Z)
| ReqGetattr (id : Z)
| ReqRemove (id : Z).

Inductive reply :=
| RepId (id : Z)
| RepData (buf : list Z)
| RepAttr (a : attr)
| RepNone.

Definition serve (e : env) (q : request) (bm : block_manager) : outcome (block_manager * reply) :=
  match q with
  | ReqCreate type => r ← es_create e type bm; mret (fst r, RepId (snd (snd r)))
  | ReqPut id buf => r ← es_put e id buf bm; mret (fst r, RepNone)
  | ReqGet id => r ← es_get e id bm; mret (fst r, RepData (snd (snd r)))
  | ReqGetattr id => mret (bm, RepAttr (snd (es_getattr e id bm)))
  | ReqRemove id => r ← es_remove e id bm; mret (fst r, RepNone)
  end.

(** ** The specification of a request *)

Definition env_ok (e : env) : Prop :=
  length (e_junk_ind e) = 512%nat /\ (511 <= length (e_slack e))%nat.

Definition max_file_size : nat := Z.to_nat (512 * MAXFILE).

(** The requests the server handles without fault in store [m]. *)
Definition admissible (q : request) (m : fstore) : Prop :=
  match q with
  | ReqCreate type => s16 type <> 0
  | ReqPut id buf => (length buf <= max_file_size)%nat /\
      (Spec.used_space (Spec.write (mask_id id) buf m) <= Spec.capacity)%nat
  | _ => True
  end.

Definition next (q : request) (m : fstore) : fstore :=
  match q with
  | ReqCreate type => fst (Spec.create type m)
  | ReqPut id buf => Spec.write (mask_id id) buf m
  | ReqRemove id => Spec.remove (mask_id id) m
  | _ => m
  end.

(** What a reply may be; the times in an attribute are not specified, nor
    are the attributes of ids that are not in use. *)
Definition answers (q : request) (m : fstore) (r : reply) : Prop :=
  match q with
  | ReqCreate type => r = RepId (snd (Spec.create type m))
  | ReqGet id => r = RepData (default [] (Spec.read (mask_id id) m))
  | ReqGetattr id =>
      exists a, r = RepAttr a /\
        forall f, m !! mask_id id = Some f ->
          a_type a = u32 (f_type f) /\ a_size a = Z.of_nat (length (f_data f))
  | ReqPut _ _ | ReqRemove _ => r = RepNone
  end.

(** An extent service as its clients see it. *)
Class ExtentService (S : Type) := {
  es_inv : S -> Prop;
  es_files : S -> fstore;
  es_serve : env -> request -> S -> outcome (S * reply);
  es_step : forall e q s,
    es_inv s -> env_ok e -> admissible q (es_files s) ->
    exists s' r, es_serve e q s = Done (s', r) /\ es_inv s' /\
      es_files s' = next q (es_files s) /\ answers q (es_files s) r;
  es_bounded : forall s id f,
    es_inv s -> es_files s !! id = Some f -> is_u32 (Z.of_nat (length (f_data f)))
}.

(** A run of requests, and the runs the specification allows. *)
Fixpoint run {S : Type} `{!ExtentService S} (l : list (env * request)) (s : S) : outcome (S * list reply) :=
  match l with
  | [] => Done (s, [])
  | (e, q) :: l =>
      r ← es_serve e q s;
      r' ← run l (fst r);
      mret (fst r', snd r :: snd r')
  end.

Inductive spec_run : list (env * request) -> fstore -> list reply -> fstore -> Prop :=
| spec_nil m : spec_run [] m [] m
| spec_cons e q l m r rs m' :
    answers q m r -> spec_run l (next q m) rs m' -> spec_run ((e, q) :: l) m (r :: rs) m'.

(** Every request of the run finds a sane environment and is admissible where
    it is served. *)
Fixpoint admissible_run (l : list (env * request)) (m : fstore) : Prop :=
  match l with
  | [] => True
  | (e, q) :: l => env_ok e /\ admissible q m /\ admissible_run l (next q m)
  end.

Lemma run_refines {S : Type} `{!ExtentService S} l (s : S) :
  es_inv s -> admissible_run l (es_files s) ->
  exists s' rs, run l s = Done (s', rs) /\ es_inv s' /\ spec_run l (es_files s) rs (es_files s').
Proof.
  revert s. induction l as [|[e q] l IH]; intros s Hs Hadm.
  - exists s, []. split_and!; auto. constructor.
  - destruct Hadm as (He & Hq & Hl).
    destruct (es_step e q s Hs He Hq) as (s1 & r & Hserve & Hs1 & Hf1 & Hans).
    destruct (IH s1 Hs1) as (s2 & rs & Hrun & Hs2 & Hspec); [by rewrite Hf1 |].
    exists s2, (r :: rs). split_and!; auto.
    + cbn [run]. rewrite Hserve, bind_Done. cbn [fst snd]. by rewrite Hrun.
    + rewrite Hf1 in Hspec. by constructor.
Qed.

(** ** The server meets the specification *)

Lemma mask_id_range id : 0 <= mask_id id < 2 ^ 31.
Proof.
  unfold mask_id. change 0x7fffffff with (Z.ones 31). rewrite Z.land_ones by lia.
  apply Z.mod_pos_bound. lia.
Qed.

Lemma mask_id_small id : 0 <= id < 2 ^ 31 -> mask_id id = id.
Proof.
  intros. unfold mask_id. change 0x7fffffff with (Z.ones 31). rewrite Z.land_ones by lia.
  by apply Z.mod_small.
Qed.

Lemma u32_mask id : u32 (mask_id id) = mask_id id.
Proof. apply u32_id. pose proof (mask_id_range id). unfold is_u32. lia. Qed.

(** The memory [put] hands to write_file covers the last block. *)
Lemma put_buffer e (buf : list Z) :
  env_ok e -> (length buf <= max_file_size)%nat ->
  s32 (Z.of_nat (length buf)) = Z.of_nat (length buf) /\
  Z.of_nat (length buf) <= 512 * MAXFILE /\
  (512 * Z.to_nat (CEIL (Z.of_nat (length buf)) BLOCK_SIZE) <= length (buf ++ 0%Z :: e_slack e))%nat.
Proof.
  intros [_ Hs] Hb. unfold max_file_size in Hb. change (512 * MAXFILE) with 81920 in *.
  pose proof (CEIL_bounds (Z.of_nat (length buf)) ltac:(lia)).
  split_and!; [apply s32_id; unfold is_s32; lia | lia |].
  rewrite length_app. cbn [length]. lia.
Qed.

Lemma es_put_step e id buf bm :
  fs_ok bm -> env_ok e -> admissible (ReqPut id buf) (abs bm) ->
  exists bm', es_put e id buf bm = Done (bm', OK) /\ fs_ok bm' /\
              abs bm' = Spec.write (mask_id id) buf (abs bm).
Proof.
  intros Hfs He [Hlen Hcap]. destruct (put_buffer e buf He Hlen) as (Hs & Hmax & Hbuf).
  assert (Ht : take (Z.to_nat (Z.of_nat (length buf))) (buf ++ 0 :: e_slack e) = buf).
  { rewrite Nat2Z.id. by apply take_app_length. }
  destruct (write_refines (e_junk e) (e_junk_ind e) (e_cur e) bm Hfs (proj1 He) (mask_id id)
              (buf ++ 0 :: e_slack e) (Z.of_nat (length buf))) as (bm' & Hw & Hok & Ha);
    rewrite ?Ht in *; auto with lia.
  exists bm'. unfold es_put. by rewrite Hs, u32_mask, Hw.
Qed.

Lemma es_get_step e id bm :
  fs_ok bm -> env_ok e ->
  exists bm', es_get e id bm = Done (bm', (OK, default [] (Spec.read (mask_id id) (abs bm)))) /\
              fs_ok bm' /\ abs bm' = abs bm.
Proof.
  intros Hfs He.
  destruct (read_refines (e_junk e) (e_junk_ind e) (e_cur e) bm Hfs (proj1 He) (mask_id id) (None, 0))
    as (bm' & [p s] & Hr & Hok & Ha & Hres).
  exists bm'. split_and!; [| done | done]. unfold es_get. rewrite u32_mask, Hr, bind_Done.
  destruct (Spec.read (mask_id id) (abs bm)) as [data|]; cbn [fst snd] in Hres.
  - destruct Hres as [-> Hp]. destruct data as [|x data]; [done |].
    rewrite Hp by done. cbn [length default]. destruct (Z.eqb_spec (Z.of_nat (S (length data))) 0);
      [lia |]. unfold load_bytes. rewrite Nat2Z.id. cbn [length Z.leb Z.compare].
    rewrite Z.add_0_l. destruct (Z.leb_spec (Z.of_nat (S (length data))) (Z.of_nat (S (length data))));
      [| lia]. cbn [andb]. rewrite bind_Done. do 3 f_equal.
    unfold sub. rewrite drop_0. apply (take_ge (x :: data)). simpl. lia.
  - by injection Hres as -> ->.
Qed.

Lemma es_remove_step e id bm :
  fs_ok bm -> env_ok e ->
  exists bm', es_remove e id bm = Done (bm', OK) /\ fs_ok bm' /\
              abs bm' = Spec.remove (mask_id id) (abs bm).
Proof.
  intros Hfs He.
  destruct (remove_refines (e_junk e) (e_junk_ind e) (e_cur e) bm Hfs (proj1 He) (mask_id id))
    as (bm' & Hr & Hok & Ha).
  exists bm'. unfold es_remove. by rewrite u32_mask, Hr.
Qed.

Lemma es_create_step e type bm :
  fs_ok bm -> s16 type <> 0 ->
  exists bm' n, es_create e type bm = Done (bm', (OK, n)) /\ fs_ok bm' /\
                (abs bm', n) = Spec.create type (abs bm).
Proof.
  intros Hfs Hty. destruct (create_refines (e_junk e) (e_cur e) bm Hfs type Hty)
    as (bm' & n & Ha & Hok & Hc).
  exists bm', n. unfold es_create. by rewrite Ha.
Qed.

Lemma es_getattr_live e id bm f :
  fs_ok bm -> abs bm !! mask_id id = Some f ->
  exists a, es_getattr e id bm = (OK, a) /\
    a_type a = u32 (f_type f) /\ a_size a = Z.of_nat (length (f_data f)).
Proof.
  intros Hfs Hf. unfold es_getattr. rewrite u32_mask. rewrite abs_lookup in Hf.
  case_decide as Hl; [| done]. injection Hf as <-. destruct Hl as [Hv Ht].
  rewrite im_getattr_done by done. eexists. split; [reflexivity |]. split; [done |].
  cbn [a_size file_at f_data]. symmetry. apply length_file_data; [done | by split].
Qed.

Lemma serve_step e q bm :
  fs_ok bm -> env_ok e -> admissible q (abs bm) ->
  exists bm' r, serve e q bm = Done (bm', r) /\ fs_ok bm' /\ abs bm' = next q (abs bm) /\
                answers q (abs bm) r.
Proof.
  intros Hfs He Hadm. destruct q as [type|id buf|id|id|id]; unfold serve.
  - destruct (es_create_step e type bm Hfs Hadm) as (bm' & n & -> & Hok & Hc).
    exists bm', (RepId n). split; [done |]. simpl. by rewrite <- Hc.
  - destruct (es_put_step e id buf bm Hfs He Hadm) as (bm' & -> & Hok & Ha). by exists bm', RepNone.
  - destruct (es_get_step e id bm Hfs He) as (bm' & -> & Hok & Ha). by eexists bm', _.
  - exists bm. eexists. split; [done |]. split_and!; [done | done |]. eexists. split; [done |].
    intros f Hf. destruct (es_getattr_live e id bm f Hfs Hf) as (a & -> & ?). done.
  - destruct (es_remove_step e id bm Hfs He) as (bm' & -> & Hok & Ha). by exists bm', RepNone.
Qed.

Lemma abs_bounded bm id f :
  fs_ok bm -> abs bm !! id = Some f -> is_u32 (Z.of_nat (length (f_data f))).
Proof.
  intros Hfs Hf. rewrite abs_lookup in Hf. case_decide as Hl; [| done]. injection Hf as <-.
  cbn [file_at f_data]. rewrite length_file_data by done.
  by destruct (inode_at_ok bm id (proj1 Hfs)) as (_ & ? & _).
Qed.

#[export] Instance extent_server_service : ExtentService block_manager := {|
  es_inv := fs_ok; es_files := abs; es_serve := serve; es_step := serve_step;
  es_bounded := abs_bounded
|}.

(** The store itself as a service: the smallest thing that keeps the promise.
    Clients can be run on it. *)
Definition ideal_serve (e : env) (q : request) (m : fstore) : outcome (fstore * reply) :=
  Done (next q m, match q with
    | ReqCreate type => RepId (snd (Spec.create type m))
    | ReqGet id => RepData (default [] (Spec.read (mask_id id) m))
    | ReqGetattr id => RepAttr (match m !! mask_id id with
        | Some f => Attr (u32 (f_type f)) 0 0 0 (Z.of_nat (length (f_data f)))
        | None => Attr 0 0 0 0 0 end)
    | _ => RepNone
    end).

Definition sizes_ok (m : fstore) : Prop :=
  forall id f, m !! id = Some f -> is_u32 (Z.of_nat (length (f_data f))).

Lemma ideal_step e q m :
  sizes_ok m -> env_ok e -> admissible q m ->
  exists m' r, ideal_serve e q m = Done (m', r) /\ sizes_ok m' /\ m' = next q m /\ answers q m r.
Proof.
  intros Hm _ Ha. eexists _, _. split; [reflexivity |]. split_and!; [| done |].
  - destruct q as [type|id bs|id|id|id]; cbn [next]; try done.
    + unfold Spec.create. destruct (Spec.free_inums m); [done |]. cbn [fst]. intros i f.
      rewrite lookup_insert. case_decide; [intros [= <-]; cbn; unfold is_u32; lia | apply Hm].
    + intros i f. unfold Spec.write. rewrite lookup_alter. case_decide; [| apply Hm].
      destruct (m !! mask_id id); [| done]. intros [= <-]. cbn [f_data].
      destruct Ha as [Ha _]. assert (Z.of_nat max_file_size = 81920) by reflexivity.
      unfold is_u32. lia.
    + intros i f. unfold Spec.remove. rewrite lookup_delete. case_decide; [done | apply Hm].
  - destruct q as [type|id bs|id|id|id]; cbn [answers]; try done. eexists. split; [reflexivity |].
    intros f ->. done.
Qed.

#[export] Instance ideal_service : ExtentService fstore := {|
  es_inv := sizes_ok; es_files := fun m => m; es_serve := ideal_serve; es_step := ideal_step;
  es_bounded := fun m id f H => H id f
|}.

(** ** Reading past the end of the string *)

Lemma bm_write_short bm b c :
  data_block b -> (length c < 512)%nat -> bm_write_block bm b c = Fault OutOfBounds.
Proof.
  intros Hb Hc. unfold bm_write_block, disk_write_block.
  destruct (Z.ltb_spec b 0); [locs |]. destruct (Z.leb_spec BLOCK_NUM b); [locs |]. cbn [orb].
  unfold load_bytes. destruct (Z.leb_spec (0 + Z.of_nat (Z.to_nat BLOCK_SIZE)) (Z.of_nat (length c)));
    [unfold BLOCK_SIZE in *; lia |]. done.
Qed.

Lemma CEIL_one n : 0 < n <= 512 -> CEIL n BLOCK_SIZE = 1.
Proof. intros. pose proof (CEIL_bounds n ltac:(lia)). lia. Qed.

Lemma write_file_short junk junk_ind cur bm n buf size :
  fs_ok bm -> live bm n -> length junk_ind = 512%nat -> 0 < size <= 512 ->
  (length buf < 512)%nat -> free_blocks (bm_d bm) <> [] ->
  write_file junk junk_ind cur bm n buf size = Fault OutOfBounds.
Proof.
  intros Hfs Hl Hj Hs Hb Hfree. destruct (lf_get bm n junk Hfs Hl) as [Hg Ht].
  pose proof (lf_bc bm n Hfs) as Hbc. unfold write_file. rewrite Hg, Ht.
  set (ino := inode_at (bm_d bm) n) in *. rewrite Hbc, (CEIL_one size) by done.
  rewrite <- Hbc. fold (ind_buf junk_ind bm ino). rewrite Hbc.
  set (ind := ind_buf junk_ind bm ino).
  assert (Hil : length ind = 512%nat) by (by apply lf_ind_len).
  assert (Hok : inode_ok ino) by (by apply lf_ino).
  destruct (bcount ino) as [|c] eqn:Hc.
  - change (Z.of_nat 0) with 0. change (Z.to_nat (Z.min 1 0)) with 0%nat. change (Z.to_nat (1 - 0)) with 1%nat.
    cbn -[alloc_block BLK BLK_set bm_write_block].
    destruct (free_blocks (bm_d bm)) as [|b rest] eqn:HF; [done |].
    destruct (alloc_block_eff junk bm b rest (proj1 Hfs) HF) as (bm1 & Ha & _ & Hd & _).
    destruct (BLK_set_ptrs ino ind 0 b) as (ino1 & ind1 & Hset & Hp & _ & Hok1 & Hil1);
      auto with yfs; [lia |].
    assert (Hb0 : BLK ino1 ind1 (Z.of_nat 0) = Done b).
    { apply BLK_ptrs; [apply Hok1 | done |]. rewrite Hp. apply list_lookup_insert_eq.
      rewrite length_ptrs; [lia | apply Hok]. }
    change (Z.of_nat 0) with 0 in Hset, Hb0.
    rewrite Ha. cbn -[BLK BLK_set bm_write_block]. rewrite Hset. cbn -[BLK bm_write_block].
    rewrite Hb0. cbn -[bm_write_block]. rewrite bm_write_short; done.
  - replace (Z.to_nat (Z.min 1 (Z.of_nat (S c)))) with 1%nat by lia. cbn [write_blocks].
    pose proof (lf_ptrs bm n junk_ind Hfs Hl Hj) as Hp. fold ino ind in Hp.
    pose proof (lf_ptrs_len bm n Hfs Hl) as Hpl. pose proof (lf_ptrs_data bm n Hfs Hl) as Hpd.
    fold ino in Hpl, Hpd. destruct (file_ptrs (bm_d bm) ino) as [|b L]; [rewrite Hc in Hpl; done |].
    apply Forall_cons in Hpd as [Hd _]. change 0 with (Z.of_nat 0). rewrite (BLK_ptrs ino ind 0 b).
    + rewrite bind_Done. change (Z.to_nat (Z.of_nat 0 * BLOCK_SIZE)) with 0%nat.
      rewrite drop_0, bm_write_short; done.
    + apply Hok.
    + done.
    + rewrite Hc in Hp. apply (f_equal (lookup 0%nat)) in Hp.
      by rewrite lookup_take_lt in Hp by lia.
Qed.

(** ** Theorems *)

(** C27: a freshly formatted extent server that serves any sequence of create,
    put, get, getattr and remove requests, each admissible where it is
    served (a non-zero type; at most 81920 bytes that fit the remaining
    blocks), never faults, keeps the file system consistent and answers as a
    map from ids to byte strings would. *)
Theorem extent_server_refines junk cur l :
  admissible_run l {[1 := File T_DIR []]} ->
  exists bm0 bm rs, inode_manager_new junk cur = Done bm0 /\ run l bm0 = Done (bm, rs) /\
    fs_ok bm /\ spec_run l {[1 := File T_DIR []]} rs (abs bm).
Proof.
  intros Hadm. destruct (inode_manager_new_done junk cur) as (bm0 & Hn & Hok & Ha).
  destruct (run_refines (ExtentService0 := extent_server_service) l bm0 Hok) as (bm & rs & Hr & Hok' & Hs); simpl in *; [by rewrite Ha |].
  rewrite Ha in Hs. by exists bm0, bm, rs.
Qed.

Definition demo_env : env := Env 5 zero_block zero_block zero_block.

Lemma extent_server_refines_witness :
  exists bm0 bm rs, inode_manager_new zero_block 5 = Done bm0 /\
    run [(demo_env, ReqCreate T_FILE); (demo_env, ReqPut 2 [104; 105]); (demo_env, ReqGet 2);
         (demo_env, ReqRemove 2); (demo_env, ReqGet 2)] bm0 = Done (bm, rs) /\ fs_ok bm.
Proof.
  destruct (extent_server_refines zero_block 5
    [(demo_env, ReqCreate T_FILE); (demo_env, ReqPut 2 [104; 105]); (demo_env, ReqGet 2);
     (demo_env, ReqRemove 2); (demo_env, ReqGet 2)]) as (bm0 & bm & rs & Hn & Hr & Hok & _).
  - assert (He : env_ok demo_env) by (split; [reflexivity | apply Nat.leb_le; reflexivity]).
    split; [exact He |]. split; [discriminate |]. split; [exact He |].
    split; [split; apply Nat.leb_le; vm_compute; reflexivity |].
    split; [exact He |]. split; [exact I |]. split; [exact He |]. split; [exact I |].
    split; [exact He |]. split; exact I.
  - exists bm0, bm, rs. split; [exact Hn |]. split; [exact Hr | exact Hok].
Defined.

(** C38: no block is lost or handed out twice.  After any sequence of
    admissible requests served by a freshly formatted extent server, the free
    blocks of the bitmap and the blocks the files own (data and indirect blocks)
    are together exactly the blocks 353 to 4098, each once; and the number of
    free blocks is the capacity less what the files take that the abstract store
    has after the same requests: put and remove give back every block they
    free, the indirect blocks included. *)
Theorem blocks_accounted junk cur l :
  admissible_run l {[1 := File T_DIR []]} ->
  exists bm0 bm rs m, inode_manager_new junk cur = Done bm0 /\ run l bm0 = Done (bm, rs) /\
    spec_run l {[1 := File T_DIR []]} rs m /\
    free_blocks (bm_d bm) ++ mjoin (blocks_of bm <$> filter (live bm) (seqZ 0 INODE_NUM))
      ≡ₚ seqZ FIRST_DATA (END_DATA - FIRST_DATA) /\
    (length (free_blocks (bm_d bm)) + Spec.used_space m)%nat = Spec.capacity.
Proof.
  intros Hadm. destruct (inode_manager_new_done junk cur) as (bm0 & Hn & Hok & Ha).
  destruct (run_refines (ExtentService0 := extent_server_service) l bm0 Hok) as (bm & rs & Hr & Hok' & Hs); simpl in *; [by rewrite Ha |].
  rewrite Ha in Hs. exists bm0, bm, rs, (abs bm). split_and!; try done; by apply blocks_accounted_ok.
Qed.

Lemma blocks_accounted_witness :
  exists bm0 bm rs, inode_manager_new zero_block 5 = Done bm0 /\
    run [(demo_env, ReqCreate T_FILE); (demo_env, ReqPut 2 [104; 105]); (demo_env, ReqRemove 2)] bm0 = Done (bm, rs) /\
    length (free_blocks (bm_d bm)) = 3746%nat.
Proof.
  destruct (blocks_accounted zero_block 5 [(demo_env, ReqCreate T_FILE); (demo_env, ReqPut 2 [104; 105]); (demo_env, ReqRemove 2)])
    as (bm0 & bm & rs & m & Hn & Hr & Hs & _ & Hf).
  - assert (He : env_ok demo_env) by (split; [reflexivity | apply Nat.leb_le; reflexivity]).
    split; [exact He |]. split; [discriminate |]. split; [exact He |].
    split; [split; apply Nat.leb_le; vm_compute; reflexivity |]. split; [exact He |]. split; exact I.
  - exists bm0, bm, rs. split; [exact Hn |]. split; [exact Hr |].
    inversion Hs as [|e1 q1 l1 m1 r1 rs1 m1' _ H1]; subst. inversion H1 as [|e2 q2 l2 m2 r2 rs2 m2' _ H2]; subst.
    inversion H2 as [|e3 q3 l3 m3 r3 rs3 m3' _ H3]; subst. inversion H3; subst.
    match type of Hf with (_ + ?k)%nat = _ => assert (Hk : k = 0%nat) by (vm_compute; reflexivity) end.
    rewrite Hk, Nat.add_0_r in Hf. exact Hf.
Defined.

(** [put] followed by [get] of the same id returns the bytes put, [get] of
    an id not in use the empty string, and both report OK. *)
Theorem put_get_roundtrip e e' id buf bm :
  fs_ok bm -> env_ok e -> env_ok e' -> admissible (ReqPut id buf) (abs bm) ->
  exists bm1 bm2,
    es_put e id buf bm = Done (bm1, OK) /\
    es_get e' id bm1 =
      Done (bm2, (OK, match abs bm !! mask_id id with Some _ => buf | None => [] end)) /\ fs_ok bm2.
Proof.
  intros Hfs He He' Hadm. destruct (es_put_step e id buf bm Hfs He Hadm) as (bm1 & Hp & Hok1 & Ha1).
  destruct (es_get_step e' id bm1 Hok1 He') as (bm2 & Hg & Hok2 & Ha2).
  exists bm1, bm2. split_and!; [done | | done]. rewrite Hg, Ha1. do 3 f_equal.
  unfold Spec.read, Spec.write. rewrite lookup_alter_eq. by destruct (abs bm !! mask_id id).
Qed.

Lemma put_get_roundtrip_witness :
  exists bm0 bm1 bm2, inode_manager_new zero_block 5 = Done bm0 /\
    es_put demo_env 1 [104; 105] bm0 = Done (bm1, OK) /\
    es_get demo_env 1 bm1 = Done (bm2, (OK, [104; 105])).
Proof.
  destruct (inode_manager_new_done zero_block 5) as (bm0 & Hn & Hok & Ha).
  assert (He : env_ok demo_env) by (split; [reflexivity | apply Nat.leb_le; reflexivity]).
  destruct (put_get_roundtrip demo_env demo_env 1 [104; 105] bm0 Hok He He)
    as (bm1 & bm2 & Hp & Hg & _).
  - rewrite Ha. split; apply Nat.leb_le; vm_compute; reflexivity.
  - exists bm0, bm1, bm2. rewrite Ha in Hg. split; [exact Hn |]. split; [exact Hp | exact Hg].
Defined.

(** A short string whose memory ends less than 512 bytes after its first
    character makes [put] read outside of it: write_file copies a whole
    block from [buf.c_str()], not [size] bytes. *)
Theorem put_reads_past_string e id buf bm :
  fs_ok bm -> length (e_junk_ind e) = 512%nat -> live bm (mask_id id) ->
  free_blocks (bm_d bm) <> [] -> buf <> [] -> (length buf + 1 + length (e_slack e) < 512)%nat ->
  es_put e id buf bm = Fault OutOfBounds.
Proof.
  intros Hfs Hj Hl Hfree Hne Hlen. unfold es_put. rewrite u32_mask.
  assert (0 < length buf)%nat by (destruct buf; [done | simpl; lia]).
  rewrite s32_id by (unfold is_s32; lia).
  rewrite write_file_short; auto; [lia |]. rewrite length_app. cbn [length]. lia.
Qed.

Lemma put_reads_past_string_witness :
  exists bm0, inode_manager_new zero_block 5 = Done bm0 /\
    es_put (Env 5 zero_block zero_block []) 1 [104; 105] bm0 = Fault OutOfBounds.
Proof.
  destruct (inode_manager_new_done zero_block 5) as (bm0 & Hn & Hok & Ha).
  exists bm0. split; [exact Hn |]. apply put_reads_past_string.
  - exact Hok.
  - reflexivity.
  - apply abs_live. rewrite Ha. exists (File T_DIR []). reflexivity.
  - pose proof (free_space bm0 Hok) as Hs. rewrite Ha in Hs.
    intros HF. rewrite HF in Hs. vm_compute in Hs. discriminate Hs.
  - discriminate.
  - simpl. lia.
Defined.
