(* ===== verification/Marshall.v ===== *)
(** * Marshalling (src/rpc/marshall.h, src/rpc/rpc.cc)

    The growing output buffer [marshall] and the checked input buffer
    [unmarshall], the operators << and >> on the basic types, strings,
    vectors and maps, and the request and reply headers.

    [codec] is the interface every marshallable type offers: what is
    appended to the output buffer, and that reading it back gives the value
    and consumes exactly those bytes.  The containers and the remote calls
    are verified against the interface. *)

From Stdlib Require Import Sorting.Sorted.
From S2P Require Import Prelude.

(** ** The output buffer *)

(** RPC_HEADER_SZ: five [int]s of a request header and the [int] the channel
    fills in (RPC_CHECKSUMMING is not defined). *)
Definition sizeof_req_header : Z := 20.
Definition sizeof_reply_header : Z := 8.
Definition sizeof_rpc_sz : Z := 4.
Definition DEFAULT_RPC_SZ : Z := 1024.
Definition RPC_HEADER_SZ : Z := Z.max sizeof_req_header sizeof_reply_header + sizeof_rpc_sz.

Record req_header := ReqHeader { q_xid : Z; q_proc : Z; q_clt_nonce : Z; q_srv_nonce : Z; q_xid_rep : Z }.
Record reply_header := ReplyHeader { p_xid : Z; p_ret : Z }.

Record marshall := Marshall { m_buf : option (list Z); m_capa : Z; m_ind : Z }.

Section output.
(** The bytes found in freshly allocated memory. *)
Variable fill : nat -> Z.

(** [realloc(p, n)]; the [int] argument becomes a [size_t], which no
    allocation satisfies when it was negative. *)
Definition realloc (buf : list Z) (n : Z) : outcome (list Z) :=
  if n <? 0 then Fault AssertFailed
  else Done (take (Z.to_nat n) buf ++
             (fill <$> seq (length buf) (Z.to_nat n - length buf))).

Definition marshall_new : outcome marshall :=
  b ← realloc [] DEFAULT_RPC_SZ; mret (Marshall (Some b) DEFAULT_RPC_SZ RPC_HEADER_SZ).

Definition buf_of (m : marshall) : outcome (list Z) :=
  match m_buf m with Some b => Done b | None => Fault AssertFailed end.

Definition m_rawbyte (x : Z) (m : marshall) : outcome marshall :=
  m ← (if m_capa m <=? m_ind m then
         let capa := s32 (2 * m_capa m) in
         b ← buf_of m;
         b ← realloc b capa;
         mret (Marshall (Some b) capa (m_ind m))
       else mret m);
  b ← buf_of m;
  b ← store b (m_ind m) (u8 x);
  mret (Marshall (Some b) (m_capa m) (s32 (m_ind m + 1))).

Definition m_rawbytes (p : list Z) (m : marshall) : outcome marshall :=
  let n := Z.of_nat (length p) in
  m ← (if m_capa m <? s32 (m_ind m + n) then
         let capa := if n <? m_capa m then s32 (2 * m_capa m) else s32 (m_capa m + n) in
         b ← buf_of m;
         b ← realloc b capa;
         mret (Marshall (Some b) capa (m_ind m))
       else mret m);
  b ← buf_of m;
  b ← store_bytes b (m_ind m) p;
  mret (Marshall (Some b) (m_capa m) (s32 (m_ind m + n))).

Definition byte_at (x k : Z) : Z := Z.land (Z.shiftr x k) 0xff.

Definition m_bool (x : bool) (m : marshall) : outcome marshall := m_rawbyte (if x then 1 else 0) m.
Definition m_uchar (x : Z) (m : marshall) : outcome marshall := m_rawbyte x m.
Definition m_char (x : Z) (m : marshall) : outcome marshall := m_uchar (u8 x) m.
Definition m_ushort (x : Z) (m : marshall) : outcome marshall :=
  m ← m_rawbyte (byte_at x 8) m; m_rawbyte (byte_at x 0) m.
Definition m_short (x : Z) (m : marshall) : outcome marshall := m_ushort (u16 x) m.
Definition m_uint (x : Z) (m : marshall) : outcome marshall :=
  m ← m_rawbyte (byte_at x 24) m;
  m ← m_rawbyte (byte_at x 16) m;
  m ← m_rawbyte (byte_at x 8) m;
  m_rawbyte (byte_at x 0) m.
Definition m_int (x : Z) (m : marshall) : outcome marshall := m_uint (u32 x) m.
Definition m_string (s : list Z) (m : marshall) : outcome marshall :=
  m ← m_uint (u32 (Z.of_nat (length s))) m; m_rawbytes s m.
Definition m_ulonglong (x : Z) (m : marshall) : outcome marshall :=
  m ← m_uint (u32 (Z.shiftr x 32)) m; m_uint (u32 x) m.

(** [pack]: the arithmetic shift of an [int]. *)
Definition m_pack (x : Z) (m : marshall) : outcome marshall :=
  m ← m_rawbyte (byte_at x 24) m;
  m ← m_rawbyte (byte_at x 16) m;
  m ← m_rawbyte (byte_at x 8) m;
  m_rawbyte (byte_at x 0) m.

Definition set_ind (m : marshall) (i : Z) : marshall := Marshall (m_buf m) (m_capa m) i.

Definition pack_req_header (h : req_header) (m : marshall) : outcome marshall :=
  let saved_sz := m_ind m in
  m ← m_pack (q_xid h) (set_ind m sizeof_rpc_sz);
  m ← m_pack (q_proc h) m;
  m ← m_pack (s32 (q_clt_nonce h)) m;
  m ← m_pack (s32 (q_srv_nonce h)) m;
  m ← m_pack (q_xid_rep h) m;
  mret (set_ind m saved_sz).

Definition pack_reply_header (h : reply_header) (m : marshall) : outcome marshall :=
  let saved_sz := m_ind m in
  m ← m_pack (p_xid h) (set_ind m sizeof_rpc_sz);
  m ← m_pack (p_ret h) m;
  mret (set_ind m saved_sz).

(** [take_buf]: the buffer, its used length, and the emptied object. *)
Definition m_take_buf (m : marshall) : option (list Z) * Z * marshall :=
  (m_buf m, m_ind m, Marshall None (m_capa m) 0).

Definition get_content (m : marshall) : outcome (list Z) :=
  b ← buf_of m; load_bytes b RPC_HEADER_SZ (Z.to_nat (m_ind m - RPC_HEADER_SZ)).

(** operator<< on containers *)
Fixpoint m_elems {A} (put : A -> marshall -> outcome marshall) (l : list A) (m : marshall)
    : outcome marshall :=
  match l with
  | [] => Done m
  | x :: l => m ← put x m; m_elems put l m
  end.

Definition m_vector {A} (put : A -> marshall -> outcome marshall) (v : list A) (m : marshall)
    : outcome marshall :=
  m ← m_uint (u32 (Z.of_nat (length v))) m; m_elems put v m.

(** A map is iterated in key order. *)
Definition m_map {A B} (putA : A -> marshall -> outcome marshall)
    (putB : B -> marshall -> outcome marshall) (d : list (A * B)) (m : marshall)
    : outcome marshall :=
  m ← m_uint (u32 (Z.of_nat (length d))) m;
  m_elems (fun p m => m ← putA (fst p) m; putB (snd p) m) d m.

End output.

(** ** The input buffer *)

Record unmarshall := Unmarshall { u_buf : option (list Z); u_sz : Z; u_ind : Z; u_ok : bool }.

Definition unmarshall_empty : unmarshall := Unmarshall None 0 0 false.
Definition unmarshall_new (b : list Z) (sz : Z) : unmarshall := Unmarshall (Some b) sz 0 true.

(** [take_content], into the memory [hdr] that [realloc] left in front. *)
Definition take_content (hdr : list Z) (s : list Z) : unmarshall :=
  Unmarshall (Some (hdr ++ s)) (s32 (Z.of_nat (length s) + RPC_HEADER_SZ)) RPC_HEADER_SZ true.

Definition u_take_buf (u : unmarshall) : option (list Z) * Z * unmarshall :=
  (u_buf u, u_sz u, Unmarshall None 0 0 (u_ok u)).

(** [take_in(another)]: the new contents of both objects. *)
Definition take_in (another : unmarshall) : unmarshall * unmarshall :=
  let '(b, sz, another) := u_take_buf another in
  (Unmarshall b sz RPC_HEADER_SZ (RPC_HEADER_SZ <=? sz), another).

Definition okdone (u : unmarshall) : bool := u_ok u && (u_ind u =? u_sz u).

(** A [char] of the buffer, converted to [unsigned int]. *)
Definition u_rawbyte (u : unmarshall) : outcome (unmarshall * Z) :=
  if u_sz u <=? u_ind u then
    mret (Unmarshall (u_buf u) (u_sz u) (u_ind u) false, 0)
  else
    match u_buf u with
    | None => Fault OutOfBounds
    | Some b =>
        c ← load b (u_ind u);
        mret (Unmarshall (u_buf u) (u_sz u) (s32 (u_ind u + 1)) (u_ok u), u32 (wrap_signed 8 c))
    end.

Definition u_rawbytes (n : Z) (ss : list Z) (u : unmarshall) : outcome (unmarshall * list Z) :=
  if u32 (u_sz u) <? u32 (u_ind u + n) then
    mret (Unmarshall (u_buf u) (u_sz u) (u_ind u) false, ss)
  else
    match u_buf u with
    | None => Fault OutOfBounds
    | Some b =>
        tmps ← load_bytes b (u_ind u) (Z.to_nat n);
        mret (Unmarshall (u_buf u) (u_sz u) (s32 (u_ind u + n)) (u_ok u), tmps)
    end.

Definition u_bool (u : unmarshall) : outcome (unmarshall * bool) :=
  r ← u_rawbyte u; mret (fst r, negb (snd r =? 0)).
Definition u_uchar (u : unmarshall) : outcome (unmarshall * Z) :=
  r ← u_rawbyte u; mret (fst r, u8 (snd r)).
Definition u_char (u : unmarshall) : outcome (unmarshall * Z) :=
  r ← u_rawbyte u; mret (fst r, wrap_signed 8 (snd r)).

Definition low_byte (r : unmarshall * Z) : Z := Z.land (snd r) 0xff.

Definition u_ushort (u : unmarshall) : outcome (unmarshall * Z) :=
  a ← u_rawbyte u;
  b ← u_rawbyte (fst a);
  mret (fst b, Z.lor (u16 (Z.shiftl (low_byte a) 8)) (low_byte b)).

(** The bits of an [unsigned short], taken as a [short]. *)
Definition u_short (u : unmarshall) : outcome (unmarshall * Z) :=
  r ← u_ushort u; mret (fst r, s16 (snd r)).

Definition u_uint (u : unmarshall) : outcome (unmarshall * Z) :=
  a ← u_rawbyte u;
  b ← u_rawbyte (fst a);
  c ← u_rawbyte (fst b);
  d ← u_rawbyte (fst c);
  mret (fst d, Z.lor (Z.lor (Z.lor (Z.shiftl (low_byte a) 24) (Z.shiftl (low_byte b) 16))
                            (Z.shiftl (low_byte c) 8)) (low_byte d)).

Definition u_int (u : unmarshall) : outcome (unmarshall * Z) :=
  r ← u_uint u; mret (fst r, s32 (snd r)).

(** [unpack] *)
Definition u_unpack (u : unmarshall) : outcome (unmarshall * Z) :=
  r ← u_uint u; mret (fst r, s32 (snd r)).

Definition u_ulonglong (u : unmarshall) : outcome (unmarshall * Z) :=
  h ← u_uint u;
  l ← u_uint (fst h);
  mret (fst l, Z.lor (snd l) (Z.shiftl (snd h) 32)).

(** The string keeps its old value [s] when the length cannot be read. *)
Definition u_string (s : list Z) (u : unmarshall) : outcome (unmarshall * list Z) :=
  r ← u_uint u;
  if u_ok (fst r) then u_rawbytes (snd r) s (fst r) else mret (fst r, s).

Definition set_u_ind (u : unmarshall) (i : Z) : unmarshall :=
  Unmarshall (u_buf u) (u_sz u) i (u_ok u).

Definition unpack_req_header (u : unmarshall) : outcome (unmarshall * req_header) :=
  a ← u_unpack (set_u_ind u sizeof_rpc_sz);
  b ← u_unpack (fst a);
  c ← u_unpack (fst b);
  d ← u_unpack (fst c);
  e ← u_unpack (fst d);
  mret (set_u_ind (fst e) RPC_HEADER_SZ,
        ReqHeader (snd a) (snd b) (u32 (snd c)) (u32 (snd d)) (snd e)).

Definition unpack_reply_header (u : unmarshall) : outcome (unmarshall * reply_header) :=
  a ← u_unpack (set_u_ind u sizeof_rpc_sz);
  b ← u_unpack (fst a);
  mret (set_u_ind (fst b) RPC_HEADER_SZ, ReplyHeader (snd a) (snd b)).

(** operator>> on containers, with the element read by [get]. *)
Fixpoint u_elems {A} (get : unmarshall -> outcome (unmarshall * A)) (n : nat) (v : list A)
    (u : unmarshall) : outcome (unmarshall * list A) :=
  match n with
  | O => Done (u, v)
  | S n => r ← get u; u_elems get n (v ++ [snd r]) (fst r)
  end.

Definition u_vector {A} (get : unmarshall -> outcome (unmarshall * A)) (v : list A)
    (u : unmarshall) : outcome (unmarshall * list A) :=
  r ← u_uint u; u_elems get (Z.to_nat (snd r)) v (fst r).

(** [d[a] = b] in a map kept in key order. *)
Fixpoint map_set {A B} (lt : A -> A -> bool) (a : A) (b : B) (d : list (A * B)) : list (A * B) :=
  match d with
  | [] => [(a, b)]
  | (a', b') :: d =>
      if lt a a' then (a, b) :: (a', b') :: d
      else if lt a' a then (a', b') :: map_set lt a b d
      else (a', b) :: d
  end.

Fixpoint u_pairs {A B} (lt : A -> A -> bool) (getA : unmarshall -> outcome (unmarshall * A))
    (getB : unmarshall -> outcome (unmarshall * B)) (n : nat) (d : list (A * B))
    (u : unmarshall) : outcome (unmarshall * list (A * B)) :=
  match n with
  | O => Done (u, d)
  | S n =>
      a ← getA u;
      b ← getB (fst a);
      u_pairs lt getA getB n (map_set lt (snd a) (snd b) d) (fst b)
  end.

Definition u_map {A B} (lt : A -> A -> bool) (getA : unmarshall -> outcome (unmarshall * A))
    (getB : unmarshall -> outcome (unmarshall * B)) (u : unmarshall)
    : outcome (unmarshall * list (A * B)) :=
  r ← u_uint u; u_pairs lt getA getB (Z.to_nat (snd r)) [] (fst r).

(** ** Big-endian words *)

Definition be32 (x : Z) : list Z := [byte_at x 24; byte_at x 16; byte_at x 8; byte_at x 0].

Lemma byte_at_eq x k : 0 <= k -> byte_at x k = (x / 2 ^ k) mod 2 ^ 8.
Proof.
  intros. unfold byte_at. rewrite Z.shiftr_div_pow2 by done.
  change 0xff with (Z.ones 8). by rewrite Z.land_ones.
Qed.

Lemma byte_at_range x k : 0 <= k -> is_byte (byte_at x k).
Proof. intros. rewrite byte_at_eq by done. apply u8_range. Qed.

Lemma byte_at_testbit x k n :
  0 <= k -> 0 <= n -> Z.testbit (byte_at x k) n = (n <? 8) && Z.testbit x (n + k).
Proof.
  intros. unfold byte_at. change 0xff with (Z.ones 8).
  rewrite Z.land_spec, Z.shiftr_spec, Z.testbit_ones_nonneg by lia.
  apply andb_comm.
Qed.

Lemma u32_testbit x n : 0 <= n -> Z.testbit (u32 x) n = (n <? 32) && Z.testbit x n.
Proof.
  intros. unfold u32. rewrite <- Z.land_ones, Z.land_spec, Z.testbit_ones_nonneg by lia.
  apply andb_comm.
Qed.

Lemma be32_value x :
  Z.lor (Z.lor (Z.lor (Z.shiftl (byte_at x 24) 24) (Z.shiftl (byte_at x 16) 16))
               (Z.shiftl (byte_at x 8) 8)) (byte_at x 0) = u32 x.
Proof.
  apply Z.bits_inj'. intros n Hn. rewrite u32_testbit, !Z.lor_spec, !Z.shiftl_spec by lia.
  assert (Hb : forall k, 0 <= k -> Z.testbit (byte_at x k) (n - k)
               = (k <=? n) && (n <? k + 8) && Z.testbit x n).
  { intros k Hk. destruct (Z.leb_spec k n).
    - rewrite byte_at_testbit by lia. replace (n - k + k) with n by lia.
      destruct (Z.ltb_spec (n - k) 8), (Z.ltb_spec n (k + 8)); try lia; done.
    - rewrite Z.testbit_neg_r by lia. done. }
  pose proof (Hb 0 ltac:(lia)) as H0. rewrite Z.sub_0_r in H0. rewrite !Hb, H0 by lia.
  destruct (Z.testbit x n); rewrite ?andb_true_r, ?andb_false_r; [| done].
  destruct (Z.leb_spec 24 n), (Z.leb_spec 16 n), (Z.leb_spec 8 n), (Z.leb_spec 0 n),
    (Z.ltb_spec n (24 + 8)), (Z.ltb_spec n (16 + 8)), (Z.ltb_spec n (8 + 8)),
    (Z.ltb_spec n (0 + 8)), (Z.ltb_spec n 32); try lia; done.
Qed.

(** ** Invariants of the two buffers *)

(** [b] is the memory of [m], all of it allocated. *)
Definition mar_ok (m : marshall) (b : list Z) : Prop :=
  m_buf m = Some b /\ Z.of_nat (length b) = m_capa m /\ 1024 <= m_capa m < 2 ^ 31 /\
  0 <= m_ind m <= m_capa m.

(** The bytes written so far, header included. *)
Definition used (m : marshall) (b : list Z) : list Z := take (Z.to_nat (m_ind m)) b.

(** The largest message: buffers are at most doubled and stay within [int]. *)
Definition MSG_LIMIT : Z := 2 ^ 30.

Section output_lemmas.
Context (fill : nat -> Z).

Lemma realloc_done b n :
  0 <= n -> (length b <= Z.to_nat n)%nat ->
  exists ext, realloc fill b n = Done (b ++ ext) /\ Z.of_nat (length (b ++ ext)) = n.
Proof.
  intros Hn Hl. unfold realloc. destruct (Z.ltb_spec n 0); [lia |]. eexists. split.
  - by rewrite take_ge by done.
  - rewrite length_app, length_fmap, length_seq. lia.
Qed.

Lemma rawbyte_room x b capa ind :
  0 <= ind < capa -> Z.of_nat (length b) = capa -> ind + 1 < MSG_LIMIT ->
  m_rawbyte fill x (Marshall (Some b) capa ind) =
  Done (Marshall (Some (<[Z.to_nat ind := u8 x]> b)) capa (ind + 1)).
Proof.
  intros Hi Hb Hl. unfold m_rawbyte. cbn [m_capa m_ind].
  destruct (Z.leb_spec capa ind); [lia |]. cbn -[store s32]. unfold store.
  destruct (Z.leb_spec 0 ind); [| lia]. destruct (Z.ltb_spec ind (Z.of_nat (length b))); [| lia].
  cbn -[s32]. by rewrite s32_id by (unfold is_s32, MSG_LIMIT in *; lia).
Qed.

Lemma rawbyte_append x m b :
  mar_ok m b -> m_ind m + 1 < MSG_LIMIT ->
  exists m' b', m_rawbyte fill x m = Done m' /\ mar_ok m' b' /\ m_ind m' = m_ind m + 1 /\
    used m' b' = used m b ++ [u8 x].
Proof.
  intros (Hb & Hl & Hc & Hi) Hlim. destruct m as [mb capa ind]. cbn in Hb, Hl, Hc, Hi, Hlim.
  subst mb. unfold MSG_LIMIT in Hlim.
  assert (Hroom : forall b' capa', Z.of_nat (length b') = capa' -> ind < capa' ->
            take (Z.to_nat ind) b' = take (Z.to_nat ind) b ->
            used (Marshall (Some (<[Z.to_nat ind := u8 x]> b')) capa' (ind + 1))
                 (<[Z.to_nat ind := u8 x]> b') = take (Z.to_nat ind) b ++ [u8 x]).
  { intros b' capa' Hl' Hlt Ht. unfold used. cbn [m_ind].
    replace (Z.to_nat (ind + 1)) with (S (Z.to_nat ind)) by lia.
    erewrite take_S_r by (apply list_lookup_insert_eq; lia).
    rewrite take_insert_ge by lia. by rewrite Ht. }
  destruct (Z.le_gt_cases capa ind) as [Hge|Hlt].
  - destruct (realloc_done b (s32 (2 * capa))) as (ext & Hr & Hlr);
      rewrite ?s32_id by (unfold is_s32; lia); try lia.
    rewrite s32_id in Hr, Hlr by (unfold is_s32; lia).
    eexists _, _. split_and!; [| | | by apply (Hroom (b ++ ext)); [exact Hlr | lia |
      rewrite take_app_le by lia]].
    + unfold m_rawbyte. cbn [m_capa m_ind]. destruct (Z.leb_spec capa ind); [| lia].
      cbn -[store s32 realloc]. rewrite s32_id by (unfold is_s32; lia). rewrite Hr.
      cbn -[store s32]. unfold store. destruct (Z.leb_spec 0 ind); [| lia].
      destruct (Z.ltb_spec ind (Z.of_nat (length (b ++ ext)))); [| lia].
      cbn -[s32]. by rewrite s32_id by (unfold is_s32; lia).
    + unfold mar_ok. cbn. rewrite length_insert. split_and!; lia || done.
    + done.
  - eexists _, _. split_and!; [apply rawbyte_room; unfold MSG_LIMIT; lia | | done |].
    + unfold mar_ok. cbn. rewrite length_insert. split_and!; lia || done.
    + by apply Hroom.
Qed.

Lemma rawbytes_append p m b :
  mar_ok m b -> m_ind m + Z.of_nat (length p) < MSG_LIMIT ->
  exists m' b', m_rawbytes fill p m = Done m' /\ mar_ok m' b' /\
    m_ind m' = m_ind m + Z.of_nat (length p) /\ used m' b' = used m b ++ p.
Proof.
  intros (Hb & Hl & Hc & Hi) Hlim. destruct m as [mb capa ind]. cbn in Hb, Hl, Hc, Hi, Hlim.
  subst mb. unfold MSG_LIMIT in Hlim. set (n := Z.of_nat (length p)) in *.
  set (capa' := if capa <? ind + n then (if n <? capa then 2 * capa else capa + n) else capa).
  assert (Hc' : ind + n <= capa' /\ capa <= capa' < 2 ^ 31).
  { unfold capa'. destruct (Z.ltb_spec capa (ind + n)), (Z.ltb_spec n capa); lia. }
  assert (Hgrow : exists ext,
    (if capa <? s32 (ind + n) then
       b ← Done b;
       b ← realloc fill b (if n <? capa then s32 (2 * capa) else s32 (capa + n));
       mret (Marshall (Some b) (if n <? capa then s32 (2 * capa) else s32 (capa + n)) ind)
     else mret (Marshall (Some b) capa ind)) = Done (Marshall (Some (b ++ ext)) capa' ind) /\
    Z.of_nat (length (b ++ ext)) = capa').
  { rewrite (s32_id (ind + n)) by (unfold is_s32; lia). unfold capa' in *.
    destruct (Z.ltb_spec capa (ind + n)).
    - replace (if n <? capa then s32 (2 * capa) else s32 (capa + n))
        with (if n <? capa then 2 * capa else capa + n)
        by (destruct (Z.ltb_spec n capa); by rewrite s32_id by (unfold is_s32; lia)).
      destruct (realloc_done b (if n <? capa then 2 * capa else capa + n)) as (ext & Hr & Hlr);
        [lia | lia |]. exists ext. rewrite bind_Done, Hr. done.
    - exists []. by rewrite app_nil_r. }
  destruct Hgrow as (ext & Hg & Hlr).
  assert (Hfit : (Z.to_nat ind + length p <= length (b ++ ext))%nat) by lia.
  eexists _, (splice (b ++ ext) (Z.to_nat ind) p). split_and!.
  - unfold m_rawbytes. fold n. cbn [m_capa m_ind].
    change (buf_of (Marshall (Some b) capa ind)) with (Done b).
    rewrite Hg, bind_Done. unfold buf_of. cbn [m_buf]. rewrite bind_Done. unfold store_bytes.
    cbn [m_ind m_capa]. destruct (Z.leb_spec 0 ind); [| lia].
    destruct (Z.leb_spec (ind + Z.of_nat (length p)) (Z.of_nat (length (b ++ ext)))); [| lia].
    cbn [andb]. rewrite bind_Done, s32_id by (unfold is_s32; lia). reflexivity.
  - unfold mar_ok. cbn. rewrite length_splice by done. split_and!; lia || done.
  - done.
  - unfold used. cbn [m_ind]. unfold splice. rewrite app_assoc.
    rewrite take_app_length' by (rewrite length_app, length_take; lia).
    by rewrite take_app_le by lia.
Qed.

End output_lemmas.

(** ** What an operation appends and what another reads back *)

Definition emits (f : marshall -> outcome marshall) (l : list Z) : Prop :=
  forall m b, mar_ok m b -> m_ind m + Z.of_nat (length l) < MSG_LIMIT ->
    exists m' b', f m = Done m' /\ mar_ok m' b' /\ m_ind m' = m_ind m + Z.of_nat (length l) /\
      used m' b' = used m b ++ l.

(** [u] is in good order and [r] is what remains to be read. *)
Definition um_at (u : unmarshall) (r : list Z) : Prop :=
  exists b, u_buf u = Some b /\ u_ok u = true /\ Z.of_nat (length b) = u_sz u /\
    0 <= u_ind u <= u_sz u /\ u_sz u < 2 ^ 31 /\ drop (Z.to_nat (u_ind u)) b = r.

Definition reads {A} (get : unmarshall -> outcome (unmarshall * A)) (l : list Z) (a : A) : Prop :=
  forall u r, um_at u (l ++ r) -> exists u', get u = Done (u', a) /\ um_at u' r.

Lemma emits_bind f g l k :
  emits f l -> emits g k -> emits (fun m => m ← f m; g m) (l ++ k).
Proof.
  intros Hf Hg m b Hm Hlim. rewrite length_app in *.
  destruct (Hf m b Hm) as (m1 & b1 & H1 & Hm1 & Hi1 & Hu1); [lia |].
  destruct (Hg m1 b1 Hm1) as (m2 & b2 & H2 & Hm2 & Hi2 & Hu2); [lia |].
  exists m2, b2. split_and!; [by rewrite H1 | done | lia |]. by rewrite Hu2, Hu1, app_assoc.
Qed.

Lemma emits_rawbyte fill x : emits (m_rawbyte fill x) [u8 x].
Proof. intros m b Hm Hl. apply rawbyte_append; [done |]. simpl in Hl. lia. Qed.

Lemma emits_rawbytes fill p : emits (m_rawbytes fill p) p.
Proof. intros m b Hm Hl. by apply rawbytes_append. Qed.

Lemma u8_byte_at x k : 0 <= k -> u8 (byte_at x k) = byte_at x k.
Proof. intros. by apply u8_id, byte_at_range. Qed.

Lemma emits_uint fill x : emits (m_uint fill x) (be32 x).
Proof.
  pose proof (emits_bind _ _ _ _ (emits_rawbyte fill (byte_at x 24))
    (emits_bind _ _ _ _ (emits_rawbyte fill (byte_at x 16))
      (emits_bind _ _ _ _ (emits_rawbyte fill (byte_at x 8))
        (emits_rawbyte fill (byte_at x 0))))) as H.
  rewrite !u8_byte_at in H by lia. exact H.
Qed.

Lemma emits_pack fill x : emits (m_pack fill x) (be32 x).
Proof. exact (emits_uint fill x). Qed.

Lemma emits_elems {A} (put : A -> marshall -> outcome marshall) (enc : A -> list Z) l :
  Forall (fun a => emits (put a) (enc a)) l -> emits (m_elems put l) (mjoin (enc <$> l)).
Proof.
  induction 1 as [|a l Ha Hl IH].
  - intros m b Hm _. exists m, b. cbn. split_and!; auto; [lia |]. by rewrite app_nil_r.
  - rewrite fmap_cons, mjoin_cons. exact (emits_bind _ _ _ _ Ha IH).
Qed.

Lemma reads_bind {A B} (g : unmarshall -> outcome (unmarshall * A))
    (h : A -> unmarshall -> outcome (unmarshall * B)) l k a c :
  reads g l a -> reads (h a) k c ->
  reads (fun u => r ← g u; h (snd r) (fst r)) (l ++ k) c.
Proof.
  intros Hg Hh u r Hu. rewrite <- app_assoc in Hu.
  destruct (Hg u _ Hu) as (u1 & H1 & Hu1). destruct (Hh u1 _ Hu1) as (u2 & H2 & Hu2).
  exists u2. by rewrite H1.
Qed.

Lemma reads_map {A B} (g : unmarshall -> outcome (unmarshall * A)) (f : A -> B) l a :
  reads g l a -> reads (fun u => r ← g u; mret (fst r, f (snd r))) l (f a).
Proof. intros Hg u r Hu. destruct (Hg u r Hu) as (u1 & H1 & Hu1). exists u1. by rewrite H1. Qed.

Definition char_value (c : Z) : Z := u32 (wrap_signed 8 c).

Lemma reads_rawbyte c : reads u_rawbyte [c] (char_value c).
Proof.
  intros u r (b & Hb & Hok & Hl & Hi & Hs & Hd). destruct u as [ub sz ind ok]. cbn in *. subst.
  assert (Hc : b !! Z.to_nat ind = Some c).
  { rewrite <- (Nat.add_0_r (Z.to_nat ind)), <- lookup_drop, Hd. done. }
  pose proof (lookup_lt_Some _ _ _ Hc) as Hlt.
  eexists. split.
  - unfold u_rawbyte. cbn [u_sz u_ind u_buf u_ok]. destruct (Z.leb_spec (Z.of_nat (length b)) ind);
      [lia |]. unfold load. destruct (Z.leb_spec 0 ind); [| lia]. rewrite Hc, bind_Done.
    rewrite s32_id by (unfold is_s32; lia). reflexivity.
  - exists b. cbn. split_and!; try done; try lia.
    replace (Z.to_nat (ind + 1)) with (Z.to_nat ind + 1)%nat by lia.
    by rewrite <- drop_drop, Hd.
Qed.

Lemma char_value_low c : is_byte c -> Z.land (char_value c) 0xff = c.
Proof.
  intros Hc. change 0xff with (Z.ones 8). rewrite Z.land_ones by lia.
  unfold char_value, u32. rewrite Z.mod_mod_divide by (exists (2 ^ 24); reflexivity).
  rewrite mod_wrap_signed by lia. by apply u8_id.
Qed.

Lemma reads_uint_bytes a b c d :
  reads u_uint [a; b; c; d]
    (Z.lor (Z.lor (Z.lor (Z.shiftl (Z.land (char_value a) 0xff) 24)
                         (Z.shiftl (Z.land (char_value b) 0xff) 16))
                  (Z.shiftl (Z.land (char_value c) 0xff) 8)) (Z.land (char_value d) 0xff)).
Proof.
  intros u r Hu.
  destruct (reads_rawbyte a u _ Hu) as (u1 & H1 & Hu1).
  destruct (reads_rawbyte b u1 _ Hu1) as (u2 & H2 & Hu2).
  destruct (reads_rawbyte c u2 _ Hu2) as (u3 & H3 & Hu3).
  destruct (reads_rawbyte d u3 _ Hu3) as (u4 & H4 & Hu4).
  exists u4. unfold u_uint. rewrite H1. cbn [mbind outcome_bind fst]. rewrite H2.
  cbn [mbind outcome_bind fst]. rewrite H3. cbn [mbind outcome_bind fst]. by rewrite H4.
Qed.

Lemma reads_uint x : reads u_uint (be32 x) (u32 x).
Proof.
  pose proof (reads_uint_bytes (byte_at x 24) (byte_at x 16) (byte_at x 8) (byte_at x 0)) as H.
  rewrite !char_value_low, be32_value in H by (apply byte_at_range; lia). exact H.
Qed.

Lemma reads_unpack x : is_s32 x -> reads u_unpack (be32 x) x.
Proof.
  intros Hx. pose proof (reads_map u_uint s32 _ _ (reads_uint x)) as H.
  unfold s32, u32 in H. rewrite wrap_signed_mod in H by lia.
  fold (s32 x) in H. rewrite s32_id in H by done. exact H.
Qed.

Lemma reads_rawbytes s p :
  Z.of_nat (length p) < 2 ^ 32 -> reads (u_rawbytes (Z.of_nat (length p)) s) p p.
Proof.
  intros Hp u r (b & Hb & Hok & Hl & Hi & Hs & Hd). destruct u as [ub sz ind ok]. cbn in *. subst.
  assert (Hlen : length (p ++ r) = (length b - Z.to_nat ind)%nat) by (by rewrite <- Hd, length_drop).
  rewrite length_app in Hlen. eexists. split.
  - unfold u_rawbytes. cbn [u_sz u_ind u_buf u_ok].
    rewrite !u32_id by (unfold is_u32; lia).
    destruct (Z.ltb_spec (Z.of_nat (length b)) (ind + Z.of_nat (length p))); [lia |].
    unfold load_bytes. rewrite Nat2Z.id. destruct (Z.leb_spec 0 ind); [| lia].
    destruct (Z.leb_spec (ind + Z.of_nat (length p)) (Z.of_nat (length b))); [| lia].
    cbn [andb]. rewrite bind_Done, s32_id by (unfold is_s32; lia).
    unfold sub. rewrite Hd, take_app_length. reflexivity.
  - exists b. cbn. split_and!; try done; try lia.
    replace (Z.to_nat (ind + Z.of_nat (length p))) with (Z.to_nat ind + length p)%nat by lia.
    by rewrite <- drop_drop, Hd, drop_app_length.
Qed.

(** ** Marshallable types

    The operators << and >> of a type, the bytes on the wire, and the two
    laws a caller relies on. *)

Record codec (A : Type) := Codec {
  c_wf : A -> Prop;
  c_enc : A -> list Z;
  c_put : (nat -> Z) -> A -> marshall -> outcome marshall;
  c_get : unmarshall -> outcome (unmarshall * A);
  c_emits : forall fill a, c_wf a -> emits (c_put fill a) (c_enc a);
  c_reads : forall a, c_wf a -> reads c_get (c_enc a) a
}.
Arguments c_wf {A}. Arguments c_enc {A}. Arguments c_put {A}. Arguments c_get {A}.
Arguments c_emits {A}. Arguments c_reads {A}.

Lemma reads_uchar x : is_byte x -> reads u_uchar [x] x.
Proof.
  intros Hx. pose proof (reads_map u_rawbyte u8 _ _ (reads_rawbyte x)) as H.
  replace (u8 (char_value x)) with x in H; [exact H |].
  rewrite <- (char_value_low x) at 1 by done. change 0xff with (Z.ones 8).
  by rewrite Z.land_ones.
Qed.

Lemma reads_bool (x : bool) : reads u_bool [if x then 1 else 0] x.
Proof.
  pose proof (reads_map u_rawbyte (fun z => negb (z =? 0)) _ _
    (reads_rawbyte (if x then 1 else 0))) as H.
  by destruct x.
Qed.

Lemma reads_char x : - 2 ^ 7 <= x < 2 ^ 7 -> reads u_char [u8 (u8 x)] x.
Proof.
  intros Hx. rewrite (u8_id (u8 x)) by apply u8_range.
  pose proof (reads_map u_rawbyte (wrap_signed 8) _ _ (reads_rawbyte (u8 x))) as H.
  replace (wrap_signed 8 (char_value (u8 x))) with x in H; [exact H |].
  unfold char_value, u32. rewrite <- (wrap_signed_mod 8) by lia.
  rewrite Z.mod_mod_divide by (exists (2 ^ 24); reflexivity).
  rewrite mod_wrap_signed by lia. unfold u8. rewrite Z.mod_mod, wrap_signed_mod by lia.
  by rewrite wrap_signed_id.
Qed.

Lemma be16_value x :
  Z.lor (u16 (Z.shiftl (byte_at x 8) 8)) (byte_at x 0) = u16 x.
Proof.
  apply Z.bits_inj'. intros n Hn. unfold u16. rewrite <- !Z.land_ones by lia.
  rewrite Z.lor_spec, !Z.land_spec, Z.shiftl_spec, !Z.testbit_ones_nonneg by lia.
  rewrite (byte_at_testbit x 0) by lia. rewrite Z.add_0_r.
  destruct (Z.le_gt_cases 8 n).
  - rewrite byte_at_testbit by lia. replace (n - 8 + 8) with n by lia.
    destruct (Z.testbit x n), (Z.ltb_spec (n - 8) 8), (Z.ltb_spec n 8), (Z.ltb_spec n 16);
      try lia; done.
  - rewrite Z.testbit_neg_r by lia.
    destruct (Z.testbit x n), (Z.ltb_spec n 8), (Z.ltb_spec n 16); try lia; done.
Qed.

Lemma reads_ushort x : reads u_ushort [byte_at x 8; byte_at x 0] (u16 x).
Proof.
  intros u r Hu. destruct (reads_rawbyte _ u _ Hu) as (u1 & H1 & Hu1).
  destruct (reads_rawbyte _ u1 _ Hu1) as (u2 & H2 & Hu2).
  exists u2. split; [| done]. unfold u_ushort. rewrite H1. cbn [mbind outcome_bind fst].
  rewrite H2, bind_Done. unfold low_byte. cbn [fst snd].
  rewrite !char_value_low, be16_value by (apply byte_at_range; lia). done.
Qed.

Lemma emits_ushort fill x : emits (m_ushort fill x) [byte_at x 8; byte_at x 0].
Proof.
  pose proof (emits_bind _ _ _ _ (emits_rawbyte fill (byte_at x 8))
    (emits_rawbyte fill (byte_at x 0))) as H.
  rewrite !u8_byte_at in H by lia. exact H.
Qed.

Lemma be64_value x :
  0 <= x < 2 ^ 64 -> Z.lor (u32 x) (Z.shiftl (u32 (Z.shiftr x 32)) 32) = x.
Proof.
  intros Hx. apply Z.bits_inj'. intros n Hn.
  rewrite Z.lor_spec, Z.shiftl_spec, u32_testbit by lia.
  destruct (Z.le_gt_cases 32 n).
  - rewrite u32_testbit, Z.shiftr_spec by lia. replace (n - 32 + 32) with n by lia.
    destruct (Z.ltb_spec n 32); [lia |]. simpl. destruct (Z.ltb_spec (n - 32) 32); [done |].
    simpl. symmetry. destruct (decide (x = 0)) as [->|]; [apply Z.testbit_0_l |].
    apply Z.bits_above_log2; [lia |]. apply Z.log2_lt_pow2; [lia |].
    apply Z.lt_le_trans with (2 ^ 64); [lia |]. apply Z.pow_le_mono_r; lia.
  - rewrite (Z.testbit_neg_r _ (n - 32)), orb_false_r by lia. by destruct (Z.ltb_spec n 32); [| lia].
Qed.

Lemma emits_ulonglong fill x :
  emits (m_ulonglong fill x) (be32 (u32 (Z.shiftr x 32)) ++ be32 (u32 x)).
Proof. apply emits_bind; apply emits_uint. Qed.

Lemma u32_u32 x : u32 (u32 x) = u32 x.
Proof. apply u32_id, u32_range. Qed.

Lemma reads_ulonglong x :
  0 <= x < 2 ^ 64 -> reads u_ulonglong (be32 (u32 (Z.shiftr x 32)) ++ be32 (u32 x)) x.
Proof.
  intros Hx. pose proof (reads_bind u_uint
    (fun h u => l ← u_uint u; mret (fst l, Z.lor (snd l) (Z.shiftl h 32))) _ _ _ _
    (reads_uint (u32 (Z.shiftr x 32)))
    (reads_map u_uint (fun l => Z.lor l (Z.shiftl (u32 (u32 (Z.shiftr x 32))) 32)) _ _
       (reads_uint (u32 x)))) as H.
  rewrite !u32_u32, be64_value in H by done. exact H.
Qed.

Lemma emits_string fill s : emits (m_string fill s) (be32 (u32 (Z.of_nat (length s))) ++ s).
Proof. apply (emits_bind _ _ _ _ (emits_uint fill _) (emits_rawbytes fill s)). Qed.

Lemma reads_string s0 s :
  Z.of_nat (length s) < 2 ^ 31 -> reads (u_string s0) (be32 (u32 (Z.of_nat (length s))) ++ s) s.
Proof.
  intros Hs u r Hu. rewrite <- app_assoc in Hu.
  destruct (reads_uint _ u _ Hu) as (u1 & H1 & Hu1).
  rewrite u32_u32, u32_id in H1 by (unfold is_u32; lia).
  destruct (reads_rawbytes s0 s ltac:(lia) u1 _ Hu1) as (u2 & H2 & Hu2).
  exists u2. split; [| done]. unfold u_string. rewrite H1, bind_Done. cbn [fst snd].
  destruct Hu1 as (b & _ & -> & _). exact H2.
Qed.

Definition cd_bool : codec bool.
Proof.
  refine (Codec bool (fun _ => True) (fun x => [if x then 1 else 0]) m_bool u_bool _ _).
  - intros fill x _. pose proof (emits_rawbyte fill (if x then 1 else 0)) as H. by destruct x.
  - intros x _. apply reads_bool.
Defined.

Definition cd_uchar : codec Z.
Proof.
  refine (Codec Z is_byte (fun x => [x]) m_uchar u_uchar _ _).
  - intros fill x Hx. pose proof (emits_rawbyte fill x) as H. by rewrite u8_id in H.
  - apply reads_uchar.
Defined.

Definition cd_char : codec Z.
Proof.
  refine (Codec Z (fun x => - 2 ^ 7 <= x < 2 ^ 7) (fun x => [u8 (u8 x)]) m_char u_char _ _).
  - intros fill x Hx. apply (emits_rawbyte fill (u8 x)).
  - apply reads_char.
Defined.

Definition cd_ushort : codec Z.
Proof.
  refine (Codec Z (fun x => 0 <= x < 2 ^ 16) (fun x => [byte_at x 8; byte_at x 0])
            m_ushort u_ushort _ _).
  - intros fill x _. apply emits_ushort.
  - intros x Hx. pose proof (reads_ushort x) as H. unfold u16 in H.
    by rewrite Z.mod_small in H by done.
Defined.

Definition cd_short : codec Z.
Proof.
  refine (Codec Z is_s16 (fun x => [byte_at (u16 x) 8; byte_at (u16 x) 0]) m_short u_short _ _).
  - intros fill x _. apply emits_ushort.
  - intros x Hx. pose proof (reads_map u_ushort s16 _ _ (reads_ushort (u16 x))) as H.
    unfold s16, u16 in H. rewrite !wrap_signed_mod in H by lia.
    rewrite wrap_signed_id in H; [exact H | lia | exact Hx].
Defined.

Definition cd_uint : codec Z.
Proof.
  refine (Codec Z is_u32 be32 m_uint u_uint _ _).
  - intros fill x _. apply emits_uint.
  - intros x Hx. pose proof (reads_uint x) as H. by rewrite u32_id in H.
Defined.

Definition cd_int : codec Z.
Proof.
  refine (Codec Z is_s32 (fun x => be32 (u32 x)) m_int u_int _ _).
  - intros fill x _. apply emits_uint.
  - intros x Hx. pose proof (reads_map u_uint s32 _ _ (reads_uint (u32 x))) as H.
    rewrite u32_u32 in H. unfold s32, u32 in H. rewrite wrap_signed_mod in H by lia.
    fold (s32 x) in H. rewrite s32_id in H by done. exact H.
Defined.

Definition cd_ulonglong : codec Z.
Proof.
  refine (Codec Z (fun x => 0 <= x < 2 ^ 64)
            (fun x => be32 (u32 (Z.shiftr x 32)) ++ be32 (u32 x)) m_ulonglong u_ulonglong _ _).
  - intros fill x _. apply emits_ulonglong.
  - apply reads_ulonglong.
Defined.

(** A string variable starts out empty. *)
Definition cd_string : codec (list Z).
Proof.
  refine (Codec (list Z) (fun s => Z.of_nat (length s) < 2 ^ 31)
            (fun s => be32 (u32 (Z.of_nat (length s))) ++ s) m_string (u_string []) _ _).
  - intros fill s _. apply emits_string.
  - intros s Hs. by apply reads_string.
Defined.

(** Values marshalled one after the other. *)
Definition cd_pair {A B} (ca : codec A) (cb : codec B) : codec (A * B).
Proof.
  refine (Codec (A * B) (fun p => c_wf ca (fst p) /\ c_wf cb (snd p))
    (fun p => c_enc ca (fst p) ++ c_enc cb (snd p))
    (fun fill p m => m ← c_put ca fill (fst p) m; c_put cb fill (snd p) m)
    (fun u => a ← c_get ca u; b ← c_get cb (fst a); mret (fst b, (snd a, snd b))) _ _).
  - intros fill [a b] [Ha Hb]. apply emits_bind; by apply c_emits.
  - intros [a b] [Ha Hb]. apply (reads_bind (c_get ca)
      (fun a u => b ← c_get cb u; mret (fst b, (a, snd b))) _ _ a).
    + by apply c_reads.
    + apply (reads_map (c_get cb) (fun b => (a, b))). by apply c_reads.
Defined.

Definition cd_unit : codec unit.
Proof.
  refine (Codec unit (fun _ => True) (fun _ => []) (fun _ _ m => mret m) (fun u => mret (u, tt)) _ _).
  - intros fill [] _. exact (emits_elems (fun (_ : unit) m => mret m) (fun _ => []) []
      (List.Forall_nil _)).
  - intros [] _ u r Hu. by exists u.
Defined.

Lemma reads_elems {A} (c : codec A) l v :
  Forall (c_wf c) l -> reads (u_elems (c_get c) (length l) v) (mjoin (c_enc c <$> l)) (v ++ l).
Proof.
  revert v. induction l as [|a l IH]; intros v Hl.
  - intros u r Hu. exists u. by rewrite app_nil_r.
  - apply Forall_cons in Hl as [Ha Hl]. rewrite fmap_cons, mjoin_cons.
    replace (v ++ a :: l) with ((v ++ [a]) ++ l) by (by rewrite <- app_assoc).
    apply (reads_bind (c_get c) (fun x => u_elems (c_get c) (length l) (v ++ [x])) _ _ a);
      [by apply c_reads | by apply IH].
Qed.

Definition cd_vector {A} (c : codec A) : codec (list A).
Proof.
  refine (Codec (list A) (fun v => Forall (c_wf c) v /\ Z.of_nat (length v) < 2 ^ 32)
    (fun v => be32 (u32 (Z.of_nat (length v))) ++ mjoin (c_enc c <$> v))
    (fun fill => m_vector fill (c_put c fill)) (u_vector (c_get c) []) _ _).
  - intros fill v [Hv _]. apply (emits_bind _ _ _ _ (emits_uint fill _)).
    apply emits_elems. eapply Forall_impl; [exact Hv |]. intros a Ha. by apply c_emits.
  - intros v [Hv Hlen].
    apply (reads_bind u_uint (fun n => u_elems (c_get c) (Z.to_nat n) []) _ _ (Z.of_nat (length v))).
    + pose proof (reads_uint (u32 (Z.of_nat (length v)))) as H.
      rewrite u32_u32 in H. by rewrite (u32_id (Z.of_nat (length v))) in H |- * by (unfold is_u32; lia).
    + rewrite Nat2Z.id. by apply reads_elems.
Defined.

(** The keys of a map, in strictly increasing order. *)
Definition before {A} (lt : A -> A -> bool) (a b : A) : Prop := lt a b = true /\ lt b a = false.

Lemma map_set_last {A B} (lt : A -> A -> bool) a (b : B) d :
  (forall a', a' ∈ d.*1 -> before lt a' a) -> map_set lt a b d = d ++ [(a, b)].
Proof.
  induction d as [|[a' b'] d IH]; intros Hd; [done |]. cbn [map_set].
  destruct (Hd a') as [-> ->]; [left |]. simpl. f_equal. apply IH.
  intros a'' Ha. apply Hd. by right.
Qed.

Lemma reads_pairs {A B} (lt : A -> A -> bool) (ca : codec A) (cb : codec B) l d :
  Forall (fun p => c_wf ca (fst p) /\ c_wf cb (snd p)) l ->
  (forall a a', a ∈ d.*1 -> a' ∈ l.*1 -> before lt a a') ->
  StronglySorted (before lt) l.*1 ->
  reads (u_pairs lt (c_get ca) (c_get cb) (length l) d)
    (mjoin ((fun p => c_enc ca (fst p) ++ c_enc cb (snd p)) <$> l)) (d ++ l).
Proof.
  revert d. induction l as [|[a b] l IH]; intros d Hl Hd Hs.
  - intros u r Hu. exists u. by rewrite app_nil_r.
  - apply Forall_cons in Hl as [[Ha Hb] Hl]. cbn in Hs. inversion Hs as [|? ? Hs' Hall]; subst.
    rewrite fmap_cons, mjoin_cons. cbn [fst snd]. rewrite <- app_assoc.
    replace (d ++ (a, b) :: l) with ((d ++ [(a, b)]) ++ l) by (by rewrite <- app_assoc).
    apply (reads_bind (c_get ca)
      (fun a u => b ← c_get cb u;
         u_pairs lt (c_get ca) (c_get cb) (length l) (map_set lt a (snd b) d) (fst b)) _ _ a);
      [by apply c_reads |].
    apply (reads_bind (c_get cb)
      (fun b => u_pairs lt (c_get ca) (c_get cb) (length l) (map_set lt a b d)) _ _ b);
      [by apply c_reads |].
    rewrite map_set_last by (intros a' Ha'; apply Hd; [done | left]).
    apply IH; auto. intros a1 a2 H1 H2. rewrite fmap_app in H1. apply elem_of_app in H1 as [H1|H1].
    + apply Hd; [done | by right].
    + cbn in H1. apply list_elem_of_singleton in H1 as ->.
      rewrite Forall_forall in Hall. by apply Hall.
Qed.

Definition cd_map {A B} (lt : A -> A -> bool) (ca : codec A) (cb : codec B) : codec (list (A * B)).
Proof.
  refine (Codec (list (A * B))
    (fun d => Forall (fun p => c_wf ca (fst p) /\ c_wf cb (snd p)) d /\
              StronglySorted (before lt) d.*1 /\ Z.of_nat (length d) < 2 ^ 32)
    (fun d => be32 (u32 (Z.of_nat (length d))) ++
              mjoin ((fun p => c_enc ca (fst p) ++ c_enc cb (snd p)) <$> d))
    (fun fill => m_map fill (c_put ca fill) (c_put cb fill))
    (u_map lt (c_get ca) (c_get cb)) _ _).
  - intros fill d (Hd & _). apply (emits_bind _ _ _ _ (emits_uint fill _)).
    apply (emits_elems _ (fun p => c_enc ca (fst p) ++ c_enc cb (snd p))).
    eapply Forall_impl; [exact Hd |]. intros [a b] [Ha Hb]. apply emits_bind; by apply c_emits.
  - intros d (Hd & Hs & Hlen).
    apply (reads_bind u_uint (fun n => u_pairs lt (c_get ca) (c_get cb) (Z.to_nat n) []) _ _
             (Z.of_nat (length d))).
    + pose proof (reads_uint (u32 (Z.of_nat (length d)))) as H.
      rewrite u32_u32 in H. by rewrite (u32_id (Z.of_nat (length d))) in H |- * by (unfold is_u32; lia).
    + rewrite Nat2Z.id. apply reads_pairs; auto. intros a a' Ha. by apply not_elem_of_nil in Ha.
Defined.

(** ** Headers *)

Definition header_wf (h : req_header) : Prop :=
  is_s32 (q_xid h) /\ is_s32 (q_proc h) /\ is_u32 (q_clt_nonce h) /\ is_u32 (q_srv_nonce h) /\
  is_s32 (q_xid_rep h).

Definition req_header_bytes (h : req_header) : list Z :=
  be32 (q_xid h) ++ be32 (q_proc h) ++ be32 (s32 (q_clt_nonce h)) ++ be32 (s32 (q_srv_nonce h)) ++
  be32 (q_xid_rep h).

Definition reply_header_bytes (h : reply_header) : list Z := be32 (p_xid h) ++ be32 (p_ret h).

Lemma pack_room fill x b capa (off : nat) :
  (off + 4 <= length b)%nat -> Z.of_nat (length b) = capa -> Z.of_nat off + 4 < MSG_LIMIT ->
  m_pack fill x (Marshall (Some b) capa (Z.of_nat off)) =
  Done (Marshall (Some (splice b off (be32 x))) capa (Z.of_nat (off + 4))).
Proof.
  intros Ho Hb Hl. unfold m_pack.
  do 4 (rewrite rawbyte_room by (rewrite ?length_insert; lia); rewrite ?bind_Done).
  rewrite !u8_byte_at by lia. do 2 f_equal; [| lia]. do 2 f_equal.
  replace (Z.to_nat (Z.of_nat off + 1 + 1 + 1)) with (off + 3)%nat by lia.
  replace (Z.to_nat (Z.of_nat off + 1 + 1)) with (off + 2)%nat by lia.
  replace (Z.to_nat (Z.of_nat off + 1)) with (off + 1)%nat by lia. rewrite Nat2Z.id.
  rewrite (insert_splice b off) by lia.
  rewrite (insert_splice _ (off + 1)) by (rewrite length_splice; simpl; lia).
  rewrite (splice_splice_app _ off [_] [_]) by (simpl; lia). cbn [app].
  rewrite (insert_splice _ (off + 2)) by (rewrite length_splice; simpl; lia).
  rewrite (splice_splice_app _ off [_; _] [_]) by (simpl; lia). cbn [app].
  rewrite (insert_splice _ (off + 3)) by (rewrite length_splice; simpl; lia).
  by rewrite (splice_splice_app _ off [_; _; _] [_]) by (simpl; lia).
Qed.

Lemma length_be32 x : length (be32 x) = 4%nat.
Proof. reflexivity. Qed.

(** Arithmetic on the lengths of buffers that were spliced several times. *)
Ltac buf_len :=
  rewrite ?length_app, ?length_be32;
  first [lia | rewrite length_splice; [buf_len | buf_len]].

Lemma pack_req_header_done fill h m b :
  mar_ok m b ->
  pack_req_header fill h m =
  Done (Marshall (Some (splice b 4 (req_header_bytes h))) (m_capa m) (m_ind m)).
Proof.
  intros (Hb & Hl & Hc & Hi). destruct m as [mb capa ind]. cbn in Hb, Hl, Hc, Hi. subst mb.
  unfold pack_req_header, set_ind. cbn [m_buf m_capa m_ind].
  change sizeof_rpc_sz with (Z.of_nat 4).
  do 5 (rewrite pack_room by (unfold MSG_LIMIT; buf_len);
        rewrite ?bind_Done).
  cbn [m_buf m_capa m_ind]. do 2 f_equal. f_equal. unfold req_header_bytes.
  by rewrite <- !(splice_splice_app _ _ (be32 _)) by buf_len.
Qed.

Lemma pack_reply_header_done fill h m b :
  mar_ok m b ->
  pack_reply_header fill h m =
  Done (Marshall (Some (splice b 4 (reply_header_bytes h))) (m_capa m) (m_ind m)).
Proof.
  intros (Hb & Hl & Hc & Hi). destruct m as [mb capa ind]. cbn in Hb, Hl, Hc, Hi. subst mb.
  unfold pack_reply_header, set_ind. cbn [m_buf m_capa m_ind].
  change sizeof_rpc_sz with (Z.of_nat 4).
  do 2 (rewrite pack_room by (unfold MSG_LIMIT; buf_len);
        rewrite ?bind_Done).
  cbn [m_buf m_capa m_ind]. do 2 f_equal. f_equal. unfold reply_header_bytes.
  by rewrite <- !(splice_splice_app _ _ (be32 _)) by buf_len.
Qed.

Lemma s32_u32 x : is_u32 x -> u32 (s32 x) = x.
Proof. intros. unfold u32, s32. rewrite mod_wrap_signed by lia. by apply u32_id. Qed.

Lemma s32_range x : is_s32 (s32 x).
Proof. apply (wrap_signed_range 32). lia. Qed.

(** A message: four bytes of size, the header area and the arguments. *)
Lemma um_at_set u b r (off : nat) :
  u_buf u = Some b -> u_ok u = true -> Z.of_nat (length b) = u_sz u -> u_sz u < 2 ^ 31 ->
  (off <= length b)%nat -> drop off b = r -> um_at (set_u_ind u (Z.of_nat off)) r.
Proof.
  intros. exists b. cbn. rewrite Nat2Z.id. split_and!; auto; lia.
Qed.

Lemma um_at_buf u r : um_at u r -> exists b, u_buf u = Some b /\ u_ok u = true /\
  Z.of_nat (length b) = u_sz u /\ u_sz u < 2 ^ 31.
Proof. intros (b & ? & ? & ? & ? & ? & ?). by exists b. Qed.

(** Reading never replaces the buffer. *)
Definition same_buf (u u' : unmarshall) : Prop := u_buf u' = u_buf u /\ u_sz u' = u_sz u.

Lemma rawbyte_same u u' x : u_rawbyte u = Done (u', x) -> same_buf u u'.
Proof.
  unfold u_rawbyte. destruct (_ <=? _); [intros [= <- _]; done |].
  destruct (u_buf u) eqn:E; [| done]. destruct (load _ _); simpl; [| done].
  intros [= <- _]. by split.
Qed.

Lemma unpack_same u u' x : u_unpack u = Done (u', x) -> same_buf u u'.
Proof.
  unfold u_unpack, u_uint. intros H.
  destruct (u_rawbyte u) as [[u1 a]|] eqn:E1; [| done]. simpl in H.
  destruct (u_rawbyte u1) as [[u2 b]|] eqn:E2; [| done]. simpl in H.
  destruct (u_rawbyte u2) as [[u3 c]|] eqn:E3; [| done]. simpl in H.
  destruct (u_rawbyte u3) as [[u4 d]|] eqn:E4; [| done]. simpl in H. injection H as <- _.
  apply rawbyte_same in E1 as [], E2 as [], E3 as [], E4 as []. split; congruence.
Qed.

Lemma unpack_req_header_done u b h rest :
  header_wf h -> u_buf u = Some b -> u_ok u = true -> Z.of_nat (length b) = u_sz u ->
  u_sz u < 2 ^ 31 -> (4 <= length b)%nat -> drop 4 b = req_header_bytes h ++ rest ->
  exists u', unpack_req_header u = Done (u', h) /\ um_at u' rest.
Proof.
  intros (H1 & H2 & H3 & H4 & H5) Hb Hok Hl Hs Hlen Hd. unfold req_header_bytes in Hd.
  rewrite <- !app_assoc in Hd.
  destruct (reads_unpack _ H1 _ _ (um_at_set u b _ 4 Hb Hok Hl Hs Hlen Hd)) as (u1 & E1 & U1).
  destruct (reads_unpack _ H2 _ _ U1) as (u2 & E2 & U2).
  destruct (reads_unpack _ (s32_range (q_clt_nonce h)) _ _ U2) as (u3 & E3 & U3).
  destruct (reads_unpack _ (s32_range (q_srv_nonce h)) _ _ U3) as (u4 & E4 & U4).
  destruct (reads_unpack _ H5 _ _ U4) as (u5 & E5 & U5).
  exists (set_u_ind u5 RPC_HEADER_SZ). split.
  - unfold unpack_req_header. change sizeof_rpc_sz with (Z.of_nat 4).
    rewrite E1, bind_Done. cbn [fst snd]. rewrite E2, bind_Done. cbn [fst snd].
    rewrite E3, bind_Done. cbn [fst snd]. rewrite E4, bind_Done. cbn [fst snd].
    rewrite E5, bind_Done. cbn [fst snd]. rewrite !s32_u32 by done. by destruct h.
  - apply unpack_same in E1 as [B1 Z1], E2 as [B2 Z2], E3 as [B3 Z3], E4 as [B4 Z4], E5 as [B5 Z5].
    cbn in B1, Z1. destruct (um_at_buf _ _ U5) as (b5 & Hb5 & Hok5 & Hl5 & Hs5).
    assert (b5 = b) as -> by congruence.
    apply (um_at_set u5 b rest 24 Hb5 Hok5 Hl5 Hs5).
    + apply (f_equal length) in Hd. rewrite length_drop, !length_app in Hd. simpl in Hd. lia.
    + change 24%nat with (4 + 20)%nat. rewrite <- drop_drop, Hd.
      rewrite !app_assoc. by apply drop_app_length'.
Qed.

Lemma unpack_reply_header_done u b h rest :
  is_s32 (p_xid h) -> is_s32 (p_ret h) -> u_buf u = Some b -> u_ok u = true ->
  Z.of_nat (length b) = u_sz u -> u_sz u < 2 ^ 31 -> (24 <= length b)%nat ->
  sub b 4 8 = reply_header_bytes h -> drop 24 b = rest ->
  exists u', unpack_reply_header u = Done (u', h) /\ um_at u' rest.
Proof.
  intros H1 H2 Hb Hok Hl Hs Hlen Hd Hr. unfold reply_header_bytes in Hd.
  assert (Hd4 : drop 4 b = be32 (p_xid h) ++ be32 (p_ret h) ++ drop 12 b).
  { rewrite app_assoc, <- Hd. unfold sub. change 12%nat with (4 + 8)%nat.
    by rewrite <- drop_drop, take_drop. }
  destruct (reads_unpack _ H1 _ _ (um_at_set u b _ 4 Hb Hok Hl Hs ltac:(lia) Hd4)) as (u1 & E1 & U1).
  destruct (reads_unpack _ H2 _ _ U1) as (u2 & E2 & U2).
  exists (set_u_ind u2 RPC_HEADER_SZ). split.
  - unfold unpack_reply_header. change sizeof_rpc_sz with (Z.of_nat 4).
    rewrite E1, bind_Done. cbn [fst snd]. rewrite E2, bind_Done. cbn [fst snd]. by destruct h.
  - apply unpack_same in E1 as [B1 Z1], E2 as [B2 Z2]. cbn in B1, Z1.
    destruct (um_at_buf _ _ U2) as (b2 & Hb2 & Hok2 & Hl2 & Hs2).
    assert (b2 = b) as -> by congruence. by apply (um_at_set u2 b rest 24).
Qed.

Lemma marshall_new_done fill :
  exists m b, marshall_new fill = Done m /\ mar_ok m b /\ m_ind m = 24.
Proof.
  unfold marshall_new. destruct (realloc_done fill [] DEFAULT_RPC_SZ) as (ext & Hr & Hl);
    [unfold DEFAULT_RPC_SZ; simpl; lia .. |].
  rewrite Hr. eexists _, _. split; [reflexivity |]. split; [| done].
  split_and!; [done | exact Hl | by vm_compute ..].
Qed.

(** The buffer after the arguments and a header of [n] bytes went in. *)
Lemma message_parts (b : list Z) (ind : Z) (hdr sz4 l : list Z) :
  (24 <= length b)%nat -> length sz4 = 4%nat -> (length hdr <= 20)%nat ->
  0 <= ind <= Z.of_nat (length b) ->
  take (Z.to_nat ind) b = take 24 b ++ l -> ind = 24 + Z.of_nat (length l) ->
  let pdu := sz4 ++ drop 4 (take (Z.to_nat ind) (splice b 4 hdr)) in
  Z.of_nat (length pdu) = ind /\ sub pdu 4 (length hdr) = hdr /\ drop 24 pdu = l.
Proof.
  intros Hb H4 Hh Hi Hu Hind pdu.
  assert (Hls : length (splice b 4 hdr) = length b) by (apply length_splice; lia).
  assert (Hlp : Z.of_nat (length pdu) = ind).
  { unfold pdu. rewrite length_app, length_drop, length_take, Hls, H4. lia. }
  assert (Hlook : forall i, (4 <= i < Z.to_nat ind)%nat -> pdu !! i = splice b 4 hdr !! i).
  { intros i Hi'. unfold pdu. rewrite lookup_app_r, lookup_drop, lookup_take_lt by lia.
    f_equal. lia. }
  split_and!; [done | |].
  - rewrite <- (sub_splice_same b 4 hdr) by lia.
    rewrite (sub_splice_same b 4 hdr) by lia. apply list_eq. intros i.
    destruct (decide (i < length hdr)%nat) as [Hlt|Hge].
    + rewrite lookup_sub, Hlook, lookup_splice_new by lia. f_equal. lia.
    + rewrite !lookup_ge_None_2; [done | lia |]. rewrite length_sub; lia.
  - apply list_eq. intros i. rewrite lookup_drop.
    assert (Hl : l !! i = take (Z.to_nat ind) b !! (24 + i)%nat).
    { rewrite Hu, lookup_app_r, length_take, Nat.min_l by (rewrite ?length_take; lia).
      f_equal. lia. }
    destruct (decide (24 + i < Z.to_nat ind)%nat).
    + rewrite Hlook, lookup_splice_old, Hl, lookup_take_lt by lia. done.
    + rewrite Hl, lookup_take_ge by lia. apply lookup_ge_None_2. lia.
Qed.

Lemma write_message {A} (c : codec A) fill a :
  c_wf c a -> 24 + Z.of_nat (length (c_enc c a)) < MSG_LIMIT ->
  exists m1 m2 b,
    marshall_new fill = Done m1 /\ c_put c fill a m1 = Done m2 /\ mar_ok m2 b /\
    m_ind m2 = 24 + Z.of_nat (length (c_enc c a)) /\
    take (Z.to_nat (m_ind m2)) b = take 24 b ++ c_enc c a.
Proof.
  intros Ha Hlim. destruct (marshall_new_done fill) as (m1 & b1 & H1 & Hm1 & Hi1).
  destruct (c_emits c fill a Ha m1 b1 Hm1) as (m2 & b2 & H2 & Hm2 & Hi2 & Hu2); [lia |].
  exists m1, m2, b2. split_and!; auto; [lia |]. unfold used in Hu2. rewrite Hu2. f_equal.
  rewrite Hi1 in Hu2. apply (f_equal (take 24)) in Hu2.
  rewrite take_take, Nat.min_l in Hu2 by lia. rewrite Hu2, Hi1.
  rewrite take_app_le, take_take by (destruct Hm1 as (_ & Hl & ? & _); rewrite length_take; lia).
  done.
Qed.

(** ** Arbitrary input *)

Definition um_sane (u : unmarshall) : Prop :=
  exists b, u_buf u = Some b /\ Z.of_nat (length b) = u_sz u /\
    0 <= u_ind u <= u_sz u /\ u_sz u < 2 ^ 31.

Lemma rawbyte_total u :
  um_sane u -> exists u' x, u_rawbyte u = Done (u', x) /\ um_sane u' /\ u_sz u' = u_sz u /\
    u_ind u' = Z.min (u_ind u + 1) (u_sz u) /\
    u_ok u' = u_ok u && (u_ind u + 1 <=? u_sz u).
Proof.
  intros (b & Hb & Hl & Hi & Hs). unfold u_rawbyte. destruct (Z.leb_spec (u_sz u) (u_ind u)) as [Hge|Hlt].
  - eexists _, _. split; [reflexivity |]. cbn [u_sz u_ind u_ok u_buf]. split_and!; [| done | lia |].
    + exists b. cbn. split_and!; auto; lia.
    + destruct (Z.leb_spec (u_ind u + 1) (u_sz u)); [lia |]. by rewrite andb_false_r.
  - rewrite Hb. destruct (lookup_lt_is_Some_2 b (Z.to_nat (u_ind u))) as [c Hc]; [lia |].
    unfold load. destruct (Z.leb_spec 0 (u_ind u)); [| lia]. rewrite Hc, bind_Done.
    eexists _, _. split; [reflexivity |]. rewrite s32_id by (unfold is_s32; lia).
    cbn [u_sz u_ind u_ok u_buf]. split_and!; [| done | lia |].
    + exists b. cbn. split_and!; auto; lia.
    + destruct (Z.leb_spec (u_ind u + 1) (u_sz u)); [| lia]. by rewrite andb_true_r.
Qed.

Lemma lor_bound a b k : 0 <= k -> 0 <= a < 2 ^ k -> 0 <= b < 2 ^ k -> 0 <= Z.lor a b < 2 ^ k.
Proof.
  intros Hk Ha Hb. assert (0 <= Z.lor a b) by (apply Z.lor_nonneg; lia). split; [done |].
  destruct (decide (Z.lor a b = 0)) as [->|]; [lia |].
  apply Z.log2_lt_pow2; [lia |]. rewrite Z.log2_lor by lia.
  assert (Hlog : forall z, 0 <= z < 2 ^ k -> Z.log2 z < k \/ z = 0).
  { intros z Hz. destruct (decide (z = 0)); [by right | left]. apply Z.log2_lt_pow2; lia. }
  pose proof (Z.log2_nonneg a). pose proof (Z.log2_nonneg b).
  destruct (Hlog a Ha) as [? | ->], (Hlog b Hb) as [? | ->]; try done;
    change (Z.log2 0) with 0; lia.
Qed.

Lemma low_byte_shift r k :
  0 <= k <= 24 -> 0 <= Z.shiftl (low_byte r) k < 2 ^ 32.
Proof.
  intros Hk. unfold low_byte. change 0xff with (Z.ones 8). rewrite Z.land_ones by lia.
  rewrite Z.shiftl_mul_pow2 by lia. pose proof (Z.mod_pos_bound (snd r) (2 ^ 8) ltac:(lia)).
  assert (2 ^ k <= 2 ^ 24) by (apply Z.pow_le_mono_r; lia).
  assert (0 < 2 ^ k) by (apply Z.pow_pos_nonneg; lia).
  split; [lia |].
  apply Z.le_lt_trans with ((2 ^ 8 - 1) * 2 ^ 24); [apply Z.mul_le_mono_nonneg; lia | lia].
Qed.

Lemma uint_total u :
  um_sane u -> exists u' x, u_uint u = Done (u', x) /\ um_sane u' /\ is_u32 x /\
    u_ind u' = Z.min (u_ind u + 4) (u_sz u) /\ u_sz u' = u_sz u /\
    u_ok u' = u_ok u && (u_ind u + 4 <=? u_sz u).
Proof.
  intros Hu. assert (Hi : u_ind u <= u_sz u) by (destruct Hu as (? & _ & _ & ? & _); lia).
  destruct (rawbyte_total u Hu) as (u1 & a & E1 & S1 & Z1 & I1 & O1).
  destruct (rawbyte_total u1 S1) as (u2 & b & E2 & S2 & Z2 & I2 & O2).
  destruct (rawbyte_total u2 S2) as (u3 & c & E3 & S3 & Z3 & I3 & O3).
  destruct (rawbyte_total u3 S3) as (u4 & d & E4 & S4 & Z4 & I4 & O4).
  eexists u4, _. split_and!; [| done | | lia | congruence |].
  - unfold u_uint. rewrite E1, bind_Done. cbn [fst]. rewrite E2, bind_Done. cbn [fst].
    rewrite E3, bind_Done. cbn [fst]. rewrite E4, bind_Done. reflexivity.
  - unfold is_u32. repeat apply lor_bound; try lia; try apply low_byte_shift; try lia.
    pose proof (low_byte_shift (u4, d) 0 ltac:(lia)) as H. by rewrite Z.shiftl_0_r in H.
  - rewrite O4, O3, O2, O1, <- !andb_assoc. f_equal. rewrite Z3, Z2, Z1, I3, I2, I1 in *.
    destruct (Z.leb_spec (u_ind u + 1) (u_sz u)), (Z.leb_spec (u_ind u + 4) (u_sz u));
      repeat match goal with |- context [?x <=? ?y] => destruct (Z.leb_spec x y) end; simpl; lia.
Qed.

(** The channel writes the size of the message into its first four bytes. *)
Definition wire (sz4 : list Z) (m : marshall) : option (list Z * Z) :=
  let '(buf, sz, _) := m_take_buf m in
  match buf with
  | Some b => Some (sz4 ++ drop 4 (take (Z.to_nat sz) b), sz)
  | None => None
  end.

(** ** Theorems *)

(** C36: a request survives the trip: the arguments (of any type built from
    the marshallable types) and the header written by the caller are what
    the receiver unpacks, and the whole message is consumed ([okdone]),
    whatever size the channel stores in the first four bytes. *)
Theorem request_roundtrip {A} (c : codec A) fill a h sz4 :
  c_wf c a -> header_wf h -> length sz4 = 4%nat ->
  24 + Z.of_nat (length (c_enc c a)) < MSG_LIMIT ->
  exists m1 m2 m3 pdu sz u1 u2,
    marshall_new fill = Done m1 /\ c_put c fill a m1 = Done m2 /\
    pack_req_header fill h m2 = Done m3 /\ wire sz4 m3 = Some (pdu, sz) /\
    sz = Z.of_nat (length pdu) /\
    unpack_req_header (unmarshall_new pdu sz) = Done (u1, h) /\
    c_get c u1 = Done (u2, a) /\ okdone u2 = true.
Proof.
  intros Ha Hh H4 Hlim. destruct (write_message c fill a Ha Hlim) as (m1 & m2 & b & H1 & H2 & Hm & Hi & Hu).
  destruct (Hm) as (_ & Hl & Hc & Hr).
  destruct (message_parts b (m_ind m2) (req_header_bytes h) sz4 (c_enc c a)) as (Hlp & Hhd & Hrest);
    auto; try lia.
  set (pdu := sz4 ++ drop 4 _) in *.
  assert (Hd4 : drop 4 pdu = req_header_bytes h ++ c_enc c a ++ []).
  { rewrite app_nil_r, <- Hrest. change 24%nat with (4 + length (req_header_bytes h))%nat.
    rewrite <- Hhd at 1. unfold sub. by rewrite <- drop_drop, take_drop. }
  destruct (unpack_req_header_done (unmarshall_new pdu (m_ind m2)) pdu h (c_enc c a ++ []))
    as (u1 & E1 & U1); auto; try (cbn; unfold MSG_LIMIT in *; lia).
  destruct (c_reads c a Ha u1 [] U1) as (u2 & E2 & U2).
  eexists m1, m2, _, pdu, (m_ind m2), u1, u2.
  split_and!; [done | done | by apply pack_req_header_done with (b := b) | done | done | done | done |].
  destruct U2 as (b2 & _ & Hok & Hl2 & Hi2 & _ & Hd). unfold okdone. rewrite Hok. simpl.
  apply (f_equal length) in Hd. rewrite length_drop in Hd. simpl in Hd. lia.
Qed.

Definition demo_header : req_header := ReqHeader 7 (-3) 4000000000 5 (-1).

Lemma request_roundtrip_witness :
  exists m1 m2, marshall_new (fun _ => 9) = Done m1 /\
    c_put (cd_pair cd_ulonglong cd_string) (fun _ => 9) (2 ^ 63 + 1, [104; 105]) m1 = Done m2.
Proof.
  destruct (request_roundtrip (cd_pair cd_ulonglong cd_string) (fun _ => 9) (2 ^ 63 + 1, [104; 105])
              demo_header [0; 0; 0; 0]) as (m1 & m2 & _ & _ & _ & _ & _ & H1 & H2 & _).
  - split; simpl; lia.
  - repeat split; simpl; lia.
  - reflexivity.
  - vm_compute. reflexivity.
  - exists m1, m2. split; assumption.
Defined.

(** A reply survives the trip, as a request does: result and reply header are
    unpacked as they were packed. *)
Theorem reply_roundtrip {A} (c : codec A) fill a h sz4 :
  c_wf c a -> is_s32 (p_xid h) -> is_s32 (p_ret h) -> length sz4 = 4%nat ->
  24 + Z.of_nat (length (c_enc c a)) < MSG_LIMIT ->
  exists m1 m2 m3 pdu sz u1 u2,
    marshall_new fill = Done m1 /\ c_put c fill a m1 = Done m2 /\
    pack_reply_header fill h m2 = Done m3 /\ wire sz4 m3 = Some (pdu, sz) /\
    sz = Z.of_nat (length pdu) /\
    unpack_reply_header (unmarshall_new pdu sz) = Done (u1, h) /\
    c_get c u1 = Done (u2, a) /\ okdone u2 = true.
Proof.
  intros Ha Hx Hret H4 Hlim.
  destruct (write_message c fill a Ha Hlim) as (m1 & m2 & b & H1 & H2 & Hm & Hi & Hu).
  destruct (Hm) as (_ & Hl & Hc & Hr).
  destruct (message_parts b (m_ind m2) (reply_header_bytes h) sz4 (c_enc c a)) as (Hlp & Hhd & Hrest);
    auto; try lia; [simpl; lia |].
  set (pdu := sz4 ++ drop 4 _) in *.
  destruct (unpack_reply_header_done (unmarshall_new pdu (m_ind m2)) pdu h (c_enc c a ++ []))
    as (u1 & E1 & U1); auto; try (cbn; unfold MSG_LIMIT in *; lia).
  { by rewrite app_nil_r. }
  destruct (c_reads c a Ha u1 [] U1) as (u2 & E2 & U2).
  eexists m1, m2, _, pdu, (m_ind m2), u1, u2.
  split_and!; [done | done | by apply pack_reply_header_done with (b := b) | done | done | done | done |].
  destruct U2 as (b2 & _ & Hok & Hl2 & Hi2 & _ & Hd). unfold okdone. rewrite Hok. simpl.
  apply (f_equal length) in Hd. rewrite length_drop in Hd. simpl in Hd. lia.
Qed.

Lemma reply_roundtrip_witness :
  exists m1 m2, marshall_new (fun _ => 9) = Done m1 /\
    c_put (cd_vector cd_int) (fun _ => 9) [1; -2; 3] m1 = Done m2.
Proof.
  destruct (reply_roundtrip (cd_vector cd_int) (fun _ => 9) [1; -2; 3]
              (ReplyHeader 7 (-5)) [0; 0; 0; 0]) as (m1 & m2 & _ & _ & _ & _ & _ & H1 & H2 & _).
  - split; [repeat constructor; unfold is_s32; lia | simpl; lia].
  - unfold is_s32. simpl. lia.
  - unfold is_s32. simpl. lia.
  - reflexivity.
  - vm_compute. reflexivity.
  - exists m1, m2. split; assumption.
Defined.

(** Reading an [unsigned int] from any buffer, whatever it holds, does
    not leave the buffer: with fewer than four bytes left it clears [_ok],
    and only then. *)
Theorem uint_input_checked u :
  um_sane u ->
  exists u' x, u_uint u = Done (u', x) /\ um_sane u' /\ is_u32 x /\
    (u_ok u' = true <-> u_ok u = true /\ u_ind u + 4 <= u_sz u).
Proof.
  intros Hu. destruct (uint_total u Hu) as (u' & x & E & S & X & _ & _ & O).
  exists u', x. split_and!; try done.
  rewrite O, andb_true_iff, Z.leb_le. done.
Qed.

Lemma uint_input_checked_witness :
  exists u' x, u_uint (unmarshall_new [1; 2; 3] 3) = Done (u', x) /\ u_ok u' <> true.
Proof.
  destruct (uint_input_checked (unmarshall_new [1; 2; 3] 3)) as (u' & x & E & _ & _ & O).
  - exists [1; 2; 3]. simpl. repeat split; lia.
  - exists u', x. split; [exact E |]. intros H. apply O in H. destruct H as [_ H].
    simpl in H. lia.
Defined.

(** C40: the length check of a string is made on 32-bit sums: a length field
    so large that adding the position wraps around is accepted, and the copy
    then reads far behind the end of the message.  This is the only way
    reading a string can fault. *)
Theorem string_length_check_wraps s0 u u1 n :
  um_sane u -> u_uint u = Done (u1, n) -> u_ok u1 = true ->
  (u_string s0 u = Fault OutOfBounds <-> 2 ^ 32 <= u_ind u1 + n) /\
  (u_ind u1 + n < 2 ^ 32 -> is_done (u_string s0 u) = true).
Proof.
  intros Hu E Hok. destruct (uint_total u Hu) as (u1' & n' & E' & S & X & _ & _ & _).
  rewrite E in E'. injection E' as <- <-. destruct S as (b & Hb & Hl & Hi & Hs).
  unfold u_string. rewrite E, bind_Done. cbn [fst snd]. rewrite Hok.
  unfold u_rawbytes. rewrite (u32_id (u_sz u1)) by (unfold is_u32; lia). unfold is_u32 in X.
  unfold u32. destruct (Z.le_gt_cases (2 ^ 32) (u_ind u1 + n)) as [Hw|Hw].
  - replace ((u_ind u1 + n) mod 2 ^ 32) with (u_ind u1 + n - 2 ^ 32)
      by (apply Z.mod_unique with 1; lia).
    destruct (Z.ltb_spec (u_sz u1) (u_ind u1 + n - 2 ^ 32)); [lia |]. rewrite Hb.
    unfold load_bytes. rewrite Z2Nat.id by lia.
    destruct (Z.leb_spec (u_ind u1 + n) (Z.of_nat (length b))); [lia |]. rewrite andb_false_r.
    split; [split; [by intros _ | done] | lia].
  - rewrite Z.mod_small by lia. destruct (Z.ltb_spec (u_sz u1) (u_ind u1 + n)); simpl.
    + split; [split; [done | lia] | done].
    + rewrite Hb. unfold load_bytes. rewrite Z2Nat.id by lia.
      destruct (Z.leb_spec 0 (u_ind u1)); [| lia].
      destruct (Z.leb_spec (u_ind u1 + n) (Z.of_nat (length b))); [| lia]. simpl.
      split; [split; [done | lia] | done].
Qed.

Lemma string_length_check_wraps_witness :
  u_string [] (unmarshall_new [255; 255; 255; 255] 4) = Fault OutOfBounds.
Proof.
  destruct (string_length_check_wraps [] (unmarshall_new [255; 255; 255; 255] 4)
              (Unmarshall (Some [255; 255; 255; 255]) 4 4 true) (2 ^ 32 - 1)) as [H _].
  - exists [255; 255; 255; 255]. simpl. repeat split; lia.
  - vm_compute. reflexivity.
  - reflexivity.
  - apply H. simpl. lia.
Defined.
