(* ===== verification/RpcWindow.v ===== *)
(** * At-most-once bookkeeping of the RPC layer (src/rpc/rpc.cc, src/rpc/rpc.h)

    The client's window of received replies ([update_xid_rep]), whose front
    is the acknowledgement a request carries, the server's per-client window
    of replies ([checkduplicate_and_update], [add_reply]), and the timespec
    arithmetic of the retransmission timers.  The client's window is shown to
    acknowledge exactly the contiguous prefix of the answered requests, the
    server's to let each request through at most once. *)

From Stdlib Require Import Sorting.Sorted.
From S2P Require Import Prelude.

(** ** The client's window of received replies *)

Module Client.

(** [insert(it, xid)] before the first larger element, or at the end. *)
Fixpoint window_insert (xid : Z) (w : list Z) : list Z :=
  match w with
  | [] => [xid]
  | y :: w' => if xid <? y then xid :: w else y :: window_insert xid w'
  end.

(** [while (front() + 1 == *it) pop_front()] *)
Fixpoint pop_while (x : Z) (w : list Z) : list Z :=
  match w with
  | [] => []
  | y :: w' => if u32 (y + 1) =? x then pop_while x w' else w
  end.

(** The loop after [compress:]; [k] elements of the list are at or behind
    the iterator, which only elements in front of it can leave. *)
Fixpoint compress (k : nat) (w : list Z) : list Z :=
  match k with
  | O => w
  | S k' =>
      match w !! (length w - k)%nat with
      | Some x => compress k' (pop_while x w)
      | None => w
      end
  end.

Definition update_xid_rep (xid : Z) (w : list Z) : list Z :=
  match w with
  | [] => w
  | front :: _ =>
      if xid <=? front then w
      else let w := window_insert xid w in compress (length w - 1) w
  end.

Definition acked (w : list Z) : Z := default 0 (head w).

End Client.

(** ** The server's window of replies *)

Module Server.

Inductive rpcstate := NEW | INPROGRESS | DONE (b : list Z) (sz : Z) | FORGOTTEN.

Record reply_t := Reply { r_xid : Z; cb_present : bool; r_buf : list Z; r_sz : Z }.

Definition reply_new (xid : Z) : reply_t := Reply xid false [] 0.

(** [for (...; it != end() && it->xid < xid_rep; ++it)], [erase(begin, it)] *)
Fixpoint drop_older (xid_rep : Z) (l : list reply_t) : list reply_t :=
  match l with
  | [] => []
  | r :: l' => if r_xid r <? xid_rep then drop_older xid_rep l' else l
  end.

Definition trim (xid_rep : Z) (l : list reply_t) : list reply_t :=
  match l with
  | [] => []
  | front :: _ =>
      if r_xid front <? xid_rep then
        match drop_older xid_rep l with
        | [] => [reply_new xid_rep]
        | r :: l' => if r_xid r =? xid_rep then r :: l' else reply_new xid_rep :: r :: l'
        end
      else l
  end.

(** The search loop and the insertion behind it. *)
Fixpoint find_or_insert (xid : Z) (l : list reply_t) : rpcstate * list reply_t :=
  match l with
  | [] => (NEW, [reply_new xid])
  | r :: l' =>
      if r_xid r =? xid then
        (if cb_present r then DONE (r_buf r) (r_sz r) else INPROGRESS, l)
      else if xid <? r_xid r then (NEW, reply_new xid :: l)
      else let '(st, l'') := find_or_insert xid l' in (st, r :: l'')
  end.

Definition checkduplicate_and_update (xid xid_rep : Z) (l : list reply_t)
    : outcome (rpcstate * list reply_t) :=
  if negb (xid_rep <? xid) then Fault AssertFailed
  else
    match l with
    | [] => mret (NEW, [reply_new xid_rep; reply_new xid])
    | front :: _ =>
        if xid <=? r_xid front then mret (FORGOTTEN, l)
        else
          let l := trim xid_rep l in
          match last l with
          | Some back =>
              if r_xid back <? xid then mret (NEW, l ++ [reply_new xid])
              else mret (find_or_insert xid l)
          | None => mret (NEW, l ++ [reply_new xid])
          end
    end.

Fixpoint add_reply (xid : Z) (b : list Z) (sz : Z) (l : list reply_t) : outcome (list reply_t) :=
  match l with
  | [] => Fault AssertFailed
  | r :: l' =>
      if r_xid r =? xid then
        if cb_present r then Fault AssertFailed else mret (Reply xid true b sz :: l')
      else l'' ← add_reply xid b sz l'; mret (r :: l'')
  end.

End Server.

(** ** Timers *)

Module Timer.

Record timespec := Timespec { tv_sec : Z; tv_nsec : Z }.

Definition cmp_timespec (a b : timespec) : Z :=
  if tv_sec b <? tv_sec a then 1
  else if tv_sec a <? tv_sec b then -1
  else if tv_nsec b <? tv_nsec a then 1
  else if tv_nsec a <? tv_nsec b then -1
  else 0.

(** The carry loop of [add_timespec], with as many rounds as it can take. *)
Fixpoint carry (fuel : nat) (t : timespec) : outcome timespec :=
  if 1000000000 <? tv_nsec t then
    match fuel with
    | O => Fault OutOfFuel
    | S fuel => carry fuel (Timespec (tv_sec t + 1) (tv_nsec t - 1000000000))
    end
  else Done t.

Definition add_timespec (fuel : nat) (a : timespec) (b : Z) : outcome timespec :=
  let r := Timespec (tv_sec a + Z.quot b 1000) (tv_nsec a + Z.rem b 1000 * 1000000) in
  _ ← verify (0 <=? tv_nsec r);
  carry fuel r.

Definition diff_timespec (end_ start : timespec) : outcome Z :=
  let diff := if tv_sec start <? tv_sec end_ then s32 ((tv_sec end_ - tv_sec start) * 1000) else 0 in
  _ ← verify (negb (diff =? 0) || (tv_sec end_ =? tv_sec start));
  mret (if tv_nsec start <? tv_nsec end_
        then s32 (diff + Z.quot (tv_nsec end_ - tv_nsec start) 1000000)
        else s32 (diff - Z.quot (tv_nsec start - tv_nsec end_) 1000000)).

End Timer.

(** ** The client's window: proofs *)

Section client.
Import Client.

(** Transaction ids stay below the wrap-around. *)
Definition xid_ok (x : Z) : Prop := 0 <= x < 2 ^ 32 - 1.

Lemma xid_succ x : xid_ok x -> u32 (x + 1) = x + 1.
Proof. unfold xid_ok. intros. apply u32_id. unfold is_u32. lia. Qed.

Lemma sorted_app_inv (l k : list Z) x y :
  StronglySorted Z.le (l ++ k) -> x ∈ l -> y ∈ k -> x <= y.
Proof.
  induction l as [|z l IH]; intros Hs Hx Hy; [by apply not_elem_of_nil in Hx |].
  inversion Hs as [|? ? Hs' Hall]; subst. rewrite Forall_forall in Hall.
  apply elem_of_cons in Hx as [->|Hx]; [| by apply IH].
  apply Hall. apply elem_of_app. by right.
Qed.

Lemma sorted_suffix (l k : list Z) : StronglySorted Z.le (l ++ k) -> StronglySorted Z.le k.
Proof. induction l as [|x l IH]; [done |]. intros Hs. inversion Hs; subst. auto. Qed.

Lemma pop_while_all x pre suf :
  Forall (fun y => u32 (y + 1) = x) pre -> u32 (x + 1) <> x ->
  pop_while x (pre ++ x :: suf) = x :: suf.
Proof.
  intros Hp Hx. induction Hp as [|y pre Hy Hp IH]; cbn [app pop_while].
  - destruct (Z.eqb_spec (u32 (x + 1)) x); done.
  - by rewrite Hy, Z.eqb_refl.
Qed.

(** The loop drops the elements before the end of the run that starts at the
    front. *)
Lemma compress_run k f pre suf :
  length suf = k -> StronglySorted Z.le ((f :: pre) ++ suf) ->
  Forall xid_ok ((f :: pre) ++ suf) -> f + 1 ∉ f :: pre ->
  exists pre0 g w, compress k ((f :: pre) ++ suf) = g :: w /\
    (f :: pre) ++ suf = pre0 ++ g :: w /\ (g + 1 ∉ g :: w) /\
    (forall x, f <= x <= g -> x ∈ (f :: pre) ++ suf).
Proof.
  revert f pre suf. induction k as [|k IH]; intros f pre suf Hk Hs Hx Hno.
  - apply nil_length_inv in Hk as ->. rewrite app_nil_r in *.
    exists [], f, pre. split_and!; [done | done | done |]. intros x Hxf.
    replace x with f by lia. left.
  - destruct suf as [|x suf]; [done |]. injection Hk as Hk.
    assert (Hlook : ((f :: pre) ++ x :: suf) !! (length ((f :: pre) ++ x :: suf) - S k)%nat = Some x).
    { rewrite length_app. cbn [length]. replace (_ - S k)%nat with (length (f :: pre) + 0)%nat
        by (simpl; lia). rewrite lookup_app_r by lia. by rewrite Nat.add_comm, Nat.add_sub. }
    cbn [compress]. rewrite Hlook.
    assert (Hf : xid_ok f) by (rewrite Forall_forall in Hx; apply Hx; left).
    assert (Hxx : xid_ok x) by (rewrite Forall_forall in Hx; apply Hx, elem_of_app; right; left).
    destruct (decide (f + 1 = x)) as [He|Hne].
    + rewrite pop_while_all; [| | rewrite xid_succ by done; lia].
      2:{ apply Forall_forall. intros y Hy.
          assert (y <= x) by (apply (sorted_app_inv (f :: pre) (x :: suf)); [done | done | left]).
          assert (f <= y).
          { apply elem_of_cons in Hy as [->|Hy]; [lia |].
            apply (sorted_app_inv [f] (pre ++ x :: suf)); [done | left | apply elem_of_app; by left]. }
          assert (y <> f + 1) by (by intros ->).
          replace y with f by lia. by rewrite xid_succ. }
      destruct (IH x [] suf) as (pre0 & g & w & Hc & Heq & Hg & Hrun); auto.
      * by apply sorted_suffix in Hs.
      * by apply Forall_app in Hx as [_ Hx].
      * rewrite list_elem_of_singleton. lia.
      * exists ((f :: pre) ++ pre0), g, w. cbn [app] in Hc, Heq, Hrun |- *.
        split_and!; [done | by rewrite Heq, <- app_assoc | done |].
        intros y Hy. destruct (decide (y = f)) as [->|]; [left |].
        right. apply elem_of_app. right. apply Hrun. lia.
    + assert (Hp : pop_while x ((f :: pre) ++ x :: suf) = (f :: pre) ++ x :: suf).
      { cbn [app pop_while]. rewrite xid_succ by done. by destruct (Z.eqb_spec (f + 1) x). }
      rewrite Hp. replace ((f :: pre) ++ x :: suf) with ((f :: pre ++ [x]) ++ suf)
        in * by (simpl; by rewrite <- app_assoc).
      apply IH; auto. cbn [app] in Hno |- *. rewrite !elem_of_cons, elem_of_app, list_elem_of_singleton in *.
      intros [|[|]]; try lia. apply Hno. by right.
Qed.

Lemma window_insert_elem xid w x : x ∈ window_insert xid w <-> x = xid \/ x ∈ w.
Proof.
  induction w as [|y w IH]; cbn [window_insert].
  - rewrite list_elem_of_singleton, elem_of_nil. tauto.
  - destruct (_ <? _); rewrite !elem_of_cons, ?IH; tauto.
Qed.

Lemma window_insert_sorted xid w :
  StronglySorted Z.le w -> StronglySorted Z.le (window_insert xid w).
Proof.
  induction 1 as [|y w Hs IH Hall]; cbn [window_insert].
  - repeat constructor.
  - rewrite Forall_forall in Hall. destruct (Z.ltb_spec xid y).
    + constructor; [constructor; [done | by apply Forall_forall] |].
      apply Forall_forall. intros z [->|Hz]%elem_of_cons; [lia |].
      specialize (Hall z Hz). lia.
    + constructor; [done |]. apply Forall_forall. intros z [->|Hz]%window_insert_elem; [lia |].
      by apply Hall.
Qed.

(** The window after the replies in [R] arrived. *)
Definition win_ok (w R : list Z) : Prop :=
  exists f w', w = f :: w' /\ StronglySorted Z.le w /\ Forall xid_ok w /\
    (forall x, x ∈ w -> x = 0 \/ x ∈ R) /\ (forall x, 1 <= x <= f -> x ∈ R) /\
    (forall x, x ∈ R -> x <= f \/ x ∈ w) /\ (f + 1 ∉ w).

Lemma win_ok_new : win_ok [0] [].
Proof.
  exists 0, []. split_and!; [done | repeat constructor | | | lia | |].
  - repeat constructor; unfold xid_ok; lia.
  - intros x Hx. apply list_elem_of_singleton in Hx. by left.
  - intros x Hx. by apply not_elem_of_nil in Hx.
  - rewrite list_elem_of_singleton. lia.
Qed.

Lemma update_xid_rep_ok xid w R :
  win_ok w R -> xid_ok xid -> win_ok (update_xid_rep xid w) (xid :: R).
Proof.
  intros (f & w' & -> & Hs & Hx & Hw & Hrun & HR & Hno) Hxid. cbn [update_xid_rep].
  destruct (Z.leb_spec xid f) as [Hle|Hgt].
  - exists f, w'. split_and!; auto.
    + intros x Hin. destruct (Hw x Hin); [by left | right; by right].
    + intros x Hin. right. auto.
    + intros x [->|Hin]%elem_of_cons; auto.
  - assert (Hins : window_insert xid (f :: w') = f :: window_insert xid w').
    { cbn [window_insert]. destruct (Z.ltb_spec xid f); [lia | done]. }
    rewrite Hins. cbn [length]. rewrite Nat.sub_succ, Nat.sub_0_r.
    pose proof (window_insert_sorted xid _ Hs) as Hs'. rewrite Hins in Hs'.
    assert (Hx' : Forall xid_ok (f :: window_insert xid w')).
    { rewrite <- Hins. apply Forall_forall. intros x Hin%window_insert_elem.
      rewrite Forall_forall in Hx. destruct Hin as [->|Hin]; auto. }
    destruct (compress_run (length (window_insert xid w')) f [] (window_insert xid w'))
      as (pre0 & g & v & Hc & Heq & Hg & Hfg); auto.
    { rewrite list_elem_of_singleton. lia. }
    cbn [app] in Hc, Heq, Hfg. rewrite Hc. rewrite Heq in Hs', Hx'.
    assert (Hin : forall x, x ∈ f :: window_insert xid w' <-> x = xid \/ x ∈ f :: w').
    { intros x. rewrite <- Hins. apply window_insert_elem. }
    assert (Hsub : forall x, x ∈ f :: window_insert xid w' -> x = 0 \/ x ∈ xid :: R).
    { intros x [->|Hx0]%Hin; [right; left |]. destruct (Hw x Hx0); [by left | right; by right]. }
    exists g, v. split_and!; [done | by apply sorted_suffix in Hs' | by apply Forall_app in Hx' as [_ ?]
      | | | | done].
    + intros x Hxv. apply Hsub. rewrite Heq. apply elem_of_app. by right.
    + intros x Hxg. destruct (Z.le_gt_cases x f); [right; apply Hrun; lia |].
      destruct (Hsub x); [apply Hfg; lia | lia | done].
    + intros x HxR. assert (Hx0 : x <= f \/ x ∈ f :: window_insert xid w').
      { apply elem_of_cons in HxR as [->|HxR]; [right; apply Hin; by left |].
        destruct (HR x HxR); [by left | right; apply Hin; by right]. }
      assert (Hfg' : f <= g).
      { assert (Hgin : g ∈ f :: window_insert xid w') by (rewrite Heq; apply elem_of_app; right; left).
        apply elem_of_cons in Hgin as [->|Hgin]; [lia |]. rewrite <- Heq in Hs'.
        by apply (sorted_app_inv [f] (window_insert xid w') f g Hs'); [left |]. }
      destruct Hx0 as [|Hx0]; [left; lia |]. rewrite Heq in Hx0.
      apply elem_of_app in Hx0 as [Hx0|Hx0]; [left | by right].
      apply (sorted_app_inv pre0 (g :: v)); [done | done | left].
Qed.

Definition after_replies (l : list Z) : list Z := fold_left (fun w x => update_xid_rep x w) l [0].

Lemma after_replies_ok l w R :
  Forall xid_ok l -> win_ok w R ->
  exists R', win_ok (fold_left (fun w x => update_xid_rep x w) l w) R' /\
    forall x, x ∈ R' <-> x ∈ l \/ x ∈ R.
Proof.
  revert w R. induction l as [|y l IH]; intros w R Hl Hw.
  - exists R. split; [done |]. intros x. rewrite elem_of_nil. tauto.
  - apply Forall_cons in Hl as [Hy Hl]. cbn [fold_left].
    destruct (IH (update_xid_rep y w) (y :: R)) as (R' & Hok & HR); auto using update_xid_rep_ok.
    exists R'. split; [done |]. intros x. rewrite HR, !elem_of_cons. tauto.
Qed.

End client.

(** ** The server's window: proofs *)

Section server.
Import Server.

Definition xids (l : list reply_t) : list Z := r_xid <$> l.

(** Strictly increasing transaction ids. *)
Definition ordered (l : list reply_t) : Prop := StronglySorted Z.lt (xids l).

Lemma ordered_cons r l : ordered (r :: l) <-> ordered l /\ forall x, x ∈ xids l -> r_xid r < x.
Proof.
  unfold ordered. cbn. split.
  - intros Hs. inversion Hs as [|? ? H1 H2]; subst. rewrite Forall_forall in H2. done.
  - intros [H1 H2]. constructor; [done |]. by apply Forall_forall.
Qed.

Lemma drop_older_spec xid_rep l :
  ordered l ->
  ordered (drop_older xid_rep l) /\
  (forall r, r ∈ l -> r_xid r < xid_rep \/ r ∈ drop_older xid_rep l) /\
  (forall r, r ∈ drop_older xid_rep l -> r ∈ l /\ xid_rep <= r_xid r).
Proof.
  induction l as [|r l IH]; intros Ho.
  - split_and!; [done | auto | intros r Hr; by apply not_elem_of_nil in Hr].
  - destruct (proj1 (ordered_cons r l) Ho) as [Ho' Hlt]. cbn [drop_older].
    destruct (Z.ltb_spec (r_xid r) xid_rep) as [Hl|Hg].
    + destruct (IH Ho') as (H1 & H2 & H3). split_and!; [done | |].
      * intros r' [->|Hr]%elem_of_cons; [by left | auto].
      * intros r' Hr. destruct (H3 r' Hr). split; [by right | done].
    + split_and!; [done | auto |]. intros r' Hr. split; [done |].
      apply elem_of_cons in Hr as [->|Hr]; [done |].
      assert (r_xid r < r_xid r'); [| lia]. apply Hlt. by apply list_elem_of_fmap_2.
Qed.

(** The transaction id at the front: everything up to it is forgotten. *)
Definition front (l : list reply_t) : option Z := r_xid <$> head l.

Lemma trim_spec xid_rep f l :
  ordered l -> front l = Some f ->
  ordered (trim xid_rep l) /\ front (trim xid_rep l) = Some (Z.max f xid_rep) /\
  (forall r, r ∈ l -> r_xid r < Z.max f xid_rep \/ r ∈ trim xid_rep l) /\
  (forall r, r ∈ trim xid_rep l -> r ∈ l \/ (r = reply_new xid_rep /\ Z.max f xid_rep = xid_rep)).
Proof.
  intros Ho Hf. destruct l as [|r0 l]; [done |]. injection Hf as Hf.
  unfold trim. destruct (Z.ltb_spec (r_xid r0) xid_rep) as [Hlt|Hge].
  - destruct (drop_older_spec xid_rep (r0 :: l) Ho) as (H1 & H2 & H3).
    rewrite Z.max_r by lia. destruct (drop_older xid_rep (r0 :: l)) as [|r k] eqn:Hd.
    + split_and!; [repeat constructor | done | |].
      * intros r Hr. destruct (H2 r Hr) as [|Hn]; [by left | by apply not_elem_of_nil in Hn].
      * intros r Hr. apply list_elem_of_singleton in Hr. right. split; [done | lia].
    + destruct (H3 r) as [Hin Hge]; [left |]. destruct (Z.eqb_spec (r_xid r) xid_rep) as [He|Hne].
      * split_and!; [done | unfold front; simpl; by rewrite He | done |]. intros r' Hr'. left. by apply H3.
      * split_and!; [| done | |].
        -- apply ordered_cons. split; [done |]. intros x Hx. cbn in Hx.
           apply elem_of_cons in Hx as [->|Hx]; [simpl; lia |].
           apply ordered_cons in H1 as [_ H1]. specialize (H1 x Hx). simpl. lia.
        -- intros r' Hr'. destruct (H2 r' Hr'); [by left | right; by right].
        -- intros r' [->|Hr']%elem_of_cons; [right; split; [done | lia] | left; by apply H3].
  - rewrite Z.max_l by lia. split_and!; [done | unfold front; simpl; by rewrite Hf | by right | by left].
Qed.

Lemma find_or_insert_spec xid l st l' :
  ordered l -> find_or_insert xid l = (st, l') ->
  ordered l' /\ (forall r, r ∈ l' <-> r ∈ l \/ (st = NEW /\ r = reply_new xid)) /\
  match st with
  | NEW => xid ∉ xids l
  | INPROGRESS => exists r, r ∈ l /\ r_xid r = xid /\ cb_present r = false
  | DONE b sz => exists r, r ∈ l /\ r_xid r = xid /\ cb_present r = true /\ r_buf r = b /\ r_sz r = sz
  | FORGOTTEN => False
  end /\
  (forall f, front l = Some f -> f < xid -> front l' = Some f).
Proof.
  revert st l'. induction l as [|r l IH]; intros st l' Ho H; cbn [find_or_insert] in H.
  - injection H as <- <-. split_and!; [repeat constructor | | apply not_elem_of_nil | done].
    intros r. rewrite list_elem_of_singleton, elem_of_nil. intuition.
  - destruct (proj1 (ordered_cons r l) Ho) as [Ho' Hlt].
    destruct (Z.eqb_spec (r_xid r) xid) as [He|Hne]; [| destruct (Z.ltb_spec xid (r_xid r)) as [Hl|Hg]].
    + injection H as <- <-. split_and!; auto.
      * intros r'. split; [by left |]. intros [|[Hst _]]; [done |]. by destruct (cb_present r).
      * destruct (cb_present r) eqn:E; exists r; split_and!; auto; left.
    + injection H as <- <-. split_and!.
      * apply ordered_cons. split; [done |]. intros x Hx. cbn in Hx.
        apply elem_of_cons in Hx as [->|Hx]; [done |]. specialize (Hlt x Hx). simpl. lia.
      * intros r'. rewrite elem_of_cons. intuition.
      * cbn. rewrite elem_of_cons. intros [->|Hx]; [lia |]. specialize (Hlt xid Hx). lia.
      * intros f [= <-]. lia.
    + destruct (find_or_insert xid l) as [st0 l0] eqn:E. injection H as <- <-.
      destruct (IH st0 l0 Ho' eq_refl) as (H1 & H2 & H3 & H4). split_and!.
      * apply ordered_cons. split; [done |]. intros x Hx. apply list_elem_of_fmap in Hx as (r' & -> & Hr').
        apply H2 in Hr' as [Hr'|[_ ->]]; [apply Hlt; by apply list_elem_of_fmap_2 | simpl; lia].
      * intros r'. rewrite !elem_of_cons, H2. tauto.
      * destruct st0; try done.
        -- cbn. rewrite elem_of_cons. intros [->|Hx]; [lia | done].
        -- destruct H3 as (r' & ? & ?). exists r'. split; [by right | done].
        -- destruct H3 as (r' & ? & ?). exists r'. split; [by right | done].
      * done.
Qed.

Lemma ordered_last l back :
  ordered l -> last l = Some back -> forall r, r ∈ l -> r_xid r <= r_xid back.
Proof.
  intros Ho Hl r Hr. apply last_Some in Hl as [l0 ->]. unfold ordered, xids in Ho.
  rewrite fmap_app in Ho. apply elem_of_app in Hr as [Hr|Hr].
  - induction l0 as [|y l0 IH]; [by apply not_elem_of_nil in Hr |].
    cbn in Ho. inversion Ho as [|? ? Ho' Hall]; subst. rewrite Forall_forall in Hall.
    apply elem_of_cons in Hr as [->|Hr]; [| by apply IH].
    apply Z.lt_le_incl, Hall, elem_of_app. right. left.
  - apply list_elem_of_singleton in Hr as ->. lia.
Qed.

Lemma ordered_snoc l xid :
  ordered l -> (forall r, r ∈ l -> r_xid r < xid) -> ordered (l ++ [reply_new xid]).
Proof.
  induction l as [|r l IH]; intros Ho Hlt; [repeat constructor |].
  apply ordered_cons in Ho as [Ho Hr]. cbn [app]. apply ordered_cons. split.
  - apply IH; [done |]. intros r' Hr'. apply Hlt. by right.
  - intros x Hx. apply list_elem_of_fmap in Hx as (r' & -> & Hr').
    apply elem_of_app in Hr' as [Hr'|Hr']; [apply Hr; by apply list_elem_of_fmap_2 |].
    apply list_elem_of_singleton in Hr' as ->. apply Hlt. left.
Qed.

Lemma front_app l k f : front l = Some f -> front (l ++ k) = Some f.
Proof. by destruct l. Qed.

Lemma front_in l f : front l = Some f -> f ∈ xids l.
Proof. destruct l; [done |]. intros [= <-]. left. Qed.

Lemma front_least l f r : ordered l -> front l = Some f -> r ∈ l -> f <= r_xid r.
Proof.
  destruct l as [|r0 l]; [done |]. intros [_ Hlt]%ordered_cons [= <-] [->|Hr]%elem_of_cons; [lia |].
  apply Z.lt_le_incl, Hlt. by apply list_elem_of_fmap_2.
Qed.

(** What one call finds out and leaves behind. *)
Definition verdict (xid : Z) (l l' : list reply_t) (st : rpcstate) : Prop :=
  match st with
  | NEW => (forall f, front l = Some f -> f < xid) /\ (xid ∉ xids l) /\ xid ∈ xids l'
  | INPROGRESS => exists r, r ∈ l /\ r_xid r = xid /\ cb_present r = false
  | DONE b sz => exists r, r ∈ l /\ r_xid r = xid /\ cb_present r = true /\ r_buf r = b /\ r_sz r = sz
  | FORGOTTEN => l' = l /\ exists f, front l = Some f /\ xid <= f
  end.

(** After trimming, the request is looked up or appended. *)
Lemma lookup_spec xid f l st l' :
  ordered l -> front l = Some f -> f < xid ->
  match last l with
  | Some back =>
      if r_xid back <? xid then (NEW, l ++ [reply_new xid]) else find_or_insert xid l
  | None => (NEW, l ++ [reply_new xid])
  end = (st, l') ->
  ordered l' /\ front l' = Some f /\ verdict xid l l' st /\
  (forall r, r ∈ l' <-> r ∈ l \/ (st = NEW /\ r = reply_new xid)).
Proof.
  intros Ho Hf Hlt H. destruct (last l) as [back|] eqn:Hl;
    [| by apply last_None in Hl as ->].
  destruct (Z.ltb_spec (r_xid back) xid) as [Hb|Hb].
  - injection H as <- <-. pose proof (ordered_last l back Ho Hl) as Hle.
    assert (Hall : forall r, r ∈ l -> r_xid r < xid) by (intros r Hr; specialize (Hle r Hr); lia).
    split_and!; [by apply ordered_snoc | by apply front_app | |].
    + split_and!.
      * intros f' Hf'. rewrite Hf in Hf'. by injection Hf' as <-.
      * intros Hx. apply list_elem_of_fmap in Hx as (r & Hr & Hin). specialize (Hall r Hin). lia.
      * unfold xids. rewrite fmap_app. apply elem_of_app. right. left.
    + intros r. rewrite elem_of_app, list_elem_of_singleton. intuition.
  - destruct (find_or_insert_spec xid l st l' Ho H) as (H1 & H2 & H3 & H4).
    split_and!; [done | by apply H4 | | done].
    destruct st; try done. split_and!; [| done |].
    + intros f' Hf'. rewrite Hf in Hf'. by injection Hf' as <-.
    + apply list_elem_of_fmap. exists (reply_new xid). split; [done |]. apply H2. by right.
Qed.

Lemma check_spec xid xid_rep l st l' :
  ordered l -> checkduplicate_and_update xid xid_rep l = Done (st, l') ->
  xid_rep < xid /\ ordered l' /\ verdict xid l l' st /\
  exists f', front l' = Some f' /\
    (forall f, front l = Some f -> f <= f' /\ (f' = f \/ f' = xid_rep)) /\
    (front l = None -> f' = xid_rep) /\
    (forall r, r ∈ l -> r_xid r <= f' \/ r ∈ l') /\
    (forall r, r ∈ l' -> r ∈ l \/ (r = reply_new xid_rep /\ f' = xid_rep) \/
       (st = NEW /\ r = reply_new xid)).
Proof.
  intros Ho H. unfold checkduplicate_and_update in H.
  destruct (Z.ltb_spec xid_rep xid) as [Hlt|]; [cbn [negb] in H | done]. split; [done |].
  destruct l as [|r0 l].
  - injection H as <- <-. split_and!; [| | exists xid_rep; split_and!; auto].
    + apply ordered_cons. split; [repeat constructor |]. intros x Hx.
      apply list_elem_of_singleton in Hx as ->. done.
    + split_and!; [done | apply not_elem_of_nil | right; left].
    + done.
    + intros r Hr. by apply not_elem_of_nil in Hr.
    + intros r Hr. rewrite !elem_of_cons, elem_of_nil in Hr. intuition.
  - destruct (Z.leb_spec xid (r_xid r0)) as [Hle|Hgt].
    + injection H as <- <-. split_and!; [done | split; [done |]; by exists (r_xid r0) |].
      exists (r_xid r0). split_and!; try done; auto. intros f [= <-]. auto with lia.
    + set (l0 := r0 :: l) in *. assert (Hf : front l0 = Some (r_xid r0)) by done.
      destruct (trim_spec xid_rep (r_xid r0) l0 Ho Hf) as (T1 & T2 & T3 & T4).
      assert (H' : match last (trim xid_rep l0) with
        | Some back => if r_xid back <? xid then (NEW, trim xid_rep l0 ++ [reply_new xid])
                       else find_or_insert xid (trim xid_rep l0)
        | None => (NEW, trim xid_rep l0 ++ [reply_new xid]) end = (st, l')).
      { unfold mret, outcome_ret in H. destruct (last _); [destruct (_ <? _) |]; congruence. }
      destruct (lookup_spec xid _ _ st l' T1 T2 ltac:(lia) H') as (L1 & L2 & L3 & L4).
      split_and!; [done | |].
      * destruct st; try done.
        -- destruct L3 as (V1 & V2 & V3). split_and!; [| | done].
           ++ intros f Hf'. rewrite Hf in Hf'. by injection Hf' as <-.
           ++ intros Hx. apply list_elem_of_fmap in Hx as (r & -> & Hr).
              destruct (T3 r Hr) as [|Ht]; [lia |]. apply V2. by apply list_elem_of_fmap_2.
        -- destruct L3 as (r & Hr & ? & Hcb). exists r. split_and!; auto.
           destruct (T4 r Hr) as [|[Hn _]]; [done |]. rewrite Hn in *. simpl in *. lia.
        -- destruct L3 as (r & Hr & ? & Hcb & ?). exists r. split_and!; auto; try tauto.
           destruct (T4 r Hr) as [|[Hn _]]; [done |]. by rewrite Hn in Hcb.
        -- destruct L3 as [-> (f & Hfr & Hxf)]. rewrite T2 in Hfr. injection Hfr as <-. lia.
      * eexists. split_and!; [exact L2 | | done | |].
        -- intros f Hf'. rewrite Hf in Hf'. injection Hf' as <-. lia.
        -- intros r Hr. destruct (T3 r Hr) as [|Ht]; [left; lia | right; apply L4; by left].
        -- intros r Hr%L4. destruct Hr as [Hr%T4|]; tauto.
Qed.

Lemma add_reply_spec xid b sz l l' :
  ordered l -> add_reply xid b sz l = Done l' ->
  xids l' = xids l /\ (forall r, r ∈ l' -> r ∈ l \/ r = Reply xid true b sz).
Proof.
  revert l'. induction l as [|r l IH]; intros l' Ho H; [done |]. cbn [add_reply] in H.
  apply ordered_cons in Ho as [Ho _]. destruct (Z.eqb_spec (r_xid r) xid) as [He|Hne].
  - destruct (cb_present r); [done |]. injection H as <-. split; [unfold xids; cbn; by rewrite He |].
    intros r' [->|Hr]%elem_of_cons; [by right | left; by right].
  - apply bind_Done_inv in H as (l0 & H0 & H). injection H as <-.
    destruct (IH l0 Ho H0) as [H1 H2]. split; [unfold xids in *; cbn; by rewrite H1 |].
    intros r' [->|Hr]%elem_of_cons; [left; left |]. destruct (H2 r' Hr); [left; by right | by right].
Qed.

Lemma add_reply_finds xid b sz l :
  xid ∈ xids l -> (forall r, r ∈ l -> r_xid r = xid -> cb_present r = false) ->
  exists l', add_reply xid b sz l = Done l' /\ Reply xid true b sz ∈ l'.
Proof.
  induction l as [|r l IH]; intros Hx Hcb; [by apply not_elem_of_nil in Hx |]. cbn [add_reply].
  destruct (Z.eqb_spec (r_xid r) xid) as [He|Hne].
  - rewrite (Hcb r) by (done || left). eexists. split; [done | left].
  - destruct IH as (l' & -> & Hin).
    + apply elem_of_cons in Hx as [|]; [by destruct Hne | done].
    + intros r' Hr'. apply Hcb. by right.
    + exists (r :: l'). split; [done | by right].
Qed.

Lemma ordered_unique l r r' : ordered l -> r ∈ l -> r' ∈ l -> r_xid r = r_xid r' -> r = r'.
Proof.
  induction l as [|y l IH]; intros Ho Hr Hr' He; [by apply not_elem_of_nil in Hr |].
  apply ordered_cons in Ho as [Ho Hlt].
  assert (Hy : forall z, z ∈ l -> r_xid y < r_xid z) by (intros; apply Hlt; by apply list_elem_of_fmap_2).
  apply elem_of_cons in Hr as [->|Hr], Hr' as [->|Hr']; auto.
  - specialize (Hy r' Hr'). lia.
  - specialize (Hy r Hr). lia.
Qed.

(** ** Runs of one client's requests *)

Inductive event :=
| Request (xid xid_rep : Z)             (* checkduplicate_and_update *)
| Finish (xid : Z) (b : list Z) (sz : Z)  (* add_reply *).

(** The window, the requests that were let through, the acknowledgements and
    the replies so far. *)
Record history := History {
  h_window : list reply_t;
  h_new : list Z;
  h_acks : list Z;
  h_replies : list (Z * list Z * Z)
}.

Definition history_start : history := History [] [] [] [].

Definition handle (ev : event) (h : history) : outcome (history * option rpcstate) :=
  match ev with
  | Request xid xid_rep =>
      r ← checkduplicate_and_update xid xid_rep (h_window h);
      mret (History (snd r) (match fst r with NEW => xid :: h_new h | _ => h_new h end)
                    (xid_rep :: h_acks h) (h_replies h), Some (fst r))
  | Finish xid b sz =>
      l ← add_reply xid b sz (h_window h);
      mret (History l (h_new h) (h_acks h) ((xid, b, sz) :: h_replies h), None)
  end.

Inductive reachable : history -> Prop :=
| reach_start : reachable history_start
| reach_step ev h h' o : reachable h -> handle ev h = Done (h', o) -> reachable h'.

Definition hist_ok (h : history) : Prop :=
  ordered (h_window h) /\ NoDup (h_new h) /\
  (forall x, x ∈ h_new h -> x ∈ xids (h_window h) \/ exists f, front (h_window h) = Some f /\ x <= f) /\
  (forall r, r ∈ h_window h -> cb_present r = true -> (r_xid r, r_buf r, r_sz r) ∈ h_replies h) /\
  (forall f, front (h_window h) = Some f -> f ∈ h_acks h) /\
  (forall x, x ∈ xids (h_window h) -> x ∈ h_new h \/ front (h_window h) = Some x).

Lemma handle_ok ev h h' o : hist_ok h -> handle ev h = Done (h', o) -> hist_ok h'.
Proof.
  intros (Ho & Hnd & Hnew & Hrep & Hack & Hrec) H. destruct ev as [xid xid_rep|xid b sz]; cbn [handle] in H.
  - apply bind_Done_inv in H as ([st l] & Hc & H). injection H as <- _.
    destruct (check_spec _ _ _ _ _ Ho Hc) as (_ & Ho' & Hv & f' & Hf' & Hmono & Hnone & Hkeep & Hfrom).
    cbn [fst snd]. split_and!; cbn [h_window h_new h_acks h_replies]; [done | | | | |].
    + destruct st; try done. destruct Hv as (Hfr & Hx & _). apply NoDup_cons. split; [| done].
      intros Hin. destruct (Hnew xid Hin) as [|(f & Hf & Hle)]; [done |].
      specialize (Hfr f Hf). lia.
    + intros x Hx. assert (Hx' : x ∈ h_new h \/ (st = NEW /\ x = xid)).
      { destruct st; try (by left). apply elem_of_cons in Hx. tauto. }
      destruct Hx' as [Hx'|[-> ->]]; [| left; by destruct Hv as (_ & _ & ?)].
      destruct (Hnew x Hx') as [Hin|(f & Hf & Hle)].
      * apply list_elem_of_fmap in Hin as (r & -> & Hr).
        destruct (Hkeep r Hr); [right; by exists f' | left; by apply list_elem_of_fmap_2].
      * right. exists f'. split; [done |]. destruct (Hmono f Hf). lia.
    + intros r Hr Hcb. destruct (Hfrom r Hr) as [Hin|[[-> _]|[_ ->]]]; [auto | done | done].
    + intros f Hf. rewrite Hf' in Hf. injection Hf as <-.
      destruct (front (h_window h)) as [f0|] eqn:Hf0; [| rewrite Hnone by done; left].
      destruct (Hmono f0 eq_refl) as [_ [->| ->]]; [right; by apply Hack | left].
    + intros x Hx. apply list_elem_of_fmap in Hx as (r & -> & Hr).
      assert (Hsub : forall x, x ∈ h_new h -> x ∈ match st with NEW => xid :: h_new h | _ => h_new h end).
      { intros x Hx. destruct st; try done. by right. }
      destruct (Hfrom r Hr) as [Hin|[[-> ->]|[-> ->]]]; [| by right | left; left].
      destruct (Hrec (r_xid r)) as [|Hf0]; [by apply list_elem_of_fmap_2 | left; auto |].
      right. destruct (Hmono _ Hf0) as [Hle _]. pose proof (front_least l f' _ Ho' Hf' Hr).
      rewrite Hf'. f_equal. lia.
  - apply bind_Done_inv in H as (l & Ha & H). injection H as <- _.
    destruct (add_reply_spec _ _ _ _ _ Ho Ha) as [Hx Hin].
    assert (Hfr : front l = front (h_window h)).
    { unfold front. apply (f_equal head) in Hx. unfold xids in Hx.
      destruct l, (h_window h); done. }
    split_and!; cbn [h_window h_new h_acks h_replies]; auto; rewrite ?Hx, ?Hfr; auto.
    + unfold ordered. by rewrite Hx.
    + intros r Hr Hcb. destruct (Hin r Hr) as [Hr'| ->]; [right; auto | left].
Qed.

Lemma reachable_ok h : reachable h -> hist_ok h.
Proof.
  induction 1; [| by eapply handle_ok].
  split_and!; [constructor | constructor | | | done |]; intros ? Hx; by apply not_elem_of_nil in Hx.
Qed.

End server.

(** ** Timers: proofs *)

Section timer.
Import Timer.

Definition nanos (t : timespec) : Z := tv_sec t * 1000000000 + tv_nsec t.

Lemma carry_done fuel t :
  0 <= tv_nsec t -> tv_nsec t <= 1000000000 * (Z.of_nat fuel + 1) ->
  exists t', carry fuel t = Done t' /\ nanos t' = nanos t /\ 0 <= tv_nsec t' <= 1000000000.
Proof.
  revert t. induction fuel as [|fuel IH]; intros [s ns] H0 Hf; cbn [tv_sec tv_nsec] in *; cbn [carry tv_nsec];
    destruct (Z.ltb_spec 1000000000 ns).
  - lia.
  - exists (Timespec s ns). cbn. split_and!; lia || done.
  - destruct (IH (Timespec (s + 1) (ns - 1000000000))) as (t' & Hc & Hn & Hr); cbn; [lia | lia |].
    exists t'. split_and!; try lia; [done |]. rewrite Hn. unfold nanos. cbn. lia.
  - exists (Timespec s ns). cbn. split_and!; lia || done.
Qed.

Lemma add_timespec_done a b :
  0 <= tv_nsec a < 1000000000 -> 0 <= b ->
  exists t, add_timespec 2 a b = Done t /\ nanos t = nanos a + b * 1000000 /\
    0 <= tv_nsec t <= 1000000000.
Proof.
  intros Ha Hb. unfold add_timespec. cbn [tv_sec tv_nsec].
  rewrite Z.quot_div_nonneg, Z.rem_mod_nonneg by lia.
  pose proof (Z.mod_pos_bound b 1000 ltac:(lia)). pose proof (Z.div_mod b 1000 ltac:(lia)).
  destruct (Z.leb_spec 0 (tv_nsec a + b mod 1000 * 1000000)); [| lia].
  cbn [verify]. rewrite bind_Done.
  destruct (carry_done 2 (Timespec (tv_sec a + b / 1000) (tv_nsec a + b mod 1000 * 1000000)))
    as (t & Hc & Hn & Hr); cbn [tv_nsec]; [lia | lia |].
  exists t. split_and!; [done | | lia | lia]. rewrite Hn. unfold nanos. cbn. lia.
Qed.

End timer.

(** ** Theorems *)

Import Server.

(** At most once.  Whatever requests arrive from a client, duplicated,
    reordered and interleaved with the completion of earlier ones, the server
    lets no transaction id through twice; a request it reports as DONE is
    answered with the reply that was recorded for that id, one it reports as
    in progress was let through before, and it forgets an id only when the
    client has acknowledged an id at least as large. *)
Theorem at_most_once h :
  reachable h ->
  NoDup (h_new h) /\
  forall xid xid_rep h' st, handle (Request xid xid_rep) h = Done (h', Some st) ->
    match st with
    | NEW => xid ∉ h_new h
    | INPROGRESS => xid ∈ h_new h
    | DONE b sz => (xid, b, sz) ∈ h_replies h
    | FORGOTTEN => exists a, a ∈ h_acks h /\ xid <= a
    end.
Proof.
  intros Hr. apply reachable_ok in Hr as Hok.
  destruct Hok as (Ho & Hnd & Hnew & Hrep & Hack & Hrec). split; [done |].
  intros xid xid_rep h' st H. cbn [handle] in H.
  apply bind_Done_inv in H as ([st' l] & Hc & H). injection H as <- <-. cbn [fst].
  destruct (check_spec _ _ _ _ _ Ho Hc) as (Hlt & Ho' & Hv & _). destruct st'; cbn [verdict] in Hv.
  - destruct Hv as (Hfr & Hx & _). intros Hin.
    destruct (Hnew xid Hin) as [|(f & Hf & Hle)]; [done |]. specialize (Hfr f Hf). lia.
  - destruct Hv as (r & Hin & <- & _). destruct (Hrec (r_xid r)) as [|Hf]; [by apply list_elem_of_fmap_2 | done |].
    exfalso. unfold checkduplicate_and_update in Hc.
    destruct (_ <? _); [| done]. cbn [negb] in Hc. destruct (h_window h) as [|r0 l0]; [done |].
    injection Hf as Hf. by rewrite Hf, Z.leb_refl in Hc.
  - destruct Hv as (r & Hin & <- & Hcb & <- & <-). by apply Hrep.
  - destruct Hv as (_ & f & Hf & Hle). exists f. split; [by apply Hack | done].
Qed.

Lemma at_most_once_witness :
  exists h, reachable h /\ NoDup (h_new h) /\ h_new h = [2; 1].
Proof.
  set (h := History [reply_new 0; reply_new 1; reply_new 2] [2; 1] [0; 0] []).
  assert (Hr : reachable h).
  { apply (reach_step (Request 2 0)
      (History [reply_new 0; reply_new 1] [1] [0] []) h (Some NEW)).
    - apply (reach_step (Request 1 0) history_start _ (Some NEW)); [constructor | reflexivity].
    - reflexivity. }
  exists h. split; [exact Hr |]. split; [exact (proj1 (at_most_once h Hr)) | reflexivity].
Defined.

(** The reply of a request that was let through can be recorded as long
    as the client has not acknowledged a larger or equal id and no reply was
    recorded for it. *)
Theorem add_reply_recorded h xid b sz :
  reachable h -> xid ∈ h_new h -> (forall a, a ∈ h_acks h -> a < xid) ->
  (forall b' sz', (xid, b', sz') ∉ h_replies h) ->
  exists h', handle (Finish xid b sz) h = Done (h', None) /\ reachable h' /\
    forall xid_rep h'' st, handle (Request xid xid_rep) h' = Done (h'', Some st) ->
      st = DONE b sz.
Proof.
  intros Hr Hin Hacks Hno. apply reachable_ok in Hr as Hok.
  destruct Hok as (Ho & Hnd & Hnew & Hrep & Hack & Hrec).
  assert (Hx : xid ∈ xids (h_window h)).
  { destruct (Hnew xid Hin) as [|(f & Hf & Hle)]; [done |].
    specialize (Hacks f (Hack f Hf)). lia. }
  destruct (add_reply_finds xid b sz (h_window h)) as (l & Ha & Hl); auto.
  { intros r Hr' <-. destruct (cb_present r) eqn:E; [| done].
    by destruct (Hno (r_buf r) (r_sz r)); apply Hrep. }
  set (h' := History l (h_new h) (h_acks h) ((xid, b, sz) :: h_replies h)).
  assert (Hh : handle (Finish xid b sz) h = Done (h', None)) by (cbn [handle]; by rewrite Ha).
  exists h'. split_and!; [done | by eapply reach_step |].
  assert (Hok' : hist_ok h') by (apply (handle_ok (Finish xid b sz) h h' None); [| done]; by apply reachable_ok).
  destruct Hok' as (Ho' & _ & _ & _ & Hack' & _). intros xid_rep h'' st H. cbn [handle] in H.
  apply bind_Done_inv in H as ([st' l'] & Hc & H). injection H as _ <-. cbn [fst].
  destruct (check_spec _ _ _ _ _ Ho' Hc) as (_ & _ & Hv & _). cbn [h_window h'] in *.
  destruct st'; cbn [verdict] in Hv.
  - destruct Hv as (_ & [] & _). by apply (list_elem_of_fmap_2 r_xid) in Hl.
  - destruct Hv as (r & Hrl & Hx' & Hcb). by rewrite (ordered_unique l r _ Ho' Hrl Hl Hx') in Hcb.
  - destruct Hv as (r & Hrl & Hx' & _ & <- & <-). by rewrite (ordered_unique l r _ Ho' Hrl Hl Hx').
  - destruct Hv as (_ & f & Hf & Hle). specialize (Hacks f (Hack' f Hf)). lia.
Qed.

Lemma add_reply_recorded_witness :
  exists h', handle (Finish 1 [7; 8] 2) (History [reply_new 0; reply_new 1] [1] [0] []) = Done (h', None).
Proof.
  destruct (add_reply_recorded (History [reply_new 0; reply_new 1] [1] [0] []) 1 [7; 8] 2)
    as (h' & H & _).
  - apply (reach_step (Request 1 0) history_start _ (Some NEW)); [constructor | reflexivity].
  - left.
  - intros a Ha. apply list_elem_of_singleton in Ha as ->. lia.
  - intros b sz. apply not_elem_of_nil.
  - exists h'. exact H.
Defined.

(** The assertion at the end of add_reply can fail.  A client that gives
    up on request 1 counts it as answered; its request 3 then acknowledges 2
    and makes the server drop the entry of request 1, which is still being
    executed.  When that execution ends, the server aborts. *)
Theorem add_reply_aborts :
  exists h, reachable h /\ 1 ∈ h_new h /\ h_replies h = [] /\
    forall b sz, handle (Finish 1 b sz) h = Fault AssertFailed.
Proof.
  exists (History [reply_new 2; reply_new 3] [3; 2; 1] [2; 0; 0] []). split_and!; try done.
  - apply (reach_step (Request 3 2)
      (History [reply_new 0; reply_new 1; reply_new 2] [2; 1] [0; 0] []) _ (Some NEW)); [| reflexivity].
    apply (reach_step (Request 2 0)
      (History [reply_new 0; reply_new 1] [1] [0] []) _ (Some NEW)); [| reflexivity].
    apply (reach_step (Request 1 0) history_start _ (Some NEW)); [constructor | reflexivity].
  - right. right. left.
Qed.

(** The acknowledgement is sound and as large as it can be: after the
    replies to the ids [l] arrived, in any order and with duplicates, every
    id from 1 up to the front of the window was answered, and the next one
    was not. *)
Theorem acknowledges_prefix l :
  Forall xid_ok l ->
  (forall x, 1 <= x <= Client.acked (after_replies l) -> x ∈ l) /\
  (Client.acked (after_replies l) + 1 ∉ l).
Proof.
  intros Hl. destruct (after_replies_ok l [0] [] Hl win_ok_new) as (R & Hok & HR).
  fold (after_replies l) in Hok.
  destruct Hok as (f & w & Hw & _ & _ & _ & Hrun & HRw & Hno). rewrite Hw. cbn. split.
  - intros x Hx. apply Hrun, HR in Hx as [|Hn]; [done | by apply not_elem_of_nil in Hn].
  - intros Hin. destruct (HRw (f + 1)) as [|Hf]; [apply HR; by left | lia |].
    done.
Qed.

Lemma acknowledges_prefix_witness : Client.acked (after_replies [3; 1; 3; 2; 6]) + 1 ∉ [3; 1; 3; 2; 6].
Proof.
  apply acknowledges_prefix. repeat constructor; unfold xid_ok; lia.
Defined.

(** Adding [b] milliseconds to a time gives the time [b] milliseconds
    later, with at most two rounds of the carry loop, but with a nanosecond
    part that can be a full second: the loop stops at 1000000000, and
    cmp_timespec then orders that time before the same instant written with
    the next second. *)
Theorem add_timespec_correct a b :
  0 <= Timer.tv_nsec a < 1000000000 -> 0 <= b ->
  (exists t, Timer.add_timespec 2 a b = Done t /\ nanos t = nanos a + b * 1000000 /\
     0 <= Timer.tv_nsec t <= 1000000000) /\
  exists t, Timer.add_timespec 2 (Timer.Timespec 5 999000000) 1 = Done t /\
    Timer.tv_nsec t = 1000000000 /\ nanos t = nanos (Timer.Timespec 6 0) /\
    Timer.cmp_timespec t (Timer.Timespec 6 0) = -1.
Proof.
  intros Ha Hb. split; [by apply add_timespec_done |].
  exists (Timer.Timespec 5 1000000000). done.
Qed.

Lemma add_timespec_correct_witness :
  exists t, Timer.add_timespec 2 (Timer.Timespec 10 500000000) 120700 = Done t /\
    nanos t = 131200000000.
Proof.
  destruct (add_timespec_correct (Timer.Timespec 10 500000000) 120700) as [(t & H & Hn & _) _].
  - simpl. lia.
  - lia.
  - exists t. split; [exact H |]. rewrite Hn. reflexivity.
Defined.
