(* ===== verification/LockServer.v ===== *)
(** * The lock servers (src/lock_server.cc, src/lock_server_cache.cc)

    [Simple] is the blocking lock server: a table of lock states, a waiting
    acquire re-examined whenever the condition variable wakes it.  [Cache] is
    the server for caching clients: it revokes the lock from its holder and
    tells the next waiting client to retry.  [acquire_entry] and [release_entry]
    are the parts of the handlers that run under the server's mutex, with the
    client that is called back behind it as part of their results;
    [revoke_callback] and [retry_callback] are the rest of the handlers.
    LockRpc.v has the handlers as a whole. *)

From S2P Require Import Prelude.

(** ** lock_protocol (src/lock_protocol.h) *)

Inductive lkstatus := FREE | LOCKED | EXPECTING.
#[export] Instance lkstatus_eq_dec : EqDecision lkstatus.
Proof. solve_decision. Defined.

Module LP.
Definition OK : Z := 0.
Definition RETRY : Z := 1.
Definition RPCERR : Z := 2.
End LP.

(** rlock_protocol::OK *)
Definition RLOCK_OK : Z := 0.

(** ** The blocking server *)

Module Simple.

Record lock_server := LockServer { nacquire : Z; lock_state : gmap Z lkstatus }.

Definition lock_server_new : lock_server := LockServer 0 ∅.

(** [lock_state[lid]]: a missing entry is created with the value 0, FREE. *)
Definition status_of (lid : Z) (s : lock_server) : lkstatus := default FREE (lock_state s !! lid).

(** One round of the loop of [acquire]: [None] when the caller has to wait. *)
Definition acquire_try (lid : Z) (s : lock_server) : lock_server * option Z :=
  match status_of lid s with
  | FREE => (LockServer (nacquire s) (<[lid := LOCKED]> (lock_state s)), Some LP.OK)
  | st => (LockServer (nacquire s) (<[lid := st]> (lock_state s)), None)
  end.

(** [release], with the value of [r]. *)
Definition release (lid : Z) (s : lock_server) : outcome (lock_server * Z) :=
  match lock_state s !! lid with
  | None => Fault AssertFailed
  | Some LOCKED => mret (LockServer (nacquire s) (<[lid := FREE]> (lock_state s)), LP.OK)
  | Some _ => Fault AssertFailed
  end.

Definition stat (s : lock_server) : Z := nacquire s.

End Simple.

(** ** The stubs of the blocking client (src/lock_client.cc)

    [ret] and [r] are what rpcc::call returns and leaves in the result; an
    error of the RPC layer aborts the client. *)

Module Stub.

Definition lock_call (ret r : Z) : outcome Z := _ ← verify (ret =? LP.OK); mret r.
Definition stat (ret r : Z) : outcome Z := lock_call ret r.
Definition acquire (ret r : Z) : outcome Z := lock_call ret r.
Definition release (ret r : Z) : outcome Z := lock_call ret r.

End Stub.

(** ** The server for caching clients *)

Module Cache.

Record client_state := ClientState { id : string; send_rpc : bool }.

Record lock_state_server := LockState {
  state : lkstatus;
  holding_client : client_state;
  waiting_clients : list string
}.

Definition lock_state_new : lock_state_server := LockState FREE (ClientState EmptyString false) [].

(** [acquire] on the entry of one lock: the new entry, the status returned,
    and the client a revoke is sent to. *)
Definition acquire_entry (cid : string) (s : lock_state_server)
    : outcome (lock_state_server * Z * option string) :=
  match state s with
  | FREE =>
      _ ← verify (bool_decide (waiting_clients s = []));
      mret (LockState LOCKED (ClientState cid false) (waiting_clients s), LP.OK, None)
  | EXPECTING =>
      _ ← verify (bool_decide (id (holding_client s) <> EmptyString));
      if bool_decide (id (holding_client s) = cid) then
        mret (LockState LOCKED (holding_client s) (waiting_clients s), LP.OK,
              if send_rpc (holding_client s) then Some (id (holding_client s)) else None)
      else
        mret (LockState EXPECTING (ClientState (id (holding_client s)) true)
                (waiting_clients s ++ [cid]), LP.RETRY, None)
  | LOCKED =>
      _ ← verify (bool_decide (id (holding_client s) <> EmptyString));
      _ ← verify (bool_decide (id (holding_client s) <> cid));
      if send_rpc (holding_client s) then
        mret (LockState LOCKED (holding_client s) (waiting_clients s ++ [cid]), LP.RETRY, None)
      else
        mret (LockState LOCKED (ClientState (id (holding_client s)) true)
                (waiting_clients s ++ [cid]), LP.RETRY, Some (id (holding_client s)))
  end.

(** [release]: the new entry and the client a retry is sent to. *)
Definition release_entry (cid : string) (s : lock_state_server)
    : outcome (lock_state_server * option string) :=
  _ ← verify (bool_decide (state s = LOCKED));
  _ ← verify (bool_decide (id (holding_client s) = cid));
  match waiting_clients s with
  | [] => mret (LockState FREE (ClientState EmptyString false) [], None)
  | dest :: rest =>
      mret (LockState EXPECTING (ClientState dest (negb (bool_decide (rest = [])))) rest, Some dest)
  end.

(** The callbacks behind the mutex: safebind returned [clrpc], 0 for a null
    pointer, and the call [r].  Only acquire looks at the result. *)
Definition revoke_callback (clrpc r : Z) : outcome unit :=
  _ ← verify (negb (clrpc =? 0)); verify (r =? RLOCK_OK).
Definition retry_callback (clrpc r : Z) : outcome unit := verify (negb (clrpc =? 0)).

(** The whole table. *)
Record lock_server_cache := LockServerCache {
  nacquire : Z;
  lock_states_server : gmap Z lock_state_server
}.

Definition entry (lid : Z) (s : lock_server_cache) : lock_state_server :=
  default lock_state_new (lock_states_server s !! lid).

Definition acquire (lid : Z) (cid : string) (s : lock_server_cache)
    : outcome (lock_server_cache * Z * option string) :=
  r ← acquire_entry cid (entry lid s);
  let '(e, ret, revoke) := r in
  mret (LockServerCache (nacquire s) (<[lid := e]> (lock_states_server s)), ret, revoke).

Definition release (lid : Z) (cid : string) (s : lock_server_cache)
    : outcome (lock_server_cache * Z * option string) :=
  r ← release_entry cid (entry lid s);
  mret (LockServerCache (nacquire s) (<[lid := fst r]> (lock_states_server s)), LP.OK, snd r).

(** [stat] returns a counter that nothing initialises or increments. *)
Definition stat (s : lock_server_cache) : Z * Z := (LP.OK, nacquire s).

End Cache.

(** ** The blocking server: runs *)

Module SimpleRuns.
Import Simple.

(** A client's acquire that is tried (again), and a release by a client that
    holds the lock.  [held] lists the grants not yet returned, as pairs of a
    client and a lock. *)
Record sstate := SState { server : lock_server; held : list (Z * Z) }.

Inductive sstep : sstate -> sstate -> Prop :=
| step_granted clt lid s s' h r :
    acquire_try lid s = (s', Some r) -> sstep (SState s h) (SState s' ((clt, lid) :: h))
| step_wait lid s s' h :
    acquire_try lid s = (s', None) -> sstep (SState s h) (SState s' h)
| step_release clt lid s s' h1 h2 r :
    release lid s = Done (s', r) ->
    sstep (SState s (h1 ++ (clt, lid) :: h2)) (SState s' (h1 ++ h2)).

Inductive sreach : sstate -> Prop :=
| sreach_new : sreach (SState lock_server_new [])
| sreach_step s s' : sreach s -> sstep s s' -> sreach s'.

(** No lock is held twice, and the held locks are the LOCKED entries. *)
Definition sinv (s : sstate) : Prop :=
  NoDup (held s).*2 /\
  (forall lid, status_of lid (server s) = LOCKED <-> lid ∈ (held s).*2) /\
  (forall lid, status_of lid (server s) <> EXPECTING).

Lemma try_status lid s s' r lid' :
  acquire_try lid s = (s', r) ->
  status_of lid' s' = (if decide (lid' = lid) then
                         match r with Some _ => LOCKED | None => status_of lid s end
                       else status_of lid' s) /\
  (r <> None <-> status_of lid s = FREE).
Proof.
  unfold acquire_try. destruct (status_of lid s) eqn:E; intros [= <- <-]; unfold status_of in *;
    cbn [lock_state]; rewrite lookup_insert; repeat case_decide; subst; done.
Qed.

Lemma sstep_inv s s' : sinv s -> sstep s s' -> sinv s'.
Proof.
  intros (Hnd & Hst & Hne) Hstep.
  destruct Hstep as [clt lid s s' h r H|lid s s' h H|clt lid s s' h1 h2 r H]; cbn in *.
  - assert (Hfree : status_of lid s = FREE) by (by apply (try_status lid s s' (Some r) lid H)).
    assert (Hno : lid ∉ h.*2) by (intros Hin; apply Hst in Hin; congruence).
    split_and!; [by apply NoDup_cons | |]; intros lid'; cbn;
      rewrite (proj1 (try_status lid s s' (Some r) lid' H)).
    + rewrite elem_of_cons, <- Hst. case_decide; subst; intuition congruence.
    + by case_decide.
  - split_and!; [done | |]; intros lid'; cbn; rewrite (proj1 (try_status lid s s' None lid' H)).
    + rewrite <- Hst. case_decide; subst; done.
    + by case_decide.
  - unfold release in H. destruct (lock_state s !! lid) as [[]|] eqn:E; try discriminate.
    injection H as <- _. rewrite fmap_app in *. cbn in Hnd, Hst.
    rewrite <- (Permutation_middle h1.*2 h2.*2 lid) in Hnd. apply NoDup_cons in Hnd as [Hno Hnd].
    split_and!; cbn; rewrite ?fmap_app; [done | |]; intros lid';
      unfold status_of in *; cbn [lock_state]; rewrite lookup_insert.
    + rewrite elem_of_app in Hno |- *. specialize (Hst lid'). rewrite elem_of_app, elem_of_cons in Hst.
      case_decide; subst; cbn; intuition congruence.
    + case_decide; [done |]. apply Hne.
Qed.

Lemma sreach_inv s : sreach s -> sinv s.
Proof.
  induction 1; [| by eapply sstep_inv].
  split_and!; [constructor | |]; intros lid; unfold status_of; cbn; rewrite lookup_empty; [| done].
  rewrite elem_of_nil. done.
Qed.

End SimpleRuns.

(** ** Theorems *)

(** The blocking lock server never grants a lock to two clients at a
    time, grants it when it is free, and its release succeeds (the
    assertions hold) exactly for locks that are held. *)
Theorem simple_mutual_exclusion s :
  SimpleRuns.sreach s ->
  NoDup (SimpleRuns.held s).*2 /\
  forall lid,
    (snd (Simple.acquire_try lid (SimpleRuns.server s)) <> None <->
       lid ∉ (SimpleRuns.held s).*2) /\
    (is_done (Simple.release lid (SimpleRuns.server s)) = true <->
       lid ∈ (SimpleRuns.held s).*2).
Proof.
  intros Hr. destruct (SimpleRuns.sreach_inv s Hr) as (Hnd & Hst & Hne). split; [done |].
  intros lid. specialize (Hst lid). specialize (Hne lid).
  unfold Simple.acquire_try, Simple.release, Simple.status_of in *.
  destruct (Simple.lock_state (SimpleRuns.server s) !! lid) as [[]|]; simpl in *;
    intuition congruence.
Qed.

Lemma simple_mutual_exclusion_witness :
  exists s, SimpleRuns.sreach s /\ SimpleRuns.held s = [(9, 7)] /\ NoDup (SimpleRuns.held s).*2.
Proof.
  set (s := SimpleRuns.SState (Simple.LockServer 0 (<[7 := LOCKED]> ∅)) [(9, 7)]).
  assert (Hr : SimpleRuns.sreach s).
  { apply (SimpleRuns.sreach_step (SimpleRuns.SState Simple.lock_server_new [])).
    - constructor.
    - apply (SimpleRuns.step_granted 9 7 _ _ _ LP.OK). reflexivity. }
  exists s. split; [exact Hr |]. split; [reflexivity |]. exact (proj1 (simple_mutual_exclusion s Hr)).
Defined.
