(* ===== verification/LockClient.v ===== *)
(** * The caching lock client (src/lock_client_cache.cc)

    Every method of lock_client_cache runs under the client's mutex, which it
    gives up while it waits for the condition variable or for a remote call.
    Each definition below is one stretch of a method between two such points:
    it takes the entry of the lock and says what the thread does next.  The
    transition system of LockProtocol.v puts the methods together from these
    stretches. *)

From S2P Require Import Prelude LockServer.

(** ** rlock_protocol *)

Module RL.
Inductive rlkstatus := NONE | OWNED | LOCKED | ACQUIRING | WAITING | RELEASING.
#[global] Instance rlkstatus_eq_dec : EqDecision rlkstatus.
Proof. solve_decision. Defined.
Definition OK : Z := 0.
Definition revoke : Z := 0x8001.
Definition retry : Z := 0x8002.
End RL.

Record lock_state_client := LSC { state : RL.rlkstatus; pending : Z }.

Definition lock_state_client_new : lock_state_client := LSC RL.NONE 0.

Definition set_state (s : RL.rlkstatus) (l : lock_state_client) : lock_state_client := LSC s (pending l).

(** ** acquire *)

(** What the calling thread does when it gives up the mutex. *)
Inductive acq_next :=
| Granted          (* acquire returns OK *)
| CallAcquire      (* _rpc_call(lock_protocol::acquire, lid) *)
| Sleep            (* pthread_cond_wait *).

(** From the entry, or from the wake-up, to the next point where the mutex is
    given up: [if (OWNED) ...; else do { if (NONE) ...; wait } while (...)]. *)
Definition acquire_top (l : lock_state_client) : lock_state_client * acq_next :=
  match state l with
  | RL.OWNED => (set_state RL.LOCKED l, Granted)
  | RL.NONE => (set_state RL.ACQUIRING l, CallAcquire)
  | _ => (l, Sleep)
  end.

(** After the first remote call; [CallAcquire] is then the second one. *)
Definition acquire_reply (r : Z) (l : lock_state_client) : outcome (lock_state_client * acq_next) :=
  _ ← verify (bool_decide (state l = RL.ACQUIRING));
  if r =? LP.OK then mret (set_state RL.LOCKED l, Granted)
  else
    let l := set_state RL.WAITING l in
    _ ← verify (negb (pending l =? RL.revoke));
    if pending l =? RL.retry then mret (LSC RL.WAITING 0, CallAcquire)
    else mret (l, Sleep).

(** After the second one. *)
Definition acquire_reply2 (r : Z) (l : lock_state_client) : outcome lock_state_client :=
  _ ← verify (r =? LP.OK);
  mret (set_state RL.LOCKED l).

(** ** release *)

Inductive rel_next :=
| Finished (broadcast : bool)
| CallRelease      (* dorelease and _rpc_call(lock_protocol::release, lid) *).

Definition release_top (l : lock_state_client) : outcome (lock_state_client * rel_next) :=
  _ ← verify (bool_decide (state l = RL.LOCKED));
  _ ← verify (negb (pending l =? RL.retry));
  if pending l =? 0 then mret (set_state RL.OWNED l, Finished true)
  else mret (LSC RL.RELEASING 0, CallRelease).

(** [need_to_wakeup] is still false here. *)
Definition release_reply (r : Z) (l : lock_state_client) : outcome (lock_state_client * rel_next) :=
  _ ← verify (r =? RL.OK);
  _ ← verify (bool_decide (state l = RL.RELEASING));
  mret (set_state RL.NONE l, Finished false).

(** ** revoke_handler *)

Definition revoke_top (l : lock_state_client) : outcome (lock_state_client * rel_next) :=
  _ ← verify (negb (bool_decide (state l = RL.NONE)));
  _ ← verify (pending l =? 0);
  if bool_decide (state l = RL.OWNED) then mret (set_state RL.RELEASING l, CallRelease)
  else mret (LSC (state l) RL.revoke, Finished false).

Definition revoke_reply (r : Z) (l : lock_state_client) : outcome (lock_state_client * rel_next) :=
  _ ← verify (r =? LP.OK);
  mret (set_state RL.NONE l, Finished true).

(** ** retry_handler *)

Inductive ret_next :=
| Ended (broadcast : bool)
| CallAgain.

Definition retry_top (l : lock_state_client) : outcome (lock_state_client * ret_next) :=
  _ ← verify (pending l =? 0);
  _ ← verify (bool_decide (state l = RL.ACQUIRING) || bool_decide (state l = RL.WAITING));
  if bool_decide (state l = RL.ACQUIRING) then mret (LSC (state l) RL.retry, Ended false)
  else mret (l, CallAgain).

Definition retry_reply (r : Z) (l : lock_state_client) : outcome (lock_state_client * ret_next) :=
  _ ← verify (r =? LP.OK);
  mret (set_state RL.OWNED l, Ended true).

(** ** The table of one client *)

Definition lsc (lid : Z) (m : gmap Z lock_state_client) : lock_state_client :=
  default lock_state_client_new (m !! lid).

Definition on_lock {A} (lid : Z) (f : lock_state_client -> outcome (lock_state_client * A))
    (m : gmap Z lock_state_client) : outcome (gmap Z lock_state_client * A) :=
  r ← f (lsc lid m); mret (<[lid := fst r]> m, snd r).

(** A client that has the lock cached acquires and releases it without any
    remote call. *)
Definition cached_section (lid : Z) (m : gmap Z lock_state_client)
    : outcome (gmap Z lock_state_client * acq_next * rel_next) :=
  a ← on_lock lid (fun l => mret (acquire_top l)) m;
  b ← on_lock lid release_top (fst a);
  mret (fst b, snd a, snd b).

(** ** Theorems *)

(** Caching: a client that owns a lock nobody asks for acquires it
    without a remote call, and releasing it again (no remote call either)
    wakes its other threads and leaves the table as it was. *)
Theorem cached_section_local lid m :
  lsc lid m = LSC RL.OWNED 0 ->
  exists m', cached_section lid m = Done (m', Granted, Finished true) /\
    lsc lid m' = LSC RL.OWNED 0 /\ forall k, k <> lid -> m' !! k = m !! k.
Proof.
  intros Hl. set (m1 := <[lid := LSC RL.LOCKED 0]> m).
  assert (H1 : on_lock lid (fun l => mret (acquire_top l)) m = Done (m1, Granted)).
  { unfold on_lock. rewrite Hl. done. }
  assert (H2 : on_lock lid release_top m1 = Done (<[lid := LSC RL.OWNED 0]> m1, Finished true)).
  { unfold on_lock, lsc, m1. by rewrite lookup_insert_eq. }
  exists (<[lid := LSC RL.OWNED 0]> m1). split_and!.
  - unfold cached_section. rewrite H1, bind_Done. cbn [fst snd]. by rewrite H2.
  - unfold lsc. by rewrite lookup_insert_eq.
  - intros k Hk. unfold m1. by rewrite !lookup_insert_ne.
Qed.

Lemma cached_section_local_witness :
  exists m', cached_section 3 (<[3 := LSC RL.OWNED 0]> ∅) = Done (m', Granted, Finished true).
Proof.
  destruct (cached_section_local 3 (<[3 := LSC RL.OWNED 0]> ∅)) as (m' & H & _).
  - reflexivity.
  - exists m'. exact H.
Defined.
