(* ===== verification/LockProtocol.v ===== *)
(** * The caching lock protocol

    Any number of clients, each with any number of threads, and the lock
    server, for one lock.  A thread is described by the remote call it waits
    for; remote calls are answered and callbacks delivered in any order.  (The
    server answers a call only after the callback it makes has returned;
    letting the answer overtake the callback only adds behaviours.)

    The transitions are the stretches of code of LockServer.v and
    LockClient.v.  The invariant [inv] lists the situations a client can be
    in, together with what the server knows about it; mutual exclusion and
    the absence of failing assertions follow. *)

From S2P Require Import Prelude LockServer LockClient.

(** ** Threads and clients *)

(** A remote call: sent, or answered but not yet received. *)
Inductive rpc := Sent | Reply (r : Z).

(** A thread of a client, other than the ones asleep in acquire. *)
Inductive pc :=
| Acq1 (q : rpc)     (* acquire, first call *)
| Acq2 (q : rpc)     (* acquire, call after a pending retry *)
| Hold               (* between acquire and release *)
| Rel (q : rpc)      (* release *)
| Rvk (q : rpc)      (* revoke_handler *)
| Rty (q : rpc)      (* retry_handler *).

Record node := Node {
  lock : lock_state_client;
  asleep : nat;             (* threads in pthread_cond_wait *)
  active : list pc;         (* all other threads *)
  revokes : nat;            (* revoke calls on their way to the client *)
  retries : nat             (* retry calls on their way to the client *)
}.

Definition node_new : node := Node lock_state_client_new 0 [] 0 0.

Record sys := Sys { srv : Cache.lock_state_server; nodes : string -> node }.

Definition sys_new : sys := Sys Cache.lock_state_new (fun _ => node_new).

Definition put (c : string) (n : node) (ns : string -> node) : string -> node :=
  fun d => if decide (d = c) then n else ns d.

Definition send_revoke (o : option string) (ns : string -> node) : string -> node :=
  match o with
  | None => ns
  | Some d => let n := ns d in
      put d (Node (lock n) (asleep n) (active n) (S (revokes n)) (retries n)) ns
  end.

Definition send_retry (o : option string) (ns : string -> node) : string -> node :=
  match o with
  | None => ns
  | Some d => let n := ns d in
      put d (Node (lock n) (asleep n) (active n) (revokes n) (S (retries n))) ns
  end.

(** The node after a thread of it took a step in acquire. *)
Definition after_acquire (again : pc) (r : lock_state_client * acq_next) (n : node) (rest : list pc)
    (sleepers : nat) : node :=
  match snd r with
  | Granted => Node (fst r) sleepers (Hold :: rest) (revokes n) (retries n)
  | CallAcquire => Node (fst r) sleepers (again :: rest) (revokes n) (retries n)
  | Sleep => Node (fst r) (S sleepers) rest (revokes n) (retries n)
  end.

Definition after_release (again : pc) (r : lock_state_client * rel_next) (n : node) (rest : list pc)
    (rv : nat) : node :=
  match snd r with
  | Finished _ => Node (fst r) (asleep n) rest rv (retries n)
  | CallRelease => Node (fst r) (asleep n) (again :: rest) rv (retries n)
  end.

Definition after_retry (r : lock_state_client * ret_next) (n : node) (rest : list pc) (rt : nat)
    : node :=
  match snd r with
  | Ended _ => Node (fst r) (asleep n) rest (revokes n) rt
  | CallAgain => Node (fst r) (asleep n) (Rty Sent :: rest) (revokes n) rt
  end.

(** ** Transitions

    [act] names a transition; [enabled] says when it can happen, [fire] runs
    the code, which can fault. *)

Inductive act :=
| NewAcquire (c : string)                  (* a thread calls acquire *)
| Wake (c : string)                        (* a sleeping thread wakes up *)
| AcqDone (c : string) (l1 : list pc) (r : Z) (l2 : list pc)
| Acq2Done (c : string) (l1 : list pc) (r : Z) (l2 : list pc)
| CallRel (c : string) (l1 l2 : list pc)   (* the holder calls release *)
| RelDone (c : string) (l1 : list pc) (r : Z) (l2 : list pc)
| GetRevoke (c : string)                   (* a revoke call arrives *)
| RvkDone (c : string) (l1 : list pc) (r : Z) (l2 : list pc)
| GetRetry (c : string)                    (* a retry call arrives *)
| RtyDone (c : string) (l1 : list pc) (r : Z) (l2 : list pc)
| SrvAcquire (c : string) (l1 : list pc) (k : rpc -> pc) (l2 : list pc)
| SrvRelease (c : string) (l1 : list pc) (k : rpc -> pc) (l2 : list pc).

Definition client_of (a : act) : string :=
  match a with
  | NewAcquire c | Wake c | AcqDone c _ _ _ | Acq2Done c _ _ _ | CallRel c _ _ | RelDone c _ _ _
  | GetRevoke c | RvkDone c _ _ _ | GetRetry c | RtyDone c _ _ _ | SrvAcquire c _ _ _
  | SrvRelease c _ _ _ => c
  end.

(** A client is called by its address, which is not empty. *)
Definition enabled (a : act) (s : sys) : Prop :=
  client_of a <> EmptyString /\
  match a with
  | NewAcquire c => True
  | Wake c => asleep (nodes s c) <> 0%nat
  | AcqDone c l1 r l2 => active (nodes s c) = l1 ++ Acq1 (Reply r) :: l2
  | Acq2Done c l1 r l2 => active (nodes s c) = l1 ++ Acq2 (Reply r) :: l2
  | CallRel c l1 l2 => active (nodes s c) = l1 ++ Hold :: l2
  | RelDone c l1 r l2 => active (nodes s c) = l1 ++ Rel (Reply r) :: l2
  | GetRevoke c => revokes (nodes s c) <> 0%nat
  | RvkDone c l1 r l2 => active (nodes s c) = l1 ++ Rvk (Reply r) :: l2
  | GetRetry c => retries (nodes s c) <> 0%nat
  | RtyDone c l1 r l2 => active (nodes s c) = l1 ++ Rty (Reply r) :: l2
  | SrvAcquire c l1 k l2 =>
      active (nodes s c) = l1 ++ k Sent :: l2 /\ (k = Acq1 \/ k = Acq2 \/ k = Rty)
  | SrvRelease c l1 k l2 =>
      active (nodes s c) = l1 ++ k Sent :: l2 /\ (k = Rel \/ k = Rvk)
  end.

Definition fire (a : act) (s : sys) : outcome sys :=
  let on c (n : node) := mret (Sys (srv s) (put c n (nodes s))) in
  match a with
  | NewAcquire c =>
      let n := nodes s c in
      on c (after_acquire (Acq1 Sent) (acquire_top (lock n)) n (active n) (asleep n))
  | Wake c =>
      let n := nodes s c in
      on c (after_acquire (Acq1 Sent) (acquire_top (lock n)) n (active n) (pred (asleep n)))
  | AcqDone c l1 r l2 =>
      let n := nodes s c in
      x ← acquire_reply r (lock n);
      on c (after_acquire (Acq2 Sent) x n (l1 ++ l2) (asleep n))
  | Acq2Done c l1 r l2 =>
      let n := nodes s c in
      x ← acquire_reply2 r (lock n);
      on c (Node x (asleep n) (Hold :: l1 ++ l2) (revokes n) (retries n))
  | CallRel c l1 l2 =>
      let n := nodes s c in
      x ← release_top (lock n);
      on c (after_release (Rel Sent) x n (l1 ++ l2) (revokes n))
  | RelDone c l1 r l2 =>
      let n := nodes s c in
      x ← release_reply r (lock n);
      on c (after_release (Rel Sent) x n (l1 ++ l2) (revokes n))
  | GetRevoke c =>
      let n := nodes s c in
      x ← revoke_top (lock n);
      on c (after_release (Rvk Sent) x n (active n) (pred (revokes n)))
  | RvkDone c l1 r l2 =>
      let n := nodes s c in
      x ← revoke_reply r (lock n);
      on c (after_release (Rvk Sent) x n (l1 ++ l2) (revokes n))
  | GetRetry c =>
      let n := nodes s c in
      x ← retry_top (lock n);
      on c (after_retry x n (active n) (pred (retries n)))
  | RtyDone c l1 r l2 =>
      let n := nodes s c in
      x ← retry_reply r (lock n);
      on c (after_retry x n (l1 ++ l2) (retries n))
  | SrvAcquire c l1 k l2 =>
      let n := nodes s c in
      x ← Cache.acquire_entry c (srv s);
      let '(e, r, rv) := x in
      mret (Sys e (send_revoke rv
        (put c (Node (lock n) (asleep n) (l1 ++ k (Reply r) :: l2) (revokes n) (retries n)) (nodes s))))
  | SrvRelease c l1 k l2 =>
      let n := nodes s c in
      x ← Cache.release_entry c (srv s);
      mret (Sys (fst x) (send_retry (snd x)
        (put c (Node (lock n) (asleep n) (l1 ++ k (Reply LP.OK) :: l2) (revokes n) (retries n)) (nodes s))))
  end.

(** The client that the server calls back behind a transition, and that part of
    its handler. *)
Definition callback (x : act) (s : sys) : option string :=
  match x with
  | SrvAcquire c _ _ _ => match Cache.acquire_entry c (srv s) with Done (_, _, rv) => rv | Fault _ => None end
  | SrvRelease c _ _ _ => match Cache.release_entry c (srv s) with Done (_, rt) => rt | Fault _ => None end
  | _ => None
  end.

Definition revokes_lock (x : act) : bool := match x with SrvAcquire _ _ _ _ => true | _ => false end.

Definition callback_end (revoke : bool) (clrpc r : Z) : outcome unit :=
  if revoke then Cache.revoke_callback clrpc r else Cache.retry_callback clrpc r.

Inductive reachable : sys -> Prop :=
| reach_new : reachable sys_new
| reach_fire a s s' : reachable s -> enabled a s -> fire a s = Done s' -> reachable s'.

(** ** What the server knows of a client *)

Inductive view := VN | VW | VE | VL (revoked : bool).

Definition holder (e : Cache.lock_state_server) : string := Cache.id (Cache.holding_client e).

Definition view_of (e : Cache.lock_state_server) (c : string) : view :=
  if decide (c ∈ Cache.waiting_clients e) then VW
  else if decide (holder e = c) then
    match Cache.state e with
    | FREE => VN
    | LOCKED => VL (Cache.send_rpc (Cache.holding_client e))
    | EXPECTING => VE
    end
  else VN.

Definition srv_ok (e : Cache.lock_state_server) : Prop :=
  NoDup (Cache.waiting_clients e) /\ (EmptyString ∉ Cache.waiting_clients e) /\
  match Cache.state e with
  | FREE => Cache.waiting_clients e = []
  | _ => (holder e ∉ Cache.waiting_clients e) /\ holder e <> EmptyString
  end.

(** The situations of a client that holds the lock in the server's eyes and
    has not been told to give it up, is about to be told, or was told. *)
Inductive granted : view -> Z -> nat -> Prop :=
| granted_quiet : granted (VL false) 0 0
| granted_revoke_sent : granted (VL true) 0 1
| granted_revoke_pending : granted (VL true) RL.revoke 0.

Inductive cfg : view -> RL.rlkstatus -> Z -> list pc -> nat -> nat -> Prop :=
| cfg_none : cfg VN RL.NONE 0 [] 0 0
| cfg_asking : cfg VN RL.ACQUIRING 0 [Acq1 Sent] 0 0
| cfg_got v p rv : granted v p rv -> cfg v RL.ACQUIRING p [Acq1 (Reply LP.OK)] rv 0
| cfg_refused : cfg VW RL.ACQUIRING 0 [Acq1 (Reply LP.RETRY)] 0 0
| cfg_refused_retry : cfg VE RL.ACQUIRING 0 [Acq1 (Reply LP.RETRY)] 0 1
| cfg_refused_pending : cfg VE RL.ACQUIRING RL.retry [Acq1 (Reply LP.RETRY)] 0 0
| cfg_waiting : cfg VW RL.WAITING 0 [] 0 0
| cfg_waiting_retry : cfg VE RL.WAITING 0 [] 0 1
| cfg_again k : k = Acq2 \/ k = Rty -> cfg VE RL.WAITING 0 [k Sent] 0 0
| cfg_again_got k v p rv : k = Acq2 \/ k = Rty -> granted v p rv ->
    cfg v RL.WAITING p [k (Reply LP.OK)] rv 0
| cfg_owned v p rv : granted v p rv -> cfg v RL.OWNED p [] rv 0
| cfg_locked v p rv : granted v p rv -> cfg v RL.LOCKED p [Hold] rv 0
| cfg_releasing k : k = Rel \/ k = Rvk -> cfg (VL true) RL.RELEASING 0 [k Sent] 0 0
| cfg_released k : k = Rel \/ k = Rvk -> cfg VN RL.RELEASING 0 [k (Reply LP.OK)] 0 0.

Definition node_ok (v : view) (n : node) : Prop :=
  cfg v (state (lock n)) (pending (lock n)) (active n) (revokes n) (retries n).

Definition inv (s : sys) : Prop :=
  srv_ok (srv s) /\ forall c, c <> EmptyString -> node_ok (view_of (srv s) c) (nodes s c).

(** ** Lemmas on the server's view *)

Lemma view_waiting e c : c ∈ Cache.waiting_clients e -> view_of e c = VW.
Proof. intros. unfold view_of. by rewrite decide_True. Qed.

Lemma view_VL e c rv : view_of e c = VL rv ->
  (c ∉ Cache.waiting_clients e) /\ holder e = c /\ Cache.state e = LOCKED /\
  Cache.send_rpc (Cache.holding_client e) = rv.
Proof.
  unfold view_of. repeat case_decide; try done. destruct (Cache.state e); try done. by intros [= <-].
Qed.

Lemma view_VE e c : view_of e c = VE ->
  (c ∉ Cache.waiting_clients e) /\ holder e = c /\ Cache.state e = EXPECTING.
Proof. unfold view_of. repeat case_decide; try done. by destruct (Cache.state e). Qed.

Lemma view_VN e c : srv_ok e -> view_of e c = VN ->
  (c ∉ Cache.waiting_clients e) /\ (Cache.state e <> FREE -> holder e <> c).
Proof.
  intros _. unfold view_of. repeat case_decide; try done. by destruct (Cache.state e).
Qed.

(** Membership in a waiting list, and views of concrete entries. *)
Ltac waiting :=
  rewrite ?elem_of_app, ?list_elem_of_singleton, ?elem_of_cons, ?elem_of_nil in *;
  try tauto; try (intuition congruence).

Ltac views :=
  unfold view_of, holder;
  cbn [Cache.state Cache.holding_client Cache.waiting_clients Cache.id Cache.send_rpc];
  repeat case_decide; try done; solve [exfalso; waiting].

Ltac entry :=
  cbn [Cache.state Cache.holding_client Cache.waiting_clients Cache.id Cache.send_rpc].

Ltac not_waiting := match goal with |- _ ∉ _ => waiting end.

Lemma NoDup_push (w : list string) c : NoDup w -> c ∉ w -> NoDup (w ++ [c]).
Proof.
  intros Hnd Hc. apply NoDup_app. split_and!; [done | | apply NoDup_singleton].
  intros d Hd. waiting.
Qed.

(** The server serves an acquire of a client it knows nothing about. *)
Lemma acquire_from_none e c :
  srv_ok e -> c <> EmptyString -> view_of e c = VN ->
  exists e' r rv, Cache.acquire_entry c e = Done (e', r, rv) /\ srv_ok e' /\
    ((r = LP.OK /\ view_of e' c = VL false /\ rv = None) \/
     (r = LP.RETRY /\ view_of e' c = VW)) /\
    (forall d, d <> c -> rv <> Some d -> view_of e' d = view_of e d) /\
    (forall d, rv = Some d -> d <> c /\ view_of e d = VL false /\ view_of e' d = VL true).
Proof.
  intros Hok Hc Hv. destruct (view_VN e c Hok Hv) as [Hw Hh]. clear Hv.
  destruct Hok as (Hnd & Hne & Hst). destruct e as [st [h snd_] w]. unfold holder in Hh, Hst.
  cbn [Cache.state Cache.holding_client Cache.waiting_clients Cache.id Cache.send_rpc] in *.
  pose proof (NoDup_push w c Hnd Hw) as Hpush. unfold Cache.acquire_entry, srv_ok, holder.
  cbn [Cache.state Cache.holding_client Cache.waiting_clients Cache.id Cache.send_rpc].
  destruct st; [| destruct Hst as [Hhw Hh0]; specialize (Hh ltac:(done)) ..].
  - subst w. rewrite bool_decide_eq_true_2 by done. eexists _, _, _. split; [reflexivity |].
    split_and!; try done.
    + left. split_and!; try done. views.
    + intros d Hd _. views.
  - rewrite !bool_decide_eq_true_2 by done. cbn [verify]. rewrite !bind_Done.
    destruct snd_; eexists _, _, _; (split; [reflexivity |]).
    + entry; split_and!; try done; try not_waiting.
      * right. split; [done |]. views.
      * intros d Hd _. views.
    + entry; split_and!; try done; try not_waiting.
      * right. split; [done |]. views.
      * intros d Hd Hrv. assert (h <> d) by congruence. views.
      * intros d [= <-]. split_and!; [done | views | views].
  - rewrite (bool_decide_eq_true_2 (h <> EmptyString)) by done. cbn [verify]. rewrite !bind_Done.
    rewrite bool_decide_eq_false_2 by done. eexists _, _, _. split; [reflexivity |].
    entry; split_and!; try done; try not_waiting.
    + right. split; [done |]. views.
    + intros d Hd _. views.
Qed.

(** It serves the acquire it expects. *)
Lemma acquire_expected e c :
  srv_ok e -> view_of e c = VE ->
  exists e' rv b, Cache.acquire_entry c e = Done (e', LP.OK, rv) /\ srv_ok e' /\
    view_of e' c = VL b /\ rv = (if b then Some c else None) /\
    (forall d, d <> c -> view_of e' d = view_of e d).
Proof.
  intros Hok Hv. destruct (view_VE e c Hv) as (Hw & Hh & Hst).
  destruct Hok as (Hnd & Hne & Hok). destruct e as [st [h snd_] w]. unfold holder in Hh, Hok.
  cbn [Cache.state Cache.holding_client Cache.waiting_clients Cache.id Cache.send_rpc] in *. subst.
  unfold Cache.acquire_entry.
  cbn [Cache.state Cache.holding_client Cache.waiting_clients Cache.id Cache.send_rpc].
  rewrite (bool_decide_eq_true_2 (c <> EmptyString)) by tauto. cbn [verify]. rewrite bind_Done.
  rewrite bool_decide_eq_true_2 by done. eexists _, _, snd_. split; [reflexivity |].
  split_and!; try done; [views |]. intros d Hd. views.
Qed.

(** It serves a release of the holder. *)
Lemma release_from_holder e c b :
  srv_ok e -> view_of e c = VL b ->
  exists e' rt, Cache.release_entry c e = Done (e', rt) /\ srv_ok e' /\ view_of e' c = VN /\
    (forall d, d <> c -> rt <> Some d -> view_of e' d = view_of e d) /\
    (forall d, rt = Some d -> d <> c /\ view_of e d = VW /\ view_of e' d = VE).
Proof.
  intros Hok Hv. destruct (view_VL e c b Hv) as (Hw & Hh & Hst & _). clear Hv.
  destruct Hok as (Hnd & Hne & Hok). destruct e as [st [h snd_] w]. unfold holder in Hh, Hok.
  cbn [Cache.state Cache.holding_client Cache.waiting_clients Cache.id Cache.send_rpc] in *. subst.
  unfold Cache.release_entry, srv_ok, holder.
  cbn [Cache.state Cache.holding_client Cache.waiting_clients Cache.id Cache.send_rpc].
  rewrite !bool_decide_eq_true_2 by done. cbn [verify]. rewrite !bind_Done.
  destruct w as [|dest w]; eexists _, _; (split; [reflexivity |]).
  - split_and!; cbn; try done; [views |]. intros d Hd _. views.
  - apply NoDup_cons in Hnd as [Hdw Hnd]. rewrite not_elem_of_cons in Hne, Hw.
    destruct Hne as [Hd0 Hne]. entry; split_and!; try done; try not_waiting; try views.
    + intros d Hd Hrt. assert (dest <> d) by congruence. views.
    + intros d [= <-]. split_and!; [by apply not_eq_sym, Hw | views | views].
Qed.

(** ** The invariant is kept, and no assertion fails *)

Lemma put_eq c n ns : put c n ns c = n.
Proof. unfold put. by rewrite decide_True. Qed.

Lemma put_ne c d n ns : d <> c -> put c n ns d = ns d.
Proof. intros. unfold put. by rewrite decide_False. Qed.

Lemma singleton_app {A} (x y : A) l1 l2 : [x] = l1 ++ y :: l2 -> l1 = [] /\ l2 = [] /\ y = x.
Proof. destruct l1 as [|z l1]; [by intros [= <- <-] |]. intros [= _ H]. by destruct l1. Qed.

Lemma nil_app_cons {A} (y : A) l1 l2 : [] <> l1 ++ y :: l2.
Proof. by destruct l1. Qed.

Lemma local_step s c n :
  inv s -> node_ok (view_of (srv s) c) n -> inv (Sys (srv s) (put c n (nodes s))).
Proof.
  intros [Hs Hn] Hc. split; [done |]. intros d Hd. cbn [nodes srv].
  destruct (decide (d = c)) as [->|]; [by rewrite put_eq | rewrite put_ne by done; auto].
Qed.

(** One active thread at most; the hypothesis on the threads says which one. *)
Ltac only_thread :=
  match goal with
  | E : [] = _ ++ _ :: _ |- _ => exfalso; exact (nil_app_cons _ _ _ E)
  | E : [_] = ?l1 ++ _ :: ?l2 |- _ =>
      let E1 := fresh in let E2 := fresh in let E3 := fresh in
      destruct (singleton_app _ _ _ _ E) as (E1 & E2 & E3); clear E; subst l1 l2
  end;
  repeat match goal with K : ?k = _ \/ ?k = _ |- _ => destruct K; subst k end;
  try discriminate;
  repeat match goal with
  | E : Acq1 _ = Acq1 _ |- _ => inversion E; clear E; subst
  | E : Acq2 _ = Acq2 _ |- _ => inversion E; clear E; subst
  | E : Rel _ = Rel _ |- _ => inversion E; clear E; subst
  | E : Rvk _ = Rvk _ |- _ => inversion E; clear E; subst
  | E : Rty _ = Rty _ |- _ => inversion E; clear E; subst
  | E : Reply _ = Reply _ |- _ => inversion E; clear E; subst
  end; try discriminate.

Ltac node_cases H :=
  unfold node_ok in H; cbn [lock state pending active revokes retries] in H; inversion H; subst.

Create HintDb lockcfg.
#[local] Hint Constructors cfg granted : lockcfg.

Section steps.
Context (s : sys) (c : string).
Hypothesis Hinv : inv s.
Hypothesis Hc : c <> EmptyString.

Let Hnode : node_ok (view_of (srv s) c) (nodes s c).
Proof. by apply Hinv. Qed.

Lemma acquire_top_ok n sl :
  node_ok (view_of (srv s) c) n ->
  node_ok (view_of (srv s) c) (after_acquire (Acq1 Sent) (acquire_top (lock n)) n (active n) sl).
Proof.
  intros H. destruct n as [[st p] k act rv rt]. node_cases H; cbn; unfold node_ok; cbn; auto with lockcfg.
Qed.

(** Runs the code of the active thread in each situation it can be in. *)
Ltac run_thread :=
  intros; let H := fresh in pose proof Hnode as H; destruct (nodes s c) as [[st p] k act rv rt];
  cbn [lock active asleep revokes retries] in *; node_cases H; only_thread;
  repeat match goal with G : granted _ _ _ |- _ => inversion G; subst; clear G end;
  (eexists; split; [reflexivity |]); unfold node_ok; cbn; auto with lockcfg.

Lemma acq_done_ok l1 r l2 :
  active (nodes s c) = l1 ++ Acq1 (Reply r) :: l2 ->
  exists x, acquire_reply r (lock (nodes s c)) = Done x /\
    node_ok (view_of (srv s) c) (after_acquire (Acq2 Sent) x (nodes s c) (l1 ++ l2) (asleep (nodes s c))).
Proof. run_thread. Qed.

Lemma acq2_done_ok l1 r l2 :
  active (nodes s c) = l1 ++ Acq2 (Reply r) :: l2 ->
  exists x, acquire_reply2 r (lock (nodes s c)) = Done x /\
    node_ok (view_of (srv s) c)
      (Node x (asleep (nodes s c)) (Hold :: l1 ++ l2) (revokes (nodes s c)) (retries (nodes s c))).
Proof. run_thread. Qed.

Lemma call_rel_ok l1 l2 :
  active (nodes s c) = l1 ++ Hold :: l2 ->
  exists x, release_top (lock (nodes s c)) = Done x /\
    node_ok (view_of (srv s) c) (after_release (Rel Sent) x (nodes s c) (l1 ++ l2) (revokes (nodes s c))).
Proof. run_thread. Qed.

Lemma rel_done_ok l1 r l2 :
  active (nodes s c) = l1 ++ Rel (Reply r) :: l2 ->
  exists x, release_reply r (lock (nodes s c)) = Done x /\
    node_ok (view_of (srv s) c) (after_release (Rel Sent) x (nodes s c) (l1 ++ l2) (revokes (nodes s c))).
Proof. run_thread. Qed.

Lemma rvk_done_ok l1 r l2 :
  active (nodes s c) = l1 ++ Rvk (Reply r) :: l2 ->
  exists x, revoke_reply r (lock (nodes s c)) = Done x /\
    node_ok (view_of (srv s) c) (after_release (Rvk Sent) x (nodes s c) (l1 ++ l2) (revokes (nodes s c))).
Proof. run_thread. Qed.

Lemma rty_done_ok l1 r l2 :
  active (nodes s c) = l1 ++ Rty (Reply r) :: l2 ->
  exists x, retry_reply r (lock (nodes s c)) = Done x /\
    node_ok (view_of (srv s) c) (after_retry x (nodes s c) (l1 ++ l2) (retries (nodes s c))).
Proof. run_thread. Qed.

(** The arrival of a callback. *)
Ltac run_callback :=
  intros; let H := fresh in pose proof Hnode as H; destruct (nodes s c) as [[st p] k act rv rt];
  cbn [lock active asleep revokes retries] in *; node_cases H; try done;
  repeat match goal with G : granted _ _ _ |- _ => inversion G; subst; clear G end; try done;
  (eexists; split; [reflexivity |]); unfold node_ok; cbn; auto with lockcfg.

Lemma get_revoke_ok :
  revokes (nodes s c) <> 0%nat ->
  exists x, revoke_top (lock (nodes s c)) = Done x /\
    node_ok (view_of (srv s) c)
      (after_release (Rvk Sent) x (nodes s c) (active (nodes s c)) (pred (revokes (nodes s c)))).
Proof. run_callback. Qed.

Lemma get_retry_ok :
  retries (nodes s c) <> 0%nat ->
  exists x, retry_top (lock (nodes s c)) = Done x /\
    node_ok (view_of (srv s) c) (after_retry x (nodes s c) (active (nodes s c)) (pred (retries (nodes s c)))).
Proof. run_callback. Qed.

(** What the server knows of a client whose acquire or release arrives. *)
Lemma sent_acquire l1 k l2 :
  active (nodes s c) = l1 ++ k Sent :: l2 -> k = Acq1 \/ k = Acq2 \/ k = Rty ->
  l1 = [] /\ l2 = [] /\ revokes (nodes s c) = 0%nat /\ retries (nodes s c) = 0%nat /\
  pending (lock (nodes s c)) = 0 /\
  ((view_of (srv s) c = VN /\ k = Acq1 /\ state (lock (nodes s c)) = RL.ACQUIRING) \/
   (view_of (srv s) c = VE /\ (k = Acq2 \/ k = Rty) /\ state (lock (nodes s c)) = RL.WAITING)).
Proof.
  intros E Hk. pose proof Hnode as H. destruct (nodes s c) as [[st p] n act rv rt].
  cbn [lock active asleep revokes retries state pending] in *. node_cases H; try only_thread;
    destruct Hk as [-> | [-> | ->]]; try discriminate; split_and!; auto.
Qed.

Lemma sent_release l1 k l2 :
  active (nodes s c) = l1 ++ k Sent :: l2 -> k = Rel \/ k = Rvk ->
  l1 = [] /\ l2 = [] /\ revokes (nodes s c) = 0%nat /\ retries (nodes s c) = 0%nat /\
  pending (lock (nodes s c)) = 0 /\ view_of (srv s) c = VL true /\
  state (lock (nodes s c)) = RL.RELEASING.
Proof.
  intros E Hk. pose proof Hnode as H. destruct (nodes s c) as [[st p] n act rv rt].
  cbn [lock active asleep revokes retries state pending] in *. node_cases H; only_thread; split_and!; auto.
Qed.

End steps.

(** A callback on its way to a client whose view changes accordingly. *)
Lemma revoke_sent_ok n :
  node_ok (VL false) n ->
  node_ok (VL true) (Node (lock n) (asleep n) (active n) (S (revokes n)) (retries n)).
Proof.
  intros H. destruct n as [[st p] k act rv rt]. node_cases H;
    match goal with G : granted _ _ _ |- _ => inversion G; subst; clear G end;
    unfold node_ok; cbn; auto with lockcfg.
Qed.

Lemma retry_sent_ok n :
  node_ok VW n -> node_ok VE (Node (lock n) (asleep n) (active n) (revokes n) (S (retries n))).
Proof.
  intros H. destruct n as [[st p] k act rv rt].
  node_cases H; try match goal with G : granted _ _ _ |- _ => inversion G end;
    unfold node_ok; cbn; auto with lockcfg.
Qed.

Lemma srv_acquire_ok s c l1 k l2 :
  inv s -> enabled (SrvAcquire c l1 k l2) s ->
  exists s', fire (SrvAcquire c l1 k l2) s = Done s' /\ inv s'.
Proof.
  intros Hinv (Hc & E & Hk). cbn in Hc.
  destruct (sent_acquire s c Hinv Hc l1 k l2 E Hk) as (-> & -> & Hrv & Hrt & Hp & Hcase).
  destruct Hinv as [Hs Hn]. cbn [fire]. destruct (nodes s c) as [[st p] sl act rv rt] eqn:Hnc.
  cbn in *. subst p rv rt act.
  destruct Hcase as [(Hv & -> & ->) | (Hv & Hk' & ->)].
  - destruct (acquire_from_none (srv s) c Hs Hc Hv) as (e' & r & rvk & -> & Hs' & Hr & Hoth & Hrvk).
    eexists. split; [reflexivity |]. split; [done |]. intros d Hd. cbn [srv nodes].
    destruct rvk as [h|]; cbn [send_revoke].
    + destruct (Hrvk h eq_refl) as (Hhc & Hvh & Hvh'). rewrite (put_ne c h) by done.
      destruct (decide (d = h)) as [->|Hdh].
      * rewrite put_eq, Hvh'. apply revoke_sent_ok. rewrite <- Hvh. by apply Hn.
      * rewrite put_ne by done. destruct (decide (d = c)) as [->|Hdc].
        -- rewrite put_eq. destruct Hr as [(_ & _ & [=]) | [-> ->]].
           unfold node_ok. cbn. auto with lockcfg.
        -- rewrite put_ne, Hoth by congruence. by apply Hn.
    + destruct (decide (d = c)) as [->|Hdc].
      * rewrite put_eq. unfold node_ok. destruct Hr as [(-> & -> & _) | [-> ->]]; cbn; auto with lockcfg.
      * rewrite put_ne, Hoth by congruence. by apply Hn.
  - destruct (acquire_expected (srv s) c Hs Hv) as (e' & rvk & b & -> & Hs' & Hvc & -> & Hoth).
    eexists. split; [reflexivity |]. split; [done |]. intros d Hd. cbn [srv nodes].
    destruct (decide (d = c)) as [->|Hdc].
    + rewrite Hvc. destruct b; cbn [send_revoke]; rewrite ?put_eq; unfold node_ok; cbn;
        auto with lockcfg.
    + rewrite Hoth by done. destruct b; cbn [send_revoke]; rewrite ?put_ne by done; by apply Hn.
Qed.

Lemma srv_release_ok s c l1 k l2 :
  inv s -> enabled (SrvRelease c l1 k l2) s ->
  exists s', fire (SrvRelease c l1 k l2) s = Done s' /\ inv s'.
Proof.
  intros Hinv (Hc & E & Hk). cbn in Hc.
  destruct (sent_release s c Hinv Hc l1 k l2 E Hk) as (-> & -> & Hrv & Hrt & Hp & Hv & Hst).
  destruct Hinv as [Hs Hn]. cbn [fire]. destruct (nodes s c) as [[st p] sl act rv rt] eqn:Hnc.
  cbn in *. subst p rv rt act st.
  destruct (release_from_holder (srv s) c true Hs Hv) as (e' & rty & -> & Hs' & Hvc & Hoth & Hrty).
  eexists. split; [reflexivity |]. split; [done |]. intros d Hd. cbn [srv nodes fst snd].
  destruct rty as [h|]; cbn [send_retry].
  - destruct (Hrty h eq_refl) as (Hhc & Hvh & Hvh'). rewrite (put_ne c h) by done.
    destruct (decide (d = h)) as [->|Hdh].
    + rewrite put_eq, Hvh'. apply retry_sent_ok. rewrite <- Hvh. by apply Hn.
    + rewrite put_ne by done. destruct (decide (d = c)) as [->|Hdc].
      * rewrite put_eq, Hvc. unfold node_ok. cbn. auto with lockcfg.
      * rewrite put_ne, Hoth by congruence. by apply Hn.
  - destruct (decide (d = c)) as [->|Hdc].
    + rewrite put_eq, Hvc. unfold node_ok. cbn. auto with lockcfg.
    + rewrite put_ne, Hoth by congruence. by apply Hn.
Qed.

Lemma fire_ok a s : inv s -> enabled a s -> exists s', fire a s = Done s' /\ inv s'.
Proof.
  intros Hinv Hen. destruct a; try (by apply srv_acquire_ok); try (by apply srv_release_ok);
    destruct Hen as [Hc E]; cbn [client_of] in Hc; cbn [fire].
  1,2: eexists; split; [reflexivity |]; apply local_step, acquire_top_ok; [done |]; by apply Hinv.
  all: first [ destruct (acq_done_ok s c Hinv Hc _ _ _ E) as (x & -> & Hx)
             | destruct (acq2_done_ok s c Hinv Hc _ _ _ E) as (x & -> & Hx)
             | destruct (call_rel_ok s c Hinv Hc _ _ E) as (x & -> & Hx)
             | destruct (rel_done_ok s c Hinv Hc _ _ _ E) as (x & -> & Hx)
             | destruct (rvk_done_ok s c Hinv Hc _ _ _ E) as (x & -> & Hx)
             | destruct (rty_done_ok s c Hinv Hc _ _ _ E) as (x & -> & Hx)
             | destruct (get_revoke_ok s c Hinv Hc E) as (x & -> & Hx)
             | destruct (get_retry_ok s c Hinv Hc E) as (x & -> & Hx) ];
       eexists; (split; [reflexivity |]); by apply local_step.
Qed.

Lemma inv_new : inv sys_new.
Proof.
  split; [split_and!; [constructor | apply not_elem_of_nil | done] |].
  intros c _. unfold node_ok, view_of, holder. cbn.
  assert (Hv : (if decide (c ∈ @nil string) then VW else if decide (EmptyString = c) then VN else VN) = VN)
    by (repeat case_decide; try done; waiting).
  rewrite Hv. constructor.
Qed.

Lemma reachable_inv s : reachable s -> inv s.
Proof.
  induction 1 as [|a s s' _ IH Hen Hf]; [apply inv_new |].
  destruct (fire_ok a s IH Hen) as (s'' & Hf' & Hi). rewrite Hf in Hf'. by injection Hf' as <-.
Qed.

(** Runs given as lists of transitions. *)
Fixpoint fire_all (l : list act) (s : sys) : outcome sys :=
  match l with
  | [] => Done s
  | a :: l => s' ← fire a s; fire_all l s'
  end.

Fixpoint enabled_all (l : list act) (s : sys) : Prop :=
  match l with
  | [] => True
  | a :: l => enabled a s /\ match fire a s with Done s' => enabled_all l s' | Fault _ => False end
  end.

Lemma fire_all_reachable l s :
  reachable s -> enabled_all l s -> exists s', fire_all l s = Done s' /\ reachable s'.
Proof.
  revert s. induction l as [|a l IH]; intros s Hr Hen; [by exists s |].
  destruct Hen as [Ha Hen]. cbn [fire_all]. destruct (fire a s) as [s'|] eqn:E; [| done].
  apply IH; [by eapply reach_fire | done].
Qed.

(** ** Theorems *)

(** C9: mutual exclusion.  In every reachable state of the system at most one
    thread of all clients is between acquire and release, and then the
    server has granted the lock to that client and to nobody else. *)
Theorem lock_mutual_exclusion s c d :
  reachable s -> c <> EmptyString -> d <> EmptyString ->
  Hold ∈ active (nodes s c) -> Hold ∈ active (nodes s d) ->
  c = d /\ active (nodes s c) = [Hold] /\ Cache.state (srv s) = LOCKED /\ holder (srv s) = c.
Proof.
  intros Hr Hc Hd Hhc Hhd. destruct (reachable_inv s Hr) as [_ Hn].
  assert (Hhold : forall e, e <> EmptyString -> Hold ∈ active (nodes s e) ->
            active (nodes s e) = [Hold] /\ exists b, view_of (srv s) e = VL b).
  { intros e He Hin. specialize (Hn e He). destruct (nodes s e) as [[st p] sl act rv rt].
    unfold node_ok in Hn. cbn in *. inversion Hn; subst; waiting;
      repeat match goal with
      | K : ?k = _ \/ ?k = _ |- _ => destruct K; subst k; waiting
      | G : granted _ _ _ |- _ => inversion G; subst; clear G
      end; try (split; [done | by eexists]). }
  destruct (Hhold c Hc Hhc) as (Hac & bc & Hvc). destruct (Hhold d Hd Hhd) as (_ & bd & Hvd).
  apply view_VL in Hvc as (_ & Hc' & Hst & _). apply view_VL in Hvd as (_ & Hd' & _ & _).
  split_and!; congruence.
Qed.

Definition ca : string := "a".
Definition cb : string := "b".

(** Client [a] gets the lock, a second thread of [a] waits for it, client [b]
    asks for it, and [a] releases it. *)
Definition handover : list act :=
  [NewAcquire ca; SrvAcquire ca [] Acq1 []; AcqDone ca [] LP.OK []; NewAcquire ca;
   NewAcquire cb; SrvAcquire cb [] Acq1 []; GetRevoke ca; CallRel ca [] [];
   SrvRelease ca [] Rel []; RelDone ca [] LP.OK []].

Lemma handover_enabled : enabled_all handover sys_new.
Proof. vm_compute. repeat split; try discriminate; left; reflexivity. Qed.

Lemma lock_mutual_exclusion_witness :
  exists s, reachable s /\ Hold ∈ active (nodes s ca) /\ holder (srv s) = ca.
Proof.
  destruct (fire_all_reachable (firstn 3 handover) sys_new reach_new) as (s & Hf & Hr).
  - vm_compute. repeat split; try discriminate. left. reflexivity.
  - assert (Hin : Hold ∈ active (nodes s ca)).
    { vm_compute in Hf. injection Hf as <-. vm_compute. left. }
    exists s. split; [exact Hr |]. split; [exact Hin |].
    apply (lock_mutual_exclusion s ca ca Hr); [discriminate | discriminate | exact Hin | exact Hin].
Defined.

Lemma callback_end_iff revoke clrpc r : callback_end revoke clrpc r = Done tt <-> clrpc <> 0 /\ (revoke = true -> r = RLOCK_OK).
Proof.
  unfold callback_end, Cache.revoke_callback, Cache.retry_callback. destruct (Z.eqb_spec clrpc 0) as [->|Hc]; cbn [negb verify].
  - destruct revoke; (split; [by intros [=] | by intros [? _]]).
  - destruct revoke; [| by split]. rewrite bind_Done. destruct (Z.eqb_spec r RLOCK_OK) as [Hr|Hr]; cbn [verify];
      [by split | split; [by intros [=] | intros [_ H]; by destruct (Hr (H eq_refl))]].
Qed.

(** C37: while remote calls are answered, no assertion of a client and no
    assertion of the server about its table of locks fails: whatever a thread or
    the network does next in a reachable state, the code runs to its next
    waiting point.  The server's other assertions are about its callbacks:
    they hold exactly when safebind returns an endpoint and, for a revoke, the
    call returns OK. *)
Theorem lock_assertions_hold s a :
  reachable s -> enabled a s ->
  (exists s', fire a s = Done s' /\ reachable s') /\
  (forall dest clrpc r, callback a s = Some dest ->
    (callback_end (revokes_lock a) clrpc r = Done tt <-> clrpc <> 0 /\ (revokes_lock a = true -> r = RLOCK_OK))).
Proof.
  intros Hr Hen. split; [| intros dest clrpc r _; apply callback_end_iff].
  destruct (fire_ok a s (reachable_inv s Hr) Hen) as (s' & Hf & _).
  exists s'. split; [done |]. by eapply reach_fire.
Qed.

Lemma lock_assertions_hold_witness :
  exists s', fire (NewAcquire ca) sys_new = Done s' /\ reachable s'.
Proof.
  apply (lock_assertions_hold sys_new (NewAcquire ca)); [constructor |]. split; [discriminate | exact I].
Defined.

(** A lost wake-up.  A thread that waits in acquire while another thread
    of its client gives the lock back to the server is left asleep: the lock
    is NONE at the client, no call or callback of the client is under way,
    and the release that led there did not signal the condition variable. *)
Theorem release_loses_wakeup :
  exists s, fire_all handover sys_new = Done s /\ reachable s /\
    nodes s ca = Node (LSC RL.NONE 0) 1 [] 0 0 /\
    release_reply LP.OK (LSC RL.RELEASING 0) = Done (LSC RL.NONE 0, Finished false).
Proof.
  destruct (fire_all_reachable handover sys_new reach_new handover_enabled) as (s & Hf & Hr).
  exists s. split_and!; [done | done | | done].
  vm_compute in Hf. injection Hf as <-. reflexivity.
Qed.
