(* ===== verification/LockUse.v ===== *)
(** * The lock protocol, as its clients use it

    What the threads above the lock protocol of LockProtocol.v rely on: calls of
    acquire and release are the only transitions that change how many threads
    are in acquire or hold the lock ([tickets_fire]); one client at a time has
    the lock or is giving it back ([keeps_unique]); a thread that has returned
    from acquire holds the lock until it calls release ([hold_kept]), and a
    client keeps it until the server has its release ([keeps_kept]).
    Coherence.v and LockTester.v build on this. *)

From S2P Require Import Prelude LockServer LockClient LockProtocol.

#[export] Instance rpc_eq_dec : EqDecision rpc.
Proof. solve_decision. Defined.
#[export] Instance pc_eq_dec : EqDecision pc.
Proof. solve_decision. Defined.

(** ** Tickets *)

(** Threads of a client that are in acquire or hold the lock. *)
Definition ticket (p : pc) : bool := match p with Acq1 _ | Acq2 _ | Hold => true | _ => false end.
Definition tickets (n : node) : nat := (asleep n + length (List.filter ticket (active n)))%nat.

(** A thread of the client is in the remote call release. *)
Definition giving_back (n : node) : Prop := Rel Sent ∈ active n \/ Rvk Sent ∈ active n.

(** The client has the lock or is giving it back. *)
Definition keeps (n : node) : Prop := state (lock n) = RL.OWNED \/ Hold ∈ active n \/ giving_back n.

Definition takes (a : act) (d : string) : nat := match a with NewAcquire c => if decide (c = d) then 1%nat else 0%nat | _ => 0%nat end.
Definition drops (a : act) (d : string) : nat := match a with CallRel c _ _ => if decide (c = d) then 1%nat else 0%nat | _ => 0%nat end.

Lemma tickets_app l1 p l2 :
  length (List.filter ticket (l1 ++ p :: l2)) = (length (List.filter ticket (l1 ++ l2)) + (if ticket p then 1 else 0))%nat.
Proof. rewrite !List.filter_app. cbn [List.filter]. rewrite !length_app. destruct (ticket p); cbn [length]; lia. Qed.

Lemma nodes_send_revoke o ns d :
  send_revoke o ns d = Node (lock (ns d)) (asleep (ns d)) (active (ns d)) (revokes (send_revoke o ns d)) (retries (ns d)).
Proof.
  destruct o as [e|]; cbn [send_revoke]; [| by destruct (ns d)]. unfold put. case_decide; [by subst | by destruct (ns d)].
Qed.

Lemma nodes_send_retry o ns d :
  send_retry o ns d = Node (lock (ns d)) (asleep (ns d)) (active (ns d)) (revokes (ns d)) (retries (send_retry o ns d)).
Proof.
  destruct o as [e|]; cbn [send_retry]; [| by destruct (ns d)]. unfold put. case_decide; [by subst | by destruct (ns d)].
Qed.

(** A transition changes the node of its client, and at other clients the
    callbacks on their way. *)
Lemma fire_other a s s' d :
  fire a s = Done s' -> d <> client_of a ->
  lock (nodes s' d) = lock (nodes s d) /\ asleep (nodes s' d) = asleep (nodes s d) /\
  active (nodes s' d) = active (nodes s d).
Proof.
  intros H Hd. destruct a; cbn [fire client_of] in *;
    repeat match goal with
    | H : mbind _ _ = Done _ |- _ => let x := fresh "x" in apply bind_Done_inv in H as (x & _ & H)
    end;
    try (injection H as <-; cbn [nodes]; rewrite put_ne by done; done).
  - destruct x as [[e r] rv]. injection H as <-. cbn [nodes]. rewrite nodes_send_revoke. cbn [lock asleep active].
    by rewrite put_ne.
  - injection H as <-. cbn [nodes]. rewrite nodes_send_retry. cbn [lock asleep active]. by rewrite put_ne.
Qed.

Lemma tickets_after_acquire again r n rest sl :
  ticket again = true ->
  tickets (after_acquire again r n rest sl) = S (sl + length (List.filter ticket rest)).
Proof.
  intros Ha. unfold tickets, after_acquire. destruct (snd r); cbn [asleep active List.filter ticket]; rewrite ?Ha;
    cbn [length]; lia.
Qed.

Lemma tickets_after_release again r n rest rv :
  ticket again = false -> tickets (after_release again r n rest rv) = (asleep n + length (List.filter ticket rest))%nat.
Proof. intros Ha. unfold tickets, after_release. destruct (snd r); cbn [asleep active List.filter]; by rewrite ?Ha. Qed.

Lemma tickets_after_retry r n rest rt :
  tickets (after_retry r n rest rt) = (asleep n + length (List.filter ticket rest))%nat.
Proof. unfold tickets, after_retry. by destruct (snd r). Qed.

(** Only calls of acquire and release change the number of tickets. *)
Lemma tickets_fire a s s' d :
  enabled a s -> fire a s = Done s' ->
  (tickets (nodes s' d) + drops a d = tickets (nodes s d) + takes a d)%nat.
Proof.
  intros [_ Hen] H. destruct (decide (d = client_of a)) as [->|Hd].
  2:{ destruct (fire_other a s s' d H Hd) as (_ & E1 & E2). unfold tickets. rewrite E1, E2.
      destruct a; cbn [drops takes client_of] in *; rewrite ?decide_False by congruence; lia. }
  destruct a; cbn [fire client_of drops takes] in *; rewrite ?decide_True by done;
    repeat match goal with
    | H : mbind _ _ = Done _ |- _ => let x := fresh "x" in apply bind_Done_inv in H as (x & _ & H)
    end;
    try (injection H as <-; cbn [nodes]; rewrite put_eq;
         rewrite ?tickets_after_acquire, ?tickets_after_release, ?tickets_after_retry by done;
         unfold tickets; rewrite ?Hen, ?tickets_app; cbn [ticket asleep active List.filter length]; lia).
  - destruct x as [[e r] rv]. injection H as <-. cbn [nodes]. rewrite nodes_send_revoke, put_eq.
    unfold tickets. cbn [asleep active lock]. destruct Hen as [-> Hk]. rewrite !tickets_app.
    destruct Hk as [-> | [-> | ->]]; cbn [ticket]; lia.
  - injection H as <-. cbn [nodes]. rewrite nodes_send_retry, put_eq. unfold tickets. cbn [asleep active lock].
    destruct Hen as [-> Hk]. rewrite !tickets_app. destruct Hk as [-> | ->]; cbn [ticket]; lia.
Qed.

(** *** Who keeps the lock *)

Lemma node_cases_of s d : inv s -> d <> EmptyString -> node_ok (view_of (srv s) d) (nodes s d).
Proof. intros [_ H]. apply H. Qed.

Lemma keeps_view s d : inv s -> d <> EmptyString -> keeps (nodes s d) -> exists b, view_of (srv s) d = VL b.
Proof.
  intros Hi Hd Hk. pose proof (node_cases_of s d Hi Hd) as H. destruct (nodes s d) as [[st p] sl act rv rt].
  unfold keeps, giving_back in Hk. cbn [lock state active] in Hk. node_cases H; waiting;
    repeat match goal with
    | K : ?k = _ \/ ?k = _ |- _ => destruct K; subst k; waiting
    | G : granted _ _ _ |- _ => inversion G; subst; clear G
    end; try (by eexists); waiting; try (by destruct Hk as [?|[?|[?|?]]]).
Qed.

Lemma keeps_unique s c d :
  inv s -> c <> EmptyString -> d <> EmptyString -> keeps (nodes s c) -> keeps (nodes s d) -> c = d.
Proof.
  intros Hi Hc Hd Kc Kd. destruct (keeps_view s c Hi Hc Kc) as [b Hb]. destruct (keeps_view s d Hi Hd Kd) as [b' Hb'].
  apply view_VL in Hb as (_ & Hb & _). apply view_VL in Hb' as (_ & Hb' & _). congruence.
Qed.

(** What a client is doing with the lock. *)
Inductive stage := Holds | Gives | Owns | Other.
Definition stage_of (n : node) : stage :=
  match active n with
  | [Hold] => Holds
  | [Rel Sent] | [Rvk Sent] => Gives
  | _ => match state (lock n) with RL.OWNED => Owns | _ => Other end
  end.

(** How a transition of its client changes it. *)
Definition stage_step (a : act) (x y : stage) : Prop :=
  match x with
  | Holds => y = Holds \/ (exists c l1 l2, a = CallRel c l1 l2) /\ (y = Owns \/ y = Gives)
  | Gives => y = Gives \/ exists c l1 k l2, a = SrvRelease c l1 k l2
  | Owns => y = Owns \/ y = Holds \/ y = Gives
  | Other => y = Other \/ y = Owns \/ y = Holds
  end.

Lemma stage_spec s d :
  inv s -> d <> EmptyString ->
  (Hold ∈ active (nodes s d) <-> stage_of (nodes s d) = Holds) /\
  (giving_back (nodes s d) <-> stage_of (nodes s d) = Gives) /\
  (keeps (nodes s d) <-> stage_of (nodes s d) <> Other).
Proof.
  intros Hi Hd. pose proof (node_cases_of s d Hi Hd) as H. destruct (nodes s d) as [[st p] sl act rv rt].
  unfold keeps, giving_back, stage_of. cbn [lock state active]. node_cases H;
    repeat match goal with K : ?k = _ \/ ?k = _ |- _ => destruct K; subst k end;
    rewrite ?elem_of_cons, ?elem_of_nil; intuition congruence.
Qed.

(** The node of a client in one of its situations, and the thread that moves. *)
Ltac situations n H :=
  destruct n as [[st p] sl act rv rt]; cbn [lock state active asleep revokes retries] in *; node_cases H.

Ltac granted_cases := repeat match goal with G : granted _ _ _ |- _ => inversion G; subst; clear G end.

Ltac ran :=
  repeat match goal with
  | E : _ = Done _ |- _ => cbv in E; first [discriminate E | injection E as <-]
  end; cbn.

Ltac stages n H :=
  situations n H; try only_thread; granted_cases; ran;
  repeat match goal with K : ?k = _ \/ ?k = _ |- _ => destruct K; subst k end; cbn; auto.

Section stages.
Context (v : view) (n : node) (a : act).
Hypothesis H : node_ok v n.

Lemma stage_acquire_top z :
  stage_step a (stage_of n) (stage_of (after_acquire (Acq1 Sent) (acquire_top (lock n)) n (active n) z)).
Proof. stages n H. Qed.

Lemma stage_acq_done l1 r l2 x :
  active n = l1 ++ Acq1 (Reply r) :: l2 -> acquire_reply r (lock n) = Done x ->
  stage_step a (stage_of n) (stage_of (after_acquire (Acq2 Sent) x n (l1 ++ l2) (asleep n))).
Proof. intros Ha E. stages n H. Qed.

Lemma stage_acq2_done l1 r l2 x :
  active n = l1 ++ Acq2 (Reply r) :: l2 -> acquire_reply2 r (lock n) = Done x ->
  stage_step a (stage_of n) (stage_of (Node x (asleep n) (Hold :: l1 ++ l2) (revokes n) (retries n))).
Proof. intros Ha E. stages n H. Qed.

Lemma stage_call_rel c l1 l2 x :
  active n = l1 ++ Hold :: l2 -> release_top (lock n) = Done x ->
  stage_step (CallRel c l1 l2) (stage_of n) (stage_of (after_release (Rel Sent) x n (l1 ++ l2) (revokes n))).
Proof. intros Ha E. stages n H; right; (split; [by eexists _, _, _ | auto]). Qed.

Lemma stage_rel_done l1 r l2 x :
  active n = l1 ++ Rel (Reply r) :: l2 -> release_reply r (lock n) = Done x ->
  stage_step a (stage_of n) (stage_of (after_release (Rel Sent) x n (l1 ++ l2) (revokes n))).
Proof. intros Ha E. stages n H. Qed.

Lemma stage_get_revoke x :
  revokes n <> 0%nat -> revoke_top (lock n) = Done x ->
  stage_step a (stage_of n) (stage_of (after_release (Rvk Sent) x n (active n) (pred (revokes n)))).
Proof. intros Ha E. stages n H; done. Qed.

Lemma stage_rvk_done l1 r l2 x :
  active n = l1 ++ Rvk (Reply r) :: l2 -> revoke_reply r (lock n) = Done x ->
  stage_step a (stage_of n) (stage_of (after_release (Rvk Sent) x n (l1 ++ l2) (revokes n))).
Proof. intros Ha E. stages n H. Qed.

Lemma stage_get_retry x :
  retries n <> 0%nat -> retry_top (lock n) = Done x ->
  stage_step a (stage_of n) (stage_of (after_retry x n (active n) (pred (retries n)))).
Proof. intros Ha E. stages n H; done. Qed.

Lemma stage_rty_done l1 r l2 x :
  active n = l1 ++ Rty (Reply r) :: l2 -> retry_reply r (lock n) = Done x ->
  stage_step a (stage_of n) (stage_of (after_retry x n (l1 ++ l2) (retries n))).
Proof. intros Ha E. stages n H. Qed.

Lemma stage_srv_acquire l1 k l2 r z :
  active n = l1 ++ k Sent :: l2 -> k = Acq1 \/ k = Acq2 \/ k = Rty ->
  stage_step a (stage_of n) (stage_of (Node (lock n) (asleep n) (l1 ++ k (Reply r) :: l2) z (retries n))).
Proof. intros Ha [-> | [-> | ->]]; stages n H. Qed.

End stages.

Lemma fire_stage a s s' :
  inv s -> enabled a s -> fire a s = Done s' ->
  stage_step a (stage_of (nodes s (client_of a))) (stage_of (nodes s' (client_of a))).
Proof.
  intros Hi [Hc Hen] Hf. pose proof (node_cases_of s _ Hi Hc) as H.
  destruct a; cbn [client_of fire] in *;
    repeat match goal with
    | H : mbind _ _ = Done _ |- _ => let x := fresh "x" in let E := fresh "E" in apply bind_Done_inv in H as (x & E & H)
    end.
  all: try (injection Hf as <-; cbn [nodes]; rewrite put_eq; by eauto using stage_acquire_top, stage_acq_done,
    stage_acq2_done, stage_call_rel, stage_rel_done, stage_get_revoke, stage_rvk_done, stage_get_retry, stage_rty_done).
  - destruct x as [[e r] rv], Hen as [Hen Hk]. injection Hf as <-. cbn [nodes]. rewrite nodes_send_revoke, put_eq.
    cbn [lock asleep active retries]. by apply (stage_srv_acquire (view_of (srv s) c)).
  - destruct (sent_release s c Hi Hc l1 k l2) as (-> & -> & _); [apply Hen | apply Hen |]. destruct Hen as [Hen Hk].
    assert (Hg : stage_of (nodes s c) = Gives) by (unfold stage_of; rewrite Hen; by destruct Hk as [-> | ->]).
    rewrite Hg. right. by eexists _, _, _, _.
Qed.

(** *** What a transition does to a client *)

Section fired.
Context (a : act) (s s' : sys).
Hypothesis Hi : inv s.
Hypothesis Hen : enabled a s.
Hypothesis Hf : fire a s = Done s'.

Lemma fire_inv : inv s'.
Proof. destruct (fire_ok a s Hi Hen) as (s'' & Hf' & H). congruence. Qed.

Lemma other_stage d : d <> client_of a -> stage_of (nodes s' d) = stage_of (nodes s d).
Proof. intros Hd. destruct (fire_other a s s' d Hf Hd) as (E1 & _ & E2). unfold stage_of. by rewrite E1, E2. Qed.

Lemma stage_fired d : stage_of (nodes s' d) = stage_of (nodes s d) \/
  d = client_of a /\ stage_step a (stage_of (nodes s d)) (stage_of (nodes s' d)).
Proof.
  destruct (decide (d = client_of a)) as [->|Hd]; [right; split; [done | by apply fire_stage] | left; by apply other_stage].
Qed.

Lemma hold_kept d :
  d <> EmptyString -> Hold ∈ active (nodes s d) -> (forall l1 l2, a <> CallRel d l1 l2) -> Hold ∈ active (nodes s' d).
Proof.
  intros Hd Hh Ha. apply (stage_spec s d Hi Hd) in Hh. apply (stage_spec s' d fire_inv Hd).
  destruct (stage_fired d) as [->|[-> Hs]]; [done |]. rewrite Hh in Hs.
  destruct Hs as [|[(c & l1 & l2 & ->) _]]; [done | by destruct (Ha l1 l2)].
Qed.

Lemma giving_kept d :
  d <> EmptyString -> giving_back (nodes s d) -> (forall l1 k l2, a <> SrvRelease d l1 k l2) -> giving_back (nodes s' d).
Proof.
  intros Hd Hh Ha. apply (stage_spec s d Hi Hd) in Hh. apply (stage_spec s' d fire_inv Hd).
  destruct (stage_fired d) as [->|[-> Hs]]; [done |]. rewrite Hh in Hs.
  destruct Hs as [|(c & l1 & k & l2 & ->)]; [done | by destruct (Ha l1 k l2)].
Qed.

Lemma keeps_kept d :
  d <> EmptyString -> keeps (nodes s d) -> (forall l1 k l2, a <> SrvRelease d l1 k l2) -> keeps (nodes s' d).
Proof.
  intros Hd Hh Ha. apply (stage_spec s d Hi Hd) in Hh. apply (stage_spec s' d fire_inv Hd).
  destruct (stage_fired d) as [->|[-> Hs]]; [done |].
  destruct (stage_of (nodes s (client_of a))); cbn in Hs; [| | | done].
  - destruct Hs as [->|[_ [->| ->]]]; done.
  - destruct Hs as [->|(c & l1 & k & l2 & ->)]; [done | by destruct (Ha l1 k l2)].
  - destruct Hs as [->|[->| ->]]; done.
Qed.

End fired.
