(* ===== verification/LockTester.v ===== *)
(** * The lock tester (src/lock_tester.cc)

    lock_tester starts threads that acquire and release locks through caching
    lock clients and, each time, check with a table of counters that nobody
    else has been granted the lock.  The threads run over the lock protocol of
    LockProtocol.v, one copy per lock; tests follow each other as main does it.

    The checks never fail, whatever the interleaving ([tester_never_fails]):
    the tester accepts this implementation of locks. *)

From S2P Require Import Prelude LockServer LockClient LockProtocol LockUse.
#[local] Set Warnings "-clear-no-such-hyp".

(** ** check_grant and check_release *)

(** [int ct[256]] *)
Abbreviation counters := (list Z).
Definition ct_new : counters := replicate 256 0.
Definition ct_slot (lid : Z) : nat := Z.to_nat (Z.land lid 0xff).
Definition ct_at (ct : counters) (x : nat) : Z := default 0 (ct !! x).

(** [None]: the tester prints an error and exits. *)
Definition check_grant (lid : Z) (ct : counters) : option counters :=
  let x := ct_slot lid in
  if negb (ct_at ct x =? 0) then None else Some (<[x := ct_at ct x + 1]> ct).

Definition check_release (lid : Z) (ct : counters) : option counters :=
  let x := ct_slot lid in
  if negb (ct_at ct x =? 1) then None else Some (<[x := ct_at ct x - 1]> ct).

(** ** The tests *)

Inductive cmd :=
| CAcquire (c : string) (lid : Z)      (* lc[i]->acquire(lid) *)
| CRelease (c : string) (lid : Z)      (* lc[i]->release(lid) *)
| CGrant (lid : Z)                     (* check_grant(lid) *)
| CCheck (lid : Z)                     (* check_release(lid) *).

Definition nt : nat := 6.
Definition a : Z := 1.
Definition b : Z := 2.

Section tests.
(** The ids of the clients lc[0], lc[1], ... *)
Variable lc : nat -> string.

Definition test1 : list cmd :=
  [CAcquire (lc 0) a; CGrant a; CRelease (lc 0) a; CCheck a;
   CAcquire (lc 0) a; CGrant a; CRelease (lc 0) a; CCheck a;
   CAcquire (lc 0) a; CGrant a; CAcquire (lc 0) b; CGrant b;
   CRelease (lc 0) b; CCheck b; CRelease (lc 0) a; CCheck a].

Definition round (c : string) : list cmd := [CAcquire c a; CGrant a; CCheck a; CRelease c a].

Definition test2 (i : nat) : list cmd := round (lc i).
Definition test3 (i : nat) : list cmd := mjoin (replicate 10 (round (lc i))).
Definition test4 (i : nat) : list cmd := mjoin (replicate 10 (round (lc 0))).
Definition test5 (i : nat) : list cmd := mjoin (replicate 10 (round (if (i <? 5)%nat then lc 0 else lc 1))).

(** [if(!test || test == k) ...]: the threads of the tests, started and joined
    one test after the other. *)
Definition main_tests (test : Z) : list (list (list cmd)) :=
  (if (test =? 0) || (test =? 1) then [[test1]] else []) ++
  (if (test =? 0) || (test =? 2) then [test2 <$> seq 0 nt] else []) ++
  (if (test =? 0) || (test =? 3) then [test3 <$> seq 0 nt] else []) ++
  (if (test =? 0) || (test =? 4) then [test4 <$> seq 0 2] else []) ++
  (if (test =? 0) || (test =? 5) then [test5 <$> seq 0 nt] else []).

End tests.

(** ** Threads over the lock protocol *)

Inductive call := CNone | CAcq (c : string) (lid : Z) | CRel (c : string) (lid : Z).

Record tthread := TThread { t_call : call; t_held : list (string * Z); t_cmds : list cmd }.

Record tester := Tester {
  te_locks : Z -> sys;
  te_ct : counters;
  te_threads : gmap nat tthread;
  te_tests : list (list (list cmd));
  te_failed : bool
}.

Definition threads_of (l : list (list cmd)) : gmap nat tthread := map_seq 0 (TThread CNone [] <$> l).

Definition holds (c : string) (lid : Z) (t : tthread) : bool := bool_decide ((c, lid) ∈ t_held t).
Definition is_hold (p : pc) : bool := match p with Hold => true | _ => false end.
Definition num_hold (n : node) : nat := length (List.filter is_hold (active n)).

(** What is not a call of acquire or release. *)
Definition message (x : act) : Prop := match x with NewAcquire _ | CallRel _ _ _ => False | _ => True end.

Definition set_thread (t : nat) (x : tthread) (s : tester) : tester :=
  Tester (te_locks s) (te_ct s) (<[t := x]> (te_threads s)) (te_tests s) (te_failed s).
Definition set_sys (lid : Z) (l : sys) (s : tester) : tester :=
  Tester (fun i => if decide (i = lid) then l else te_locks s i) (te_ct s) (te_threads s) (te_tests s) (te_failed s).
Definition set_ct (ct : counters) (s : tester) : tester :=
  Tester (te_locks s) ct (te_threads s) (te_tests s) (te_failed s).
Definition fail (s : tester) : tester := Tester (te_locks s) (te_ct s) (te_threads s) (te_tests s) true.

Definition finished (x : tthread) : Prop := t_call x = CNone /\ t_cmds x = [].

Inductive tstep : tester -> tester -> Prop :=
| ts_acquire t c lid h k l s :
    te_threads s !! t = Some (TThread CNone h (CAcquire c lid :: k)) ->
    enabled (NewAcquire c) (te_locks s lid) -> fire (NewAcquire c) (te_locks s lid) = Done l ->
    tstep s (set_thread t (TThread (CAcq c lid) h k) (set_sys lid l s))
| ts_acquired t c lid h k s :
    te_threads s !! t = Some (TThread (CAcq c lid) h k) ->
    (count (holds c lid) (te_threads s) < num_hold (nodes (te_locks s lid) c))%nat ->
    tstep s (set_thread t (TThread CNone ((c, lid) :: h) k) s)
| ts_release t c lid h k l1 l2 l s :
    te_threads s !! t = Some (TThread CNone h (CRelease c lid :: k)) ->
    enabled (CallRel c l1 l2) (te_locks s lid) -> fire (CallRel c l1 l2) (te_locks s lid) = Done l ->
    tstep s (set_thread t (TThread (CRel c lid) (filter (.≠ (c, lid)) h) k) (set_sys lid l s))
| ts_released t c lid h k s :
    te_threads s !! t = Some (TThread (CRel c lid) h k) ->
    (forall q, Rel q ∉ active (nodes (te_locks s lid) c)) ->
    tstep s (set_thread t (TThread CNone h k) s)
| ts_grant t lid h k ct s :
    te_threads s !! t = Some (TThread CNone h (CGrant lid :: k)) -> check_grant lid (te_ct s) = Some ct ->
    tstep s (set_thread t (TThread CNone h k) (set_ct ct s))
| ts_grant_error t lid h k s :
    te_threads s !! t = Some (TThread CNone h (CGrant lid :: k)) -> check_grant lid (te_ct s) = None ->
    tstep s (fail s)
| ts_check t lid h k ct s :
    te_threads s !! t = Some (TThread CNone h (CCheck lid :: k)) -> check_release lid (te_ct s) = Some ct ->
    tstep s (set_thread t (TThread CNone h k) (set_ct ct s))
| ts_check_error t lid h k s :
    te_threads s !! t = Some (TThread CNone h (CCheck lid :: k)) -> check_release lid (te_ct s) = None ->
    tstep s (fail s)
| ts_message lid x l s :
    message x -> enabled x (te_locks s lid) -> fire x (te_locks s lid) = Done l -> tstep s (set_sys lid l s)
| ts_next p ps s :
    (forall t x, te_threads s !! t = Some x -> finished x) -> te_tests s = p :: ps ->
    tstep s (Tester (te_locks s) (te_ct s) (threads_of p) ps (te_failed s)).

Definition tester_new (lc : nat -> string) (test : Z) : tester :=
  Tester (fun _ => sys_new) ct_new ∅ (main_tests lc test) false.

Inductive treach (lc : nat -> string) (test : Z) : tester -> Prop :=
| tr_new : treach lc test (tester_new lc test)
| tr_step s s' : treach lc test s -> tstep s s' -> treach lc test s'.

(** ** Who holds the lock *)

Lemma num_hold_pos n : (0 < num_hold n)%nat <-> Hold ∈ active n.
Proof.
  unfold num_hold. induction (active n) as [|p l IH]; cbn [List.filter length]; [split; [lia | by intros ?%elem_of_nil] |].
  rewrite elem_of_cons. destruct p; cbn [is_hold length]; rewrite ?IH; try (split; [tauto | intros [[=]|?]; tauto]).
  split; [tauto | lia].
Qed.

Lemma num_hold_le s c : inv s -> c <> EmptyString -> (num_hold (nodes s c) <= 1)%nat.
Proof.
  intros Hi Hc. destruct (decide (Hold ∈ active (nodes s c))) as [Hh|Hn].
  - apply (stage_spec s c Hi Hc) in Hh. unfold stage_of in Hh. unfold num_hold.
    destruct (active (nodes s c)) as [|[[]|[]| |[]|[]|[]] [|]]; cbn; try lia; by destruct (state (lock (nodes s c))).
  - rewrite <- num_hold_pos in Hn. lia.
Qed.

Lemma num_hold_kept x s s' d :
  inv s -> enabled x s -> fire x s = Done s' -> d <> EmptyString -> (forall l1 l2, x <> CallRel d l1 l2) ->
  (num_hold (nodes s d) <= num_hold (nodes s' d))%nat.
Proof.
  intros Hi Hen Hf Hd Hx. destruct (decide (Hold ∈ active (nodes s d))) as [Hh|Hn].
  - pose proof (num_hold_le s d Hi Hd). apply (hold_kept x s s' Hi Hen Hf d Hd) in Hh; [| done].
    apply num_hold_pos in Hh. lia.
  - rewrite <- num_hold_pos in Hn. lia.
Qed.

Lemma count_two {B} (P : B -> bool) (m : gmap nat B) t t' y y' :
  m !! t = Some y -> m !! t' = Some y' -> t <> t' -> P y = true -> P y' = true -> (2 <= count P m)%nat.
Proof.
  intros Ht Ht' Hne Hy Hy'. pose proof (count_delete P m t y Ht) as H. rewrite Hy in H. cbn in H.
  assert (0 < count P (delete t m))%nat; [| lia]. apply (count_pos _ _ t' y'); [| done]. by rewrite lookup_delete_ne.
Qed.

Lemma count_one {B} (P : B -> bool) (m : gmap nat B) t y :
  m !! t = Some y -> P y = true -> (forall t' y', m !! t' = Some y' -> P y' = true -> t' = t) -> count P m = 1%nat.
Proof.
  intros Ht Hy Hu. pose proof (count_delete P m t y Ht) as H. rewrite Hy in H. cbn in H.
  rewrite (count_zero P (delete t m)) in H; [lia |]. intros t' y'. rewrite lookup_delete_Some. intros [Hne Ht'].
  destruct (P y') eqn:E; [| done]. by destruct Hne; rewrite (Hu t' y').
Qed.

(** ** The invariant *)

(** The threads of tests 2 to 5 go round and round. *)
Inductive rounds : list cmd -> Prop :=
| rounds_nil : rounds []
| rounds_cons c k : c <> EmptyString -> rounds k -> rounds (round c ++ k).

Inductive follows : tthread -> Prop :=
| fo_out k : rounds k -> follows (TThread CNone [] k)
| fo_wait c k : c <> EmptyString -> rounds k ->
    follows (TThread (CAcq c a) [] (CGrant a :: CCheck a :: CRelease c a :: k))
| fo_grant c k : c <> EmptyString -> rounds k ->
    follows (TThread CNone [(c, a)] (CGrant a :: CCheck a :: CRelease c a :: k))
| fo_check c k : c <> EmptyString -> rounds k -> follows (TThread CNone [(c, a)] (CCheck a :: CRelease c a :: k))
| fo_rel c k : c <> EmptyString -> rounds k -> follows (TThread CNone [(c, a)] (CRelease c a :: k))
| fo_leave c k : rounds k -> follows (TThread (CRel c a) [] k).

(** Counted in [ct]. *)
Definition counted (x : tthread) : bool := match t_cmds x with CCheck _ :: _ => true | _ => false end.

Definition ct_count (n : nat) : counters := <[1%nat := Z.of_nat n]> ct_new.

Record rounds_ok (s : tester) : Prop := {
  ro_follows : forall t x, te_threads s !! t = Some x -> follows x;
  ro_holds : forall c, c <> EmptyString ->
    (count (holds c a) (te_threads s) <= num_hold (nodes (te_locks s a) c))%nat;
  ro_ct : te_ct s = ct_count (count counted (te_threads s))
}.

(** The thread of test 1 is alone: its checks depend on nobody. *)
Fixpoint run_checks (l : list cmd) (ct : counters) : option counters :=
  match l with
  | [] => Some ct
  | CGrant lid :: l => ct ← check_grant lid ct; run_checks l ct
  | CCheck lid :: l => ct ← check_release lid ct; run_checks l ct
  | _ :: l => run_checks l ct
  end.

Definition alone_ok (s : tester) : Prop :=
  exists x, te_threads s = {[0%nat := x]} /\ run_checks (t_cmds x) (te_ct s) = Some ct_new.

Definition test_ok (p : list (list cmd)) : Prop :=
  (exists l, p = [l] /\ run_checks l ct_new = Some ct_new) \/ Forall rounds p.

Record tester_ok (s : tester) : Prop := {
  to_inv : forall i, inv (te_locks s i);
  to_tests : Forall test_ok (te_tests s);
  to_failed : te_failed s = false;
  to_mode : alone_ok s \/ rounds_ok s
}.

(** One thread at a time is between acquire and release. *)
Lemma one_holder s t x c t' x' c' :
  tester_ok s -> rounds_ok s -> te_threads s !! t = Some x -> te_threads s !! t' = Some x' ->
  t_held x = [(c, a)] -> t_held x' = [(c', a)] -> c <> EmptyString -> c' <> EmptyString -> t' = t.
Proof.
  intros Ok R Ht Ht' Hx Hx' Hc Hc'. destruct (decide (t' = t)) as [|Hne]; [done |]. exfalso.
  assert (Hb : holds c a x = true) by (unfold holds; rewrite Hx; apply bool_decide_true; by left).
  assert (Hb' : holds c' a x' = true) by (unfold holds; rewrite Hx'; apply bool_decide_true; by left).
  pose proof (ro_holds _ R c Hc) as Hn. pose proof (ro_holds _ R c' Hc') as Hn'.
  pose proof (count_pos _ _ _ _ Ht Hb) as Hp. pose proof (count_pos _ _ _ _ Ht' Hb') as Hp'.
  assert (c' = c) as ->.
  { apply (keeps_unique (te_locks s a)); [apply (to_inv _ Ok) | done | done | ..]; right; left; apply num_hold_pos; lia. }
  pose proof (count_two _ _ t t' x x' Ht Ht' (not_eq_sym Hne) Hb Hb').
  pose proof (num_hold_le (te_locks s a) c (to_inv _ Ok a) Hc). lia.
Qed.

(** ** Checks *)

Lemma counted_holds x : follows x -> counted x = true -> exists c, t_held x = [(c, a)] /\ c <> EmptyString.
Proof. destruct 1; cbn; try done; [destruct H; done | by eauto | destruct H; done]. Qed.

Lemma ct_at_count n : ct_at (ct_count n) (ct_slot a) = Z.of_nat n.
Proof. done. Qed.

Lemma ct_count_insert n z : <[ct_slot a := z]> (ct_count n) = <[1%nat := z]> ct_new.
Proof. unfold ct_count. change (ct_slot a) with 1%nat. by rewrite list_insert_insert_eq. Qed.

(** Nobody is counted when a thread with the lock checks its grant, and only
    the thread itself when it checks its release. *)
Lemma nobody_counted s t x c :
  tester_ok s -> rounds_ok s -> te_threads s !! t = Some x -> t_held x = [(c, a)] -> c <> EmptyString ->
  count counted (te_threads s) = Nat.b2n (counted x).
Proof.
  intros Ok R Ht Hx Hc.
  assert (Hu : forall t' x', te_threads s !! t' = Some x' -> counted x' = true -> t' = t).
  { intros t' x' Ht' Hcn. destruct (counted_holds x' (ro_follows _ R t' x' Ht') Hcn) as (c' & Hx' & Hc').
    by apply (one_holder s t x c t' x' c'). }
  destruct (counted x) eqn:E; cbn [Nat.b2n]; [by apply (count_one _ _ t x) |].
  apply count_zero. intros t' x' Ht'. destruct (counted x') eqn:E'; [| done]. rewrite (Hu t' x' Ht' E') in Ht'. congruence.
Qed.

(** ** Steps *)

Section steps.
Context (s : tester).
Hypothesis Ok : tester_ok s.

Lemma sys_inv lid x l i :
  enabled x (te_locks s lid) -> fire x (te_locks s lid) = Done l -> inv (te_locks (set_sys lid l s) i).
Proof.
  intros Hen Hf. cbn [set_sys te_locks]. case_decide; [subst | apply (to_inv _ Ok)].
  apply (fire_inv x (te_locks s lid)); [apply (to_inv _ Ok) | done..].
Qed.

(** A thread moves and nothing about locks and counters changes. *)
Section thread.
Context (R : rounds_ok s) (t : nat) (x y : tthread).
Hypothesis Ht : te_threads s !! t = Some x.

Lemma holds_update c :
  (count (holds c a) (<[t := y]> (te_threads s)) + Nat.b2n (holds c a x))%nat
  = (count (holds c a) (te_threads s) + Nat.b2n (holds c a y))%nat.
Proof. by apply count_insert. Qed.

Lemma follows_update : follows y -> forall t' z, <[t := y]> (te_threads s) !! t' = Some z -> follows z.
Proof. intros Hy t' z. rewrite lookup_insert_Some. intros [[<- <-]|[_ Hz]]; [done | by apply (ro_follows _ R t')]. Qed.

Lemma count_counted : counted x = counted y -> count counted (<[t := y]> (te_threads s)) = count counted (te_threads s).
Proof. intros E. pose proof (count_insert counted (te_threads s) t y x Ht) as H. rewrite E in H. lia. Qed.

Lemma rounds_move : follows y -> t_held x = t_held y -> counted x = counted y -> rounds_ok (set_thread t y s).
Proof.
  intros Hy Hh Hc. split; cbn [set_thread te_threads te_locks te_ct].
  - by apply follows_update.
  - intros c Hne. pose proof (holds_update c) as H. unfold holds in H at 2 4. rewrite Hh in H.
    pose proof (ro_holds _ R c Hne). lia.
  - rewrite count_counted by done. apply (ro_ct _ R).
Qed.

End thread.

(** A transition of the protocol that is no release. *)
Lemma rounds_sys lid x l :
  rounds_ok s -> enabled x (te_locks s lid) -> fire x (te_locks s lid) = Done l ->
  (forall c l1 l2, x <> CallRel c l1 l2) -> rounds_ok (set_sys lid l s).
Proof.
  intros R Hen Hf Hx. split; cbn [set_sys te_threads te_locks te_ct]; [apply (ro_follows _ R) | | apply (ro_ct _ R)].
  intros c Hc. pose proof (ro_holds _ R c Hc). case_decide; [subst lid | done].
  pose proof (num_hold_kept x _ l c (to_inv _ Ok a) Hen Hf Hc (Hx c)). lia.
Qed.

End steps.

(** *** Tests with rounds *)

Section rounds.
Context (s : tester).
Hypothesis Ok : tester_ok s.
Hypothesis R : rounds_ok s.

Lemma r_acquire t c lid h k l :
  te_threads s !! t = Some (TThread CNone h (CAcquire c lid :: k)) ->
  enabled (NewAcquire c) (te_locks s lid) -> fire (NewAcquire c) (te_locks s lid) = Done l ->
  rounds_ok (set_thread t (TThread (CAcq c lid) h k) (set_sys lid l s)).
Proof.
  intros Ht Hen Hf. pose proof (ro_follows _ R t _ Ht) as F. inversion F as [? Hr| | | | |]; subst.
  inversion Hr as [|c' k' Hc Hk]; subst. eapply rounds_move; [by eapply rounds_sys | exact Ht | by constructor | done | done].
Qed.

Lemma r_acquired t c lid h k :
  te_threads s !! t = Some (TThread (CAcq c lid) h k) ->
  (count (holds c lid) (te_threads s) < num_hold (nodes (te_locks s lid) c))%nat ->
  rounds_ok (set_thread t (TThread CNone ((c, lid) :: h) k) s).
Proof.
  intros Ht Hn. pose proof (ro_follows _ R t _ Ht) as F. inversion F; subst.
  split; cbn [set_thread te_threads te_locks te_ct].
  - apply (follows_update s R t). by constructor.
  - intros d Hd. pose proof (holds_update s t _ (TThread CNone [(c, a)] (CGrant a :: CCheck a :: CRelease c a :: k0)) Ht d) as H.
    pose proof (ro_holds _ R d Hd). unfold holds in H at 2 4. cbn [t_held] in H.
    destruct (decide (d = c)) as [->|Hne]; [destruct (bool_decide _), (bool_decide _); cbn in H; lia |].
    rewrite !bool_decide_false in H by (rewrite ?elem_of_cons, elem_of_nil; naive_solver). lia.
  - rewrite (count_counted s t _ _ Ht) by done. apply (ro_ct _ R).
Qed.

Lemma r_release t c lid h k l1 l2 l :
  te_threads s !! t = Some (TThread CNone h (CRelease c lid :: k)) ->
  enabled (CallRel c l1 l2) (te_locks s lid) -> fire (CallRel c l1 l2) (te_locks s lid) = Done l ->
  rounds_ok (set_thread t (TThread (CRel c lid) (filter (.≠ (c, lid)) h) k) (set_sys lid l s)).
Proof.
  intros Ht Hen Hf. pose proof (ro_follows _ R t _ Ht) as F. inversion F as [? Hr| | | |c' k' Hc Hk|]; subst; [by inversion Hr |].
  assert (E : filter (.≠ (c, a)) [(c, a)] = []) by (rewrite filter_cons_False by (by intros []); done). rewrite E.
  split; cbn [set_thread set_sys te_threads te_locks te_ct].
  - apply (follows_update s R t). by constructor.
  - intros d Hd. pose proof (holds_update s t _ (TThread (CRel c a) [] k) Ht d) as H. pose proof (ro_holds _ R d Hd).
    rewrite decide_True by done. unfold holds in H at 2 4. cbn [t_held] in H.
    destruct (decide (d = c)) as [->|Hne].
    + rewrite bool_decide_true, bool_decide_false in H by (rewrite ?elem_of_cons, ?elem_of_nil; naive_solver). cbn in H.
      pose proof (num_hold_le (te_locks s a) c (to_inv _ Ok a) Hc). lia.
    + rewrite !bool_decide_false in H by (rewrite ?elem_of_cons, elem_of_nil; naive_solver).
      assert (Hx : forall l3 l4, CallRel c l1 l2 <> CallRel d l3 l4) by congruence.
      pose proof (num_hold_kept _ _ l d (to_inv _ Ok a) Hen Hf Hd Hx). lia.
  - rewrite (count_counted s t _ _ Ht); [apply (ro_ct _ R) |]. unfold counted. cbn [t_cmds]. by inversion Hk.
Qed.

Lemma r_released t c lid h k :
  te_threads s !! t = Some (TThread (CRel c lid) h k) -> rounds_ok (set_thread t (TThread CNone h k) s).
Proof.
  intros Ht. pose proof (ro_follows _ R t _ Ht) as F. inversion F; subst.
  eapply rounds_move; [done | exact Ht | by constructor | done | done].
Qed.

(** The checks pass. *)
Lemma r_grant t lid h k :
  te_threads s !! t = Some (TThread CNone h (CGrant lid :: k)) ->
  exists ct, check_grant lid (te_ct s) = Some ct /\ rounds_ok (set_thread t (TThread CNone h k) (set_ct ct s)).
Proof.
  intros Ht. pose proof (ro_follows _ R t _ Ht) as F. inversion F as [? Hr| |c k' Hc Hk| | |]; subst; [by inversion Hr |].
  pose proof (nobody_counted s t _ c Ok R Ht eq_refl Hc) as Hn. cbn in Hn.
  unfold check_grant. rewrite (ro_ct _ R), ct_at_count, Hn. cbn [Z.of_nat Z.eqb negb]. eexists. split; [done |].
  split; cbn [set_thread set_ct te_threads te_locks te_ct].
  - apply (follows_update s R t). by constructor.
  - intros d Hd. pose proof (holds_update s t _ (TThread CNone [(c, a)] (CCheck a :: CRelease c a :: k')) Ht d) as H.
    pose proof (ro_holds _ R d Hd). unfold holds in H at 2 4. cbn [t_held] in H. lia.
  - rewrite ct_count_insert. pose proof (count_insert counted (te_threads s) t (TThread CNone [(c, a)] (CCheck a :: CRelease c a :: k')) _ Ht) as H.
    cbn in H. rewrite Hn in H. unfold ct_count. f_equal. lia.
Qed.

Lemma r_check t lid h k :
  te_threads s !! t = Some (TThread CNone h (CCheck lid :: k)) ->
  exists ct, check_release lid (te_ct s) = Some ct /\ rounds_ok (set_thread t (TThread CNone h k) (set_ct ct s)).
Proof.
  intros Ht. pose proof (ro_follows _ R t _ Ht) as F. inversion F as [? Hr| | |c k' Hc Hk| |]; subst; [by inversion Hr |].
  pose proof (nobody_counted s t _ c Ok R Ht eq_refl Hc) as Hn. cbn in Hn.
  unfold check_release. rewrite (ro_ct _ R), ct_at_count, Hn. cbn [Z.of_nat Z.eqb Pos.eqb Pos.of_succ_nat negb]. eexists. split; [done |].
  split; cbn [set_thread set_ct te_threads te_locks te_ct].
  - apply (follows_update s R t). by constructor.
  - intros d Hd. pose proof (holds_update s t _ (TThread CNone [(c, a)] (CRelease c a :: k')) Ht d) as H.
    pose proof (ro_holds _ R d Hd). unfold holds in H at 2 4. cbn [t_held] in H. lia.
  - rewrite ct_count_insert. pose proof (count_insert counted (te_threads s) t (TThread CNone [(c, a)] (CRelease c a :: k')) _ Ht) as H.
    cbn in H. rewrite Hn in H. unfold ct_count. f_equal. lia.
Qed.

End rounds.

(** *** A thread alone *)

Lemma alone_move s s' t x y :
  alone_ok s -> te_threads s !! t = Some x -> te_threads s' = <[t := y]> (te_threads s) ->
  (run_checks (t_cmds x) (te_ct s) = Some ct_new -> run_checks (t_cmds y) (te_ct s') = Some ct_new) -> alone_ok s'.
Proof.
  intros (x' & Hm & Hc) Ht Hs Hr. rewrite Hm in Ht, Hs. apply lookup_singleton_Some in Ht as [<- ->].
  exists y. split; [by rewrite Hs, insert_singleton_eq | by apply Hr].
Qed.

Lemma alone_check s t h lid k :
  alone_ok s ->
  (te_threads s !! t = Some (TThread CNone h (CGrant lid :: k)) -> check_grant lid (te_ct s) <> None) /\
  (te_threads s !! t = Some (TThread CNone h (CCheck lid :: k)) -> check_release lid (te_ct s) <> None).
Proof.
  intros (x & Hm & Hc). split; intros Ht E; rewrite Hm in Ht; apply lookup_singleton_Some in Ht as [_ ->];
    cbn [t_cmds run_checks] in Hc; rewrite E in Hc; done.
Qed.

(** *** From test to test *)

Lemma all_counted s : (alone_ok s \/ rounds_ok s) -> (forall t x, te_threads s !! t = Some x -> finished x) -> te_ct s = ct_new.
Proof.
  intros [(x & Hm & Hc)|R] Hf.
  - destruct (Hf 0%nat x) as [_ E]; [by rewrite Hm, lookup_singleton_eq |]. rewrite E in Hc. cbn [run_checks] in Hc. by injection Hc.
  - rewrite (ro_ct _ R), count_zero; [done |]. intros t x Ht. unfold counted. by destruct (Hf t x Ht) as [_ ->].
Qed.

Lemma threads_of_at p t x : threads_of p !! t = Some x -> exists l, p !! t = Some l /\ x = TThread CNone [] l.
Proof.
  unfold threads_of. rewrite lookup_map_seq_Some, Nat.sub_0_r, list_lookup_fmap_Some. naive_solver.
Qed.

Lemma test_starts p locks ps f :
  test_ok p -> (alone_ok (Tester locks ct_new (threads_of p) ps f) \/ rounds_ok (Tester locks ct_new (threads_of p) ps f)).
Proof.
  intros [(l & -> & Hl)|Hr]; [left; by exists (TThread CNone [] l) | right]. split; cbn [te_threads te_ct te_locks].
  - intros t x Ht. apply threads_of_at in Ht as (l & Hl & ->). constructor. by apply (Forall_lookup_1 _ _ _ _ Hr Hl).
  - intros c Hc. rewrite count_zero; [lia |]. intros t x Ht. apply threads_of_at in Ht as (l & Hl & ->). done.
  - rewrite count_zero; [done |]. intros t x Ht. apply threads_of_at in Ht as (l & Hl & ->).
    pose proof (Forall_lookup_1 _ _ _ _ Hr Hl) as H. by destruct H.
Qed.

Lemma rounds_repeat c n : c <> EmptyString -> rounds (mjoin (replicate n (round c))).
Proof. intros Hc. induction n as [|n IH]; [constructor |]. cbn [replicate]. rewrite mjoin_cons. by constructor. Qed.

Lemma main_tests_ok lc test : (forall i, lc i <> EmptyString) -> Forall test_ok (main_tests lc test).
Proof.
  intros Hlc. assert (Hr : forall (f : nat -> list cmd) n, (forall i, rounds (f i)) -> test_ok (f <$> seq 0 n)).
  { intros f n Hf. right. apply Forall_fmap, Forall_true. intros i. apply Hf. }
  assert (Hif : forall (x : bool) p, test_ok p -> Forall test_ok (if x then [p] else [])).
  { intros [] p Hp; [by apply Forall_singleton | apply Forall_nil_2]. }
  unfold main_tests. repeat apply Forall_app_2; apply Hif; try (apply Hr; intros i).
  - left. by exists (test1 lc).
  - unfold test2. rewrite <- (app_nil_r (round _)). by repeat constructor.
  - by apply rounds_repeat.
  - by apply rounds_repeat.
  - unfold test5. by apply rounds_repeat; destruct (_ <? _)%nat.
Qed.

(** *** Every step *)

Lemma tstep_ok s s' : tester_ok s -> tstep s s' -> tester_ok s'.
Proof.
  intros Ok H. pose proof (to_mode _ Ok) as Hm. pose proof (to_inv _ Ok) as Hi. pose proof (sys_inv s Ok) as Hsi.
  pose proof (to_tests _ Ok) as Hts. pose proof (to_failed _ Ok) as Hfd.
  destruct H as [t c lid h k l s Ht Hen Hf|t c lid h k s Ht Hn|t c lid h k l1 l2 l s Ht Hen Hf|t c lid h k s Ht Hq|t lid h k ct s Ht Hc
    |t lid h k s Ht Hc|t lid h k ct s Ht Hc|t lid h k s Ht Hc|lid x l s Hx Hen Hf|p ps s Hfin Hps].
  - split; auto; [intros i; by apply (Hsi lid (NewAcquire c) l) |]. destruct Hm as [A|R]; [left | right; by apply r_acquire].
    by apply (alone_move s _ t _ (TThread (CAcq c lid) h k) A Ht).
  - split; auto. destruct Hm as [A|R]; [left | right; by apply r_acquired]. by apply (alone_move s _ t _ (TThread CNone ((c, lid) :: h) k) A Ht).
  - split; auto; [intros i; by apply (Hsi lid (CallRel c l1 l2) l) |]. destruct Hm as [A|R]; [left | right; by apply (r_release s Ok R t c lid h k l1 l2)].
    by apply (alone_move s _ t _ (TThread (CRel c lid) (filter (.≠ (c, lid)) h) k) A Ht).
  - split; auto. destruct Hm as [A|R]; [left | right; by apply (r_released s R t c lid)]. by apply (alone_move s _ t _ (TThread CNone h k) A Ht).
  - split; auto. destruct Hm as [A|R]; [left | right].
    + apply (alone_move s _ t _ (TThread CNone h k) A Ht); [done |]. cbn [t_cmds run_checks]. by rewrite Hc.
    + destruct (r_grant s Ok R t lid h k Ht) as (ct' & E & H). congruence.
  - exfalso. destruct Hm as [A|R]; [by apply (alone_check s t h lid k A) in Hc |].
    destruct (r_grant s Ok R t lid h k Ht) as (ct' & E & H). congruence.
  - split; auto. destruct Hm as [A|R]; [left | right].
    + apply (alone_move s _ t _ (TThread CNone h k) A Ht); [done |]. cbn [t_cmds run_checks]. by rewrite Hc.
    + destruct (r_check s Ok R t lid h k Ht) as (ct' & E & H). congruence.
  - exfalso. destruct Hm as [A|R]; [by apply (alone_check s t h lid k A) in Hc |].
    destruct (r_check s Ok R t lid h k Ht) as (ct' & E & H). congruence.
  - split; auto; [intros i; by apply (Hsi lid x l) |]. destruct Hm as [A|R]; [by left | right].
    apply (rounds_sys s Ok lid x l); auto. by intros c l1 l2 ->.
  - rewrite Hps in Hts. apply Forall_cons in Hts as [Hp Hts]. split; auto. cbn [te_ct]. rewrite (all_counted s Hm Hfin). by apply test_starts.
Qed.

(** ** Theorem *)

(** C8: the lock tester finds no error.  In every run of the tester with any
    test, however the threads, the clients, the server and the messages between
    them interleave, no check fails: a thread that has been granted a lock
    finds the counter of the lock at zero, and at one when it is about to
    release it. *)
Theorem tester_never_fails lc test s :
  (forall i, lc i <> EmptyString) -> treach lc test s -> te_failed s = false.
Proof.
  intros Hlc Hr. apply to_failed. induction Hr as [|s s' _ IH H]; [| by apply (tstep_ok s)]. split; cbn [tester_new te_locks te_tests te_failed].
  - intros i. apply inv_new.
  - by apply main_tests_ok.
  - done.
  - right. split; cbn [tester_new te_threads te_ct te_locks]; [by intros t x ?%lookup_empty_Some | | done].
    intros c Hc. rewrite count_zero; [lia |]. by intros t x ?%lookup_empty_Some.
Qed.

(** Test 1 after its first acquire was called. *)
Definition client_names (i : nat) : string := String (Ascii.ascii_of_nat (97 + i)) EmptyString.

Definition started : tester :=
  Tester (te_locks (tester_new client_names 1)) ct_new (threads_of [test1 client_names]) [] false.

Lemma tester_never_fails_witness :
  exists l, te_failed (set_thread 0 (TThread (CAcq (client_names 0) a) [] (tail (test1 client_names))) (set_sys a l started)) = false.
Proof.
  eexists. apply (tester_never_fails client_names 1); [intros i; discriminate |].
  eapply tr_step; [eapply tr_step; [apply tr_new | by apply ts_next] |].
  eapply (ts_acquire 0 (client_names 0) a []); [reflexivity | split; [discriminate | exact I] | reflexivity].
Defined.
