(* ===== verification/LockPool.v ===== *)
(** * The lock server's threads

    The handlers of the caching lock server call back: acquire waits for the
    revoke call it sends, release for the retry call (src/lock_server_cache.cc),
    and a revoke call returns only after the client's own release call.  All
    these calls are served by the threads of one pool of six (src/rpc/rpc.cc,
    the constructor of rpcs).  Here the lock protocol of LockProtocol.v runs on
    such a pool: a request is served when a thread is free, and the thread is
    free again when the call it has made has returned.  The order of the queue
    is left open, and answers are let out before the callback has returned,
    which gives the system more runs than it has.

    A call back can also fail: a revoke or retry call times out after two
    minutes.  A revoke that fails ends the server, because acquire asserts that
    it returned OK; release ignores the result of its retry.  A client that has
    failed takes no more steps.

    Requests for as many locks as there are threads can block the pool until the
    revoke calls time out, which ends the server ([lock_server_deadlock]). *)

From S2P Require Import Prelude LockServer LockClient LockProtocol LockUse.
#[local] Set Warnings "-clear-no-such-hyp".

Definition dispatch_threads : nat := 6.

(** A thread of the pool: idle, or in a call of revoke or retry to a client. *)
Abbreviation worker := (option (bool * Z * string)).

(** [p_up]: the server has not aborted. *)
Record pool := Pool { p_locks : Z -> sys; p_workers : list worker; p_up : bool }.

Definition set_plock (lid : Z) (l : sys) (p : pool) : pool :=
  Pool (fun i => if decide (i = lid) then l else p_locks p i) (p_workers p) (p_up p).
Definition set_worker (w : nat) (x : worker) (p : pool) : pool := Pool (p_locks p) (<[w := x]> (p_workers p)) (p_up p).
Definition abort (p : pool) : pool := Pool (p_locks p) (p_workers p) false.

Definition served (x : act) : Prop := match x with SrvAcquire _ _ _ _ | SrvRelease _ _ _ _ => True | _ => False end.

(** No callback is on its way to the client or being handled. *)
Definition callbacks_done (n : node) : Prop :=
  revokes n = 0%nat /\ retries n = 0%nat /\ forall q, (Rvk q ∉ active n) /\ (Rty q ∉ active n).

(** The thread of a callback goes on when the call has returned [r]. *)
Definition callback_over (w : nat) (revoke : bool) (clrpc r : Z) (p : pool) : pool :=
  match callback_end revoke clrpc r with Done _ => set_worker w None p | Fault _ => abort p end.

Inductive pstep : pool -> pool -> Prop :=
| ps_serve w lid x l p :
    p_up p = true -> p_workers p !! w = Some None -> served x -> enabled x (p_locks p lid) -> fire x (p_locks p lid) = Done l ->
    pstep p (set_worker w ((fun d => (revokes_lock x, lid, d)) <$> callback x (p_locks p lid)) (set_plock lid l p))
| ps_return w rv lid d clrpc p :
    p_up p = true -> p_workers p !! w = Some (Some (rv, lid, d)) -> callbacks_done (nodes (p_locks p lid) d) -> clrpc <> 0 ->
    pstep p (callback_over w rv clrpc RLOCK_OK p)
(* the bind or the call fails *)
| ps_fail w rv lid d clrpc r p :
    p_up p = true -> p_workers p !! w = Some (Some (rv, lid, d)) -> clrpc = 0 \/ r < 0 ->
    pstep p (callback_over w rv clrpc r p)
| ps_client lid x l p :
    ~ served x -> enabled x (p_locks p lid) -> fire x (p_locks p lid) = Done l -> pstep p (set_plock lid l p).

Definition pool_new (n : nat) : pool := Pool (fun _ => sys_new) (replicate n None) true.

Inductive psteps (p : pool) : pool -> Prop :=
| pss_refl : psteps p p
| pss_step q q' : psteps p q -> pstep q q' -> psteps p q'.

Lemma psteps_one p q : pstep p q -> psteps p q.
Proof. intros H. eapply pss_step; [apply pss_refl | done]. Qed.

Lemma psteps_trans p q r : psteps p q -> psteps q r -> psteps p r.
Proof. intros H. induction 1 as [|r r' _ IH Hs]; [done |]. by eapply pss_step. Qed.

(** ** Blocked for good *)

(** A revoke handler stays in its release call until the server serves it. *)
Lemma revoke_waits x s s' d :
  fire x s = Done s' -> ~ served x -> enabled x s -> Rvk Sent ∈ active (nodes s d) -> Rvk Sent ∈ active (nodes s' d).
Proof.
  intros Hf Hx [_ Hen] Hin. destruct (decide (d = client_of x)) as [->|Hd].
  2:{ by destruct (fire_other x s s' d Hf Hd) as (_ & _ & ->). }
  destruct x; cbn [served] in Hx; try done; cbn [fire client_of] in *;
    repeat match goal with H : mbind _ _ = Done _ |- _ => let x := fresh "x" in apply bind_Done_inv in H as (x & _ & H) end;
    injection Hf as <-; cbn [nodes]; rewrite put_eq; try rewrite Hen, elem_of_app, elem_of_cons in Hin;
    unfold after_acquire, after_release, after_retry;
    repeat match goal with |- context [match snd ?r with _ => _ end] => destruct (snd r) end; cbn [active];
    rewrite ?elem_of_cons, ?elem_of_app; naive_solver.
Qed.

Definition blocked (p : pool) : Prop :=
  p_up p = true ->
  forall w x, p_workers p !! w = Some x -> exists lid d, x = Some (true, lid, d) /\ Rvk Sent ∈ active (nodes (p_locks p lid) d).

Lemma blocked_step p p' :
  blocked p -> pstep p p' -> blocked p' /\ p_workers p' = p_workers p /\ forall i, srv (p_locks p' i) = srv (p_locks p i).
Proof.
  intros B H. destruct H as [w lid x l p Hup Hw _ _ _|w rv lid d clrpc p Hup Hw Hd Hc|w rv lid d clrpc r p Hup Hw Hr|lid x l p Hx Hen Hf].
  - destruct (B Hup w None Hw) as (? & ? & ? & _). done.
  - destruct (B Hup w _ Hw) as (lid' & d' & [= -> <- <-] & Hin). by destruct Hd as (_ & _ & Hd), (Hd Sent) as [Hn _].
  - destruct (B Hup w _ Hw) as (lid' & d' & [= -> <- <-] & Hin). unfold callback_over.
    destruct (callback_end true clrpc r) as [[]|] eqn:E; [| by split_and!].
    apply callback_end_iff in E as [? E]. specialize (E eq_refl). unfold RLOCK_OK in E. lia.
  - split_and!; [| done |].
    + intros Hup w y Hw. destruct (B Hup w y Hw) as (lid' & d & -> & Hin). exists lid', d. split; [done |].
      cbn [set_plock p_locks]. case_decide; [subst | done]. by apply (revoke_waits x (p_locks p lid)).
    + intros i. cbn [set_plock p_locks]. case_decide; [subst | done].
      destruct x; cbn [fire served] in *; try done;
        repeat match goal with H : mbind _ _ = Done _ |- _ => let x := fresh "x" in apply bind_Done_inv in H as (x & _ & H) end;
        by injection Hf as <-.
Qed.

Lemma blocked_steps p p' :
  blocked p -> psteps p p' -> blocked p' /\ p_workers p' = p_workers p /\ forall i, srv (p_locks p' i) = srv (p_locks p i).
Proof.
  intros B. induction 1 as [|q q' _ (B' & E & Hs) H]; [done |]. destruct (blocked_step q q' B' H) as (B'' & E' & Hs').
  split_and!; [done | congruence |]. intros i. by rewrite Hs'.
Qed.

(** ** How it gets there *)

(** Client [a] caches the lock, [b] asks for it, and [a] is told. *)
Definition owner_id : string := "a".

Section one_lock.
Variable b : string.
Hypothesis Hb : b <> EmptyString.
Hypothesis Hab : b <> owner_id.

(** The entry at the server and the clients [a] and [b] of a lock. *)
Definition looks (l : sys) (e : Cache.lock_state_server) (na nb : node) : Prop :=
  srv l = e /\ nodes l owner_id = na /\ nodes l b = nb.

Definition entry_of (c : string) (send : bool) (waiting : list string) : Cache.lock_state_server :=
  Cache.LockState LOCKED (Cache.ClientState c send) waiting.

Definition n0 : node := node_new.
Definition n_sent : node := Node (LSC RL.ACQUIRING 0) 0 [Acq1 Sent] 0 0.
Definition n_reply (r : Z) : node := Node (LSC RL.ACQUIRING 0) 0 [Acq1 (Reply r)] 0 0.
Definition n_hold : node := Node (LSC RL.LOCKED 0) 0 [Hold] 0 0.
Definition n_owned (rv : nat) : node := Node (LSC RL.OWNED 0) 0 [] rv 0.
Definition n_revoking : node := Node (LSC RL.RELEASING 0) 0 [Rvk Sent] 0 0.

(** All that happens is about lock [lid] and thread [w]. *)
Definition goes (p : pool) (lid : Z) (w : nat) (e : Cache.lock_state_server) (na nb : node) (y : worker) : Prop :=
  exists p', psteps p p' /\ p_up p' = p_up p /\ looks (p_locks p' lid) e na nb /\ p_workers p' = <[w := y]> (p_workers p) /\
    forall i, i <> lid -> p_locks p' i = p_locks p i.

(** Transition [x] is possible in such a situation and leads to another one. *)
Definition leads (x : act) (e : Cache.lock_state_server) (na nb : node) (e' : Cache.lock_state_server) (na' nb' : node) : Prop :=
  forall l, looks l e na nb -> enabled x l /\ exists l', fire x l = Done l' /\ looks l' e' na' nb'.

Ltac lead :=
  intros l (H1 & H2 & H3); unfold enabled; cbn [client_of]; rewrite ?H2, ?H3; (split; [by eauto |]);
  cbn [fire]; rewrite ?H1, ?H2, ?H3; eexists; (split; [reflexivity |]);
  unfold looks; cbn [srv nodes send_revoke]; rewrite ?put_eq, ?put_ne by done; rewrite ?put_eq, ?put_ne by done; by split_and!.

Lemma lead_call_a : leads (NewAcquire owner_id) Cache.lock_state_new n0 n0 Cache.lock_state_new n_sent n0.
Proof. lead. Qed.

Lemma lead_grant_a :
  leads (SrvAcquire owner_id [] Acq1 []) Cache.lock_state_new n_sent n0 (entry_of owner_id false []) (n_reply LP.OK) n0.
Proof. lead. Qed.

Lemma lead_got_a :
  leads (AcqDone owner_id [] LP.OK []) (entry_of owner_id false []) (n_reply LP.OK) n0 (entry_of owner_id false []) n_hold n0.
Proof. lead. Qed.

Lemma lead_release_a :
  leads (CallRel owner_id [] []) (entry_of owner_id false []) n_hold n0 (entry_of owner_id false []) (n_owned 0) n0.
Proof. lead. Qed.

Lemma lead_call_b :
  leads (NewAcquire b) (entry_of owner_id false []) (n_owned 0) n0 (entry_of owner_id false []) (n_owned 0) n_sent.
Proof. lead. Qed.

Lemma lead_revoke_a :
  leads (GetRevoke owner_id) (entry_of owner_id true [b]) (n_owned 1) (n_reply LP.RETRY)
    (entry_of owner_id true [b]) n_revoking (n_reply LP.RETRY).
Proof. lead. Qed.

Lemma acquire_cached :
  Cache.acquire_entry b (entry_of owner_id false []) = Done (entry_of owner_id true [b], LP.RETRY, Some owner_id).
Proof. unfold Cache.acquire_entry, entry_of. cbn. by rewrite bool_decide_true by congruence. Qed.

Lemma lead_retry_b :
  leads (SrvAcquire b [] Acq1 []) (entry_of owner_id false []) (n_owned 0) n_sent
    (entry_of owner_id true [b]) (n_owned 1) (n_reply LP.RETRY).
Proof.
  intros l (H1 & H2 & H3). unfold enabled. cbn [client_of]. rewrite H3. split; [by eauto |].
  cbn [fire]. rewrite H1, acquire_cached, H3. eexists. split; [reflexivity |].
  unfold looks. cbn [srv nodes send_revoke]. by rewrite put_eq, !put_ne, put_eq, H2 by done.
Qed.

Section lock_run.
Context (p : pool) (lid : Z) (w : nat).
Hypothesis Hup : p_up p = true.
Hypothesis Hw : (w < length (p_workers p))%nat.

Lemma go_client x e na nb y e' na' nb' :
  goes p lid w e na nb y -> ~ served x -> leads x e na nb e' na' nb' -> goes p lid w e' na' nb' y.
Proof.
  intros (q & Hq & Hu & Hl & Hwk & Ho) Hx Hlead. destruct (Hlead _ Hl) as (Hen & l' & Hf & Hl').
  exists (set_plock lid l' q). split_and!; [eapply pss_step; [done | by apply (ps_client lid x)] | done | | done |].
  - cbn [set_plock p_locks]. by rewrite decide_True.
  - intros i Hi. cbn [set_plock p_locks]. rewrite decide_False by done. by apply Ho.
Qed.

Lemma go_serve x e na nb e' na' nb' cb :
  goes p lid w e na nb None -> served x -> leads x e na nb e' na' nb' ->
  (forall l, looks l e na nb -> callback x l = cb) -> goes p lid w e' na' nb' ((fun d => (revokes_lock x, lid, d)) <$> cb).
Proof.
  intros (q & Hq & Hu & Hl & Hwk & Ho) Hx Hlead Hcb. destruct (Hlead _ Hl) as (Hen & l' & Hf & Hl').
  exists (set_worker w ((fun d => (revokes_lock x, lid, d)) <$> cb) (set_plock lid l' q)). split_and!.
  - eapply pss_step; [done |]. rewrite <- (Hcb _ Hl). apply ps_serve; auto; [congruence |]. rewrite Hwk. by apply list_lookup_insert_eq.
  - done.
  - cbn [set_worker set_plock p_locks]. by rewrite decide_True.
  - cbn [set_worker set_plock p_workers]. by rewrite Hwk, list_insert_insert_eq.
  - intros i Hi. cbn [set_worker set_plock p_locks]. rewrite decide_False by done. by apply Ho.
Qed.

Lemma go_stuck :
  looks (p_locks p lid) Cache.lock_state_new n0 n0 -> p_workers p !! w = Some None ->
  goes p lid w (entry_of owner_id true [b]) n_revoking (n_reply LP.RETRY) (Some (true, lid, owner_id)).
Proof.
  intros Hl Hi.
  assert (H : goes p lid w Cache.lock_state_new n0 n0 None).
  { exists p. split_and!; [apply pss_refl | done | done | by rewrite list_insert_id | done]. }
  eapply go_client in H; [| | apply lead_call_a]; [| cbn; tauto].
  eapply (go_serve _ _ _ _ _ _ _ None) in H; [| | apply lead_grant_a | intros l (H1 & _); cbn [callback]; by rewrite H1]; [| exact I].
  eapply go_client in H; [| | apply lead_got_a]; [| cbn; tauto].
  eapply go_client in H; [| | apply lead_release_a]; [| cbn; tauto].
  eapply go_client in H; [| | apply lead_call_b]; [| cbn; tauto].
  eapply (go_serve _ _ _ _ _ _ _ (Some owner_id)) in H; [| | apply lead_retry_b | intros l (H1 & _); cbn [callback]; by rewrite H1, acquire_cached]; [| exact I].
  eapply go_client in H; [exact H | | apply lead_revoke_a]. cbn; tauto.
Qed.

End lock_run.
End one_lock.

(** ** As many locks as threads *)

Definition stuck_upto (n k : nat) (p : pool) : Prop :=
  length (p_workers p) = n /\ p_up p = true /\
  (forall w, (w < k)%nat -> p_workers p !! w = Some (Some (true, Z.of_nat w, owner_id)) /\
     Rvk Sent ∈ active (nodes (p_locks p (Z.of_nat w)) owner_id)) /\
  (forall w, (k <= w < n)%nat -> p_workers p !! w = Some None) /\
  (forall i, Z.of_nat k <= i -> p_locks p i = sys_new).

Lemma reach_stuck (b : nat -> string) n k :
  (forall i, b i <> EmptyString /\ b i <> owner_id) -> (k <= n)%nat -> exists p, psteps (pool_new n) p /\ stuck_upto n k p.
Proof.
  intros Hb. induction k as [|k IH]; intros Hk.
  - exists (pool_new n). split; [apply pss_refl |]. split_and!; cbn [pool_new p_workers p_locks]; [apply length_replicate | done | lia | | done].
    intros w Hw. apply lookup_replicate_2. lia.
  - destruct IH as (p & Hp & Hlen & Hup & Hd & Hi & Hl); [lia |]. destruct (Hb k) as [Hb1 Hb2].
    destruct (go_stuck (b k) Hb1 Hb2 p (Z.of_nat k) k) as (q & Hq & Hu & (_ & Hna & _) & Hwk & Ho).
    { done. } { lia. } { by rewrite Hl by lia. } { apply Hi. lia. }
    exists q. split; [by eapply psteps_trans |]. split_and!.
    + by rewrite Hwk, length_insert.
    + congruence.
    + intros w Hw. destruct (decide (w = k)) as [->|Hne].
      * rewrite Hwk, list_lookup_insert_eq by lia. split; [done |]. rewrite Hna. by left.
      * rewrite Hwk, list_lookup_insert_ne by done. rewrite Ho by lia. apply Hd. lia.
    + intros w Hw. rewrite Hwk, list_lookup_insert_ne by lia. apply Hi. lia.
    + intros i Hi'. rewrite Ho by lia. apply Hl. lia.
Qed.

(** ** Theorem *)

(** C31: the lock server can run into a state in which it serves no request any
    more.  With [n] threads in its pool there is a run after which, however the
    run goes on, no lock changes at the server; and as long as the server is up,
    every thread of its pool waits for a revoke call whose client waits for the
    server to serve its release.  What ends this is a revoke call that fails, by
    its timeout for instance: then the server aborts. *)
Theorem lock_server_deadlock (b : nat -> string) n :
  (forall i, b i <> EmptyString /\ b i <> owner_id) ->
  exists p, psteps (pool_new n) p /\ p_up p = true /\
    (forall p', psteps p p' ->
      (forall i, srv (p_locks p' i) = srv (p_locks p i)) /\
      (p_up p' = true -> forall w, (w < n)%nat -> p_workers p' !! w = Some (Some (true, Z.of_nat w, owner_id)) /\
         Rvk Sent ∈ active (nodes (p_locks p' (Z.of_nat w)) owner_id))) /\
    (forall w clrpc r, (w < n)%nat -> r < 0 -> pstep p (abort p) /\ callback_over w true clrpc r p = abort p).
Proof.
  intros Hb. destruct (reach_stuck b n n Hb) as (p & Hp & Hlen & Hup & Hd & _ & _); [done |]. exists p. split_and!; [done | done | |].
  - intros p' Hp'. assert (B : blocked p).
    { intros _ w x Hw. assert (w < n)%nat as Hlt by (rewrite <- Hlen; by eapply lookup_lt_Some).
      destruct (Hd w Hlt) as [H1 H2]. exists (Z.of_nat w), owner_id. split; [congruence | done]. }
    destruct (blocked_steps p p' B Hp') as (B' & Hw & Hs). split; [done |]. intros Hup' w Hlt. rewrite Hw.
    destruct (Hd w Hlt) as [H1 _]. split; [done |]. rewrite <- Hw in H1.
    destruct (B' Hup' w _ H1) as (lid & d & [= <- <-] & Hin). done.
  - intros w clrpc r Hlt Hr. assert (E : callback_over w true clrpc r p = abort p).
    { unfold callback_over. destruct (callback_end true clrpc r) as [[]|] eqn:E; [| done].
      apply callback_end_iff in E as [_ E]. specialize (E eq_refl). unfold RLOCK_OK in E. lia. }
    split; [| done]. rewrite <- E. destruct (Hd w Hlt) as [H1 _]. by eapply ps_fail; [| | right].
Qed.

Lemma lock_server_deadlock_witness :
  exists p, psteps (pool_new dispatch_threads) p /\ p_up p = true /\
    (forall p', psteps p p' -> forall i, srv (p_locks p' i) = srv (p_locks p i)) /\ pstep p (abort p).
Proof.
  destruct (lock_server_deadlock (fun _ => "b"%string) dispatch_threads) as (p & H1 & H2 & H3 & H4).
  - intros i. split; discriminate.
  - exists p. split; [exact H1 |]. split; [exact H2 |]. split; [intros p' Hp'; apply (H3 p' Hp') |].
    apply (H4 0%nat 1 (-1)); [cbv; lia | lia].
Defined.
