(* ===== verification/ExtentClient.v ===== *)
(** * The caching extent client (src/extent_client.cc)

    Attributes and contents are cached; writes and removals stay in the cache
    until [flush], which the lock client calls (through dorelease) before it
    gives a lock back.  The client is written over any extent service (the
    class [ExtentService] of ExtentServer.v).

    [view] is what the client's program sees: the server's files with the
    pending changes of the cache applied.  The operations act on the view as
    the uncached ones act on the files, and flush makes the server's file
    equal to the view without changing the view. *)

From S2P Require Import Prelude Disk InodeManager FileSystem FileSpec ExtentServer.

(** ** State *)

Record buffer_cache_entry := BCE { dirty : bool; deleted : bool; buf : list Z }.

Definition bce_new : buffer_cache_entry := BCE false false [].

(** What becomes of a remote call: it is served, it never reaches the server,
    or it is served but the answer is lost; the last two return a negative
    status. *)
Inductive delivery := Delivered | Lost (status : Z) | AnswerLost (status : Z).

Record extent_client (S : Type) := EC {
  acache : gmap Z attr;
  bcache : gmap Z buffer_cache_entry;
  server : S;
  calls : nat           (* remote calls made so far *)
}.
Arguments EC {S}. Arguments acache {S}. Arguments bcache {S}. Arguments server {S}.
Arguments calls {S}.

(** A member of the value-initialised [attr] that [acache[eid]] creates. *)
Definition attr_zero : attr := Attr 0 0 0 0 0.
Definition set_attr_size (n : Z) (a : attr) : attr :=
  Attr (a_type a) (a_atime a) (a_mtime a) (a_ctime a) n.

Section client.
Context {S : Type} `{!ExtentService S}.
(** The fate and the surroundings of the [n]-th remote call. *)
Variable net : nat -> delivery * env.

Abbreviation client := (extent_client S).

Definition set_acache (m : gmap Z attr) (c : client) : client :=
  EC m (bcache c) (server c) (calls c).
Definition set_bcache (m : gmap Z buffer_cache_entry) (c : client) : client :=
  EC (acache c) m (server c) (calls c).

(** [cl->call(...)]: the status and, if there is one, the answer. *)
Definition remote (q : request) (c : client) : outcome (client * Z * option reply) :=
  let '(d, e) := net (calls c) in
  match d with
  | Delivered =>
      r ← es_serve e q (server c);
      mret (EC (acache c) (bcache c) (fst r) (calls c + 1)%nat, OK, Some (snd r))
  | Lost st => mret (EC (acache c) (bcache c) (server c) (calls c + 1)%nat, st, None)
  | AnswerLost st =>
      r ← es_serve e q (server c);
      mret (EC (acache c) (bcache c) (fst r) (calls c + 1)%nat, st, None)
  end.

(** ** Operations *)

(** [attr] keeps its old value [a0] when the call fails. *)
Definition ec_getattr (eid : Z) (a0 : attr) (c : client) : outcome (client * Z * attr) :=
  match acache c !! eid with
  | Some a => mret (c, OK, a)
  | None =>
      r ← remote (ReqGetattr eid) c;
      let '(c, ret, rep) := r in
      let a := match rep with Some (RepAttr a) => a | _ => a0 end in
      mret (if ret =? OK then set_acache (<[eid := a]> (acache c)) c else c, ret, a)
  end.

Definition ec_create (type : Z) (id0 : Z) (c : client) : outcome (client * Z * Z) :=
  r ← remote (ReqCreate type) c;
  let '(c, ret, rep) := r in
  mret (c, ret, match rep with Some (RepId id) => id | _ => id0 end).

Definition ec_get (eid : Z) (buf0 : list Z) (c : client) : outcome (client * Z * list Z) :=
  match bcache c !! eid with
  | Some b => mret (c, OK, buf b)
  | None =>
      r ← remote (ReqGet eid) c;
      let '(c, ret, rep) := r in
      let bs := match rep with Some (RepData bs) => bs | _ => buf0 end in
      mret (if ret =? OK
            then set_bcache (<[eid := BCE false (deleted (default bce_new (bcache c !! eid))) bs]>
                               (bcache c)) c
            else c, ret, bs)
  end.

Definition ec_put (eid : Z) (bs : list Z) (c : client) : client * Z :=
  (EC (<[eid := set_attr_size (u32 (Z.of_nat (length bs))) (default attr_zero (acache c !! eid))]>
         (acache c))
      (<[eid := BCE true (deleted (default bce_new (bcache c !! eid))) bs]> (bcache c))
      (server c) (calls c), OK).

Definition ec_remove (eid : Z) (c : client) : client * Z :=
  let b := default bce_new (bcache c !! eid) in
  (set_bcache (<[eid := BCE (dirty b) true (buf b)]> (bcache c)) c, OK).

Definition ec_flush (eid : Z) (c : client) : outcome client :=
  match bcache c !! eid with
  | None => Done c
  | Some b =>
      let c := EC (delete eid (acache c)) (delete eid (bcache c)) (server c) (calls c) in
      if deleted b then
        r ← remote (ReqRemove eid) c;
        let '(c, ret, _) := r in
        _ ← verify (ret =? OK); mret c
      else if dirty b then
        r ← remote (ReqPut eid (buf b)) c;
        let '(c, ret, _) := r in
        _ ← verify (ret =? OK); mret c
      else mret c
  end.

(** lock_release_user_client::dorelease *)
Definition dorelease (lid : Z) (c : client) : outcome client := ec_flush lid c.

(** ** What the client sees *)

Definition id_ok (id : Z) : Prop := 0 <= id < 2 ^ 31.

Definition files (c : client) : fstore := es_files (server c).

Definition view (c : client) (id : Z) : option file :=
  match bcache c !! id with
  | None => files c !! id
  | Some b =>
      if deleted b then None
      else if dirty b then (fun f => File (f_type f) (buf b)) <$> files c !! id
      else files c !! id
  end.

(** Only files the server has are cached; clean buffers are its bytes, dirty
    ones have cached attributes, and cached sizes are right. *)
Definition coherent (c : client) : Prop :=
  es_inv (server c) /\
  (forall id b, bcache c !! id = Some b -> is_Some (files c !! id) /\
     (dirty b = true -> is_Some (acache c !! id)) /\
     (dirty b = false -> deleted b = false -> buf b = default [] (f_data <$> files c !! id))) /\
  (forall id a f, acache c !! id = Some a -> view c id = Some f ->
     a_size a = u32 (Z.of_nat (length (f_data f)))) /\
  (forall id, is_Some (acache c !! id) -> is_Some (files c !! id)).

(** Every call is served, in sane surroundings. *)
Definition net_ok : Prop := forall n, fst (net n) = Delivered /\ env_ok (snd (net n)).

Hypothesis Hnet : net_ok.

Lemma remote_done q c :
  es_inv (server c) -> admissible q (files c) ->
  exists s' r, remote q c = Done (EC (acache c) (bcache c) s' (calls c + 1)%nat, OK, Some r) /\
    es_inv s' /\ es_files s' = next q (files c) /\ answers q (files c) r.
Proof.
  intros Hi Ha. destruct (Hnet (calls c)) as [Hd He]. unfold remote.
  destruct (net (calls c)) as [d e]. cbn in Hd, He. subst d.
  destruct (es_step e q (server c) Hi He Ha) as (s' & r & -> & Hi' & Hf & Hr).
  exists s', r. split_and!; auto.
Qed.

Lemma view_files c id : is_Some (view c id) -> is_Some (files c !! id).
Proof.
  intros [f Hf]. unfold view in Hf. destruct (bcache c !! id) as [b|]; [| by eexists].
  destruct (deleted b); [done |]. destruct (dirty b); [| by eexists].
  destruct (files c !! id); by eexists.
Qed.

Lemma view_not_deleted c id b :
  is_Some (view c id) -> bcache c !! id = Some b -> deleted b = false.
Proof. unfold view. intros [f Hf] Hb. rewrite Hb in Hf. by destruct (deleted b). Qed.

Lemma view_cached c id b f :
  coherent c -> bcache c !! id = Some b -> view c id = Some f -> buf b = f_data f.
Proof.
  intros (_ & Hb & _) Hc Hv. destruct (Hb id b Hc) as (_ & _ & Hclean).
  assert (Hd : deleted b = false) by (apply (view_not_deleted c id); eauto).
  unfold view in Hv. rewrite Hc, Hd in Hv. destruct (dirty b) eqn:E.
  - destruct (files c !! id); [| done]. by injection Hv as <-.
  - rewrite Hclean by done. by rewrite Hv.
Qed.

(** Cached or not, get returns what the view has. *)
Lemma get_done eid buf0 c f :
  coherent c -> id_ok eid -> view c eid = Some f ->
  exists c', ec_get eid buf0 c = Done (c', OK, f_data f) /\
    coherent c' /\ (forall id, view c' id = view c id) /\ files c' = files c /\
    acache c' = acache c.
Proof.
  intros Hco Hid Hvf. unfold ec_get. destruct (bcache c !! eid) as [b|] eqn:Hb.
  { exists c. rewrite (view_cached c eid b f) by done. split_and!; auto. }
  pose proof (view_files c eid (ex_intro _ _ Hvf)) as Hex.
  assert (Hff : files c !! eid = Some f) by (unfold view in Hvf; by rewrite Hb in Hvf).
  destruct Hco as (Hi & Hbc & Hac & Haid).
  destruct (remote_done (ReqGet eid) c Hi I) as (s' & r & -> & Hi' & Hf & ->).
  rewrite bind_Done. cbn -[insert]. rewrite Hb. cbn -[insert].
  rewrite mask_id_small by done. cbn in Hf. unfold Spec.read.
  rewrite Hff. cbn [fmap option_fmap option_map default from_option].
  set (c' := set_bcache _ _).
  assert (Hfiles : files c' = files c) by (unfold files, c'; cbn [server set_bcache]; done).
  assert (Hview : forall id, view c' id = view c id).
  { intros id. unfold view. rewrite Hfiles. unfold c'. cbn [bcache set_bcache].
    rewrite lookup_insert. case_decide; [subst; by rewrite Hb | done]. }
  exists c'. split_and!; auto. split_and!; [done | | |].
  - intros id b. rewrite Hfiles. unfold c'. cbn [bcache set_bcache]. rewrite lookup_insert.
    case_decide; [| by apply Hbc]. intros [= <-]; subst. rewrite Hff. split_and!; done.
  - intros id a f1 Ha. rewrite Hview. by apply Hac.
  - rewrite Hfiles. apply Haid.
Qed.

Lemma put_done eid bs c :
  coherent c -> is_Some (view c eid) ->
  coherent (fst (ec_put eid bs c)) /\ files (fst (ec_put eid bs c)) = files c /\
  (forall id, view (fst (ec_put eid bs c)) id =
     if decide (id = eid) then (fun f => File (f_type f) bs) <$> view c eid else view c id).
Proof.
  intros (Hi & Hbc & Hac & Haid) Hex. set (c' := fst (ec_put eid bs c)).
  pose proof (fun b => view_not_deleted c eid b Hex) as Hdel. pose proof (view_files c eid Hex) as Hfi.
  assert (Hd0 : deleted (default bce_new (bcache c !! eid)) = false).
  { destruct (bcache c !! eid) as [b|] eqn:E; [by apply Hdel | done]. }
  assert (Hv : forall id, view c' id =
     if decide (id = eid) then (fun f => File (f_type f) bs) <$> view c eid else view c id).
  { intros id. unfold view. change (files c') with (files c). unfold c'. cbn [ec_put fst bcache].
    rewrite lookup_insert. destruct (decide (eid = id)) as [->|Hne].
    - rewrite decide_True by done. cbn [deleted dirty buf]. rewrite Hd0.
      destruct (bcache c !! id) as [b|] eqn:E; [| done]. rewrite (Hdel b eq_refl).
      destruct (dirty b); [| done]. by destruct (files c !! id).
    - by rewrite decide_False. }
  split_and!; [| done | exact Hv]. split_and!; [done | | |].
  - intros id b. unfold c'. cbn [ec_put fst bcache acache]. rewrite !lookup_insert.
    case_decide; [intros [= <-]; subst; split_and!; [done | by eexists | done] | by apply Hbc].
  - intros id a f. rewrite Hv. unfold c'. cbn [ec_put fst acache]. rewrite lookup_insert.
    destruct (decide (eid = id)) as [->|Hne].
    + rewrite decide_True by done. intros [= <-]. destruct (view c id); [| done]. by intros [= <-].
    + rewrite decide_False by done. apply Hac.
  - intros id. unfold c'. cbn [ec_put fst acache]. rewrite lookup_insert.
    case_decide; [by subst | apply Haid].
Qed.

Lemma remove_done eid c :
  coherent c -> is_Some (view c eid) ->
  coherent (fst (ec_remove eid c)) /\ files (fst (ec_remove eid c)) = files c /\
  (forall id, view (fst (ec_remove eid c)) id = if decide (id = eid) then None else view c id).
Proof.
  intros (Hi & Hbc & Hac & Haid) Hex. set (c' := fst (ec_remove eid c)).
  pose proof (view_files c eid Hex) as Hfi.
  assert (Hv : forall id, view c' id = if decide (id = eid) then None else view c id).
  { intros id. unfold view. change (files c') with (files c). unfold c'.
    cbn [ec_remove fst bcache set_bcache]. rewrite lookup_insert.
    destruct (decide (eid = id)) as [->|Hne]; [by rewrite decide_True | by rewrite decide_False]. }
  split_and!; [| done | exact Hv]. split_and!; [done | | | done].
  - intros id b. unfold c'. cbn [ec_remove fst bcache acache set_bcache]. rewrite lookup_insert.
    case_decide; [| by apply Hbc]. intros [= <-]. subst. split_and!; [done | | done].
    cbn [dirty]. destruct (bcache c !! id) as [b|] eqn:E; [| done]. by apply (Hbc id b).
  - intros id a f. rewrite Hv. unfold c'. cbn [ec_remove fst acache set_bcache]. case_decide; [done |].
    apply Hac.
Qed.

Lemma getattr_done eid a0 c :
  coherent c -> id_ok eid -> is_Some (view c eid) ->
  exists c' a, ec_getattr eid a0 c = Done (c', OK, a) /\ coherent c' /\
    (forall id, view c' id = view c id) /\ files c' = files c /\ bcache c' = bcache c /\
    (forall f, view c eid = Some f -> a_size a = u32 (Z.of_nat (length (f_data f)))) /\
    (forall f, files c !! eid = Some f -> acache c !! eid = None -> a_type a = u32 (f_type f)) /\
    (forall a', acache c !! eid = Some a' -> a = a').
Proof.
  intros (Hi & Hbc & Hac & Haid) Hid Hex. pose proof (view_files c eid Hex) as Hfi.
  unfold ec_getattr.
  destruct (acache c !! eid) as [a|] eqn:Ha.
  { exists c, a. split_and!; auto; try done.
    - intros f Hf. by apply (Hac eid a f).
    - by intros a' [= ->]. }
  destruct (remote_done (ReqGetattr eid) c Hi I) as (s' & r & -> & Hi' & Hf & (a & -> & Hans)).
  rewrite bind_Done. cbn -[insert]. rewrite mask_id_small in Hans by done.
  set (c' := set_acache _ _).
  assert (Hsize : forall f, view c eid = Some f -> a_size a = u32 (Z.of_nat (length (f_data f)))).
  { intros f Hv. assert (Hff : files c !! eid = Some f).
    { unfold view in Hv. destruct (bcache c !! eid) as [b|] eqn:Hb; [| done].
      destruct (deleted b); [done |]. destruct (dirty b) eqn:E; [| done].
      destruct (Hbc eid b Hb) as (_ & Hs & _). destruct (Hs E) as [? Hs']. by rewrite Ha in Hs'. }
    rewrite u32_id by (by apply (es_bounded (server c) eid)). by apply Hans. }
  assert (Hview : forall id, view c' id = view c id).
  { intros id. unfold view, files, c'. cbn [server bcache set_acache]. by rewrite Hf. }
  assert (Hfiles : files c' = files c) by (unfold files, c'; cbn [server set_acache]; exact Hf).
  exists c', a. split_and!; [done | | exact Hview | exact Hf | done | exact Hsize | | done].
  - split_and!; [done | | |].
    + intros id b Hb. destruct (Hbc id b Hb) as (H1 & H2 & H3). rewrite Hfiles.
      split_and!; [done | | done].
      intros Hd. unfold c'. cbn [acache set_acache]. rewrite lookup_insert.
      case_decide; [by eexists | auto].
    + intros id a1 f. unfold c' at 1. cbn [acache set_acache]. rewrite lookup_insert.
      rewrite Hview. case_decide; [intros [= <-]; subst; apply Hsize | apply Hac].
    + intros id. rewrite Hfiles. unfold c'. cbn [acache set_acache]. rewrite lookup_insert.
      case_decide; [by subst | apply Haid].
  - intros f Hff _. by apply Hans.
Qed.

Lemma free_inum_free n rest m : Spec.free_inums m = n :: rest -> m !! n = None /\ 0 < n < INODE_NUM.
Proof.
  intros H. assert (Hn : n ∈ Spec.free_inums m) by (rewrite H; left).
  apply list_elem_of_filter in Hn as [Hn Hr]. apply elem_of_seqZ in Hr. split; [done | lia].
Qed.

Lemma create_done type id0 c n rest :
  coherent c -> s16 type <> 0 -> Spec.free_inums (files c) = n :: rest ->
  exists c', ec_create type id0 c = Done (c', OK, n) /\ coherent c' /\
    files c' = <[n := File (s16 type) []]> (files c) /\
    (forall id, view c' id = if decide (id = n) then Some (File (s16 type) []) else view c id) /\
    acache c' = acache c /\ bcache c' = bcache c /\ acache c !! n = None /\ bcache c !! n = None.
Proof.
  intros (Hi & Hbc & Hac & Haid) Hty Hfree. destruct (free_inum_free _ _ _ Hfree) as [Hnone _].
  assert (Hb : bcache c !! n = None).
  { destruct (bcache c !! n) as [b|] eqn:E; [| done]. destruct (Hbc n b E) as ([f Hf] & _).
    by rewrite Hnone in Hf. }
  assert (Ha : acache c !! n = None).
  { destruct (acache c !! n) as [a|] eqn:E; [| done]. destruct (Haid n) as [f Hf]; [by eexists |].
    by rewrite Hnone in Hf. }
  unfold ec_create. destruct (remote_done (ReqCreate type) c Hi Hty) as (s' & r & -> & Hi' & Hf & ->).
  rewrite bind_Done. unfold Spec.create. cbn [next] in Hf. unfold Spec.create in Hf.
  rewrite Hfree in *. cbn [fst snd] in *.
  set (c' := EC _ _ _ _). assert (Hfiles : files c' = <[n := File (s16 type) []]> (files c)) by exact Hf.
  assert (Hv : forall id, view c' id = if decide (id = n) then Some (File (s16 type) []) else view c id).
  { intros id. unfold view. rewrite Hfiles. change (bcache c') with (bcache c).
    destruct (decide (id = n)) as [->|Hne]; [by rewrite Hb, lookup_insert_eq |].
    by rewrite lookup_insert_ne. }
  assert (Hex : forall id, is_Some (files c !! id) -> is_Some (files c' !! id)).
  { intros id. rewrite Hfiles, lookup_insert. case_decide; [by eexists | done]. }
  exists c'. split_and!; try done. split_and!; [done | | |].
  - intros id b Hb'. destruct (Hbc id b Hb') as (H1 & H2 & H3). split_and!; auto.
    rewrite Hfiles, lookup_insert_ne; [done |]. intros <-. change (bcache c') with (bcache c) in Hb'.
    by rewrite Hb in Hb'.
  - intros id a f Ha' Hvf. rewrite Hv in Hvf. destruct (decide (id = n)) as [->|Hne].
    + change (acache c') with (acache c) in Ha'. by rewrite Ha in Ha'.
    + by apply (Hac id a f).
  - intros id Hs. by apply Hex, Haid.
Qed.

Lemma flush_done eid c :
  coherent c -> id_ok eid ->
  (forall b, bcache c !! eid = Some b -> dirty b = true -> deleted b = false ->
     admissible (ReqPut eid (buf b)) (files c)) ->
  exists c', ec_flush eid c = Done c' /\ coherent c' /\
    (forall id, view c' id = view c id) /\ bcache c' !! eid = None /\
    files c' !! eid = view c eid /\
    (forall id, id <> eid -> files c' !! id = files c !! id /\ bcache c' !! id = bcache c !! id).
Proof.
  intros (Hi & Hbc & Hac & Haid) Hid Hadm. unfold ec_flush.
  destruct (bcache c !! eid) as [b|] eqn:Hb.
  2:{ exists c. split_and!; auto; [by split_and! |]. unfold view. by rewrite Hb. }
  set (c0 := EC (delete eid (acache c)) (delete eid (bcache c)) (server c) (calls c)).
  assert (Hmain : forall s' n, es_inv s' -> es_files s' !! eid = view c eid ->
    (forall id, id <> eid -> es_files s' !! id = files c !! id) ->
    let c' := EC (acache c0) (bcache c0) s' n in
    coherent c' /\ (forall id, view c' id = view c id) /\ bcache c' !! eid = None /\
    files c' !! eid = view c eid /\
    (forall id, id <> eid -> files c' !! id = files c !! id /\ bcache c' !! id = bcache c !! id)).
  { intros s' n Hi' He Hoth c'.
    assert (Hv : forall id, view c' id = view c id).
    { intros id. unfold view at 1, files, c'. cbn [server bcache c0]. rewrite lookup_delete.
      destruct (decide (eid = id)) as [->|Hne]; [done |]. unfold view.
      by rewrite Hoth by done. }
    split_and!; [| done | apply lookup_delete_eq | done |].
    - split_and!; [done | | |].
      + intros id b'. unfold c'. cbn [bcache acache server c0]. rewrite !lookup_delete.
        case_decide as Hne; [done |]. intros Hb'. destruct (Hbc id b' Hb') as (H1 & H2 & H3).
        unfold files. cbn [server]. rewrite Hoth by done. split_and!; auto.
      + intros id a f. rewrite Hv. unfold c'. cbn [acache c0]. rewrite lookup_delete.
        case_decide; [done |]. apply Hac.
      + intros id. unfold c'. cbn [acache c0]. rewrite lookup_delete.
        case_decide as Hne; [by intros [] |]. unfold files. cbn [server]. rewrite Hoth by done. apply Haid.
    - intros id Hne. split; [by apply Hoth |]. unfold c'. cbn [bcache c0].
      by rewrite lookup_delete_ne. }
  destruct (Hbc eid b Hb) as (_ & _ & Hclean).
  destruct (deleted b) eqn:Hdel; [| destruct (dirty b) eqn:Hdirty].
  - destruct (remote_done (ReqRemove eid) c0 Hi I) as (s' & r & -> & Hi' & Hf & _).
    rewrite bind_Done. cbn [verify Z.eqb OK]. rewrite bind_Done. eexists. split; [reflexivity |].
    cbn [next] in Hf. rewrite mask_id_small in Hf by done.
    apply Hmain; [done | |].
    + unfold view. rewrite Hb, Hdel, Hf. apply lookup_delete_eq.
    + intros id Hne. rewrite Hf. by apply lookup_delete_ne.
  - destruct (remote_done (ReqPut eid (buf b)) c0 Hi (Hadm b eq_refl Hdirty Hdel))
      as (s' & r & -> & Hi' & Hf & _).
    rewrite bind_Done. cbn [verify Z.eqb OK]. rewrite bind_Done. eexists. split; [reflexivity |].
    cbn [next] in Hf. rewrite mask_id_small in Hf by done.
    apply Hmain; [done | |].
    + unfold view. rewrite Hb, Hdel, Hdirty, Hf. unfold Spec.write. apply lookup_alter_eq.
    + intros id Hne. rewrite Hf. by apply lookup_alter_ne.
  - eexists. split; [reflexivity |]. apply Hmain; [done | | done].
    unfold view. by rewrite Hb, Hdel, Hdirty.
Qed.

(** The attributes in the cache: remote calls leave them alone, getattr
    enters what it returns, flush only drops entries. *)
Lemma remote_acache q c r : remote q c = Done r -> acache (fst (fst r)) = acache c.
Proof.
  unfold remote. destruct (net (calls c)) as [[|st|st] e]; [| by intros [= <-] |];
    (destruct (es_serve e q (server c)) as [[s a]|]; [| done]); by intros [= <-].
Qed.

Lemma getattr_acache eid a0 c c' a :
  ec_getattr eid a0 c = Done (c', OK, a) -> acache c' !! eid = Some a.
Proof.
  unfold ec_getattr. destruct (acache c !! eid) as [a1|] eqn:Ha; [by intros [= <- <-] |].
  intros H. apply bind_Done_inv in H as ([[c1 ret] rep] & Hr & H). cbn -[insert] in H.
  injection H as H1 H2 H3. rewrite H2 in H1. change (OK =? OK) with true in H1. cbn -[insert] in H1.
  rewrite <- H1. cbn [acache set_acache]. rewrite lookup_insert_eq. by rewrite H3.
Qed.

Lemma flush_acache eid c c' id a :
  ec_flush eid c = Done c' -> acache c' !! id = Some a -> acache c !! id = Some a.
Proof.
  unfold ec_flush. destruct (bcache c !! eid) as [b|]; [| by intros [= <-]].
  set (c0 := EC _ _ _ _). intros H Ha. assert (Hc : acache c' = delete eid (acache c)).
  { destruct (deleted b); [| destruct (dirty b); [| by injection H as <-]];
      apply bind_Done_inv in H as ([[c1 ret] rep] & Hr & H); apply bind_Done_inv in H as (u & _ & H);
      apply remote_acache in Hr; by injection H as <-. }
  rewrite Hc in Ha. by apply lookup_delete_Some in Ha as [_ Ha].
Qed.

(** ** The cached type of a file *)

(** It is the type of the file, or 0: put makes a record without a type when
    none is cached. *)
Definition types_ok (c : client) : Prop :=
  forall id a f, acache c !! id = Some a -> files c !! id = Some f -> a_type a = u32 (f_type f) \/ a_type a = 0.

Lemma types_ok_same c c' :
  types_ok c -> (forall id a, acache c' !! id = Some a -> acache c !! id = Some a) ->
  (forall id f', is_Some (acache c' !! id) -> files c' !! id = Some f' -> exists f, files c !! id = Some f /\ f_type f = f_type f') -> types_ok c'.
Proof.
  intros Ht Ha Hf id a f' Hc Hc'. destruct (Hf id f' (ex_intro _ _ Hc) Hc') as (f & Hf1 & <-). eapply Ht; [by apply Ha | done].
Qed.

Lemma put_types eid bs c : types_ok c -> types_ok (fst (ec_put eid bs c)).
Proof.
  intros Ht id a f. cbn [ec_put fst acache files]. rewrite lookup_insert. case_decide as Hd; [| by apply Ht].
  subst id. intros [= <-] Hf. change (es_files (server c) !! eid = Some f) in Hf. cbn [set_attr_size a_type].
  destruct (acache c !! eid) as [a|] eqn:E; [by apply (Ht eid) | by right].
Qed.

Lemma getattr_types eid a0 c c' a :
  coherent c -> id_ok eid -> is_Some (view c eid) -> types_ok c -> ec_getattr eid a0 c = Done (c', OK, a) ->
  types_ok c' /\ forall f, view c eid = Some f -> a_type a = u32 (f_type f) \/ a_type a = 0.
Proof.
  intros Hco Hid Hv Ht Hg. destruct (getattr_done eid a0 c Hco Hid Hv) as (c1 & a1 & Hg1 & _ & _ & Hf & _ & _ & Hty & Hsame).
  rewrite Hg in Hg1. injection Hg1 as <- <-.
  assert (Ha : forall f, files c !! eid = Some f -> a_type a = u32 (f_type f) \/ a_type a = 0).
  { intros f Hff. destruct (acache c !! eid) as [a'|] eqn:E; [| left; by apply Hty]. rewrite (Hsame a' eq_refl). by apply (Ht eid). }
  split.
  - intros id a' f. rewrite Hf. intros Hc Hff. destruct (decide (id = eid)) as [->|Hne].
    + rewrite (getattr_acache eid a0 c c' a Hg) in Hc. injection Hc as <-. by apply Ha.
    + apply (Ht id a' f); [| done]. unfold ec_getattr in Hg. destruct (acache c !! eid); [by injection Hg as <- _ |].
      apply bind_Done_inv in Hg as ([[c2 ret] rep] & Hr & Hg). apply remote_acache in Hr. cbn [fst] in Hr. cbn -[insert] in Hg.
      injection Hg as <- -> _. change (OK =? OK) with true in Hc. cbn [acache set_acache] in Hc. by rewrite lookup_insert_ne, Hr in Hc.
  - intros f Hvf. destruct (view_files c eid Hv) as [f0 Hf0]. assert (f_type f = f_type f0) as ->; [| by apply Ha].
    unfold view in Hvf. rewrite Hf0 in Hvf. repeat case_match; simplify_eq/=; done.
Qed.

(** ** Programs over the cache *)

Inductive cop := CCreate (type : Z) | CGet (id : Z) | CPut (id : Z) (bs : list Z) | CGetattr (id : Z)
  | CRemove (id : Z) | CFlush (id : Z).
Inductive cans := AId (id : Z) | ABytes (bs : list Z) | AAttr (a : attr) | ADone.

Definition ec_do (o : cop) (c : client) : outcome (client * cans) :=
  match o with
  | CCreate type => r ← ec_create type 0 c; mret (fst (fst r), AId (snd r))
  | CGet id => r ← ec_get id [] c; mret (fst (fst r), ABytes (snd r))
  | CPut id bs => mret (fst (ec_put id bs c), ADone)
  | CGetattr id => r ← ec_getattr id attr_zero c; mret (fst (fst r), AAttr (snd r))
  | CRemove id => mret (fst (ec_remove id c), ADone)
  | CFlush id => c ← ec_flush id c; mret (c, ADone)
  end.

Fixpoint ec_run (l : list cop) (c : client) : outcome (client * list cans) :=
  match l with
  | [] => Done (c, [])
  | o :: l => r ← ec_do o c; r' ← ec_run l (fst r); mret (fst r', snd r :: snd r')
  end.

(** The uncached meaning of an operation: the store before, the answer and the
    store behind.  create returns an unused id; of the attributes the size is
    right, and the type is right or missing. *)
Inductive cop_does : cop -> fstore -> cans -> fstore -> Prop :=
| cd_create type n m : m !! n = None -> 0 < n < INODE_NUM -> cop_does (CCreate type) m (AId n) (<[n := File (s16 type) []]> m)
| cd_get id f m : m !! id = Some f -> cop_does (CGet id) m (ABytes (f_data f)) m
| cd_put id bs m : cop_does (CPut id bs) m ADone (Spec.write id bs m)
| cd_getattr id f a m :
    m !! id = Some f -> a_size a = u32 (Z.of_nat (length (f_data f))) -> a_type a = u32 (f_type f) \/ a_type a = 0 ->
    cop_does (CGetattr id) m (AAttr a) m
| cd_remove id m : cop_does (CRemove id) m ADone (Spec.remove id m)
| cd_flush id m : cop_does (CFlush id) m ADone m.

(** Operations name files that exist; there is an inode for a new file, and what
    flush writes fits the disk. *)
Definition cop_ok (o : cop) (c : client) : Prop :=
  match o with
  | CCreate type => s16 type <> 0 /\ Spec.free_inums (files c) <> []
  | CGet id | CPut id _ | CGetattr id | CRemove id => id_ok id /\ is_Some (view c id)
  | CFlush id => id_ok id /\
      forall b, bcache c !! id = Some b -> dirty b = true -> deleted b = false ->
        admissible (ReqPut id (buf b)) (files c)
  end.

Definition sees (c : client) (m : fstore) : Prop := forall id, view c id = m !! id.

Lemma ec_do_step o c m :
  coherent c -> types_ok c -> sees c m -> cop_ok o c ->
  exists c' a m', ec_do o c = Done (c', a) /\ coherent c' /\ types_ok c' /\ sees c' m' /\ cop_does o m a m'.
Proof.
  intros Hco Ht Hs Hok. destruct o as [type|id|id bs|id|id|id]; cbn [cop_ok] in Hok; destruct Hok as [Hid Hok]; cbn [ec_do].
  - destruct (Spec.free_inums (files c)) as [|n rest] eqn:Hfree; [done |].
    destruct (create_done type 0 c n rest Hco Hid Hfree) as (c' & Hc & Hco' & Hf & Hv & Ha & Hb & Hna & Hnb).
    destruct (free_inum_free _ _ _ Hfree) as [Hnone Hrange]. rewrite Hc, bind_Done. exists c', (AId n), (<[n := File (s16 type) []]> m). split_and!; [done | done | | |].
    + apply (types_ok_same c); [done | by rewrite Ha |]. intros id f' [a Hida]. rewrite Ha in Hida. rewrite Hf, lookup_insert.
      case_decide; [congruence |]. eauto.
    + intros id. rewrite Hv, lookup_insert. repeat case_decide; subst; first [done | apply Hs].
    + constructor; [| done]. rewrite <- Hs. unfold view. by rewrite Hnb.
  - destruct Hok as [f Hf]. destruct (get_done id [] c f Hco Hid Hf) as (c' & Hg & Hco' & Hv & Hfi & Ha).
    rewrite Hg, bind_Done. eexists c', _, m. split_and!; [done | done | | | constructor; by rewrite <- Hs].
    + apply (types_ok_same c); [done | by rewrite Ha | rewrite Hfi; eauto].
    + intros id'. cbn [fst]. rewrite Hv. apply Hs.
  - destruct (put_done id bs c Hco Hok) as (Hco' & _ & Hv).
    eexists _, _, (Spec.write id bs m). split_and!; [done | done | by apply put_types | | constructor]. intros id'. rewrite Hv.
    unfold Spec.write. rewrite lookup_alter, <- !Hs.
    destruct (decide (id' = id)) as [->|Hne]; [by rewrite decide_True | by rewrite decide_False].
  - destruct (getattr_done id attr_zero c Hco Hid Hok) as (c' & a & Hg & Hco' & Hv & _ & _ & Hsz & _).
    destruct (getattr_types id attr_zero c c' a Hco Hid Hok Ht Hg) as [Ht' Hty].
    rewrite Hg, bind_Done. eexists _, _, m. split_and!; [done | done | done | |].
    + intros id'. cbn [fst]. rewrite Hv. apply Hs.
    + destruct Hok as [f Hf]. apply (cd_getattr id f); [by rewrite <- Hs | by apply Hsz | by apply Hty].
  - destruct (remove_done id c Hco Hok) as (Hco' & _ & Hv).
    eexists _, _, (Spec.remove id m). split_and!; [done | done | | | constructor].
    + apply (types_ok_same c); [done | done |]. intros id' f' _ Hf'. by exists f'.
    + intros id'. rewrite Hv. unfold Spec.remove. rewrite lookup_delete, <- !Hs.
      destruct (decide (id' = id)) as [->|Hne]; [by rewrite decide_True | by rewrite decide_False].
  - destruct (flush_done id c Hco Hid Hok) as (c' & Hf & Hco' & Hv & Hb & Hfe & Hfo).
    rewrite Hf, bind_Done. eexists _, _, m. split_and!; [done | done | | | constructor].
    + apply (types_ok_same c); [done | intros id' a; by eapply flush_acache |]. intros id' f' _ Hf'.
      destruct (decide (id' = id)) as [->|Hne]; [| rewrite (proj1 (Hfo id' Hne)) in Hf'; by exists f'].
      rewrite Hfe in Hf'. destruct (view_files c id (ex_intro _ _ Hf')) as [f Hff]. exists f. split; [done |].
      unfold view in Hf'. rewrite Hff in Hf'. repeat case_match; simplify_eq/=; done.
    + intros id'. rewrite Hv. apply Hs.
Qed.

(** Every operation of the program is in order where it runs. *)
Fixpoint program_ok (l : list cop) (c : client) : Prop :=
  match l with
  | [] => True
  | o :: l => cop_ok o c /\ match ec_do o c with Done (c', _) => program_ok l c' | Fault _ => True end
  end.

Inductive uncached_run : list cop -> fstore -> list cans -> fstore -> Prop :=
| ur_nil m : uncached_run [] m [] m
| ur_cons o l m a m1 rs m' : cop_does o m a m1 -> uncached_run l m1 rs m' -> uncached_run (o :: l) m (a :: rs) m'.


(** Flush sends a pending removal or the pending bytes to the server,
    drops the entry, makes the server's file what the program saw, changes
    no other file and does not change what the program sees. *)
Theorem flush_writes_back eid c :
  coherent c -> id_ok eid -> cop_ok (CFlush eid) c ->
  exists c', dorelease eid c = Done c' /\ coherent c' /\
    files c' !! eid = view c eid /\ bcache c' !! eid = None /\
    forall id, view c' id = view c id /\ (id <> eid -> files c' !! id = files c !! id).
Proof.
  intros Hco Hid Hok.
  destruct (flush_done eid c Hco Hid (proj2 Hok)) as (c' & Hf & Hco' & Hv & Hn & He & Ho).
  exists c'. split_and!; auto. intros id. split; [apply Hv |]. intros Hne. by apply Ho.
Qed.

(** ** Two clients of one server *)

Definition with_server (s : S) (c : client) : client := EC (acache c) (bcache c) s (calls c).

(** A client that caches nothing of [eid] stays coherent when the file
    changes under it. *)
Lemma coherent_with_server s eid c :
  coherent c -> es_inv s -> bcache c !! eid = None -> acache c !! eid = None ->
  (forall id, id <> eid -> es_files s !! id = files c !! id) ->
  coherent (with_server s c).
Proof.
  intros (Hi & Hbc & Hac & Haid) Hs Hb Ha Heq.
  assert (Hne : forall id, is_Some (bcache c !! id) \/ is_Some (acache c !! id) ->
    files (with_server s c) !! id = files c !! id).
  { intros id H. apply Heq. intros ->. rewrite Hb, Ha in H. by destruct H as [[]|[]]. }
  split_and!; [done | | |].
  - intros id b Hb'. rewrite Hne by (left; by eexists). by apply Hbc.
  - intros id a f Ha' Hv. apply (Hac id a f Ha'). rewrite <- Hv. unfold view.
    rewrite Hne by (right; by eexists). done.
  - intros id Ha'. rewrite Hne by (by right). by apply Haid.
Qed.

(** When one client has written a file and gives up its lock (dorelease
    flushes it), another client of the same server that has nothing of that
    file in its caches reads the bytes the first one wrote, and both caches
    stay coherent. *)
Theorem release_handoff eid bs buf0 cA cB :
  coherent cA -> coherent cB -> server cB = server cA -> id_ok eid -> is_Some (view cA eid) ->
  admissible (ReqPut eid bs) (files cA) -> bcache cB !! eid = None -> acache cB !! eid = None ->
  exists cA' cB',
    dorelease eid (fst (ec_put eid bs cA)) = Done cA' /\
    ec_get eid buf0 (with_server (server cA') cB) = Done (cB', OK, bs) /\
    coherent cA' /\ coherent cB'.
Proof.
  intros HcA HcB Hsrv Hid Hex Hadm Hb Ha.
  destruct (put_done eid bs cA HcA Hex) as (HcA1 & Hf1 & Hv1).
  destruct (flush_done eid _ HcA1 Hid) as (cA' & Hfl & HcA' & _ & _ & He & Ho).
  { rewrite Hf1. cbn [ec_put fst bcache]. intros b. rewrite lookup_insert_eq. by intros [= <-] _ _. }
  assert (HcB1 : coherent (with_server (server cA') cB)).
  { apply (coherent_with_server _ eid); auto; [apply HcA' |]. intros id Hne.
    destruct (Ho id Hne) as [Heq _]. unfold files in *. by rewrite Heq, Hf1, Hsrv. }
  destruct Hex as [f Hf]. rewrite Hv1, decide_True, Hf in He by done.
  destruct (get_done eid buf0 (with_server (server cA') cB) (File (f_type f) bs) HcB1 Hid)
    as (cB' & Hg & HcB' & _); [unfold view; cbn [with_server bcache]; by rewrite Hb |].
  by exists cA', cB'.
Qed.

(** Attributes read without the contents outlive the lock: flush finds no
    buffer and returns early, so after another client has changed the file
    getattr still answers with the old attributes. *)
Theorem stale_attributes_after_release eid a a0 s c :
  acache c !! eid = Some a -> bcache c !! eid = None ->
  dorelease eid c = Done c /\ ec_getattr eid a0 (with_server s c) = Done (with_server s c, OK, a).
Proof.
  intros Ha Hb. unfold dorelease, ec_flush, ec_getattr. rewrite Hb. split; [done |].
  cbn [with_server acache]. by rewrite Ha.
Qed.

(** Put to a file whose attributes are not cached creates an attribute
    record with type 0; getattr then answers with it, whatever the type of
    the file. *)
Theorem put_forgets_type eid bs a0 c :
  acache c !! eid = None ->
  let c' := fst (ec_put eid bs c) in
  ec_getattr eid a0 c' = Done (c', OK, Attr 0 0 0 0 (u32 (Z.of_nat (length bs)))).
Proof.
  intros Ha. unfold ec_getattr, ec_put. cbn [fst acache]. rewrite lookup_insert_eq, Ha. done.
Qed.

End client.

(** ** The client of the extent server *)

Definition reliable : nat -> delivery * env := fun _ => (Delivered, demo_env).
Definition fresh_client {S : Type} (s : S) : extent_client S := EC ∅ ∅ s 0.

Lemma demo_env_ok : env_ok demo_env.
Proof. split; [reflexivity | apply Nat.leb_le; reflexivity]. Qed.

Lemma reliable_ok : net_ok reliable.
Proof. intros n. split; [reflexivity | apply demo_env_ok]. Qed.

Lemma fresh_client_coherent {S : Type} `{!ExtentService S} (s : S) :
  es_inv s -> coherent (fresh_client s).
Proof.
  intros H. split_and!; [exact H | | |]; cbn [fresh_client acache bcache].
  - intros id b. by rewrite lookup_empty.
  - intros id a f. by rewrite lookup_empty.
  - intros id [a Ha']. by rewrite lookup_empty in Ha'.
Qed.

Lemma fresh_client_sees {S : Type} `{!ExtentService S} (s : S) : sees (fresh_client s) (es_files s).
Proof. intros id. unfold view. cbn [fresh_client bcache]. by rewrite lookup_empty. Qed.

Lemma one_ok : id_ok 1.
Proof. unfold id_ok. lia. Qed.

Lemma small_put_admissible : admissible (ReqPut 1 [104; 105]) {[1 := File T_DIR []]}.
Proof. split; apply Nat.leb_le; vm_compute; reflexivity. Qed.


Lemma flush_writes_back_witness :
  exists bm c', inode_manager_new zero_block 5 = Done bm /\
    dorelease reliable 1 (fst (ec_put 1 [104; 105] (fresh_client bm))) = Done c' /\
    files c' !! 1 = Some (File T_DIR [104; 105]).
Proof.
  destruct (inode_manager_new_done zero_block 5) as (bm & Hn & Hok & Ha).
  destruct (flush_writes_back reliable reliable_ok 1 (fst (ec_put 1 [104; 105] (fresh_client bm))))
    as (c' & Hd & _ & Hf & _).
  - apply put_done; [apply (fresh_client_coherent (S := block_manager)), Hok |].
    rewrite (fresh_client_sees bm 1). simpl es_files. rewrite Ha. by eexists.
  - apply one_ok.
  - split; [apply one_ok |]. intros b Hb _ _. injection Hb as <-.
    unfold files. simpl es_files. rewrite Ha. apply small_put_admissible.
  - exists bm, c'. split; [exact Hn |]. split; [exact Hd |]. rewrite Hf.
    unfold view, files. simpl es_files. rewrite Ha. reflexivity.
Defined.

Lemma release_handoff_witness :
  exists bm cA' cB', inode_manager_new zero_block 5 = Done bm /\
    dorelease reliable 1 (fst (ec_put 1 [104; 105] (fresh_client bm))) = Done cA' /\
    ec_get reliable 1 [] (with_server (server cA') (fresh_client bm)) = Done (cB', OK, [104; 105]).
Proof.
  destruct (inode_manager_new_done zero_block 5) as (bm & Hn & Hok & Ha).
  destruct (release_handoff reliable reliable_ok 1 [104; 105] [] (fresh_client bm) (fresh_client bm))
    as (cA' & cB' & Hd & Hg & _).
  - apply (fresh_client_coherent (S := block_manager)), Hok.
  - apply (fresh_client_coherent (S := block_manager)), Hok.
  - reflexivity.
  - apply one_ok.
  - rewrite (fresh_client_sees bm 1). simpl es_files. rewrite Ha. by eexists.
  - unfold files. simpl es_files. rewrite Ha. apply small_put_admissible.
  - reflexivity.
  - reflexivity.
  - exists bm, cA', cB'. split; [exact Hn |]. split; [exact Hd | exact Hg].
Defined.

Lemma stale_attributes_after_release_witness :
  exists bm bm', inode_manager_new zero_block 5 = Done bm /\
    let c := EC {[1 := Attr T_DIR 5 5 5 0]} ∅ bm 1 in
    dorelease reliable 1 c = Done c /\
    ec_getattr reliable 1 attr_zero (with_server bm' c) = Done (with_server bm' c, OK, Attr T_DIR 5 5 5 0).
Proof.
  destruct (inode_manager_new_done zero_block 5) as (bm & Hn & Hok & Ha).
  exists bm, bm. split; [exact Hn |]. intros c.
  apply (stale_attributes_after_release reliable); reflexivity.
Defined.

Lemma put_forgets_type_witness :
  exists bm, inode_manager_new zero_block 5 = Done bm /\
    let c' := fst (ec_put 1 [104; 105] (fresh_client bm)) in
    ec_getattr reliable 1 attr_zero c' = Done (c', OK, Attr 0 0 0 0 2).
Proof.
  destruct (inode_manager_new_done zero_block 5) as (bm & Hn & Hok & Ha).
  exists bm. split; [exact Hn |].
  apply (put_forgets_type reliable 1 [104; 105] attr_zero (fresh_client bm)). reflexivity.
Defined.
