(* ===== verification/YfsDir.v ===== *)
(** * The directory format (src/yfs_client.cc)

    A directory is a file whose bytes are a sequence of slots
      inum (4) | name length (4) | name | slot length (4) | slack
    with little-endian words.  Inode number 0 marks a blank slot; a fresh
    directory consists of one blank slot of 12 bytes.

    Here are the byte-level routines (newdir, filldir, parsedir) and the three
    loops that walk a directory (of readdir, create and unlink), on a buffer
    and an offset for the pointers [cstr] and [pbuf].  A directory whose slot
    length is 0 makes the loops run forever, so they take fuel; on the bytes
    of a list of slots, fuel above the number of slots is enough. *)

From S2P Require Import Prelude.

(** ** The routines *)

Definition newdir : list Z := le_enc 4 0 ++ le_enc 4 0 ++ le_enc 4 12.

(** The bytes of [cstr] and [size]. *)
Definition filldir (inum newnamelen entrylen : Z) (name : list Z) (preventrylen : Z)
    : outcome (list Z * Z) :=
  name ← (if newnamelen =? 0 then mret [] else load_bytes name 0 (Z.to_nat newnamelen));
  let offset := if preventrylen =? 0 then 0 else 4 in
  mret ((if preventrylen =? 0 then [] else le_enc 4 preventrylen) ++
        le_enc 4 inum ++ le_enc 4 newnamelen ++ name ++ le_enc 4 entrylen,
        s32 (12 + newnamelen + offset)).

(** What [parsedir] leaves in its reference arguments, and the pointer it
    returns. *)
Record parsed := Parsed {
  p_next : Z; p_remain : Z; p_inum : Z; p_filelen : Z; p_entrylen : Z; p_name : list Z }.

Definition parsedir (mem : list Z) (p remain : Z) : outcome (option parsed) :=
  if remain <? 8 then
    _ ← verify (remain =? 0); mret None
  else
    inum ← load32 mem p;
    filelen ← load32 mem (p + 4);
    _ ← verify (negb (remain <? s32 (u32 (filelen + 12))));
    name ← (if filelen =? 0 then mret [] else load_bytes mem (p + 8) (Z.to_nat filelen));
    entrylen ← load32 mem (p + 8 + filelen);
    mret (Some (Parsed (p + entrylen) (s32 (u32 (remain - entrylen))) inum filelen entrylen name)).

(** [remain = buf.length(); cstr = new char[remain + 1]; memcpy(...)]; the last
    character is not initialised. *)
Definition copy_out (pad : Z) (buf : list Z) : outcome (list Z * Z) :=
  let remain := s32 (Z.of_nat (length buf)) in
  if remain <? 0 then Fault UncaughtException
  else Done (take (Z.to_nat remain) buf ++ [pad], remain).

Record dirent := Dirent { d_name : list Z; d_inum : Z }.

Fixpoint readdir_loop (fuel : nat) (mem : list Z) (p remain : Z) (acc : list dirent)
    : outcome (list dirent) :=
  match fuel with
  | O => Fault OutOfFuel
  | S fuel =>
      r ← parsedir mem p remain;
      match r with
      | None => mret acc
      | Some q => readdir_loop fuel mem (p_next q) (p_remain q)
                    (if p_inum q =? 0 then acc else acc ++ [Dirent (p_name q) (p_inum q)])
      end
  end.

(** Where [create] puts a new entry. *)
Inductive place := Inject (p namelen entrylen : Z) | Append (p : Z).

Fixpoint create_loop (fuel : nat) (mem : list Z) (p remain newnamelen : Z) : outcome place :=
  match fuel with
  | O => Fault OutOfFuel
  | S fuel =>
      r ← parsedir mem p remain;
      match r with
      | None => mret (Append p)
      | Some q =>
          if u32 (newnamelen + p_filelen q + 24) <? p_entrylen q
          then mret (Inject p (p_filelen q) (p_entrylen q))
          else create_loop fuel mem (p_next q) (p_remain q) newnamelen
      end
  end.

(** The slot [unlink] blanks: its offset and length, if it is found. *)
Fixpoint unlink_loop (fuel : nat) (mem : list Z) (p remain : Z) (name : list Z) (ino : Z)
    : outcome (option (Z * Z)) :=
  match fuel with
  | O => Fault OutOfFuel
  | S fuel =>
      r ← parsedir mem p remain;
      match r with
      | None => mret None
      | Some q =>
          if negb (p_inum q =? 0) && bool_decide (p_name q = name)
          then mret (if p_inum q =? ino then Some (p, p_entrylen q) else None)
          else unlink_loop fuel mem (p_next q) (p_remain q) name ino
      end
  end.

(** [for it in entries: if (!it->name.compare(name)) ...] *)
Fixpoint lookup_loop (entries : list dirent) (name : list Z) : option Z :=
  match entries with
  | [] => None
  | e :: entries => if bool_decide (d_name e = name) then Some (d_inum e) else lookup_loop entries name
  end.

(** ** Slots *)

Record slot := Slot { s_inum : Z; s_name : list Z; s_slack : list Z }.

Definition slot_len (s : slot) : Z := 12 + Z.of_nat (length (s_name s)) + Z.of_nat (length (s_slack s)).

Definition slot_bytes (s : slot) : list Z :=
  le_enc 4 (s_inum s) ++ le_enc 4 (Z.of_nat (length (s_name s))) ++ s_name s ++
  le_enc 4 (slot_len s) ++ s_slack s.

Definition dir_bytes (d : list slot) : list Z := mjoin (slot_bytes <$> d).

(** Directories the 32-bit fields can describe. *)
Definition dir_wf (d : list slot) : Prop :=
  Forall (fun s => is_u32 (s_inum s)) d /\ Z.of_nat (length (dir_bytes d)) < 2 ^ 31.

Definition used (s : slot) : bool := negb (s_inum s =? 0).
Definition entries (d : list slot) : list dirent :=
  (fun s => Dirent (s_name s) (s_inum s)) <$> filter (fun s => used s) d.

(** What unlink makes of a slot: its first 12 bytes are a blank slot of the
    same length, the rest is slack. *)
Definition blanked (s : slot) : slot := Slot 0 [] (drop 12 (slot_bytes s)).
Definition new_slot (inum : Z) (name : list Z) : slot := Slot inum name [].

Lemma filter_bool_cons {A} (f : A -> bool) x l :
  filter (fun y => f y) (x :: l) = if f x then x :: filter (fun y => f y) l else filter (fun y => f y) l.
Proof.
  rewrite filter_cons. destruct (decide (f x)) as [H|H].
  - apply Is_true_true in H. by rewrite H.
  - apply Is_true_false in H. by rewrite H.
Qed.

Lemma length_slot_bytes s : Z.of_nat (length (slot_bytes s)) = slot_len s.
Proof. unfold slot_bytes, slot_len. rewrite !length_app, !length_le_enc. lia. Qed.

Lemma dir_bytes_cons s d : dir_bytes (s :: d) = slot_bytes s ++ dir_bytes d.
Proof. reflexivity. Qed.

Lemma dir_bytes_app d e : dir_bytes (d ++ e) = dir_bytes d ++ dir_bytes e.
Proof. unfold dir_bytes. by rewrite fmap_app, join_app. Qed.

Lemma slot_len_pos s : 12 <= slot_len s.
Proof. unfold slot_len. lia. Qed.

Lemma length_dir_bytes d : (12 * length d <= length (dir_bytes d))%nat.
Proof.
  induction d as [|s d IH]; [done |]. rewrite dir_bytes_cons, length_app. cbn [length].
  pose proof (length_slot_bytes s). pose proof (slot_len_pos s). lia.
Qed.

Lemma newdir_slots : newdir = dir_bytes [Slot 0 [] []].
Proof. reflexivity. Qed.

(** ** Loads from a concatenation *)

Lemma load_bytes_app pre x rest off :
  off = Z.of_nat (length pre) -> load_bytes (pre ++ x ++ rest) off (length x) = Done x.
Proof.
  intros ->. unfold load_bytes. rewrite !length_app.
  destruct (Z.leb_spec 0 (Z.of_nat (length pre))); [| lia].
  destruct (Z.leb_spec (Z.of_nat (length pre) + Z.of_nat (length x))
    (Z.of_nat (length pre + (length x + length rest)))); [| lia].
  cbn [andb]. f_equal. unfold sub. rewrite Nat2Z.id, drop_app_length. apply take_app_length.
Qed.

Lemma load32_app pre v rest off :
  is_u32 v -> off = Z.of_nat (length pre) -> load32 (pre ++ le_enc 4 v ++ rest) off = Done v.
Proof.
  intros Hv Ho. unfold load32. rewrite <- (length_le_enc 4 v) at 2. rewrite load_bytes_app by done.
  rewrite bind_Done. by rewrite le_dec_enc32.
Qed.

Lemma length_le4 z : Z.of_nat (length (le_enc 4 z)) = 4.
Proof. by rewrite length_le_enc. Qed.

(** ** parsedir reads a slot *)

Lemma parsedir_end mem p : parsedir mem p 0 = Done None.
Proof. reflexivity. Qed.

Lemma parsedir_slot pre s rest k :
  is_u32 (s_inum s) -> 0 <= k -> slot_len s + k < 2 ^ 31 ->
  parsedir (pre ++ slot_bytes s ++ rest) (Z.of_nat (length pre)) (slot_len s + k) =
    Done (Some (Parsed (Z.of_nat (length pre) + slot_len s) k (s_inum s)
      (Z.of_nat (length (s_name s))) (slot_len s) (s_name s))).
Proof.
  intros Hi Hk Hb. pose proof (slot_len_pos s) as Hp. unfold parsedir.
  destruct (Z.ltb_spec (slot_len s + k) 8); [lia |].
  assert (Hlen : 0 <= Z.of_nat (length (s_name s)) <= slot_len s - 12) by (unfold slot_len; lia).
  set (n := Z.of_nat (length (s_name s))) in *. unfold slot_bytes. fold n. rewrite <- !app_assoc.
  rewrite (load32_app pre (s_inum s) _ (Z.of_nat (length pre))) by done. rewrite bind_Done.
  rewrite (app_assoc pre).
  rewrite (load32_app (pre ++ _) n _ (Z.of_nat (length pre) + 4));
    [| unfold is_u32; lia | rewrite length_app, length_le_enc; lia].
  rewrite bind_Done, u32_id by (unfold is_u32; lia). rewrite s32_id by (unfold is_s32; lia).
  destruct (Z.ltb_spec (slot_len s + k) (n + 12)); [lia |]. cbn [negb verify]. rewrite bind_Done.
  rewrite (app_assoc (pre ++ _)).
  assert (Hname : (if n =? 0 then mret [] else
    load_bytes (((pre ++ le_enc 4 (s_inum s)) ++ le_enc 4 n) ++ s_name s ++
      le_enc 4 (slot_len s) ++ s_slack s ++ rest) (Z.of_nat (length pre) + 8) (Z.to_nat n))
    = Done (s_name s)).
  { destruct (Z.eqb_spec n 0) as [E|E].
    - destruct (s_name s); [done | unfold n in E; cbn [length] in E; lia].
    - unfold n. rewrite Nat2Z.id. apply load_bytes_app. rewrite !length_app, !length_le_enc. lia. }
  rewrite Hname, bind_Done, (app_assoc ((pre ++ _) ++ _)).
  rewrite load32_app; [| unfold is_u32; lia | rewrite !length_app, !length_le_enc; lia].
  rewrite bind_Done. replace (slot_len s + k - slot_len s) with k by lia.
  rewrite u32_id, s32_id by (unfold is_u32, is_s32; lia). done.
Qed.

Lemma copy_out_done pad buf :
  Z.of_nat (length buf) < 2 ^ 31 -> copy_out pad buf = Done (buf ++ [pad], Z.of_nat (length buf)).
Proof.
  intros H. unfold copy_out. rewrite s32_id by (unfold is_s32; lia).
  destruct (Z.ltb_spec (Z.of_nat (length buf)) 0); [lia |]. by rewrite Nat2Z.id, take_ge by lia.
Qed.

(** ** The loops on a list of slots *)

(** Positions in the bytes of [pre ++ d]: the walk has passed [pre]. *)
Definition at_slots (pre d : list slot) (rest : list Z) : list Z :=
  dir_bytes pre ++ dir_bytes d ++ rest.
Definition pos (pre : list slot) : Z := Z.of_nat (length (dir_bytes pre)).
Definition dir_len (d : list slot) : Z := Z.of_nat (length (dir_bytes d)).

Lemma at_slots_cons pre s d rest : at_slots pre (s :: d) rest = at_slots (pre ++ [s]) d rest.
Proof.
  unfold at_slots. rewrite dir_bytes_app, (dir_bytes_cons s d), (dir_bytes_cons s []).
  cbn [dir_bytes fmap list_fmap mjoin list_join]. rewrite app_nil_r. by rewrite <- !app_assoc.
Qed.

Lemma pos_cons pre s : pos (pre ++ [s]) = pos pre + slot_len s.
Proof.
  unfold pos. rewrite dir_bytes_app, length_app, dir_bytes_cons, length_app.
  rewrite <- length_slot_bytes. cbn [dir_bytes fmap list_fmap mjoin list_join length]. lia.
Qed.

Lemma dir_len_cons s d : dir_len (s :: d) = slot_len s + dir_len d.
Proof. unfold dir_len. rewrite dir_bytes_cons, length_app. rewrite <- length_slot_bytes. lia. Qed.

Lemma dir_wf_cons s d : dir_wf (s :: d) <-> is_u32 (s_inum s) /\ dir_len (s :: d) < 2 ^ 31 /\ dir_wf d.
Proof.
  unfold dir_wf. rewrite Forall_cons. fold (dir_len (s :: d)) (dir_len d). rewrite dir_len_cons.
  pose proof (slot_len_pos s). intuition lia.
Qed.

Lemma dir_wf_tail s d : dir_wf (s :: d) -> dir_wf d.
Proof. rewrite dir_wf_cons. tauto. Qed.

Lemma parsedir_head pre s d rest :
  dir_wf (s :: d) ->
  parsedir (at_slots pre (s :: d) rest) (pos pre) (dir_len (s :: d)) =
    Done (Some (Parsed (pos (pre ++ [s])) (dir_len d) (s_inum s)
      (Z.of_nat (length (s_name s))) (slot_len s) (s_name s))).
Proof.
  intros (Hi & Hl & _)%dir_wf_cons. unfold at_slots. rewrite dir_bytes_cons, <- app_assoc, pos_cons.
  rewrite dir_len_cons in *. unfold pos. apply parsedir_slot; [done | unfold dir_len; lia | done].
Qed.

Lemma readdir_loop_slots d pre rest acc fuel :
  dir_wf d -> (length d < fuel)%nat ->
  readdir_loop fuel (at_slots pre d rest) (pos pre) (dir_len d) acc = Done (acc ++ entries d).
Proof.
  revert pre acc fuel. induction d as [|s d IH]; intros pre acc fuel Hwf Hf;
    (destruct fuel as [|fuel]; [cbn [length] in Hf; lia |]); cbn [readdir_loop].
  - rewrite parsedir_end, bind_Done. by rewrite app_nil_r.
  - rewrite parsedir_head, bind_Done by done. cbn [p_next p_remain p_inum p_name].
    rewrite at_slots_cons, IH; [| by apply dir_wf_tail in Hwf | cbn [length] in Hf; lia].
    f_equal. unfold entries. rewrite filter_bool_cons. change (used s) with (negb (s_inum s =? 0)).
    destruct (s_inum s =? 0); [done |]. cbn [negb]. by rewrite fmap_cons, <- app_assoc.
Qed.

(** Room for a name of [n] bytes, as create tests it. *)
Definition has_room (n : Z) (s : slot) : bool :=
  n + Z.of_nat (length (s_name s)) + 24 <? slot_len s.

Lemma create_loop_slots d pre rest fuel n :
  dir_wf d -> (length d < fuel)%nat -> 0 <= n -> n + dir_len d + 12 < 2 ^ 31 ->
  Forall (fun s => has_room n s = false) d ->
  create_loop fuel (at_slots pre d rest) (pos pre) (dir_len d) n = Done (Append (pos (pre ++ d))).
Proof.
  revert pre fuel. induction d as [|s d IH]; intros pre fuel Hwf Hf Hn Hb Hr;
    (destruct fuel as [|fuel]; [cbn [length] in Hf; lia |]); cbn [create_loop].
  - rewrite parsedir_end, bind_Done. by rewrite app_nil_r.
  - apply Forall_cons in Hr as [Hs Hr]. rewrite parsedir_head, bind_Done by done.
    cbn [p_next p_remain p_filelen p_entrylen].
    apply dir_wf_cons in Hwf as (Hi & Hl & Hwf). rewrite dir_len_cons in Hb.
    assert (0 <= dir_len d) by (unfold dir_len; lia).
    rewrite u32_id; [| unfold slot_len in Hb; unfold is_u32; lia].
    unfold has_room in Hs. rewrite Hs. rewrite at_slots_cons, IH; auto;
      [| cbn [length] in Hf; lia | pose proof (slot_len_pos s); lia].
    by rewrite <- app_assoc.
Qed.

Definition named (name : list Z) (s : slot) : bool := used s && bool_decide (s_name s = name).

Lemma unlink_loop_slots d s d' pre rest fuel name :
  dir_wf (d ++ s :: d') -> (length d < fuel)%nat ->
  Forall (fun t => named name t = false) d -> named name s = true ->
  unlink_loop fuel (at_slots pre (d ++ s :: d') rest) (pos pre) (dir_len (d ++ s :: d')) name (s_inum s) =
    Done (Some (pos (pre ++ d), slot_len s)).
Proof.
  revert pre fuel. induction d as [|t d IH]; intros pre fuel Hwf Hf Hd Hs;
    (destruct fuel as [|fuel]; [cbn [length] in Hf; lia |]); cbn [unlink_loop].
  - cbn [app]. rewrite parsedir_head, bind_Done by done.
    cbn [p_inum p_name p_entrylen]. unfold named, used in Hs. rewrite Hs, Z.eqb_refl.
    by rewrite app_nil_r.
  - cbn [app] in *. apply Forall_cons in Hd as [Ht Hd].
    rewrite parsedir_head, bind_Done by done. cbn [p_next p_remain p_inum p_name].
    unfold named, used in Ht. rewrite Ht. rewrite at_slots_cons, IH; auto.
    + by rewrite <- app_assoc.
    + by apply dir_wf_tail in Hwf.
    + cbn [length] in Hf. lia.
Qed.

(** ** lookup *)

Definition slot_of (name : list Z) (d : list slot) : option slot := head (filter (fun s => named name s) d).

Lemma lookup_loop_entries d name : lookup_loop (entries d) name = s_inum <$> slot_of name d.
Proof.
  unfold entries, slot_of. induction d as [|s d IH]; [done |]. rewrite !filter_bool_cons.
  unfold named at 1. destruct (used s); cbn [andb]; [| done].
  rewrite fmap_cons. cbn [lookup_loop d_name d_inum]. by destruct (bool_decide (s_name s = name)).
Qed.

Lemma slot_of_split name d s :
  slot_of name d = Some s ->
  exists d1 d2, d = d1 ++ s :: d2 /\ Forall (fun t => named name t = false) d1 /\ named name s = true.
Proof.
  unfold slot_of. induction d as [|t d IH]; [done |]. rewrite filter_bool_cons.
  destruct (named name t) eqn:Ht.
  - cbn [head]. intros [= ->]. by exists [], d.
  - intros Hs. destruct (IH Hs) as (d1 & d2 & -> & Hd1 & Hn). exists (t :: d1), d2. split_and!; auto.
Qed.

Lemma slot_of_none name d : slot_of name d = None <-> Forall (fun t => named name t = false) d.
Proof.
  unfold slot_of. induction d as [|t d IH]; [done |]. rewrite filter_bool_cons, Forall_cons.
  destruct (named name t); [| tauto]. cbn [head]. split; [done | by intros []].
Qed.

Lemma slot_of_app name d e :
  slot_of name (d ++ e) = match slot_of name d with Some s => Some s | None => slot_of name e end.
Proof. unfold slot_of. rewrite filter_app. by destruct (filter _ d). Qed.
