(* ===== verification/YfsOps.v ===== *)
(** * The operations of the file system client (src/yfs_client.cc, src/yfs_client.h)

    The operations behind the FUSE callbacks, whole handlers, over what they
    call: the extent client [ec], the lock client [lc] and the set [held_lock]
    of the object.  The class [YfsPrims] lists those calls for a monad [M], so
    that the same text runs in two ways: against one client's cache
    (YfsClient.v), and as a program that many clients run at once
    (YfsProgram.v). *)

From S2P Require Import Prelude Disk InodeManager FileSpec ExtentServer ExtentClient YfsDir.

(** enum xxstatus; the first four are those of extent_protocol. *)
Definition EXIST : Z := 4.
Definition ENOTEMPTY : Z := 39.

Record fileinfo := Fileinfo { fi_size : Z; fi_atime : Z; fi_mtime : Z; fi_ctime : Z }.
Record dirinfo := Dirinfo { di_atime : Z; di_mtime : Z; di_ctime : Z }.

(** What the operations call. *)
Class YfsPrims (M : Type -> Type) := {
  p_lift : forall {A}, outcome A -> M A;          (* code that touches no state *)
  p_held : M (gset Z);                            (* held_lock *)
  p_set_held : gset Z -> M unit;
  p_acquire : Z -> M Z;                           (* lc->acquire *)
  p_release : Z -> M Z;                           (* lc->release *)
  y_getattr : Z -> M (Z * attr)%type;                  (* ec->getattr: status and attr *)
  y_get : Z -> M (Z * list Z)%type;                    (* ec->get *)
  y_create : Z -> M (Z * Z)%type;                      (* ec->create *)
  y_put : Z -> list Z -> M Z;                     (* ec->put *)
  y_remove : Z -> M Z                             (* ec->remove *)
}.

(** ** Strings *)

Definition max_size : Z := 2 ^ 63 - 1.
Definition size (s : list Z) : Z := Z.of_nat (length s).

(** [resize(n, 0)] *)
Definition resize (n : Z) (s : list Z) : outcome (list Z) :=
  if max_size <? n then Fault UncaughtException
  else Done (take (Z.to_nat n) s ++ replicate (Z.to_nat n - length s) 0).

(** [replace(pos, n, data, n)] *)
Definition replace (pos n : Z) (data : list Z) (s : list Z) : outcome (list Z) :=
  if size s <? pos then Fault UncaughtException
  else bytes ← load_bytes data 0 (Z.to_nat n);
       Done (take (Z.to_nat pos) s ++ bytes ++ drop (Z.to_nat (Z.min (pos + n) (size s))) s).

(** [substr(pos, n)] *)
Definition substr (pos n : Z) (s : list Z) : outcome (list Z) :=
  if size s <? pos then Fault UncaughtException
  else Done (take (Z.to_nat (Z.min n (size s - pos))) (drop (Z.to_nat pos) s)).

Section ops.
Context {M : Type -> Type} `{!MRet M} `{!MBind M} `{!YfsPrims M}.
(** The character behind a copied directory. *)
Variable pad : Z.

(** ** Locks *)

Definition lock (i : Z) : M Z :=
  h ← p_held;
  if bool_decide (i ∈ h) then mret 1
  else
    r ← p_acquire i;
    _ ← p_lift (verify (r =? 0));
    _ ← p_set_held ({[i]} ∪ h);
    mret 0.

Definition unlock (i : Z) : M Z :=
  h ← p_held;
  _ ← p_lift (verify (bool_decide (i ∈ h)));
  _ ← p_set_held (h ∖ {[i]});
  r ← p_release i;
  _ ← p_lift (verify (r =? 0));
  mret 0.

(** [if (!lr) unlock(i)] *)
Definition unlock_if (lr i : Z) : M unit :=
  if lr =? 0 then _ ← unlock i; mret tt else mret tt.

(** ** Operations *)

Definition isfile (i : Z) : M bool :=
  lr ← lock i;
  r ← y_getattr i;
  if negb (fst r =? OK) then _ ← unlock_if lr i; mret false
  else _ ← unlock_if lr i; mret (a_type (snd r) =? T_FILE).

Definition isdir (i : Z) : M bool := b ← isfile i; mret (negb b).

Definition getfile (i : Z) (fin : fileinfo) : M (Z * fileinfo)%type :=
  lr ← lock i;
  r ← y_getattr i;
  if negb (fst r =? OK) then _ ← unlock_if lr i; mret (IOERR, fin)
  else _ ← unlock_if lr i;
       let a := snd r in mret (OK, Fileinfo (a_size a) (a_atime a) (a_mtime a) (a_ctime a)).

Definition getdir (i : Z) (din : dirinfo) : M (Z * dirinfo)%type :=
  lr ← lock i;
  r ← y_getattr i;
  if negb (fst r =? OK) then _ ← unlock_if lr i; mret (IOERR, din)
  else _ ← unlock_if lr i;
       let a := snd r in mret (OK, Dirinfo (a_atime a) (a_mtime a) (a_ctime a)).

Definition setattr (ino n : Z) : M Z :=
  lr ← lock ino;
  r ← y_get ino;
  let '(st, buf) := r in
  if negb (st =? OK) then _ ← unlock_if lr ino; mret st
  else
    buf ← p_lift (if n =? size buf then Done buf else resize n buf);
    st ← y_put ino buf;
    _ ← unlock_if lr ino;
    mret st.

Definition read (ino n off : Z) (data0 : list Z) : M (Z * list Z)%type :=
  lr ← lock ino;
  r ← y_get ino;
  let '(st, buf) := r in
  if negb (st =? OK) then _ ← unlock_if lr ino; mret (st, data0)
  else _ ← unlock_if lr ino;
       data ← p_lift (substr (u64 off) n buf);
       mret (st, data).

(** [off_t] is signed; sums with [size_t] wrap at 64 bits. *)
Definition write (ino n off : Z) (data : list Z) (bytes_written0 : Z) : M (Z * Z)%type :=
  lr ← lock ino;
  r ← y_get ino;
  let '(st, buf) := r in
  if negb (st =? OK) then _ ← unlock_if lr ino; mret (st, bytes_written0)
  else
    let len := s32 (size buf) in
    buf ← p_lift (if size buf <? u64 (off + n) then resize (u64 (off + n)) buf else Done buf);
    buf ← p_lift (replace (u64 off) n data buf);
    let bytes_written := if len <=? off then u64 (off + n - len) else n in
    st ← y_put ino buf;
    _ ← unlock_if lr ino;
    mret (st, bytes_written).

Definition readdir (dir : Z) : M (Z * list dirent)%type :=
  lr ← lock dir;
  r ← y_get dir;
  let '(st, buf) := r in
  if negb (st =? OK) then _ ← unlock_if lr dir; mret (st, [])
  else
    _ ← unlock_if lr dir;
    mr ← p_lift (copy_out pad buf);
    let '(mem, remain) := mr in
    l ← p_lift (readdir_loop (length mem + 1) mem 0 remain []);
    mret (st, l).

(** The status and [ino_out] if [found]. *)
Definition lookup (parent : Z) (name : list Z) : M (Z * option Z)%type :=
  r ← readdir parent;
  if negb (fst r =? OK) then mret (fst r, None)
  else mret (fst r, lookup_loop (snd r) name).

Definition create_entry (parent ino : Z) (name : list Z) (pl : place) : M (Z * Z)%type :=
  let newnamelen := s32 (size name) in
  match pl with
  | Inject p namelen entrylen =>
      f ← p_lift (filldir (u32 ino) (u32 newnamelen) (u32 (entrylen - namelen - 12)) (name ++ [0])
                  (u32 (namelen + 12)));
      write parent (u64 (snd f)) (p - 4) (fst f) 0
  | Append p =>
      f ← p_lift (filldir (u32 ino) (u32 newnamelen) (u32 (newnamelen + 12)) (name ++ [0]) 0);
      write parent (u64 (snd f)) p (fst f) 0
  end.

(** The status and, once it is set, [ino_out]; [mode] is not used. *)
Definition create (parent : Z) (name : list Z) (type : Z) : M (Z * option Z)%type :=
  lr ← lock parent;
  r ← lookup parent name;
  let '(st, found) := r in
  if negb (st =? OK) then _ ← unlock_if lr parent; mret (st, None)
  else match found with
  | Some _ => _ ← unlock_if lr parent; mret (EXIST, None)
  | None =>
      r ← y_create (u32 type);
      let '(st, ino) := r in
      if negb (st =? OK) then _ ← unlock_if lr parent; mret (st, None)
      else
        st ← (if type =? T_DIR
              then r ← y_put ino newdir; mret (if r =? OK then 0 else 1)
              else mret OK);
        if negb (st =? OK) then _ ← unlock_if lr parent; mret (st, None)
        else
          r ← y_get parent;
          let '(st, buf) := r in
          if negb (st =? OK) then _ ← unlock_if lr parent; mret (st, Some ino)
          else
            mr ← p_lift (copy_out pad buf);
            let '(mem, remain) := mr in
            pl ← p_lift (create_loop (length mem + 1) mem 0 remain (s32 (size name)));
            w ← create_entry parent ino name pl;
            _ ← unlock_if lr parent;
            mret (fst w, Some ino)
  end.

Definition unlink (parent : Z) (name : list Z) : M Z :=
  lr1 ← lock parent;
  r ← lookup parent name;
  let '(st, found) := r in
  if negb (st =? OK) then mret st
  else match found with
  | None => mret NOENT
  | Some ino =>
      lr2 ← lock ino;
      d ← isdir ino;
      if (d : bool) then _ ← unlock_if lr2 ino; _ ← unlock_if lr1 parent; mret ENOTEMPTY
      else
        r ← y_get parent;
        let '(st, buf) := r in
        if negb (st =? OK) then _ ← unlock_if lr2 ino; _ ← unlock_if lr1 parent; mret st
        else
          mr ← p_lift (copy_out pad buf);
          let '(mem, remain) := mr in
          place ← p_lift (unlink_loop (length mem + 1) mem 0 remain name ino);
          _ ← (match place with
               | Some (p, entrylen) =>
                   f ← p_lift (filldir 0 0 entrylen [0] 0);
                   _ ← write parent (u64 (snd f)) p (fst f) 0; mret tt
               | None => mret tt
               end);
          _ ← unlock_if lr1 parent;
          st ← y_remove ino;
          _ ← unlock_if lr2 ino;
          mret st
  end.

(** The constructor, once the extent and lock clients exist: the status of
    put, of which only a message depends. *)
Definition yfs_client_init : M Z :=
  lr ← lock 1;
  st ← y_put 1 newdir;
  _ ← unlock_if lr 1;
  mret st.

End ops.
