(* ===== verification/YfsClient.v ===== *)
(** * The file system client (src/yfs_client.cc, src/yfs_client.h)

    The operations of YfsOps.v on one client: in a state and error monad over
    the client's state (the caching extent client of ExtentClient.v and the set
    [held_lock]).  [lock] is re-entrant through that set; [unlock] gives the
    lock to the lock client, which flushes the extent when a revocation is
    pending.  lock_client_cache::acquire and release only ever return OK
    (LockClient.v), so the VERIFYs around them pass; many clients together are
    the subject of Cluster.v.

    The theorems say what each operation does to the files the client sees
    ([sees] of ExtentClient.v) and to the directory as a list of slots
    (YfsDir.v). *)

From S2P Require Import Prelude Disk InodeManager FileSpec ExtentServer ExtentClient YfsDir YfsOps.

Record yfs (S : Type) := Yfs { y_ec : extent_client S; held_lock : gset Z; releases : nat }.
Arguments Yfs {S}. Arguments y_ec {S}. Arguments held_lock {S}. Arguments releases {S}.

(** ** The monad *)

Definition ym (S A : Type) : Type := yfs S -> outcome (yfs S * A).
#[export] Instance ym_ret {S} : MRet (ym S) := fun A a y => Done (y, a).
#[export] Instance ym_bind {S} : MBind (ym S) :=
  fun A B k m y => match m y with Done (y', a) => k a y' | Fault f => Fault f end.
Definition lift {S A} (m : outcome A) : ym S A :=
  fun y => match m with Done a => Done (y, a) | Fault f => Fault f end.

Lemma ym_bind_done {S A B} (m : ym S A) (k : A -> ym S B) y y' a :
  m y = Done (y', a) -> (m ≫= k) y = k a y'.
Proof. intros H. unfold mbind, ym_bind. by rewrite H. Qed.

Lemma ym_ret_bind {S A B} (a : A) (k : A -> ym S B) y : ((mret a : ym S A) ≫= k) y = k a y.
Proof. reflexivity. Qed.

Ltac ystep H := erewrite (ym_bind_done _ _ _ _ _ H); cbn beta iota zeta delta [fst snd];
  try (change (negb (OK =? OK)) with false; cbn beta iota zeta delta [fst snd]).

Lemma lift_done {S A} (m : outcome A) a (y : yfs S) : m = Done a -> lift m y = Done (y, a).
Proof. intros H. unfold lift. by rewrite H. Qed.

(** ** Bytes of files *)

Definition resized (n : nat) (old : list Z) : list Z := take n old ++ replicate (n - length old) 0.

(** Writing [data] at [off]; a hole is filled with zeros. *)
Definition overwrite (old : list Z) (off : nat) (data : list Z) : list Z :=
  resized off old ++ data ++ drop (off + length data) old.

Lemma u64_id z : 0 <= z < 2 ^ 64 -> u64 z = z.
Proof. apply Z.mod_small. Qed.

Lemma length_resized n old : length (resized n old) = n.
Proof. unfold resized. rewrite length_app, length_take, length_replicate. lia. Qed.

Lemma resize_done n old : 0 <= n <= max_size -> resize n old = Done (resized (Z.to_nat n) old).
Proof. intros H. unfold resize. destruct (Z.ltb_spec max_size n); [lia | done]. Qed.

Lemma replace_done off n data old :
  0 <= off <= size old -> n = size data ->
  replace off n data old =
    Done (take (Z.to_nat off) old ++ data ++ drop (Z.to_nat off + length data) old).
Proof.
  intros Ho ->. unfold replace, size in *. destruct (Z.ltb_spec (Z.of_nat (length old)) off); [lia |].
  rewrite Nat2Z.id. unfold load_bytes. rewrite Z.leb_refl. cbn [andb Z.leb].
  change (0 <=? 0) with true. destruct (Z.leb_spec (0 + Z.of_nat (length data)) (Z.of_nat (length data))); [| lia].
  cbn [andb]. rewrite bind_Done, sub_all by done. do 3 f_equal.
  destruct (Z.le_gt_cases (off + Z.of_nat (length data)) (Z.of_nat (length old))).
  - f_equal. lia.
  - rewrite !drop_ge by lia. done.
Qed.

Lemma take_resized n k old : (k <= n)%nat -> take k (resized n old) = resized k old.
Proof.
  intros H. unfold resized. rewrite take_app, take_take, length_take, take_replicate.
  replace (k `min` n)%nat with k by lia.
  destruct (Nat.le_gt_cases k (length old)).
  - replace (k - n `min` length old)%nat with (k - length old)%nat by lia. do 2 f_equal. lia.
  - do 2 f_equal. lia.
Qed.

Lemma write_bytes old off n data :
  0 <= off -> n = size data -> off + n <= max_size -> size old <= max_size ->
  exists buf, (if size old <? u64 (off + n) then resize (u64 (off + n)) old else Done old) = Done buf /\
    replace (u64 off) n data buf = Done (overwrite old (Z.to_nat off) data).
Proof.
  intros Ho -> Hm Hs. unfold max_size, size in *. rewrite !u64_id by lia.
  destruct (Z.ltb_spec (Z.of_nat (length old)) (off + Z.of_nat (length data))) as [Hlt|Hge].
  - eexists. split; [apply resize_done; unfold max_size; lia |].
    rewrite replace_done; [| unfold size; rewrite length_resized; lia | done].
    unfold overwrite. rewrite take_resized by lia. do 2 f_equal.
    rewrite !drop_ge; [done | lia |]. rewrite length_resized. lia.
  - eexists. split; [done |]. rewrite replace_done by (unfold size; lia || done).
    unfold overwrite, resized. replace (Z.to_nat off - length old)%nat with 0%nat by lia.
    by rewrite app_nil_r.
Qed.

Section client.
Context {S : Type} `{!ExtentService S}.
Variable net : nat -> delivery * env.
(** Whether a revocation is pending when the [n]-th release is made. *)
Variable revoked : nat -> bool.
(** The character behind a copied directory. *)
Variable pad : Z.

(** ** Operations *)

Definition with_ec (c : extent_client S) (y : yfs S) : yfs S := Yfs c (held_lock y) (releases y).

Definition on_ec {A} (f : extent_client S -> outcome (extent_client S * Z * A)) : ym S (Z * A) :=
  fun y => match f (y_ec y) with
           | Done (c, st, a) => Done (with_ec c y, (st, a))
           | Fault e => Fault e
           end.

(** lc->release: when a revocation is pending the lock goes back to the
    server, after dorelease. *)
Definition client_release (i : Z) : ym S Z := fun y =>
  let y' := Yfs (y_ec y) (held_lock y) (releases y + 1)%nat in
  if revoked (releases y)
  then c ← dorelease net i (y_ec y); Done (with_ec c y', 0)
  else Done (y', 0).

Definition ym_prims : YfsPrims (ym S) := {|
  p_lift := @lift S;
  p_held := fun y => Done (y, held_lock y);
  p_set_held := fun h y => Done (Yfs (y_ec y) h (releases y), tt);
  p_acquire := fun _ => mret 0;
  p_release := client_release;
  y_getattr := fun i => on_ec (ec_getattr net i attr_zero);
  y_get := fun i => on_ec (ec_get net i []);
  y_create := fun type => on_ec (ec_create net type 0);
  y_put := fun i bs y => let r := ec_put i bs (y_ec y) in Done (with_ec (fst r) y, snd r);
  y_remove := fun i y => let r := ec_remove i (y_ec y) in Done (with_ec (fst r) y, snd r)
|}.
#[local] Existing Instance ym_prims.

Abbreviation y_getattr := (YfsOps.y_getattr (M := ym S)).
Abbreviation y_get := (YfsOps.y_get (M := ym S)).
Abbreviation y_create := (YfsOps.y_create (M := ym S)).
Abbreviation y_put := (YfsOps.y_put (M := ym S)).
Abbreviation y_remove := (YfsOps.y_remove (M := ym S)).
Abbreviation lock := (YfsOps.lock (M := ym S)).
Abbreviation unlock := (YfsOps.unlock (M := ym S)).
Abbreviation unlock_if := (YfsOps.unlock_if (M := ym S)).
Abbreviation isfile := (YfsOps.isfile (M := ym S)).
Abbreviation isdir := (YfsOps.isdir (M := ym S)).
Abbreviation getfile := (YfsOps.getfile (M := ym S)).
Abbreviation getdir := (YfsOps.getdir (M := ym S)).
Abbreviation setattr := (YfsOps.setattr (M := ym S)).
Abbreviation read := (YfsOps.read (M := ym S)).
Abbreviation write := (YfsOps.write (M := ym S)).
Abbreviation readdir := (YfsOps.readdir (M := ym S) pad).
Abbreviation lookup := (YfsOps.lookup (M := ym S) pad).
Abbreviation create_entry := (YfsOps.create_entry (M := ym S)).
Abbreviation create := (YfsOps.create (M := ym S) pad).
Abbreviation unlink := (YfsOps.unlink (M := ym S) pad).

(** The constructor, once the extent and lock clients exist. *)
Definition yfs_client_new (c : extent_client S) : outcome (yfs S) :=
  match yfs_client_init (M := ym S) (Yfs c ∅ 0) with
  | Done (y, _) => Done y
  | Fault f => Fault f
  end.

(** ** Bringing the pieces together *)

Hypothesis Hnet : net_ok net.

Definition yok (y : yfs S) (m : fstore) : Prop := coherent (y_ec y) /\ sees (y_ec y) m.

Abbreviation y_files y := (files (y_ec y)).

(** What the client sees of file [i] fits the server's disk. *)
Definition fits (i : Z) (y : yfs S) (m : fstore) : Prop :=
  forall f, m !! i = Some f -> admissible (ReqPut i (f_data f)) (y_files y).

Lemma fits_flush i y m b :
  yok y m -> fits i y m -> bcache (y_ec y) !! i = Some b -> dirty b = true -> deleted b = false ->
  admissible (ReqPut i (buf b)) (y_files y).
Proof.
  intros [Hco Hs] Hf Hb Hd Hdel. destruct (proj1 (proj2 Hco) i b Hb) as ([f Hfi] & _).
  apply (Hf (File (f_type f) (buf b))). rewrite <- Hs. unfold view. by rewrite Hb, Hd, Hdel, Hfi.
Qed.

Lemma y_get_done i y m f :
  yok y m -> id_ok i -> m !! i = Some f ->
  exists y', y_get i y = Done (y', (OK, f_data f)) /\ yok y' m /\
    held_lock y' = held_lock y /\ y_files y' = y_files y /\ acache (y_ec y') = acache (y_ec y).
Proof.
  intros [Hco Hs] Hi Hf. rewrite <- Hs in Hf.
  destruct (get_done net Hnet i [] (y_ec y) f Hco Hi Hf) as (c' & Hg & Hco' & Hv & Hfi & Hac).
  exists (with_ec c' y). cbn [YfsOps.y_get ym_prims]. unfold on_ec. rewrite Hg. split_and!; auto.
  split; [done |]. intros id. cbn [y_ec with_ec]. by rewrite Hv.
Qed.

Lemma y_put_done i bs y m :
  yok y m -> is_Some (m !! i) ->
  exists y', y_put i bs y = Done (y', OK) /\ yok y' (Spec.write i bs m) /\
    held_lock y' = held_lock y /\ y_files y' = y_files y.
Proof.
  intros [Hco Hs] Hex. rewrite <- Hs in Hex.
  destruct (put_done i bs (y_ec y) Hco Hex) as (Hco' & Hfi & Hv).
  eexists. split; [reflexivity |]. split_and!; auto. split; [done |]. intros id.
  cbn [y_ec with_ec]. rewrite Hv. unfold Spec.write. rewrite lookup_alter, <- !Hs.
  destruct (decide (id = i)) as [->|Hne]; [by rewrite decide_True | by rewrite decide_False].
Qed.

Lemma y_remove_done i y m :
  yok y m -> is_Some (m !! i) ->
  exists y', y_remove i y = Done (y', OK) /\ yok y' (Spec.remove i m) /\
    held_lock y' = held_lock y /\ y_files y' = y_files y.
Proof.
  intros [Hco Hs] Hex. rewrite <- Hs in Hex.
  destruct (remove_done i (y_ec y) Hco Hex) as (Hco' & Hfi & Hv).
  eexists. split; [reflexivity |]. split_and!; auto. split; [done |]. intros id.
  cbn [y_ec with_ec]. rewrite Hv. unfold Spec.remove. rewrite lookup_delete, <- !Hs.
  destruct (decide (id = i)) as [->|Hne]; [by rewrite decide_True | by rewrite decide_False].
Qed.

(** The cached attributes of [i], if any, have the right type. *)
Definition typed (i : Z) (y : yfs S) (f : file) : Prop :=
  forall a, acache (y_ec y) !! i = Some a -> a_type a = u32 (f_type f).

Lemma y_getattr_done i y m f :
  yok y m -> id_ok i -> m !! i = Some f ->
  exists y' a, y_getattr i y = Done (y', (OK, a)) /\ yok y' m /\
    held_lock y' = held_lock y /\ y_files y' = y_files y /\
    a_size a = u32 (size (f_data f)) /\ (typed i y f -> a_type a = u32 (f_type f)).
Proof.
  intros [Hco Hs] Hi Hf. rewrite <- Hs in Hf.
  destruct (getattr_done net Hnet i attr_zero (y_ec y) Hco Hi) as
    (c' & a & Hg & Hco' & Hv & Hfi & Hb & Hsz & Hty & Hcached); [by eexists |].
  exists (with_ec c' y), a. cbn [YfsOps.y_getattr ym_prims]. unfold on_ec. rewrite Hg.
  split; [done |]. split; [split; [done |] |].
  { intros id. cbn [y_ec with_ec]. by rewrite Hv. }
  split_and!; [done | done | by apply Hsz |].
  { intros Ht. destruct (acache (y_ec y) !! i) as [a'|] eqn:Ha.
    + rewrite (Hcached a' eq_refl). by apply Ht.
    + destruct (view_files (y_ec y) i) as [f' Hf']; [by eexists |].
      rewrite (Hty f' Hf' eq_refl). f_equal. unfold view in Hf.
      destruct (bcache (y_ec y) !! i) as [b|]; [| by rewrite Hf' in Hf; injection Hf as ->].
      destruct (deleted b); [done |]. rewrite Hf' in Hf.
      destruct (dirty b); by injection Hf as <-. }
Qed.

Lemma y_create_done type y m n rest :
  yok y m -> s16 type <> 0 -> Spec.free_inums (y_files y) = n :: rest ->
  exists y', y_create type y = Done (y', (OK, n)) /\ yok y' (<[n := File (s16 type) []]> m) /\
    held_lock y' = held_lock y /\ y_files y' = <[n := File (s16 type) []]> (y_files y) /\ m !! n = None.
Proof.
  intros [Hco Hs] Ht Hfree.
  destruct (create_done net Hnet type 0 (y_ec y) n rest Hco Ht Hfree)
    as (c' & Hg & Hco' & Hfi & Hv & _ & _ & _ & Hb).
  exists (with_ec c' y). cbn [YfsOps.y_create ym_prims]. unfold on_ec. rewrite Hg.
  split; [done |]. split; [| split_and!; [done | done |]].
  - split; [done |]. intros id. cbn [y_ec with_ec]. rewrite Hv, lookup_insert.
    destruct (decide (id = n)) as [->|Hne]; [by rewrite decide_True | by rewrite decide_False].
  - rewrite <- Hs. unfold view. rewrite Hb. by destruct (free_inum_free _ _ _ Hfree).
Qed.

(** ** Locks *)

Definition locked (i : Z) (y : yfs S) : Prop := i ∈ held_lock y.

Lemma lock_held i y : locked i y -> lock i y = Done (y, 1).
Proof. intros H. unfold YfsOps.lock, mbind, ym_bind. cbn [p_held ym_prims]. by rewrite bool_decide_true. Qed.

Definition take_lock (i : Z) (y : yfs S) : yfs S := Yfs (y_ec y) ({[i]} ∪ held_lock y) (releases y).

Lemma lock_free i y : ~ locked i y -> lock i y = Done (take_lock i y, 0).
Proof. intros H. unfold YfsOps.lock, mbind, ym_bind. cbn [p_held ym_prims]. by rewrite bool_decide_false. Qed.

Lemma take_lock_locked i y : locked i (take_lock i y).
Proof. unfold locked, take_lock. cbn [held_lock]. by apply elem_of_union_l, elem_of_singleton_2. Qed.

Lemma unlock_eq i y :
  locked i y ->
  unlock i y =
    let y' := Yfs (y_ec y) (held_lock y ∖ {[i]}) (releases y + 1)%nat in
    if revoked (releases y) then c ← dorelease net i (y_ec y); Done (with_ec c y', 0) else Done (y', 0).
Proof.
  intros Hl. unfold YfsOps.unlock, mbind, ym_bind. cbn [p_held p_lift p_set_held p_release ym_prims].
  rewrite bool_decide_true by done. cbn [verify lift]. unfold client_release. cbn [releases y_ec held_lock].
  destruct (revoked (releases y)); [| done]. by destruct (dorelease net i (y_ec y)).
Qed.

Lemma unlock_done i y m :
  yok y m -> id_ok i -> locked i y -> fits i y m ->
  exists y', unlock i y = Done (y', 0) /\ yok y' m /\
    held_lock y' = held_lock y ∖ {[i]} /\ (forall id, id <> i -> y_files y' !! id = y_files y !! id).
Proof.
  intros Hy Hi Hl Hf. rewrite unlock_eq by done. cbn zeta. destruct (revoked (releases y)).
  - destruct (flush_done net Hnet i (y_ec y) (proj1 Hy) Hi) as (c' & Hfl & Hco' & Hv & _ & _ & Ho).
    { intros b. by apply (fits_flush i y m). }
    unfold dorelease. rewrite Hfl, bind_Done. eexists. split; [reflexivity |]. split_and!; [| done |].
    + split; [done |]. intros id. cbn [y_ec with_ec]. rewrite Hv. apply Hy.
    + intros id Hne. by apply Ho.
  - eexists. split; [reflexivity |]. by split_and!.
Qed.

Lemma release_taken i (h : gset Z) : i ∉ h -> ({[i]} ∪ h) ∖ {[i]} = h.
Proof.
  intros H. apply set_eq. intros x. rewrite elem_of_difference, elem_of_union, elem_of_singleton.
  destruct (decide (x = i)) as [->|]; tauto.
Qed.

(** [lr = lock(i)] has led from [y] to [y1]. *)
Definition opened (i : Z) (y y1 : yfs S) (lr : Z) : Prop :=
  (lr = 1 /\ y1 = y /\ locked i y) \/ (lr = 0 /\ y1 = take_lock i y /\ ~ locked i y).

Lemma lock_done i y :
  exists y1 lr, lock i y = Done (y1, lr) /\ y_ec y1 = y_ec y /\ locked i y1 /\ opened i y y1 lr /\
    (forall j, locked j y -> locked j y1).
Proof.
  destruct (decide (i ∈ held_lock y)) as [Hl|Hl].
  - exists y, 1. split_and!; [by apply lock_held | done | done | by left | done].
  - exists (take_lock i y), 0. split_and!; [by apply lock_free | done | apply take_lock_locked | by right |].
    intros j Hj. unfold locked, take_lock. cbn [held_lock]. by apply elem_of_union_r.
Qed.

(** [if (!lr) unlock(i)] *)
Lemma unlock_if_done i y y1 lr y2 m :
  opened i y y1 lr -> locked i y2 -> yok y2 m -> id_ok i -> (locked i y \/ fits i y2 m) ->
  exists y3, unlock_if lr i y2 = Done (y3, tt) /\ yok y3 m /\
    held_lock y3 = (if lr =? 0 then held_lock y2 ∖ {[i]} else held_lock y2) /\
    (forall id, id <> i -> y_files y3 !! id = y_files y2 !! id).
Proof.
  intros Ho Hlk Hy Hi Hf. destruct Ho as [(-> & -> & Hl)|(-> & -> & Hl)].
  - exists y2. by split_and!.
  - destruct Hf as [|Hf]; [done |].
    destruct (unlock_done i y2 m Hy Hi Hlk Hf) as (y3 & Hu & Hy3 & Hh3 & Ho3).
    exists y3. split_and!; auto.
    unfold unlock_if. rewrite Z.eqb_refl. by rewrite (ym_bind_done _ _ _ _ _ Hu).
Qed.

Lemma opened_locked i y y1 lr : opened i y y1 lr -> locked i y1.
Proof. intros [(_ & -> & H)|(_ & -> & _)]; [done | apply take_lock_locked]. Qed.

(** ... when the body has kept the locks. *)
Lemma close_lock i y y1 lr y2 m :
  opened i y y1 lr -> held_lock y2 = held_lock y1 -> yok y2 m -> id_ok i ->
  (locked i y \/ fits i y2 m) ->
  exists y3, unlock_if lr i y2 = Done (y3, tt) /\ yok y3 m /\ held_lock y3 = held_lock y /\
    (forall id, id <> i -> y_files y3 !! id = y_files y2 !! id).
Proof.
  intros Ho Hh Hy Hi Hf. destruct (unlock_if_done i y y1 lr y2 m Ho) as (y3 & Hu & Hy3 & Hh3 & Hf3); auto.
  { unfold locked. rewrite Hh. by apply (opened_locked i y y1 lr). }
  exists y3. split_and!; auto. rewrite Hh3, Hh. destruct Ho as [(-> & -> & Hl)|(-> & -> & Hl)]; [done |].
  by apply release_taken.
Qed.

Lemma yok_ec y y1 m : y_ec y1 = y_ec y -> yok y m -> yok y1 m.
Proof. unfold yok. by intros ->. Qed.

(** ** Files *)

Lemma fits_same i y y2 m f :
  y_files y2 = y_files y -> m !! i = Some f -> admissible (ReqPut i (f_data f)) (y_files y) -> fits i y2 m.
Proof. intros H Hf Ha f'. rewrite Hf, H. by intros [= <-]. Qed.

Lemma read_done ino n off data0 y m f :
  yok y m -> id_ok ino -> m !! ino = Some f ->
  (locked ino y \/ admissible (ReqPut ino (f_data f)) (y_files y)) ->
  0 <= off < 2 ^ 63 -> 0 <= n ->
  exists y', yok y' m /\ held_lock y' = held_lock y /\
    read ino n off data0 y =
      if size (f_data f) <? off then Fault UncaughtException
      else Done (y', (OK, take (Z.to_nat n) (drop (Z.to_nat off) (f_data f)))).
Proof.
  intros Hy Hi Hf Hadm Hoff Hn. destruct (lock_done ino y) as (y1 & lr & Hl & Hec & _ & Ho & _).
  destruct (y_get_done ino y1 m f (yok_ec _ _ _ Hec Hy) Hi Hf) as (y2 & Hg & Hy2 & Hh2 & Hf2 & Ha2).
  destruct (close_lock ino y y1 lr y2 m Ho Hh2 Hy2 Hi) as (y3 & Hu & Hy3 & Hh3 & _).
  { destruct Hadm as [|Hadm]; [by left | right]. apply (fits_same ino y y2 m f); auto. by rewrite Hf2, Hec. }
  exists y3. split_and!; auto. unfold read. ystep Hl. ystep Hg. ystep Hu.
  rewrite u64_id by lia. unfold substr. destruct (Z.ltb_spec (size (f_data f)) off); [done |].
  unfold mbind, ym_bind, lift. unfold mret, ym_ret. do 3 f_equal. unfold size in *.
  destruct (Z.le_gt_cases n (Z.of_nat (length (f_data f)) - off)).
  - f_equal. lia.
  - rewrite !take_ge; [done | |]; rewrite length_drop; lia.
Qed.

Lemma write_done ino n off data bw0 y m f :
  yok y m -> id_ok ino -> m !! ino = Some f -> n = size data -> 0 <= off -> off + n <= max_size ->
  size (f_data f) < 2 ^ 31 ->
  (locked ino y \/ admissible (ReqPut ino (overwrite (f_data f) (Z.to_nat off) data)) (y_files y)) ->
  exists y', write ino n off data bw0 y =
      Done (y', (OK, if size (f_data f) <=? off then off + n - size (f_data f) else n)) /\
    yok y' (Spec.write ino (overwrite (f_data f) (Z.to_nat off) data) m) /\ held_lock y' = held_lock y /\
    (locked ino y -> y_files y' = y_files y).
Proof.
  intros Hy Hi Hf Hn Hoff Hmax Hsz Hadm. destruct (lock_done ino y) as (y1 & lr & Hl & Hec & _ & Ho & _).
  destruct (y_get_done ino y1 m f (yok_ec _ _ _ Hec Hy) Hi Hf) as (y2 & Hg & Hy2 & Hh2 & Hf2 & Ha2).
  destruct (write_bytes (f_data f) off n data) as (b & Hb & Hr); auto; [unfold max_size; lia |].
  set (new := overwrite _ _ _) in *.
  destruct (y_put_done ino new y2 m Hy2) as (y3 & Hp & Hy3 & Hh3 & Hf3); [by eexists |].
  destruct (close_lock ino y y1 lr y3 (Spec.write ino new m) Ho ltac:(congruence) Hy3 Hi)
    as (y4 & Hu & Hy4 & Hh4 & _).
  { destruct Hadm as [|Hadm]; [by left | right]. apply (fits_same ino y y3 _ (File (f_type f) new)); auto.
    - by rewrite Hf3, Hf2, Hec.
    - unfold Spec.write. by rewrite lookup_alter_eq, Hf. }
  assert (Hn0 : 0 <= n) by (rewrite Hn; unfold size; lia).
  exists y4. split_and!; auto.
  - unfold write. ystep Hl. ystep Hg. ystep (lift_done _ _ y2 Hb). ystep (lift_done _ _ y2 Hr).
    ystep Hp. ystep Hu. rewrite s32_id by (unfold is_s32, size in *; lia).
    destruct (Z.leb_spec (size (f_data f)) off); [| done]. rewrite u64_id; [done |].
    unfold max_size, size in *. lia.
  - intros Hlk. destruct Ho as [(-> & -> & _)|(_ & _ & Hno)]; [| done].
    unfold unlock_if in Hu. cbn in Hu. injection Hu as <-. congruence.
Qed.

Lemma setattr_done ino n y m f :
  yok y m -> id_ok ino -> m !! ino = Some f -> 0 <= n <= max_size ->
  admissible (ReqPut ino (resized (Z.to_nat n) (f_data f))) (y_files y) ->
  exists y', setattr ino n y = Done (y', OK) /\
    yok y' (Spec.write ino (resized (Z.to_nat n) (f_data f)) m) /\ held_lock y' = held_lock y.
Proof.
  intros Hy Hi Hf Hn Hadm. destruct (lock_done ino y) as (y1 & lr & Hl & Hec & _ & Ho & _).
  destruct (y_get_done ino y1 m f (yok_ec _ _ _ Hec Hy) Hi Hf) as (y2 & Hg & Hy2 & Hh2 & Hf2 & Ha2).
  set (new := resized (Z.to_nat n) (f_data f)) in *.
  assert (Hb : (if n =? size (f_data f) then Done (f_data f) else resize n (f_data f)) = Done new).
  { destruct (Z.eqb_spec n (size (f_data f))) as [->|]; [| by apply resize_done].
    unfold new, resized, size. rewrite Nat2Z.id, take_ge, Nat.sub_diag by lia. by rewrite app_nil_r. }
  destruct (y_put_done ino new y2 m Hy2) as (y3 & Hp & Hy3 & Hh3 & Hf3); [by eexists |].
  destruct (close_lock ino y y1 lr y3 (Spec.write ino new m) Ho ltac:(congruence) Hy3 Hi)
    as (y4 & Hu & Hy4 & Hh4 & _).
  { right. apply (fits_same ino y y3 _ (File (f_type f) new)); auto.
    - by rewrite Hf3, Hf2, Hec.
    - unfold Spec.write. by rewrite lookup_alter_eq, Hf. }
  exists y4. split_and!; auto.
  unfold setattr. ystep Hl. ystep Hg. ystep (lift_done _ _ y2 Hb). ystep Hp. ystep Hu. done.
Qed.

(** ** Directories *)

(** In the files [m], directory [i] has the slots [d]. *)
Definition is_dir (m : fstore) (i : Z) (d : list slot) : Prop :=
  dir_wf d /\ exists t, m !! i = Some (File t (dir_bytes d)).

Lemma copy_out_dir d : dir_wf d -> copy_out pad (dir_bytes d) = Done (at_slots [] d [pad], dir_len d).
Proof. intros [_ Hl]. by rewrite copy_out_done. Qed.

Lemma dir_fuel d : (length d < length (at_slots [] d [pad]) + 1)%nat.
Proof. unfold at_slots. rewrite !length_app. pose proof (length_dir_bytes d). lia. Qed.

Lemma readdir_done dir y m d :
  yok y m -> id_ok dir -> is_dir m dir d ->
  (locked dir y \/ admissible (ReqPut dir (dir_bytes d)) (y_files y)) ->
  exists y', readdir dir y = Done (y', (OK, entries d)) /\ yok y' m /\ held_lock y' = held_lock y /\
    (locked dir y -> y_files y' = y_files y /\ acache (y_ec y') = acache (y_ec y)).
Proof.
  intros Hy Hi [Hwf [t Hf]] Hadm. destruct (lock_done dir y) as (y1 & lr & Hl & Hec & _ & Ho & _).
  destruct (y_get_done dir y1 m _ (yok_ec _ _ _ Hec Hy) Hi Hf) as (y2 & Hg & Hy2 & Hh2 & Hf2 & Ha2).
  cbn [f_data] in Hg.
  destruct (close_lock dir y y1 lr y2 m Ho Hh2 Hy2 Hi) as (y3 & Hu & Hy3 & Hh3 & _).
  { destruct Hadm as [|Hadm]; [by left | right]. apply (fits_same dir y y2 m (File t (dir_bytes d))); auto. by rewrite Hf2, Hec. }
  pose proof (readdir_loop_slots d [] [pad] [] _ Hwf (dir_fuel d)) as Hloop.
  exists y3. split_and!; auto.
  - unfold readdir. ystep Hl. ystep Hg. ystep Hu. ystep (lift_done _ _ y3 (copy_out_dir d Hwf)).
    ystep (lift_done _ _ y3 Hloop). done.
  - intros Hlk. destruct Ho as [(-> & -> & _)|(_ & _ & Hno)]; [| done].
    unfold unlock_if in Hu. cbn in Hu. injection Hu as <-. split; congruence.
Qed.

Lemma lookup_done parent name y m d :
  yok y m -> id_ok parent -> is_dir m parent d ->
  (locked parent y \/ admissible (ReqPut parent (dir_bytes d)) (y_files y)) ->
  exists y', lookup parent name y = Done (y', (OK, s_inum <$> slot_of name d)) /\ yok y' m /\
    held_lock y' = held_lock y /\
    (locked parent y -> y_files y' = y_files y /\ acache (y_ec y') = acache (y_ec y)).
Proof.
  intros Hy Hi Hd Hadm. destruct (readdir_done parent y m d Hy Hi Hd Hadm) as (y1 & Hr & H).
  exists y1. split; [| done]. unfold lookup. ystep Hr. by rewrite lookup_loop_entries.
Qed.

Lemma filldir_new ino name :
  is_u32 ino -> size name < 2 ^ 31 - 12 ->
  filldir (u32 ino) (u32 (s32 (size name))) (u32 (s32 (size name) + 12)) (name ++ [0]) 0 =
    Done (slot_bytes (new_slot ino name), size name + 12).
Proof.
  intros Hino Hn. assert (Hs : 0 <= size name) by (unfold size; lia).
  rewrite s32_id by (unfold is_s32; lia). rewrite !u32_id by (unfold is_u32 in *; lia).
  unfold filldir. rewrite Z.eqb_refl.
  assert (Hname : (if size name =? 0 then mret [] else load_bytes (name ++ [0]) 0 (Z.to_nat (size name)))
    = Done name).
  { destruct (Z.eqb_spec (size name) 0) as [E|E].
    - destruct name; [done |]. unfold size in E. cbn [length] in E. lia.
    - unfold size. rewrite Nat2Z.id. by apply (load_bytes_app [] name [0] 0). }
  rewrite Hname, bind_Done. cbn [app]. rewrite s32_id by (unfold is_s32; lia).
  unfold slot_bytes, slot_len, new_slot. cbn [s_inum s_name s_slack length]. unfold size, mret, outcome_ret.
  rewrite app_nil_r. replace (12 + Z.of_nat (length name) + Z.of_nat 0) with (Z.of_nat (length name) + 12) by lia.
  do 2 f_equal. lia.
Qed.

Lemma overwrite_end old data : overwrite old (length old) data = old ++ data.
Proof.
  unfold overwrite, resized. rewrite Nat.sub_diag, take_ge, app_nil_r by lia.
  by rewrite (drop_ge old), app_nil_r by lia.
Qed.

Lemma dir_len_new d ino name : dir_len (d ++ [new_slot ino name]) = dir_len d + (size name + 12).
Proof.
  unfold dir_len. rewrite dir_bytes_app, length_app, dir_bytes_cons, length_app.
  pose proof (length_slot_bytes (new_slot ino name)) as Hs. unfold slot_len in Hs.
  cbn [new_slot s_name s_slack length] in Hs. unfold size. cbn [dir_bytes fmap list_fmap mjoin list_join length].
  lia.
Qed.

Lemma create_entry_append parent ino name y m d t :
  yok y m -> id_ok parent -> locked parent y -> dir_wf d -> m !! parent = Some (File t (dir_bytes d)) ->
  is_u32 ino -> dir_len (d ++ [new_slot ino name]) < 2 ^ 31 ->
  exists y', create_entry parent ino name (Append (pos d)) y = Done (y', (OK, size name + 12)) /\
    yok y' (Spec.write parent (dir_bytes (d ++ [new_slot ino name])) m) /\ held_lock y' = held_lock y /\
    y_files y' = y_files y.
Proof.
  intros Hy Hi Hl Hwf Hf Hino Hlen.
  assert (Hn : Z.of_nat (length (dir_bytes d)) + (size name + 12) < 2 ^ 31).
  { rewrite dir_len_new in Hlen. unfold dir_len in Hlen. lia. }
  assert (Hsb : size (slot_bytes (new_slot ino name)) = size name + 12).
  { unfold size at 1. rewrite length_slot_bytes. unfold slot_len, size. cbn [new_slot s_name s_slack length]. lia. }
  pose proof (filldir_new ino name Hino ltac:(lia)) as Hfill.
  destruct (write_done parent (size name + 12) (pos d) (slot_bytes (new_slot ino name)) 0 y m
    (File t (dir_bytes d))) as (y' & Hw & Hy' & Hh & Hfi); auto.
  - unfold pos. lia.
  - unfold pos, max_size. lia.
  - destruct Hwf. cbn [f_data]. unfold size. lia.
  - exists y'. split_and!; auto.
    + unfold create_entry. ystep (lift_done _ _ y Hfill). rewrite u64_id by (unfold size in *; lia).
      rewrite Hw. cbn [f_data]. unfold pos, size at 1. rewrite Z.leb_refl. do 4 f_equal. unfold size. lia.
    + cbn [f_data] in Hy'. unfold pos in Hy'. rewrite Nat2Z.id, overwrite_end in Hy'.
      rewrite dir_bytes_app, dir_bytes_cons. cbn [dir_bytes fmap list_fmap mjoin list_join].
      by rewrite app_nil_r.
Qed.

(** A new file or directory, as create leaves it. *)
Definition new_file (type : Z) : file := File type (if type =? T_DIR then newdir else []).

Lemma create_contents type n y m :
  yok y (<[n := File type []]> m) ->
  exists y', (if type =? T_DIR
      then r ← y_put n newdir; mret (if r =? OK then 0 else 1) else mret OK) y = Done (y', OK) /\
    yok y' (<[n := new_file type]> m) /\ held_lock y' = held_lock y /\ y_files y' = y_files y.
Proof.
  intros Hy. unfold new_file. destruct (type =? T_DIR); [| by exists y].
  destruct (y_put_done n newdir y _ Hy) as (y' & Hp & Hy' & Hh & Hf); [rewrite lookup_insert_eq; by eexists |].
  exists y'. split; [by ystep Hp |]. split_and!; auto.
  replace (<[n := File type newdir]> m) with (Spec.write n newdir (<[n := File type []]> m)); [done |].
  apply map_eq. intros j. unfold Spec.write. destruct (decide (n = j)) as [->|Hne].
  - by rewrite lookup_alter_eq, !lookup_insert_eq.
  - by rewrite lookup_alter_ne, !lookup_insert_ne.
Qed.

Lemma yfs_create_done parent name type y m d n rest :
  yok y m -> id_ok parent -> is_dir m parent d -> type = T_DIR \/ type = T_FILE ->
  slot_of name d = None -> Forall (fun s => has_room (size name) s = false) d ->
  Spec.free_inums (y_files y) = n :: rest ->
  dir_len (d ++ [new_slot n name]) < 2 ^ 31 ->
  (locked parent y \/ admissible (ReqPut parent (dir_bytes (d ++ [new_slot n name])))
    (<[n := File type []]> (y_files y))) ->
  exists y', create parent name type y = Done (y', (OK, Some n)) /\ m !! n = None /\
    yok y' (Spec.write parent (dir_bytes (d ++ [new_slot n name])) (<[n := new_file type]> m)) /\
    held_lock y' = held_lock y /\ y_files y' !! n = Some (File type []).
Proof.
  intros Hy Hi [Hwf [t Hf]] Hty Hnone Hroom Hfree Hlen Hadm.
  assert (Ht : s16 (u32 type) = type) by (destruct Hty as [-> | ->]; reflexivity).
  destruct (lock_done parent y) as (y1 & lr & Hl & Hec & Hlk & Ho & _).
  destruct (lookup_done parent name y1 m d (yok_ec _ _ _ Hec Hy) Hi (conj Hwf (ex_intro _ t Hf)) (or_introl Hlk))
    as (y2 & Hlook & Hy2 & Hh2 & Hf2). destruct (Hf2 Hlk) as [Hf2' _]. clear Hf2. rename Hf2' into Hf2. rewrite Hnone in Hlook.
  change (s_inum <$> None) with (@None Z) in Hlook.
  destruct (y_create_done (u32 type) y2 m n rest Hy2) as (y3 & Hc & Hy3 & Hh3 & Hf3 & Hnew).
  { rewrite Ht. by destruct Hty as [-> | ->]. }
  { by rewrite Hf2, Hec. }
  rewrite Ht in Hy3, Hf3. destruct (create_contents type n y3 m Hy3) as (y4 & Hp & Hy4 & Hh4 & Hf4).
  assert (Hne : parent <> n) by (intros ->; by rewrite Hf in Hnew).
  assert (Hf' : <[n := new_file type]> m !! parent = Some (File t (dir_bytes d)))
    by (by rewrite lookup_insert_ne).
  destruct (y_get_done parent y4 _ _ Hy4 Hi Hf') as (y5 & Hg & Hy5 & Hh5 & Hf5 & _). cbn [f_data] in Hg.
  assert (Hn : is_u32 n) by (destruct (free_inum_free _ _ _ Hfree); unfold is_u32, INODE_NUM in *; lia).
  assert (Hlk5 : locked parent y5) by (unfold locked in *; congruence).
  destruct (create_entry_append parent n name y5 _ d t Hy5 Hi Hlk5 Hwf Hf' Hn Hlen)
    as (y6 & Hw & Hy6 & Hh6 & Hf6).
  pose proof (dir_len_new d n name) as Hdl.
  pose proof (create_loop_slots d [] [pad] _ (size name) Hwf (dir_fuel d)
    ltac:(unfold size; lia) ltac:(lia) Hroom) as Hloop.
  rewrite <- (s32_id (size name)) in Hloop at 1 by (unfold is_s32, size, dir_len in *; lia).
  destruct (close_lock parent y y1 lr y6 _ Ho ltac:(congruence) Hy6 Hi) as (y7 & Hu & Hy7 & Hh7 & Hf7).
  { destruct Hadm as [|Hadm]; [by left | right]. intros f. unfold Spec.write. rewrite lookup_alter_eq, Hf'.
    intros [= <-]. cbn [f_data]. by rewrite Hf6, Hf5, Hf4, Hf3, Hf2, Hec. }
  exists y7. split_and!; auto; [| by rewrite Hf7, Hf6, Hf5, Hf4, Hf3, lookup_insert_eq].
  unfold create. ystep Hl. ystep Hlook. ystep Hc. ystep Hp. ystep Hg.
  ystep (lift_done _ _ y5 (copy_out_dir d Hwf)). ystep (lift_done _ _ y5 Hloop). ystep Hw. ystep Hu. done.
Qed.

Lemma isfile_done i y m f :
  yok y m -> id_ok i -> m !! i = Some f -> typed i y f -> locked i y ->
  exists y', isfile i y = Done (y', u32 (f_type f) =? T_FILE) /\ yok y' m /\
    held_lock y' = held_lock y /\ y_files y' = y_files y.
Proof.
  intros Hy Hi Hf Ht Hl.
  destruct (y_getattr_done i y m f Hy Hi Hf) as (y1 & a & Hg & Hy1 & Hh1 & Hf1 & _ & Hty).
  exists y1. split_and!; auto. unfold isfile. ystep (lock_held i y Hl). ystep Hg.
  unfold unlock_if. change (1 =? 0) with false. cbn iota.
  rewrite ym_ret_bind. by rewrite Hty.
Qed.

Lemma slot_bytes_blanked s :
  slot_bytes (blanked s) = le_enc 4 0 ++ le_enc 4 0 ++ le_enc 4 (slot_len s) ++ drop 12 (slot_bytes s).
Proof.
  unfold slot_bytes at 1. replace (slot_len (blanked s)) with (slot_len s); [done |].
  unfold slot_len at 2, blanked. cbn [s_name s_slack length]. rewrite length_drop.
  pose proof (length_slot_bytes s). pose proof (slot_len_pos s). lia.
Qed.

Lemma slot_len_blanked s : slot_len (blanked s) = slot_len s.
Proof.
  rewrite <- !length_slot_bytes, slot_bytes_blanked, !length_app, !length_le_enc, length_drop.
  pose proof (length_slot_bytes s). pose proof (slot_len_pos s). lia.
Qed.

Lemma overwrite_slot d1 s d2 :
  overwrite (dir_bytes (d1 ++ s :: d2)) (length (dir_bytes d1)) (le_enc 4 0 ++ le_enc 4 0 ++ le_enc 4 (slot_len s))
  = dir_bytes (d1 ++ blanked s :: d2).
Proof.
  pose proof (length_slot_bytes s). pose proof (slot_len_pos s).
  unfold overwrite, resized. rewrite !dir_bytes_app, !dir_bytes_cons, slot_bytes_blanked.
  rewrite take_app_length, !length_app, !length_le_enc.
  replace (length (dir_bytes d1) - _)%nat with 0%nat by lia. cbn [replicate]. rewrite app_nil_r.
  rewrite drop_app_ge by lia. replace (length (dir_bytes d1) + _ - _)%nat with 12%nat by lia.
  rewrite drop_app_le by lia. by rewrite <- !app_assoc.
Qed.

Lemma unlink_entry parent y m d1 s d2 t :
  yok y m -> id_ok parent -> locked parent y -> dir_wf (d1 ++ s :: d2) ->
  m !! parent = Some (File t (dir_bytes (d1 ++ s :: d2))) ->
  exists y', (f ← lift (filldir 0 0 (slot_len s) [0] 0);
      _ ← write parent (u64 (snd f)) (pos d1) (fst f) 0; mret tt) y = Done (y', tt) /\
    yok y' (Spec.write parent (dir_bytes (d1 ++ blanked s :: d2)) m) /\ held_lock y' = held_lock y /\
    y_files y' = y_files y.
Proof.
  intros Hy Hi Hl [_ Hwf] Hf. pose proof (length_slot_bytes s). pose proof (slot_len_pos s).
  assert (Hlen : size (dir_bytes (d1 ++ s :: d2)) < 2 ^ 31) by done.
  assert (pos d1 + 12 < 2 ^ 31).
  { rewrite dir_bytes_app, length_app, dir_bytes_cons, length_app in Hwf. unfold pos. lia. }
  destruct (write_done parent 12 (pos d1) (le_enc 4 0 ++ le_enc 4 0 ++ le_enc 4 (slot_len s)) 0 y m
    (File t (dir_bytes (d1 ++ s :: d2)))) as (y' & Hw & Hy' & Hh & Hfi); auto.
  - unfold pos. lia.
  - unfold max_size. lia.
  - exists y'. split_and!; auto.
    + ystep (lift_done (filldir 0 0 (slot_len s) [0] 0) _ y eq_refl). change (u64 (s32 _)) with 12.
      ystep Hw. done.
    + cbn [f_data] in Hy'. unfold pos in Hy'. by rewrite Nat2Z.id, overwrite_slot in Hy'.
Qed.

(** Unlocking two nested locks in the order of taking them. *)
Lemma release_both p q y y1 y2 y3 lr1 lr2 :
  p <> q -> opened p y y1 lr1 -> held_lock y2 = held_lock y1 -> opened q y2 y3 lr2 ->
  (if lr2 =? 0 then (if lr1 =? 0 then held_lock y3 ∖ {[p]} else held_lock y3) ∖ {[q]}
   else (if lr1 =? 0 then held_lock y3 ∖ {[p]} else held_lock y3)) = held_lock y.
Proof.
  intros Hne Ho1 Hh Ho2. unfold opened, locked in *.
  destruct Ho1 as [(-> & -> & Hp)|(-> & -> & Hp)], Ho2 as [(-> & -> & Hq)|(-> & -> & Hq)];
    cbn [Z.eqb take_lock held_lock]; cbn [take_lock held_lock] in Hh; rewrite Hh in *; try done.
  - by apply release_taken.
  - by apply release_taken.
  - apply set_eq. intros x. rewrite !elem_of_difference, !elem_of_union, !elem_of_singleton in *.
    destruct (decide (x = p)) as [Hxp|Hxp], (decide (x = q)) as [Hxq|Hxq]; [congruence | subst x | subst x |]; tauto.
Qed.

Lemma unlink_done parent name y m d1 s d2 f :
  yok y m -> id_ok parent -> is_dir m parent (d1 ++ s :: d2) ->
  Forall (fun t => named name t = false) d1 -> named name s = true ->
  id_ok (s_inum s) -> s_inum s <> parent -> m !! s_inum s = Some f -> f_type f = T_FILE ->
  typed (s_inum s) y f ->
  (locked parent y \/ admissible (ReqPut parent (dir_bytes (d1 ++ blanked s :: d2))) (y_files y)) ->
  exists y', unlink parent name y = Done (y', OK) /\
    yok y' (Spec.remove (s_inum s) (Spec.write parent (dir_bytes (d1 ++ blanked s :: d2)) m)) /\
    held_lock y' = held_lock y.
Proof.
  intros Hy Hi [Hwf [t Hf]] Hd1 Hs Hid Hne Hfile Htype Hty Hadm. set (ino := s_inum s) in *.
  assert (Hslot : s_inum <$> slot_of name (d1 ++ s :: d2) = Some ino).
  { rewrite slot_of_app, (proj2 (slot_of_none name d1) Hd1). unfold slot_of. rewrite filter_bool_cons, Hs. done. }
  destruct (lock_done parent y) as (y1 & lr1 & Hl1 & Hec1 & Hlk1 & Ho1 & _).
  destruct (lookup_done parent name y1 m _ (yok_ec _ _ _ Hec1 Hy) Hi (conj Hwf (ex_intro _ t Hf)) (or_introl Hlk1))
    as (y2 & Hlook & Hy2 & Hh2 & H2). destruct (H2 Hlk1) as [Hf2 Ha2]. rewrite Hslot in Hlook.
  destruct (lock_done ino y2) as (y3 & lr2 & Hl2 & Hec3 & Hlk3 & Ho2 & Hkeep).
  assert (Hlkp3 : locked parent y3) by (apply Hkeep; unfold locked in *; congruence).
  destruct (isfile_done ino y3 m f (yok_ec _ _ _ Hec3 Hy2) Hid Hfile) as (y4 & His & Hy4 & Hh4 & Hf4);
    [by unfold typed; rewrite Hec3, Ha2, Hec1 | done |]. rewrite Htype in His.
  destruct (y_get_done parent y4 m _ Hy4 Hi Hf) as (y5 & Hg & Hy5 & Hh5 & Hf5 & _). cbn [f_data] in Hg.
  assert (Hlkp5 : locked parent y5) by (unfold locked in *; congruence).
  destruct (unlink_entry parent y5 m d1 s d2 t Hy5 Hi Hlkp5 Hwf Hf) as (y6 & Hw & Hy6 & Hh6 & Hf6).
  assert (Hfuel : (length d1 < length (at_slots [] (d1 ++ s :: d2) [pad]) + 1)%nat).
  { pose proof (dir_fuel (d1 ++ s :: d2)) as Hfu. rewrite length_app in Hfu. lia. }
  pose proof (unlink_loop_slots d1 s d2 [] [pad] _ name Hwf Hfuel Hd1 Hs) as Hloop.
  fold ino in Hloop.
  assert (Hlkp6 : locked parent y6) by (unfold locked in *; congruence).
  destruct (unlock_if_done parent y y1 lr1 y6 _ Ho1 Hlkp6 Hy6 Hi) as (y7 & Hu1 & Hy7 & Hh7 & _).
  { destruct Hadm as [|Hadm]; [by left | right]. intros f'. unfold Spec.write. rewrite lookup_alter_eq, Hf.
    intros [= <-]. cbn [f_data]. by rewrite Hf6, Hf5, Hf4, Hec3, Hf2, Hec1. }
  destruct (y_remove_done ino y7 _ Hy7) as (y8 & Hr & Hy8 & Hh8 & _).
  { unfold Spec.write. rewrite lookup_alter_ne by done. by eexists. }
  assert (Hlk8 : locked ino y8).
  { unfold locked in *. rewrite Hh8, Hh7, Hh6, Hh5, Hh4. destruct (lr1 =? 0); [| done].
    rewrite elem_of_difference, elem_of_singleton. done. }
  destruct (unlock_if_done ino y2 y3 lr2 y8 _ Ho2 Hlk8 Hy8 Hid) as (y9 & Hu2 & Hy9 & Hh9 & _).
  { right. intros f'. unfold Spec.remove. by rewrite lookup_delete_eq. }
  exists y9. split; [| split; [done |]].
  - unfold unlink. ystep Hl1. ystep Hlook. ystep Hl2.
    assert (Hdir : isdir ino y3 = Done (y4, false)) by (unfold isdir; by ystep His).
    ystep Hdir. ystep Hg. ystep (lift_done _ _ y5 (copy_out_dir _ Hwf)). ystep (lift_done _ _ y5 Hloop).
    cbn [app]. ystep Hw. ystep Hu1. ystep Hr. ystep Hu2. done.
  - rewrite Hh9, Hh8, Hh7, Hh6, Hh5, Hh4. apply (release_both parent ino y y1 y2 y3); auto.
Qed.

Lemma unlink_missing parent name y m d :
  yok y m -> id_ok parent -> is_dir m parent d -> slot_of name d = None ->
  exists y', unlink parent name y = Done (y', NOENT) /\ yok y' m /\
    held_lock y' = {[parent]} ∪ held_lock y.
Proof.
  intros Hy Hi Hd Hnone. destruct (lock_done parent y) as (y1 & lr1 & Hl1 & Hec1 & Hlk1 & Ho1 & _).
  destruct (lookup_done parent name y1 m _ (yok_ec _ _ _ Hec1 Hy) Hi Hd (or_introl Hlk1))
    as (y2 & Hlook & Hy2 & Hh2 & _). rewrite Hnone in Hlook. change (s_inum <$> None) with (@None Z) in Hlook.
  exists y2. split; [| split; [done |]].
  - unfold unlink. ystep Hl1. ystep Hlook. done.
  - rewrite Hh2. destruct Ho1 as [(_ & -> & Hl)|(_ & -> & _)]; [| done].
    apply set_eq. intros x. rewrite elem_of_union, elem_of_singleton. unfold locked in Hl.
    destruct (decide (x = parent)) as [->|]; tauto.
Qed.

Lemma entries_app d e : entries (d ++ e) = entries d ++ entries e.
Proof. unfold entries. by rewrite filter_app, fmap_app. Qed.

Lemma is_dir_write m i d d' :
  is_dir m i d -> dir_wf d' -> is_dir (Spec.write i (dir_bytes d') m) i d'.
Proof.
  intros [_ [t Hf]] Hwf. split; [done |]. exists t. unfold Spec.write. by rewrite lookup_alter_eq, Hf.
Qed.

Lemma dir_wf_app d e : dir_wf (d ++ e) <-> Forall (fun s => is_u32 (s_inum s)) d /\
  Forall (fun s => is_u32 (s_inum s)) e /\ dir_len d + dir_len e < 2 ^ 31.
Proof.
  unfold dir_wf, dir_len. rewrite Forall_app, dir_bytes_app, length_app. intuition lia.
Qed.

Lemma dir_wf_new d n name :
  dir_wf d -> is_u32 n -> dir_len (d ++ [new_slot n name]) < 2 ^ 31 -> dir_wf (d ++ [new_slot n name]).
Proof.
  intros [Hu _] Hn Hl. split; [| done]. rewrite Forall_app, Forall_singleton. done.
Qed.

Lemma dir_wf_blanked d1 s d2 : dir_wf (d1 ++ s :: d2) -> dir_wf (d1 ++ blanked s :: d2).
Proof.
  rewrite !dir_wf_app, !Forall_cons, !dir_len_cons, slot_len_blanked. cbn [blanked s_inum].
  unfold is_u32. intuition lia.
Qed.

(** ** Theorems *)

(** Readdir returns the used slots of a directory in order and lookup the
    inode number of the first one with the name, if there is one; both
    terminate, change nothing and give back the lock. *)
Theorem readdir_lookup_correct dir name y m d :
  yok y m -> id_ok dir -> is_dir m dir d -> admissible (ReqPut dir (dir_bytes d)) (y_files y) ->
  (exists y', readdir dir y = Done (y', (OK, entries d)) /\ yok y' m /\ held_lock y' = held_lock y) /\
  (exists y', lookup dir name y = Done (y', (OK, s_inum <$> slot_of name d)) /\ yok y' m /\
     held_lock y' = held_lock y).
Proof.
  intros Hy Hi Hd Ha. split.
  - destruct (readdir_done dir y m d Hy Hi Hd (or_intror Ha)) as (y' & H & H1 & H2 & _). eauto.
  - destruct (lookup_done dir name y m d Hy Hi Hd (or_intror Ha)) as (y' & H & H1 & H2 & _). eauto.
Qed.

(** C33: creating a file or directory under a name that is not taken, in a
    directory none of whose slots has room for a second entry of that length
    (the branch that appends), returns the lowest free inode number, makes a new
    file there (a new directory has one blank slot), appends one slot to the
    parent and changes no other file; the lock is given back.  When a slot has
    room, the other branch writes the entry into it and damages the directory:
    see [inject_corrupts_directory]. *)
Theorem create_correct parent name type y m d n rest :
  yok y m -> id_ok parent -> is_dir m parent d -> type = T_DIR \/ type = T_FILE ->
  slot_of name d = None -> Forall (fun s => has_room (size name) s = false) d ->
  Spec.free_inums (y_files y) = n :: rest -> dir_len (d ++ [new_slot n name]) < 2 ^ 31 ->
  admissible (ReqPut parent (dir_bytes (d ++ [new_slot n name]))) (<[n := File type []]> (y_files y)) ->
  exists y' m', create parent name type y = Done (y', (OK, Some n)) /\ yok y' m' /\
    held_lock y' = held_lock y /\ m !! n = None /\ m' !! n = Some (new_file type) /\
    is_dir m' parent (d ++ [new_slot n name]) /\
    slot_of name (d ++ [new_slot n name]) = Some (new_slot n name) /\
    forall id, id <> n -> id <> parent -> m' !! id = m !! id.
Proof.
  intros Hy Hi Hd Hty Hnone Hroom Hfree Hlen Hadm.
  destruct (free_inum_free _ _ _ Hfree) as [_ Hn]. unfold INODE_NUM in Hn.
  destruct (yfs_create_done parent name type y m d n rest) as (y' & Hc & Hnew & Hy' & Hh & _); auto.
  assert (Hne : n <> parent) by (intros ->; destruct Hd as [_ [t Hf]]; by rewrite Hf in Hnew).
  eexists y', _. split_and!; eauto.
  - unfold Spec.write. by rewrite lookup_alter_ne, lookup_insert_eq.
  - apply (is_dir_write _ parent d); [| apply dir_wf_new; auto; [apply Hd | unfold is_u32; lia]].
    destruct Hd as [Hwf [t Hf]]. split; [done |]. exists t. by rewrite lookup_insert_ne.
  - rewrite slot_of_app, Hnone. unfold slot_of. rewrite filter_bool_cons. unfold named, used.
    cbn [new_slot s_inum s_name]. destruct (Z.eqb_spec n 0); [lia |]. by rewrite bool_decide_true.
  - intros id H1 H2. unfold Spec.write. by rewrite lookup_alter_ne, lookup_insert_ne.
Qed.

(** Creating a name that is taken returns EXIST and changes nothing. *)
Theorem create_existing parent name type y m d s :
  yok y m -> id_ok parent -> is_dir m parent d -> slot_of name d = Some s ->
  admissible (ReqPut parent (dir_bytes d)) (y_files y) ->
  exists y', create parent name type y = Done (y', (EXIST, None)) /\ yok y' m /\
    held_lock y' = held_lock y.
Proof.
  intros Hy Hi Hd Hs Hadm. destruct (lock_done parent y) as (y1 & lr & Hl & Hec & Hlk & Ho & _).
  destruct (lookup_done parent name y1 m d (yok_ec _ _ _ Hec Hy) Hi Hd (or_introl Hlk))
    as (y2 & Hlook & Hy2 & Hh2 & Hf2). destruct (Hf2 Hlk) as [Hf _]. rewrite Hs in Hlook.
  change (s_inum <$> Some s) with (Some (s_inum s)) in Hlook.
  destruct (close_lock parent y y1 lr y2 m Ho Hh2 Hy2 Hi) as (y3 & Hu & Hy3 & Hh3 & _).
  { right. destruct Hd as [_ [t Ht]]. apply (fits_same parent y y2 m _ ltac:(by rewrite Hf, Hec) Ht Hadm). }
  exists y3. split_and!; auto. unfold create. ystep Hl. ystep Hlook. ystep Hu. done.
Qed.

(** A new directory is not shared: its first contents are put into the cache
    without its lock, so no revocation will flush them.  After create has
    returned, the client that made the directory sees its blank slot, while
    any other client of the server reads no bytes at all. *)
Theorem mkdir_unshared parent name y m d n rest cB buf0 :
  yok y m -> id_ok parent -> is_dir m parent d ->
  slot_of name d = None -> Forall (fun s => has_room (size name) s = false) d ->
  Spec.free_inums (y_files y) = n :: rest -> dir_len (d ++ [new_slot n name]) < 2 ^ 31 ->
  admissible (ReqPut parent (dir_bytes (d ++ [new_slot n name]))) (<[n := File T_DIR []]> (y_files y)) ->
  exists y', create parent name T_DIR y = Done (y', (OK, Some n)) /\ held_lock y' = held_lock y /\
    view (y_ec y') n = Some (File T_DIR newdir) /\
    (coherent (with_server (server (y_ec y')) cB) -> bcache cB !! n = None ->
     exists c', ec_get net n buf0 (with_server (server (y_ec y')) cB) = Done (c', OK, [])).
Proof.
  intros Hy Hi Hd Hnone Hroom Hfree Hlen Hadm. destruct (free_inum_free _ _ _ Hfree) as [_ Hn]. unfold INODE_NUM in Hn.
  destruct (yfs_create_done parent name T_DIR y m d n rest) as (y' & Hc & Hnew & Hy' & Hh & Hf); auto.
  assert (Hne : n <> parent) by (intros ->; destruct Hd as [_ [t Ht]]; by rewrite Ht in Hnew).
  exists y'. split_and!; auto.
  - rewrite (proj2 Hy' n). unfold Spec.write. by rewrite lookup_alter_ne, lookup_insert_eq.
  - intros Hco Hb. destruct (get_done net Hnet n buf0 _ (File T_DIR []) Hco) as (c' & Hg & _); [unfold id_ok; lia | |].
    + unfold view. cbn [with_server bcache]. by rewrite Hb.
    + by exists c'.
Qed.

(** Mounting erases the root directory: the constructor puts an empty
    directory there, whatever it held, so that every entry made by other
    clients is lost. *)
Theorem mount_erases_root c m f :
  coherent c -> sees c m -> m !! 1 = Some f -> admissible (ReqPut 1 newdir) (files c) ->
  exists y, yfs_client_new c = Done y /\ yok y (Spec.write 1 newdir m) /\
    (forall name, slot_of name [Slot 0 [] []] = None) /\ newdir = dir_bytes [Slot 0 [] []].
Proof.
  intros Hco Hs Hf Hadm. set (y := Yfs c ∅ 0). assert (Hy : yok y m) by done.
  destruct (lock_done 1 y) as (y1 & lr & Hl & Hec & _ & Ho & _).
  destruct (y_put_done 1 newdir y1 m (yok_ec _ _ _ Hec Hy)) as (y2 & Hp & Hy2 & Hh2 & Hf2); [by eexists |].
  destruct (close_lock 1 y y1 lr y2 _ Ho Hh2 Hy2) as (y3 & Hu & Hy3 & _ & _); [unfold id_ok; lia | |].
  - right. apply (fits_same 1 y y2 _ (File (f_type f) newdir)); auto; [by rewrite Hf2, Hec |].
    unfold Spec.write. by rewrite lookup_alter_eq, Hf.
  - exists y3. split; [| by split_and!]. unfold yfs_client_new, yfs_client_init. fold y.
    ystep Hl. ystep Hp. ystep Hu. done.
Qed.

(** C34: unlinking a name of a plain file whose type the client knows (its
    cached attributes, if it has some, have the file's type) removes the file,
    blanks its slot (so that readdir lists the others, in order) and changes no
    other file; both locks are given back.  Attributes that a put has left
    without a type make unlink refuse the file: see [unlink_after_put]. *)
Theorem unlink_correct parent name y m d1 s d2 f :
  yok y m -> id_ok parent -> is_dir m parent (d1 ++ s :: d2) ->
  slot_of name d1 = None -> named name s = true ->
  id_ok (s_inum s) -> s_inum s <> parent -> m !! s_inum s = Some f -> f_type f = T_FILE ->
  typed (s_inum s) y f ->
  admissible (ReqPut parent (dir_bytes (d1 ++ blanked s :: d2))) (y_files y) ->
  exists y' m', unlink parent name y = Done (y', OK) /\ yok y' m' /\ held_lock y' = held_lock y /\
    m' !! s_inum s = None /\ is_dir m' parent (d1 ++ blanked s :: d2) /\
    entries (d1 ++ blanked s :: d2) = entries d1 ++ entries d2 /\
    forall id, id <> s_inum s -> id <> parent -> m' !! id = m !! id.
Proof.
  intros Hy Hi Hd Hd1 Hs Hid Hne Hf Htype Hty Hadm.
  destruct (unlink_done parent name y m d1 s d2 f) as (y' & Hu & Hy' & Hh); auto.
  { by apply slot_of_none. }
  eexists y', _. split_and!; eauto.
  - unfold Spec.remove. apply lookup_delete_eq.
  - destruct (is_dir_write m parent (d1 ++ s :: d2) (d1 ++ blanked s :: d2) Hd) as [Hwf [t Ht]];
      [apply dir_wf_blanked, Hd |].
    split; [done |]. exists t. unfold Spec.remove. by rewrite lookup_delete_ne.
  - by rewrite entries_app.
  - intros id H1 H2. unfold Spec.remove, Spec.write. by rewrite lookup_delete_ne, lookup_alter_ne.
Qed.

(** Unlinking a name that is not there returns NOENT but keeps the lock
    of the parent directory, which is never released again. *)
Theorem unlink_missing_keeps_lock parent name y m d :
  yok y m -> id_ok parent -> is_dir m parent d -> slot_of name d = None ->
  exists y', unlink parent name y = Done (y', NOENT) /\ yok y' m /\
    held_lock y' = {[parent]} ∪ held_lock y.
Proof. apply unlink_missing. Qed.

(** Write stores the bytes at the offset, fills a hole with zeros and
    leaves the rest of the file and every other file alone; a read of that
    range then returns the bytes written. *)
Theorem write_then_read ino n off data bw0 data0 y m f :
  yok y m -> id_ok ino -> m !! ino = Some f -> n = size data -> 0 <= off -> off + n < 2 ^ 31 ->
  size (f_data f) < 2 ^ 31 ->
  admissible (ReqPut ino (overwrite (f_data f) (Z.to_nat off) data)) (y_files y) ->
  exists y1 bw, write ino n off data bw0 y = Done (y1, (OK, bw)) /\
    yok y1 (Spec.write ino (overwrite (f_data f) (Z.to_nat off) data) m) /\
    held_lock y1 = held_lock y /\
    (admissible (ReqPut ino (overwrite (f_data f) (Z.to_nat off) data)) (y_files y1) ->
     exists y2, read ino n off data0 y1 = Done (y2, (OK, data))).
Proof.
  intros Hy Hi Hf Hn Ho Hmax Hsz Hadm. assert (0 <= n) by (rewrite Hn; unfold size; lia).
  destruct (write_done ino n off data bw0 y m f) as (y1 & Hw & Hy1 & Hh & _); auto;
    [unfold max_size; lia |].
  eexists y1, _. split_and!; eauto. intros Ha1. set (new := overwrite _ _ _) in *.
  assert (Hlen : size new >= off + n).
  { unfold new, overwrite, size in *. rewrite !length_app, length_resized. lia. }
  destruct (read_done ino n off data0 y1 _ (File (f_type f) new) Hy1 Hi) as (y2 & _ & _ & Hr); auto.
  - unfold Spec.write. by rewrite lookup_alter_eq, Hf.
  - lia.
  - exists y2. rewrite Hr. cbn [f_data]. destruct (Z.ltb_spec (size new) off); [lia |].
    do 3 f_equal. unfold new, overwrite. rewrite drop_app_length' by (by rewrite length_resized).
    rewrite Hn. unfold size. rewrite Nat2Z.id. apply take_app_length.
Qed.

(** Reading at an offset behind the end of the file throws an exception
    nobody catches instead of reading nothing; at or before the end, read
    returns the bytes there are. *)
Theorem read_past_end ino n off data0 y m f :
  yok y m -> id_ok ino -> m !! ino = Some f -> admissible (ReqPut ino (f_data f)) (y_files y) ->
  0 <= off < 2 ^ 63 -> 0 <= n ->
  (size (f_data f) < off -> read ino n off data0 y = Fault UncaughtException) /\
  (off <= size (f_data f) -> exists y', yok y' m /\ held_lock y' = held_lock y /\
     read ino n off data0 y = Done (y', (OK, take (Z.to_nat n) (drop (Z.to_nat off) (f_data f))))).
Proof.
  intros Hy Hi Hf Ha Ho Hn.
  destruct (read_done ino n off data0 y m f) as (y' & Hy' & Hh & Hr); auto. rewrite Hr.
  destruct (Z.ltb_spec (size (f_data f)) off); split; intros; try lia; [done | eauto].
Qed.

(** Setattr gives the file the size asked for: it is cut off or filled up
    with zeros. *)
Theorem setattr_correct ino n y m f :
  yok y m -> id_ok ino -> m !! ino = Some f -> 0 <= n <= max_size ->
  admissible (ReqPut ino (resized (Z.to_nat n) (f_data f))) (y_files y) ->
  exists y', setattr ino n y = Done (y', OK) /\
    yok y' (Spec.write ino (resized (Z.to_nat n) (f_data f)) m) /\
    length (resized (Z.to_nat n) (f_data f)) = Z.to_nat n /\ held_lock y' = held_lock y.
Proof.
  intros Hy Hi Hf Hn Ha. destruct (setattr_done ino n y m f) as (y' & H & H1 & H2); auto.
  exists y'. split_and!; auto. apply length_resized.
Qed.

End client.

(** The operations of a client, for use outside. *)
Module ClientOps.
Abbreviation isfile net revoked := (YfsOps.isfile (M := ym _) (YfsPrims0 := ym_prims net revoked)).
Abbreviation isdir net revoked := (YfsOps.isdir (M := ym _) (YfsPrims0 := ym_prims net revoked)).
Abbreviation getfile net revoked := (YfsOps.getfile (M := ym _) (YfsPrims0 := ym_prims net revoked)).
Abbreviation getdir net revoked := (YfsOps.getdir (M := ym _) (YfsPrims0 := ym_prims net revoked)).
Abbreviation setattr net revoked := (YfsOps.setattr (M := ym _) (YfsPrims0 := ym_prims net revoked)).
Abbreviation read net revoked := (YfsOps.read (M := ym _) (YfsPrims0 := ym_prims net revoked)).
Abbreviation write net revoked := (YfsOps.write (M := ym _) (YfsPrims0 := ym_prims net revoked)).
Abbreviation readdir net revoked pad := (YfsOps.readdir (M := ym _) (YfsPrims0 := ym_prims net revoked) pad).
Abbreviation lookup net revoked pad := (YfsOps.lookup (M := ym _) (YfsPrims0 := ym_prims net revoked) pad).
Abbreviation create net revoked pad := (YfsOps.create (M := ym _) (YfsPrims0 := ym_prims net revoked) pad).
Abbreviation unlink net revoked pad := (YfsOps.unlink (M := ym _) (YfsPrims0 := ym_prims net revoked) pad).
End ClientOps.
Import ClientOps.

(** ** Runs on a small file system *)

Definition demo_files : fstore :=
  {[1 := File T_DIR (dir_bytes [Slot 0 [] []; Slot 2 [97] []]); 2 := File T_FILE [104; 105]]}.
Definition demo_yfs : yfs fstore := Yfs (fresh_client demo_files) ∅ 0.
Definition calm : nat -> bool := fun _ => false.

Lemma demo_ok : yok demo_yfs demo_files.
Proof.
  split.
  - apply (fresh_client_coherent (S := fstore)). intros id f. unfold demo_files. cbn [es_files ideal_service].
    rewrite lookup_insert. case_decide; [intros [= <-]; by vm_compute |].
    rewrite lookup_singleton. case_decide; [intros [= <-]; by vm_compute | done].
  - exact (fresh_client_sees demo_files).
Qed.

Lemma demo_dir : is_dir demo_files 1 [Slot 0 [] []; Slot 2 [97] []].
Proof.
  split; [split; [repeat constructor; by vm_compute | by vm_compute] |]. by exists T_DIR.
Qed.

Lemma small_admissible id bs m :
  (length bs <=? max_file_size)%nat = true ->
  (Spec.used_space (Spec.write (mask_id id) bs m) <=? Spec.capacity)%nat = true ->
  admissible (ReqPut id bs) m.
Proof. intros H1 H2. split; by apply Nat.leb_le. Qed.

Lemma two_ok : id_ok 2.
Proof. unfold id_ok. lia. Qed.

Lemma readdir_lookup_correct_witness :
  exists y', readdir reliable calm 7 1 demo_yfs = Done (y', (OK, [Dirent [97] 2])).
Proof.
  destruct (readdir_lookup_correct reliable calm 7 reliable_ok 1 [97] demo_yfs demo_files
    [Slot 0 [] []; Slot 2 [97] []] demo_ok one_ok demo_dir) as [(y' & Hr & _) _].
  - apply small_admissible; vm_compute; reflexivity.
  - exists y'. exact Hr.
Defined.

Lemma create_correct_witness :
  exists y', create reliable calm 7 1 [98] T_FILE demo_yfs = Done (y', (OK, Some 3)) /\
    held_lock y' = ∅.
Proof.
  destruct (create_correct reliable calm 7 reliable_ok 1 [98] T_FILE demo_yfs demo_files
    [Slot 0 [] []; Slot 2 [97] []] 3 (tail (Spec.free_inums demo_files)) demo_ok one_ok demo_dir)
    as (y' & m' & Hc & _ & Hh & _).
  - right. reflexivity.
  - reflexivity.
  - repeat constructor.
  - vm_compute. reflexivity.
  - vm_compute. reflexivity.
  - apply small_admissible; vm_compute; reflexivity.
  - exists y'. split; [exact Hc | exact Hh].
Defined.

Lemma mkdir_unshared_witness :
  exists y', create reliable calm 7 1 [98] T_DIR demo_yfs = Done (y', (OK, Some 3)) /\ (3 ∉ held_lock y') /\
    view (y_ec y') 3 = Some (File T_DIR newdir).
Proof.
  destruct (mkdir_unshared reliable calm 7 reliable_ok 1 [98] demo_yfs demo_files
    [Slot 0 [] []; Slot 2 [97] []] 3 (tail (Spec.free_inums demo_files)) (fresh_client demo_files) [] demo_ok one_ok demo_dir)
    as (y' & Hc & Hh & Hv & _).
  - reflexivity.
  - repeat constructor.
  - vm_compute. reflexivity.
  - vm_compute. reflexivity.
  - apply small_admissible; vm_compute; reflexivity.
  - exists y'. split; [exact Hc |]. split; [| exact Hv]. rewrite Hh. apply not_elem_of_empty.
Defined.

Lemma mount_erases_root_witness :
  exists y, yfs_client_new reliable calm (fresh_client demo_files) = Done y /\ yok y (Spec.write 1 newdir demo_files).
Proof.
  destruct (mount_erases_root reliable calm reliable_ok (fresh_client demo_files) demo_files
    (File T_DIR (dir_bytes [Slot 0 [] []; Slot 2 [97] []]))) as (y & Hn & Hy & _).
  - exact (proj1 demo_ok).
  - exact (fresh_client_sees demo_files).
  - reflexivity.
  - apply small_admissible; vm_compute; reflexivity.
  - exists y. split; [exact Hn | exact Hy].
Defined.

Lemma create_existing_witness :
  exists y', create reliable calm 7 1 [97] T_FILE demo_yfs = Done (y', (EXIST, None)).
Proof.
  destruct (create_existing reliable calm 7 reliable_ok 1 [97] T_FILE demo_yfs demo_files
    [Slot 0 [] []; Slot 2 [97] []] (Slot 2 [97] []) demo_ok one_ok demo_dir) as (y' & Hc & _).
  - reflexivity.
  - apply small_admissible; vm_compute; reflexivity.
  - exists y'. exact Hc.
Defined.

Lemma unlink_correct_witness :
  exists y' m', unlink reliable calm 7 1 [97] demo_yfs = Done (y', OK) /\ yok y' m' /\ m' !! 2 = None.
Proof.
  destruct (unlink_correct reliable calm 7 reliable_ok 1 [97] demo_yfs demo_files
    [Slot 0 [] []] (Slot 2 [97] []) [] (File T_FILE [104; 105]) demo_ok one_ok demo_dir)
    as (y' & m' & Hu & Hy & _ & Hm & _).
  - reflexivity.
  - reflexivity.
  - apply two_ok.
  - discriminate.
  - reflexivity.
  - reflexivity.
  - intros a Ha. discriminate Ha.
  - apply small_admissible; vm_compute; reflexivity.
  - exists y', m'. split; [exact Hu |]. split; [exact Hy | exact Hm].
Defined.

Lemma unlink_missing_keeps_lock_witness :
  exists y', unlink reliable calm 7 1 [98] demo_yfs = Done (y', NOENT) /\ 1 ∈ held_lock y'.
Proof.
  destruct (unlink_missing_keeps_lock reliable calm 7 reliable_ok 1 [98] demo_yfs demo_files
    [Slot 0 [] []; Slot 2 [97] []] demo_ok one_ok demo_dir) as (y' & Hu & _ & Hh).
  - reflexivity.
  - exists y'. split; [exact Hu |]. rewrite Hh. by apply elem_of_union_l, elem_of_singleton_2.
Defined.

Lemma write_then_read_witness :
  exists y1 bw, write reliable calm 2 2 4 [1; 2] 0 demo_yfs = Done (y1, (OK, bw)) /\
    yok y1 (Spec.write 2 [104; 105; 0; 0; 1; 2] demo_files).
Proof.
  destruct (write_then_read reliable calm reliable_ok 2 2 4 [1; 2] 0 [] demo_yfs demo_files
    (File T_FILE [104; 105]) demo_ok two_ok) as (y1 & bw & Hw & Hy & _).
  - reflexivity.
  - reflexivity.
  - lia.
  - lia.
  - vm_compute. reflexivity.
  - apply small_admissible; vm_compute; reflexivity.
  - exists y1, bw. split; [exact Hw | exact Hy].
Defined.

Lemma read_past_end_witness :
  read reliable calm 2 4 3 [] demo_yfs = Fault UncaughtException.
Proof.
  apply (read_past_end reliable calm reliable_ok 2 4 3 [] demo_yfs demo_files
    (File T_FILE [104; 105]) demo_ok two_ok).
  - reflexivity.
  - apply small_admissible; vm_compute; reflexivity.
  - lia.
  - lia.
  - vm_compute. reflexivity.
Defined.

Lemma setattr_correct_witness :
  exists y', setattr reliable calm 2 4 demo_yfs = Done (y', OK) /\
    yok y' (Spec.write 2 [104; 105; 0; 0] demo_files).
Proof.
  destruct (setattr_correct reliable calm reliable_ok 2 4 demo_yfs demo_files
    (File T_FILE [104; 105]) demo_ok two_ok) as (y' & Hs & Hy & _).
  - reflexivity.
  - unfold max_size. lia.
  - apply small_admissible; vm_compute; reflexivity.
  - exists y'. split; [exact Hs | exact Hy].
Defined.

(** A program: make a file with a long name, remove it, make one with a short
    name, list the directory. *)
Definition reuse_slot : ym fstore (Z * list dirent) :=
  _ ← create reliable calm 7 1 (replicate 20 98) T_FILE;
  _ ← unlink reliable calm 7 1 (replicate 20 98);
  _ ← create reliable calm 7 1 [99] T_FILE;
  readdir reliable calm 7 1.

(** Create puts a name into the slack of a blank slot at the wrong offset
    (the length of the slot before it is overwritten instead of its own), and
    the directory can no longer be parsed: the next readdir fails its
    assertion.  Without the third step the listing is right. *)
Theorem inject_corrupts_directory :
  reuse_slot demo_yfs = Fault AssertFailed /\
  exists y, (_ ← create reliable calm 7 1 (replicate 20 98) T_FILE;
     _ ← unlink reliable calm 7 1 (replicate 20 98);
     readdir reliable calm 7 1) demo_yfs = Done (y, (OK, [Dirent [97] 2])).
Proof. split; [vm_compute; reflexivity |]. eexists. vm_compute. reflexivity. Qed.

(** A file that was written before its attributes were read cannot be unlinked:
    its cached type is 0, so that unlink takes it for a directory. *)
Theorem unlink_after_put :
  exists y, (_ ← write reliable calm 2 1 0 [104] 0;
     unlink reliable calm 7 1 [97]) demo_yfs = Done (y, ENOTEMPTY).
Proof. eexists. vm_compute. reflexivity. Qed.
