(* ===== verification/YfsProgram.v ===== *)
(** * The operations of the file system client as programs

    The operations of YfsOps.v, read as programs: trees of the calls they make
    to the extent client and the lock client, with what the call returns as
    the branch.  The set [held_lock] is carried along.

    - Running the program of an operation against one client's cache is the
      operation of YfsClient.v ([program_runs_client]).
    - Programs lock in two phases ([two_phase]): first they take locks and read
      files they hold, then they create, write, remove and release; files are
      read, written and removed under their lock only.  Every operation does
      this but the creation of a directory, whose first contents are written
      without the lock ([mkdir_not_two_phase]).

    LockedStore.v and Cluster.v run the programs of many clients at once. *)

From S2P Require Import Prelude Disk InodeManager FileSpec ExtentServer ExtentClient YfsDir YfsOps YfsClient.
#[local] Set Warnings "-clear-no-such-hyp".

(** ** Programs *)

Inductive prog (A : Type) :=
| Ret (a : A)
| Stop (f : fault)
| Acquire (i : Z) (k : Z -> prog A)
| Release (i : Z) (k : Z -> prog A)
| Getattr (i : Z) (k : Z * attr -> prog A)
| Get (i : Z) (k : Z * list Z -> prog A)
| Create (type : Z) (k : Z * Z -> prog A)
| Put (i : Z) (bs : list Z) (k : Z -> prog A)
| Remove (i : Z) (k : Z -> prog A).
Arguments Ret {A}. Arguments Stop {A}. Arguments Acquire {A}. Arguments Release {A}.
Arguments Getattr {A}. Arguments Get {A}. Arguments Create {A}. Arguments Put {A}. Arguments Remove {A}.

Fixpoint prog_bind {A B} (t : prog A) (g : A -> prog B) : prog B :=
  match t with
  | Ret a => g a
  | Stop f => Stop f
  | Acquire i k => Acquire i (fun r => prog_bind (k r) g)
  | Release i k => Release i (fun r => prog_bind (k r) g)
  | Getattr i k => Getattr i (fun r => prog_bind (k r) g)
  | Get i k => Get i (fun r => prog_bind (k r) g)
  | Create type k => Create type (fun r => prog_bind (k r) g)
  | Put i bs k => Put i bs (fun r => prog_bind (k r) g)
  | Remove i k => Remove i (fun r => prog_bind (k r) g)
  end.

(** Programs with the set [held_lock] as their state. *)
Definition hp (A : Type) : Type := gset Z -> prog (gset Z * A).
#[export] Instance hp_ret : MRet hp := fun A a h => Ret (h, a).
#[export] Instance hp_bind : MBind hp := fun A B g m h => prog_bind (m h) (fun r => g (snd r) (fst r)).

#[export] Instance hp_prims : YfsPrims hp := {|
  p_lift := fun A m h => match m with Done a => Ret (h, a) | Fault f => Stop f end;
  p_held := fun h => Ret (h, h);
  p_set_held := fun h' _ => Ret (h', tt);
  p_acquire := fun i h => Acquire i (fun r => Ret (h, r));
  p_release := fun i h => Release i (fun r => Ret (h, r));
  y_getattr := fun i h => Getattr i (fun r => Ret (h, r));
  y_get := fun i h => Get i (fun r => Ret (h, r));
  y_create := fun type h => Create type (fun r => Ret (h, r));
  y_put := fun i bs h => Put i bs (fun r => Ret (h, r));
  y_remove := fun i h => Remove i (fun r => Ret (h, r))
|}.

(** ** The operations a client is asked for *)

Inductive yop :=
| OIsfile (i : Z) | OGetfile (i : Z) | OGetdir (i : Z)
| OSetattr (i n : Z)
| ORead (i n off : Z) | OWrite (i n off : Z) (data : list Z)
| OReaddir (i : Z) | OLookup (parent : Z) (name : list Z)
| OCreate (parent : Z) (name : list Z) (type : Z) | OUnlink (parent : Z) (name : list Z).

Inductive yres :=
| RBool (b : bool) | RFile (st : Z) (f : fileinfo) | RDir (st : Z) (d : dirinfo)
| RStatus (st : Z) | RData (st : Z) (bs : list Z) | RCount (st n : Z)
| RList (st : Z) (l : list dirent) | RFound (st : Z) (i : option Z).

Section calls.
Context {M : Type -> Type} `{!MRet M} `{!MBind M} `{!YfsPrims M}.

Definition yfs_op (pad : Z) (o : yop) : M yres :=
  match o with
  | OIsfile i => b ← isfile i; mret (RBool b)
  | OGetfile i => r ← getfile i (Fileinfo 0 0 0 0); mret (RFile (fst r) (snd r))
  | OGetdir i => r ← getdir i (Dirinfo 0 0 0); mret (RDir (fst r) (snd r))
  | OSetattr i n => st ← setattr i n; mret (RStatus st)
  | ORead i n off => r ← read i n off []; mret (RData (fst r) (snd r))
  | OWrite i n off data => r ← write i n off data 0; mret (RCount (fst r) (snd r))
  | OReaddir i => r ← readdir pad i; mret (RList (fst r) (snd r))
  | OLookup p name => r ← lookup pad p name; mret (RFound (fst r) (snd r))
  | OCreate p name type => r ← create pad p name type; mret (RFound (fst r) (snd r))
  | OUnlink p name => st ← unlink pad p name; mret (RStatus st)
  end.

End calls.

Definition op_prog (pad : Z) (o : yop) : hp yres := yfs_op pad o.

(** ** Running a program against one client's cache *)

Section run.
Context {S : Type} `{!ExtentService S}.
Variable net : nat -> delivery * env.
Variable revoked : nat -> bool.

Abbreviation state := (extent_client S * nat)%type.

(** One call: it does not look at [held_lock]. *)
Definition one_call {A} (m : ym S A) (s : state) : outcome (state * A) :=
  match m (Yfs (fst s) ∅ (snd s)) with
  | Done (y, a) => Done (y_ec y, releases y, a)
  | Fault f => Fault f
  end.

Abbreviation prims := (ym_prims net revoked).

Fixpoint run_prog {A} (t : prog A) (s : state) : outcome (state * A) :=
  match t with
  | Ret a => Done (s, a)
  | Stop f => Fault f
  | Acquire i k => r ← one_call (p_acquire (YfsPrims := prims) i) s; run_prog (k (snd r)) (fst r)
  | Release i k => r ← one_call (p_release (YfsPrims := prims) i) s; run_prog (k (snd r)) (fst r)
  | Getattr i k => r ← one_call (y_getattr (YfsPrims := prims) i) s; run_prog (k (snd r)) (fst r)
  | Get i k => r ← one_call (y_get (YfsPrims := prims) i) s; run_prog (k (snd r)) (fst r)
  | Create type k => r ← one_call (y_create (YfsPrims := prims) type) s; run_prog (k (snd r)) (fst r)
  | Put i bs k => r ← one_call (y_put (YfsPrims := prims) i bs) s; run_prog (k (snd r)) (fst r)
  | Remove i k => r ← one_call (y_remove (YfsPrims := prims) i) s; run_prog (k (snd r)) (fst r)
  end.

(** The program and the operation on the client do the same. *)
Definition agree {A} (p : hp A) (m : ym S A) : Prop :=
  forall c h n, m (Yfs c h n) =
    match run_prog (p h) (c, n) with
    | Done ((c', n'), (h', a)) => Done (Yfs c' h' n', a)
    | Fault f => Fault f
    end.

Lemma run_prog_bind {A B} (t : prog A) (g : A -> prog B) s :
  run_prog (prog_bind t g) s = (r ← run_prog t s; run_prog (g (snd r)) (fst r)).
Proof.
  revert s. induction t; intros s; cbn [prog_bind run_prog]; try done;
    (match goal with |- (_ ← ?o; _) = _ => destruct o as [[s' a]|] end; [| done]); cbn; auto.
Qed.

Lemma agree_ret {A} (a : A) : agree (mret a) (mret a).
Proof. by intros c h n. Qed.

Lemma agree_bind {A B} (p : hp A) (m : ym S A) (g : A -> hp B) (k : A -> ym S B) :
  agree p m -> (forall a, agree (g a) (k a)) -> agree (p ≫= g) (m ≫= k).
Proof.
  intros Hp Hk c h n. unfold mbind, ym_bind, hp_bind. rewrite run_prog_bind, Hp.
  destruct (run_prog (p h) (c, n)) as [[[c' n'] [h' a]]|]; [| done]. cbn. apply Hk.
Qed.

Lemma agree_lift {A} (o : outcome A) : agree (p_lift o) (p_lift (YfsPrims := prims) o).
Proof. intros c h n. by destruct o. Qed.

Lemma agree_held : agree p_held (p_held (YfsPrims := prims)).
Proof. by intros c h n. Qed.

Lemma agree_set_held h' : agree (p_set_held h') (p_set_held (YfsPrims := prims) h').
Proof. by intros c h n. Qed.

Lemma agree_acquire i : agree (p_acquire i) (p_acquire (YfsPrims := prims) i).
Proof. by intros c h n. Qed.

Lemma agree_release i : agree (p_release i) (p_release (YfsPrims := prims) i).
Proof.
  intros c h n. cbn [p_release hp_prims run_prog]. unfold one_call. cbn [p_release ym_prims]. unfold client_release.
  cbn [y_ec releases fst snd]. destruct (revoked n); [| done]. by destruct (dorelease net i c).
Qed.

Lemma agree_getattr i : agree (y_getattr i) (y_getattr (YfsPrims := prims) i).
Proof.
  intros c h n. cbn [y_getattr hp_prims run_prog]. unfold one_call. cbn [y_getattr ym_prims]. unfold on_ec.
  cbn [y_ec releases fst snd]. by destruct (ec_getattr net i attr_zero c) as [[[? ?] ?]|].
Qed.

Lemma agree_get i : agree (y_get i) (y_get (YfsPrims := prims) i).
Proof.
  intros c h n. cbn [y_get hp_prims run_prog]. unfold one_call. cbn [y_get ym_prims]. unfold on_ec.
  cbn [y_ec releases fst snd]. by destruct (ec_get net i [] c) as [[[? ?] ?]|].
Qed.

Lemma agree_create type : agree (y_create type) (y_create (YfsPrims := prims) type).
Proof.
  intros c h n. cbn [y_create hp_prims run_prog]. unfold one_call. cbn [y_create ym_prims]. unfold on_ec.
  cbn [y_ec releases fst snd]. by destruct (ec_create net type 0 c) as [[[? ?] ?]|].
Qed.

Lemma agree_put i bs : agree (y_put i bs) (y_put (YfsPrims := prims) i bs).
Proof. by intros c h n. Qed.

Lemma agree_remove i : agree (y_remove i) (y_remove (YfsPrims := prims) i).
Proof. by intros c h n. Qed.

Create HintDb agree.
#[local] Hint Resolve agree_ret agree_lift agree_held agree_set_held agree_acquire agree_release agree_getattr
  agree_get agree_create agree_put agree_remove : agree.

(** Both readings of a text take the same branches. *)
Ltac agrees :=
  repeat (cbv beta zeta; intros; lazymatch goal with
    | |- agree (mbind _ _) (mbind _ _) => apply agree_bind
    | |- agree (match ?x with _ => _ end) _ => destruct x
    | |- _ => solve [auto with agree]
    end).

Lemma agree_lock i : agree (lock i) (lock (YfsPrims0 := prims) i).
Proof. unfold lock. agrees. Qed.
Lemma agree_unlock i : agree (unlock i) (unlock (YfsPrims0 := prims) i).
Proof. unfold unlock. agrees. Qed.
#[local] Hint Resolve agree_lock agree_unlock : agree.
Lemma agree_unlock_if lr i : agree (unlock_if lr i) (unlock_if (YfsPrims0 := prims) lr i).
Proof. unfold unlock_if. agrees. Qed.
#[local] Hint Resolve agree_unlock_if : agree.
Lemma agree_isfile i : agree (isfile i) (isfile (YfsPrims0 := prims) i).
Proof. unfold isfile. agrees. Qed.
Lemma agree_write i n off data b : agree (write i n off data b) (write (YfsPrims0 := prims) i n off data b).
Proof. unfold write. agrees. Qed.
Lemma agree_readdir pad i : agree (readdir pad i) (readdir (YfsPrims0 := prims) pad i).
Proof. unfold readdir. agrees. Qed.
#[local] Hint Resolve agree_isfile agree_write agree_readdir : agree.
Lemma agree_lookup pad p name : agree (lookup pad p name) (lookup (YfsPrims0 := prims) pad p name).
Proof. unfold lookup. agrees. Qed.
Lemma agree_create_entry p i name pl :
  agree (create_entry p i name pl) (create_entry (YfsPrims0 := prims) p i name pl).
Proof. unfold create_entry. agrees. Qed.
Lemma agree_isdir i : agree (isdir i) (isdir (YfsPrims0 := prims) i).
Proof. unfold isdir. agrees. Qed.
#[local] Hint Resolve agree_lookup agree_create_entry agree_isdir : agree.
Lemma agree_yfs_create pad p name type :
  agree (create pad p name type) (create (YfsPrims0 := prims) pad p name type).
Proof. unfold create. agrees. Qed.
Lemma agree_unlink pad p name : agree (unlink pad p name) (unlink (YfsPrims0 := prims) pad p name).
Proof. unfold unlink. agrees. Qed.
#[local] Hint Resolve agree_yfs_create agree_unlink : agree.

Lemma agree_op pad o : agree (op_prog pad o) (yfs_op (YfsPrims0 := prims) pad o).
Proof. unfold op_prog. destruct o; cbn [yfs_op]; unfold getfile, getdir, setattr, read; agrees. Qed.

End run.

(** ** Two phases *)

Inductive phase := Growing | Shrinking.

(** A directory does not list itself. *)
Definition no_self (pad dir : Z) (bs : list Z) : bool :=
  match copy_out pad bs with
  | Done (mem, remain) =>
      match readdir_loop (length mem + 1) mem 0 remain [] with
      | Done l => forallb (fun d => negb (d_inum d =? dir)) l
      | Fault _ => true
      end
  | Fault _ => true
  end.

Section two_phase.
Variable pad : Z.

(** [below j i]: lock [i] may be taken while [j] is held.  [ok]: what is known
    of contents when they are read.  The entries of directories with [good] may
    be locked after the directory. *)
Variable below : Z -> Z -> Prop.
Variable ok : Z -> list Z -> bool.
Variable good : Z -> Prop.

(** The entries of a directory. *)
Definition listed (bs : list Z) (l : list dirent) : Prop :=
  exists mem remain, copy_out pad bs = Done (mem, remain) /\ readdir_loop (length mem + 1) mem 0 remain [] = Done l.

Hypothesis below_ne : forall j i, below j i -> i <> j.
Hypothesis ok_below : forall i bs l, ok i bs = true -> good i -> listed bs l -> Forall (fun d => below i (d_inum d)) l.

(** The program holds [h] and is in phase [p]; [Q] describes its results.  In
    the growing phase it takes locks it does not hold and reads; creating,
    writing, removing and releasing begin the shrinking phase, in which no
    lock is taken and no attribute read.  Everything else is done to files
    whose lock is held. *)
Inductive two_phase {A} (Q : phase -> gset Z -> A -> Prop) : phase -> gset Z -> prog (gset Z * A) -> Prop :=
| tp_ret p h a : Q p h a -> two_phase Q p h (Ret (h, a))
| tp_stop p h f : two_phase Q p h (Stop f)
| tp_acquire h i k :
    (forall j, j ∈ h -> below j i) -> (forall r, two_phase Q Growing ({[i]} ∪ h) (k r)) ->
    two_phase Q Growing h (Acquire i k)
| tp_getattr h i k :
    i ∈ h -> (forall r, two_phase Q Growing h (k r)) -> two_phase Q Growing h (Getattr i k)
| tp_get p h i k :
    i ∈ h -> (forall st bs, ok i bs = true -> two_phase Q p h (k (st, bs))) -> two_phase Q p h (Get i k)
| tp_create h type k :
    (forall r, two_phase Q Shrinking h (k r)) -> two_phase Q Growing h (Create type k)
| tp_put p h i bs k :
    i ∈ h -> (forall r, two_phase Q Shrinking h (k r)) -> two_phase Q p h (Put i bs k)
| tp_remove p h i k :
    i ∈ h -> (forall r, two_phase Q Shrinking h (k r)) -> two_phase Q p h (Remove i k)
| tp_release p h i k :
    i ∈ h -> (forall r, two_phase Q Shrinking (h ∖ {[i]}) (k r)) -> two_phase Q p h (Release i k).

(** What the predicate says of the next call. *)
Lemma two_phase_next {A} (Q : phase -> gset Z -> A -> Prop) p h t :
  two_phase Q p h t ->
  match t with
  | Ret r => fst r = h /\ Q p h (snd r)
  | Stop _ => True
  | Acquire i k => p = Growing /\ (forall j, j ∈ h -> below j i) /\ forall r, two_phase Q Growing ({[i]} ∪ h) (k r)
  | Getattr i k => p = Growing /\ i ∈ h /\ forall r, two_phase Q Growing h (k r)
  | Get i k => i ∈ h /\ forall st bs, ok i bs = true -> two_phase Q p h (k (st, bs))
  | Create type k => p = Growing /\ forall r, two_phase Q Shrinking h (k r)
  | Put i bs k => i ∈ h /\ forall r, two_phase Q Shrinking h (k r)
  | Remove i k => i ∈ h /\ forall r, two_phase Q Shrinking h (k r)
  | Release i k => i ∈ h /\ forall r, two_phase Q Shrinking (h ∖ {[i]}) (k r)
  end.
Proof. destruct 1; auto. Qed.

(** The same of an operation that starts with [held_lock = h]. *)
Definition phased {A} (p : phase) (h : gset Z) (m : hp A) (Q : phase -> gset Z -> A -> Prop) : Prop :=
  two_phase Q p h (m h).

Lemma phased_bind {A B} p h (m : hp A) (g : A -> hp B) Q R :
  phased p h m Q -> (forall p' h' a, Q p' h' a -> phased p' h' (g a) R) -> phased p h (m ≫= g) R.
Proof.
  unfold phased, mbind, hp_bind. generalize (m h). intros t Ht Hk.
  induction Ht; cbn [prog_bind fst snd]; [by apply Hk | ..]; constructor; auto.
Qed.

Lemma phased_ret {A} p h (a : A) (Q : phase -> gset Z -> A -> Prop) : Q p h a -> phased p h (mret a) Q.
Proof. intros H. by constructor. Qed.

Lemma phased_lift {A} p h (o : outcome A) (Q : phase -> gset Z -> A -> Prop) :
  (forall a, o = Done a -> Q p h a) -> phased p h (p_lift o) Q.
Proof. intros H. unfold phased. cbn. destruct o; constructor. auto. Qed.

(** What [lock] does: nothing to a lock that is held. *)
Lemma phased_lock_held p h i (Q : phase -> gset Z -> Z -> Prop) : i ∈ h -> Q p h 1 -> phased p h (lock i) Q.
Proof.
  intros Hi HQ. unfold lock, phased, mbind, hp_bind. cbn [p_held hp_prims prog_bind fst snd].
  rewrite bool_decide_true by done. by constructor.
Qed.

(** The results of [lr = lock(i)]. *)
Definition locked_now (h : gset Z) (i : Z) (p' : phase) (h' : gset Z) (lr : Z) : Prop :=
  p' = Growing /\ ((lr = 1 /\ i ∈ h /\ h' = h) \/ (lr = 0 /\ (i ∉ h) /\ h' = {[i]} ∪ h)).

(** Lock [i] may be taken by who holds [h]. *)
Definition may_lock (h : gset Z) (i : Z) : Prop := i ∉ h -> forall j, j ∈ h -> below j i.

Lemma phased_lock h i : may_lock h i -> phased Growing h (lock i) (locked_now h i).
Proof.
  intros Hm. destruct (decide (i ∈ h)) as [Hi|Hi]; [apply phased_lock_held; [done | by split; [| left]] |].
  unfold lock, phased, mbind, hp_bind. cbn [p_held p_acquire p_lift p_set_held hp_prims prog_bind fst snd].
  rewrite bool_decide_false by done. cbn [prog_bind fst snd]. constructor; [by apply Hm |]. intros r. unfold verify.
  destruct (r =? 0); cbn [prog_bind fst snd]; constructor. by split; [| right].
Qed.

(** [if (!lr) unlock(i)] of a lock that is held. *)
Lemma phased_unlock_if p h i lr (Q : phase -> gset Z -> unit -> Prop) :
  i ∈ h -> (lr <> 0 -> Q p h tt) -> (lr = 0 -> Q Shrinking (h ∖ {[i]}) tt) -> phased p h (unlock_if lr i) Q.
Proof.
  intros Hi H1 H2. unfold unlock_if. destruct (Z.eqb_spec lr 0) as [E|E]; [| constructor; auto].
  unfold unlock, phased, mbind, hp_bind. cbn [p_held p_release p_lift p_set_held hp_prims prog_bind fst snd].
  rewrite bool_decide_true by done. cbn [verify prog_bind fst snd]. constructor; [done |]. intros r. unfold verify.
  destruct (r =? 0); cbn [prog_bind fst snd]; constructor. auto.
Qed.

Lemma phased_get p h i (Q : phase -> gset Z -> Z * list Z -> Prop) :
  i ∈ h -> (forall st bs, ok i bs = true -> Q p h (st, bs)) -> phased p h (y_get i) Q.
Proof. intros Hi H. constructor; [done |]. intros st bs Hs. constructor. auto. Qed.

Lemma phased_getattr h i (Q : phase -> gset Z -> Z * attr -> Prop) :
  i ∈ h -> (forall r, Q Growing h r) -> phased Growing h (y_getattr i) Q.
Proof. intros Hi H. constructor; [done |]. intros r. constructor. auto. Qed.

Lemma phased_put p h i bs (Q : phase -> gset Z -> Z -> Prop) :
  i ∈ h -> (forall r, Q Shrinking h r) -> phased p h (y_put i bs) Q.
Proof. intros Hi H. constructor; [done |]. intros r. constructor. auto. Qed.

Lemma phased_remove p h i (Q : phase -> gset Z -> Z -> Prop) :
  i ∈ h -> (forall r, Q Shrinking h r) -> phased p h (y_remove i) Q.
Proof. intros Hi H. constructor; [done |]. intros r. constructor. auto. Qed.

Lemma phased_create h type (Q : phase -> gset Z -> Z * Z -> Prop) :
  (forall r, Q Shrinking h r) -> phased Growing h (y_create type) Q.
Proof. intros H. constructor. intros r. constructor. auto. Qed.

Lemma phased_mono {A} p h (m : hp A) (Q R : phase -> gset Z -> A -> Prop) :
  phased p h m Q -> (forall p' h' a, Q p' h' a -> R p' h' a) -> phased p h m R.
Proof. unfold phased. generalize (m h). induction 1; constructor; auto. Qed.

(** *** The operations *)

Ltac pbind := eapply phased_bind.

Lemma phased_close h i p1 h1 lr p :
  locked_now h i p1 h1 lr -> phased p h1 (unlock_if lr i) (fun _ h' _ => h' = h).
Proof.
  intros [_ [(-> & Hi & ->)|(-> & Hi & ->)]]; apply phased_unlock_if; try done; [set_solver |].
  intros _. by apply release_taken.
Qed.

Lemma locked_now_in h i p h' lr : locked_now h i p h' lr -> p = Growing /\ i ∈ h'.
Proof. intros [-> [(_ & Hi & ->)|(_ & _ & ->)]]; split; set_solver. Qed.

(** lr = lock(i); getattr; if (!lr) unlock(i). *)
Lemma phased_attr_section {A} h i (k : Z -> Z * attr -> hp A) :
  may_lock h i -> (forall lr r h1, locked_now h i Growing h1 lr -> phased Growing h1 (k lr r) (fun _ h' _ => h' = h)) ->
  phased Growing h (lr ← lock i; r ← y_getattr i; k lr r) (fun _ h' _ => h' = h).
Proof.
  intros Hm Hk. pbind; [by apply phased_lock |]. intros p' h1 lr Hl. destruct (locked_now_in _ _ _ _ _ Hl) as [-> Hi].
  pbind; [by apply phased_getattr with (Q := fun p h' _ => p = Growing /\ h' = h1) |].
  intros ? ? r [-> ->]. by apply Hk.
Qed.

(** ...; if (!lr) unlock(i); return a. *)
Lemma phased_finish {A} h i p1 h1 lr p (a : A) :
  locked_now h i p1 h1 lr -> phased p h1 (_ ← unlock_if lr i; mret a) (fun _ h' _ => h' = h).
Proof. intros Hl. pbind; [by apply (phased_close h i p1) |]. intros. by apply phased_ret. Qed.

Lemma phased_isfile h i : may_lock h i -> phased Growing h (isfile i) (fun _ h' _ => h' = h).
Proof.
  intros Hm. unfold isfile. apply phased_attr_section; [done |]. intros lr r h1 Hl.
  destruct (negb (fst r =? OK)); by apply (phased_finish h i Growing).
Qed.

Lemma phased_isdir_held h i : i ∈ h -> phased Growing h (isdir i) (fun p' h' _ => p' = Growing /\ h' = h).
Proof.
  intros Hi. unfold isdir, isfile. pbind; [| intros p' h' b H; apply phased_ret, H].
  pbind; [by apply (phased_lock_held _ _ _ (fun p' h' lr => lr = 1 /\ p' = Growing /\ h' = h)) |].
  intros ? ? ? (-> & -> & ->).
  pbind; [by apply phased_getattr with (Q := fun p' h' _ => p' = Growing /\ h' = h) |]. intros ? ? r [-> ->].
  destruct (negb (fst r =? OK)); by repeat constructor.
Qed.

(** lr = lock(i); get; the rest. *)
Lemma phased_read_section {A} h i (k : Z -> Z * list Z -> hp A) :
  may_lock h i -> (forall lr r h1, locked_now h i Growing h1 lr -> i ∈ h1 -> ok i (snd r) = true ->
     phased Growing h1 (k lr r) (fun _ h' _ => h' = h)) ->
  phased Growing h (lr ← lock i; r ← y_get i; k lr r) (fun _ h' _ => h' = h).
Proof.
  intros Hm Hk. pbind; [by apply phased_lock |]. intros p' h1 lr Hl. destruct (locked_now_in _ _ _ _ _ Hl) as [-> Hi].
  pbind; [by apply phased_get with (Q := fun p h' r => p = Growing /\ h' = h1 /\ ok i (snd r) = true) |].
  intros ? ? r (-> & -> & Hr). by apply Hk.
Qed.

(** put; if (!lr) unlock(i); return. *)
Lemma phased_write_back {A} h i h1 lr p bs (f : Z -> A) :
  locked_now h i Growing h1 lr -> i ∈ h1 ->
  phased p h1 (st ← y_put i bs; _ ← unlock_if lr i; mret (f st)) (fun _ h' _ => h' = h).
Proof.
  intros Hl Hi. pbind; [by apply phased_put with (Q := fun _ h' _ => h' = h1) |]. intros p' ? st ->.
  by apply (phased_finish h i Growing).
Qed.

Lemma phased_setattr h i n : may_lock h i -> phased Growing h (setattr i n) (fun _ h' _ => h' = h).
Proof.
  intros Hm. unfold setattr. apply phased_read_section; [done |]. intros lr [st bs] h1 Hl Hi _. cbn beta iota.
  destruct (negb (st =? OK)); [by apply (phased_finish h i Growing) |].
  pbind; [by apply phased_lift with (Q := fun p h' _ => p = Growing /\ h' = h1) |]. intros ? ? b [-> ->].
  by apply (phased_write_back h i h1 lr Growing b (fun st => st)).
Qed.

Lemma phased_read h i n off d : may_lock h i -> phased Growing h (read i n off d) (fun _ h' _ => h' = h).
Proof.
  intros Hm. unfold read. apply phased_read_section; [done |]. intros lr [st bs] h1 Hl Hi _. cbn beta iota.
  destruct (negb (st =? OK)); [by apply (phased_finish h i Growing) |].
  pbind; [by apply (phased_close h i Growing) |]. intros p' ? _ ->.
  pbind; [by apply phased_lift with (Q := fun _ h' _ => h' = h) |]. intros ? ? b ->. by apply phased_ret.
Qed.

Lemma phased_write h i n off data b : may_lock h i -> phased Growing h (write i n off data b) (fun _ h' _ => h' = h).
Proof.
  intros Hm. unfold write. apply phased_read_section; [done |]. intros lr [st bs] h1 Hl Hi _. cbn beta iota zeta.
  destruct (negb (st =? OK)); [by apply (phased_finish h i Growing) |].
  do 2 (pbind; [by apply phased_lift with (Q := fun p h' _ => p = Growing /\ h' = h1) |]; intros ? ? ? [-> ->]).
  by apply (phased_write_back h i h1 lr Growing _ (fun st => (st, _))).
Qed.

(** With the lock held, write takes and gives back none. *)
Lemma phased_write_held p h i n off data b : i ∈ h -> phased p h (write i n off data b) (fun _ h' _ => h' = h).
Proof.
  intros Hi. unfold write.
  pbind; [by apply (phased_lock_held _ _ _ (fun p' h' lr => lr = 1 /\ p' = p /\ h' = h)) |].
  intros ? ? ? (-> & -> & ->).
  pbind; [by apply phased_get with (Q := fun p' h' _ => p' = p /\ h' = h) |]. intros ? ? [st bs] [-> ->].
  cbn beta iota zeta. destruct (negb (st =? OK)); [by repeat constructor |].
  do 2 (pbind; [by apply phased_lift with (Q := fun p' h' _ => p' = p /\ h' = h) |]; intros ? ? ? [-> ->]).
  pbind; [by apply phased_put with (Q := fun _ h' _ => h' = h) |]. intros ? ? ? ->. by repeat constructor.
Qed.

(** The list readdir makes of the bytes of directory [i]. *)
Lemma phased_listing p h i st bs (Q : phase -> gset Z -> Z * list dirent -> Prop) :
  ok i bs = true -> (forall l, (good i -> Forall (fun d => below i (d_inum d)) l) -> Q p h (st, l)) ->
  phased p h (mr ← p_lift (copy_out pad bs); let '(mem, remain) := mr in
    l ← p_lift (readdir_loop (length mem + 1) mem 0 remain []); mret (st, l)) Q.
Proof.
  intros Hs HQ.
  pbind; [apply phased_lift with (Q := fun p' h' mr => p' = p /\ h' = h /\ copy_out pad bs = Done mr); by intros |].
  intros ? ? [mem remain] (-> & -> & Hc).
  pbind; [apply phased_lift with (Q := fun p' h' l => p' = p /\ h' = h /\
    readdir_loop (length mem + 1) mem 0 remain [] = Done l); by intros |].
  intros ? ? l (-> & -> & Hl). apply phased_ret, HQ. intros Hg. apply (ok_below i bs); [done | done |]. by exists mem, remain.
Qed.

Lemma phased_readdir h i : may_lock h i -> phased Growing h (readdir pad i) (fun _ h' _ => h' = h).
Proof.
  intros Hm. unfold readdir. apply phased_read_section; [done |]. intros lr [st bs] h1 Hl Hi Hs. cbn beta iota.
  destruct (negb (st =? OK)); [by apply (phased_finish h i Growing) |].
  pbind; [by apply (phased_close h i Growing) |]. intros p' ? _ ->. by apply (phased_listing p' h i).
Qed.

Lemma phased_readdir_held p h i :
  i ∈ h -> phased p h (readdir pad i)
    (fun p' h' r => p' = p /\ h' = h /\ (good i -> Forall (fun d => below i (d_inum d)) (snd r))).
Proof.
  intros Hi. unfold readdir.
  pbind; [by apply (phased_lock_held _ _ _ (fun p' h' lr => lr = 1 /\ p' = p /\ h' = h)) |].
  intros ? ? ? (-> & -> & ->).
  pbind; [by apply phased_get with (Q := fun p' h' r => p' = p /\ h' = h /\ ok i (snd r) = true) |].
  intros ? ? [st bs] (-> & -> & Hs). cbn beta iota. destruct (negb (st =? OK)); [by repeat constructor |].
  change (unlock_if 1 i) with (mret tt : hp unit).
  pbind; [by apply phased_ret with (Q := fun p' h' _ => p' = p /\ h' = h) |]. intros ? ? _ [-> ->].
  by apply (phased_listing p h i).
Qed.

Lemma lookup_loop_in l name i : lookup_loop l name = Some i -> exists d, d ∈ l /\ d_inum d = i.
Proof.
  induction l as [|d l IH]; [done |]. cbn [lookup_loop].
  destruct (bool_decide _); [intros [= <-]; exists d; split; [left | done] |].
  intros H. destruct (IH H) as (d' & Hd & E). exists d'. split; [by right | done].
Qed.

Lemma phased_lookup h i name : may_lock h i -> phased Growing h (lookup pad i name) (fun _ h' _ => h' = h).
Proof.
  intros Hm. unfold lookup. pbind; [by apply phased_readdir |]. intros p' ? r ->. destruct (negb (fst r =? OK)); by repeat constructor.
Qed.

Lemma phased_lookup_held p h i name :
  i ∈ h -> phased p h (lookup pad i name)
    (fun p' h' r => p' = p /\ h' = h /\ forall j, good i -> snd r = Some j -> below i j).
Proof.
  intros Hi. unfold lookup. pbind; [by apply phased_readdir_held |]. intros ? ? r (-> & -> & Hr).
  destruct (negb (fst r =? OK)); apply phased_ret; split_and!; try done. cbn [snd].
  intros j Hg Hj. destruct (lookup_loop_in _ _ _ Hj) as (d & Hd & <-). specialize (Hr Hg). rewrite Forall_forall in Hr. by apply Hr.
Qed.

Lemma phased_create_entry p h i ino name pl :
  i ∈ h -> phased p h (create_entry i ino name pl) (fun _ h' _ => h' = h).
Proof.
  intros Hi. unfold create_entry. destruct pl;
    (pbind; [by apply phased_lift with (Q := fun p' h' _ => p' = p /\ h' = h) |]; intros ? ? f [-> ->];
     by apply phased_write_held).
Qed.

(** Creating anything but a directory. *)
Lemma phased_yfs_create h i name type :
  may_lock h i -> type <> T_DIR -> phased Growing h (create pad i name type) (fun _ h' _ => h' = h).
Proof.
  intros Hm Ht. unfold create. pbind; [by apply phased_lock |]. intros p' h1 lr Hl.
  destruct (locked_now_in _ _ _ _ _ Hl) as [-> Hi].
  pbind; [by apply phased_lookup_held |]. intros ? ? [st found] (-> & -> & _). cbn beta iota.
  destruct (negb (st =? OK)); [by apply (phased_finish h i Growing) |].
  destruct found; [by apply (phased_finish h i Growing) |].
  pbind; [by apply phased_create with (Q := fun p h' _ => h' = h1) |]. intros p ? [st1 ino] ->. cbn beta iota.
  destruct (negb (st1 =? OK)); [by apply (phased_finish h i Growing) |].
  destruct (Z.eqb_spec type T_DIR); [done |].
  pbind; [by apply phased_ret with (Q := fun _ h' st => st = OK /\ h' = h1) |]. intros p1 ? ? [-> ->].
  change (negb (OK =? OK)) with false. cbn iota.
  pbind; [by apply phased_get with (Q := fun _ h' _ => h' = h1) |]. intros p2 ? [st2 bs] ->. cbn beta iota.
  destruct (negb (st2 =? OK)); [by apply (phased_finish h i Growing) |].
  pbind; [by apply phased_lift with (Q := fun _ h' _ => h' = h1) |]. intros p3 ? [mem remain] ->. cbn beta iota.
  pbind; [by apply phased_lift with (Q := fun _ h' _ => h' = h1) |]. intros p4 ? pl ->.
  pbind; [by apply phased_create_entry |]. intros p5 ? w ->. by apply (phased_finish h i Growing).
Qed.

Definition any_result {A} (p : phase) (h : gset Z) (a : A) : Prop := True.

(** The end of unlink: the entry is blanked, the parent's lock goes back, the
    file is removed. *)
Lemma phased_unlink_tail h i ino lr1 lr2 pl :
  i ∈ h -> ino ∈ h -> ino <> i ->
  phased Growing h (_ ← (match pl with
      | Some (p, entrylen) => f ← p_lift (filldir 0 0 entrylen [0] 0); _ ← write i (u64 (snd f)) p (fst f) 0; mret tt
      | None => mret tt
      end);
    _ ← unlock_if lr1 i; st ← y_remove ino; _ ← unlock_if lr2 ino; mret st) any_result.
Proof.
  intros Hi Hino Hne.
  pbind; [instantiate (1 := fun _ h' _ => h' = h) |].
  { destruct pl as [[p entrylen]|]; [| by repeat constructor].
    pbind; [by apply phased_lift with (Q := fun _ h' _ => h' = h) |]. intros p1 ? f ->.
    pbind; [by apply phased_write_held |]. intros p2 ? w ->. by repeat constructor. }
  intros p1 ? _ ->. pbind; [apply (phased_unlock_if _ _ _ _ (fun _ h' _ => ino ∈ h')); set_solver |].
  intros p2 h2 u Hin. pbind; [by apply phased_remove with (Q := fun _ h' _ => ino ∈ h') |]. intros p3 h3 st Hin3.
  pbind; [by apply (phased_unlock_if _ _ _ _ any_result) |]. intros. by repeat constructor.
Qed.

(** if (!lr2) unlock(ino); if (!lr1) unlock(parent); return. *)
Lemma phased_unlink_fail h i ino lr1 lr2 (st : Z) :
  i ∈ h -> ino ∈ h -> ino <> i ->
  phased Growing h (_ ← unlock_if lr2 ino; _ ← unlock_if lr1 i; mret st) any_result.
Proof.
  intros Hi Hino Hne. pbind; [apply (phased_unlock_if _ _ _ _ (fun _ h' _ => i ∈ h')); set_solver |].
  intros p1 h1 u Hin. pbind; [by apply (phased_unlock_if _ _ _ _ any_result) |]. intros. by repeat constructor.
Qed.

Lemma phased_unlink h i name :
  (forall j, may_lock h j) -> good i -> phased Growing h (unlink pad i name) any_result.
Proof.
  intros Hm Hg. unfold unlink. pbind; [by apply phased_lock |]. intros p' h1 lr1 Hl.
  destruct (locked_now_in _ _ _ _ _ Hl) as [-> Hi].
  pbind; [by apply phased_lookup_held |]. intros ? ? [st found] (-> & -> & Hne). cbn beta iota.
  destruct (negb (st =? OK)); [by repeat constructor |].
  destruct found as [ino|]; [| by repeat constructor]. specialize (Hne ino Hg eq_refl).
  assert (Hm1 : may_lock h1 ino).
  { intros Hn j Hj. destruct (decide (j = i)) as [->|Hji]; [done |].
    destruct Hl as [_ [(_ & _ & ->)|(_ & _ & ->)]]; apply Hm; set_solver. }
  apply below_ne in Hne. pbind; [by apply phased_lock |]. intros p2 h2 lr2 Hl2. destruct (locked_now_in _ _ _ _ _ Hl2) as [-> Hino].
  assert (Hi2 : i ∈ h2) by (destruct Hl2 as [_ [(_ & _ & ->)|(_ & _ & ->)]]; set_solver).
  pbind; [by apply phased_isdir_held |]. intros ? ? d [-> ->]. destruct d; [by apply phased_unlink_fail |].
  pbind; [by apply phased_get with (Q := fun p h' _ => p = Growing /\ h' = h2) |].
  intros ? ? [st2 bs] [-> ->]. cbn beta iota. destruct (negb (st2 =? OK)); [by apply phased_unlink_fail |].
  pbind; [by apply phased_lift with (Q := fun p h' _ => p = Growing /\ h' = h2) |].
  intros ? ? [mem remain] [-> ->]. cbn beta iota.
  pbind; [by apply phased_lift with (Q := fun p h' _ => p = Growing /\ h' = h2) |].
  intros ? ? pl [-> ->]. by apply phased_unlink_tail.
Qed.

(** Making a directory is left out. *)
Definition plain (o : yop) : Prop := match o with OCreate _ _ type => type <> T_DIR | _ => True end.

Definition op_good (o : yop) : Prop := match o with OUnlink p _ => good p | _ => True end.

Lemma op_phased o h :
  plain o -> op_good o -> (forall i, may_lock h i) -> two_phase any_result Growing h (op_prog pad o h).
Proof.
  intros Ho Hg Hm. change (phased Growing h (yfs_op pad o) any_result). unfold yfs_op.
  destruct o; (pbind; [| intros; by apply phased_ret]);
    first [ by apply phased_isfile | by apply phased_setattr | by apply phased_read | by apply phased_write | by apply phased_readdir
          | by apply phased_lookup | by apply phased_yfs_create | by apply phased_unlink | idtac ].
  - unfold getfile. apply phased_attr_section; [done |]. intros lr r h1 Hl.
    destruct (negb (fst r =? OK)); by apply (phased_finish h i Growing).
  - unfold getdir. apply phased_attr_section; [done |]. intros lr r h1 Hl.
    destruct (negb (fst r =? OK)); by apply (phased_finish h i Growing).
Qed.

End two_phase.

(** *** No lock twice *)

(** Any lock but those that are held. *)
Definition other (j i : Z) : Prop := i <> j.

Section distinct.
Variable pad : Z.

Lemma two_phase_inv {A} (Q : phase -> gset Z -> A -> Prop) p h t :
  two_phase other (no_self pad) Q p h t ->
  match t with
  | Ret r => fst r = h /\ Q p h (snd r)
  | Stop _ => True
  | Acquire i k => p = Growing /\ (i ∉ h) /\ forall r, two_phase other (no_self pad) Q Growing ({[i]} ∪ h) (k r)
  | Getattr i k => p = Growing /\ i ∈ h /\ forall r, two_phase other (no_self pad) Q Growing h (k r)
  | Get i k => i ∈ h /\ forall st bs, no_self pad i bs = true -> two_phase other (no_self pad) Q p h (k (st, bs))
  | Create type k => p = Growing /\ forall r, two_phase other (no_self pad) Q Shrinking h (k r)
  | Put i bs k => i ∈ h /\ forall r, two_phase other (no_self pad) Q Shrinking h (k r)
  | Remove i k => i ∈ h /\ forall r, two_phase other (no_self pad) Q Shrinking h (k r)
  | Release i k => i ∈ h /\ forall r, two_phase other (no_self pad) Q Shrinking (h ∖ {[i]}) (k r)
  end.
Proof.
  intros H. apply two_phase_next in H. destruct t; try done. destruct H as (H1 & H2 & H3). split_and!; [done | | done].
  intros Hi. by destruct (H2 i Hi).
Qed.

Lemma no_self_below i bs l :
  no_self pad i bs = true -> True -> listed pad bs l -> Forall (fun d => other i (d_inum d)) l.
Proof.
  intros Hs _ (mem & remain & Hc & Hl). unfold no_self in Hs. rewrite Hc, Hl in Hs.
  apply Forall_forall. intros d Hd. rewrite forallb_forall in Hs. specialize (Hs d (proj1 (list_elem_of_In _ _) Hd)).
  unfold other. by destruct (Z.eqb_spec (d_inum d) i).
Qed.

Lemma op_two_phase o h : plain o -> two_phase other (no_self pad) any_result Growing h (op_prog pad o h).
Proof.
  intros Ho. apply (op_phased pad other (no_self pad) (fun _ => True)); [done | apply no_self_below | done | by destruct o |].
  intros i Hi j Hj ->. done.
Qed.

End distinct.

(** ** Theorems *)

(** The two readings of the source text agree: running the program of an
    operation, call by call, against a client's cache does to the client and
    returns exactly what the operation of YfsClient.v does, faults included. *)
Theorem program_runs_client {S : Type} `{!ExtentService S} net revoked pad o c h n :
  yfs_op (M := ym S) (YfsPrims0 := ym_prims net revoked) pad o (Yfs c h n) =
    match run_prog net revoked (op_prog pad o h) (c, n) with
    | Done ((c', n'), (h', r)) => Done (Yfs c' h' n', r)
    | Fault f => Fault f
    end.
Proof. apply agree_op. Qed.

(** C6: two-phase locking: every operation but the creation of a directory
    first takes locks and reads files whose locks it holds, and then creates,
    writes, removes and releases, touching only files whose locks it holds,
    whatever the calls return (directories must not list themselves). *)
Theorem operations_two_phase pad o h : plain o -> two_phase other (no_self pad) any_result Growing h (op_prog pad o h).
Proof. apply op_two_phase. Qed.

Lemma operations_two_phase_witness : two_phase other (no_self 7) any_result Growing ∅ (op_prog 7 (OUnlink 1 [97]) ∅).
Proof. apply (operations_two_phase 7 (OUnlink 1 [97]) ∅). exact I. Defined.

(** Making a directory is not two-phase: the first contents of the new
    directory are put without its lock. *)
Lemma mkdir_not_two_phase : ~ two_phase other (no_self 7) any_result Growing ∅ (op_prog 7 (OCreate 1 [98] T_DIR) ∅).
Proof.
  intros H. apply two_phase_inv in H. destruct H as (_ & _ & H). specialize (H 0).
  apply two_phase_inv in H. destruct H as (_ & H). specialize (H OK newdir).
  specialize (H eq_refl). apply two_phase_inv in H. destruct H as (_ & H). specialize (H (OK, 5)).
  apply two_phase_inv in H. destruct H as [H _]. change (5 ∈ ({[1]} ∪ ∅ : gset Z)) in H. set_solver.
Qed.
