(* ===== verification/LockedStore.v ===== *)
(** * Operations of many clients on one store: atomicity

    Two machines with the same events, the starts and ends of operations of
    clients.

    - [lstep]: one store of files, a table of locks, and clients that run the
      programs of their operations (YfsProgram.v) call by call, in any
      interleaving.
    - [astep]: one store of files; an operation happens as a whole, at one
      moment between its start and its end.

    Because operations lock in two phases, the second machine explains every
    run of the first ([locked_store_atomic]).  Cluster.v shows that clients
    with caches and the lock protocol behave like the first one. *)

From stdpp Require Import functions.
From S2P Require Import Prelude Disk InodeManager FileSpec ExtentServer ExtentClient YfsOps YfsProgram.
#[local] Set Warnings "-clear-no-such-hyp".

Definition program : Type := prog (gset Z * yres).
Definition ended : Type := (gset Z * yres) + fault.

Inductive event := Start (c : string) (o : yop) | End (c : string) (r : yres) | Crash (c : string) (f : fault).

(** The bytes of a file; none if it does not exist. *)
Definition bytes (i : Z) (m : fstore) : list Z := default [] (Spec.read i m).

(** [n] is the number of a new file, or zero when there are no more numbers. *)
Definition created (type : Z) (m : fstore) (n : Z) (m' : fstore) : Prop :=
  (m !! n = None /\ m' = <[n := File (s16 type) []]> m) \/ (n = 0 /\ m' = m).

Section machines.
Variable pad : Z.

(** ** The locked store *)

Inductive thread :=
| Idle (h : gset Z)       (* between operations; [h] is held_lock *)
| Busy (t : program)
| Dead                    (* after a fault *).

Record lsys := LSys { store : fstore; owner : Z -> option string; threads : string -> thread }.

Definition go (c : string) (t : program) (s : lsys) : lsys :=
  LSys (store s) (owner s) (<[c := Busy t]> (threads s)).

Inductive lstep : option event -> lsys -> lsys -> Prop :=
| ls_start c o h s :
    threads s c = Idle h -> plain o -> lstep (Some (Start c o)) s (go c (op_prog pad o h) s)
| ls_acquire c i k s :
    threads s c = Busy (Acquire i k) -> owner s i = None ->
    lstep None s (go c (k 0) (LSys (store s) (<[i := Some c]> (owner s)) (threads s)))
| ls_release c i k s :
    threads s c = Busy (Release i k) ->
    lstep None s (go c (k 0) (LSys (store s) (<[i := None]> (owner s)) (threads s)))
| ls_getattr c i k a s :
    threads s c = Busy (Getattr i k) -> lstep None s (go c (k (OK, a)) s)
| ls_get c i k s :
    threads s c = Busy (Get i k) -> no_self pad i (bytes i (store s)) = true ->
    lstep None s (go c (k (OK, bytes i (store s))) s)
| ls_create c type k n m s :
    threads s c = Busy (Create type k) -> created type (store s) n m -> (m = store s \/ owner s n = None) ->
    lstep None s (go c (k (OK, n)) (LSys m (owner s) (threads s)))
| ls_put c i bs k s :
    threads s c = Busy (Put i bs k) ->
    lstep None s (go c (k OK) (LSys (Spec.write i bs (store s)) (owner s) (threads s)))
| ls_remove c i k s :
    threads s c = Busy (Remove i k) ->
    lstep None s (go c (k OK) (LSys (Spec.remove i (store s)) (owner s) (threads s)))
| ls_end c h r s :
    threads s c = Busy (Ret (h, r)) ->
    lstep (Some (End c r)) s (LSys (store s) (owner s) (<[c := Idle h]> (threads s)))
| ls_crash c f s :
    threads s c = Busy (Stop f) ->
    lstep (Some (Crash c f)) s (LSys (store s) (owner s) (<[c := Dead]> (threads s))).

(** ** The atomic store *)

(** An operation alone on the store: the results and the store it can leave.
    Attributes are not specified, nor is what is made of a directory that lists
    itself. *)
Inductive exec : program -> fstore -> fstore -> ended -> Prop :=
| ex_ret a m : exec (Ret a) m m (inl a)
| ex_stop f m : exec (Stop f) m m (inr f)
| ex_acquire i k m m' e : exec (k 0) m m' e -> exec (Acquire i k) m m' e
| ex_release i k m m' e : exec (k 0) m m' e -> exec (Release i k) m m' e
| ex_getattr i k a m m' e : exec (k (OK, a)) m m' e -> exec (Getattr i k) m m' e
| ex_get i k m m' e : exec (k (OK, bytes i m)) m m' e -> exec (Get i k) m m' e
| ex_self i k m e : no_self pad i (bytes i m) = false -> exec (Get i k) m m e
| ex_create type k n m m1 m' e : created type m n m1 -> exec (k (OK, n)) m1 m' e -> exec (Create type k) m m' e
| ex_put i bs k m m' e : exec (k OK) (Spec.write i bs m) m' e -> exec (Put i bs k) m m' e
| ex_remove i k m m' e : exec (k OK) (Spec.remove i m) m' e -> exec (Remove i k) m m' e.

Inductive athread := AIdle (h : gset Z) | APending (o : yop) (h : gset Z) | ADecided (e : ended) | ADead.

Record asys := ASys { astore : fstore; athreads : string -> athread }.

Inductive astep : option event -> asys -> asys -> Prop :=
| as_start c o h a :
    athreads a c = AIdle h -> astep (Some (Start c o)) a (ASys (astore a) (<[c := APending o h]> (athreads a)))
| as_happen c o h m e a :
    athreads a c = APending o h -> exec (op_prog pad o h) (astore a) m e ->
    astep None a (ASys m (<[c := ADecided e]> (athreads a)))
| as_end c h r a :
    athreads a c = ADecided (inl (h, r)) ->
    astep (Some (End c r)) a (ASys (astore a) (<[c := AIdle h]> (athreads a)))
| as_crash c f a :
    athreads a c = ADecided (inr f) ->
    astep (Some (Crash c f)) a (ASys (astore a) (<[c := ADead]> (athreads a))).

(** ** Runs *)

Definition put_event (e : option event) (tr : list event) : list event :=
  match e with Some e => tr ++ [e] | None => tr end.

Inductive lrun (s0 : lsys) : list event -> lsys -> Prop :=
| lr_nil : lrun s0 [] s0
| lr_step tr e s s' : lrun s0 tr s -> lstep e s s' -> lrun s0 (put_event e tr) s'.

Inductive arun (a0 : asys) : list event -> asys -> Prop :=
| ar_nil : arun a0 [] a0
| ar_step tr e a a' : arun a0 tr a -> astep e a a' -> arun a0 (put_event e tr) a'.

(** ** What a program in its shrinking phase will do *)

Fixpoint finish (t : program) (m : fstore) : fstore * ended :=
  match t with
  | Ret a => (m, inl a)
  | Stop f => (m, inr f)
  | Acquire i k => finish (k 0) m
  | Release i k => finish (k 0) m
  | Getattr i k => finish (k (OK, attr_zero)) m
  | Get i k => if no_self pad i (bytes i m) then finish (k (OK, bytes i m)) m else (m, inr OutOfFuel)
  | Create type k => finish (k (OK, 0)) m
  | Put i bs k => finish (k OK) (Spec.write i bs m)
  | Remove i k => finish (k OK) (Spec.remove i m)
  end.

Lemma finish_exec t m : exec t m (fst (finish t m)) (snd (finish t m)).
Proof.
  revert m. induction t as [a|f|i k IH|i k IH|i k IH|i k IH|type k IH|i bs k IH|i k IH]; intros m; cbn [finish].
  - apply ex_ret.
  - apply ex_stop.
  - by apply ex_acquire.
  - by apply ex_release.
  - by eapply ex_getattr.
  - destruct (no_self pad i (bytes i m)) eqn:E; [by apply ex_get | by apply ex_self].
  - apply (ex_create type k 0 m m); [by right | done].
  - by apply ex_put.
  - by apply ex_remove.
Qed.

Definition agree_on (h : gset Z) (m m' : fstore) : Prop := forall i, i ∈ h -> m !! i = m' !! i.

Lemma agree_on_sub h h' m m' : h' ⊆ h -> agree_on h m m' -> agree_on h' m m'.
Proof. intros Hs H i Hi. apply H. set_solver. Qed.

Lemma agree_bytes h m m' i : agree_on h m m' -> i ∈ h -> bytes i m = bytes i m'.
Proof. intros H Hi. unfold bytes, Spec.read. by rewrite (H i Hi). Qed.

Lemma agree_on_write h m m' i bs : agree_on h m m' -> agree_on h (Spec.write i bs m) (Spec.write i bs m').
Proof. intros H j Hj. unfold Spec.write. rewrite !lookup_alter. case_decide; subst; by rewrite H. Qed.

Lemma agree_on_remove h m m' i : agree_on h m m' -> agree_on h (Spec.remove i m) (Spec.remove i m').
Proof. intros H j Hj. unfold Spec.remove. rewrite !lookup_delete. case_decide; [done | by apply H]. Qed.

Abbreviation disciplined := (two_phase other (no_self pad) any_result).

(** It changes files it holds only. *)
Lemma finish_outside t h m i : disciplined Shrinking h t -> i ∉ h -> fst (finish t m) !! i = m !! i.
Proof.
  revert h m. induction t as [a|f|j k IH|j k IH|j k IH|j k IH|type k IH|j bs k IH|j k IH]; intros h m H Hi;
    apply two_phase_inv in H; cbn [finish]; try done; try (by destruct H as [[=] _]).
  - destruct H as [Hj H]. apply (IH 0 (h ∖ {[j]})); [done | set_solver].
  - destruct H as [Hj H]. destruct (no_self pad j (bytes j m)) eqn:E; [| done]. by apply (IH _ h); [apply H |].
  - destruct H as [Hj H]. rewrite (IH OK h) by done. unfold Spec.write. rewrite lookup_alter_ne; [done | set_solver].
  - destruct H as [Hj H]. rewrite (IH OK h) by done. unfold Spec.remove. rewrite lookup_delete_ne; [done | set_solver].
Qed.

(** What it does depends on files it holds only. *)
Lemma finish_agree t h m m' :
  disciplined Shrinking h t -> agree_on h m m' ->
  snd (finish t m) = snd (finish t m') /\ agree_on h (fst (finish t m)) (fst (finish t m')).
Proof.
  revert h m m'. induction t as [a|f|j k IH|j k IH|j k IH|j k IH|type k IH|j bs k IH|j k IH]; intros h m m' H Ha;
    apply two_phase_inv in H; cbn [finish]; try done; try (by destruct H as [[=] _]).
  - destruct H as [Hj H]. destruct (IH 0 (h ∖ {[j]}) m m') as [H1 H2]; [done | |].
    { apply (agree_on_sub h); [set_solver | done]. }
    split; [done |]. intros i Hi. destruct (decide (i = j)) as [->|Hne]; [| apply H2; set_solver].
    rewrite !(finish_outside (k 0) (h ∖ {[j]})) by (done || set_solver). by apply Ha.
  - destruct H as [Hj H]. rewrite <- (agree_bytes h m m' j Ha Hj).
    destruct (no_self pad j (bytes j m)) eqn:E; [| done]. by apply (IH _ h); [apply H |].
  - destruct H as [Hj H]. apply (IH OK h); [done | by apply agree_on_write].
  - destruct H as [Hj H]. apply (IH OK h); [done | by apply agree_on_remove].
Qed.

(** ** What a program in its growing phase has done *)

(** [t] is what is left of [t0] after calls that changed nothing. *)
Inductive reach (h : gset Z) (m : fstore) (t0 : program) : program -> Prop :=
| rc_here : reach h m t0 t0
| rc_acquire i k : reach h m t0 (Acquire i k) -> reach h m t0 (k 0)
| rc_getattr i k a : reach h m t0 (Getattr i k) -> reach h m t0 (k (OK, a))
| rc_get i k : i ∈ h -> reach h m t0 (Get i k) -> reach h m t0 (k (OK, bytes i m)).

Lemma reach_agree h h' m m' t0 t : h ⊆ h' -> agree_on h m m' -> reach h m t0 t -> reach h' m' t0 t.
Proof.
  intros Hs Ha. induction 1 as [|i k _ IH|i k a _ IH|i k Hi _ IH].
  - constructor.
  - by eapply rc_acquire.
  - by eapply rc_getattr.
  - rewrite (agree_bytes h m m') by done. apply rc_get; [set_solver | done].
Qed.

Lemma reach_exec h m t0 t m' e : reach h m t0 t -> exec t m m' e -> exec t0 m m' e.
Proof.
  intros Hr. revert m' e. induction Hr as [|i k _ IH|i k a _ IH|i k Hi _ IH]; intros m' e H; [done | ..]; apply IH.
  - by apply ex_acquire.
  - by eapply ex_getattr.
  - by apply ex_get.
Qed.

(** ** The simulation *)

(** [h]: the locks of the thread. *)
Definition thread_rel (m : fstore) (h : gset Z) (t : thread) (x : athread) : Prop :=
  match t, x with
  | Idle h1, AIdle h2 => h1 = h /\ h2 = h
  | Busy t, APending o h0 => disciplined Growing h t /\ reach h m (op_prog pad o h0) t
  | Busy t, ADecided e => disciplined Shrinking h t /\ snd (finish t m) = e
  | Dead, ADead => True
  | _, _ => False
  end.

(** The store as it will be when a decided operation has ended. *)
Definition future (m : fstore) (t : thread) (x : athread) : fstore :=
  match t, x with Busy t, ADecided _ => fst (finish t m) | _, _ => m end.

Record sim (hs : string -> gset Z) (s : lsys) (a : asys) : Prop := {
  sim_owner : forall i c, owner s i = Some c <-> i ∈ hs c;
  sim_thread : forall c, thread_rel (store s) (hs c) (threads s c) (athreads a c);
  sim_held : forall c i, i ∈ hs c -> astore a !! i = future (store s) (threads s c) (athreads a c) !! i;
  sim_free : forall i, owner s i = None -> astore a !! i = store s !! i
}.

Lemma thread_rel_agree m m' h t x : agree_on h m m' -> thread_rel m h t x -> thread_rel m' h t x.
Proof.
  intros Ha. destruct t as [h1|t|], x as [h2|o h0|e|]; cbn; try done.
  - intros [Hd Hr]. split; [done | by apply (reach_agree h h m)].
  - intros [Hd <-]. split; [done |]. symmetry. by apply (finish_agree t h m m').
Qed.

Lemma future_agree m m' h t x :
  agree_on h m m' -> thread_rel m h t x -> agree_on h (future m t x) (future m' t x).
Proof.
  intros Ha. destruct t as [h1|t|], x as [h2|o h0|e|]; cbn; try done. intros [Hd _]. by apply (finish_agree t h m m').
Qed.

(** Client [c] takes a step; the others see none of it. *)
Lemma sim_update hs s a c m' ow' t' M' x' h' :
  sim hs s a ->
  (forall i d, ow' i = Some d <-> i ∈ (<[c := h']> hs : string -> gset Z) d) ->
  thread_rel m' h' t' x' ->
  (forall d, d <> c -> agree_on (hs d) (store s) m' /\ agree_on (hs d) (astore a) M') ->
  (forall i, i ∈ h' -> M' !! i = future m' t' x' !! i) ->
  (forall i, ow' i = None -> M' !! i = m' !! i) ->
  sim (<[c := h']> hs) (LSys m' ow' (<[c := t']> (threads s))) (ASys M' (<[c := x']> (athreads a))).
Proof.
  intros [So St Sh Sf] Hown Hrel Hfr Hh Hf. split; cbn [owner store threads astore athreads]; auto.
  - intros d. destruct (decide (c = d)) as [<-|Hne]; [by rewrite !fn_lookup_insert |].
    rewrite !fn_lookup_insert_ne by done. destruct (Hfr d) as [Ha _]; [done |]. by apply (thread_rel_agree (store s)).
  - intros d i. destruct (decide (c = d)) as [<-|Hne]; [rewrite !fn_lookup_insert; auto |].
    rewrite !fn_lookup_insert_ne by done. intros Hi. destruct (Hfr d) as [Ha HM]; [done |].
    rewrite <- (HM i Hi), (Sh d i Hi). by apply (future_agree (store s) m' (hs d)).
Qed.

(** Nothing changes for the others when [m'] and [M'] differ on files of [c]
    and on files nobody has locked only. *)
Lemma others_agree hs s a c (m m' : fstore) d :
  sim hs s a -> d <> c -> (forall i, i ∉ hs c -> owner s i <> None -> m !! i = m' !! i) -> agree_on (hs d) m m'.
Proof.
  intros S Hne H i Hi. apply H.
  - intros Hc. apply (sim_owner _ _ _ S) in Hi, Hc. congruence.
  - apply (sim_owner _ _ _ S) in Hi. congruence.
Qed.

Lemma agree_on_refl h m : agree_on h m m.
Proof. done. Qed.
#[local] Hint Resolve agree_on_refl : core.

(** Only the thread of [c] changes, and its locks stay. *)
Lemma sim_local hs s a c t' x' :
  sim hs s a -> thread_rel (store s) (hs c) t' x' ->
  (forall i, i ∈ hs c -> astore a !! i = future (store s) t' x' !! i) ->
  sim hs (LSys (store s) (owner s) (<[c := t']> (threads s))) (ASys (astore a) (<[c := x']> (athreads a))).
Proof.
  intros [So St Sh Sf] Hrel Hh. split; cbn [owner store threads astore athreads]; auto.
  - intros d. destruct (decide (c = d)) as [<-|Hne]; [by rewrite !fn_lookup_insert | by rewrite !fn_lookup_insert_ne].
  - intros d i. destruct (decide (c = d)) as [<-|Hne]; [rewrite !fn_lookup_insert; auto |].
    rewrite !fn_lookup_insert_ne by done. auto.
Qed.

(** Systems that are the same at every client and lock. *)
Lemma sim_ext hs hs' s s' a a' :
  (forall d, hs d = hs' d) -> store s = store s' -> (forall i, owner s i = owner s' i) ->
  (forall d, threads s d = threads s' d) -> astore a = astore a' -> (forall d, athreads a d = athreads a' d) ->
  sim hs s a -> sim hs' s' a'.
Proof.
  intros E1 E2 E3 E4 E5 E6 [So St Sh Sf]. split; intros.
  - by rewrite <- E3, <- E1.
  - rewrite <- E2, <- E1, <- E4, <- E6. auto.
  - rewrite <- E5, <- E2, <- E4, <- E6. apply Sh. by rewrite E1.
  - rewrite <- E5, <- E2. apply Sf. by rewrite E3.
Qed.

Lemma insert_same {T} (f : string -> T) c d : <[c := f c]> f d = f d.
Proof. destruct (decide (c = d)) as [<-|Hne]; [apply fn_lookup_insert | by apply fn_lookup_insert_ne]. Qed.

(** The moment an operation happens: it is about to enter its shrinking phase. *)
Lemma decide_now a0 tr hs s a c t :
  sim hs s a -> arun a0 tr a -> threads s c = Busy t -> disciplined Shrinking (hs c) t ->
  exists a' e, arun a0 tr a' /\ sim hs s a' /\ athreads a' c = ADecided e.
Proof.
  intros S Hrun Ht Hd. pose proof (sim_thread _ _ _ S c) as Hc. rewrite Ht in Hc.
  destruct (athreads a c) as [h|o h|e|] eqn:Hx; cbn in Hc; try done; [| by exists a, e].
  destruct Hc as [_ Hreach].
  assert (Ha : agree_on (hs c) (store s) (astore a)).
  { intros i Hi. rewrite (sim_held _ _ _ S c i Hi), Ht, Hx. done. }
  set (M := fst (finish t (astore a))). set (e := snd (finish t (astore a))).
  destruct (finish_agree t (hs c) (store s) (astore a) Hd Ha) as [Hres HM].
  exists (ASys M (<[c := ADecided e]> (athreads a))), e. split_and!; [| | apply fn_lookup_insert].
  - apply (ar_step a0 tr None a); [done |]. apply (as_happen c o h); [done |].
    eapply reach_exec; [by apply (reach_agree (hs c) (hs c) (store s)) | apply finish_exec].
  - assert (Hs : sim (<[c := hs c]> hs) (LSys (store s) (owner s) (<[c := Busy t]> (threads s)))
                   (ASys M (<[c := ADecided e]> (athreads a)))).
    { apply sim_update; auto.
      - intros i d. rewrite (sim_owner _ _ _ S i d). destruct (decide (c = d)) as [<-|Hne];
          [by rewrite fn_lookup_insert | by rewrite fn_lookup_insert_ne].
      - by split.
      - intros d Hne. split; [done |]. apply (others_agree hs s a c); auto. intros i Hi _. symmetry.
        by apply (finish_outside t (hs c)).
      - intros i Hi. symmetry. by apply HM.
      - intros i Hi. unfold M. rewrite (finish_outside t (hs c)); [by apply (sim_free _ _ _ S) | done |].
        intros Hc. apply (sim_owner _ _ _ S) in Hc. congruence. }
    eapply sim_ext; [| | | | | | exact Hs]; cbn; intros; auto using insert_same. rewrite <- Ht. apply insert_same.
Qed.

(** A step of [c] of which the atomic store sees nothing. *)
Lemma sim_silent hs s a c m' ow' t' h' :
  sim hs s a ->
  (forall i d, ow' i = Some d <-> i ∈ (<[c := h']> hs : string -> gset Z) d) ->
  thread_rel m' h' t' (athreads a c) ->
  (forall i, i ∉ hs c -> owner s i <> None -> store s !! i = m' !! i) ->
  (forall i, i ∈ h' -> astore a !! i = future m' t' (athreads a c) !! i) ->
  (forall i, ow' i = None -> astore a !! i = m' !! i) ->
  sim (<[c := h']> hs) (LSys m' ow' (<[c := t']> (threads s))) a.
Proof.
  intros S Hown Hrel Hm Hh Hf.
  eapply sim_ext; [| | | | | | apply (sim_update hs s a c m' ow' t' (astore a) (athreads a c) h'); auto];
    cbn; intros; auto using insert_same.
  split; [| done]. by apply (others_agree hs s a c).
Qed.

(** ... and that changes neither files nor locks. *)
Lemma sim_reads hs s a c t' :
  sim hs s a -> thread_rel (store s) (hs c) t' (athreads a c) ->
  (forall i, i ∈ hs c -> astore a !! i = future (store s) t' (athreads a c) !! i) ->
  sim hs (LSys (store s) (owner s) (<[c := t']> (threads s))) a.
Proof.
  intros S Hrel Hh. eapply sim_ext; [| | | | | | apply (sim_local hs s a c t' (athreads a c)); auto];
    cbn; intros; auto using insert_same.
Qed.

(** *** Steps of a thread in its growing phase *)

Section growing.
Context (hs : string -> gset Z) (s : lsys) (a : asys) (c : string) (o : yop) (h0 : gset Z).
Hypothesis S : sim hs s a.
Hypothesis Hx : athreads a c = APending o h0.

Lemma grow_rel t : threads s c = Busy t -> disciplined Growing (hs c) t /\ reach (hs c) (store s) (op_prog pad o h0) t.
Proof. intros Ht. pose proof (sim_thread _ _ _ S c) as H. by rewrite Ht, Hx in H. Qed.

Lemma grow_held t i : threads s c = Busy t -> i ∈ hs c -> astore a !! i = store s !! i.
Proof. intros Ht Hi. rewrite (sim_held _ _ _ S c i Hi), Ht, Hx. done. Qed.

Lemma grow_acquire i k :
  threads s c = Busy (Acquire i k) -> owner s i = None ->
  sim (<[c := {[i]} ∪ hs c]> hs) (go c (k 0) (LSys (store s) (<[i := Some c]> (owner s)) (threads s))) a.
Proof.
  intros Ht Ho. destruct (grow_rel _ Ht) as [Hd Hr]. apply two_phase_inv in Hd as (_ & Hi & Hd).
  apply (sim_silent hs s a c (store s) (<[i := Some c]> (owner s)) (Busy (k 0))); auto; rewrite ?Hx.
  - intros j d. destruct (decide (c = d)) as [<-|Hne]; [rewrite (fn_lookup_insert hs) | rewrite (fn_lookup_insert_ne hs) by done].
    + destruct (decide (i = j)) as [<-|Hj]; [rewrite fn_lookup_insert; set_solver |].
      rewrite fn_lookup_insert_ne by done. rewrite (sim_owner _ _ _ S). set_solver.
    + destruct (decide (i = j)) as [<-|Hj]; [rewrite fn_lookup_insert | rewrite fn_lookup_insert_ne by done; apply (sim_owner _ _ _ S)].
      rewrite <- (sim_owner _ _ _ S), Ho. split; congruence.
  - split; [apply Hd |]. eapply rc_acquire, (reach_agree (hs c)); [set_solver | done | exact Hr].
  - intros j Hj. cbn [future]. destruct (decide (j ∈ hs c)) as [|Hn]; [by apply (grow_held _ _ Ht) |].
    assert (j = i) as -> by set_solver. by apply (sim_free _ _ _ S).
  - intros j. destruct (decide (i = j)) as [<-|Hj]; [by rewrite fn_lookup_insert |].
    rewrite fn_lookup_insert_ne by done. apply (sim_free _ _ _ S).
Qed.

Lemma grow_getattr i k r : threads s c = Busy (Getattr i k) -> sim hs (go c (k (OK, r)) s) a.
Proof.
  intros Ht. destruct (grow_rel _ Ht) as [Hd Hr]. apply two_phase_inv in Hd as (_ & Hi & Hd).
  apply sim_reads; rewrite ?Hx; [done | split; [apply Hd | by eapply rc_getattr] |].
  intros j Hj. by apply (grow_held _ _ Ht).
Qed.

Lemma grow_get i k :
  threads s c = Busy (Get i k) -> no_self pad i (bytes i (store s)) = true ->
  sim hs (go c (k (OK, bytes i (store s))) s) a.
Proof.
  intros Ht Hn. destruct (grow_rel _ Ht) as [Hd Hr]. apply two_phase_inv in Hd as (Hi & Hd).
  apply sim_reads; rewrite ?Hx; [done | split; [by apply Hd | by apply rc_get] |].
  intros j Hj. by apply (grow_held _ _ Ht).
Qed.

Lemma created_both type n m :
  created type (store s) n m -> (m = store s \/ owner s n = None) ->
  exists M, created type (astore a) n M /\
    (forall i, owner s i <> None -> m !! i = store s !! i /\ M !! i = astore a !! i) /\
    (forall i, owner s i = None -> M !! i = m !! i).
Proof.
  intros [[Hn ->]|[-> ->]] Ho.
  - assert (On : owner s n = None).
    { destruct Ho as [E|]; [| done]. rewrite <- E, lookup_insert_eq in Hn. done. }
    exists (<[n := File (s16 type) []]> (astore a)). split_and!.
    + left. split; [by rewrite (sim_free _ _ _ S n On) | done].
    + intros i Hi. assert (n <> i) by congruence. by rewrite !lookup_insert_ne.
    + intros i Hi. rewrite !lookup_insert. case_decide; [done | by apply (sim_free _ _ _ S)].
  - exists (astore a). split_and!; [by right | done |]. apply (sim_free _ _ _ S).
Qed.

Lemma grow_create a0 tr type k n m :
  arun a0 tr a -> threads s c = Busy (Create type k) ->
  created type (store s) n m -> (m = store s \/ owner s n = None) ->
  exists hs' a', arun a0 tr a' /\ sim hs' (go c (k (OK, n)) (LSys m (owner s) (threads s))) a'.
Proof.
  intros Hrun Ht Hc Ho. destruct (grow_rel _ Ht) as [Hd Hr]. apply two_phase_inv in Hd as (_ & Hd). specialize (Hd (OK, n)).
  destruct (created_both type n m Hc Ho) as (M & HcM & Hown & Hfree).
  assert (Howned : forall d i, i ∈ hs d -> owner s i <> None) by (intros d i Hi; apply (sim_owner _ _ _ S) in Hi; congruence).
  assert (Ha : agree_on (hs c) m M).
  { intros i Hi. destruct (Hown i (Howned c i Hi)) as [-> ->]. symmetry. by apply (grow_held _ _ Ht). }
  destruct (finish_agree _ _ _ _ Hd Ha) as [Hres HM].
  set (M' := fst (finish (k (OK, n)) M)) in *. set (e := snd (finish (k (OK, n)) M)) in *.
  exists (<[c := hs c]> hs), (ASys M' (<[c := ADecided e]> (athreads a))). split.
  - apply (ar_step a0 tr None a); [done |]. apply (as_happen c o h0); [done |].
    eapply reach_exec; [apply (reach_agree (hs c) (hs c) (store s)); [done | | exact Hr] |].
    { intros i Hi. symmetry. by apply (grow_held _ _ Ht). }
    eapply ex_create; [exact HcM | apply finish_exec].
  - apply (sim_update hs s a c m (owner s) (Busy (k (OK, n)))); auto.
    + intros i d. rewrite insert_same. apply (sim_owner _ _ _ S).
    + by split.
    + intros d Hne. split; intros i Hi; destruct (Hown i (Howned d i Hi)) as [E1 E2]; [done |].
      unfold M'. rewrite (finish_outside _ _ _ _ Hd); [done |]. intros Hin.
      apply (sim_owner _ _ _ S) in Hi, Hin. congruence.
    + intros i Hi. symmetry. by apply HM.
    + intros i Hi. unfold M'. rewrite (finish_outside _ _ _ _ Hd); [by apply Hfree |]. intros Hin. by apply (Howned c i Hin).
Qed.

End growing.

(** *** Steps of a thread in its shrinking phase *)

Section shrinking.
Context (hs : string -> gset Z) (s : lsys) (a : asys) (c : string) (e : ended).
Hypothesis S : sim hs s a.
Hypothesis Hx : athreads a c = ADecided e.

Lemma shrink_rel t : threads s c = Busy t -> disciplined Shrinking (hs c) t /\ snd (finish t (store s)) = e.
Proof. intros Ht. pose proof (sim_thread _ _ _ S c) as H. by rewrite Ht, Hx in H. Qed.

Lemma shrink_held t i : threads s c = Busy t -> i ∈ hs c -> astore a !! i = fst (finish t (store s)) !! i.
Proof. intros Ht Hi. rewrite (sim_held _ _ _ S c i Hi), Ht, Hx. done. Qed.

Lemma shrink_get i k :
  threads s c = Busy (Get i k) -> no_self pad i (bytes i (store s)) = true ->
  sim hs (go c (k (OK, bytes i (store s))) s) a.
Proof.
  intros Ht Hn. destruct (shrink_rel _ Ht) as [Hd He]. pose proof (fun j => shrink_held _ j Ht) as Hh.
  apply two_phase_inv in Hd as (Hi & Hd). cbn [finish] in He, Hh. rewrite Hn in He, Hh.
  apply sim_reads; rewrite ?Hx; [done | split; [by apply Hd | done] |]. auto.
Qed.

Lemma shrink_release i k :
  threads s c = Busy (Release i k) ->
  sim (<[c := hs c ∖ {[i]}]> hs) (go c (k 0) (LSys (store s) (<[i := None]> (owner s)) (threads s))) a.
Proof.
  intros Ht. destruct (shrink_rel _ Ht) as [Hd He]. pose proof (fun j => shrink_held _ j Ht) as Hh.
  apply two_phase_inv in Hd as (Hi & Hd). cbn [finish] in He, Hh.
  apply (sim_silent hs s a c (store s) (<[i := None]> (owner s)) (Busy (k 0))); auto; rewrite ?Hx.
  - intros j d. destruct (decide (i = j)) as [<-|Hj]; [rewrite (fn_lookup_insert (owner s)) | rewrite (fn_lookup_insert_ne (owner s)) by done];
      (destruct (decide (c = d)) as [<-|Hne]; [rewrite (fn_lookup_insert hs) | rewrite (fn_lookup_insert_ne hs) by done]);
      rewrite ?(sim_owner _ _ _ S); try set_solver.
    split; [done |]. rewrite <- (sim_owner _ _ _ S) in *. congruence.
  - by split.
  - intros j Hj. apply Hh. set_solver.
  - intros j. destruct (decide (i = j)) as [<-|Hj].
    + intros _. rewrite (Hh i Hi). apply (finish_outside _ (hs c ∖ {[i]})); [apply Hd | set_solver].
    + rewrite fn_lookup_insert_ne by done. apply (sim_free _ _ _ S).
Qed.

(** The thread changes file [i], which it holds. *)
Lemma shrink_change i t t' m :
  threads s c = Busy t -> i ∈ hs c -> (forall j, j <> i -> store s !! j = m !! j) ->
  disciplined Shrinking (hs c) t' -> finish t (store s) = finish t' m ->
  sim (<[c := hs c]> hs) (go c t' (LSys m (owner s) (threads s))) a.
Proof.
  intros Ht Hi Hm Hd Hf. destruct (shrink_rel _ Ht) as [_ He]. rewrite Hf in He.
  apply (sim_silent hs s a c m (owner s) (Busy t')); auto; rewrite ?Hx.
  - intros j d. rewrite insert_same. apply (sim_owner _ _ _ S).
  - by split.
  - intros j Hj _. apply Hm. set_solver.
  - intros j Hj. cbn [future]. rewrite <- Hf. by apply shrink_held.
  - intros j Hj. rewrite (sim_free _ _ _ S) by done. apply Hm. intros ->. apply (sim_owner _ _ _ S) in Hi. congruence.
Qed.

Lemma shrink_put i bs k :
  threads s c = Busy (Put i bs k) ->
  sim (<[c := hs c]> hs) (go c (k OK) (LSys (Spec.write i bs (store s)) (owner s) (threads s))) a.
Proof.
  intros Ht. destruct (shrink_rel _ Ht) as [Hd _]. apply two_phase_inv in Hd as (Hi & Hd).
  apply (shrink_change i _ _ _ Ht Hi); [| apply Hd | done].
  intros j Hj. unfold Spec.write. by rewrite lookup_alter_ne.
Qed.

Lemma shrink_remove i k :
  threads s c = Busy (Remove i k) ->
  sim (<[c := hs c]> hs) (go c (k OK) (LSys (Spec.remove i (store s)) (owner s) (threads s))) a.
Proof.
  intros Ht. destruct (shrink_rel _ Ht) as [Hd _]. apply two_phase_inv in Hd as (Hi & Hd).
  apply (shrink_change i _ _ _ Ht Hi); [| apply Hd | done].
  intros j Hj. unfold Spec.remove. by rewrite lookup_delete_ne.
Qed.

Lemma shrink_end a0 tr h r :
  arun a0 tr a -> threads s c = Busy (Ret (h, r)) ->
  exists a', arun a0 (tr ++ [End c r]) a' /\
    sim hs (LSys (store s) (owner s) (<[c := Idle h]> (threads s))) a'.
Proof.
  intros Hrun Ht. destruct (shrink_rel _ Ht) as [Hd He]. pose proof (fun j => shrink_held _ j Ht) as Hh.
  apply two_phase_inv in Hd as [Hd _]. cbn [finish fst snd] in *.
  exists (ASys (astore a) (<[c := AIdle h]> (athreads a))). split.
  - apply (ar_step a0 tr (Some _) a); [done |]. apply as_end. by rewrite Hx, <- He.
  - apply sim_local; auto. by split.
Qed.

Lemma shrink_crash a0 tr f :
  arun a0 tr a -> threads s c = Busy (Stop f) ->
  exists a', arun a0 (tr ++ [Crash c f]) a' /\
    sim hs (LSys (store s) (owner s) (<[c := Dead]> (threads s))) a'.
Proof.
  intros Hrun Ht. destruct (shrink_rel _ Ht) as [_ He]. pose proof (fun j => shrink_held _ j Ht) as Hh.
  cbn [finish fst snd] in *. exists (ASys (astore a) (<[c := ADead]> (athreads a))). split.
  - apply (ar_step a0 tr (Some _) a); [done |]. apply as_crash. by rewrite Hx, <- He.
  - by apply sim_local.
Qed.

End shrinking.

(** *** Every step *)

Lemma thread_busy hs s a c t :
  sim hs s a -> threads s c = Busy t ->
  (exists o h0, athreads a c = APending o h0 /\ disciplined Growing (hs c) t) \/
  (exists e, athreads a c = ADecided e /\ disciplined Shrinking (hs c) t).
Proof.
  intros S Ht. pose proof (sim_thread _ _ _ S c) as H. rewrite Ht in H.
  destruct (athreads a c) as [|o h0|e|]; try done; [left | right]; destruct H; eauto.
Qed.

(** These calls begin the shrinking phase if they do not find the thread in it. *)
Definition ends_growth (t : program) : Prop :=
  match t with Ret _ | Stop _ | Put _ _ _ | Remove _ _ | Release _ _ => True | _ => False end.

Lemma ends_growth_shrinking h t : ends_growth t -> disciplined Growing h t -> disciplined Shrinking h t.
Proof. intros Ht Hd. destruct t; try done; inversion Hd; subst; constructor; auto. Qed.

Lemma step_start a0 tr hs s a c o h :
  sim hs s a -> arun a0 tr a -> threads s c = Idle h -> plain o ->
  exists a', arun a0 (tr ++ [Start c o]) a' /\ sim hs (go c (op_prog pad o h) s) a'.
Proof.
  intros S Hrun Ht Ho. pose proof (sim_thread _ _ _ S c) as H. rewrite Ht in H.
  destruct (athreads a c) as [h'| | |] eqn:Hx; try done. destruct H as [H1 H2]. rewrite <- H1 in H2. subst h'.
  exists (ASys (astore a) (<[c := APending o h]> (athreads a))). split.
  - apply (ar_step a0 tr (Some _) a); [done |]. by apply as_start.
  - apply sim_local; auto.
    + split; [rewrite <- H1; by apply op_two_phase | constructor].
    + intros i Hi. by rewrite (sim_held _ _ _ S c i Hi), Ht.
Qed.

Lemma step_sim a0 tr hs s a e s' :
  sim hs s a -> arun a0 tr a -> lstep e s s' ->
  exists hs' a', arun a0 (put_event e tr) a' /\ sim hs' s' a'.
Proof.
  intros S Hrun Hs.
  assert (Hdec : forall c t, threads s c = Busy t -> ends_growth t ->
    exists a1 r, arun a0 tr a1 /\ sim hs s a1 /\ athreads a1 c = ADecided r).
  { intros c t Ht He. apply (decide_now a0 tr hs s a c t); auto.
    destruct (thread_busy hs s a c t S Ht) as [(? & ? & _ & Hd)|(? & _ & Hd)]; [by apply ends_growth_shrinking | done]. }
  destruct Hs as [c o h s Ht Ho|c i k s Ht Ho|c i k s Ht|c i k r s Ht|c i k s Ht Hn|c type k n m s Ht Hc Ho|c i bs k s Ht
    |c i k s Ht|c h r s Ht|c f s Ht]; cbn [put_event].
  - destruct (step_start a0 tr hs s a c o h) as (a' & ? & ?); eauto.
  - destruct (thread_busy hs s a c _ S Ht) as [(o & h0 & Hx & _)|(? & _ & Hd)];
      [| by apply two_phase_inv in Hd as [[=] _]]. eexists _, a. split; [done | by apply (grow_acquire hs s a c o h0)].
  - destruct (Hdec c _ Ht I) as (a1 & r & H1 & S1 & Hx). eexists _, a1. split; [done | by apply (shrink_release hs s a1 c r)].
  - destruct (thread_busy hs s a c _ S Ht) as [(o & h0 & Hx & _)|(? & _ & Hd)];
      [| by apply two_phase_inv in Hd as [[=] _]]. eexists _, a. split; [done | by eapply (grow_getattr hs s a c o h0)].
  - eexists _, a. split; [done |].
    destruct (thread_busy hs s a c _ S Ht) as [(o & h0 & Hx & _)|(r & Hx & _)];
      [by apply (grow_get hs s a c o h0) | by apply (shrink_get hs s a c r)].
  - destruct (thread_busy hs s a c _ S Ht) as [(o & h0 & Hx & _)|(? & _ & Hd)];
      [| by apply two_phase_inv in Hd as [[=] _]]. by apply (grow_create hs s a c o h0 S Hx a0 tr type).
  - destruct (Hdec c _ Ht I) as (a1 & r & H1 & S1 & Hx). eexists _, a1. split; [done | by apply (shrink_put hs s a1 c r)].
  - destruct (Hdec c _ Ht I) as (a1 & r & H1 & S1 & Hx). eexists _, a1. split; [done | by apply (shrink_remove hs s a1 c r)].
  - destruct (Hdec c _ Ht I) as (a1 & x & H1 & S1 & Hx).
    destruct (shrink_end hs s a1 c x S1 Hx a0 tr h r H1 Ht) as (a' & ? & ?). eauto.
  - destruct (Hdec c _ Ht I) as (a1 & x & H1 & S1 & Hx).
    destruct (shrink_crash hs s a1 c x S1 Hx a0 tr f H1 Ht) as (a' & ? & ?). eauto.
Qed.

(** Nobody has done anything yet. *)
Definition lsys_new (m : fstore) : lsys := LSys m (fun _ => None) (fun _ => Idle ∅).
Definition asys_new (m : fstore) : asys := ASys m (fun _ => AIdle ∅).

Lemma sim_new m : sim (fun _ => ∅) (lsys_new m) (asys_new m).
Proof. split; cbn; [split; [done | set_solver] | done | set_solver | done]. Qed.

Lemma lrun_sim m tr s : lrun (lsys_new m) tr s -> exists hs a, arun (asys_new m) tr a /\ sim hs s a.
Proof.
  induction 1 as [|tr e s s' _ IH Hs].
  - exists (fun _ => ∅), (asys_new m). split; [constructor | apply sim_new].
  - destruct IH as (hs & a & Hrun & S). by apply (step_sim (asys_new m) tr hs s a e s').
Qed.

(** When no operation is under way, both stores are the same. *)
Definition quiet (s : lsys) : Prop := forall c t, threads s c <> Busy t.

Lemma sim_quiet hs s a : sim hs s a -> quiet s -> forall i, astore a !! i = store s !! i.
Proof.
  intros S Hq i. destruct (owner s i) as [c|] eqn:Ho; [| by apply (sim_free _ _ _ S)].
  apply (sim_owner _ _ _ S) in Ho. rewrite (sim_held _ _ _ S c i Ho).
  destruct (threads s c) eqn:Ht; [done | by destruct (Hq c t) | done].
Qed.

End machines.

(** ** Theorem *)

(** C7: operations are atomic.  Whatever many clients do at the same time on
    one store with locks, each call at any moment, their operations start and
    end as if each had happened as a whole at one moment between its start and
    its end; and whenever no operation is under way, the store is what those
    moments have made of it. *)
Theorem locked_store_atomic pad m tr s :
  lrun pad (lsys_new m) tr s ->
  exists a, arun pad (asys_new m) tr a /\ (quiet s -> forall i, astore a !! i = store s !! i).
Proof.
  intros H. destruct (lrun_sim pad m tr s H) as (hs & a & Ha & S). exists a. split; [done |]. by apply (sim_quiet pad hs).
Qed.

(** *** A run *)

(** One step of a client; [Some o] asks it to start [o]. *)
Definition lfire (pad : Z) (x : string * option yop) (s : lsys) : option (option event * lsys) :=
  let c := fst x in
  match threads s c, snd x with
  | Idle h, Some (OWrite i n off data) =>
      Some (Some (Start c (OWrite i n off data)), go c (op_prog pad (OWrite i n off data) h) s)
  | Busy (Acquire i k), None =>
      match owner s i with
      | None => Some (None, go c (k 0) (LSys (store s) (<[i := Some c]> (owner s)) (threads s)))
      | Some _ => None
      end
  | Busy (Release i k), None => Some (None, go c (k 0) (LSys (store s) (<[i := None]> (owner s)) (threads s)))
  | Busy (Get i k), None =>
      if no_self pad i (bytes i (store s)) then Some (None, go c (k (OK, bytes i (store s))) s) else None
  | Busy (Put i bs k), None =>
      Some (None, go c (k OK) (LSys (Spec.write i bs (store s)) (owner s) (threads s)))
  | Busy (Ret (h, r)), None => Some (Some (End c r), LSys (store s) (owner s) (<[c := Idle h]> (threads s)))
  | _, _ => None
  end.

Lemma lfire_sound pad x s e s' : lfire pad x s = Some (e, s') -> lstep pad e s s'.
Proof.
  destruct x as [c o]. unfold lfire. cbn [fst snd].
  destruct (threads s c) as [h|[[h r]|f|i k|i k|i k|i k|type k|i bs k|i k]|] eqn:Ht, o as [[]|]; try done;
    try (intros [= <- <-]; by constructor).
  - intros H. assert (e = Some (Start c (OWrite i n off data))) as -> by congruence.
    assert (s' = go c (op_prog pad (OWrite i n off data) h) s) as -> by congruence. by apply ls_start.
  - destruct (owner s i) eqn:Ho; [done |]. intros [= <- <-]. by constructor.
  - destruct (no_self pad i (bytes i (store s))) eqn:Hn; [| done]. intros [= <- <-]. by constructor.
Qed.

Fixpoint lfires (pad : Z) (l : list (string * option yop)) (tr : list event) (s : lsys) : option (list event * lsys) :=
  match l with
  | [] => Some (tr, s)
  | x :: l => match lfire pad x s with Some (e, s') => lfires pad l (put_event e tr) s' | None => None end
  end.

Lemma lfires_run pad l s0 tr s r : lrun pad s0 tr s -> lfires pad l tr s = Some r -> lrun pad s0 (fst r) (snd r).
Proof.
  revert tr s. induction l as [|x l IH]; intros tr s Hr; cbn [lfires]; [by intros [= <-] |].
  destruct (lfire pad x s) as [[e s']|] eqn:E; [| done]. apply IH. eapply lr_step; [done | by apply (lfire_sound pad x)].
Qed.

(** Two clients write the same file; the second one starts before the first
    has ended. *)
Definition two_files : fstore := {[1 := File T_DIR []; 2 := File T_FILE [104; 105]]}.
Definition cl_a : string := "a".
Definition cl_b : string := "b".
Definition write_steps : list (string * option yop) :=
  [(cl_a, Some (OWrite 2 1 0 [65])); (cl_a, None); (cl_b, Some (OWrite 2 1 1 [66])); (cl_a, None); (cl_a, None);
   (cl_a, None); (cl_b, None); (cl_b, None); (cl_b, None); (cl_a, None); (cl_b, None); (cl_b, None)].
Definition write_trace : list event :=
  [Start cl_a (OWrite 2 1 0 [65]); Start cl_b (OWrite 2 1 1 [66]); End cl_a (RCount OK 1); End cl_b (RCount OK 1)].

Lemma write_run : exists s, lrun 7 (lsys_new two_files) write_trace s /\ store s !! 2 = Some (File T_FILE [65; 66]).
Proof.
  destruct (lfires 7 write_steps [] (lsys_new two_files)) as [r|] eqn:E.
  - exists (snd r). assert (H : option_map (fun r => (fst r, store (snd r) !! 2)) (lfires 7 write_steps [] (lsys_new two_files))
      = Some (write_trace, Some (File T_FILE [65; 66]))) by (vm_compute; reflexivity).
    rewrite E in H. cbn [option_map] in H. assert (H1 : fst r = write_trace) by congruence.
    split; [| congruence]. rewrite <- H1. apply (lfires_run 7 write_steps _ [] (lsys_new two_files)); [constructor | done].
  - exfalso. assert (H : is_Some (option_map (fun r => fst r) (lfires 7 write_steps [] (lsys_new two_files))))
      by (eexists; vm_compute; reflexivity). rewrite E in H. by destruct H.
Qed.

Lemma locked_store_atomic_witness : exists a, arun 7 (asys_new two_files) write_trace a.
Proof.
  destruct write_run as (s & Hs & _). destruct (locked_store_atomic 7 two_files write_trace s Hs) as (a & Ha & _).
  exists a. exact Ha.
Defined.
