(* ===== verification/LockOrder.v ===== *)
(** * The order of locks: operations do not wait for each other in a circle

    unlink locks a directory and then a file it lists; every other operation
    takes one lock.  If directories form a hierarchy ([rank] grows from a
    directory to what it lists), the locks are so taken in increasing order, and
    on the locked store of LockedStore.v some operation under way can always go
    on ([operations_progress]).  Two things the code does are left out by
    hypothesis: the lock an unlink of a missing name keeps, and the locks of a
    process that has crashed. *)

From stdpp Require Import functions.
From S2P Require Import Prelude Disk InodeManager FileSpec ExtentServer ExtentClient YfsDir YfsOps YfsProgram LockedStore.
#[local] Set Warnings "-clear-no-such-hyp".

Section order.
Variable pad : Z.
(** The depth of a file in the hierarchy, and which files are directories. *)
Variable rank : Z -> nat.
Variable dirs : Z -> bool.

Definition below (j i : Z) : Prop := (rank j < rank i)%nat.

(** What a directory lists is deeper. *)
Definition ranked (i : Z) (bs : list Z) : bool :=
  if dirs i then
    match copy_out pad bs with
    | Done (mem, remain) =>
        match readdir_loop (length mem + 1) mem 0 remain [] with
        | Done l => forallb (fun d => (rank i <? rank (d_inum d))%nat) l
        | Fault _ => true
        end
    | Fault _ => true
    end
  else true.

Definition is_dir (i : Z) : Prop := dirs i = true.

Lemma ranked_below i bs l :
  ranked i bs = true -> is_dir i -> listed pad bs l -> Forall (fun d => below i (d_inum d)) l.
Proof.
  intros Hr Hd (mem & remain & Hc & Hl). unfold ranked in Hr. rewrite Hd, Hc, Hl in Hr.
  apply Forall_forall. intros d Hin. rewrite forallb_forall in Hr. specialize (Hr d (proj1 (list_elem_of_In _ _) Hin)).
  by apply Nat.ltb_lt in Hr.
Qed.

Abbreviation ordered := (two_phase below ranked any_result).

Lemma op_ordered o : plain o -> op_good is_dir o -> ordered Growing ∅ (op_prog pad o ∅).
Proof.
  intros Ho Hg. apply (op_phased pad below ranked is_dir); [unfold below; intros j i Hb ->; lia | apply ranked_below | done | done |].
  intros i _ j Hj. set_solver.
Qed.

(** ** Runs in a hierarchy *)

Definition hierarchy (m : fstore) : Prop := forall i, ranked i (bytes i m) = true.

(** Operations start without locks, and unlink on directories. *)
Definition starts_well (e : option event) (s : lsys) : Prop :=
  match e with Some (Start c o) => threads s c = Idle ∅ /\ op_good is_dir o | _ => True end.

Inductive orun (s0 : lsys) : list event -> lsys -> Prop :=
| or_nil : orun s0 [] s0
| or_step tr e s s' :
    orun s0 tr s -> hierarchy (store s) -> starts_well e s -> lstep pad e s s' -> orun s0 (put_event e tr) s'.

Lemma orun_lrun s0 tr s : orun s0 tr s -> lrun pad s0 tr s.
Proof. induction 1; [constructor | by eapply lr_step]. Qed.

Definition thread_ordered (h : gset Z) (t : thread) : Prop :=
  match t with Idle h' => h' = h | Busy t => exists p, ordered p h t | Dead => True end.

Record in_order (hs : string -> gset Z) (s : lsys) : Prop := {
  io_owner : forall i c, owner s i = Some c <-> i ∈ hs c;
  io_thread : forall c, thread_ordered (hs c) (threads s c)
}.

(** A step of [c] that keeps the locks. *)
Lemma order_keeps hs s c t' m :
  in_order hs s -> thread_ordered (hs c) t' -> in_order hs (LSys m (owner s) (<[c := t']> (threads s))).
Proof.
  intros [Ho Ht] Hc. split; [done |]. intros d. cbn [threads].
  destruct (decide (c = d)) as [<-|Hne]; [by rewrite fn_lookup_insert | by rewrite fn_lookup_insert_ne].
Qed.

Lemma order_acquire hs s c i k :
  in_order hs s -> threads s c = Busy (Acquire i k) -> owner s i = None ->
  in_order (<[c := {[i]} ∪ hs c]> hs) (go c (k 0) (LSys (store s) (<[i := Some c]> (owner s)) (threads s))).
Proof.
  intros [Ho Ht] Hc Hi. pose proof (Ht c) as Hp. rewrite Hc in Hp. destruct Hp as [p Hp]. apply two_phase_next in Hp as (_ & _ & Hk).
  split; cbn [go owner threads].
  - intros j d. destruct (decide (i = j)) as [<-|Hj]; [rewrite fn_lookup_insert | rewrite fn_lookup_insert_ne by done].
    + destruct (decide (c = d)) as [<-|Hne]; [rewrite fn_lookup_insert; set_solver |].
      rewrite (fn_lookup_insert_ne hs) by done. rewrite <- Ho, Hi. split; congruence.
    + rewrite Ho. destruct (decide (c = d)) as [<-|Hne]; [rewrite fn_lookup_insert; set_solver | by rewrite fn_lookup_insert_ne].
  - intros d. destruct (decide (c = d)) as [<-|Hne]; [rewrite !fn_lookup_insert; by exists Growing |].
    by rewrite (fn_lookup_insert_ne hs), fn_lookup_insert_ne.
Qed.

Lemma order_release hs s c i k :
  in_order hs s -> threads s c = Busy (Release i k) ->
  in_order (<[c := hs c ∖ {[i]}]> hs) (go c (k 0) (LSys (store s) (<[i := None]> (owner s)) (threads s))).
Proof.
  intros [Ho Ht] Hc. pose proof (Ht c) as Hp. rewrite Hc in Hp. destruct Hp as [p Hp]. apply two_phase_next in Hp as (Hi & Hk).
  split; cbn [go owner threads].
  - intros j d. destruct (decide (i = j)) as [<-|Hj]; [rewrite fn_lookup_insert | rewrite fn_lookup_insert_ne by done].
    + split; [done |]. destruct (decide (c = d)) as [<-|Hne]; [rewrite fn_lookup_insert; set_solver |].
      rewrite (fn_lookup_insert_ne hs) by done. rewrite <- Ho. apply Ho in Hi. congruence.
    + rewrite Ho. destruct (decide (c = d)) as [<-|Hne]; [rewrite fn_lookup_insert; set_solver | by rewrite fn_lookup_insert_ne].
  - intros d. destruct (decide (c = d)) as [<-|Hne]; [rewrite !fn_lookup_insert; by exists Shrinking |].
    by rewrite (fn_lookup_insert_ne hs), fn_lookup_insert_ne.
Qed.

Lemma order_step hs e s s' :
  in_order hs s -> hierarchy (store s) -> starts_well e s -> lstep pad e s s' -> exists hs', in_order hs' s'.
Proof.
  intros IO Hh Hs Hl. pose proof (io_thread _ _ IO) as Ht.
  destruct Hl as [c o h s Hc Ho|c i k s Hc Hi|c i k s Hc|c i k a s Hc|c i k s Hc Hn|c type k n m s Hc Hcr Hf|c i bs k s Hc|c i k s Hc|c h r s Hc|c f s Hc];
    specialize (Ht c); rewrite Hc in Ht.
  - exists hs. destruct Hs as [E Hg]. apply (order_keeps hs s c); [done |]. exists Growing. cbn in Ht. subst h. rewrite Hc in E. injection E as ->.
    by apply op_ordered.
  - eexists. by apply order_acquire.
  - eexists. by apply order_release.
  - destruct Ht as [p Hp]. apply two_phase_next in Hp as (_ & _ & Hk). exists hs. apply (order_keeps hs s c); [done | by exists Growing].
  - destruct Ht as [p Hp]. apply two_phase_next in Hp as (_ & Hk). exists hs. apply (order_keeps hs s c); [done |]. exists p. apply Hk, Hh.
  - destruct Ht as [p Hp]. apply two_phase_next in Hp as (_ & Hk). exists hs. apply (order_keeps hs s c); [done | by exists Shrinking].
  - destruct Ht as [p Hp]. apply two_phase_next in Hp as (_ & Hk). exists hs. apply (order_keeps hs s c); [done | by exists Shrinking].
  - destruct Ht as [p Hp]. apply two_phase_next in Hp as (_ & Hk). exists hs. apply (order_keeps hs s c); [done | by exists Shrinking].
  - destruct Ht as [p Hp]. apply two_phase_next in Hp as (E & _). exists hs. by apply (order_keeps hs s c).
  - exists hs. by apply (order_keeps hs s c).
Qed.

Lemma orun_ordered m tr s : orun (lsys_new m) tr s -> exists hs, in_order hs s.
Proof.
  induction 1 as [|tr e s s' _ [hs IH] Hh Hs Hl]; [| by eapply order_step].
  exists (fun _ => ∅). split; [| done]. intros i c. cbn. split; [done | set_solver].
Qed.

(** ** Progress *)

(** A step of an operation under way. *)
Definition goes_on (s : lsys) : Prop := exists e s', lstep pad e s s' /\ forall c o, e <> Some (Start c o).

Lemma not_waiting s c t :
  threads s c = Busy t -> (forall i, no_self pad i (bytes i (store s)) = true) ->
  goes_on s \/ exists i k d, t = Acquire i k /\ owner s i = Some d.
Proof.
  intros Hc Hn.
  assert (Hl : forall e s', lstep pad e s s' -> (forall c o, e <> Some (Start c o)) -> goes_on s) by (intros e s' H1 H2; by exists e, s').
  destruct t as [[h r]|f|i k|i k|i k|i k|type k|i bs k|i k].
  - left. by eapply Hl; [apply (ls_end pad c h r) |].
  - left. by eapply Hl; [apply (ls_crash pad c f) |].
  - destruct (owner s i) as [d|] eqn:Hi; [right; by exists i, k, d | left]. by eapply Hl; [apply (ls_acquire pad c i k) |].
  - left. by eapply Hl; [apply (ls_release pad c i k) |].
  - left. by eapply Hl; [apply (ls_getattr pad c i k attr_zero) |].
  - left. by eapply Hl; [apply (ls_get pad c i k) |].
  - left. by eapply Hl; [apply (ls_create pad c type k 0 (store s)); [| right | left] |].
  - left. by eapply Hl; [apply (ls_put pad c i bs k) |].
  - left. by eapply Hl; [apply (ls_remove pad c i k) |].
Qed.

(** The hierarchy has a deepest level. *)
Variable top : nat.
Hypothesis rank_top : forall i, (rank i <= top)%nat.

Lemma chain_ends hs s n c i k :
  in_order hs s -> (forall i, no_self pad i (bytes i (store s)) = true) ->
  (forall i d, owner s i = Some d -> exists t, threads s d = Busy t) ->
  threads s c = Busy (Acquire i k) -> (top - rank i <= n)%nat -> goes_on s.
Proof.
  intros IO Hn Hb. revert c i k. induction n as [|n IH]; intros c i k Hc Hr;
    destruct (not_waiting s c _ Hc Hn) as [|(i' & k' & d & [= <- <-] & Hi)]; try done;
    destruct (Hb i d Hi) as [t Ht]; destruct (not_waiting s d t Ht Hn) as [|(j & k2 & d2 & -> & Hj)]; try done.
  all: assert (Hlt : (rank i < rank j)%nat);
    [pose proof (io_thread _ _ IO d) as Hp; rewrite Ht in Hp; destruct Hp as [p Hp];
     apply two_phase_next in Hp as (_ & Hbelow & _); apply Hbelow; by apply (io_owner _ _ IO) |].
  - pose proof (rank_top j). lia.
  - apply (IH d j k2 Ht). pose proof (rank_top j). lia.
Qed.

End order.

(** ** Theorem *)

(** C11: operations do not deadlock over their locks.  In a run in which
    directories form a hierarchy and operations start without locks, as long as
    locks are held by operations under way only, some operation under way can
    make its next call: they never wait for each other in a circle. *)
Theorem operations_progress pad rank top dirs m tr s c t :
  (forall i, (rank i <= top)%nat) -> orun pad rank dirs (lsys_new m) tr s ->
  (forall i, no_self pad i (bytes i (store s)) = true) ->
  (forall i d, owner s i = Some d -> exists t, threads s d = Busy t) ->
  threads s c = Busy t -> goes_on pad s.
Proof.
  intros Hr Ho Hn Hb Hc. destruct (orun_ordered pad rank dirs m tr s Ho) as [hs IO].
  destruct (not_waiting pad s c t Hc Hn) as [|(i & k & d & -> & _)]; [done |].
  by apply (chain_ends pad rank dirs top Hr hs s (top - rank i) c i k).
Qed.

(** Client [a] holds the lock of a file, [b] waits for it. *)
Definition depth (i : Z) : nat := if i =? 1 then 0%nat else 1%nat.
Definition root_only (i : Z) : bool := i =? 1.

Lemma two_files_bytes i : bytes i two_files = if i =? 2 then [104; 105] else [].
Proof.
  unfold bytes, Spec.read, two_files. destruct (Z.eqb_spec i 2) as [->|H2]; [done |].
  rewrite lookup_insert. case_decide; [done |]. by rewrite lookup_singleton_ne.
Qed.

Lemma two_files_hierarchy : hierarchy 7 depth root_only two_files.
Proof.
  intros i. rewrite two_files_bytes. unfold ranked, root_only. destruct (Z.eqb_spec i 1) as [->|H1]; [done |]. by destruct (i =? 2).
Qed.

Definition write_a : yop := OWrite 2 1 0 [65].
Definition write_b : yop := OWrite 2 1 1 [66].

Definition started_a : lsys := go cl_a (op_prog 7 write_a ∅) (lsys_new two_files).

Lemma operations_progress_witness : exists s, goes_on 7 s /\ owner s 2 = Some cl_a /\ exists t, threads s cl_b = Busy t.
Proof.
  assert (H1 : orun 7 depth root_only (lsys_new two_files) [Start cl_a write_a] started_a).
  { apply (or_step 7 depth root_only _ [] (Some (Start cl_a write_a)) (lsys_new two_files));
      [constructor | apply two_files_hierarchy | by split | by apply ls_start]. }
  assert (E : exists k, op_prog 7 write_a ∅ = Acquire 2 k) by (eexists; reflexivity). destruct E as [k E].
  set (s2 := go cl_a (k 0) (LSys (store started_a) (<[2 := Some cl_a]> (owner started_a)) (threads started_a))).
  assert (H2 : orun 7 depth root_only (lsys_new two_files) [Start cl_a write_a] s2).
  { apply (or_step 7 depth root_only _ [Start cl_a write_a] None started_a); [done | apply two_files_hierarchy | done |].
    apply (ls_acquire 7 cl_a 2 k); [by rewrite <- E | done]. }
  assert (H3 : orun 7 depth root_only (lsys_new two_files) [Start cl_a write_a; Start cl_b write_b] (go cl_b (op_prog 7 write_b ∅) s2)).
  { apply (or_step 7 depth root_only _ [Start cl_a write_a] (Some (Start cl_b write_b)) s2);
      [done | apply two_files_hierarchy | by split | by apply ls_start]. }
  exists (go cl_b (op_prog 7 write_b ∅) s2). split; [| split; [reflexivity | eexists; reflexivity]].
  apply (operations_progress 7 depth 1 root_only two_files [Start cl_a write_a; Start cl_b write_b]
    (go cl_b (op_prog 7 write_b ∅) s2) cl_b (op_prog 7 write_b ∅)).
  - intros i. unfold depth. destruct (i =? 1); lia.
  - exact H3.
  - intros i. change (store (go cl_b (op_prog 7 write_b ∅) s2)) with two_files. rewrite two_files_bytes. by destruct (i =? 2).
  - intros i d Hd. cbn [go s2 owner] in Hd. destruct (decide (2 = i)) as [<-|Hne].
    + rewrite fn_lookup_insert in Hd. injection Hd as <-. by exists (k 0).
    + rewrite fn_lookup_insert_ne in Hd by done. discriminate Hd.
  - reflexivity.
Defined.
