(* ===== verification/Cluster.v ===== *)
(** * Many file system clients, their caches and the lock protocol

    The whole system: any number of yfs clients, each with the thread of its
    FUSE session that runs one operation after the other (YfsProgram.v), a
    caching extent client (ExtentClient.v) and a caching lock client; the lock
    server; and one extent server.  Locks follow LockProtocol.v, one copy of it
    per lock id, since no operation of client or server touches two entries.

    The threads of a client interleave at every call and at every point where
    the extent client or the lock client give up their mutex: get, getattr and
    flush are cut at their remote call, acquire and release are the stretches
    of LockClient.v, and the revoke handler flushes while the session's thread
    runs on.  Remote calls are served once (RpcSystem.v).

    [w_shared] is not part of the program: it is the store in which every put,
    remove and create takes effect when it is called.  Coherence.v shows that
    what clients read is what it holds.

    Steps are what the code may do.  Each carries what a theorem may have to
    assume of it ([assumption]): that a directory is not being made, that a file
    that is locked, read from the cache or written exists, that a directory
    does not list itself, that what is sent to the extent server fits its disk.
    [wrun ok] are the runs whose steps need only assumptions that [ok] lets
    through: those that hold ([holds]), or all but the first ([but_mkdir]).

    One thing is assumed throughout: the extent server serves one request
    at a time.  Its methods run on the threads of the RPC server without a mutex
    between them (extent_server.cc), and overlapping ones are not atomic:
    ExtentRace.v. *)

From stdpp Require Import functions.
From S2P Require Import Prelude Disk InodeManager FileSpec ExtentServer ExtentClient LockServer LockClient.
From S2P Require Import LockProtocol LockUse YfsOps YfsProgram LockedStore.

(** ** The extent client, cut at its remote calls *)

Section pieces.
Context {S : Type}.

(** get: what the cache has, and what happens when the answer is there. *)
Definition get_hit (i : Z) (c : extent_client S) : option (list Z) := buf <$> bcache c !! i.
Definition get_store (i : Z) (bs : list Z) (c : extent_client S) : extent_client S :=
  set_bcache (<[i := BCE false (deleted (default bce_new (bcache c !! i))) bs]> (bcache c)) c.

(** getattr *)
Definition getattr_store (i : Z) (a : attr) (c : extent_client S) : extent_client S :=
  set_acache (<[i := a]> (acache c)) c.

(** flush, up to the remote call if there is one. *)
Definition flush_take (i : Z) (c : extent_client S) : extent_client S * option request :=
  match bcache c !! i with
  | None => (c, None)
  | Some b =>
      (EC (delete i (acache c)) (delete i (bcache c)) (server c) (calls c),
       if deleted b then Some (ReqRemove i) else if dirty b then Some (ReqPut i (buf b)) else None)
  end.

End pieces.

Lemma ec_get_pieces {S} `{!ExtentService S} net i b0 (c : extent_client S) :
  ec_get net i b0 c =
    match get_hit i c with
    | Some bs => mret (c, OK, bs)
    | None =>
        r ← remote net (ReqGet i) c;
        let '(c, ret, rep) := r in
        let bs := match rep with Some (RepData bs) => bs | _ => b0 end in
        mret (if ret =? OK then get_store i bs c else c, ret, bs)
    end.
Proof. unfold ec_get, get_hit. by destruct (bcache c !! i). Qed.

Lemma ec_flush_pieces {S} `{!ExtentService S} net i (c : extent_client S) :
  ec_flush net i c =
    match flush_take i c with
    | (c, Some q) => r ← remote net q c; let '(c, ret, _) := r in _ ← verify (ret =? OK); mret c
    | (c, None) => mret c
    end.
Proof. unfold ec_flush, flush_take. destruct (bcache c !! i) as [b|]; [| done]. by destruct (deleted b), (dirty b). Qed.

(** ** The state *)

(** The thread of a session. *)
Inductive session :=
| TIdle (h : gset Z)
| TRun (t : program)                                     (* about to make its next call *)
| TAcquiring (i : Z) (k : Z -> program)                  (* in lc->acquire *)
| TReleasing (i : Z) (k : Z -> program)                  (* in lc->release *)
| TGot (i : Z) (bs : list Z) (k : Z * list Z -> program) (* in ec->get, answered *)
| TGotAttr (i : Z) (a : attr) (k : Z * attr -> program)  (* in ec->getattr, answered *)
| TDead.

(** dorelease for a lock that goes back: not begun (or no release under way),
    before the remote call of flush, done. *)
Inductive flushing := FNone | FCall (q : request) | FDone.

Record world (S : Type) := World {
  w_locks : Z -> sys;
  w_caches : string -> extent_client unit;
  w_flush : string -> Z -> flushing;
  w_sessions : string -> session;
  w_server : S;
  w_shared : fstore
}.
Arguments World {S}. Arguments w_locks {S}. Arguments w_caches {S}. Arguments w_flush {S}.
Arguments w_sessions {S}. Arguments w_server {S}. Arguments w_shared {S}.

(** The stretches of the lock protocol that are not calls of the session and do
    not wait for dorelease. *)
Definition internal (a : act) : Prop :=
  match a with NewAcquire _ | CallRel _ _ _ | SrvRelease _ _ _ _ => False | _ => True end.

Section cluster.
Context {S : Type} `{!ExtentService S}.
Variable pad : Z.

Definition set_session (c : string) (t : session) (w : world S) : world S :=
  World (w_locks w) (w_caches w) (w_flush w) (<[c := t]> (w_sessions w)) (w_server w) (w_shared w).
Definition set_lock (i : Z) (l : sys) (w : world S) : world S :=
  World (<[i := l]> (w_locks w)) (w_caches w) (w_flush w) (w_sessions w) (w_server w) (w_shared w).
Definition set_cache (c : string) (e : extent_client unit) (w : world S) : world S :=
  World (w_locks w) (<[c := e]> (w_caches w)) (w_flush w) (w_sessions w) (w_server w) (w_shared w).
Definition set_flush (c : string) (i : Z) (f : flushing) (w : world S) : world S :=
  World (w_locks w) (w_caches w) (<[c := <[i := f]> (w_flush w c)]> (w_flush w)) (w_sessions w) (w_server w) (w_shared w).
Definition set_server (s : S) (w : world S) : world S :=
  World (w_locks w) (w_caches w) (w_flush w) (w_sessions w) s (w_shared w).
Definition set_shared (m : fstore) (w : world S) : world S :=
  World (w_locks w) (w_caches w) (w_flush w) (w_sessions w) (w_server w) m.

Definition file_exists (i : Z) (w : world S) : Prop := id_ok i /\ is_Some (w_shared w !! i).

(** What a step may need. *)
Inductive assumption :=
| NoMkdir (o : yop)                  (* the operation does not make a directory *)
| FileThere (i : Z)                  (* the file exists, and has a small id *)
| NoSelf (i : Z) (bs : list Z)       (* the directory does not list itself *)
| Fits (q : request).                (* the request fits the disk *)

Definition holds (w : world S) (a : assumption) : Prop :=
  match a with
  | NoMkdir o => plain o
  | FileThere i => file_exists i w
  | NoSelf i bs => no_self pad i bs = true
  | Fits q => admissible q (es_files (w_server w))
  end.

Inductive wstep : list assumption -> option event -> world S -> world S -> Prop :=
| ws_start c o h w :
    w_sessions w c = TIdle h ->
    wstep [NoMkdir o] (Some (Start c o)) w (set_session c (TRun (op_prog pad o h)) w)
| ws_end c h r w :
    w_sessions w c = TRun (Ret (h, r)) -> wstep [] (Some (End c r)) w (set_session c (TIdle h) w)
| ws_crash c f w :
    w_sessions w c = TRun (Stop f) -> wstep [] (Some (Crash c f)) w (set_session c TDead w)
(* lc->acquire *)
| ws_acquire c i k l w :
    w_sessions w c = TRun (Acquire i k) -> enabled (NewAcquire c) (w_locks w i) ->
    fire (NewAcquire c) (w_locks w i) = Done l ->
    wstep [] None w (set_session c (TAcquiring i k) (set_lock i l w))
| ws_acquired c i k w :
    w_sessions w c = TAcquiring i k -> c <> EmptyString -> Hold ∈ active (nodes (w_locks w i) c) ->
    wstep [FileThere i] None w (set_session c (TRun (k 0)) w)
(* lc->release *)
| ws_release c i k l1 l2 l w :
    w_sessions w c = TRun (Release i k) -> enabled (CallRel c l1 l2) (w_locks w i) ->
    fire (CallRel c l1 l2) (w_locks w i) = Done l ->
    wstep [] None w (set_session c (TReleasing i k) (set_lock i l w))
| ws_released c i k w :
    w_sessions w c = TReleasing i k -> (forall q, Rel q ∉ active (nodes (w_locks w i) c)) ->
    wstep [] None w (set_session c (TRun (k 0)) w)
(* the rest of the lock protocol *)
| ws_lock i a l w :
    internal a -> enabled a (w_locks w i) -> fire a (w_locks w i) = Done l -> wstep [] None w (set_lock i l w)
| ws_flush c i e q w :
    c <> EmptyString -> giving_back (nodes (w_locks w i) c) -> w_flush w c i = FNone ->
    flush_take i (w_caches w c) = (e, q) ->
    wstep [] None w (set_flush c i (match q with Some q => FCall q | None => FDone end) (set_cache c e w))
| ws_flush_served c i q e s r w :
    w_flush w c i = FCall q -> env_ok e ->
    es_serve e q (w_server w) = Done (s, r) ->
    wstep [Fits q] None w (set_flush c i FDone (set_server s w))
| ws_srv_release c i l1 k l2 l w :
    w_flush w c i = FDone -> enabled (SrvRelease c l1 k l2) (w_locks w i) ->
    fire (SrvRelease c l1 k l2) (w_locks w i) = Done l ->
    wstep [] None w (set_flush c i FNone (set_lock i l w))
(* ec->get *)
| ws_get_hit c i k bs w :
    w_sessions w c = TRun (Get i k) -> get_hit i (w_caches w c) = Some bs ->
    wstep [FileThere i; NoSelf i bs] None w (set_session c (TRun (k (OK, bs))) w)
| ws_get_miss c i k e s bs w :
    w_sessions w c = TRun (Get i k) -> get_hit i (w_caches w c) = None -> env_ok e ->
    es_serve e (ReqGet i) (w_server w) = Done (s, RepData bs) ->
    wstep [] None w (set_session c (TGot i bs k) (set_server s w))
| ws_got c i k bs w :
    w_sessions w c = TGot i bs k ->
    wstep [NoSelf i bs] None w (set_session c (TRun (k (OK, bs))) (set_cache c (get_store i bs (w_caches w c)) w))
(* ec->getattr *)
| ws_getattr_hit c i k a w :
    w_sessions w c = TRun (Getattr i k) -> acache (w_caches w c) !! i = Some a ->
    wstep [] None w (set_session c (TRun (k (OK, a))) w)
| ws_getattr_miss c i k e s a w :
    w_sessions w c = TRun (Getattr i k) -> acache (w_caches w c) !! i = None -> env_ok e ->
    es_serve e (ReqGetattr i) (w_server w) = Done (s, RepAttr a) ->
    wstep [] None w (set_session c (TGotAttr i a k) (set_server s w))
| ws_gotattr c i k a w :
    w_sessions w c = TGotAttr i a k ->
    wstep [] None w (set_session c (TRun (k (OK, a))) (set_cache c (getattr_store i a (w_caches w c)) w))
(* ec->put, ec->remove, ec->create *)
| ws_put c i bs k w :
    w_sessions w c = TRun (Put i bs k) ->
    wstep [FileThere i] None w (set_session c (TRun (k OK)) (set_shared (Spec.write i bs (w_shared w))
      (set_cache c (fst (ec_put i bs (w_caches w c))) w)))
| ws_remove c i k w :
    w_sessions w c = TRun (Remove i k) ->
    wstep [] None w (set_session c (TRun (k OK)) (set_shared (Spec.remove i (w_shared w))
      (set_cache c (fst (ec_remove i (w_caches w c))) w)))
| ws_create c type k e s n w :
    w_sessions w c = TRun (Create type k) -> env_ok e ->
    es_serve e (ReqCreate type) (w_server w) = Done (s, RepId n) ->
    wstep [Fits (ReqCreate type)] None w (set_session c (TRun (k (OK, n)))
      (set_shared (if n =? 0 then w_shared w else <[n := File (s16 type) []]> (w_shared w)) (set_server s w))).

Definition world_new (s : S) : world S :=
  World (fun _ => sys_new) (fun _ => EC ∅ ∅ tt 0) (fun _ _ => FNone) (fun _ => TIdle ∅) s (es_files s).

(** ... but for the directories. *)
Definition but_mkdir (w : world S) (a : assumption) : Prop :=
  match a with NoMkdir _ => True | _ => holds w a end.

(** The steps that need only what [ok] lets through, and their runs. *)
Definition can (ok : world S -> assumption -> Prop) (e : option event) (w w' : world S) : Prop :=
  exists l, wstep l e w w' /\ Forall (ok w) l.

Inductive wrun (ok : world S -> assumption -> Prop) (s : S) : list event -> world S -> Prop :=
| wr_nil : wrun ok s [] (world_new s)
| wr_step tr e w w' : wrun ok s tr w -> can ok e w w' -> wrun ok s (put_event e tr) w'.

End cluster.
