(* ===== verification/ClusterExec.v ===== *)
(** * A scheduler for the whole system

    An executable form of the steps of Cluster.v: a move names the thread or
    message that goes on, [wfire] runs it, and is sound ([wfire_sound]).
    Runs of the system can so be computed.  Of the two at the end one takes a
    lock and the file under it from one client to another, the other makes a
    directory and shows why Coherence.v leaves that out. *)

From stdpp Require Import functions.
From S2P Require Import Prelude Disk InodeManager FileSpec ExtentServer ExtentClient LockServer LockClient.
From S2P Require Import LockProtocol LockUse YfsOps YfsProgram LockedStore Cluster.

Inductive move :=
| MStart (c : string) (o : yop)
| MSession (c : string)               (* the thread of the session *)
| MLock (c : string) (i : Z)          (* another thread or a message of lock [i] at [c] *)
| MGiveBack (c : string) (i : Z)      (* the thread in dorelease and release of lock [i] *).

(** What goes on at a client that is in one call at most for the lock. *)
Definition next_act (c : string) (n : node) : option act :=
  match active n with
  | [Acq1 Sent] => Some (SrvAcquire c [] Acq1 [])
  | [Acq2 Sent] => Some (SrvAcquire c [] Acq2 [])
  | [Rty Sent] => Some (SrvAcquire c [] Rty [])
  | [Acq1 (Reply r)] => Some (AcqDone c [] r [])
  | [Acq2 (Reply r)] => Some (Acq2Done c [] r [])
  | [Rel (Reply r)] => Some (RelDone c [] r [])
  | [Rvk (Reply r)] => Some (RvkDone c [] r [])
  | [Rty (Reply r)] => Some (RtyDone c [] r [])
  | [] | [Hold] =>
      if decide (revokes n = 0%nat) then
        if decide (retries n = 0%nat) then if decide (asleep n = 0%nat) then None else Some (Wake c) else Some (GetRetry c)
      else Some (GetRevoke c)
  | _ => None
  end.

Lemma next_act_enabled c s a :
  c <> EmptyString -> next_act c (nodes s c) = Some a -> internal a /\ enabled a s.
Proof.
  unfold next_act, enabled. intros Hc.
  destruct (active (nodes s c)) as [|p [|p' l]] eqn:Ha; [| |by destruct p as [[]|[]| |[]|[]|[]]].
  - repeat case_decide; intros [= <-]; cbn [internal client_of]; auto.
  - destruct p as [[]|[]| |[]|[]|[]]; repeat case_decide; intros [= <-]; cbn [internal client_of app]; rewrite ?Ha; auto 10.
Qed.

#[export] Instance plain_dec o : Decision (plain o).
Proof. destruct o; apply _. Defined.
#[export] Instance admissible_dec q m : Decision (admissible q m).
Proof. destruct q; apply _. Defined.
#[export] Instance id_ok_dec i : Decision (id_ok i).
Proof. unfold id_ok. apply _. Defined.

#[export] Instance file_exists_dec {S} i (w : world S) : Decision (file_exists i w).
Proof. unfold file_exists. apply _. Defined.
#[export] Instance holds_dec {S} `{!ExtentService S} pad (w : world S) a : Decision (holds pad w a).
Proof. destruct a; cbn [holds]; apply _. Defined.
#[export] Instance but_mkdir_dec {S} `{!ExtentService S} pad (w : world S) a : Decision (but_mkdir pad w a).
Proof. destruct a; cbn [but_mkdir]; apply _. Defined.

Section scheduler.
Context {S : Type} `{!ExtentService S}.
Variable pad : Z.
Variable e : env.
Hypothesis He : env_ok e.
Variable ok : world S -> assumption -> Prop.
Context `{!forall w a, Decision (ok w a)}.


Definition value {A} (o : outcome A) : option A := match o with Done a => Some a | Fault _ => None end.

Lemma value_Some {A} (o : outcome A) a : value o = Some a -> o = Done a.
Proof. by destruct o as [a'|]; [intros [= ->] |]. Qed.

(** The next call of a session. *)
Definition fire_call (c : string) (t : program) (w : world S) : option (world S) :=
  match t with
  | Acquire i k =>
      l ← value (fire (NewAcquire c) (w_locks w i)); Some (set_session c (TAcquiring i k) (set_lock i l w))
  | Release i k =>
      match active (nodes (w_locks w i) c) with
      | [Hold] => l ← value (fire (CallRel c [] []) (w_locks w i)); Some (set_session c (TReleasing i k) (set_lock i l w))
      | _ => None
      end
  | Get i k =>
      match get_hit i (w_caches w c) with
      | Some bs => guard (ok w (FileThere i));; guard (ok w (NoSelf i bs));; Some (set_session c (TRun (k (OK, bs))) w)
      | None =>
          r ← value (es_serve e (ReqGet i) (w_server w));
          match r with (s, RepData bs) => Some (set_session c (TGot i bs k) (set_server s w)) | _ => None end
      end
  | Getattr i k =>
      match acache (w_caches w c) !! i with
      | Some a => Some (set_session c (TRun (k (OK, a))) w)
      | None =>
          r ← value (es_serve e (ReqGetattr i) (w_server w));
          match r with (s, RepAttr a) => Some (set_session c (TGotAttr i a k) (set_server s w)) | _ => None end
      end
  | Put i bs k =>
      guard (ok w (FileThere i));;
      Some (set_session c (TRun (k OK)) (set_shared (Spec.write i bs (w_shared w))
        (set_cache c (fst (ec_put i bs (w_caches w c))) w)))
  | Remove i k =>
      Some (set_session c (TRun (k OK)) (set_shared (Spec.remove i (w_shared w))
        (set_cache c (fst (ec_remove i (w_caches w c))) w)))
  | Create type k =>
      guard (ok w (Fits (ReqCreate type)));;
      r ← value (es_serve e (ReqCreate type) (w_server w));
      match r with
      | (s, RepId n) =>
          Some (set_session c (TRun (k (OK, n)))
            (set_shared (if n =? 0 then w_shared w else <[n := File (s16 type) []]> (w_shared w)) (set_server s w)))
      | _ => None
      end
  | Ret _ | Stop _ => None
  end.

Definition fire_session (c : string) (w : world S) : option (option event * world S) :=
  match w_sessions w c with
  | TRun (Ret (h, r)) => Some (Some (End c r), set_session c (TIdle h) w)
  | TRun (Stop f) => Some (Some (Crash c f), set_session c TDead w)
  | TRun t => w ← fire_call c t w; Some (None, w)
  | TAcquiring i k =>
      guard (Hold ∈ active (nodes (w_locks w i) c));; guard (ok w (FileThere i));;
      Some (None, set_session c (TRun (k 0)) w)
  | TReleasing i k =>
      match active (nodes (w_locks w i) c) with [] => Some (None, set_session c (TRun (k 0)) w) | _ => None end
  | TGot i bs k =>
      guard (ok w (NoSelf i bs));;
      Some (None, set_session c (TRun (k (OK, bs))) (set_cache c (get_store i bs (w_caches w c)) w))
  | TGotAttr i a k =>
      Some (None, set_session c (TRun (k (OK, a))) (set_cache c (getattr_store i a (w_caches w c)) w))
  | TIdle _ | TDead => None
  end.

Definition fire_give_back (c : string) (i : Z) (w : world S) : option (world S) :=
  k ← match active (nodes (w_locks w i) c) with [Rel Sent] => Some Rel | [Rvk Sent] => Some Rvk | _ => None end;
  match w_flush w c i with
  | FNone =>
      let '(x, q) := flush_take i (w_caches w c) in
      Some (set_flush c i (match q with Some q => FCall q | None => FDone end) (set_cache c x w))
  | FCall q =>
      guard (ok w (Fits q));;
      r ← value (es_serve e q (w_server w)); Some (set_flush c i FDone (set_server (fst r) w))
  | FDone => l ← value (fire (SrvRelease c [] k []) (w_locks w i)); Some (set_flush c i FNone (set_lock i l w))
  end.

Definition mover (m : move) : string := match m with MStart c _ | MSession c | MLock c _ | MGiveBack c _ => c end.

Definition wfire (m : move) (w : world S) : option (option event * world S) :=
  guard (mover m <> EmptyString);;
  match m with
  | MStart c o =>
      guard (ok w (NoMkdir o));;
      match w_sessions w c with
      | TIdle h => Some (Some (Start c o), set_session c (TRun (op_prog pad o h)) w)
      | _ => None
      end
  | MSession c => fire_session c w
  | MLock c i =>
      a ← next_act c (nodes (w_locks w i) c); l ← value (fire a (w_locks w i)); Some (None, set_lock i l w)
  | MGiveBack c i => w ← fire_give_back c i w; Some (None, w)
  end.

(** *** Soundness *)

(** Take a computation that succeeded apart. *)
Ltac succeeded H := repeat (lazymatch type of H with
  | Some _ = Some _ => fail
  | mbind _ _ = _ => apply bind_Some in H as (? & ? & H)
  | context [match ?x with _ => _ end] => let E := fresh "E" in destruct x eqn:E; try discriminate H
  end); injection H; clear H; intros; subst; repeat match goal with K : value _ = Some _ |- _ => apply value_Some in K end.

(** Say which step it is, and that its assumptions are let through. *)
Ltac goes step := eexists; split; [by step | by repeat constructor].

Lemma fire_call_sound c t w w' :
  c <> EmptyString -> w_sessions w c = TRun t -> fire_call c t w = Some w' -> can pad ok None w w'.
Proof.
  intros Hc Ht Hf. destruct t; cbn [fire_call] in Hf; try done; succeeded Hf.
  - goes ltac:(apply ws_acquire).
  - goes ltac:(apply (ws_release pad c i k [] [])).
  - goes ltac:(apply ws_getattr_hit with (i := i)).
  - goes ltac:(apply ws_getattr_miss with (e := e)).
  - goes ltac:(apply ws_get_hit with (i := i)).
  - goes ltac:(apply ws_get_miss with (e := e)).
  - goes ltac:(apply ws_create with (e := e)).
  - goes ltac:(apply ws_put).
  - goes ltac:(apply ws_remove).
Qed.

Lemma fire_session_sound c w ev w' :
  c <> EmptyString -> fire_session c w = Some (ev, w') -> can pad ok ev w w'.
Proof.
  intros Hc Hf. unfold fire_session in Hf. destruct (w_sessions w c) as [h|t|i k|i k|i bs k|i a k|] eqn:Ht; try done.
  - destruct t as [[h r]|f|i k|i k|i k|i k|type k|i bs k|i k]; try (injection Hf as <- <-; goes ltac:(constructor));
      (apply bind_Some in Hf as (w1 & Hf & [= <- <-]); eapply fire_call_sound; [done | exact Ht | exact Hf]).
  - succeeded Hf. goes ltac:(apply ws_acquired with (i := i)).
  - destruct (active (nodes (w_locks w i) c)) eqn:Ha; [| done]. injection Hf as <- <-.
    exists []. split; [| done]. apply ws_released with (i := i); [done |]. rewrite Ha. intros q. apply not_elem_of_nil.
  - succeeded Hf. goes ltac:(apply ws_got).
  - injection Hf as <- <-. goes ltac:(apply ws_gotattr).
Qed.

Lemma fire_give_back_sound c i w w' :
  c <> EmptyString -> fire_give_back c i w = Some w' -> can pad ok None w w'.
Proof.
  intros Hc Hf. unfold fire_give_back in Hf. apply bind_Some in Hf as (k & Hk & Hf).
  assert (Ha : active (nodes (w_locks w i) c) = [k Sent] /\ (k = Rel \/ k = Rvk)).
  { destruct (active (nodes (w_locks w i) c)) as [|[[]|[]| |[]|[]|[]] [|]]; try done; injection Hk as <-; auto. }
  destruct Ha as [Ha Hk']. destruct (w_flush w c i) as [|q|] eqn:Hfl.
  - destruct (flush_take i (w_caches w c)) as [x q] eqn:Hx. injection Hf as <-. exists []. split; [| done]. apply ws_flush; auto.
    unfold giving_back. rewrite Ha. destruct Hk' as [-> | ->]; [left | right]; by left.
  - succeeded Hf. destruct x0 as [s r]. goes ltac:(apply (ws_flush_served pad c i q e s r)).
  - succeeded Hf. goes ltac:(apply (ws_srv_release pad c i [] k [])).
Qed.

Lemma wfire_sound m w ev w' : wfire m w = Some (ev, w') -> can pad ok ev w w'.
Proof.
  unfold wfire. intros Hf. apply bind_Some in Hf as (Hc & _ & Hf). destruct m as [c o|c|c i|c i]; cbn [mover] in Hc.
  - apply bind_Some in Hf as (Ho & _ & Hf). destruct (w_sessions w c) eqn:Ht; try done. injection Hf as <- <-.
    goes ltac:(apply ws_start).
  - by apply (fire_session_sound c).
  - apply bind_Some in Hf as (a & Ha & Hf). apply bind_Some in Hf as (l & Hl & [= <- <-]). apply value_Some in Hl.
    destruct (next_act_enabled c (w_locks w i) a Hc Ha) as [Hint Hen]. goes ltac:(apply ws_lock with (a := a)).
  - apply bind_Some in Hf as (w1 & Hf & [= <- <-]). by apply (fire_give_back_sound c i).
Qed.

Fixpoint wfires (l : list move) (tr : list event) (w : world S) : option (list event * world S) :=
  match l with
  | [] => Some (tr, w)
  | m :: l => match wfire m w with Some (ev, w') => wfires l (put_event ev tr) w' | None => None end
  end.

Lemma wfires_run l s tr w r : wrun pad ok s tr w -> wfires l tr w = Some r -> wrun pad ok s (fst r) (snd r).
Proof.
  revert tr w. induction l as [|m l IH]; intros tr w Hr; cbn [wfires]; [by intros [= <-] |].
  destruct (wfire m w) as [[ev w']|] eqn:E; [| done]. apply IH. eapply wr_step; [done | by apply (wfire_sound m)].
Qed.

(** A run that is computed. *)
Lemma wfires_reach l s (P : list event -> world S -> Prop) :
  match wfires l [] (world_new s) with Some (tr, w) => P tr w | None => False end ->
  exists tr w, wrun pad ok s tr w /\ P tr w.
Proof.
  destruct (wfires l [] (world_new s)) as [[tr w]|] eqn:E; [| done]. intros HP. exists tr, w. split; [| done].
  apply (wfires_run l s [] (world_new s) (tr, w)); [constructor | done].
Qed.

End scheduler.

(** ** A run

    Client [a] writes a file and keeps the lock; [b] reads it: the server
    revokes the lock, [a] flushes what it wrote, and [b] gets it. *)

Definition quiet_env : env := Env 0 [] (replicate 512 0) (replicate 512 0).

Lemma quiet_env_ok : env_ok quiet_env.
Proof. by split; vm_compute; [| lia]. Qed.

Lemma two_files_ok : es_inv (two_files : fstore).
Proof.
  intros i f Hf. unfold two_files in Hf. apply lookup_insert_Some in Hf as [[<- <-]|[_ Hf]]; [by vm_compute |].
  apply lookup_singleton_Some in Hf as [<- <-]. by vm_compute.
Qed.

Definition handover : list move :=
  [MStart cl_a (OWrite 2 1 0 [65]); MSession cl_a; MLock cl_a 2; MLock cl_a 2] ++ replicate 7 (MSession cl_a) ++
  [MStart cl_b (ORead 2 2 0); MSession cl_b; MLock cl_b 2; MLock cl_b 2;
   MLock cl_a 2; MGiveBack cl_a 2; MGiveBack cl_a 2; MGiveBack cl_a 2; MLock cl_a 2;
   MLock cl_b 2; MLock cl_b 2; MLock cl_b 2; MLock cl_b 2] ++ replicate 6 (MSession cl_b).

Definition handover_trace : list event :=
  [Start cl_a (OWrite 2 1 0 [65]); End cl_a (RCount OK 1); Start cl_b (ORead 2 2 0); End cl_b (RData OK [65; 105])].

Lemma handover_run : exists w, wrun 7 (holds 7) (two_files : fstore) handover_trace w.
Proof.
  destruct (wfires_reach 7 quiet_env quiet_env_ok (holds 7) handover two_files (fun tr _ => tr = handover_trace))
    as (tr & w & Hw & ->); [vm_compute; reflexivity | by exists w].
Qed.

(** Client [a] makes a directory and keeps its contents in its cache without
    the lock; [b] creates a file in the directory and succeeds; [a], who now
    gets the lock and what [b] wrote is flushed for it, still has its own
    contents in the cache, and does not find the file. *)
Definition hidden : list move :=
  [MStart cl_a (OCreate 1 [98] T_DIR); MSession cl_a; MLock cl_a 1; MLock cl_a 1] ++ replicate 11 (MSession cl_a) ++
  [MStart cl_b (OCreate 3 [120] T_FILE); MSession cl_b; MLock cl_b 3; MLock cl_b 3] ++ replicate 10 (MSession cl_b) ++
  [MStart cl_a (OLookup 3 [120]); MSession cl_a; MLock cl_a 3; MLock cl_a 3;
   MLock cl_b 3; MGiveBack cl_b 3; MGiveBack cl_b 3; MGiveBack cl_b 3; MLock cl_b 3] ++
  replicate 4 (MLock cl_a 3) ++ replicate 5 (MSession cl_a).

Definition hidden_trace : list event :=
  [Start cl_a (OCreate 1 [98] T_DIR); End cl_a (RFound OK (Some 3));
   Start cl_b (OCreate 3 [120] T_FILE); End cl_b (RFound OK (Some 4));
   Start cl_a (OLookup 3 [120]); End cl_a (RFound OK None)].

Lemma hidden_run : exists w, wrun 7 (but_mkdir 7) (two_files : fstore) hidden_trace w.
Proof.
  destruct (wfires_reach 7 quiet_env quiet_env_ok (but_mkdir 7) hidden two_files (fun tr _ => tr = hidden_trace))
    as (tr & w & Hw & ->); [vm_compute; reflexivity | by exists w].
Qed.
