(* ===== verification/Coherence.v ===== *)
(** * Coherence and atomicity of the whole system

    The system of Cluster.v behaves like the locked store of LockedStore.v:
    the lock protocol is a table of locks, and caches that are flushed when a
    lock goes back are one shared store.  With the atomicity of the locked
    store this gives the theorem about the file system as its users see it:
    operations of any number of clients happen one at a time.

    The invariant [coh] says who may have a file in his cache (the client that
    has the lock, until its flush), what the server is owed ([owed]: the
    request that will bring it up to date), and that the server's files with
    that request applied are the shared store. *)

From stdpp Require Import functions.
From S2P Require Import Prelude Disk InodeManager FileSpec ExtentServer ExtentClient YfsOps YfsProgram LockedStore.
From S2P Require Import LockServer LockClient LockProtocol LockUse Cluster ClusterExec.
#[local] Set Warnings "-clear-no-such-hyp".

(** ** The invariant *)

Section coherence.
Context {S : Type} `{!ExtentService S}.
Variable pad : Z.

Abbreviation disciplined := (two_phase other (no_self pad) any_result).
Abbreviation node_at w i c := (nodes (w_locks w i) c).

Definition sfiles (w : world S) : fstore := es_files (w_server w).

(** What client [c] still has to send to the server for file [i]. *)
Definition owed (c : string) (i : Z) (w : world S) : option request :=
  match w_flush w c i with
  | FNone => snd (flush_take i (w_caches w c))
  | FCall q => Some q
  | FDone => None
  end.

(** The calls of acquire a session is in. *)
Definition acquiring (t : session) (i : Z) : nat :=
  match t with TAcquiring j _ => if decide (j = i) then 1%nat else 0%nat | _ => 0%nat end.

Definition has (h : gset Z) (i : Z) : nat := if decide (i ∈ h) then 1%nat else 0%nat.

Definition session_ok (m : fstore) (e : extent_client unit) (h : gset Z) (t : session) : Prop :=
  match t with
  | TIdle h' => h' = h
  | TRun t => exists p, disciplined p h t
  | TAcquiring i k => exists p, disciplined p h (Acquire i k)
  | TReleasing i k => exists p, disciplined p h (k 0)
  | TGot i bs k => (exists p, disciplined p h (Get i k)) /\ bs = bytes i m /\ bcache e !! i = None
  | TGotAttr i a k => exists p, disciplined p h (Getattr i k)
  | TDead => True
  end.

(** A request that changes file [i] only. *)
Definition request_of (i : Z) (q : request) : Prop := q = ReqRemove i \/ exists bs, q = ReqPut i bs.

Lemma next_at q i (m m' : fstore) : request_of i q -> id_ok i -> m !! i = m' !! i -> next q m !! i = next q m' !! i.
Proof.
  intros [-> | [bs ->]] Hid Hm; cbn [next]; rewrite mask_id_small by done; unfold Spec.remove, Spec.write;
    [by rewrite !lookup_delete_eq | by rewrite !lookup_alter_eq, Hm].
Qed.

(** [hs c]: the locks the session of [c] holds. *)
Record coh (hs : string -> gset Z) (w : world S) : Prop := {
  co_inv : forall i, inv (w_locks w i);
  co_tickets : forall i c, tickets (node_at w i c) = (has (hs c) i + acquiring (w_sessions w c) i)%nat;
  co_held : forall i c, i ∈ hs c ->
    c <> EmptyString /\ Hold ∈ active (node_at w i c) /\ id_ok i /\ is_Some (sfiles w !! i);
  co_session : forall c, session_ok (w_shared w) (w_caches w c) (hs c) (w_sessions w c);
  co_buf : forall c i b, bcache (w_caches w c) !! i = Some b ->
    c <> EmptyString /\ keeps (node_at w i c) /\ w_flush w c i = FNone /\ is_Some (sfiles w !! i) /\
    (dirty b = false -> deleted b = false -> buf b = bytes i (sfiles w));
  co_flush : forall c i, w_flush w c i <> FNone -> c <> EmptyString /\ giving_back (node_at w i c);
  co_call : forall c i q, w_flush w c i = FCall q ->
    is_Some (sfiles w !! i) /\ request_of i q;
  co_owed : forall c i q, owed c i w = Some q -> id_ok i /\ w_shared w !! i = next q (sfiles w) !! i;
  co_paid : forall i, (forall c, owed c i w = None) -> w_shared w !! i = sfiles w !! i;
  co_server : es_inv (w_server w)
}.

Section facts.
Context (hs : string -> gset Z) (w : world S).
Hypothesis C : coh hs w.

Lemma holder_keeps i c : i ∈ hs c -> c <> EmptyString /\ keeps (node_at w i c) /\ stage_of (node_at w i c) = Holds.
Proof.
  intros Hi. destruct (co_held _ _ C i c Hi) as (Hc & Hh & _). split_and!; [done | by right; left |].
  by apply (stage_spec _ _ (co_inv _ _ C i) Hc).
Qed.

Lemma giver_keeps i c : giving_back (node_at w i c) -> keeps (node_at w i c).
Proof. intros H. by right; right. Qed.

(** At most one client is owed something, and it has the lock. *)
Lemma owed_keeps c i q : owed c i w = Some q -> c <> EmptyString /\ keeps (node_at w i c).
Proof.
  unfold owed. destruct (w_flush w c i) eqn:Hf; [| | done].
  - unfold flush_take. destruct (bcache (w_caches w c) !! i) as [b|] eqn:Hb; [| done].
    intros _. destruct (co_buf _ _ C c i b Hb) as (H1 & H2 & _). done.
  - intros _. destruct (co_flush _ _ C c i) as [H1 H2]; [by rewrite Hf |]. split; [done | by apply giver_keeps].
Qed.

Lemma owed_shape c i q : owed c i w = Some q -> request_of i q.
Proof.
  unfold owed. destruct (w_flush w c i) eqn:Hf; [| intros [= <-]; by apply (co_call _ _ C c i) | done].
  unfold flush_take. destruct (bcache (w_caches w c) !! i) as [b|]; [| done]. cbn [snd].
  destruct (deleted b); [intros [= <-]; by left |]. destruct (dirty b); [| done]. intros [= <-]. right. by eexists.
Qed.

Lemma owed_unique c d i q : c <> EmptyString -> keeps (node_at w i c) -> owed d i w = Some q -> d = c.
Proof.
  intros Hc Hk Hq. destruct (owed_keeps d i q Hq) as [Hd Hkd]. by apply (keeps_unique (w_locks w i)); [apply (co_inv _ _ C) | ..].
Qed.

Lemma holders_disjoint c d i : i ∈ hs c -> i ∈ hs d -> c = d.
Proof.
  intros Hc Hd. apply holder_keeps in Hc as (H1 & H2 & _), Hd as (H3 & H4 & _).
  by apply (keeps_unique (w_locks w i)); [apply (co_inv _ _ C) | ..].
Qed.

(** The holder of a lock has no flush under way. *)
Lemma holder_no_flush i c : i ∈ hs c -> w_flush w c i = FNone.
Proof.
  intros Hi. destruct (holder_keeps i c Hi) as (Hc & _ & Hs). destruct (w_flush w c i) eqn:Hf; [done | ..];
    (destruct (co_flush _ _ C c i) as [_ Hg]; [by rewrite Hf |]; apply (stage_spec _ _ (co_inv _ _ C i) Hc) in Hg; congruence).
Qed.

(** *** What a holder finds *)

Lemma holder_paid i c : i ∈ hs c -> owed c i w = None -> w_shared w !! i = sfiles w !! i.
Proof.
  intros Hi Ho. destruct (holder_keeps i c Hi) as (Hc & Hk & _). apply (co_paid _ _ C). intros d.
  destruct (owed d i w) as [q|] eqn:Hq; [| done]. rewrite (owed_unique c d i q Hc Hk Hq) in Hq. congruence.
Qed.

Lemma mask_held i c : i ∈ hs c -> mask_id i = i.
Proof. intros Hi. destruct (co_held _ _ C i c Hi) as (_ & _ & Hid & _). by apply mask_id_small. Qed.

(** In its cache it finds the shared contents... *)
Lemma cached_bytes i c b :
  i ∈ hs c -> is_Some (w_shared w !! i) -> bcache (w_caches w c) !! i = Some b ->
  deleted b = false /\ buf b = bytes i (w_shared w).
Proof.
  intros Hi [f Hf] Hb. destruct (co_buf _ _ C c i b Hb) as (_ & _ & Hn & Hfi & Hclean).
  pose proof (co_owed _ _ C c i) as Ho. pose proof (holder_paid i c Hi) as Hp.
  assert (Hq : owed c i w = if deleted b then Some (ReqRemove i) else if dirty b then Some (ReqPut i (buf b)) else None).
  { unfold owed, flush_take. by rewrite Hn, Hb. }
  rewrite Hq in Ho, Hp. destruct (deleted b).
  { destruct (Ho _ eq_refl) as [_ E]. rewrite Hf in E. cbn [next] in E. unfold Spec.remove in E.
    rewrite (mask_held i c Hi), lookup_delete_eq in E. done. }
  split; [done |]. unfold bytes, Spec.read. destruct (dirty b).
  - destruct (Ho _ eq_refl) as [_ E]. rewrite E. cbn [next]. unfold Spec.write.
    rewrite (mask_held i c Hi), lookup_alter_eq. by destruct Hfi as [f' ->].
  - rewrite (Hp eq_refl). by apply Hclean.
Qed.

(** ... and without it, at the server. *)
Lemma server_bytes i c : i ∈ hs c -> bcache (w_caches w c) !! i = None -> w_shared w !! i = sfiles w !! i.
Proof.
  intros Hi Hb. apply (holder_paid i c Hi). unfold owed. rewrite (holder_no_flush i c Hi). unfold flush_take. by rewrite Hb.
Qed.

End facts.

(** ** Steps *)

Section steps.
Context (hs : string -> gset Z) (w : world S).
Hypothesis C : coh hs w.

(** A session takes a step of its own; its locks are now [h']. *)
Lemma coh_session c t' h' :
  session_ok (w_shared w) (w_caches w c) h' t' ->
  (forall i, (has h' i + acquiring t' i = has (hs c) i + acquiring (w_sessions w c) i)%nat) ->
  (forall i, i ∈ h' -> i ∈ hs c \/
     c <> EmptyString /\ Hold ∈ active (node_at w i c) /\ id_ok i /\ is_Some (sfiles w !! i)) ->
  coh (<[c := h']> hs) (set_session c t' w).
Proof.
  intros Hs Ht Hh. destruct C. split; cbn [set_session w_locks w_caches w_flush w_sessions w_server w_shared]; auto.
  - intros i d. destruct (decide (c = d)) as [<-|Hne];
      [rewrite !fn_lookup_insert, Ht | rewrite !fn_lookup_insert_ne by done]; apply co_tickets0.
  - intros i d. destruct (decide (c = d)) as [<-|Hne];
      [rewrite fn_lookup_insert | rewrite fn_lookup_insert_ne by done; apply co_held0].
    intros Hi. destruct (Hh i Hi) as [H|H]; [by apply co_held0 | done].
  - intros d. destruct (decide (c = d)) as [<-|Hne];
      [by rewrite !fn_lookup_insert | rewrite !fn_lookup_insert_ne by done; apply co_session0].
Qed.

(** ... which stay. *)
Lemma coh_run c t' :
  session_ok (w_shared w) (w_caches w c) (hs c) t' ->
  (forall i, acquiring t' i = acquiring (w_sessions w c) i) ->
  coh hs (set_session c t' w).
Proof.
  intros Hs Ht. destruct C. split; cbn [set_session w_locks w_caches w_flush w_sessions w_server w_shared]; auto.
  - intros i d. rewrite co_tickets0. destruct (decide (c = d)) as [<-|Hne];
      [by rewrite fn_lookup_insert, Ht | by rewrite fn_lookup_insert_ne].
  - intros d. destruct (decide (c = d)) as [<-|Hne];
      [by rewrite fn_lookup_insert | rewrite fn_lookup_insert_ne by done; apply co_session0].
Qed.

(** A transition of lock [i]. *)
Section lock_step.
Context (i : Z) (a : act) (l : sys).
Hypothesis Hen : enabled a (w_locks w i).
Hypothesis Hf : fire a (w_locks w i) = Done l.

Abbreviation node' j d := (nodes ((<[i := l]> (w_locks w) : Z -> sys) j) d).

Lemma lock_inv j : inv ((<[i := l]> (w_locks w) : Z -> sys) j).
Proof.
  destruct (decide (i = j)) as [<-|Hne]; [rewrite fn_lookup_insert | rewrite fn_lookup_insert_ne by done; apply (co_inv _ _ C)].
  by apply (fire_inv a (w_locks w i)); [apply (co_inv _ _ C) | ..].
Qed.

Lemma lock_tickets j d :
  (tickets (node' j d) + (if decide (i = j) then drops a d else 0)
   = tickets (node_at w j d) + (if decide (i = j) then takes a d else 0))%nat.
Proof.
  destruct (decide (i = j)) as [<-|Hne]; [rewrite fn_lookup_insert | by rewrite fn_lookup_insert_ne].
  by apply tickets_fire.
Qed.

Lemma lock_step_held j d :
  d <> EmptyString -> Hold ∈ active (node_at w j d) -> (i = j -> forall l1 l2, a <> CallRel d l1 l2) ->
  Hold ∈ active (node' j d).
Proof.
  intros Hd Hh Ha. destruct (decide (i = j)) as [<-|Hne]; [rewrite fn_lookup_insert | by rewrite fn_lookup_insert_ne].
  apply (hold_kept a (w_locks w i)); auto. apply (co_inv _ _ C).
Qed.

Lemma lock_keeps j d :
  d <> EmptyString -> keeps (node_at w j d) -> (i = j -> forall l1 k l2, a <> SrvRelease d l1 k l2) -> keeps (node' j d).
Proof.
  intros Hd Hh Ha. destruct (decide (i = j)) as [<-|Hne]; [rewrite fn_lookup_insert | by rewrite fn_lookup_insert_ne].
  apply (keeps_kept a (w_locks w i)); auto. apply (co_inv _ _ C).
Qed.

Lemma lock_gives j d :
  d <> EmptyString -> giving_back (node_at w j d) -> (i = j -> forall l1 k l2, a <> SrvRelease d l1 k l2) ->
  giving_back (node' j d).
Proof.
  intros Hd Hh Ha. destruct (decide (i = j)) as [<-|Hne]; [rewrite fn_lookup_insert | by rewrite fn_lookup_insert_ne].
  apply (giving_kept a (w_locks w i)); auto. apply (co_inv _ _ C).
Qed.

(** Not a call of the session, nor the end of a release. *)
Lemma coh_lock : internal a -> coh hs (set_lock i l w).
Proof.
  intros Hint.
  assert (Ht : forall j d, tickets (node' j d) = tickets (node_at w j d)).
  { intros j d. pose proof (lock_tickets j d) as H.
    assert (drops a d = 0%nat /\ takes a d = 0%nat) as [E1 E2] by (clear - Hint; by destruct a).
    rewrite E1, E2 in H. destruct (decide (i = j)); lia. }
  assert (Hr : forall d l1 k l2, a <> SrvRelease d l1 k l2) by (intros d l1 k l2 ->; done).
  destruct C. split; cbn [set_lock w_locks w_caches w_flush w_sessions w_server w_shared]; auto.
  - apply lock_inv.
  - intros j d. rewrite Ht. apply co_tickets0.
  - intros j d Hj. destruct (co_held0 j d Hj) as (H1 & H2 & H3). split_and!; [done | | apply H3 | apply H3].
    apply lock_step_held; auto. by intros _ l1 l2 ->.
  - intros d j b Hb. destruct (co_buf0 d j b Hb) as (H1 & H2 & H3). split_and!; try apply H3; auto. by apply lock_keeps.
  - intros d j Hj. destruct (co_flush0 d j Hj) as (H1 & H2). split; [done |]. by apply lock_gives.
Qed.

(** A call of acquire or release by the session. *)
Lemma coh_lock_call c t' h' :
  c = client_of a -> (forall d l1 k l2, a <> SrvRelease d l1 k l2) ->
  session_ok (w_shared w) (w_caches w c) h' t' ->
  (forall j, has h' j + acquiring t' j + (if decide (i = j) then drops a c else 0)
     = has (hs c) j + acquiring (w_sessions w c) j + (if decide (i = j) then takes a c else 0))%nat ->
  (forall j, j ∈ h' -> j ∈ hs c /\ (i = j -> forall l1 l2, a <> CallRel c l1 l2)) ->
  coh (<[c := h']> hs) (set_session c t' (set_lock i l w)).
Proof.
  intros Hc Hr Hs Ht Hh. destruct C.
  split; cbn [set_session set_lock w_locks w_caches w_flush w_sessions w_server w_shared]; auto.
  - apply lock_inv.
  - intros j d. pose proof (lock_tickets j d) as E. specialize (Ht j). rewrite co_tickets0 in E.
    destruct (decide (c = d)) as [<-|Hne]; [rewrite !fn_lookup_insert; lia |].
    rewrite (fn_lookup_insert_ne hs), (fn_lookup_insert_ne (w_sessions w)) by done.
    assert (drops a d = 0%nat /\ takes a d = 0%nat) as [E1 E2]
      by (clear - Hc Hne; subst c; destruct a; cbn in *; rewrite ?decide_False by done; done).
    rewrite E1, E2 in E. destruct (decide (i = j)); lia.
  - intros j d Hj. assert (Hj' : j ∈ hs d /\ (i = j -> forall l1 l2, a <> CallRel d l1 l2)).
    { destruct (decide (c = d)) as [<-|Hne]; [rewrite fn_lookup_insert in Hj; auto |].
      rewrite fn_lookup_insert_ne in Hj by done. split; [done |]. intros _ l1 l2 ->. by apply Hne. }
    destruct (co_held0 j d (proj1 Hj')) as (H1 & H2 & H3). split_and!; [done | | apply H3 | apply H3].
    apply lock_step_held; auto. apply Hj'.
  - intros d. destruct (decide (c = d)) as [<-|Hne];
      [by rewrite !fn_lookup_insert | rewrite !fn_lookup_insert_ne by done; apply co_session0].
  - intros d j b Hb. destruct (co_buf0 d j b Hb) as (H1 & H2 & H3). split_and!; try apply H3; auto. by apply lock_keeps.
  - intros d j Hj. destruct (co_flush0 d j Hj) as (H1 & H2). split; [done |]. by apply lock_gives.
Qed.

End lock_step.

(** The server's files stay. *)
Lemma coh_server s : es_inv s -> es_files s = sfiles w -> coh hs (set_server s w).
Proof.
  intros Hi He. destruct C. split; unfold sfiles, owed;
    cbn [set_server w_locks w_caches w_flush w_sessions w_server w_shared]; rewrite ?He; auto.
Qed.

(** Buffers stay. *)
Lemma coh_attrs c e : bcache e = bcache (w_caches w c) -> coh hs (set_cache c e w).
Proof.
  intros He.
  assert (Hb : forall d j, bcache (<[c := e]> (w_caches w) d) !! j = bcache (w_caches w d) !! j).
  { intros d j. destruct (decide (c = d)) as [<-|Hne]; [by rewrite fn_lookup_insert, He | by rewrite fn_lookup_insert_ne]. }
  assert (Hq : forall d j, snd (flush_take j (<[c := e]> (w_caches w) d)) = snd (flush_take j (w_caches w d))).
  { intros d j. unfold flush_take. rewrite Hb. by destruct (bcache (w_caches w d) !! j). }
  destruct C. split; unfold owed in *; cbn [set_cache w_locks w_caches w_flush w_sessions w_server w_shared]; auto.
  - intros d. specialize (co_session0 d). destruct (w_sessions w d); try done. cbn [session_ok] in *. by rewrite Hb.
  - intros d j b. rewrite Hb. apply co_buf0.
  - intros d j q. rewrite Hq. apply co_owed0.
  - intros j Hj. apply co_paid0. intros d. rewrite <- Hq. apply Hj.
Qed.

(** The holder of lock [i] puts a buffer into its cache. *)
Lemma coh_cache c i e b m t' :
  i ∈ hs c -> bcache e = <[i := b]> (bcache (w_caches w c)) ->
  (forall j, j <> i -> m !! j = w_shared w !! j) ->
  (dirty b = false -> deleted b = false -> buf b = bytes i (sfiles w)) ->
  m !! i = (if deleted b then None else if dirty b then (fun f => File (f_type f) (buf b)) <$> sfiles w !! i
            else sfiles w !! i) ->
  session_ok m e (hs c) t' -> (forall j, acquiring t' j = acquiring (w_sessions w c) j) ->
  coh hs (set_session c t' (set_shared m (set_cache c e w))).
Proof.
  intros Hi He Hm Hclean Hmi Hs Ht.
  pose proof (holder_no_flush hs w C i c Hi) as Hnf. destruct (holder_keeps hs w C i c Hi) as (Hc & Hk & _).
  destruct (co_held _ _ C i c Hi) as (_ & _ & Hid & Hfi). pose proof (owed_unique hs w C c) as Hu.
  pose proof (holders_disjoint hs w C c) as Hdis.
  assert (Hq : forall d j, (d, j) <> (c, i) -> owed d j (set_session c t' (set_shared m (set_cache c e w))) = owed d j w).
  { intros d j Hne. unfold owed. cbn [set_session set_shared set_cache w_caches w_flush]. destruct (w_flush w d j); try done.
    destruct (decide (c = d)) as [<-|]; [rewrite fn_lookup_insert | by rewrite fn_lookup_insert_ne].
    unfold flush_take. rewrite He, lookup_insert_ne by congruence. by destruct (bcache (w_caches w c) !! j). }
  assert (Hqi : owed c i (set_session c t' (set_shared m (set_cache c e w)))
    = if deleted b then Some (ReqRemove i) else if dirty b then Some (ReqPut i (buf b)) else None).
  { unfold owed. cbn [set_session set_shared set_cache w_caches w_flush]. rewrite Hnf, fn_lookup_insert.
    unfold flush_take. by rewrite He, lookup_insert_eq. }
  destruct C. split; unfold sfiles in *; cbn [set_session set_shared set_cache w_locks w_caches w_flush w_sessions w_server w_shared]; auto.
  - intros j d. rewrite co_tickets0. destruct (decide (c = d)) as [<-|Hne];
      [by rewrite fn_lookup_insert, Ht | by rewrite fn_lookup_insert_ne].
  - intros d. destruct (decide (c = d)) as [<-|Hne]; [by rewrite !fn_lookup_insert |].
    rewrite !fn_lookup_insert_ne by done. specialize (co_session0 d). destruct (w_sessions w d); try done.
    cbn [session_ok] in *. destruct co_session0 as ([p Hp] & -> & Hn). split_and!; [by exists p | | done].
    apply two_phase_inv in Hp as Hp'. destruct Hp' as [Hin _]. unfold bytes, Spec.read. rewrite Hm; [done |].
    intros ->. by apply Hne, (Hdis d i).
  - intros d j b'. destruct (decide (c = d)) as [<-|Hne]; [rewrite fn_lookup_insert, He | rewrite fn_lookup_insert_ne by done; apply co_buf0].
    rewrite lookup_insert. case_decide; [intros [= <-]; subst; by split_and! | apply co_buf0].
  - intros d j q. destruct (decide ((d, j) = (c, i))) as [[= -> ->]|Hne].
    + rewrite Hqi, Hmi. destruct (deleted b); [| destruct (dirty b); [| done]]; intros [= <-]; (split; [done |]);
        cbn [next]; rewrite mask_id_small by done; unfold Spec.remove, Spec.write;
        [by rewrite lookup_delete_eq | by rewrite lookup_alter_eq].
    + rewrite Hq by done. intros Ho. rewrite Hm; [by apply (co_owed0 d) |]. intros ->. apply Hne. by rewrite (Hu d i q).
  - intros j Hj. destruct (decide (j = i)) as [->|Hne].
    + specialize (Hj c). rewrite Hqi in Hj. rewrite Hmi. by destruct (deleted b), (dirty b).
    + rewrite Hm by done. apply co_paid0. intros d. rewrite <- Hq by congruence. apply Hj.
Qed.

(** Two-place updates of the table of flushes. *)
Lemma set_flush_at c i f d j :
  w_flush (set_flush c i f w) d j = if decide (c = d /\ i = j) then f else w_flush w d j.
Proof.
  cbn [set_flush w_flush]. destruct (decide (c = d)) as [<-|Hne].
  - rewrite fn_lookup_insert. destruct (decide (i = j)) as [<-|Hj];
      [by rewrite fn_lookup_insert, decide_True | rewrite fn_lookup_insert_ne, decide_False by naive_solver; done].
  - rewrite fn_lookup_insert_ne by done. by rewrite decide_False by naive_solver.
Qed.

(** dorelease takes the buffer out of the cache. *)
Lemma coh_flush c i e q :
  c <> EmptyString -> giving_back (node_at w i c) -> w_flush w c i = FNone -> flush_take i (w_caches w c) = (e, q) ->
  coh hs (set_flush c i (match q with Some q => FCall q | None => FDone end) (set_cache c e w)).
Proof.
  intros Hc Hg Hn He.
  assert (Hbe : bcache e = delete i (bcache (w_caches w c))).
  { unfold flush_take in He. destruct (bcache (w_caches w c) !! i) eqn:E; injection He as <- <-; [done |]. by rewrite delete_id. }
  assert (Hqe : q = snd (flush_take i (w_caches w c))) by (by rewrite He).
  assert (Hqb : forall q', q = Some q' -> exists b, bcache (w_caches w c) !! i = Some b /\
    (q' = ReqRemove i \/ exists bs, q' = ReqPut i bs)).
  { intros q' ->. unfold flush_take in Hqe. destruct (bcache (w_caches w c) !! i) as [b|]; [| done]. exists b. split; [done |].
    cbn [snd] in Hqe. destruct (deleted b); [injection Hqe as ->; by left |].
    destruct (dirty b); [injection Hqe as ->; right; by eexists | done]. }
  set (w' := set_flush _ _ _ _).
  assert (Hw : forall d j, w_flush w' d j = if decide (c = d /\ i = j) then match q with Some q => FCall q | None => FDone end
    else w_flush w d j).
  { intros d j. unfold w'. change (w_flush (set_flush c i (match q with Some q => FCall q | None => FDone end) (set_cache c e w)) d j)
      with (w_flush (set_flush c i (match q with Some q => FCall q | None => FDone end) w) d j). apply set_flush_at. }
  assert (Hb : forall d j, bcache (w_caches w' d) !! j = if decide (c = d /\ i = j) then None else bcache (w_caches w d) !! j).
  { intros d j. unfold w'. cbn [set_flush set_cache w_caches]. destruct (decide (c = d)) as [<-|Hne].
    - rewrite fn_lookup_insert, Hbe, lookup_delete. destruct (decide (i = j)); [by rewrite decide_True | by rewrite decide_False by naive_solver].
    - rewrite fn_lookup_insert_ne by done. by rewrite decide_False by naive_solver. }
  assert (Hq : forall d j, owed d j w' = owed d j w).
  { intros d j. unfold owed. rewrite Hw. destruct (decide (c = d /\ i = j)) as [[<- <-]|Hne].
    - rewrite Hn, <- Hqe. by destruct q.
    - unfold flush_take. rewrite Hb, decide_False by done. by destruct (bcache (w_caches w d) !! j). }
  destruct C. split; auto.
  - intros d. specialize (co_session0 d). change (w_sessions w' d) with (w_sessions w d). change (w_shared w') with (w_shared w).
    destruct (w_sessions w d); try done. cbn [session_ok] in *. rewrite Hb. split_and!; try apply co_session0. case_decide; [done | apply co_session0].
  - intros d j b. rewrite Hb, Hw. case_decide; [done |]. apply co_buf0.
  - intros d j. rewrite Hw. case_decide as Hd; [by destruct Hd as [<- <-] |]. apply co_flush0.
  - intros d j q'. rewrite Hw. case_decide as Hd; [| apply co_call0]. destruct Hd as [<- <-]. intros Hq'.
    destruct (Hqb q') as (b & Hbb & Hcase); [destruct q; congruence |]. split; [| done].
    by destruct (co_buf0 c i b Hbb) as (_ & _ & _ & ? & _).
  - intros d j q'. rewrite Hq. apply co_owed0.
  - intros j Hj. apply co_paid0. intros d. rewrite <- Hq. apply Hj.
Qed.

(** The server carries out what it was owed. *)
Lemma coh_served c i q s :
  w_flush w c i = FCall q -> es_inv s -> es_files s = next q (sfiles w) ->
  coh hs (set_flush c i FDone (set_server s w)).
Proof.
  intros Hf Hi He. destruct (co_flush _ _ C c i) as [Hc Hg]; [by rewrite Hf |].
  destruct (co_call _ _ C c i q Hf) as [Hfi Hq]. pose proof (owed_shape hs w C) as Hshape.
  assert (Hoq : owed c i w = Some q) by (unfold owed; by rewrite Hf).
  destruct (co_owed _ _ C c i q Hoq) as [Hid Hsh]. pose proof (giver_keeps w i c Hg) as Hk.
  assert (Hoth : forall j, j <> i -> es_files s !! j = sfiles w !! j).
  { intros j Hj. rewrite He. destruct Hq as [-> | [bs ->]]; cbn [next]; rewrite mask_id_small by done;
      unfold Spec.remove, Spec.write; [by rewrite lookup_delete_ne | by rewrite lookup_alter_ne]. }
  assert (Hnoh : forall d, i ∉ hs d).
  { intros d Hd. destruct (holder_keeps hs w C i d Hd) as (H1 & H2 & H3).
    assert (c = d) as <- by (by apply (keeps_unique (w_locks w i)); [apply (co_inv _ _ C) | ..]).
    apply (stage_spec _ _ (co_inv _ _ C i) Hc) in Hg. congruence. }
  assert (Hnob : forall d, bcache (w_caches w d) !! i = None).
  { intros d. destruct (bcache (w_caches w d) !! i) as [b|] eqn:Hb; [| done]. destruct (co_buf _ _ C d i b Hb) as (H1 & H2 & H3 & _).
    assert (c = d) as <- by (by apply (keeps_unique (w_locks w i)); [apply (co_inv _ _ C) | ..]). congruence. }
  assert (Hnof : forall d q', w_flush w d i = FCall q' -> d = c).
  { intros d q' Hd. apply (owed_unique hs w C c d i q' Hc Hk). unfold owed. by rewrite Hd. }
  set (w' := set_flush _ _ _ _).
  assert (Hw : forall d j, w_flush w' d j = if decide (c = d /\ i = j) then FDone else w_flush w d j).
  { intros d j. apply (set_flush_at c i FDone d j). }
  assert (Hnq : forall d, owed d i w' = None).
  { intros d. unfold owed. rewrite Hw. case_decide; [done |]. change (w_caches w' d) with (w_caches w d).
    unfold flush_take. rewrite Hnob. destruct (w_flush w d i) as [|q'|] eqn:Hd; try done. rewrite (Hnof d q' Hd) in *. naive_solver. }
  assert (Hqo : forall d j, j <> i -> owed d j w' = owed d j w).
  { intros d j Hj. unfold owed. rewrite Hw, decide_False by naive_solver. done. }
  assert (Hb : forall j, j <> i -> bytes j (es_files s) = bytes j (sfiles w)).
  { intros j Hj. unfold bytes, Spec.read. by rewrite Hoth. }
  destruct C. split; auto; unfold sfiles; cbn [w' set_flush set_server w_locks w_caches w_sessions w_server w_shared].
  - intros j d Hj. destruct (co_held0 j d Hj) as (H1 & H2 & H3 & H4). split_and!; auto. rewrite Hoth; [done |].
    intros ->. by apply (Hnoh d).
  - intros d j b Hbb. assert (Hj : j <> i) by (intros ->; by rewrite Hnob in Hbb).
    rewrite Hw, decide_False, Hoth, Hb by naive_solver. by apply co_buf0.
  - intros d j. rewrite Hw. case_decide as Hd; [by destruct Hd as [<- <-] |]. apply co_flush0.
  - intros d j q'. rewrite Hw. case_decide as Hd; [done |]. intros Hq'. destruct (co_call0 d j q' Hq') as [H1 H2].
    rewrite Hoth; [done |]. intros ->. apply Hd. by rewrite (Hnof d q' Hq').
  - intros d j q' Hq'. assert (Hj : j <> i) by (intros ->; by rewrite Hnq in Hq'). rewrite Hqo in Hq' by done.
    destruct (co_owed0 d j q' Hq') as [H1 H2]. split; [done |]. rewrite H2.
    by apply next_at; [apply (Hshape d) | | symmetry; apply Hoth].
  - intros j Hj. destruct (decide (j = i)) as [->|Hne]; [by rewrite Hsh, He |]. rewrite Hoth by done. apply co_paid0.
    intros d. rewrite <- Hqo by done. apply Hj.
Qed.

(** The lock server takes the lock back. *)
Lemma coh_srv_release c i l1 k l2 l :
  w_flush w c i = FDone -> enabled (SrvRelease c l1 k l2) (w_locks w i) ->
  fire (SrvRelease c l1 k l2) (w_locks w i) = Done l ->
  coh hs (set_flush c i FNone (set_lock i l w)).
Proof.
  intros Hn Hen Hf. set (a := SrvRelease c l1 k l2) in *.
  assert (Hnb : bcache (w_caches w c) !! i = None).
  { destruct (bcache (w_caches w c) !! i) as [b|] eqn:Hb; [| done]. destruct (co_buf _ _ C c i b Hb) as (_ & _ & ? & _). congruence. }
  set (w' := set_flush _ _ _ _).
  assert (Hw : forall d j, w_flush w' d j = if decide (c = d /\ i = j) then FNone else w_flush w d j).
  { intros d j. apply (set_flush_at c i FNone d j). }
  assert (Hq : forall d j, owed d j w' = owed d j w).
  { intros d j. unfold owed. rewrite Hw. destruct (decide (c = d /\ i = j)) as [[<- <-]|]; [| done].
    rewrite Hn. change (w_caches w' c) with (w_caches w c). unfold flush_take. by rewrite Hnb. }
  assert (Hother : forall d j, (c, i) <> (d, j) -> i = j -> forall l1 k l2, a <> SrvRelease d l1 k l2).
  { intros d j Hne <- l1' k' l2'. unfold a. congruence. }
  destruct C. split; auto; cbn [w' set_flush set_lock w_locks w_caches w_sessions w_server w_shared].
  - by apply (lock_inv i a l).
  - intros j d. rewrite <- co_tickets0. pose proof (lock_tickets i a l Hen Hf j d) as H. cbn [drops takes a] in H.
    destruct (decide (i = j)); lia.
  - intros j d Hj. destruct (co_held0 j d Hj) as (H1 & H2 & H3). split_and!; [done | | apply H3 | apply H3].
    by apply (lock_step_held i a l).
  - intros d j b Hb. destruct (co_buf0 d j b Hb) as (H1 & H2 & H3 & H4).
    assert (Hne : (c, i) <> (d, j)) by (intros [= <- <-]; congruence).
    rewrite Hw, decide_False by naive_solver. split_and!; [done | | done | apply H4 ..].
    apply (lock_keeps i a l); auto. by apply Hother.
  - intros d j. rewrite Hw. case_decide as Hd; [done |]. intros Hj. destruct (co_flush0 d j Hj) as [H1 H2].
    split; [done |]. apply (lock_gives i a l); auto. apply Hother. naive_solver.
  - intros d j q. rewrite Hw. case_decide; [done | apply co_call0].
  - intros d j q. rewrite Hq. apply co_owed0.
  - intros j Hj. apply co_paid0. intros d. rewrite <- Hq. apply Hj.
Qed.

(** A new file: nobody has anything of it. *)
Lemma fresh_number n :
  sfiles w !! n = None -> w_shared w !! n = None /\ (forall c, n ∉ hs c) /\ (forall c, owed c n w = None) /\
  (forall c, bcache (w_caches w c) !! n = None) /\ (forall c q, w_flush w c n <> FCall q).
Proof.
  intros Hn.
  assert (Hb : forall c, bcache (w_caches w c) !! n = None).
  { intros c. destruct (bcache (w_caches w c) !! n) as [b|] eqn:Hb; [| done].
    destruct (co_buf _ _ C c n b Hb) as (_ & _ & _ & [f Hf] & _). congruence. }
  assert (Hf : forall c q, w_flush w c n <> FCall q).
  { intros c q Hq. destruct (co_call _ _ C c n q Hq) as [[f Hf] _]. congruence. }
  assert (Ho : forall c, owed c n w = None).
  { intros c. unfold owed, flush_take. rewrite Hb. destruct (w_flush w c n) eqn:E; [done | by apply Hf in E | done]. }
  split_and!; auto; [by rewrite (co_paid _ _ C n Ho) |].
  intros c Hc. destruct (co_held _ _ C n c Hc) as (_ & _ & _ & [f Hfi]). congruence.
Qed.

Lemma coh_create s n f :
  sfiles w !! n = None -> es_inv s -> es_files s = <[n := f]> (sfiles w) ->
  coh hs (set_shared (<[n := f]> (w_shared w)) (set_server s w)).
Proof.
  intros Hn Hi He. destruct (fresh_number n Hn) as (Hsh & Hh & Ho & Hb & Hfl).
  assert (Hoth : forall j, j <> n -> es_files s !! j = sfiles w !! j) by (intros j Hj; by rewrite He, lookup_insert_ne).
  assert (Hby : forall j, j <> n -> bytes j (es_files s) = bytes j (sfiles w)).
  { intros j Hj. unfold bytes, Spec.read. by rewrite Hoth. }
  pose proof (owed_shape hs w C) as Hshape.
  destruct C. split; auto; unfold sfiles; cbn [set_shared set_server w_locks w_caches w_flush w_sessions w_server w_shared].
  - intros j d Hj. destruct (co_held0 j d Hj) as (H1 & H2 & H3 & H4). split_and!; auto. rewrite Hoth; [done |].
    intros ->. by apply (Hh d).
  - intros d. specialize (co_session0 d). destruct (w_sessions w d); try done. cbn [session_ok] in *.
    destruct co_session0 as ([p Hp] & -> & Hn'). split_and!; [by exists p | | done].
    apply two_phase_inv in Hp as [Hin _]. unfold bytes, Spec.read. rewrite lookup_insert_ne; [done |]. intros ->. by apply (Hh d).
  - intros d j b Hbb. assert (Hj : j <> n) by (intros ->; by rewrite Hb in Hbb). rewrite Hoth, Hby by done. by apply co_buf0.
  - intros d j q Hq. assert (Hj : j <> n) by (intros ->; by apply Hfl in Hq). rewrite Hoth by done. by apply (co_call0 d).
  - intros d j q Hq. change (owed d j w = Some q) in Hq. assert (Hj : j <> n) by (intros ->; by rewrite Ho in Hq).
    destruct (co_owed0 d j q Hq) as [H1 H2]. split; [done |]. rewrite lookup_insert_ne, H2 by done.
    by apply next_at; [apply (Hshape d) | | symmetry; apply Hoth].
  - intros j Hj. destruct (decide (j = n)) as [->|Hne]; [by rewrite He, !lookup_insert_eq |].
    rewrite lookup_insert_ne, Hoth by done. by apply co_paid0.
Qed.

End steps.

(** ** The locked store it behaves like *)

Definition abs_session (t : session) : thread :=
  match t with
  | TIdle h => Idle h
  | TRun t => Busy t
  | TAcquiring i k => Busy (Acquire i k)
  | TReleasing i k => Busy (k 0)
  | TGot i _ k => Busy (Get i k)
  | TGotAttr i _ k => Busy (Getattr i k)
  | TDead => Dead
  end.

Record shows (hs : string -> gset Z) (w : world S) (s : lsys) : Prop := {
  sh_store : store s = w_shared w;
  sh_owner : forall i c, owner s i = Some c <-> i ∈ hs c;
  sh_threads : forall c, threads s c = abs_session (w_sessions w c)
}.

(** A step of the system is a step of the locked store, or none. *)
Definition tracks (e : option event) (hs : string -> gset Z) (w : world S) (hs' : string -> gset Z) (w' : world S) : Prop :=
  forall s, shows hs w s -> (e = None /\ shows hs' w' s) \/ exists s', lstep pad e s s' /\ shows hs' w' s'.

(** What a step has to be shown to do. *)
Definition followed (e : option event) (hs : string -> gset Z) (w w' : world S) : Prop :=
  exists hs', coh hs' w' /\ tracks e hs w hs' w'.

Lemma stutter hs hs' (w w' : world S) :
  (forall c, hs' c = hs c) -> w_shared w' = w_shared w ->
  (forall c, abs_session (w_sessions w' c) = abs_session (w_sessions w c)) -> tracks None hs w hs' w'.
Proof.
  intros Hh Hm Ht s [H1 H2 H3]. left. split; [done |]. split; [congruence | intros; by rewrite Hh | intros; by rewrite Ht].
Qed.

Lemma stutter_session hs (w w' : world S) c t' :
  w_shared w' = w_shared w -> w_sessions w' = <[c := t']> (w_sessions w) -> abs_session t' = abs_session (w_sessions w c) ->
  tracks None hs w hs w'.
Proof.
  intros Hm Hs Ht. apply stutter; auto. intros d. rewrite Hs. destruct (decide (c = d)) as [<-|Hne];
    [by rewrite fn_lookup_insert | by rewrite fn_lookup_insert_ne].
Qed.

(** The session of [c] moves, and the locked store with it. *)
Lemma shows_move hs hs' (w w' : world S) s c t' m ow :
  shows hs w s -> w_shared w' = m -> w_sessions w' = <[c := t']> (w_sessions w) ->
  (forall i d, ow i = Some d <-> i ∈ hs' d) -> shows hs' w' (LSys m ow (<[c := abs_session t']> (threads s))).
Proof.
  intros [H1 H2 H3] Hm Hs Ho. split; cbn [store owner threads]; auto. intros d. rewrite Hs.
  destruct (decide (c = d)) as [<-|Hne]; [by rewrite !fn_lookup_insert | by rewrite !fn_lookup_insert_ne].
Qed.

Lemma moved e hs (w w' : world S) c t' m :
  w_shared w' = m -> w_sessions w' = <[c := t']> (w_sessions w) ->
  (forall s, shows hs w s -> store s = w_shared w -> threads s c = abs_session (w_sessions w c) ->
     lstep pad e s (LSys m (owner s) (<[c := abs_session t']> (threads s)))) ->
  tracks e hs w hs w'.
Proof.
  intros Hm Hs Hl s Hsh. right. eexists. split; [by apply Hl; [| apply Hsh ..] |].
  apply (shows_move hs hs w w'); auto. apply (sh_owner _ _ _ Hsh).
Qed.

(** ... without a change to the files. *)
Lemma move_go e hs (w w' : world S) c t :
  w_shared w' = w_shared w -> w_sessions w' = <[c := TRun t]> (w_sessions w) ->
  (forall s, store s = w_shared w -> threads s c = abs_session (w_sessions w c) -> lstep pad e s (go c t s)) ->
  tracks e hs w hs w'.
Proof.
  intros Hm Hs Hl. apply (moved e hs w w' c (TRun t) (w_shared w)); auto. intros s Hsh E1 E2. rewrite <- E1. by apply Hl.
Qed.

Section followed.
Context (hs : string -> gset Z) (w : world S).
Hypothesis C : coh hs w.

Lemma session_at c t : w_sessions w c = t -> session_ok (w_shared w) (w_caches w c) (hs c) t.
Proof. intros <-. apply (co_session _ _ C). Qed.

Lemma next_call c t : w_sessions w c = TRun t -> exists p, disciplined p (hs c) t.
Proof. apply session_at. Qed.

(** *** Starts and ends *)

Lemma f_start c o h :
  w_sessions w c = TIdle h -> plain o -> followed (Some (Start c o)) hs w (set_session c (TRun (op_prog pad o h)) w).
Proof.
  intros Ht Ho. pose proof (session_at c _ Ht) as ->. exists hs. split.
  - apply coh_run; [done | | by rewrite Ht]. exists Growing. by apply op_two_phase.
  - eapply move_go; [done.. |]. intros s E1 E2. rewrite Ht in E2. by apply ls_start.
Qed.

Lemma f_end c h r :
  w_sessions w c = TRun (Ret (h, r)) -> followed (Some (End c r)) hs w (set_session c (TIdle h) w).
Proof.
  intros Ht. destruct (next_call c _ Ht) as [p Hp]. apply two_phase_inv in Hp as [Hh _]. exists hs. split.
  - by apply coh_run; [| | rewrite Ht].
  - apply (moved _ hs w _ c (TIdle h) (w_shared w)); auto. intros s _ <- E2. rewrite Ht in E2. by apply ls_end.
Qed.

Lemma f_crash c f : w_sessions w c = TRun (Stop f) -> followed (Some (Crash c f)) hs w (set_session c TDead w).
Proof.
  intros Ht. exists hs. split.
  - by apply coh_run; [| | rewrite Ht].
  - apply (moved _ hs w _ c TDead (w_shared w)); auto. intros s _ <- E2. rewrite Ht in E2. by apply ls_crash.
Qed.

(** *** Locks *)

Lemma f_acquire c i k l :
  w_sessions w c = TRun (Acquire i k) -> enabled (NewAcquire c) (w_locks w i) ->
  fire (NewAcquire c) (w_locks w i) = Done l ->
  followed None hs w (set_session c (TAcquiring i k) (set_lock i l w)).
Proof.
  intros Ht Hen Hf. exists (<[c := hs c]> hs). split.
  - apply (coh_lock_call hs w C i (NewAcquire c)); [done | done | done | done | by apply next_call | | intros j Hj; by split].
    intros j. rewrite Ht. cbn [acquiring drops takes]. rewrite (decide_True (P := c = c)) by done. destruct (decide (i = j)); lia.
  - apply stutter; [apply insert_same | done |]. intros d. cbn [set_session set_lock w_sessions].
    destruct (decide (c = d)) as [<-|Hne]; [by rewrite fn_lookup_insert, Ht | by rewrite fn_lookup_insert_ne].
Qed.

(** The server has the files of the shared store, and with the same type. *)
Lemma shared_file c i f :
  c <> EmptyString -> keeps (node_at w i c) -> w_shared w !! i = Some f ->
  exists f', sfiles w !! i = Some f' /\ f_type f' = f_type f.
Proof.
  intros Hc Hk Hf. destruct (owed c i w) as [q|] eqn:Hq.
  - destruct (co_owed _ _ C c i q Hq) as [Hid E]. rewrite Hf in E.
    destruct (owed_shape hs w C c i q Hq) as [-> | [bs ->]]; cbn [next] in E; rewrite mask_id_small in E by done.
    + unfold Spec.remove in E. by rewrite lookup_delete_eq in E.
    + unfold Spec.write in E. rewrite lookup_alter_eq in E. destruct (sfiles w !! i) as [f'|]; [| done].
      exists f'. injection E as ->. done.
  - exists f. split; [| done]. rewrite <- Hf. symmetry. apply (co_paid _ _ C). intros d.
    destruct (owed d i w) as [q|] eqn:Hd; [| done]. rewrite (owed_unique hs w C c d i q Hc Hk Hd) in Hd. congruence.
Qed.

Lemma f_acquired c i k :
  w_sessions w c = TAcquiring i k -> c <> EmptyString -> Hold ∈ active (node_at w i c) -> file_exists i w ->
  followed None hs w (set_session c (TRun (k 0)) w).
Proof.
  intros Ht Hc Hh [Hid [f Hf]]. destruct (session_at c _ Ht) as [p Hp]. apply two_phase_inv in Hp as (_ & Hi & Hk).
  assert (Hkc : keeps (node_at w i c)) by (by right; left).
  exists (<[c := {[i]} ∪ hs c]> hs). split.
  - apply coh_session; [done | by exists Growing | |].
    + intros j. rewrite Ht. cbn [acquiring]. unfold has. destruct (decide (i = j)) as [<-|Hne].
      * by rewrite decide_True, decide_False by set_solver.
      * destruct (decide (j ∈ hs c)); [by rewrite decide_True by set_solver | by rewrite decide_False by set_solver].
    + intros j Hj. destruct (decide (j ∈ hs c)); [by left | right]. assert (j = i) as -> by set_solver.
      destruct (shared_file c i f Hc Hkc Hf) as (f' & Hf' & _). by split_and!; [.. | exists f'].
  - intros s Hs. right. pose proof (sh_threads _ _ _ Hs c) as Hth. rewrite Ht in Hth.
    assert (Ho : owner s i = None).
    { destruct (owner s i) as [d|] eqn:Ho; [| done]. apply (sh_owner _ _ _ Hs) in Ho.
      destruct (holder_keeps hs w C i d Ho) as (Hd & Hkd & _).
      rewrite (keeps_unique (w_locks w i) c d) in Hi by (done || apply (co_inv _ _ C)). done. }
    eexists. split; [by apply (ls_acquire pad c i k) |].
    unfold go. cbn [store owner threads]. apply (shows_move hs _ w _ s c (TRun (k 0))); auto; [by rewrite (sh_store _ _ _ Hs) |].
    intros j d. destruct (decide (i = j)) as [<-|Hne].
    + rewrite fn_lookup_insert. destruct (decide (c = d)) as [<-|Hcd]; [rewrite fn_lookup_insert; set_solver |].
      rewrite (fn_lookup_insert_ne hs) by done. rewrite <- (sh_owner _ _ _ Hs), Ho. split; congruence.
    + rewrite fn_lookup_insert_ne, (sh_owner _ _ _ Hs) by done. destruct (decide (c = d)) as [<-|Hcd];
        [rewrite fn_lookup_insert; set_solver | by rewrite (fn_lookup_insert_ne hs)].
Qed.

Lemma f_release c i k l1 l2 l :
  w_sessions w c = TRun (Release i k) -> enabled (CallRel c l1 l2) (w_locks w i) ->
  fire (CallRel c l1 l2) (w_locks w i) = Done l ->
  followed None hs w (set_session c (TReleasing i k) (set_lock i l w)).
Proof.
  intros Ht Hen Hf. destruct (next_call c _ Ht) as [p Hp]. apply two_phase_inv in Hp as (Hi & Hk).
  exists (<[c := hs c ∖ {[i]}]> hs). split.
  - apply (coh_lock_call hs w C i (CallRel c l1 l2)); [done | done | done | done | by exists Shrinking | |].
    + intros j. rewrite Ht. cbn [acquiring drops takes]. rewrite (decide_True (P := c = c)) by done. unfold has.
      destruct (decide (i = j)) as [<-|Hne]; [by rewrite decide_False, decide_True by set_solver |].
      destruct (decide (j ∈ hs c)); [by rewrite decide_True by set_solver | by rewrite decide_False by set_solver].
    + intros j Hj. split; set_solver.
  - intros s Hs. right. pose proof (sh_threads _ _ _ Hs c) as Hth. rewrite Ht in Hth.
    eexists. split; [by apply (ls_release pad c i k) |].
    unfold go. cbn [store owner threads]. apply (shows_move hs _ w _ s c (TReleasing i k)); auto; [by rewrite (sh_store _ _ _ Hs) |].
    intros j d. destruct (decide (i = j)) as [<-|Hne].
    + rewrite fn_lookup_insert. split; [done |]. destruct (decide (c = d)) as [<-|Hcd]; [rewrite fn_lookup_insert; set_solver |].
      rewrite (fn_lookup_insert_ne hs) by done. intros Hd. by destruct Hcd; apply (holders_disjoint hs w C c d i).
    + rewrite fn_lookup_insert_ne, (sh_owner _ _ _ Hs) by done. destruct (decide (c = d)) as [<-|Hcd];
        [rewrite fn_lookup_insert; set_solver | by rewrite (fn_lookup_insert_ne hs)].
Qed.

Lemma f_released c i k :
  w_sessions w c = TReleasing i k -> followed None hs w (set_session c (TRun (k 0)) w).
Proof.
  intros Ht. exists hs. split; [apply coh_run; [done | by apply (session_at c _ Ht) | by rewrite Ht] |].
  eapply stutter_session; [done.. |]. by rewrite Ht.
Qed.

(** *** Reading *)

Lemma f_get_hit c i k bs :
  w_sessions w c = TRun (Get i k) -> get_hit i (w_caches w c) = Some bs -> file_exists i w -> no_self pad i bs = true ->
  followed None hs w (set_session c (TRun (k (OK, bs))) w).
Proof.
  intros Ht Hg [_ Hex] Hn. destruct (next_call c _ Ht) as [p Hp]. apply two_phase_inv in Hp as (Hi & Hk).
  unfold get_hit in Hg. apply fmap_Some in Hg as (b & Hb & ->). destruct (cached_bytes hs w C i c b Hi Hex Hb) as [_ E].
  exists hs. split.
  - apply coh_run; [done | exists p; by apply Hk | by rewrite Ht].
  - eapply move_go; [done.. |]. intros s E1 E2. rewrite Ht in E2. rewrite E, <- E1. rewrite E, <- E1 in Hn. by apply ls_get.
Qed.

Lemma f_get_miss c i k e s bs :
  w_sessions w c = TRun (Get i k) -> get_hit i (w_caches w c) = None -> env_ok e ->
  es_serve e (ReqGet i) (w_server w) = Done (s, RepData bs) ->
  followed None hs w (set_session c (TGot i bs k) (set_server s w)).
Proof.
  intros Ht Hg He Hs. destruct (next_call c _ Ht) as [p Hp]. pose proof (two_phase_inv _ _ _ _ _ Hp) as (Hi & _).
  unfold get_hit in Hg. apply fmap_None in Hg.
  destruct (es_step e (ReqGet i) (w_server w) (co_server _ _ C) He I) as (s' & r & Hs' & Hinv & Hfiles & Ha).
  rewrite Hs in Hs'. injection Hs' as <- <-. cbn [next] in Hfiles. injection Ha as ->.
  exists hs. split.
  - apply (coh_run hs (set_server s w)); [by apply coh_server | | cbn [set_server w_sessions]; by rewrite Ht].
    split_and!; [by exists p | | done]. unfold bytes, Spec.read. cbn [set_server w_shared].
    by rewrite (server_bytes hs w C i c Hi Hg), (mask_held hs w C i c Hi).
  - eapply stutter_session; [done.. |]. by rewrite Ht.
Qed.

Lemma f_got c i k bs :
  w_sessions w c = TGot i bs k -> no_self pad i bs = true ->
  followed None hs w (set_session c (TRun (k (OK, bs))) (set_cache c (get_store i bs (w_caches w c)) w)).
Proof.
  intros Ht Hn. destruct (session_at c _ Ht) as ([p Hp] & Hbs & Hb). apply two_phase_inv in Hp as (Hi & Hk).
  pose proof (server_bytes hs w C i c Hi Hb) as Hsv. exists hs. split.
  - apply (coh_cache hs w C c i _ (BCE false false bs) (w_shared w)); auto.
    + unfold get_store. by rewrite Hb.
    + intros _ _. unfold bytes, Spec.read. by rewrite <- Hsv.
    + exists p. by apply Hk.
    + by rewrite Ht.
  - eapply move_go; [done.. |]. intros s E1 E2. rewrite Ht in E2. rewrite Hbs, <- E1. rewrite Hbs, <- E1 in Hn. by apply ls_get.
Qed.

Lemma f_getattr_hit c i k a :
  w_sessions w c = TRun (Getattr i k) -> followed None hs w (set_session c (TRun (k (OK, a))) w).
Proof.
  intros Ht. destruct (next_call c _ Ht) as [p Hp]. apply two_phase_inv in Hp as (_ & Hi & Hk). exists hs. split.
  - apply coh_run; [done | by exists Growing | by rewrite Ht].
  - eapply move_go; [done.. |]. intros s E1 E2. rewrite Ht in E2. by apply (ls_getattr pad c i).
Qed.

Lemma f_getattr_miss c i k e s a :
  w_sessions w c = TRun (Getattr i k) -> env_ok e ->
  es_serve e (ReqGetattr i) (w_server w) = Done (s, RepAttr a) ->
  followed None hs w (set_session c (TGotAttr i a k) (set_server s w)).
Proof.
  intros Ht He Hs.
  destruct (es_step e (ReqGetattr i) (w_server w) (co_server _ _ C) He I) as (s' & r & Hs' & Hinv & Hfiles & _).
  rewrite Hs in Hs'. injection Hs' as <- <-. exists hs. split.
  - apply (coh_run hs (set_server s w)); [by apply coh_server | by apply next_call | cbn [set_server w_sessions]; by rewrite Ht].
  - eapply stutter_session; [done.. |]. by rewrite Ht.
Qed.

Lemma f_gotattr c i k a :
  w_sessions w c = TGotAttr i a k ->
  followed None hs w (set_session c (TRun (k (OK, a))) (set_cache c (getattr_store i a (w_caches w c)) w)).
Proof.
  intros Ht. destruct (session_at c _ Ht) as [p Hp]. apply two_phase_inv in Hp as (_ & Hi & Hk). exists hs. split.
  - apply (coh_run hs (set_cache c (getattr_store i a (w_caches w c)) w)); [by apply coh_attrs | by exists Growing |].
    cbn [set_cache w_sessions]. by rewrite Ht.
  - eapply move_go; [done.. |]. intros s E1 E2. rewrite Ht in E2. by apply (ls_getattr pad c i).
Qed.

(** *** Writing *)

(** A file that is held and exists: what the cache and the server have of it. *)
Lemma held_file c i :
  i ∈ hs c -> file_exists i w ->
  deleted (default bce_new (bcache (w_caches w c) !! i)) = false /\
  (forall bs, Spec.write i bs (w_shared w) !! i = (fun f => File (f_type f) bs) <$> sfiles w !! i).
Proof.
  intros Hi [_ [f Hf]]. split.
  - destruct (bcache (w_caches w c) !! i) as [b|] eqn:Hb; [| done].
    by destruct (cached_bytes hs w C i c b Hi) as [? _]; [eexists | | ].
  - intros bs. destruct (holder_keeps hs w C i c Hi) as (Hc & Hk & _).
    destruct (shared_file c i f Hc Hk Hf) as (f' & -> & E). unfold Spec.write. rewrite lookup_alter_eq, Hf. cbn. by rewrite E.
Qed.

Lemma f_put c i bs k :
  w_sessions w c = TRun (Put i bs k) -> file_exists i w ->
  followed None hs w (set_session c (TRun (k OK)) (set_shared (Spec.write i bs (w_shared w))
    (set_cache c (fst (ec_put i bs (w_caches w c))) w))).
Proof.
  intros Ht Hex. destruct (next_call c _ Ht) as [p Hp]. apply two_phase_inv in Hp as (Hi & Hk).
  destruct (held_file c i Hi Hex) as [Hdel Hw]. exists hs. split.
  - apply (coh_cache hs w C c i _ (BCE true false bs)); [done | ..].
    + cbn [ec_put fst bcache]. by rewrite Hdel.
    + intros j Hj. unfold Spec.write. by rewrite lookup_alter_ne.
    + done.
    + cbn [deleted dirty buf]. apply Hw.
    + by exists Shrinking.
    + by rewrite Ht.
  - eapply moved; [done.. |]. intros s _ E1 E2. rewrite Ht in E2. cbn [set_session set_shared w_shared]. rewrite <- E1.
    by apply ls_put.
Qed.

Lemma f_remove c i k :
  w_sessions w c = TRun (Remove i k) ->
  followed None hs w (set_session c (TRun (k OK)) (set_shared (Spec.remove i (w_shared w))
    (set_cache c (fst (ec_remove i (w_caches w c))) w))).
Proof.
  intros Ht. destruct (next_call c _ Ht) as [p Hp]. apply two_phase_inv in Hp as (Hi & Hk).
  set (b := default bce_new (bcache (w_caches w c) !! i)). exists hs. split.
  - apply (coh_cache hs w C c i _ (BCE (dirty b) true (buf b))); [done | done | ..].
    + intros j Hj. unfold Spec.remove. by rewrite lookup_delete_ne.
    + done.
    + unfold Spec.remove. by rewrite lookup_delete_eq.
    + by exists Shrinking.
    + by rewrite Ht.
  - eapply moved; [done.. |]. intros s _ E1 E2. rewrite Ht in E2. cbn [set_session set_shared w_shared]. rewrite <- E1.
    by apply ls_remove.
Qed.

(** The server's new file is new to everybody. *)
Lemma create_fresh type n m :
  Spec.create type (sfiles w) = (m, n) ->
  (n = 0 /\ m = sfiles w) \/ (n <> 0 /\ sfiles w !! n = None /\ m = <[n := File (s16 type) []]> (sfiles w)).
Proof.
  unfold Spec.create. destruct (Spec.free_inums (sfiles w)) as [|n' l] eqn:E; intros [= <- <-]; [by left | right].
  assert (Hin : n' ∈ Spec.free_inums (sfiles w)) by (rewrite E; by left).
  unfold Spec.free_inums in Hin. apply list_elem_of_filter in Hin as [H1 H2]. apply elem_of_seqZ in H2. split_and!; [lia | done..].
Qed.

Lemma f_create c type k e s n :
  w_sessions w c = TRun (Create type k) -> env_ok e -> admissible (ReqCreate type) (es_files (w_server w)) ->
  es_serve e (ReqCreate type) (w_server w) = Done (s, RepId n) ->
  followed None hs w (set_session c (TRun (k (OK, n)))
    (set_shared (if n =? 0 then w_shared w else <[n := File (s16 type) []]> (w_shared w)) (set_server s w))).
Proof.
  intros Ht He Had Hs. destruct (next_call c _ Ht) as [p Hp]. apply two_phase_inv in Hp as (_ & Hk).
  destruct (es_step e _ (w_server w) (co_server _ _ C) He Had) as (s' & r & Hs' & Hinv & Hfiles & Ha).
  rewrite Hs in Hs'. injection Hs' as <- <-. cbn [next] in Hfiles. injection Ha as Hn.
  destruct (Spec.create type (es_files (w_server w))) as [m n'] eqn:Hcr. cbn [fst snd] in *. subst n'.
  set (m' := if n =? 0 then w_shared w else <[n := File (s16 type) []]> (w_shared w)).
  assert (Hcoh : coh hs (set_shared m' (set_server s w)) /\ created type (w_shared w) n m' /\
    (m' = w_shared w \/ forall d, n ∉ hs d)).
  { unfold m'. destruct (create_fresh type n m Hcr) as [[-> ->] | (H0 & Hnone & ->)].
    - cbn [Z.eqb]. split_and!; [by apply (coh_server hs w C) | by right | by left].
    - rewrite (proj2 (Z.eqb_neq n 0) H0). destruct (fresh_number hs w C n Hnone) as (Hsh & Hh & _).
      split_and!; [by apply coh_create | by left | by right]. }
  destruct Hcoh as (Hcoh & Hcreated & Hfree). exists hs. split.
  - apply (coh_run hs (set_shared m' (set_server s w))); [done | by exists Shrinking |].
    cbn [set_shared set_server w_sessions]. by rewrite Ht.
  - apply (moved _ hs w _ c (TRun (k (OK, n))) m'); auto. intros sl Hsh E1 E2. rewrite Ht in E2. rewrite <- E1 in Hcreated, Hfree.
    apply (ls_create pad c type k n m'); [done.. |]. destruct Hfree as [|Hfree]; [by left | right].
    destruct (owner sl n) as [d|] eqn:Ho; [| done]. apply (sh_owner _ _ _ Hsh) in Ho. by destruct (Hfree d).
Qed.

End followed.

(** *** Every step *)

Lemma step_followed hs w e w' : coh hs w -> can pad (holds pad) e w w' -> followed e hs w w'.
Proof.
  intros C (l & Hw & Hl). destruct Hw; decompose_Forall_hyps; eauto using f_start, f_end, f_crash, f_acquire, f_acquired, f_release, f_released, f_get_hit,
    f_get_miss, f_got, f_getattr_hit, f_getattr_miss, f_gotattr, f_put, f_remove, f_create.
  - exists hs. split; [by apply (coh_lock hs w C i a) | by apply stutter].
  - exists hs. split; [by apply coh_flush | by apply stutter].
  - destruct (es_step e q (w_server w) (co_server _ _ C) H0 H2) as (s' & r' & Hs' & Hinv & Hfiles & _).
    rewrite H1 in Hs'. injection Hs' as <- <-. exists hs. split; [by apply (coh_served hs w C c i q) | by apply stutter].
  - exists hs. split; [by apply (coh_srv_release hs w C c i l1 k l2) | by apply stutter].
Qed.

Lemma coh_new s : es_inv s -> coh (fun _ => ∅) (world_new s).
Proof.
  intros Hs. split; cbn [world_new w_locks w_caches w_flush w_sessions w_server w_shared]; try done.
  intros i. apply inv_new.
Qed.

Lemma run_followed s tr w :
  es_inv s -> wrun pad (holds pad) s tr w ->
  exists hs sl, lrun pad (lsys_new (es_files s)) tr sl /\ coh hs w /\ shows hs w sl.
Proof.
  intros Hs. induction 1 as [|tr e w w' _ (hs & sl & Hl & C & Hsh) Hw].
  - exists (fun _ => ∅), (lsys_new (es_files s)). split_and!; [constructor | by apply coh_new |].
    by split.
  - destruct (step_followed hs w e w' C Hw) as (hs' & C' & Ht).
    destruct (Ht sl Hsh) as [[-> Hsh'] | (sl' & Hstep & Hsh')]; [by exists hs', sl | exists hs', sl'].
    split_and!; [by eapply lr_step | done | done].
Qed.

(** ** What is where *)

(** No operation is under way. *)
Definition at_rest (w : world S) : Prop := forall c, match w_sessions w c with TIdle _ | TDead => True | _ => False end.
(** Nothing waits to be sent to the extent server. *)
Definition written_back (w : world S) : Prop := forall c i, owed c i w = None.

Lemma buffer_current hs w c i b :
  coh hs w -> bcache (w_caches w c) !! i = Some b ->
  if deleted b then w_shared w !! i = None else buf b = bytes i (w_shared w).
Proof.
  intros C Hb. destruct (co_buf _ _ C c i b Hb) as (Hc & Hk & Hn & [f Hf] & Hclean).
  assert (Hq : owed c i w = if deleted b then Some (ReqRemove i) else if dirty b then Some (ReqPut i (buf b)) else None).
  { unfold owed, flush_take. by rewrite Hn, Hb. }
  pose proof (co_owed _ _ C c i) as Ho. rewrite Hq in Ho. unfold bytes, Spec.read. destruct (deleted b).
  { destruct (Ho _ eq_refl) as [Hid E]. rewrite E. cbn [next]. rewrite mask_id_small by done. apply lookup_delete_eq. }
  destruct (dirty b).
  - destruct (Ho _ eq_refl) as [Hid E]. rewrite E. cbn [next]. rewrite mask_id_small by done.
    unfold Spec.write. by rewrite lookup_alter_eq, Hf.
  - rewrite (co_paid _ _ C i); [by apply Hclean |]. intros d. destruct (owed d i w) as [q|] eqn:Hd; [| done].
    rewrite (owed_unique hs w C c d i q Hc Hk Hd) in Hd. congruence.
Qed.

End coherence.

(** ** Theorems *)

(** C1: the contents of files change atomically.  Any number of clients with
    their caches, the lock protocol between them and the extent server,
    interleaved in any way, in runs in which the assumptions hold (no operation
    makes a directory; files are locked, read and written while they exist; no
    directory lists itself; what is sent fits the disk) and the extent server
    serves one request at a time and answers it: operations start and end as if each
    happened as a whole at one moment between its start and its end, on one
    store of files.  When no operation is under way the shared files are what
    those moments have made of them, and when all caches are written back the
    extent server has them.  Attributes are not covered (getattr may answer
    anything in the atomic system): [stale_attributes_after_release].  Without
    the first assumption this fails: [directories_not_shared]. *)
Theorem file_system_atomic {S} `{!ExtentService S} pad (s : S) tr w :
  es_inv s -> wrun pad (holds pad) s tr w ->
  exists a, arun pad (asys_new (es_files s)) tr a /\
    (at_rest w -> forall i, astore a !! i = w_shared w !! i) /\
    (at_rest w -> written_back w -> astore a = es_files (w_server w)).
Proof.
  intros Hs Hw. destruct (run_followed pad s tr w Hs Hw) as (hs & sl & Hl & C & Hsh).
  destruct (lrun_sim pad (es_files s) tr sl Hl) as (hs' & a & Ha & Sim).
  assert (Hrest : at_rest w -> forall i, astore a !! i = w_shared w !! i).
  { intros Hr i. rewrite <- (sh_store _ _ _ Hsh). apply (sim_quiet pad hs'); [done |]. intros c t Ht.
    specialize (Hr c). rewrite (sh_threads _ _ _ Hsh) in Ht. by destruct (w_sessions w c). }
  exists a. split_and!; [done | done |]. intros Hr Hb. apply map_eq. intros i. rewrite (Hrest Hr). apply (co_paid _ _ _ C).
  intros c. apply Hb.
Qed.

Lemma file_system_atomic_witness : exists a, arun 7 (asys_new two_files) handover_trace a.
Proof.
  destruct handover_run as [w Hw]. destruct (file_system_atomic 7 (two_files : fstore) handover_trace w) as (a & Ha & _).
  - exact two_files_ok.
  - exact Hw.
  - exists a. exact Ha.
Defined.

(** C2: the caches of contents are coherent, in the runs of C1 (no operation
    makes a directory, files are used while they exist, requests fit, the extent
    server serves them one at a time): at most one client has the contents of a
    file in its cache, and that client has the lock, or is giving it back; what
    it has is the current contents (or it has the mark of the removal); and a
    file nobody caches or is about to write back is up to date at the extent
    server. *)
Theorem caches_coherent {S} `{!ExtentService S} pad (s : S) tr w :
  es_inv s -> wrun pad (holds pad) s tr w ->
  (forall c d i b b', bcache (w_caches w c) !! i = Some b -> bcache (w_caches w d) !! i = Some b' -> c = d) /\
  (forall c i b, bcache (w_caches w c) !! i = Some b ->
     keeps (nodes (w_locks w i) c) /\
     if deleted b then w_shared w !! i = None else buf b = bytes i (w_shared w)) /\
  (forall i, (forall c, bcache (w_caches w c) !! i = None /\ forall q, w_flush w c i <> FCall q) ->
     es_files (w_server w) !! i = w_shared w !! i).
Proof.
  intros Hs Hw. destruct (run_followed pad s tr w Hs Hw) as (hs & sl & _ & C & _). split_and!.
  - intros c d i b b' Hb Hb'. destruct (co_buf _ _ _ C c i b Hb) as (H1 & H2 & _), (co_buf _ _ _ C d i b' Hb') as (H3 & H4 & _).
    by apply (keeps_unique (w_locks w i)); [apply (co_inv _ _ _ C) | ..].
  - intros c i b Hb. split; [by apply (co_buf _ _ _ C c i b) | by apply (buffer_current pad hs w c)].
  - intros i Hn. symmetry. apply (co_paid _ _ _ C). intros c. destruct (Hn c) as [Hb Hf]. unfold owed, flush_take. rewrite Hb.
    by destruct (w_flush w c i) as [|q|]; [| destruct (Hf q) |].
Qed.

Lemma caches_coherent_witness : exists w, wrun 7 (holds 7) (two_files : fstore) handover_trace w /\
  forall c d i b b', bcache (w_caches w c) !! i = Some b -> bcache (w_caches w d) !! i = Some b' -> c = d.
Proof.
  destruct handover_run as [w Hw]. exists w. split; [exact Hw |]. apply (caches_coherent 7 (two_files : fstore) handover_trace w).
  - exact two_files_ok.
  - exact Hw.
Defined.

(** C10: making a directory puts its contents into the cache without its lock
    (yfs_client::create), and that is not coherent: in a run that meets every
    other assumption, one client makes a directory, another creates a file in
    it and is told that it is there, and the first client, who looks the file
    up afterwards, is told that it is not. *)
Theorem directories_not_shared :
  exists w, wrun 7 (but_mkdir 7) (two_files : fstore)
    [Start cl_a (OCreate 1 [98] T_DIR); End cl_a (RFound OK (Some 3));
     Start cl_b (OCreate 3 [120] T_FILE); End cl_b (RFound OK (Some 4));
     Start cl_a (OLookup 3 [120]); End cl_a (RFound OK None)] w.
Proof. exact hidden_run. Qed.
