(* ===== verification/Address.v ===== *)
(** * Addresses and decimal names

    How programs name each other: the port and the id a caching lock client
    picks for itself (src/lock_client_cache.cc, its constructor), the parsing
    of [host:port] in make_sockaddr (src/rpc/rpc.cc), by which the lock server
    finds the client behind an id, the order of socket addresses, the listening
    socket of tcpsconn (src/rpc/connection.cc), and the decimal names of
    yfs_client (n2i and filename).

    C strings are lists of character codes without the final NUL.  inet_addr and
    gethostbyname are arguments. *)

From S2P Require Import Prelude.

(** ** Decimal numbers *)

(** [ost << n] for an unsigned [n]: digits from the last to the first. *)
Fixpoint digits (fuel : nat) (n : Z) (acc : list Z) : list Z :=
  match fuel with
  | O => acc
  | S fuel =>
      let acc := (48 + n mod 10) :: acc in
      if n <? 10 then acc else digits fuel (n / 10) acc
  end.

(** Twenty digits are enough for 64 bits. *)
Definition print_dec (n : Z) : list Z := digits 20 n [].

Definition is_digit (c : Z) : bool := (48 <=? c) && (c <=? 57).
Definition is_space (c : Z) : bool := (c =? 32) || ((9 <=? c) && (c <=? 13)).

Fixpoint skip_space (s : list Z) : list Z :=
  match s with c :: s' => if is_space c then skip_space s' else s | [] => [] end.

(** The value of the leading digits, and how many there are. *)
Fixpoint scan_digits (s : list Z) (v : Z) (n : nat) : Z * nat :=
  match s with
  | c :: s' => if is_digit c then scan_digits s' (10 * v + (c - 48)) (S n) else (v, n)
  | [] => (v, n)
  end.

(** An optional sign. *)
Definition sign (s : list Z) : Z * list Z :=
  match s with
  | c :: s' => if c =? 45 then (-1, s') else if c =? 43 then (1, s') else (1, s)
  | [] => (1, [])
  end.

(** atoi; a number that is no int is undefined behaviour. *)
Definition atoi (s : list Z) : outcome Z :=
  let '(sg, s) := sign (skip_space s) in
  let v := sg * fst (scan_digits s 0 0) in
  if (- 2 ^ 31 <=? v) && (v <? 2 ^ 31) then Done v else Fault OutOfBounds.

(** [ist >> finum] of an unsigned long long: no digits give 0, too large a
    number gives the largest one, a minus sign negates at 64 bits. *)
Definition n2i (s : list Z) : Z :=
  let '(sg, s) := sign (skip_space s) in
  let '(v, n) := scan_digits s 0 0 in
  if (n =? 0)%nat then 0 else if 2 ^ 64 <=? v then 2 ^ 64 - 1 else u64 (sg * v).

Definition filename (inum : Z) : list Z := print_dec inum.

(** ** Socket addresses *)

Record sockaddr_in := SockAddr { s_addr : Z; sin_port : Z }.

#[export] Instance sockaddr_eq_dec : EqDecision sockaddr_in.
Proof. solve_decision. Defined.

(** operator< *)
Definition sockaddr_lt (a b : sockaddr_in) : bool :=
  (s_addr a <? s_addr b) || ((s_addr a =? s_addr b) && (sin_port a <? sin_port b)).

(** htons on a little-endian machine; the argument is an int. *)
Definition htons (x : Z) : Z := let x := x mod 2 ^ 16 in (x mod 2 ^ 8) * 2 ^ 8 + x / 2 ^ 8.

Definition localhost : list Z := [49; 50; 55; 46; 48; 46; 48; 46; 49].
Definition COLON : Z := 58.
Definition INADDR_NONE : Z := 2 ^ 32 - 1.

(** index(s, ':') *)
Fixpoint index_of (c : Z) (s : list Z) : option nat :=
  match s with [] => None | x :: s => if x =? c then Some O else S <$> index_of c s end.

Section resolver.
Variable inet_addr : list Z -> Z.
Variable gethostbyname : list Z -> option Z.

(** [None]: the process exits. *)
Definition make_sockaddr_host (host port : list Z) : outcome (option sockaddr_in) :=
  let a := inet_addr host in
  let addr := if negb (a =? INADDR_NONE) then Some a else gethostbyname host in
  match addr with
  | Some a => p ← atoi port; mret (Some (SockAddr a (htons p)))
  | None => mret None
  end.

(** [char host[200]] takes the part before the colon and its NUL. *)
Definition make_sockaddr (hostandport : list Z) : outcome (option sockaddr_in) :=
  match index_of COLON hostandport with
  | None => make_sockaddr_host localhost hostandport
  | Some n =>
      if (200 <=? n)%nat then Fault OutOfBounds
      else make_sockaddr_host (take n hostandport) (drop (S n) hostandport)
  end.

(** ** The caching lock client's own address *)

(** [(rand()%32000) | (0x1 << 10)]; rand is not negative. *)
Definition rlock_port (r : Z) : Z := Z.lor (r mod 32000) (Z.shiftl 1 10).

(** [host << hname << ":" << rlock_port] *)
Definition client_id (port : Z) : list Z := localhost ++ [COLON] ++ print_dec port.

End resolver.

(** ** The listening socket *)

(** What the system calls of the constructor of tcpsconn return. *)
Record listen_calls := ListenCalls { l_socket : Z; l_bind : Z; l_listen : Z; l_pipe : Z; l_thread : bool }.

(** The address bound to, if the constructor ends. *)
Definition tcpsconn_listen (port : Z) (r : listen_calls) : outcome sockaddr_in :=
  let sin := SockAddr 0 (htons port) in
  if l_socket r <? 0 then Fault AssertFailed
  else if l_bind r <? 0 then Fault AssertFailed
  else if l_listen r <? 0 then Fault AssertFailed
  else if l_pipe r <? 0 then Fault AssertFailed
  else _ ← verify (l_thread r); Done sin.

(** ** Reading what was printed *)

Lemma digits_app fuel n acc : digits fuel n acc = digits fuel n [] ++ acc.
Proof.
  revert n acc. induction fuel as [|fuel IH]; intros n acc; [done |]. cbn [digits]. destruct (n <? 10); [done |].
  rewrite IH, (IH (n / 10) [_]). by rewrite <- app_assoc.
Qed.

Lemma scan_digits_app s t v n :
  forallb is_digit s = true ->
  scan_digits (s ++ t) v n = scan_digits t (fst (scan_digits s v n)) (snd (scan_digits s v n)).
Proof.
  revert v n. induction s as [|c s IH]; intros v n; [done |]. cbn [forallb app scan_digits].
  intros [Hc Hs]%andb_true_iff. rewrite Hc. by apply IH.
Qed.

Lemma digit_ok n : is_digit (48 + n mod 10) = true.
Proof. unfold is_digit. pose proof (Z.mod_pos_bound n 10). lia. Qed.

(** The digits of [n] are digits, at least one, and have the value [n]. *)
Lemma digits_value fuel n :
  0 <= n < 10 ^ Z.of_nat fuel -> (0 < fuel)%nat ->
  forallb is_digit (digits fuel n []) = true /\ digits fuel n [] <> [] /\ fst (scan_digits (digits fuel n []) 0 0) = n.
Proof.
  revert n. induction fuel as [|fuel IH]; intros n Hn Hf; [lia |]. cbn [digits].
  pose proof (Z.mod_pos_bound n 10). pose proof (Z.div_mod n 10).
  destruct (Z.ltb_spec n 10) as [Hlt|Hge].
  - cbn [forallb scan_digits]. rewrite digit_ok. cbn. split_and!; [done.. |]. rewrite Z.mod_small by lia. lia.
  - rewrite Nat2Z.inj_succ, Z.pow_succ_r in Hn by lia.
    assert (Hq : 0 <= n / 10 < 10 ^ Z.of_nat fuel) by lia.
    destruct fuel as [|fuel]; [cbn in Hq; lia |].
    destruct (IH (n / 10) Hq) as (H1 & H2 & H3); [lia |]. rewrite digits_app.
    rewrite forallb_app, H1. cbn [forallb]. rewrite digit_ok. split_and!; [done | by destruct (digits _ _ _) |].
    rewrite scan_digits_app, H3 by done. cbn [scan_digits]. rewrite digit_ok. cbn [fst]. lia.
Qed.

Lemma print_dec_ok n :
  0 <= n < 2 ^ 64 ->
  forallb is_digit (print_dec n) = true /\ print_dec n <> [] /\ fst (scan_digits (print_dec n) 0 0) = n.
Proof. intros. apply digits_value; lia. Qed.

(** A number does not start with a space or a sign. *)
Lemma digits_head s : forallb is_digit s = true -> sign (skip_space s) = (1, s).
Proof.
  destruct s as [|c s]; [done |]. cbn [forallb]. intros [Hc _]%andb_true_iff. unfold is_digit in Hc.
  cbn [skip_space]. unfold is_space. destruct (Z.eqb_spec c 32); [lia |]. destruct (Z.leb_spec 9 c), (Z.leb_spec c 13); try lia.
  all: cbn [orb andb sign]; destruct (Z.eqb_spec c 45); [lia |]; destruct (Z.eqb_spec c 43); [lia | done].
Qed.

Lemma scan_count s v n : (n <= snd (scan_digits s v n))%nat.
Proof.
  revert v n. induction s as [|c s IH]; intros v n; [done |]. cbn [scan_digits].
  destruct (is_digit c); [| done]. etrans; [| apply IH]. lia.
Qed.

Lemma scan_some s : forallb is_digit s = true -> s <> [] -> snd (scan_digits s 0 0) <> 0%nat.
Proof.
  destruct s as [|c s]; [done |]. cbn [forallb scan_digits]. intros [-> _]%andb_true_iff _.
  pose proof (scan_count s (10 * 0 + (c - 48)) 1). lia.
Qed.

Lemma atoi_print n : 0 <= n < 2 ^ 31 -> atoi (print_dec n) = Done n.
Proof.
  intros Hn. destruct (print_dec_ok n) as (H1 & _ & H3); [lia |]. unfold atoi. rewrite digits_head, H3 by done.
  destruct (Z.leb_spec (- 2 ^ 31) (1 * n)), (Z.ltb_spec (1 * n) (2 ^ 31)); try lia. cbn [andb]. f_equal. lia.
Qed.

Lemma print_dec_inj m n : 0 <= m < 2 ^ 64 -> 0 <= n < 2 ^ 64 -> print_dec m = print_dec n -> m = n.
Proof.
  intros Hm Hn E. destruct (print_dec_ok m Hm) as (_ & _ & <-). destruct (print_dec_ok n Hn) as (_ & _ & <-). by rewrite E.
Qed.

(** ** Ports, ids and addresses *)

Lemma rlock_port_range r : 1024 <= rlock_port r < 2 ^ 15.
Proof.
  unfold rlock_port. change (Z.shiftl 1 10) with 1024. set (x := r mod 32000).
  assert (Hx : 0 <= x < 32000) by (apply Z.mod_pos_bound; lia).
  assert (Hpos : 0 < Z.lor x 1024).
  { assert (0 <= Z.lor x 1024) by (apply Z.lor_nonneg; lia). assert (Z.lor x 1024 <> 0); [| lia].
    intros E. apply Z.lor_eq_0_iff in E as [_ E]. done. }
  assert (Hlog : 10 <= Z.log2 (Z.lor x 1024) < 15).
  { rewrite Z.log2_lor by lia. change (Z.log2 1024) with 10.
    assert (Z.log2 x < 15); [| lia]. destruct (Z.eq_dec x 0) as [->|]; [done |]. apply Z.log2_lt_pow2; lia. }
  split; [| apply Z.log2_lt_pow2; lia].
  apply (Z.log2_le_pow2 _ 10) in Hpos. apply Hpos. lia.
Qed.

(** The colon of an id is the one before the port. *)
Lemma index_localhost s : index_of COLON (localhost ++ [COLON] ++ s) = Some 9%nat.
Proof. done. Qed.

Lemma resolve_id inet_addr gethostbyname port :
  inet_addr localhost <> INADDR_NONE -> 0 <= port < 2 ^ 31 ->
  make_sockaddr inet_addr gethostbyname (client_id port) = Done (Some (SockAddr (inet_addr localhost) (htons port))).
Proof.
  intros Ha Hp. unfold make_sockaddr, client_id. rewrite index_localhost. cbn [Nat.leb].
  change (take 9 (localhost ++ [COLON] ++ print_dec port)) with localhost.
  change (drop 10 (localhost ++ [COLON] ++ print_dec port)) with (print_dec port).
  unfold make_sockaddr_host. rewrite (proj2 (Z.eqb_neq _ _) Ha). cbn [negb]. by rewrite atoi_print.
Qed.

Lemma client_id_inj p q : 0 <= p < 2 ^ 64 -> 0 <= q < 2 ^ 64 -> client_id p = client_id q -> p = q.
Proof. intros Hp Hq E. apply print_dec_inj; [done.. |]. by injection E. Qed.

(** The order of addresses, by which they are keys of maps. *)
Lemma sockaddr_lt_irrefl a : sockaddr_lt a a = false.
Proof. unfold sockaddr_lt. rewrite !Z.ltb_irrefl. by rewrite andb_false_r. Qed.

Lemma sockaddr_lt_trans a b c : sockaddr_lt a b = true -> sockaddr_lt b c = true -> sockaddr_lt a c = true.
Proof. unfold sockaddr_lt. lia. Qed.

Lemma sockaddr_lt_total a b : sockaddr_lt a b = true \/ a = b \/ sockaddr_lt b a = true.
Proof.
  destruct a as [x p], b as [y q]. unfold sockaddr_lt. cbn [s_addr sin_port].
  destruct (Z.lt_trichotomy x y) as [|[->|]], (Z.lt_trichotomy p q) as [|[->|]]; lia || (right; by left).
Qed.

(** n2i reads what filename prints. *)
Lemma n2i_filename i : 0 <= i < 2 ^ 64 -> n2i (filename i) = i.
Proof.
  intros Hi. destruct (print_dec_ok i Hi) as (H1 & H2 & H3). unfold n2i, filename. rewrite digits_head by done.
  pose proof (scan_some _ H1 H2) as Hc. destruct (scan_digits (print_dec i) 0 0) as [v n]. cbn [fst snd] in *. subst v.
  destruct (Nat.eqb_spec n 0); [done |]. destruct (Z.leb_spec (2 ^ 64) i); [lia |]. unfold u64. rewrite Z.mul_1_l. apply Z.mod_small. lia.
Qed.

(** A host name of 200 characters and more is written behind the buffer. *)
Lemma long_host_overruns inet_addr gethostbyname host port :
  COLON ∉ host -> (200 <= length host)%nat ->
  make_sockaddr inet_addr gethostbyname (host ++ COLON :: port) = Fault OutOfBounds.
Proof.
  intros Hc Hl. unfold make_sockaddr.
  assert (E : index_of COLON (host ++ COLON :: port) = Some (length host)).
  { clear Hl. induction host as [|c host IH]; [done |]. cbn [app index_of length].
    apply not_elem_of_cons in Hc as [Hne Hc]. destruct (Z.eqb_spec c COLON); [by subst |]. by rewrite IH. }
  rewrite E. by rewrite (proj2 (Nat.leb_le _ _) Hl).
Qed.

(** ** Theorem *)

(** C32: the lock server reaches the client behind an id.  The id a caching
    lock client makes for itself, parsed by make_sockaddr, is the loopback
    address with the very port its server listens on, an unprivileged one; and
    clients on different ports have different ids. *)
Theorem client_address inet_addr gethostbyname r calls a :
  inet_addr localhost <> INADDR_NONE -> tcpsconn_listen (rlock_port r) calls = Done a ->
  make_sockaddr inet_addr gethostbyname (client_id (rlock_port r))
    = Done (Some (SockAddr (inet_addr localhost) (sin_port a))) /\
  1024 <= rlock_port r < 2 ^ 15 /\
  forall r', client_id (rlock_port r') = client_id (rlock_port r) -> rlock_port r' = rlock_port r.
Proof.
  intros Hi Hl. pose proof (rlock_port_range r). split_and!; try lia.
  - rewrite resolve_id by (done || lia). unfold tcpsconn_listen in Hl.
    destruct (l_socket calls <? 0), (l_bind calls <? 0), (l_listen calls <? 0), (l_pipe calls <? 0), (l_thread calls); try done.
    by injection Hl as <-.
  - intros r'. pose proof (rlock_port_range r'). apply client_id_inj; lia.
Qed.

(** The loopback address as inet_addr returns it. *)
Definition loopback_only (host : list Z) : Z := if decide (host = localhost) then 0x100007f else INADDR_NONE.

Lemma client_address_witness :
  make_sockaddr loopback_only (fun _ => None) (client_id (rlock_port 12345))
    = Done (Some (SockAddr 0x100007f (htons (rlock_port 12345)))).
Proof.
  destruct (client_address loopback_only (fun _ => None) 12345 (ListenCalls 3 0 0 0 true)
    (SockAddr 0 (htons (rlock_port 12345)))) as (H & _); [vm_compute; discriminate | reflexivity | exact H].
Defined.
