(* ===== verification/Connection.v ===== *)
(** * Framing of messages on a connection (src/rpc/connection.cc, connection.h)

    A message (PDU) is a buffer whose first four bytes are reserved for its
    length in network order; [writepdu] fills them in and writes as much as
    the socket takes, [readpdu] reads the length and then as much of the rest
    as there is.  What the system calls return is an argument of the
    routines.

    The theorems: whatever pieces the socket takes, a send that succeeds puts
    exactly the frame of its message on the wire; whatever pieces arrive, the
    receiver hands over the messages sent, in order, each once.  The second
    needs the four bytes of a length to arrive in one piece, which TCP does
    not promise and readpdu assumes. *)

From S2P Require Import Prelude Marshall.

Definition MAX_PDU : Z := Z.shiftl 10 20.

Record charbuf := Charbuf { c_buf : option (list Z); c_sz : Z; c_solong : Z }.
Definition charbuf_new : charbuf := Charbuf None 0 0.

Record connection := Conn {
  dead : bool; wpdu : charbuf; rpdu : charbuf; refno : Z; create_time : Z * Z }.

Definition connection_new (t : Z * Z) : connection := Conn false charbuf_new charbuf_new 1 t.

Definition set_wpdu (p : charbuf) (c : connection) : connection :=
  Conn (dead c) p (rpdu c) (refno c) (create_time c).
Definition set_rpdu (p : charbuf) (c : connection) : connection :=
  Conn (dead c) (wpdu c) p (refno c) (create_time c).
Definition kill (c : connection) : connection :=
  Conn true (wpdu c) (rpdu c) (refno c) (create_time c).

(** What write(2) and read(2) return; [again] says whether errno is EAGAIN. *)
Inductive wres := Wrote (n : Z) | WErr (again : bool).
Inductive rres := Got (bs : list Z) | REof (again : bool) | RErr (again : bool).

(** ** Reference counting *)

Definition incref (c : connection) : connection :=
  Conn (dead c) (wpdu c) (rpdu c) (refno c + 1) (create_time c).

(** The connection, or nothing once it is deleted. *)
Definition decref (c : connection) : outcome (option connection) :=
  let n := refno c - 1 in
  _ ← verify (0 <=? n);
  if (n =? 0) && dead c then
    (* ~connection *)
    _ ← verify (bool_decide (c_buf (wpdu c) = None)); mret None
  else mret (Some (Conn (dead c) (wpdu c) (rpdu c) n (create_time c))).

Definition isdead (c : connection) : bool := dead c.
Definition ref (c : connection) : Z := refno c.
Definition closeconn (c : connection) : connection := if dead c then c else kill c.

Definition compare (c another : connection) : Z :=
  let '(s, u) := create_time c in let '(s', u') := create_time another in
  if s' <? s then 1 else if s <? s' then -1 else if u' <? u then 1 else if u <? u' then -1 else 0.

(** ** Writing *)

(** The status, the buffer and what goes on the wire. *)
Definition writepdu (w : wres) (p : charbuf) : outcome (bool * charbuf * list Z) :=
  _ ← verify (0 <=? c_solong p);
  if c_solong p =? c_sz p then mret (true, p, [])
  else
    match c_buf p with
    | None => Fault OutOfBounds
    | Some b =>
        b ← (if c_solong p =? 0 then store_bytes b 0 (be32 (c_sz p)) else mret b);
        match w with
        | WErr again =>
            mret (again, if again then Charbuf (Some b) (c_sz p) (c_solong p) else Charbuf (Some b) 0 (-1), [])
        | Wrote n =>
            bs ← load_bytes b (c_solong p) (Z.to_nat n);
            mret (true, Charbuf (Some b) (c_sz p) (c_solong p + n), bs)
        end
    end.

(** fd is ready to be written *)
Definition write_cb (w : wres) (c : connection) : outcome (connection * list Z) :=
  _ ← verify (negb (dead c));
  if c_sz (wpdu c) =? 0 then mret (c, [])
  else
    r ← writepdu w (wpdu c);
    let '(ok, p, bs) := r in
    let c := set_wpdu p c in
    if negb ok then mret (kill c, bs)
    else _ ← verify (0 <=? c_solong p); mret (c, bs).

(** The wait in send: callbacks until the message is out or the connection is
    dead; the results of the writes are used up in order. *)
Fixpoint send_wait (ws : list wres) (c : connection) (out : list Z) : outcome (connection * list Z) :=
  if negb (dead c) && (0 <=? c_solong (wpdu c)) && (c_solong (wpdu c) <? c_sz (wpdu c)) then
    match ws with
    | [] => Fault OutOfFuel
    | w :: ws => r ← write_cb w c; send_wait ws (fst r) (out ++ snd r)
    end
  else Done (c, out).

(** send when no other thread is sending *)
Definition send (b : list Z) (sz : Z) (w : wres) (ws : list wres) (c : connection)
    : outcome (connection * bool * list Z) :=
  if dead c then mret (c, false, [])
  else
    r ← writepdu w (Charbuf (Some b) sz 0);
    let '(ok, p, bs) := r in
    let c := set_wpdu p c in
    r ← (if negb ok then mret (kill c, bs)
         else if c_solong p =? c_sz p then mret (c, bs)
         else send_wait ws c bs);
    let '(c, out) := r in
    let ret := negb (dead c) && (c_solong (wpdu c) =? c_sz (wpdu c)) in
    mret (set_wpdu charbuf_new c, ret, out).

(** ** Reading *)

(** [malloc] of a size that cannot be had returns NULL. *)
Definition malloc (n : Z) : option (list Z) :=
  if 2 ^ 47 <? u64 n then None else Some (replicate (Z.to_nat (u64 n)) 0).

Definition be_value (bs : list Z) : Z := le_dec (rev bs).

(** The part of readpdu that reads a length; [None] is [return false]. *)
Definition read_size (r1 : rres) (p : charbuf) : outcome (option charbuf) :=
  match r1 with
  | REof _ => mret None
  | RErr again => _ ← verify (negb again); mret None
  | Got bs =>
      if negb (Z.of_nat (length bs) =? 4) then mret None
      else
        let sz := s32 (be_value bs) in
        if MAX_PDU <? sz then mret None
        else
          _ ← verify (bool_decide (c_buf p = None));
          match malloc (sz + 4) with
          | None => Fault AssertFailed
          | Some b => b ← store_bytes b 0 bs; mret (Some (Charbuf (Some b) sz 4))
          end
  end.

(** The part that reads on. *)
Definition read_more (r2 : rres) (p : charbuf) : outcome (bool * charbuf) :=
  match r2 with
  | Got bs =>
      match c_buf p with
      | None => Fault OutOfBounds
      | Some b =>
          b ← store_bytes b (c_solong p) bs;
          mret (true, Charbuf (Some b) (c_sz p) (c_solong p + Z.of_nat (length bs)))
      end
  | REof again | RErr again => mret (again, if again then p else charbuf_new)
  end.

Definition readpdu (r1 r2 : rres) (p : charbuf) : outcome (bool * charbuf) :=
  q ← (if c_sz p =? 0 then read_size r1 p else mret (Some p));
  match q with
  | None => mret (false, p)
  | Some p => read_more r2 p
  end.

(** The end of read_cb: a complete message goes to the channel manager. *)
Definition hand_over (accept : bool) (c : connection) : connection * option (list Z) :=
  match c_buf (rpdu c) with
  | Some b =>
      if c_sz (rpdu c) =? c_solong (rpdu c) then
        if accept then (set_rpdu charbuf_new c, Some (take (Z.to_nat (c_sz (rpdu c))) b)) else (c, None)
      else (c, None)
  | None => (c, None)
  end.

(** fd is ready to be read; [accept] is what the channel manager answers. *)
Definition read_cb (r1 r2 : rres) (accept : bool) (c : connection)
    : outcome (connection * option (list Z)) :=
  if dead c then mret (c, None)
  else
    r ← (if bool_decide (c_buf (rpdu c) = None) || (c_solong (rpdu c) <? c_sz (rpdu c))
         then readpdu r1 r2 (rpdu c) else mret (true, rpdu c));
    let '(succ, p) := (r : bool * charbuf) in
    let c := set_rpdu p c in
    mret (hand_over accept (if succ then c else kill c)).

(** ** Frames *)

Definition frame (b : list Z) : list Z := be32 (Z.of_nat (length b)) ++ drop 4 b.

Lemma length_frame b : (4 <= length b)%nat -> length (frame b) = length b.
Proof. intros. unfold frame. rewrite length_app, length_drop, length_be32. lia. Qed.

Lemma rev_be32 x : rev (be32 x) = le_enc 4 x.
Proof.
  unfold be32. cbn [rev app le_enc]. rewrite !byte_at_eq by lia. rewrite !Z.div_div by lia.
  by rewrite Z.pow_0_r, Z.div_1_r.
Qed.

Lemma be_value_be32 x : be_value (be32 x) = u32 x.
Proof. unfold be_value. rewrite rev_be32, le_dec_enc. done. Qed.

(** ** Sending *)

(** [p] is in the middle of sending [b0]; [out] went out so far. *)
Definition sending (b0 : list Z) (p : charbuf) (out : list Z) : Prop :=
  c_sz p = Z.of_nat (length b0) /\ 0 <= c_solong p <= c_sz p /\
  out = take (Z.to_nat (c_solong p)) (frame b0) /\
  exists b, c_buf p = Some b /\ length b = length b0 /\ drop 4 b = drop 4 b0 /\
    (c_solong p <> 0 -> b = frame b0).

(** What write(2) can return when [r] bytes are asked for. *)
Definition wres_ok (r : Z) (w : wres) : Prop :=
  match w with Wrote n => 0 <= n <= r | WErr _ => True end.

Definition fails (w : wres) : bool := match w with WErr false => true | _ => false end.
Definition taken (w : wres) : Z := match w with Wrote n => n | WErr _ => 0 end.

Lemma store_header b sz : (4 <= length b)%nat ->
  store_bytes b 0 (be32 sz) = Done (be32 sz ++ drop 4 b).
Proof.
  intros H. unfold store_bytes. rewrite length_be32.
  destruct (Z.leb_spec 0 0); [| lia]. destruct (Z.leb_spec (0 + Z.of_nat 4) (Z.of_nat (length b))); [| lia].
  cbn [andb]. unfold splice. cbn [Z.to_nat take app]. by rewrite length_be32.
Qed.

Lemma writepdu_sending w b0 p out :
  (4 <= length b0)%nat -> sending b0 p out -> c_solong p < c_sz p -> wres_ok (c_sz p - c_solong p) w ->
  exists p' bs, writepdu w p = Done (negb (fails w), p', bs) /\
    if fails w then bs = [] /\ c_solong p' = -1
    else sending b0 p' (out ++ bs) /\ c_solong p' = c_solong p + taken w.
Proof.
  intros Hb (Hsz & Hso & Hout & b & Hbuf & Hlen & Hd & Hfr) Hlt Hw. unfold writepdu.
  destruct (Z.leb_spec 0 (c_solong p)); [| lia]. cbn [verify]. rewrite bind_Done.
  destruct (Z.eqb_spec (c_solong p) (c_sz p)); [lia |]. rewrite Hbuf.
  assert (Hst : (if c_solong p =? 0 then store_bytes b 0 (be32 (c_sz p)) else mret b) = Done (frame b0)).
  { destruct (Z.eqb_spec (c_solong p) 0).
    - rewrite store_header by lia. unfold frame. by rewrite Hd, Hsz.
    - by rewrite Hfr. }
  rewrite Hst, bind_Done. pose proof (length_frame b0 Hb) as Hlf.
  assert (Hdf : drop 4 (frame b0) = drop 4 b0).
  { unfold frame. by rewrite drop_app_length' by (by rewrite length_be32). }
  destruct w as [k|again]; cbn [fails negb taken wres_ok] in *.
  - unfold load_bytes. rewrite Z2Nat.id by lia.
    destruct (Z.leb_spec 0 (c_solong p)); [| lia].
    destruct (Z.leb_spec (c_solong p + k) (Z.of_nat (length (frame b0)))); [| lia].
    cbn [andb]. rewrite bind_Done. eexists _, _. split; [reflexivity |]. split; [| done].
    split_and!; cbn [c_sz c_solong c_buf]; try lia.
    + rewrite Hout. unfold sub. rewrite Z2Nat.inj_add by lia. by rewrite take_take_drop.
    + exists (frame b0). split_and!; auto.
  - destruct again; cbn [negb]; eexists _, _.
    + split; [reflexivity |]. rewrite app_nil_r. split; [| cbn [c_solong]; lia].
      split_and!; cbn [c_sz c_solong c_buf]; try lia; [done |]. exists (frame b0). split_and!; auto.
    + split; [reflexivity |]. done.
Qed.

(** The results of a run of writes, until one fails. *)
Fixpoint run_ok (r : Z) (ws : list wres) : Prop :=
  match ws with
  | [] => True
  | w :: ws => wres_ok r w /\ (fails w = false -> run_ok (r - taken w) ws)
  end.

Lemma send_wait_sending ws b0 c out :
  (4 <= length b0)%nat -> dead c = false -> sending b0 (wpdu c) out ->
  run_ok (c_sz (wpdu c) - c_solong (wpdu c)) ws ->
  match send_wait ws c out with
  | Done (c', out') =>
      exists k, out' = take k (frame b0) /\
        if dead c' then Exists (fun w => fails w = true) ws
        else sending b0 (wpdu c') out' /\ c_solong (wpdu c') = c_sz (wpdu c')
  | Fault f => f = OutOfFuel /\ Forall (fun w => fails w = false) ws /\
      foldr (fun w => Z.add (taken w)) 0 ws < c_sz (wpdu c) - c_solong (wpdu c)
  end.
Proof.
  revert c out. induction ws as [|w ws IH]; intros c out Hb Hdead Hs Hrun; cbn [send_wait];
    pose proof Hs as (Hsz & Hso & Hout & b & Hbuf & _); rewrite Hdead; cbn [negb andb];
    (destruct (Z.leb_spec 0 (c_solong (wpdu c))); [| lia]); cbn [andb];
    destruct (Z.ltb_spec (c_solong (wpdu c)) (c_sz (wpdu c))) as [Hlt|Hge];
    try (eexists; rewrite Hdead; split_and!; [exact Hout | done | lia]).
  - split_and!; [done | done |]. cbn. lia.
  - destruct Hrun as [Hw Hrun].
    destruct (writepdu_sending w b0 (wpdu c) out Hb Hs Hlt Hw) as (p' & bs & Hwr & Hp').
    unfold write_cb. rewrite Hdead. cbn [negb verify]. rewrite bind_Done.
    destruct (Z.eqb_spec (c_sz (wpdu c)) 0); [lia |]. rewrite Hwr, bind_Done, negb_involutive.
    destruct (fails w) eqn:Hf.
    + rewrite bind_Done. cbn [fst snd]. destruct Hp' as [-> _]. rewrite app_nil_r.
      destruct ws; cbn [send_wait kill dead negb andb]; eexists; (split; [exact Hout | by left]).
    + destruct Hp' as [Hp' Hso']. pose proof Hp' as (Hsz' & Hr' & _).
      destruct (Z.leb_spec 0 (c_solong p')); [| lia]. cbn [verify]. rewrite !bind_Done. cbn [fst snd].
      specialize (IH (set_wpdu p' c) (out ++ bs) Hb Hdead Hp'). cbn [wpdu set_wpdu] in IH.
      rewrite Hsz', Hso' in IH. rewrite Hsz in *.
      assert (Hrun' : run_ok (Z.of_nat (length b0) - (c_solong (wpdu c) + taken w)) ws).
      { replace (Z.of_nat (length b0) - (c_solong (wpdu c) + taken w))
          with (Z.of_nat (length b0) - c_solong (wpdu c) - taken w) by lia. auto. }
      specialize (IH Hrun'). destruct (send_wait ws (set_wpdu p' c) (out ++ bs)) as [[c' out']|f].
      { destruct IH as (k & Hk & IH). exists k. split; [done |]. destruct (dead c'); [by right | done]. }
      destruct IH as (-> & Hall & Hsum). split_and!; [done | by constructor |]. cbn [foldr]. lia.
Qed.

(** Whatever pieces of it the socket takes, and however often it asks to
    try again, a send that reports success has put exactly the frame of the
    message on the wire: its length in network order and its bytes.  One that
    reports failure has met a write error, left a prefix of the frame and
    marked the connection dead.  A send does not end otherwise, and it is
    still waiting only as long as the socket has not taken all bytes. *)
Theorem send_writes_frame b w ws c :
  dead c = false -> (4 <= length b)%nat -> run_ok (Z.of_nat (length b)) (w :: ws) ->
  match send b (Z.of_nat (length b)) w ws c with
  | Done (c', true, out) => out = frame b /\ dead c' = false
  | Done (c', false, out) =>
      (exists k, out = take k (frame b)) /\ dead c' = true /\ Exists (fun w => fails w = true) (w :: ws)
  | Fault f => f = OutOfFuel /\ Forall (fun w => fails w = false) (w :: ws) /\
      foldr (fun w => Z.add (taken w)) 0 (w :: ws) < Z.of_nat (length b)
  end.
Proof.
  intros Hdead Hb [Hw Hrun]. unfold send. rewrite Hdead.
  set (p0 := Charbuf (Some b) (Z.of_nat (length b)) 0).
  assert (Hs0 : sending b p0 []).
  { split_and!; cbn; try lia; [done |]. exists b. by split_and!. }
  destruct (writepdu_sending w b p0 [] Hb Hs0) as (p' & bs & Hwr & Hp');
    [cbn; lia | cbn [c_sz c_solong p0]; by rewrite Z.sub_0_r |].
  rewrite Hwr, bind_Done, negb_involutive. destruct (fails w) eqn:Hf.
  - rewrite bind_Done. cbn [kill dead negb andb]. destruct Hp' as [-> _].
    split_and!; [by exists 0%nat | done | by left].
  - destruct Hp' as [Hs Hso]. cbn [app c_solong p0] in *. pose proof Hs as (Hsz & Hr & Hout & _).
    destruct (Z.eqb_spec (c_solong p') (c_sz p')) as [E|E].
    + rewrite bind_Done. cbn [set_wpdu dead wpdu]. rewrite Hdead, E, Z.eqb_refl. cbn [negb andb].
      split; [| done]. rewrite Hout, E, Hsz, Nat2Z.id. apply take_ge. by rewrite length_frame.
    + pose proof (send_wait_sending ws b (set_wpdu p' c) bs Hb Hdead Hs) as H.
      cbn [wpdu set_wpdu] in H. rewrite Hsz, Hso in H.
      replace (Z.of_nat (length b) - (0 + taken w)) with (Z.of_nat (length b) - taken w) in H by lia.
      specialize (H (Hrun eq_refl)). destruct (send_wait ws (set_wpdu p' c) bs) as [[c' out]|f].
      * rewrite bind_Done. destruct H as (k & Hk & H).
        destruct (dead c') eqn:Hd'; cbn [negb andb].
        { split_and!; [by exists k | done | by right]. }
        destruct H as [(Hsz2 & _ & Hout2 & _) Heq]. rewrite Heq, Z.eqb_refl. split; [| done].
        rewrite Hout2, Heq, Hsz2, Nat2Z.id. apply take_ge. by rewrite length_frame.
      * destruct H as (-> & Hall & Hsum). split_and!; [done | by constructor |]. cbn [foldr]. lia.
Qed.

Lemma send_writes_frame_witness :
  exists c' out, send [0; 0; 0; 0; 7; 8] 6 (Wrote 5) [WErr true; Wrote 1] (connection_new (0, 0)) =
    Done (c', true, out) /\ out = frame [0; 0; 0; 0; 7; 8].
Proof.
  eexists _, _. split; [vm_compute; reflexivity |].
  refine (proj1 (send_writes_frame [0; 0; 0; 0; 7; 8] (Wrote 5) [WErr true; Wrote 1] (connection_new (0, 0))
    eq_refl _ _)); simpl; lia.
Defined.

(** ** Receiving *)

Definition option_list {A} (o : option A) : list A := match o with Some a => [a] | None => [] end.

Definition wire_of (ms : list (list Z)) : list Z := mjoin (frame <$> ms).

(** Messages that can be received: more than the length, at most 10 MB. *)
Definition pdu_ok (b : list Z) : Prop := (4 < length b)%nat /\ Z.of_nat (length b) <= MAX_PDU.

Definition complete (p : charbuf) : bool :=
  bool_decide (is_Some (c_buf p)) && (c_solong p =? c_sz p).

(** What the socket may return to a call of read_cb when the bytes [wire] have
    arrived or will arrive, and the bytes left afterwards: a length is read
    in one piece; of the rest the socket returns any non-empty part of what
    is asked for, or nothing for now. *)
Definition arrives (p : charbuf) (wire : list Z) (r1 r2 : rres) (wire' : list Z) : Prop :=
  if complete p then wire' = wire
  else exists hd rest,
    (if c_sz p =? 0 then length hd = 4%nat else hd = []) /\ wire = hd ++ rest /\ r1 = Got hd /\
    let want := if c_sz p =? 0 then s32 (be_value hd) - 4 else c_sz p - c_solong p in
    ((r2 = RErr true /\ wire' = rest) \/
     exists k, r2 = Got (take k rest) /\ (0 < k <= length rest)%nat /\ Z.of_nat k <= want /\ wire' = drop k rest).

Inductive receives (ms : list (list Z)) (t : Z * Z) : connection -> list Z -> list (list Z) -> Prop :=
| rx_start : receives ms t (connection_new t) (wire_of ms) []
| rx_more c wire out r1 r2 accept wire' c' m :
    receives ms t c wire out -> arrives (rpdu c) wire r1 r2 wire' ->
    read_cb r1 r2 accept c = Done (c', m) -> receives ms t c' wire' (out ++ option_list m).

(** Frame [f] is read as far as [p] says. *)
Definition in_frame (f : list Z) (p : charbuf) : Prop :=
  exists b, c_buf p = Some b /\ length b = (length f + 4)%nat /\
    c_sz p = Z.of_nat (length f) /\ 4 <= c_solong p <= c_sz p /\
    take (Z.to_nat (c_solong p)) b = take (Z.to_nat (c_solong p)) (frame f).

(** [done] frames are delivered, the next one is being read. *)
Definition receiving (ms : list (list Z)) (p : charbuf) (wire : list Z) (out : list (list Z)) : Prop :=
  exists done todo, ms = done ++ todo /\ out = frame <$> done /\
  ((p = charbuf_new /\ wire = wire_of todo) \/
   exists f todo', todo = f :: todo' /\ in_frame f p /\
     wire = drop (Z.to_nat (c_solong p)) (frame f) ++ wire_of todo').

Lemma wire_of_cons f ms : wire_of (f :: ms) = frame f ++ wire_of ms.
Proof. reflexivity. Qed.

(** Reading a length starts the next frame. *)
Lemma read_size_done f ms hd rest :
  pdu_ok f -> length hd = 4%nat -> hd ++ rest = wire_of (f :: ms) ->
  hd = be32 (Z.of_nat (length f)) /\ rest = drop 4 (frame f) ++ wire_of ms /\
  exists b, read_size (Got hd) charbuf_new = Done (Some (Charbuf (Some b) (Z.of_nat (length f)) 4)) /\
    length b = (length f + 4)%nat /\ take 4 b = take 4 (frame f).
Proof.
  intros [Hl Hm] Hhd Hw. rewrite wire_of_cons in Hw. unfold frame in Hw. rewrite <- app_assoc in Hw.
  apply app_inj_1 in Hw as [-> ->]; [| by rewrite length_be32].
  assert (Hdf : drop 4 (frame f) = drop 4 f).
  { unfold frame. by rewrite drop_app_length' by (by rewrite length_be32). }
  split; [done |]. split; [by rewrite Hdf |]. unfold read_size. rewrite length_be32.
  change (negb (Z.of_nat 4 =? 4)) with false. cbn iota. rewrite be_value_be32.
  assert (MAX_PDU < 2 ^ 31) by (by vm_compute).
  rewrite u32_id by (unfold is_u32; lia). rewrite s32_id by (unfold is_s32; lia).
  destruct (Z.ltb_spec MAX_PDU (Z.of_nat (length f))); [lia |].
  rewrite bool_decide_true by done. cbn [verify]. rewrite bind_Done. unfold malloc.
  assert (Hu : u64 (Z.of_nat (length f) + 4) = Z.of_nat (length f) + 4) by (apply Z.mod_small; lia).
  rewrite Hu. destruct (Z.ltb_spec (2 ^ 47) (Z.of_nat (length f) + 4)); [lia |].
  rewrite store_header by (rewrite length_replicate; lia). rewrite bind_Done. eexists. split; [done |].
  split; [rewrite length_app, length_be32, length_drop, length_replicate; lia |].
  unfold frame. by rewrite !take_app_length' by (by rewrite length_be32).
Qed.

(** The second read adds to the frame what arrives. *)
Lemma read_rest f ms p rest r2 wire' :
  pdu_ok f -> in_frame f p -> c_solong p < c_sz p -> rest = drop (Z.to_nat (c_solong p)) (frame f) ++ wire_of ms ->
  (r2 = RErr true /\ wire' = rest) \/
  (exists k, r2 = Got (take k rest) /\ (0 < k <= length rest)%nat /\ Z.of_nat k <= c_sz p - c_solong p /\
     wire' = drop k rest) ->
  exists p', read_more r2 p = Done (true, p') /\ in_frame f p' /\
    wire' = drop (Z.to_nat (c_solong p')) (frame f) ++ wire_of ms.
Proof.
  intros [Hf1 Hf2] Hin Hlt Hrest Hr2. unfold read_more. pose proof Hin as (b & Hb & Hlb & Hsz & Hso & Ht).
  destruct Hr2 as [[-> ->]|(k & -> & Hk & Hk2 & ->)]; [by exists p |]. rewrite Hb.
  pose proof (length_frame f ltac:(lia)) as Hlf.
  assert (Htk : take k rest = take k (drop (Z.to_nat (c_solong p)) (frame f))).
  { rewrite Hrest. apply take_app_le. rewrite length_drop. lia. }
  assert (Hlk : length (take k rest) = k) by (rewrite length_take; lia).
  unfold store_bytes. rewrite Hlk.
  destruct (Z.leb_spec 0 (c_solong p)); [| lia].
  destruct (Z.leb_spec (c_solong p + Z.of_nat k) (Z.of_nat (length b))); [| lia].
  cbn [andb]. rewrite bind_Done. eexists. split; [reflexivity |]. cbn [c_solong c_buf c_sz].
  rewrite Z2Nat.inj_add, Nat2Z.id by lia. split.
  - eexists. cbn [c_solong c_buf c_sz]. split; [reflexivity |]. split_and!; auto; try lia.
    + rewrite length_splice; [done |]. rewrite Hlk. lia.
    + rewrite Z2Nat.inj_add, Nat2Z.id by lia. unfold splice.
      rewrite app_assoc, take_app_length' by (rewrite length_app, length_take, Hlk; lia).
      rewrite Ht, Htk. by rewrite take_take_drop.
  - rewrite Hrest. rewrite drop_app_le by (rewrite length_drop; lia). by rewrite drop_drop.
Qed.

Lemma in_frame_complete f p b :
  pdu_ok f -> in_frame f p -> c_buf p = Some b -> c_sz p = c_solong p ->
  take (Z.to_nat (c_sz p)) b = frame f.
Proof.
  intros [Hf _] (b' & Hb' & _ & Hsz & _ & Ht) Hb He. rewrite Hb' in Hb. injection Hb as ->.
  rewrite He, Ht, <- He, Hsz, Nat2Z.id. apply take_ge. rewrite length_frame; lia.
Qed.

(** Handing over a complete frame, or keeping an incomplete one. *)
Lemma offer_frame ms done f todo c p (accept : bool) wire :
  Forall pdu_ok ms -> ms = done ++ f :: todo -> dead c = false -> in_frame f p ->
  wire = drop (Z.to_nat (c_solong p)) (frame f) ++ wire_of todo ->
  exists c' m, hand_over accept (set_rpdu p c) = (c', m) /\ dead c' = false /\
    receiving ms (rpdu c') wire ((frame <$> done) ++ option_list m).
Proof.
  intros Hall Hms Hd Hin Hw. pose proof Hin as (b & Hb & Hlb & Hsz & Hso & _).
  unfold hand_over. cbn [rpdu set_rpdu]. rewrite Hb.
  assert (Hf : pdu_ok f) by (rewrite Forall_forall in Hall; apply Hall; rewrite Hms; apply elem_of_app; right; left).
  assert (Hkeep : receiving ms p wire ((frame <$> done) ++ option_list None)).
  { exists done, (f :: todo). split_and!; auto; [by rewrite app_nil_r |]. right. by exists f, todo. }
  destruct (Z.eqb_spec (c_sz p) (c_solong p)) as [E|E]; [destruct accept |].
  - eexists _, _. split; [reflexivity |]. split; [done |]. exists (done ++ [f]), todo.
    split_and!; [by rewrite <- app_assoc | |].
    + cbn [option_list]. rewrite fmap_app. cbn [fmap list_fmap].
      by rewrite (in_frame_complete f p b).
    + left. split; [done |]. rewrite Hw, <- E, Hsz, Nat2Z.id.
      rewrite drop_ge; [done |]. destruct Hf. rewrite length_frame; lia.
  - eexists _, _. by split_and!.
  - eexists _, _. by split_and!.
Qed.

Lemma read_cb_receiving ms c wire out r1 r2 accept wire' :
  Forall pdu_ok ms -> dead c = false -> receiving ms (rpdu c) wire out ->
  arrives (rpdu c) wire r1 r2 wire' ->
  exists c' m, read_cb r1 r2 accept c = Done (c', m) /\ dead c' = false /\
    receiving ms (rpdu c') wire' (out ++ option_list m).
Proof.
  intros Hall Hd (done & todo & Hms & -> & Hcase) Harr. unfold read_cb. rewrite Hd. cbn iota.
  unfold arrives in Harr. destruct Hcase as [[Hp Hw]|(f & todo' & -> & Hin & Hw)].
  - rewrite Hp in *. change (complete charbuf_new) with false in Harr. cbn [charbuf_new c_buf c_sz c_solong] in *.
    cbn [Z.eqb] in Harr.
    destruct Harr as (hd & rest & Hhd & Hwire & -> & Hr2).
    destruct todo as [|f todo'].
    { rewrite Hw in Hwire. destruct hd; [done | discriminate Hwire]. }
    assert (Hf : pdu_ok f) by (rewrite Forall_forall in Hall; apply Hall; rewrite Hms; apply elem_of_app; right; left).
    destruct (read_size_done f todo' hd rest Hf Hhd) as (Hh & Hrest & b & Hrs & Hlb & Htb); [congruence |].
    rewrite bool_decide_true by done. cbn [orb]. unfold readpdu.
    change (c_sz charbuf_new =? 0) with true. cbn iota. rewrite Hrs, bind_Done.
    set (p1 := Charbuf (Some b) (Z.of_nat (length f)) 4). destruct Hf as [Hf1 Hf2].
    assert (Hin1 : in_frame f p1).
    { exists b. split_and!; auto; cbn [p1 c_sz c_solong]; lia. }
    assert (Hsz : s32 (be_value hd) = Z.of_nat (length f)).
    { rewrite Hh, be_value_be32. assert (MAX_PDU < 2 ^ 31) by (by vm_compute).
      rewrite u32_id by (unfold is_u32; lia). apply s32_id. unfold is_s32. lia. }
    rewrite Hsz in Hr2.
    destruct (read_rest f todo' p1 rest r2 wire') as (p' & Hrd & Hin' & Hw'); auto; [split; auto | cbn; lia |].
    rewrite Hrd, bind_Done.
    destruct (offer_frame ms done f todo' c p' accept wire') as (c' & m & Ho & H); auto.
    exists c', m. split; [| done]. by rewrite Ho.
  - assert (Hf : pdu_ok f) by (rewrite Forall_forall in Hall; apply Hall; rewrite Hms; apply elem_of_app; right; left).
    pose proof Hin as (b & Hb & Hlb & Hsz & Hso & _). unfold complete in Harr. rewrite Hb in Harr |- *.
    rewrite bool_decide_true in Harr by (by eexists). rewrite bool_decide_false by done. cbn [andb orb] in *.
    destruct (Z.eqb_spec (c_solong (rpdu c)) (c_sz (rpdu c))) as [E|E].
    + subst wire'. destruct (Z.ltb_spec (c_solong (rpdu c)) (c_sz (rpdu c))); [lia |].
      rewrite bind_Done.
      destruct (offer_frame ms done f todo' c (rpdu c) accept wire) as (c' & m & Ho & H'); auto.
      exists c', m. split; [| done]. by rewrite Ho.
    + destruct (Z.ltb_spec (c_solong (rpdu c)) (c_sz (rpdu c))); [| lia].
      destruct Harr as (hd & rest & Hhd & Hwire & -> & Hr2).
      destruct (Z.eqb_spec (c_sz (rpdu c)) 0); [lia |]. subst hd. cbn [app] in Hwire.
      destruct (read_rest f todo' (rpdu c) rest r2 wire') as (p' & Hrd & Hin' & Hw'); auto; [congruence |].
      unfold readpdu. destruct (Z.eqb_spec (c_sz (rpdu c)) 0); [lia |]. rewrite bind_Done, Hrd, bind_Done.
      destruct (offer_frame ms done f todo' c p' accept wire') as (c' & m & Ho & H'); auto.
      exists c', m. split; [| done]. by rewrite Ho.
Qed.

Lemma receives_receiving ms t c wire out :
  Forall pdu_ok ms -> receives ms t c wire out -> dead c = false /\ receiving ms (rpdu c) wire out.
Proof.
  intros Hall. induction 1 as [|c wire out r1 r2 accept wire' c' m _ [Hd Hr] Harr Hcb].
  - split; [done |]. exists [], ms. split_and!; auto.
  - destruct (read_cb_receiving ms c wire out r1 r2 accept wire' Hall Hd Hr Harr) as (c1 & m1 & H & H1 & H2).
    rewrite Hcb in H. by injection H as <- <-.
Qed.

(** A length that arrives in pieces ends the connection. *)
Lemma split_length hd r2 accept c :
  dead c = false -> rpdu c = charbuf_new -> length hd <> 4%nat -> read_cb (Got hd) r2 accept c = Done (kill c, None).
Proof.
  intros Hd Hp Hl. unfold read_cb. rewrite Hd, Hp. cbn [charbuf_new c_buf]. rewrite bool_decide_true by done. cbn [orb].
  unfold readpdu. change (c_sz charbuf_new =? 0) with true. cbn iota. unfold read_size.
  rewrite (proj2 (Z.eqb_neq (Z.of_nat (length hd)) 4)) by lia. cbn. destruct c. cbn in *. by subst.
Qed.

(** C35: when the four bytes of each length arrive in one piece, however the
    other bytes of a sequence of frames arrive (in pieces of any size, with
    callbacks that find nothing) and however often the manager refuses a message
    for the moment, read_cb never fails, the connection stays alive, and the
    messages handed over are the ones sent, in order, each once; when all bytes
    are used up all of them have been handed over.  A length of which only a
    part can be read ends the connection, without another message. *)
Theorem receiver_delivers ms t c wire out :
  Forall pdu_ok ms -> receives ms t c wire out ->
  dead c = false /\ (exists n, out = frame <$> take n ms) /\
  (wire = [] -> c_buf (rpdu c) = None -> out = frame <$> ms) /\
  (forall r1 r2 accept wire', arrives (rpdu c) wire r1 r2 wire' ->
    exists c' m, read_cb r1 r2 accept c = Done (c', m)) /\
  (rpdu c = charbuf_new -> forall hd r2 accept, (length hd < 4)%nat -> read_cb (Got hd) r2 accept c = Done (kill c, None)).
Proof.
  intros Hall Hr. destruct (receives_receiving ms t c wire out Hall Hr) as [Hd Hrec].
  split; [done |]. split_and!.
  - destruct Hrec as (done & todo & -> & -> & _). exists (length done). by rewrite take_app_length.
  - intros -> Hb. destruct Hrec as (done & todo & -> & -> & Hcase).
    destruct Hcase as [[_ Hw]|(f & todo' & _ & (b & Hb' & _) & _)]; [| congruence].
    destruct todo as [|f todo]; [by rewrite app_nil_r |]. rewrite wire_of_cons in Hw. discriminate Hw.
  - intros r1 r2 accept wire' Harr.
    destruct (read_cb_receiving ms c wire out r1 r2 accept wire' Hall Hd Hrec Harr) as (c' & m & H & _). eauto.
  - intros Hp hd r2 accept Hl. apply split_length; [done | done | lia].
Qed.

(** A length with the sign bit set is not rejected: the comparison with
    MAX_PDU is signed, malloc is asked for a wrapped size and the process
    stops at the VERIFY behind it. *)
Theorem negative_length_aborts hd r2 accept c :
  dead c = false -> rpdu c = charbuf_new -> length hd = 4%nat -> s32 (be_value hd) < -4 ->
  read_cb (Got hd) r2 accept c = Fault AssertFailed.
Proof.
  intros Hd Hp Hl Hneg. unfold read_cb. rewrite Hd, Hp. cbn [charbuf_new c_buf].
  rewrite bool_decide_true by done. cbn [orb]. unfold readpdu.
  change (c_sz charbuf_new =? 0) with true. cbn iota. unfold read_size.
  rewrite Hl. change (negb (Z.of_nat 4 =? 4)) with false. cbn iota.
  assert (0 < MAX_PDU) by (by vm_compute).
  destruct (Z.ltb_spec MAX_PDU (s32 (be_value hd))); [lia |].
  cbn [c_buf]. rewrite bool_decide_true by done. cbn [verify]. rewrite bind_Done. unfold malloc.
  pose proof (wrap_signed_range 32 (be_value hd) ltac:(lia)) as Hr. fold (s32 (be_value hd)) in Hr.
  change (2 ^ (32 - 1)) with (2 ^ 31) in Hr.
  assert (Hu : u64 (s32 (be_value hd) + 4) = s32 (be_value hd) + 4 + 2 ^ 64)
    by (symmetry; apply Z.mod_unique with (-1); lia).
  rewrite Hu. destruct (Z.ltb_spec (2 ^ 47) (s32 (be_value hd) + 4 + 2 ^ 64)); [done | lia].
Qed.

Lemma negative_length_aborts_witness :
  read_cb (Got [255; 0; 0; 0]) (RErr true) true (connection_new (0, 0)) = Fault AssertFailed.
Proof.
  apply negative_length_aborts; [reflexivity | reflexivity | reflexivity |]. vm_compute. reflexivity.
Defined.

Lemma receiver_delivers_witness :
  exists c, receives [[0; 0; 0; 0; 7]] (0, 0) c [] [[0; 0; 0; 5; 7]] /\
    dead c = false /\ [[0; 0; 0; 5; 7]] = frame <$> [[0; 0; 0; 0; 7]].
Proof.
  assert (Hr : receives [[0; 0; 0; 0; 7]] (0, 0) (connection_new (0, 0)) [] [[0; 0; 0; 5; 7]]).
  { apply (rx_more _ _ _ _ [] (Got [0; 0; 0; 5]) (Got [7]) true [] _ (Some [0; 0; 0; 5; 7]) (rx_start _ _)).
    - exists [0; 0; 0; 5], [7]. split; [reflexivity |]. split; [reflexivity |]. split; [reflexivity |].
      right. exists 1%nat. split; [reflexivity |]. split; [simpl; lia |]. split; [vm_compute; discriminate | reflexivity].
    - vm_compute. reflexivity. }
  exists (connection_new (0, 0)). split; [exact Hr |].
  destruct (receiver_delivers [[0; 0; 0; 0; 7]] (0, 0) (connection_new (0, 0)) [] [[0; 0; 0; 5; 7]])
    as (Hd & _ & Hall & _).
  - constructor; [| constructor]. split; [simpl; lia | vm_compute; discriminate].
  - exact Hr.
  - split; [exact Hd |]. apply Hall; reflexivity.
Defined.
