(* ===== verification/RpcServer.v ===== *)
(** * The RPC server endpoint (src/rpc/rpc.cc, src/rpc/rpc.h: class rpcs)

    A request that arrives becomes a job of the server's thread pool, which
    runs rpcs::dispatch: it unpacks the header, refuses requests meant for an
    earlier server, looks up the procedure, remembers the connection, consults
    the reply window of the client (RpcWindow.v), runs the procedure if the
    request is new, records the reply and sends it, or answers from the window.
    Many jobs run at once.  [job_step] is the part of dispatch between two
    points where a thread takes or gives up a mutex, or a step of its handler;
    [serving] are the states that jobs reach in any order.

    Handlers are programs ([hprog]): their steps read and change the
    application's state, they can wait until a step is possible, and they can
    ask the surroundings for a number, such as the result of a call they make
    themselves.  Connections are named by their number; whether one is dead and
    when it was created are arguments.

    [executed] is a record for the theorems: the requests whose handler is
    started, those of at-most-once clients when the window says that they are
    new, those of other clients (whose nonce is 0) when the handler begins. *)

From S2P Require Import Prelude Marshall RpcWindow.
Import Server.
#[local] Set Warnings "-register-all".

(** class rpc_const *)
Definition bind : Z := 1.
Definition timeout_failure : Z := -1.
Definition unmarshal_args_failure : Z := -2.
Definition unmarshal_reply_failure : Z := -3.
Definition atmostonce_failure : Z := -4.
Definition oldsrv_failure : Z := -5.
Definition bind_failure : Z := -6.
Definition cancel_failure : Z := -7.

(** ** Handlers *)

(** A program over a state of type [A]: it has ended, or goes on with a step on
    the state ([None] when it has to wait), or with a number from outside. *)
Inductive hprog (A B : Type) :=
| HRet (b : B)
| HStep (f : A -> outcome (option (A * hprog A B)))
| HEnv (k : Z -> hprog A B).
Arguments HRet {A B}. Arguments HStep {A B}. Arguments HEnv {A B}.

Fixpoint hmap {A B C} (g : B -> C) (p : hprog A B) : hprog A C :=
  match p with
  | HRet b => HRet (g b)
  | HStep f => HStep (fun a => match f a with
                               | Done (Some (a', p')) => Done (Some (a', hmap g p'))
                               | Done None => Done None
                               | Fault e => Fault e
                               end)
  | HEnv k => HEnv (fun z => hmap g (k z))
  end.

(** A method that runs under one mutex from its beginning to its end. *)
Definition atomically {A Y} (m : A -> outcome (A * Y * Z)) : hprog A (Y * Z) :=
  HStep (fun a => r ← m a; let '(a', y, b) := r in mret (Some (a', HRet (y, b)))).

(** The program ends with [b] after the steps [tr]: pairs of the state before
    and after each. *)
Inductive hexec {A B} : hprog A B -> list (A * A) -> B -> Prop :=
| hx_ret b : hexec (HRet b) [] b
| hx_step f a a' p tr b : f a = Done (Some (a', p)) -> hexec p tr b -> hexec (HStep f) ((a, a') :: tr) b
| hx_env k z tr b : hexec (k z) tr b -> hexec (HEnv k) tr b.

Lemma hexec_map {A B C} (g : B -> C) (p : hprog A B) tr c :
  hexec (hmap g p) tr c -> exists b, c = g b /\ hexec p tr b.
Proof.
  remember (hmap g p) as q eqn:Hq. intros H. revert p Hq.
  induction H as [b|f a a' p' tr b Hf _ IH|k z tr b _ IH]; intros [b0|f0|k0] Hq; try done; cbn [hmap] in Hq; injection Hq as ->.
  - exists b0. split; [done | constructor].
  - destruct (f0 a) as [[[a1 p1]|]|] eqn:E; [| done | done]. injection Hf as -> <-.
    destruct (IH p1 eq_refl) as (b1 & -> & Hx). exists b1. split; [done |]. by eapply hx_step.
  - destruct (IH (k0 z) eq_refl) as (b1 & -> & Hx). exists b1. split; [done |]. by eapply hx_env.
Qed.

Lemma hexec_atomically {A Y} (m : A -> outcome (A * Y * Z)) tr y b :
  hexec (atomically m) tr (y, b) -> exists a a', tr = [(a, a')] /\ m a = Done (a', y, b).
Proof.
  intros H. inversion H as [|f a a' p tr' b' Hf Hp|]; subst. apply bind_Done_inv in Hf as ([[a1 y1] b1] & Hm & Hf).
  injection Hf as -> <-. inversion Hp; subst. by exists a, a'.
Qed.

(** Every step keeps [Inv] and every result satisfies [Q]. *)
Inductive hsafe {A B} (Inv : A -> Prop) (Q : B -> Prop) : hprog A B -> Prop :=
| hs_ret b : Q b -> hsafe Inv Q (HRet b)
| hs_step f : (forall a a' p, Inv a -> f a = Done (Some (a', p)) -> Inv a') ->
    (forall a a' p, Inv a -> f a = Done (Some (a', p)) -> hsafe Inv Q p) -> hsafe Inv Q (HStep f)
| hs_env k : (forall z, hsafe Inv Q (k z)) -> hsafe Inv Q (HEnv k).

Lemma hsafe_map {A B C} (Inv : A -> Prop) (Q : B -> Prop) (R : C -> Prop) (g : B -> C) p :
  hsafe Inv Q p -> (forall b, Q b -> R (g b)) -> hsafe Inv R (hmap g p).
Proof.
  intros Hp Hg. induction Hp as [b Hb|f Hi Hs IH|k Hk IH]; cbn [hmap]; constructor; auto.
  - intros a a' p Ha Hf. destruct (f a) as [[[a1 p1]|]|] eqn:E; [| done | done]. injection Hf as <- <-. by eapply Hi.
  - intros a a' p Ha Hf. destruct (f a) as [[[a1 p1]|]|] eqn:E; [| done | done]. injection Hf as <- <-. by eapply IH.
Qed.

Lemma hsafe_atomically {A Y} (Inv : A -> Prop) (Q : Y * Z -> Prop) (m : A -> outcome (A * Y * Z)) :
  (forall a a' y b, Inv a -> m a = Done (a', y, b) -> Inv a' /\ Q (y, b)) -> hsafe Inv Q (atomically m).
Proof.
  intros H. unfold atomically. constructor; intros a a' p Ha Hf; apply bind_Done_inv in Hf as ([[a1 y] b] & Hm & Hf);
    injection Hf as <- <-; destruct (H a a1 y b Ha Hm); [done | by constructor].
Qed.

(** handler::fn: the arguments, the reply so far. *)
Definition handler (A : Type) : Type := unmarshall -> marshall -> hprog A (outcome (marshall * Z)).

Record rpcs (A : Type) := Rpcs {
  nonce_ : Z;
  procs_ : gmap Z (handler A);
  reply_window_ : gmap Z (list reply_t);
  conns_ : gmap Z Z;              (* client nonce -> latest connection *)
  refs : gmap Z Z;                (* references held on connections *)
  counting_ : Z; curr_counts_ : Z; counts_ : gmap Z Z;
  app : A;
  executed : list (Z * Z)         (* (client nonce, xid) *)
}.
Arguments Rpcs {A}. Arguments nonce_ {A}. Arguments procs_ {A}. Arguments reply_window_ {A}.
Arguments conns_ {A}. Arguments refs {A}. Arguments counting_ {A}. Arguments curr_counts_ {A}.
Arguments counts_ {A}. Arguments app {A}. Arguments executed {A}.

(** A connection as dispatch sees it. *)
Record conn_view := ConnView { cv_dead : bool; cv_time : Z * Z }.

Definition compare_time (a b : Z * Z) : Z :=
  if fst b <? fst a then 1 else if fst a <? fst b then -1
  else if snd b <? snd a then 1 else if snd a <? snd b then -1 else 0.

Section server.
Context {A : Type}.
Variable fill : nat -> Z.
Abbreviation rpcs := (rpcs A).

Definition with_window (w : gmap Z (list reply_t)) (s : rpcs) : rpcs :=
  Rpcs (nonce_ s) (procs_ s) w (conns_ s) (refs s) (counting_ s) (curr_counts_ s) (counts_ s) (app s) (executed s).
Definition with_refs (r : gmap Z Z) (s : rpcs) : rpcs :=
  Rpcs (nonce_ s) (procs_ s) (reply_window_ s) (conns_ s) r (counting_ s) (curr_counts_ s) (counts_ s) (app s) (executed s).
Definition with_conns (m : gmap Z Z) (s : rpcs) : rpcs :=
  Rpcs (nonce_ s) (procs_ s) (reply_window_ s) m (refs s) (counting_ s) (curr_counts_ s) (counts_ s) (app s) (executed s).
Definition with_counts (cur : Z) (m : gmap Z Z) (s : rpcs) : rpcs :=
  Rpcs (nonce_ s) (procs_ s) (reply_window_ s) (conns_ s) (refs s) (counting_ s) cur m (app s) (executed s).
Definition with_app (a : A) (s : rpcs) : rpcs :=
  Rpcs (nonce_ s) (procs_ s) (reply_window_ s) (conns_ s) (refs s) (counting_ s) (curr_counts_ s) (counts_ s) a (executed s).
Definition with_executed (ex : list (Z * Z)) (s : rpcs) : rpcs :=
  Rpcs (nonce_ s) (procs_ s) (reply_window_ s) (conns_ s) (refs s) (counting_ s) (curr_counts_ s) (counts_ s) (app s) ex.

Definition refcount (c : Z) (s : rpcs) : Z := default 0 (refs s !! c).
Definition incref (c : Z) (s : rpcs) : rpcs := with_refs (<[c := refcount c s + 1]> (refs s)) s.
Definition decref (c : Z) (s : rpcs) : outcome rpcs :=
  _ ← verify (0 <=? refcount c s - 1);
  mret (with_refs (<[c := refcount c s - 1]> (refs s)) s).

Definition window (n : Z) (s : rpcs) : list reply_t := default [] (reply_window_ s !! n).

(** ** Registration *)

Definition reg1 (proc : Z) (h : handler A) (s : rpcs) : outcome rpcs :=
  _ ← verify (bool_decide (procs_ s !! proc = None));
  mret (Rpcs (nonce_ s) (<[proc := h]> (procs_ s)) (reply_window_ s) (conns_ s) (refs s) (counting_ s)
             (curr_counts_ s) (counts_ s) (app s) (executed s)).

(** The handler that [reg] makes of a method: it reads the arguments, runs the
    method and writes its result.  Several arguments are read one after the
    other, as [cd_pair] does. *)
Definition reg_fn {X Y} (cx : codec X) (cy : codec Y) (meth : X -> hprog A (Y * Z)) : handler A :=
  fun args ret =>
    match c_get cx args with
    | Fault e => HRet (Fault e)
    | Done r =>
        if negb (okdone (fst r)) then HRet (Done (ret, unmarshal_args_failure))
        else hmap (fun yb => ret ← c_put cy fill (fst yb) ret; mret (ret, snd yb)) (meth (snd r))
    end.

Definition reg {X Y} (proc : Z) (cx : codec X) (cy : codec Y) (meth : X -> hprog A (Y * Z)) (s : rpcs)
    : outcome rpcs := reg1 proc (reg_fn cx cy meth) s.

(** The reserved procedure: returns the server's nonce. *)
Definition rpcbind (nonce : Z) (_ : Z) : hprog A (Z * Z) := HRet (s32 nonce, 0).

Definition rpcs_new (nonce count : Z) (a : A) : outcome rpcs :=
  reg bind cd_int cd_int (rpcbind nonce) (Rpcs nonce ∅ ∅ ∅ ∅ count count ∅ a []).

(** ** Statistics *)

Definition updatestat (proc : Z) (s : rpcs) : rpcs :=
  let counts := <[proc := default 0 (counts_ s !! proc) + 1]> (counts_ s) in
  let cur := curr_counts_ s - 1 in
  with_counts (if cur =? 0 then counting_ s else cur) counts s.

Definition free_reply_window (s : rpcs) : rpcs := with_window ∅ s.

(** ** dispatch *)

(** [c->send(rep.cstr(), rep.size())] *)
Definition message (m : marshall) : outcome (list Z) :=
  b ← buf_of m; load_bytes b 0 (Z.to_nat (m_ind m)).

Definition bare_reply (h : reply_header) : outcome (list Z) :=
  m ← marshall_new fill; m ← pack_reply_header fill h m; message m.

(** "save the latest good connection to the client" *)
Definition save_conn (view : Z -> conn_view) (n c : Z) (s : rpcs) : outcome rpcs :=
  match conns_ s !! n with
  | None => mret (with_conns (<[n := c]> (conns_ s)) (incref c s))
  | Some c0 =>
      if compare_time (cv_time (view c0)) (cv_time (view c)) <? 0
      then s ← decref c0 s; mret (with_conns (<[n := c]> (conns_ s)) (incref c s))
      else mret s
  end.

(** What dispatch has found out about its request. *)
Record disp := Disp { d_conn : Z; d_head : req_header; d_req : unmarshall; d_fn : handler A }.

Definition d_nonce (d : disp) : Z := q_clt_nonce (d_head d).
Definition d_xid (d : disp) : Z := u32 (q_xid (d_head d)).
Definition on_conn (c : Z) (d : disp) : disp := Disp c (d_head d) (d_req d) (d_fn d).

(** The bytes to send: a buffer of the thread's own, or a pointer to the one in
    the window of client [n] for the request [x], which nobody changes before it
    is freed. *)
Inductive buffer := Own (b : list Z) (sz : Z) | Recorded (n x : Z) (b : list Z) (sz : Z).

(** Where a thread is in dispatch. *)
Inductive phase :=
| PWindow                                  (* "have i seen this client before?" *)
| PConn                                    (* "save the latest good connection to the client" *)
| PCheck                                   (* checkduplicate_and_update *)
| PNew                                     (* case NEW *)
| PRun (log : list (A * A)) (p : hprog A (outcome (marshall * Z)))
| PAdd (b : list Z) (sz : Z)               (* add_reply *)
| PChoose (src : buffer)                   (* "get the latest connection to the client" *)
| PSend (src : buffer)
| PLeave.                                  (* c->decref() *)

Inductive job := Queued (c : Z) (buf : list Z) (sz : Z) | Working (d : disp) (ph : phase).

(** The window still has the reply of a request. *)
Definition recorded (x : Z) (l : list reply_t) : bool := existsb (fun r => (r_xid r =? x) && cb_present r) l.

(** What [c->send(b1, sz1)] reads: the buffer of the window may have been
    freed. *)
Definition read_buffer (src : buffer) (s : rpcs) : outcome (list Z) :=
  match src with
  | Own b sz => load_bytes b 0 (Z.to_nat sz)
  | Recorded n x b sz => if recorded x (window n s) then load_bytes b 0 (Z.to_nat sz) else Fault OutOfBounds
  end.

(** The state, the job if it is not over, and what is sent on which
    connection. *)
Definition result : Type := rpcs * option job * list (Z * list Z).

(** Up to the lookup of the procedure. *)
Definition enter (c : Z) (buf : list Z) (sz : Z) (s : rpcs) : outcome result :=
  r ← unpack_req_header (unmarshall_new buf sz);
  let '(req, h) := r in
  if negb (u_ok req) then s ← decref c s; mret (s, None, [])
  else if negb (q_srv_nonce h =? 0) && negb (q_srv_nonce h =? nonce_ s) then
    bytes ← bare_reply (ReplyHeader (q_xid h) oldsrv_failure);
    mret (s, None, [(c, bytes)])                   (* returns without decref *)
  else
    match procs_ s !! q_proc h with
    | None => Fault AssertFailed
    | Some f => mret (s, Some (Working (Disp c h req f) (if q_clt_nonce h =? 0 then PNew else PWindow)), [])
    end.

(** The answer of the window. *)
Definition check (d : disp) (s : rpcs) : outcome (rpcs * phase) :=
  let n := d_nonce d in
  r ← checkduplicate_and_update (d_xid d) (u32 (q_xid_rep (d_head d))) (window n s);
  let s := with_window (<[n := snd r]> (reply_window_ s)) s in
  match fst r with
  | NEW => mret (with_executed ((n, d_xid d) :: executed s) s, PNew)
  | INPROGRESS => mret (s, PLeave)
  | DONE b1 sz1 => mret (s, PSend (Recorded n (d_xid d) b1 sz1))
  | FORGOTTEN =>
      bytes ← bare_reply (ReplyHeader (q_xid (d_head d)) atmostonce_failure);
      mret (s, PSend (Own bytes (Z.of_nat (length bytes))))
  end.

(** Behind [f->fn(req, rep)]. *)
Definition finish (d : disp) (o : outcome (marshall * Z)) : outcome phase :=
  r ← o;
  let '(rep, ret) := r in
  _ ← verify (negb (ret =? unmarshal_args_failure));
  _ ← verify (0 <=? ret);
  rep ← pack_reply_header fill (ReplyHeader (q_xid (d_head d)) ret) rep;
  let '(b1, sz1, _) := m_take_buf rep in
  match b1 with Some b1 => mret (PAdd b1 sz1) | None => Fault OutOfBounds end.

Definition work (view : Z -> conn_view) (z : Z) (d : disp) (ph : phase) (s : rpcs) : outcome (option result) :=
  let n := d_nonce d in
  let c := d_conn d in
  let go s ph := mret (Some (s, Some (Working d ph), [])) in
  match ph with
  | PWindow =>
      go (match reply_window_ s !! n with
          | None => with_window (<[n := []]> (reply_window_ s)) s
          | Some _ => s
          end) PConn
  | PConn => s ← save_conn view n c s; go s PCheck
  | PCheck => r ← check d s; go (fst r) (snd r)
  | PNew =>
      rep ← marshall_new fill;
      let s := if n =? 0 then with_executed ((n, d_xid d) :: executed s) s else s in
      go (if counting_ s =? 0 then s else updatestat (q_proc (d_head d)) s) (PRun [] (d_fn d (d_req d) rep))
  | PRun log (HRet o) => ph ← finish d o; go s ph
  | PRun log (HStep f) =>
      r ← f (app s);
      match r with
      | None => mret None
      | Some (a, p) => go (with_app a s) (PRun (log ++ [(app s, a)]) p)
      end
  | PRun log (HEnv k) => go s (PRun log (k z))
  | PAdd b sz =>
      if 0 <? n
      then l ← add_reply (d_xid d) b sz (window n s);
           go (with_window (<[n := l]> (reply_window_ s)) s) (PChoose (Recorded n (d_xid d) b sz))
      else go s (PChoose (Own b sz))
  | PChoose src =>
      if cv_dead (view c) && negb (bool_decide (conns_ s !! n = Some c))
      then s ← decref c s;
           match conns_ s !! n with
           | Some c' => mret (Some (incref c' s, Some (Working (on_conn c' d) (PSend src)), []))
           | None => Fault OutOfBounds             (* conns_[n] is a null pointer *)
           end
      else go s (PSend src)
  | PSend src =>
      bytes ← read_buffer src s;
      mret (Some (s, Some (Working d PLeave), [(c, bytes)]))
  | PLeave => s ← decref c s; mret (Some (s, None, []))
  end.

(** One step of a job; [None] when its handler waits. *)
Definition job_step (view : Z -> conn_view) (z : Z) (j : job) (s : rpcs) : outcome (option result) :=
  match j with
  | Queued c buf sz => r ← enter c buf sz s; mret (Some r)
  | Working d ph => work view z d ph s
  end.

(** got_pdu: [succ] says whether the pool took the job; [reachable_] is read
    twice.  The state, the result and whether the job is queued. *)
Definition got_pdu (reachable reachable' succ : bool) (c : Z) (s : rpcs) : outcome (rpcs * bool * bool) :=
  if negb reachable then mret (s, true, false)
  else
    let s := incref c s in
    s ← (if negb succ || negb reachable' then decref c s else mret s);
    mret (s, succ, succ).

(** A message that a reachable server takes. *)
Definition take_pdu (c : Z) (s : rpcs) : rpcs := incref c s.

Lemma take_pdu_got c s : got_pdu true true true c s = Done (take_pdu c s, true, true).
Proof. reflexivity. Qed.

(** ** References *)

Definition held (c : Z) (m : gmap Z Z) : nat := size (filter (fun p => snd p = c) m).

Lemma held_insert c n c' m :
  m !! n = None -> held c (<[n := c']> m) = (held c m + if decide (c' = c) then 1 else 0)%nat.
Proof.
  intros Hn. unfold held. case_decide as H.
  - rewrite map_filter_insert_True by done. rewrite map_size_insert_None; [lia |].
    apply map_lookup_filter_None. by left.
  - rewrite map_filter_insert_False by done. rewrite delete_id by done. lia.
Qed.

Lemma held_delete c n c' m :
  m !! n = Some c' -> held c m = (held c (delete n m) + if decide (c' = c) then 1 else 0)%nat.
Proof.
  intros Hn. rewrite <- (insert_delete_id m n c' Hn) at 1. rewrite held_insert by apply lookup_delete_eq.
  done.
Qed.

(** Every connection has the references of [conns_] and those of [extra]. *)
Definition refs_ok (extra : Z -> Z) (s : rpcs) : Prop :=
  forall c, Z.of_nat (held c (conns_ s)) + extra c <= refcount c s.

Definition one (c : Z) : Z -> Z := fun c' => if decide (c' = c) then 1 else 0.

(** The references of jobs. *)
Definition job_conn (j : job) : Z := match j with Queued c _ _ => c | Working d _ => d_conn d end.

Fixpoint job_refs (js : list job) : Z -> Z :=
  fun c => match js with [] => 0 | j :: js => one (job_conn j) c + job_refs js c end.

Lemma job_refs_app js js' c : job_refs (js ++ js') c = job_refs js c + job_refs js' c.
Proof. induction js as [|j js IH]; [done |]. cbn [Datatypes.app job_refs]. rewrite IH. lia. Qed.

Lemma job_refs_nonneg js c : 0 <= job_refs js c.
Proof. induction js as [|j js IH]; cbn [job_refs]; [lia |]. unfold one. case_decide; lia. Qed.

(** A reference on [c] besides [extra]. *)
Definition plus (c : Z) (extra : Z -> Z) : Z -> Z := fun c' => one c c' + extra c'.

Lemma refcount_incref c c' s : refcount c' (incref c s) = refcount c' s + one c c'.
Proof.
  unfold refcount, incref, one. cbn [refs with_refs]. rewrite lookup_insert.
  destruct (decide (c = c')) as [->|Hne]; [by rewrite decide_True | rewrite decide_False by congruence; lia].
Qed.

Lemma refs_ok_incref c extra s : refs_ok extra s -> refs_ok (plus c extra) (incref c s).
Proof. intros H c'. rewrite refcount_incref. specialize (H c'). unfold plus. cbn. lia. Qed.

Lemma decref_done c s :
  0 < refcount c s -> exists s', decref c s = Done s' /\ s' = with_refs (<[c := refcount c s - 1]> (refs s)) s /\
    forall c', refcount c' s' = refcount c' s - one c c'.
Proof.
  intros H. unfold decref. destruct (Z.leb_spec 0 (refcount c s - 1)); [| lia]. eexists. split_and!; [done | done |].
  intros c'. unfold refcount at 1. cbn [refs with_refs]. rewrite lookup_insert. unfold one.
  destruct (decide (c = c')) as [->|Hne]; [by rewrite decide_True | rewrite decide_False by congruence].
  fold (refcount c' s). lia.
Qed.

(** Only references, connections and statistics differ. *)
Definition same_core (s s' : rpcs) : Prop :=
  nonce_ s' = nonce_ s /\ procs_ s' = procs_ s /\ reply_window_ s' = reply_window_ s /\
  counting_ s' = counting_ s /\ app s' = app s /\ executed s' = executed s.

#[local] Instance same_core_refl : Reflexive same_core.
Proof. intros s. by split_and!. Qed.
#[local] Instance same_core_trans : Transitive same_core.
Proof. intros s1 s2 s3 (?&?&?&?&?&?) (?&?&?&?&?&?). split_and!; congruence. Qed.

Lemma decref_core c s s' : decref c s = Done s' -> same_core s s'.
Proof. unfold decref. intros H. apply bind_Done_inv in H as (u & _ & H). injection H as <-. by split_and!. Qed.

Lemma decref_last c extra s :
  refs_ok (plus c extra) s -> (forall c', 0 <= extra c') -> exists s', decref c s = Done s' /\ refs_ok extra s'.
Proof.
  intros H Hpos. destruct (decref_done c s) as (s' & Hd & -> & Hc).
  { specialize (H c). specialize (Hpos c). unfold plus, one in H. rewrite decide_True in H by done. lia. }
  eexists. split_and!; [done |].
  intros c'. rewrite Hc. specialize (H c'). unfold plus in H. cbn [conns_ with_refs]. lia.
Qed.

Lemma compare_time_refl t : compare_time t t = 0.
Proof. unfold compare_time. by rewrite !Z.ltb_irrefl. Qed.

Lemma save_conn_core view n c s s' : save_conn view n c s = Done s' -> same_core s s'.
Proof.
  unfold save_conn. destruct (conns_ s !! n).
  - destruct (_ <? 0); [| by intros [= <-]]. intros H. apply bind_Done_inv in H as (s1 & Hd & H). injection H as <-.
    apply decref_core in Hd. etrans; [exact Hd |]. by split_and!.
  - intros [= <-]. by split_and!.
Qed.

Lemma save_conn_done view n c extra s :
  refs_ok (plus c extra) s -> (forall c', 0 <= extra c') ->
  exists s', save_conn view n c s = Done s' /\ refs_ok (plus c extra) s'.
Proof.
  intros H Hpos. unfold save_conn. destruct (conns_ s !! n) as [c0|] eqn:Hn.
  - destruct (Z.ltb_spec (compare_time (cv_time (view c0)) (cv_time (view c))) 0) as [Hlt|Hge]; [| by exists s].
    assert (Hne : c0 <> c) by (intros ->; rewrite compare_time_refl in Hlt; lia).
    destruct (decref_done c0 s) as (s1 & -> & -> & Hc).
    { specialize (H c0). specialize (Hpos c0). rewrite (held_delete c0 n c0 _ Hn), decide_True in H by done.
      unfold plus, one in H. rewrite decide_False in H by done. lia. }
    rewrite bind_Done. eexists. split; [done |]. intros c'. cbn [conns_ with_conns with_refs].
    change (refcount c' (with_conns ?m ?x)) with (refcount c' x). rewrite refcount_incref, Hc.
    rewrite <- insert_delete_eq, held_insert by apply lookup_delete_eq.
    specialize (H c'). rewrite (held_delete c' n c0 _ Hn) in H. unfold plus, one in *.
    repeat case_decide; subst; try congruence; lia.
  - eexists. split; [done |]. intros c'. cbn [conns_ with_conns]. change (refcount c' (with_conns ?m ?x)) with (refcount c' x).
    rewrite refcount_incref. cbn [conns_ incref with_refs]. rewrite held_insert by done.
    specialize (H c'). unfold plus, one in *. repeat case_decide; subst; try congruence; lia.
Qed.

Lemma check_core d s s' ph : check d s = Done (s', ph) -> conns_ s' = conns_ s /\ refs s' = refs s /\ nonce_ s' = nonce_ s /\ procs_ s' = procs_ s /\ app s' = app s.
Proof.
  unfold check. intros H. apply bind_Done_inv in H as ([st l] & _ & H). cbn [fst snd] in H.
  destruct st; [| | | apply bind_Done_inv in H as (? & _ & H)]; by injection H as <- _.
Qed.

(** The job after a step, and the others. *)
Lemma work_refs view z d ph extra s s' oj out :
  (forall c, 0 <= extra c) -> refs_ok (plus (d_conn d) extra) s -> work view z d ph s = Done (Some (s', oj, out)) ->
  refs_ok (match oj with Some j => plus (job_conn j) extra | None => extra end) s'.
Proof.
  intros Hpos Hr H. unfold work in H. destruct ph as [| | | |log p|b sz|src|src|].
  - injection H as <- <- _. by destruct (reply_window_ s !! d_nonce d).
  - destruct (save_conn_done view (d_nonce d) (d_conn d) extra s Hr Hpos) as (s1 & Hs & Hr1). rewrite Hs in H.
    by injection H as <- <- _.
  - apply bind_Done_inv in H as ([s1 ph1] & Hc & H). injection H as <- <- _.
    apply check_core in Hc as (E1 & E2 & _). intros c. unfold refcount. cbn [fst]. rewrite E1, E2. apply Hr.
  - apply bind_Done_inv in H as (rep & _ & H). injection H as <- <- _. destruct (d_nonce d =? 0); by destruct (counting_ _ =? 0).
  - destruct p as [o|f|k].
    + apply bind_Done_inv in H as (ph1 & _ & H). by injection H as <- <- _.
    + apply bind_Done_inv in H as ([[a p]|] & _ & H); [| done]. by injection H as <- <- _.
    + by injection H as <- <- _.
  - destruct (0 <? d_nonce d); [apply bind_Done_inv in H as (l & _ & H) |]; by injection H as <- <- _.
  - destruct (_ && _); [| by injection H as <- <- _].
    destruct (decref_last (d_conn d) extra s Hr Hpos) as (s1 & Hd & Hr1). rewrite Hd, bind_Done in H.
    destruct (conns_ s1 !! d_nonce d) as [c'|]; [| done]. injection H as <- <- _. by apply refs_ok_incref.
  - apply bind_Done_inv in H as (bytes & _ & H). by injection H as <- <- _.
  - destruct (decref_last (d_conn d) extra s Hr Hpos) as (s1 & Hd & Hr1). rewrite Hd in H. by injection H as <- <- _.
Qed.

Lemma enter_refs c buf sz extra s s' oj out :
  (forall c, 0 <= extra c) -> refs_ok (plus c extra) s -> enter c buf sz s = Done (s', oj, out) ->
  refs_ok (match oj with Some j => plus (job_conn j) extra | None => extra end) s'.
Proof.
  intros Hpos Hr H. unfold enter in H. apply bind_Done_inv in H as ([req h] & _ & H). destruct (negb _).
  { destruct (decref_last c extra s Hr Hpos) as (s1 & Hd & Hr1). rewrite Hd in H. by injection H as <- <- _. }
  destruct (_ && _).
  { apply bind_Done_inv in H as (bytes & _ & H). injection H as <- <- _. intros c'. specialize (Hr c'). unfold plus, one in Hr.
    case_decide; lia. }
  destruct (procs_ s !! q_proc h); [| done]. by injection H as <- <- _.
Qed.

Definition over (oj : option job) : list job := match oj with Some j => [j] | None => [] end.

Lemma job_step_refs view z j l1 l2 s s' oj out :
  refs_ok (job_refs (l1 ++ j :: l2)) s -> job_step view z j s = Done (Some (s', oj, out)) ->
  refs_ok (job_refs (l1 ++ over oj ++ l2)) s'.
Proof.
  intros Hr H. set (extra := job_refs (l1 ++ l2)).
  assert (Hpos : forall c, 0 <= extra c) by (intros c; apply job_refs_nonneg).
  assert (Hr' : refs_ok (plus (job_conn j) extra) s).
  { intros c. specialize (Hr c). unfold plus, extra. rewrite job_refs_app in *. cbn [job_refs] in Hr. lia. }
  assert (Hn : refs_ok (match oj with Some j => plus (job_conn j) extra | None => extra end) s').
  { destruct j as [c buf sz|d ph]; cbn [job_step job_conn] in *; [| by eapply work_refs].
    apply bind_Done_inv in H as (r & Hen & H). injection H as ->. by eapply enter_refs. }
  intros c. specialize (Hn c). destruct oj; unfold extra, plus in Hn; cbn [over] in *; rewrite !job_refs_app in *; cbn [job_refs]; lia.
Qed.

(** ** What a step does *)

(** The windows and the requests whose handler was started. *)
Inductive effect (s s' : rpcs) : job -> Prop :=
| ef_quiet j : (forall k, window k s' = window k s) -> executed s' = executed s -> effect s s' j
| ef_free d : d_nonce d = 0 -> (forall k, window k s' = window k s) -> executed s' = (0, d_xid d) :: executed s ->
    effect s s' (Working d PNew)
| ef_check d st l' :
    checkduplicate_and_update (d_xid d) (u32 (q_xid_rep (d_head d))) (window (d_nonce d) s) = Done (st, l') ->
    (forall k, window k s' = if decide (k = d_nonce d) then l' else window k s) ->
    executed s' = (match st with NEW => (d_nonce d, d_xid d) :: executed s | _ => executed s end) ->
    effect s s' (Working d PCheck)
| ef_add d b sz l' :
    add_reply (d_xid d) b sz (window (d_nonce d) s) = Done l' ->
    (forall k, window k s' = if decide (k = d_nonce d) then l' else window k s) ->
    executed s' = executed s -> effect s s' (Working d (PAdd b sz)).

Lemma window_with n l w s : window n (with_window (<[w := l]> (reply_window_ s)) s) = if decide (n = w) then l else window n s.
Proof.
  unfold window. cbn [reply_window_ with_window]. rewrite lookup_insert.
  destruct (decide (w = n)) as [->|Hne]; [by rewrite decide_True | by rewrite decide_False by congruence].
Qed.

(** How dispatch goes on after the answer of the window. *)
Definition verdict_phase (d : disp) (st : rpcstate) (ph : phase) : Prop :=
  match st with
  | NEW => ph = PNew
  | INPROGRESS => ph = PLeave
  | DONE b sz => ph = PSend (Recorded (d_nonce d) (d_xid d) b sz)
  | FORGOTTEN => exists bytes, bare_reply (ReplyHeader (q_xid (d_head d)) atmostonce_failure) = Done bytes /\
      ph = PSend (Own bytes (Z.of_nat (length bytes)))
  end.

Lemma check_inv d s s' ph :
  check d s = Done (s', ph) -> exists st l',
    checkduplicate_and_update (d_xid d) (u32 (q_xid_rep (d_head d))) (window (d_nonce d) s) = Done (st, l') /\
    (forall k, window k s' = if decide (k = d_nonce d) then l' else window k s) /\
    executed s' = (match st with NEW => (d_nonce d, d_xid d) :: executed s | _ => executed s end) /\ verdict_phase d st ph.
Proof.
  unfold check. intros Hc. apply bind_Done_inv in Hc as ([st l] & Hck & Hc). cbn [fst snd] in Hc. exists st, l. split; [done |].
  assert (Hw : forall k, window k (with_window (<[d_nonce d := l]> (reply_window_ s)) s) = if decide (k = d_nonce d) then l else window k s)
    by (intros k; apply window_with).
  destruct st as [| |b sz|]; cbn [verdict_phase]; [| | | apply bind_Done_inv in Hc as (bytes & Hb & Hc)]; injection Hc as <- <-;
    (split; [exact Hw |]); (split; [done |]); [done | done | done | by exists bytes].
Qed.

Lemma quiet_core s s' j : same_core s s' -> effect s s' j.
Proof. intros (_ & _ & Hw & _ & _ & He). apply ef_quiet; [| done]. intros k. unfold window. by rewrite Hw. Qed.

Lemma work_effect view z d ph s s' oj out : work view z d ph s = Done (Some (s', oj, out)) -> effect s s' (Working d ph).
Proof.
  unfold work. intros H. destruct ph as [| | | |log p|b sz|src|src|].
  - injection H as <- _ _. destruct (reply_window_ s !! d_nonce d) eqn:E; apply ef_quiet; try done.
    intros k. rewrite window_with. case_decide; [subst k; unfold window; by rewrite E | done].
  - apply bind_Done_inv in H as (s1 & Hs & H). injection H as <- _ _. apply save_conn_core in Hs. by apply quiet_core.
  - apply bind_Done_inv in H as ([s1 ph1] & Hc & H). injection H as <- _ _. cbn [fst].
    destruct (check_inv d s s1 ph1 Hc) as (st & l & Hck & Hw & He & _). by apply (ef_check s s1 d st l).
  - apply bind_Done_inv in H as (rep & _ & H). injection H as <- _ _. destruct (Z.eqb_spec (d_nonce d) 0) as [Hz|Hz];
      [| by destruct (counting_ s =? 0); apply quiet_core; split_and!].
    apply ef_free; [done | by destruct (counting_ _ =? 0) |]. rewrite Hz. by destruct (counting_ _ =? 0).
  - destruct p as [o|f|k].
    + apply bind_Done_inv in H as (ph1 & _ & H). injection H as <- _ _. by apply ef_quiet.
    + apply bind_Done_inv in H as ([[a p]|] & _ & H); [| done]. injection H as <- _ _. by apply ef_quiet.
    + injection H as <- _ _. by apply ef_quiet.
  - destruct (0 <? d_nonce d); [| injection H as <- _ _; by apply ef_quiet].
    apply bind_Done_inv in H as (l & Ha & H). injection H as <- _ _. apply (ef_add s _ d b sz l); [done | | done].
    intros k. apply window_with.
  - destruct (_ && _); [| injection H as <- _ _; by apply ef_quiet].
    apply bind_Done_inv in H as (s1 & Hd & H). destruct (conns_ s1 !! d_nonce d) as [c'|]; [| done]. injection H as <- _ _.
    apply decref_core in Hd. by apply quiet_core.
  - apply bind_Done_inv in H as (bytes & _ & H). injection H as <- _ _. by apply ef_quiet.
  - apply bind_Done_inv in H as (s1 & Hd & H). injection H as <- _ _. apply decref_core in Hd. by apply quiet_core.
Qed.

Lemma enter_core c buf sz s s' oj out : enter c buf sz s = Done (s', oj, out) -> same_core s s'.
Proof.
  unfold enter. intros H. apply bind_Done_inv in H as ([req h] & _ & H). destruct (negb _).
  { apply bind_Done_inv in H as (s1 & Hd & H). injection H as <- _ _. by apply decref_core in Hd. }
  destruct (_ && _).
  { apply bind_Done_inv in H as (bytes & _ & H). by injection H as <- _ _. }
  destruct (procs_ s !! q_proc h); [| done]. by injection H as <- _ _.
Qed.

Lemma job_step_effect view z j s s' oj out : job_step view z j s = Done (Some (s', oj, out)) -> effect s s' j.
Proof.
  destruct j as [c buf sz|d ph]; cbn [job_step]; [| apply work_effect]. intros H.
  apply bind_Done_inv in H as (r & He & H). injection H as ->. apply quiet_core. by eapply enter_core.
Qed.

(** The procedures and the server's nonce stay; the application is changed by
    the steps of handlers only. *)
Lemma job_step_fixed view z j s s' oj out :
  job_step view z j s = Done (Some (s', oj, out)) -> nonce_ s' = nonce_ s /\ procs_ s' = procs_ s /\
  (app s' = app s \/ exists d log f a p, j = Working d (PRun log (HStep f)) /\ f (app s) = Done (Some (a, p)) /\
     app s' = a /\ oj = Some (Working d (PRun (log ++ [(app s, a)]) p))).
Proof.
  destruct j as [c buf sz|d ph]; cbn [job_step]; intros H.
  { apply bind_Done_inv in H as (r & He & H). injection H as ->. apply enter_core in He as (? & ? & _ & _ & ? & _). auto. }
  unfold work in H. destruct ph as [| | | |log p|b sz|src|src|].
  - injection H as <- _ _. destruct (reply_window_ s !! d_nonce d); by auto.
  - apply bind_Done_inv in H as (s1 & Hs & H). injection H as <- _ _. apply save_conn_core in Hs as (? & ? & _ & _ & ? & _). auto.
  - apply bind_Done_inv in H as ([s1 ph1] & Hc & H). injection H as <- _ _. apply check_core in Hc as (_ & _ & ? & ? & ?). auto.
  - apply bind_Done_inv in H as (rep & _ & H). injection H as <- _ _. destruct (d_nonce d =? 0); destruct (counting_ _ =? 0); by auto.
  - destruct p as [o|f|k].
    + apply bind_Done_inv in H as (ph1 & _ & H). injection H as <- _ _. auto.
    + apply bind_Done_inv in H as ([[a p]|] & Hf & H); [| done]. injection H as <- <- _. split; [done |]. split; [done |].
      right. by exists d, log, f, a, p.
    + injection H as <- _ _. auto.
  - destruct (0 <? d_nonce d); [apply bind_Done_inv in H as (l & _ & H) |]; injection H as <- _ _; auto.
  - destruct (_ && _); [| injection H as <- _ _; auto].
    apply bind_Done_inv in H as (s1 & Hd & H). destruct (conns_ s1 !! d_nonce d) as [c'|]; [| done]. injection H as <- _ _.
    apply decref_core in Hd as (? & ? & _ & _ & ? & _). auto.
  - apply bind_Done_inv in H as (bytes & _ & H). injection H as <- _ _. auto.
  - apply bind_Done_inv in H as (s1 & Hd & H). injection H as <- _ _. apply decref_core in Hd as (? & ? & _ & _ & ? & _). auto.
Qed.

(** ** Runs of a server *)

(** Registration, messages of any clients on any connections, and steps of the
    jobs in any order. *)
Inductive serving : rpcs -> list job -> Prop :=
| sv_new nonce count a s : rpcs_new nonce count a = Done s -> serving s []
| sv_reg proc h s s' js : serving s js -> reg1 proc h s = Done s' -> serving s' js
| sv_pdu c buf sz s js : serving s js -> serving (take_pdu c s) (Queued c buf sz :: js)
| sv_job view z l1 j l2 s s' oj out :
    serving s (l1 ++ j :: l2) -> job_step view z j s = Done (Some (s', oj, out)) -> serving s' (l1 ++ over oj ++ l2).

(** The requests of client [n] whose handler was started. *)
Definition executed_of (n : Z) (s : rpcs) : list Z := (filter (fun p => fst p = n) (executed s)).*2.

(** Each at-most-once client's window is the one of a run as in RpcWindow.v. *)
Definition tracked (s : rpcs) : Prop :=
  exists H : Z -> history, forall n, n <> 0 ->
    reachable (H n) /\ h_window (H n) = window n s /\ h_new (H n) = executed_of n s.

Lemma executed_of_cons n k x s s' :
  executed s' = (k, x) :: executed s ->
  executed_of n s' = if decide (n = k) then x :: executed_of n s else executed_of n s.
Proof.
  unfold executed_of. intros ->. rewrite filter_cons. cbn [fst].
  destruct (decide (k = n)) as [->|Hne]; [by rewrite decide_True | by rewrite decide_False by congruence].
Qed.

Lemma tracked_step s s' j : tracked s -> effect s s' j -> tracked s'.
Proof.
  intros [H HH] [j' Hws Hex|d Hz Hws Hex|d st l' Hck Hws Hex|d b sz l' Ha Hws Hex].
  - exists H. intros k Hk0. unfold executed_of. rewrite Hex, Hws. by apply HH.
  - exists H. intros k Hk0. rewrite (executed_of_cons k 0 _ _ _ Hex), decide_False, Hws by done. by apply HH.
  - set (n := d_nonce d) in *.
    set (h' := History l' (match st with NEW => d_xid d :: h_new (H n) | _ => h_new (H n) end)
                       (u32 (q_xid_rep (d_head d)) :: h_acks (H n)) (h_replies (H n))).
    exists (fun k => if decide (k = n) then h' else H k). intros k Hk0. rewrite Hws. case_decide as Hk.
    + subst k. destruct (HH n Hk0) as (Hr & Hw & Hn). split_and!; [| done |].
      * apply (reach_step (Request (d_xid d) (u32 (q_xid_rep (d_head d)))) (H n) h' (Some st) Hr).
        cbn [handle]. by rewrite Hw, Hck.
      * cbn [h_new h']. rewrite Hn. destruct st; [| unfold executed_of; by rewrite Hex ..].
        rewrite (executed_of_cons n n (d_xid d) s s' Hex). by rewrite decide_True.
    + destruct (HH k Hk0) as (? & ? & Hnk). split_and!; [done | done |]. rewrite Hnk.
      destruct st; [| unfold executed_of; by rewrite Hex ..].
      rewrite (executed_of_cons k n (d_xid d) s s' Hex). by rewrite decide_False.
  - set (n := d_nonce d) in *.
    set (h' := History l' (h_new (H n)) (h_acks (H n)) ((d_xid d, b, sz) :: h_replies (H n))).
    exists (fun k => if decide (k = n) then h' else H k). intros k Hk0. rewrite Hws. unfold executed_of in *. rewrite Hex.
    case_decide as Hk; [| by apply HH]. subst k. destruct (HH n Hk0) as (Hr & Hw & Hn). split_and!; [| done | done].
    apply (reach_step (Finish (d_xid d) b sz) (H n) h' None Hr). cbn [handle]. by rewrite Hw, Ha.
Qed.

Lemma serving_ok s js : serving s js -> tracked s /\ refs_ok (job_refs js) s.
Proof.
  induction 1 as [nonce count a s Hnew|proc h s s' js _ [IH1 IH2] Hreg|c buf sz s js _ [IH1 IH2]|view z l1 j l2 s s' oj out _ [IH1 IH2] Hd].
  - unfold rpcs_new, reg, reg1 in Hnew. injection Hnew as <-. split.
    + exists (fun _ => history_start). intros n _. by split_and!; [constructor | |].
    + intros c. unfold refcount. cbn [refs conns_]. by rewrite lookup_empty.
  - unfold reg1 in Hreg. apply bind_Done_inv in Hreg as (u & _ & Hreg). injection Hreg as <-. by split.
  - split; [by destruct IH1 as [H HH]; exists H |]. by apply (refs_ok_incref c (job_refs js)).
  - split; [by eapply tracked_step, job_step_effect | by eapply job_step_refs].
Qed.

Lemma executed_of_nodup n s js : n <> 0 -> serving s js -> NoDup (executed_of n s).
Proof.
  intros Hn Hs. destruct (serving_ok s js Hs) as [[H HH] _]. destruct (HH n Hn) as (Hr & _ & <-). by apply reachable_ok.
Qed.

Lemma NoDup_by_key (l : list (Z * Z)) :
  (forall n, NoDup ((filter (fun p => fst p = n) l).*2)) -> NoDup l.
Proof.
  induction l as [|[n x] l IH]; intros H; [constructor |]. apply NoDup_cons. split.
  - intros Hin. specialize (H n). rewrite filter_cons, decide_True in H by done. rewrite fmap_cons in H.
    apply NoDup_cons in H as [H _]. apply H. apply (list_elem_of_fmap_2' _ _ (n, x)); [| done].
    by apply list_elem_of_filter.
  - apply IH. intros k. specialize (H k). rewrite filter_cons in H. case_decide; [| done].
    rewrite fmap_cons in H. by apply NoDup_cons in H as [_ H].
Qed.

(** The executions of the clients that asked for at most one. *)
Definition at_most_once (l : list (Z * Z)) : list (Z * Z) := filter (fun p => fst p <> 0) l.

Lemma executed_nodup s js : serving s js -> NoDup (at_most_once (executed s)).
Proof.
  intros Hs. apply NoDup_by_key. intros n. unfold at_most_once. rewrite list_filter_filter. destruct (decide (n = 0)) as [->|Hn].
  - rewrite (list_filter_iff _ (fun _ => False)) by (intros [k x]; cbn; split; [by intros [? ?] |]; intros ?; by subst).
    induction (executed s); [constructor | by rewrite filter_cons, decide_False by tauto].
  - rewrite (list_filter_iff _ (fun p => fst p = n)) by (intros [k x]; cbn; split; [by intros [? ?] |]; intros ?; by subst). by apply (executed_of_nodup n s js).
Qed.

(** The request whose handler a job is about to run, runs, or has run without
    having recorded the reply; requests of clients without a window are left
    out. *)
Definition in_handler (j : job) : option (Z * Z) :=
  match j with
  | Working d (PNew | PRun _ _ | PAdd _ _) => if decide (d_nonce d = 0) then None else Some (d_nonce d, d_xid d)
  | _ => None
  end.

Definition running (js : list job) : list (Z * Z) := omap in_handler js.

Definition handler_of (oj : option job) : option (Z * Z) := oj ≫= in_handler.

(** A job enters a handler only as a request that was not started before. *)
Lemma job_step_handler view z j s s' oj out :
  job_step view z j s = Done (Some (s', oj, out)) ->
  (executed s' = executed s /\ (handler_of oj = in_handler j \/ handler_of oj = None)) \/
  (exists n x, executed s' = (n, x) :: executed s /\ in_handler j = None /\ (handler_of oj = Some (n, x) \/ handler_of oj = None)).
Proof.
  destruct j as [c buf sz|d ph]; cbn [job_step]; intros H.
  { apply bind_Done_inv in H as (r & He & H). injection H as ->. left. split; [by apply enter_core in He as (_ & _ & _ & _ & _ & ?) |].
    right. unfold enter in He. apply bind_Done_inv in He as ([req h] & _ & He). destruct (negb _).
    { apply bind_Done_inv in He as (s1 & _ & He). by injection He as _ <- _. }
    destruct (_ && _).
    { apply bind_Done_inv in He as (s1 & _ & He). by injection He as _ <- _. }
    destruct (procs_ s !! q_proc h); [| done]. injection He as _ <- _. cbn [handler_of].
    destruct (Z.eqb_spec (q_clt_nonce h) 0) as [E|E]; [| done]. cbn. unfold d_nonce. cbn. by rewrite decide_True. }
  unfold work in H. destruct ph as [| | | |log p|b sz|src|src|].
  - injection H as <- <- _. left. split; [by destruct (reply_window_ s !! d_nonce d) | by left].
  - apply bind_Done_inv in H as (s1 & Hs & H). injection H as <- <- _. left. apply save_conn_core in Hs as (_ & _ & _ & _ & _ & ?).
    split; [done | by left].
  - apply bind_Done_inv in H as ([s1 ph1] & Hc & H). injection H as <- <- _. unfold check in Hc.
    apply bind_Done_inv in Hc as ([st l] & Hck & Hc). cbn [fst snd] in Hc.
    destruct st; [right | left | left | left; apply bind_Done_inv in Hc as (? & _ & Hc)]; injection Hc as <- <-; [| by auto ..].
    exists (d_nonce d), (d_xid d). split; [done |]. split; [done |]. cbn. case_decide; auto.
  - apply bind_Done_inv in H as (rep & _ & H). injection H as <- <- _. destruct (Z.eqb_spec (d_nonce d) 0) as [Hz|Hz].
    + right. exists 0, (d_xid d). split_and!; [rewrite Hz; by destruct (counting_ _ =? 0) | cbn; by rewrite Hz | right; cbn; by rewrite Hz].
    + left. split; [by destruct (counting_ s =? 0) | by left].
  - left. destruct p as [o|f|k].
    + apply bind_Done_inv in H as (ph1 & Hfin & H). injection H as <- <- _. split; [done | left].
      unfold finish in Hfin. apply bind_Done_inv in Hfin as ([rep ret] & _ & Hfin).
      do 3 (apply bind_Done_inv in Hfin as (? & _ & Hfin)). destruct (m_take_buf _) as [[[b1|] sz1] m1]; [| done]. by injection Hfin as <-.
    + apply bind_Done_inv in H as ([[a p]|] & _ & H); [| done]. injection H as <- <- _. by auto.
    + injection H as <- <- _. by auto.
  - left. destruct (0 <? d_nonce d); [apply bind_Done_inv in H as (l & _ & H) |]; injection H as <- <- _; by auto.
  - left. destruct (_ && _); [| injection H as <- <- _; by auto].
    apply bind_Done_inv in H as (s1 & Hd & H). destruct (conns_ s1 !! d_nonce d) as [c'|]; [| done]. injection H as <- <- _.
    apply decref_core in Hd as (_ & _ & _ & _ & _ & ?). by auto.
  - left. apply bind_Done_inv in H as (bytes & _ & H). injection H as <- <- _. by auto.
  - left. apply bind_Done_inv in H as (s1 & Hd & H). injection H as <- <- _. apply decref_core in Hd as (_ & _ & _ & _ & _ & ?). by auto.
Qed.

Lemma running_split l1 oj l2 : running (l1 ++ over oj ++ l2) ≡ₚ option_list (handler_of oj) ++ running (l1 ++ l2).
Proof.
  unfold running. rewrite !omap_app. destruct oj as [j|]; cbn [over handler_of mbind option_bind omap list_omap option_list]; [| done].
  destruct (in_handler j); cbn [option_list]; [solve_Permutation | done].
Qed.

Lemma running_cons l1 j l2 : running (l1 ++ j :: l2) ≡ₚ option_list (in_handler j) ++ running (l1 ++ l2).
Proof. apply (running_split l1 (Some j) l2). Qed.

Lemma handler_of_nonzero oj x : handler_of oj <> Some (0, x).
Proof.
  destruct oj as [[c buf sz|d ph]|]; cbn; try done. destruct ph; cbn; try done; case_decide; try done; by intros [= ? _].
Qed.

Lemma running_executed s js : serving s js -> NoDup (running js) /\ running js ⊆ executed s.
Proof.
  induction 1 as [nonce count a s Hnew|proc h s s' js _ IH Hreg|c buf sz s js _ IH|view z l1 j l2 s s' oj out Hs [IH1 IH2] Hd].
  - split; [constructor |]. intros x Hx. by apply not_elem_of_nil in Hx.
  - unfold reg1 in Hreg. apply bind_Done_inv in Hreg as (u & _ & Hreg). by injection Hreg as <-.
  - exact IH.
  - assert (Hs' : serving s' (l1 ++ over oj ++ l2)) by (by eapply sv_job). apply executed_nodup in Hs'.
    rewrite running_cons in IH1, IH2. rewrite running_split.
    apply NoDup_app in IH1 as (_ & Hdis & Hrest).
    assert (Hsub : running (l1 ++ l2) ⊆ executed s) by (intros p Hp; apply IH2, elem_of_app; by right).
    destruct (job_step_handler view z j s s' oj out Hd) as [[-> Ho]|(n & x & Hex & Hj & Ho)].
    + destruct Ho as [->| ->]; [| by split]. split; [| done]. apply NoDup_app. split_and!; [| done | done].
      destruct (in_handler j); [apply NoDup_singleton | constructor].
    + destruct Ho as [Ho|Ho]; rewrite Ho; cbn [option_list Datatypes.app]; rewrite Hex in *;
        [| split; [done |]; intros p Hp; right; by apply Hsub].
      assert (Hn0 : n <> 0) by (intros ->; by apply handler_of_nonzero in Ho).
      unfold at_most_once in Hs'. rewrite filter_cons, decide_True in Hs' by done. apply NoDup_cons in Hs' as [Hnew _].
      split; [apply NoDup_cons; split; [| done] |].
      * intros Hp. apply Hnew, list_elem_of_filter. split; [done | by apply Hsub].
      * intros p [->|Hp]%elem_of_cons; [left | right; by apply Hsub].
Qed.

(** The request of a job is meant for an earlier server. *)
Definition for_old_server (j : job) (s : rpcs) : Prop :=
  match j with
  | Queued c buf sz => exists req h, unpack_req_header (unmarshall_new buf sz) = Done (req, h) /\
      q_srv_nonce h <> 0 /\ q_srv_nonce h <> nonce_ s
  | Working _ _ => False
  end.

Lemma refcount_decref c s s' : decref c s = Done s' -> refcount c s' = refcount c s - 1.
Proof.
  unfold decref. intros H. apply bind_Done_inv in H as (u & _ & H). injection H as <-. unfold refcount at 1. cbn [refs with_refs].
  by rewrite lookup_insert_eq.
Qed.

(** The last step of a job gives its reference back, or keeps it if the request
    was for an earlier server. *)
Lemma last_step_refs view z j s s' out :
  job_step view z j s = Done (Some (s', None, out)) ->
  refcount (job_conn j) s' = refcount (job_conn j) s - 1 \/ (for_old_server j s /\ s' = s).
Proof.
  destruct j as [c buf sz|d ph]; cbn [job_step job_conn]; intros H.
  - apply bind_Done_inv in H as (r & He & H). injection H as ->. unfold enter in He.
    apply bind_Done_inv in He as ([req h] & Hun & He). destruct (negb (u_ok req)).
    { apply bind_Done_inv in He as (s1 & Hd & He). injection He as <- _. left. by apply refcount_decref. }
    destruct (_ && _) eqn:Eo.
    { apply bind_Done_inv in He as (bytes & _ & He). injection He as <- _. right. split; [| done]. exists req, h.
      split; [done |]. lia. }
    by destruct (procs_ s !! q_proc h).
  - left. unfold work in H. destruct ph as [| | | |log [o|f|k]|b sz|src|src|]; try done;
      try (by apply bind_Done_inv in H as (? & _ & H)).
    + apply bind_Done_inv in H as ([[a p]|] & _ & H); done.
    + destruct (0 <? d_nonce d); [by apply bind_Done_inv in H as (? & _ & H) | done].
    + destruct (_ && _); [| done]. apply bind_Done_inv in H as (s1 & _ & H). by destruct (conns_ s1 !! d_nonce d).
    + apply bind_Done_inv in H as (s1 & Hd & H). injection H as <- _. by apply refcount_decref.
Qed.

(** C29: at most once, on many threads.  However requests arrive and however the
    server's threads interleave, with handlers that take many steps, wait and
    call out: for clients with a nonce (a client with nonce 0 has not asked for
    at-most-once execution) no handler is started twice for a client and
    transaction id, no two threads are in a handler for the same request, and
    every handler that runs was started.  Every job holds a reference on its
    connection as long as it is under way, so that releasing it does not fail,
    and its last step gives the reference back, with one exception: a request
    meant for an earlier server is answered and its reference kept for good. *)
Theorem requests_execute_once s js :
  serving s js ->
  NoDup (at_most_once (executed s)) /\ NoDup (running js) /\ running js ⊆ executed s /\
  (forall j, j ∈ js -> exists s', decref (job_conn j) s = Done s') /\
  (forall view z j s' out, j ∈ js -> job_step view z j s = Done (Some (s', None, out)) ->
    refcount (job_conn j) s' = refcount (job_conn j) s - 1 \/ (for_old_server j s /\ s' = s)).
Proof.
  intros Hs. split; [by eapply executed_nodup |]. destruct (running_executed s js Hs) as [H1 H2]. split_and!; [done | done | |].
  - intros j (l1 & l2 & ->)%list_elem_of_split. destruct (serving_ok s _ Hs) as [_ Hr].
    destruct (decref_last (job_conn j) (job_refs (l1 ++ l2)) s) as (s' & Hd & _); [| intros c; apply job_refs_nonneg | by exists s'].
    intros c. specialize (Hr c). unfold plus. rewrite job_refs_app in *. cbn [job_refs] in Hr. lia.
  - intros view z j s' out _. apply last_step_refs.
Qed.
End server.

(** ** Running a server *)

Inductive act := Take (c : Z) (buf : list Z) (sz : Z) | Go (i : nat) (z : Z).

Section schedule.
Context {A : Type}.
Variables (fill : nat -> Z) (view : Z -> conn_view).

(** A message arrives, or the job at position [i] takes a step. *)
Definition act_step (x : act) (st : rpcs A * list job * list (Z * list Z)) : outcome (rpcs A * list job * list (Z * list Z)) :=
  let '(s, js, out) := st in
  match x with
  | Take c buf sz => mret (take_pdu c s, Queued c buf sz :: js, out)
  | Go i z =>
      match js !! i with
      | None => Fault OutOfFuel
      | Some j =>
          r ← job_step fill view z j s;
          match r with
          | None => Fault OutOfFuel
          | Some (s', oj, out') => mret (s', take i js ++ over oj ++ drop (S i) js, out' ++ out)
          end
      end
  end.

Fixpoint act_all (l : list act) (st : rpcs A * list job * list (Z * list Z)) : outcome (rpcs A * list job * list (Z * list Z)) :=
  match l with
  | [] => Done st
  | x :: l => st ← act_step x st; act_all l st
  end.

Lemma act_all_serving l s js out s' js' out' :
  serving fill s js -> act_all l (s, js, out) = Done (s', js', out') -> serving fill s' js'.
Proof.
  revert s js out. induction l as [|x l IH]; intros s js out Hs H; cbn [act_all] in H; [by injection H as <- <- _ |].
  apply bind_Done_inv in H as ([[s1 js1] out1] & H1 & H). eapply IH; [| exact H]. destruct x as [c buf sz|i z]; cbn [act_step] in H1.
  - injection H1 as <- <- _. by apply sv_pdu.
  - destruct (js !! i) as [j|] eqn:Hj; [| done]. apply bind_Done_inv in H1 as ([[[s2 oj] o2]|] & Hst & H1); [| done].
    injection H1 as <- <- _. eapply sv_job; [| exact Hst]. by rewrite take_drop_middle.
Qed.
End schedule.

(** ** A server with one procedure *)

Definition demo_fill : nat -> Z := fun _ => 0.
Definition count_calls : handler Z := fun req rep => HStep (fun a => Done (Some (a + 1, HRet (Done (rep, 0))))).
Definition demo_view : Z -> conn_view := fun _ => ConnView false (0, 0).
Definition demo_request (x ack : Z) : list Z := [0; 0; 0; 24] ++ be32 x ++ be32 9 ++ be32 5 ++ be32 77 ++ be32 ack.
Definition demo_server : rpcs Z :=
  Rpcs 77 (<[9 := count_calls]> {[bind := reg_fn demo_fill cd_int cd_int (rpcbind 77)]}) ∅ ∅ ∅ 0 0 ∅ 0 [].

Lemma demo_serving : serving demo_fill demo_server [].
Proof.
  apply (sv_reg demo_fill 9 count_calls (Rpcs 77 {[bind := reg_fn demo_fill cd_int cd_int (rpcbind 77)]} ∅ ∅ ∅ 0 0 ∅ 0 [])).
  - apply (sv_new demo_fill 77 0 0). reflexivity.
  - reflexivity.
Qed.

(** Two copies of a request at the same time, on two connections. *)
Definition demo_twice : list act :=
  [Take 3 (demo_request 1 0) 24; Take 4 (demo_request 1 0) 24] ++ concat (replicate 4 [Go 0 0; Go 1 0]).

Lemma requests_execute_once_witness :
  match act_all demo_fill demo_view demo_twice (demo_server, [], []) with
  | Done (s, js, _) => running js = [(5, 1)] /\ executed s = [(5, 1)] /\ NoDup (at_most_once (executed s)) /\ NoDup (running js)
  | Fault _ => False
  end.
Proof.
  assert (Hr : match act_all demo_fill demo_view demo_twice (demo_server, [], []) with
               | Done (s, js, _) => running js = [(5, 1)] /\ executed s = [(5, 1)]
               | Fault _ => False
               end) by (vm_compute; split; reflexivity).
  destruct (act_all demo_fill demo_view demo_twice (demo_server, [], [])) as [[[s js] out]|] eqn:E; [| destruct Hr].
  destruct (requests_execute_once demo_fill s js) as (H1 & H2 & _).
  - exact (act_all_serving _ _ _ _ _ _ _ _ _ demo_serving E).
  - destruct Hr as [Hr1 Hr2]. split; [exact Hr1 |]. split; [exact Hr2 |]. split; [exact H1 | exact H2].
Defined.

(** A reply that is being sent can be freed.  The thread of request 1 has
    recorded its reply and is about to send it from the window's buffer.
    Meanwhile the client, which got the reply from the thread of a
    retransmission, acknowledges it, and the thread of request 3 frees the
    buffer. *)
Definition demo_freed : list act :=
  [Take 3 (demo_request 1 0) 24] ++ replicate 9 (Go 0 0) ++
  [Take 4 (demo_request 1 0) 24] ++ replicate 6 (Go 0 0) ++
  [Take 4 (demo_request 2 1) 24] ++ replicate 11 (Go 0 0) ++
  [Take 4 (demo_request 3 2) 24] ++ replicate 4 (Go 0 0).

Theorem reply_freed_in_use :
  exists (s : rpcs Z) js (d : disp) src, serving demo_fill s js /\ @Working Z d (PSend src) ∈ js /\ read_buffer src s = Fault OutOfBounds.
Proof.
  assert (Hr : match act_all demo_fill demo_view demo_freed (demo_server, [], []) with
               | Done (s, js, _) => exists d src, js !! 1%nat = Some (Working d (PSend src)) /\ read_buffer src s = Fault OutOfBounds
               | _ => False
               end) by (vm_compute; eexists _, _; split; reflexivity).
  destruct (act_all demo_fill demo_view demo_freed (demo_server, [], [])) as [[[s js] out]|] eqn:E; [| destruct Hr].
  destruct Hr as (d & src & Hj & Hb). exists s, js, d, src. split; [exact (act_all_serving _ _ _ _ _ _ _ _ _ demo_serving E) |].
  split; [by apply list_elem_of_lookup_2 in Hj | exact Hb].
Qed.
