(* ===== verification/RpcClient.v ===== *)
(** * The RPC client endpoint (src/rpc/rpc.cc, src/rpc/rpc.h: class rpcc)

    Many threads call through one rpcc.  A call lives on its thread's stack
    and is known to the endpoint by a pointer to its [caller] object; [calls_]
    maps transaction ids to those pointers, which are the names of the threads
    here, and [callers] is the memory they point to.

    call1 is cut where it gives up the endpoint's mutex or waits: [call1_begin]
    registers the call and packs the header, [call1_send] is the transmission
    at the top of the loop, [call1_arm] computes the next deadline,
    [call1_wake] is what happens after the wait and [call1_end] is the rest.
    What the clock, connect_to_dst and isdead return are arguments.

    RpcSystem.v runs the endpoint against the server of RpcServer.v. *)

From S2P Require Import Prelude Marshall RpcWindow RpcServer.
Import Client Timer.

(** struct caller; [intret] is not initialised and not read before [done_]. *)
Record caller := Caller { ca_xid : Z; un : unmarshall; intret : Z; done_ : bool }.

(** struct request *)
Record request := DupRequest { rq_buf : list Z; rq_xid : Z }.
Definition request_clear : request := DupRequest [] (-1).
Definition isvalid (r : request) : bool := negb (rq_xid r =? -1).

Record rpcc := Rpcc {
  clt_nonce_ : Z; srv_nonce_ : Z; bind_done_ : bool; xid_ : Z;
  lossytest_ : Z; retrans_ : bool; reachable_ : bool;
  chan_ : option Z;
  destroy_wait_ : bool;
  calls_ : gmap Z nat;
  xid_rep_window_ : list Z;
  dup_req_ : request; xid_rep_done_ : Z;
  callers : gmap nat caller;      (* the caller objects *)
  conn_refs : gmap Z Z            (* references held on connections *)
}.

Definition to_max : Z := 120000.
Definition to_min : Z := 1000.

(** The constructor; [rnd] is random() and [lossy] the value of RPC_LOSSY. *)
Definition rpcc_new (retrans : bool) (rnd lossy : Z) : rpcc :=
  Rpcc (if retrans then u32 rnd else 0) 0 false 1 lossy retrans true None false ∅ [0]
       request_clear (-1) ∅ ∅.

Definition set_bind (srv : Z) (s : rpcc) : rpcc :=
  Rpcc (clt_nonce_ s) srv true (xid_ s) (lossytest_ s) (retrans_ s) (reachable_ s) (chan_ s)
       (destroy_wait_ s) (calls_ s) (xid_rep_window_ s) (dup_req_ s) (xid_rep_done_ s) (callers s) (conn_refs s).
Definition set_xid (x : Z) (s : rpcc) : rpcc :=
  Rpcc (clt_nonce_ s) (srv_nonce_ s) (bind_done_ s) x (lossytest_ s) (retrans_ s) (reachable_ s) (chan_ s)
       (destroy_wait_ s) (calls_ s) (xid_rep_window_ s) (dup_req_ s) (xid_rep_done_ s) (callers s) (conn_refs s).
Definition set_reachable (r : bool) (s : rpcc) : rpcc :=
  Rpcc (clt_nonce_ s) (srv_nonce_ s) (bind_done_ s) (xid_ s) (lossytest_ s) (retrans_ s) r (chan_ s)
       (destroy_wait_ s) (calls_ s) (xid_rep_window_ s) (dup_req_ s) (xid_rep_done_ s) (callers s) (conn_refs s).
Definition set_chan (c : option Z) (r : gmap Z Z) (s : rpcc) : rpcc :=
  Rpcc (clt_nonce_ s) (srv_nonce_ s) (bind_done_ s) (xid_ s) (lossytest_ s) (retrans_ s) (reachable_ s) c
       (destroy_wait_ s) (calls_ s) (xid_rep_window_ s) (dup_req_ s) (xid_rep_done_ s) (callers s) r.
Definition set_destroy_wait (b : bool) (s : rpcc) : rpcc :=
  Rpcc (clt_nonce_ s) (srv_nonce_ s) (bind_done_ s) (xid_ s) (lossytest_ s) (retrans_ s) (reachable_ s) (chan_ s)
       b (calls_ s) (xid_rep_window_ s) (dup_req_ s) (xid_rep_done_ s) (callers s) (conn_refs s).
Definition set_calls (m : gmap Z nat) (h : gmap nat caller) (s : rpcc) : rpcc :=
  Rpcc (clt_nonce_ s) (srv_nonce_ s) (bind_done_ s) (xid_ s) (lossytest_ s) (retrans_ s) (reachable_ s) (chan_ s)
       (destroy_wait_ s) m (xid_rep_window_ s) (dup_req_ s) (xid_rep_done_ s) h (conn_refs s).
Definition set_window (w : list Z) (s : rpcc) : rpcc :=
  Rpcc (clt_nonce_ s) (srv_nonce_ s) (bind_done_ s) (xid_ s) (lossytest_ s) (retrans_ s) (reachable_ s) (chan_ s)
       (destroy_wait_ s) (calls_ s) w (dup_req_ s) (xid_rep_done_ s) (callers s) (conn_refs s).
Definition set_dup (r : request) (d : Z) (s : rpcc) : rpcc :=
  Rpcc (clt_nonce_ s) (srv_nonce_ s) (bind_done_ s) (xid_ s) (lossytest_ s) (retrans_ s) (reachable_ s) (chan_ s)
       (destroy_wait_ s) (calls_ s) (xid_rep_window_ s) r d (callers s) (conn_refs s).

(** ** Connections *)

Definition conn_refcount (c : Z) (s : rpcc) : Z := default 0 (conn_refs s !! c).
Definition conn_incref (c : Z) (s : rpcc) : rpcc :=
  set_chan (chan_ s) (<[c := conn_refcount c s + 1]> (conn_refs s)) s.
Definition conn_decref (c : Z) (s : rpcc) : outcome rpcc :=
  _ ← verify (0 <=? conn_refcount c s - 1);
  mret (set_chan (chan_ s) (<[c := conn_refcount c s - 1]> (conn_refs s)) s).

Definition decref_opt (c : option Z) (s : rpcc) : outcome rpcc :=
  match c with Some c => conn_decref c s | None => mret s end.

(** [conn] is what connect_to_dst returns: a new connection with one
    reference, or none.  The state and the new value of [*ch]. *)
Definition get_refconn (dead : Z -> bool) (conn : option Z) (ch : option Z) (s : rpcc)
    : outcome (rpcc * option Z) :=
  s ← (if match chan_ s with None => true | Some c => dead c end then
         s ← decref_opt (chan_ s) s;
         mret (set_chan conn (match conn with Some c => <[c := 1]> (conn_refs s) | None => conn_refs s end) s)
       else mret s);
  match chan_ s with
  | Some c => s ← decref_opt ch s; mret (conn_incref c s, Some c)
  | None => mret (s, ch)
  end.

(** ** call1 *)

(** The local variables of call1. *)
Record call := Call {
  k_xid : Z; k_req : list Z; k_xid_rep : Z; k_ch : option Z; k_transmit : bool;
  k_curr_to : Z; k_next : timespec; k_final : timespec
}.

(** Where a thread is inside call1. *)
Inductive pc := Sending | Arming | Waiting | Leaving | Returned (ret : Z) (u : unmarshall).

Definition active (p : pc) : Prop := match p with Returned _ _ => False | _ => True end.

Definition window_front (w : list Z) : outcome Z :=
  match w with x :: _ => Done x | [] => Fault OutOfBounds end.

(** One carry is enough for a clock value and a number of milliseconds. *)
Definition deadline (now : timespec) (ms : Z) : outcome timespec := add_timespec 1 now ms.

Section client.
Variable fill : nat -> Z.

(** Up to the loop: an error, or the call as it enters the loop. *)
Definition call1_begin (t : nat) (proc : Z) (req : marshall) (to : Z) (now : timespec) (s : rpcc)
    : outcome (rpcc * (Z + call)) :=
  if (negb (proc =? bind) && negb (bind_done_ s)) || ((proc =? bind) && bind_done_ s)
  then mret (s, inl bind_failure)
  else if destroy_wait_ s then mret (s, inl cancel_failure)
  else
    let x := xid_ s in
    let s := set_xid (u32 (x + 1)) s in
    let s := set_calls (<[s32 x := t]> (calls_ s)) (<[t := Caller x unmarshall_empty 0 false]> (callers s)) s in
    ack ← window_front (xid_rep_window_ s);
    req ← pack_req_header fill (ReqHeader (s32 x) (s32 proc) (clt_nonce_ s) (srv_nonce_ s) (s32 ack)) req;
    bytes ← message req;
    final ← deadline now to;
    mret (s, inr (Call x bytes (s32 ack) None true to_min final final)).

(** A call that is refused leaves the endpoint as it is; a bind is refused when
    the endpoint is bound already, any other call when it is not. *)
Lemma call1_refused t proc req to now c c' ret :
  call1_begin t proc req to now c = Done (c', inl ret) ->
  c' = c /\ ((ret = bind_failure /\ (proc = bind <-> bind_done_ c = true)) \/ (ret = cancel_failure /\ destroy_wait_ c = true)).
Proof.
  intros H. unfold call1_begin in H. destruct (_ || _) eqn:E.
  { injection H as <- <-. split; [done |]. left. split; [done |].
    destruct (Z.eqb_spec proc bind), (bind_done_ c); by cbn in E. }
  destruct (destroy_wait_ c) eqn:Hd; [injection H as <- <-; by split; [| right] |].
  cbv zeta in H. apply bind_Done_inv in H as (ack & _ & H). apply bind_Done_inv in H as (m & _ & H).
  apply bind_Done_inv in H as (bytes & _ & H). by apply bind_Done_inv in H as (final & _ & H).
Qed.

(** [if(transmit)]: what is sent on the connection.  The channel and
    [dup_req_] are protected by different mutexes and used by nobody else in
    between. *)
Definition call1_send (dead : Z -> bool) (conn : option Z) (k : call) (s : rpcc)
    : outcome (rpcc * call * list (Z * list Z)) :=
  if negb (k_transmit k) then mret (s, k, [])
  else
    r ← get_refconn dead conn (k_ch k) s;
    let '(s, ch) := r in
    let k := Call (k_xid k) (k_req k) (k_xid_rep k) ch false (k_curr_to k) (k_next k) (k_final k) in
    match ch with
    | None => mret (s, k, [])
    | Some c =>
        if reachable_ s then
          if isvalid (dup_req_ s) && (rq_xid (dup_req_ s) <? xid_rep_done_ s)
          then mret (set_dup request_clear (xid_rep_done_ s) s, k, [(c, rq_buf (dup_req_ s)); (c, k_req k)])
          else mret (s, k, [(c, k_req k)])
        else mret (s, k, [])
    end.

(** The next deadline; [None] leaves the loop. *)
Definition call1_arm (now : timespec) (k : call) : outcome (option call) :=
  if tv_sec (k_final k) =? 0 then mret None
  else
    next ← deadline now (k_curr_to k);
    let '(next, final) := if 0 <? cmp_timespec next (k_final k)
                          then (k_final k, Timespec 0 (tv_nsec (k_final k))) else (next, k_final k) in
    mret (Some (Call (k_xid k) (k_req k) (k_xid_rep k) (k_ch k) (k_transmit k) (k_curr_to k) next final)).

(** After the wait, because the caller is done or because it timed out;
    [None] leaves the loop. *)
Definition call1_wake (dead : Z -> bool) (t : nat) (k : call) (s : rpcc) : outcome (option call) :=
  match callers s !! t with
  | None => Fault OutOfBounds
  | Some ca =>
      if done_ ca then mret None
      else
        let transmit := if retrans_ s && match k_ch k with None => true | Some c => dead c end
                        then true else k_transmit k in
        mret (Some (Call (k_xid k) (k_req k) (k_xid_rep k) (k_ch k) transmit (s32 (Z.shiftl (k_curr_to k) 1))
                         (k_next k) (k_final k)))
  end.

(** Behind the loop: the result and the reply. *)
Definition call1_end (t : nat) (k : call) (s : rpcc) : outcome (rpcc * Z * unmarshall) :=
  match callers s !! t with
  | None => Fault OutOfBounds
  | Some ca =>
      let s := set_calls (delete (s32 (k_xid k)) (calls_ s)) (callers s) s in
      let s := set_window (update_xid_rep (k_xid k) (xid_rep_window_ s)) s in
      let s := if done_ ca && negb (lossytest_ s =? 0) then
                 set_dup (if isvalid (dup_req_ s) then dup_req_ s else DupRequest (k_req k) (s32 (k_xid k)))
                         (if xid_rep_done_ s <? k_xid_rep k then k_xid_rep k else xid_rep_done_ s) s
               else s in
      s ← decref_opt (k_ch k) s;
      let s := set_calls (calls_ s) (delete t (callers s)) s in
      mret (s, if done_ ca then intret ca else timeout_failure, un ca)
  end.

(** ** Replies *)

(** got_pdu *)
Definition client_got_pdu (b : list Z) (sz : Z) (s : rpcc) : outcome rpcc :=
  r ← unpack_reply_header (unmarshall_new b sz);
  let '(rep, h) := r in
  if negb (u_ok rep) then mret s
  else
    let s := set_window (update_xid_rep (u32 (p_xid h)) (xid_rep_window_ s)) s in
    match calls_ s !! p_xid h with
    | None => mret s
    | Some t =>
        match callers s !! t with
        | None => Fault OutOfBounds                    (* the caller is gone *)
        | Some ca =>
            if done_ ca then mret s
            else mret (set_calls (calls_ s) (<[t := Caller (ca_xid ca) (fst (take_in rep)) (p_ret h) true]> (callers s)) s)
        end
    end.

(** ** Cancellation *)

Definition cancelled (ca : caller) : caller := Caller (ca_xid ca) (un ca) cancel_failure true.

(** cancel up to its wait, which ends when [calls_] is empty. *)
Definition cancel (s : rpcc) : rpcc :=
  let s := set_calls (calls_ s) (map_fold (fun _ t m => alter cancelled t m) (callers s) (calls_ s)) s in
  if decide (calls_ s = ∅) then s else set_destroy_wait true s.

(** Every caller object survives, at most marked. *)
Lemma cancel_callers c t ca :
  callers c !! t = Some ca ->
  callers (cancel c) !! t = Some ca \/ callers (cancel c) !! t = Some (cancelled ca).
Proof.
  intros Ht. set (m := map_fold (fun _ t m => alter cancelled t m) (callers c) (calls_ c)).
  assert (Hm : callers (cancel c) = m) by (unfold cancel; by destruct (decide _)).
  rewrite Hm. unfold m. apply (map_fold_weak_ind (fun m' _ => m' !! t = Some ca \/ m' !! t = Some (cancelled ca)));
    [by left |].
  intros x t' m' r _ IH. rewrite lookup_alter. case_decide; [subst t' | done]. right.
  by destruct IH as [-> | ->].
Qed.

(** The destructor; the connection is closed as well. *)
Definition rpcc_delete (s : rpcc) : outcome rpcc :=
  s ← decref_opt (chan_ s) s;
  _ ← verify (bool_decide (calls_ s = ∅));
  mret s.

(** ** call and bind *)

(** [marshall m; m << a1; ...]: several arguments one after the other. *)
Definition call_args {X} (cx : codec X) (x : X) : outcome marshall :=
  m ← marshall_new fill; c_put cx fill x m.

(** call_m after call1 *)
Definition call_m {R} (cr : codec R) (ret : Z) (u : unmarshall) : outcome (Z * option R) :=
  if ret <? 0 then mret (ret, None)
  else
    r ← c_get cr u;
    _ ← verify (okdone (fst r));
    mret (ret, Some (snd r)).

(** rpcc::bind after its call *)
Definition bind_end (ret : Z) (r : option Z) (s : rpcc) : rpcc :=
  match r with
  | Some r => if ret =? 0 then set_bind (u32 r) s else s
  | None => s
  end.

End client.
