(* ===== verification/RpcSystem.v ===== *)
(** * Remote procedure calls, end to end

    One client endpoint (RpcClient.v) with any number of calling threads, one
    server (RpcServer.v) that also serves other clients, and the messages
    between them.  A message that was sent can arrive any number of times, late
    or never: [requests] and [replies] only grow, and any of their elements may
    be delivered.  That the bytes of a message arrive as they were sent is the
    subject of Connection.v; [frame] is what arrives.

    The invariant [sys_ok] follows the transaction ids: which of them are
    settled (answered or given up), that acknowledgements and the server's
    window only forget settled ones, and that every answer comes from the one
    execution of its request.  The server's threads interleave in any way, and
    its handlers take as many steps as they like.  [perform] is an executable
    form of the step relation. *)

From S2P Require Import Prelude Marshall RpcWindow Connection RpcServer RpcClient.
Import Client Server Timer.

(** ** Messages *)

(** What a marshall object holds behind the header area. *)
Definition body (m : marshall) (b : list Z) : list Z := drop 24 (take (Z.to_nat (m_ind m)) b).

(** A message that was built by the << operators. *)
Definition built (m : marshall) : Prop := exists b, mar_ok m b /\ 24 <= m_ind m < MSG_LIMIT.

Lemma load_used b n :
  0 <= n <= Z.of_nat (length b) -> load_bytes b 0 (Z.to_nat n) = Done (take (Z.to_nat n) b).
Proof.
  intros Hn. unfold load_bytes. change (0 <=? 0) with true.
  destruct (Z.leb_spec (0 + Z.of_nat (Z.to_nat n)) (Z.of_nat (length b))); [done | lia].
Qed.

(** The buffer with its header, framed by the connection. *)
Lemma framed_parts m b hdr :
  mar_ok m b -> 24 <= m_ind m < MSG_LIMIT -> (length hdr <= 20)%nat ->
  let bytes := take (Z.to_nat (m_ind m)) (splice b 4 hdr) in
  message (Marshall (Some (splice b 4 hdr)) (m_capa m) (m_ind m)) = Done bytes /\
  Z.of_nat (length (frame bytes)) = m_ind m /\ sub (frame bytes) 4 (length hdr) = hdr /\
  drop 24 (frame bytes) = body m b.
Proof.
  intros (Hb & Hl & Hc & Hi) Hind Hh bytes.
  assert (Hls : length (splice b 4 hdr) = length b) by (apply length_splice; lia). split.
  { unfold message, buf_of. cbn [m_buf m_ind]. rewrite bind_Done. apply load_used. lia. }
  unfold frame. apply (message_parts b (m_ind m) hdr (be32 (Z.of_nat (length bytes))) (body m b)); try done; try lia.
  - unfold body. replace (take 24 b) with (take 24 (take (Z.to_nat (m_ind m)) b)).
    + by rewrite take_drop.
    + rewrite take_take. f_equal. lia.
  - unfold body. rewrite length_drop, length_take. lia.
Qed.

Lemma request_on_wire fill h m b :
  mar_ok m b -> 24 <= m_ind m < MSG_LIMIT -> header_wf h ->
  exists m' bytes u, pack_req_header fill h m = Done m' /\ message m' = Done bytes /\
    unpack_req_header (unmarshall_new (frame bytes) (Z.of_nat (length (frame bytes)))) = Done (u, h) /\
    um_at u (body m b).
Proof.
  intros Hm Hind Hh. destruct (framed_parts m b (req_header_bytes h) Hm Hind) as (Hmsg & Hlen & Hsub & Hdrop); [done |].
  set (bytes := take _ _) in *.
  destruct (unpack_req_header_done (unmarshall_new (frame bytes) (Z.of_nat (length (frame bytes)))) (frame bytes) h
    (body m b)) as (u & Hu & Hat); auto; try (cbn [u_sz unmarshall_new]; unfold MSG_LIMIT in *; lia).
  { rewrite <- Hdrop, <- Hsub at 1. change 24%nat with (4 + length (req_header_bytes h))%nat.
    unfold sub. by rewrite <- drop_drop, take_drop. }
  eexists _, bytes, u. split_and!; [by apply pack_req_header_done | done | done | done].
Qed.

Lemma unpack_reply_same u u' h : unpack_reply_header u = Done (u', h) -> same_buf u u'.
Proof.
  unfold unpack_reply_header. intros H. apply bind_Done_inv in H as ([u1 x] & H1 & H).
  apply bind_Done_inv in H as ([u2 y] & H2 & H). injection H as <- _.
  apply unpack_same in H1 as [B1 S1], H2 as [B2 S2]. cbn in *. split; cbn; congruence.
Qed.

Lemma reply_on_wire fill h m b :
  mar_ok m b -> 24 <= m_ind m < MSG_LIMIT -> is_s32 (p_xid h) -> is_s32 (p_ret h) ->
  exists m' bytes u, pack_reply_header fill h m = Done m' /\ message m' = Done bytes /\
    unpack_reply_header (unmarshall_new (frame bytes) (Z.of_nat (length (frame bytes)))) = Done (u, h) /\
    u_ok u = true /\ um_at (fst (take_in u)) (body m b).
Proof.
  intros Hm Hind Hx Hr.
  destruct (framed_parts m b (reply_header_bytes h) Hm Hind) as (Hmsg & Hlen & Hsub & Hdrop); [simpl; lia |].
  set (bytes := take _ _) in *.
  destruct (unpack_reply_header_done (unmarshall_new (frame bytes) (Z.of_nat (length (frame bytes)))) (frame bytes) h
    (body m b)) as (u & Hu & Hat); auto; try (cbn [u_sz unmarshall_new]; unfold MSG_LIMIT in *; lia).
  eexists _, bytes, u. split_and!; [by apply pack_reply_header_done | done | done | by destruct Hat as (? & _ & ? & _) |].
  apply unpack_reply_same in Hu as [Hb Hs]. cbn [u_buf u_sz unmarshall_new] in Hb, Hs.
  unfold take_in, u_take_buf. rewrite Hb, Hs. cbn [fst]. exists (frame bytes). cbn [u_buf u_ok u_sz u_ind].
  change RPC_HEADER_SZ with 24. unfold MSG_LIMIT in *. split_and!; try done; try lia.
Qed.

(** ** The system *)

Record thread := Thread { t_proc : Z; t_args : marshall; t_call : call; t_pc : pc }.

Definition at_pc (p : pc) (k : call) (th : thread) : thread := Thread (t_proc th) (t_args th) k p.

Section system.
Context {A : Type}.
Variable fill : nat -> Z.

Abbreviation job := (@job A).
Abbreviation disp := (@disp A).
Abbreviation phase := (@phase A).

(** One execution of a handler for the client: its transaction id, the steps it
    took on the application's state, and the reply. *)
Record run := Run { run_xid : Z; run_steps : list (A * A); run_reply : list Z }.

(** The server and its jobs; those of the client's requests are marked. *)
Record server := Server { node : rpcs A; jobs : list (bool * job) }.

(** The client endpoint with its threads, the server, the messages sent so far
    in each direction, and the executions so far. *)
Record sys := Sys {
  cl : rpcc; threads : gmap nat thread; srv : server;
  requests : list (list Z); replies : list (list Z); runs : list run
}.

(** An execution is over when the handler has returned. *)
Definition record_run (mine : bool) (j : job) (oj : option job) (l : list run) : list run :=
  match mine, j, oj with
  | true, Working d (PRun log (HRet _)), Some (Working _ (PAdd b sz)) =>
      match load_bytes b 0 (Z.to_nat sz) with Done bytes => Run (d_xid d) log bytes :: l | Fault _ => l end
  | _, _, _ => l
  end.

Definition pdu_len (m : list Z) : Z := Z.of_nat (length m).

Inductive step : sys -> sys -> Prop :=
(* a thread enters call1 *)
| st_begin t proc req to now c c' k th s rq rp l :
    th !! t = None -> built req -> xid_ c < 2 ^ 32 - 1 ->
    call1_begin fill t proc req to now c = Done (c', inr k) ->
    step (Sys c th s rq rp l) (Sys c' (<[t := Thread proc req k Sending]> th) s rq rp l)
(* call1 returns an error at once *)
| st_refused t proc req to now ret c c' th s rq rp l :
    call1_begin fill t proc req to now c = Done (c', inl ret) ->
    step (Sys c th s rq rp l) (Sys c' th s rq rp l)
| st_send dead conn t tr c c' k out th s rq rp l :
    th !! t = Some tr -> t_pc tr = Sending -> call1_send dead conn (t_call tr) c = Done (c', k, out) ->
    step (Sys c th s rq rp l) (Sys c' (<[t := at_pc Arming k tr]> th) s ((frame <$> out.*2) ++ rq) rp l)
| st_arm now t tr r c th s rq rp l :
    th !! t = Some tr -> t_pc tr = Arming -> call1_arm now (t_call tr) = Done r ->
    step (Sys c th s rq rp l)
         (Sys c (<[t := match r with Some k => at_pc Waiting k tr | None => at_pc Leaving (t_call tr) tr end]> th)
              s rq rp l)
| st_wake dead t tr r c th s rq rp l :
    th !! t = Some tr -> t_pc tr = Waiting -> call1_wake dead t (t_call tr) c = Done r ->
    step (Sys c th s rq rp l)
         (Sys c (<[t := match r with Some k => at_pc Sending k tr | None => at_pc Leaving (t_call tr) tr end]> th)
              s rq rp l)
| st_end t tr c c' ret u th s rq rp l :
    th !! t = Some tr -> t_pc tr = Leaving -> call1_end t (t_call tr) c = Done (c', ret, u) ->
    step (Sys c th s rq rp l) (Sys c' (<[t := at_pc (Returned ret u) (t_call tr) tr]> th) s rq rp l)
(* rpcc::bind takes the server's nonce *)
| st_bound t tr ret u ret' r c th s rq rp l :
    th !! t = Some tr -> t_pc tr = Returned ret u -> t_proc tr = bind -> call_m cd_int ret u = Done (ret', r) ->
    step (Sys c th s rq rp l) (Sys (bind_end ret' r c) th s rq rp l)
| st_cancel c th s rq rp l : step (Sys c th s rq rp l) (Sys (cancel c) th s rq rp l)
| st_reachable b c th s rq rp l : step (Sys c th s rq rp l) (Sys (set_reachable b c) th s rq rp l)
(* any message sent so far arrives, perhaps again *)
| st_reply m c c' th s rq rp l :
    m ∈ rp -> client_got_pdu m (pdu_len m) c = Done c' ->
    step (Sys c th s rq rp l) (Sys c' th s rq rp l)
| st_serve x m c th s js rq rp l :
    m ∈ rq ->
    step (Sys c th (Server s js) rq rp l) (Sys c th (Server (take_pdu x s) ((true, Queued x m (pdu_len m)) :: js)) rq rp l)
(* another client's message *)
| st_other x m sz req h c th s js rq rp l :
    unpack_req_header (unmarshall_new m sz) = Done (req, h) -> q_clt_nonce h <> clt_nonce_ c ->
    step (Sys c th (Server s js) rq rp l) (Sys c th (Server (take_pdu x s) ((false, Queued x m sz) :: js)) rq rp l)
(* a thread of the server *)
| st_job view z l1 mine j l2 s' oj out c th s rq rp l :
    job_step fill view z j s = Done (Some (s', oj, out)) ->
    step (Sys c th (Server s (l1 ++ (mine, j) :: l2)) rq rp l)
         (Sys c th (Server s' (l1 ++ (pair mine <$> over oj) ++ l2)) rq
              (if mine then (frame <$> out.*2) ++ rp else rp) (record_run mine j oj l)).

(** What the application keeps true of its state, whatever it is asked. *)
Variable Inv : A -> Prop.

(** Handlers write their results with the << operators and keep the
    application's invariant at every step. *)
Definition good_reply (o : outcome (marshall * Z)) : Prop := forall rep ret, o = Done (rep, ret) -> built rep /\ is_s32 ret.

Definition handlers_ok (procs : gmap Z (handler A)) : Prop :=
  forall p f, procs !! p = Some f -> forall req rep0, marshall_new fill = Done rep0 -> hsafe Inv good_reply (f req rep0).

Definition app_ok (s : rpcs A) : Prop := handlers_ok (procs_ s) /\ Inv (app s).

(** A new client and a server that has not heard of it. *)
Inductive start : sys -> Prop :=
| start_intro rnd lossy s :
    u32 rnd <> 0 -> serving fill s [] -> handlers_ok (procs_ s) -> Inv (app s) -> window (u32 rnd) s = [] ->
    executed_of (u32 rnd) s = [] ->
    start (Sys (rpcc_new true rnd lossy) ∅ (Server s []) [] [] []).

Inductive reach : sys -> Prop :=
| reach_start0 s : start s -> reach s
| reach_step0 s s' : reach s -> step s s' -> reach s'.

(** ** The invariant *)

(** The fixed part of a call. *)
Record ticket := Ticket { k_proc : Z; k_args : marshall; kx : Z; kreq : list Z }.
Definition ticket_of (th : thread) : ticket :=
  Ticket (t_proc th) (t_args th) (k_xid (t_call th)) (k_req (t_call th)).
Abbreviation tickets th := (ticket_of <$> (th : gmap nat thread)).

(** Everything up to [a] has been answered or given up; [R] is the list of
    those transaction ids. *)
Definition settled (R : list Z) (a : Z) : Prop := forall x, 1 <= x <= a -> x ∈ R.

(** The message of a call carries its transaction id, its procedure and its
    arguments, and acknowledges only what is settled. *)
Definition ticket_ok (n : Z) (R : list Z) (tk : ticket) : Prop :=
  1 <= kx tk < 2 ^ 32 - 1 /\
  exists b u h, mar_ok (k_args tk) b /\
    unpack_req_header (unmarshall_new (frame (kreq tk)) (pdu_len (frame (kreq tk)))) = Done (u, h) /\
    um_at u (body (k_args tk) b) /\ q_xid h = s32 (kx tk) /\ q_proc h = s32 (k_proc tk) /\ q_clt_nonce h = n /\
    settled R (u32 (q_xid_rep h)).

Definition tickets_ok (n next : Z) (R : list Z) (T : gmap nat ticket) : Prop :=
  (forall t tk, T !! t = Some tk -> ticket_ok n R tk /\ kx tk < next) /\
  (forall t t' tk tk', T !! t = Some tk -> T !! t' = Some tk' -> kx tk = kx tk' -> t = t').

Definition sent_by (T : gmap nat ticket) (m : list Z) : Prop := exists t tk, T !! t = Some tk /\ m = kreq tk.

(** The request of a call as the server unpacks it. *)
Definition unpacked (tk : ticket) (u : unmarshall) (h : req_header) : Prop :=
  unpack_req_header (unmarshall_new (frame (kreq tk)) (pdu_len (frame (kreq tk)))) = Done (u, h).

(** The execution that answered the call [tk]. *)
Definition run_of (procs : gmap Z (handler A)) (tk : ticket) (r : run) : Prop :=
  run_xid r = kx tk /\ Forall (fun st => Inv (fst st)) (run_steps r) /\
  exists (f : handler A) u h rep0 rep ret rep', procs !! s32 (k_proc tk) = Some f /\ unpacked tk u h /\
    marshall_new fill = Done rep0 /\ hexec (f u rep0) (run_steps r) (Done (rep, ret)) /\ 0 <= ret /\
    built rep /\ is_s32 ret /\
    pack_reply_header fill (ReplyHeader (s32 (kx tk)) ret) rep = Done rep' /\ message rep' = Done (run_reply r).

Definition runs_ok (procs : gmap Z (handler A)) (T : gmap nat ticket) (l : list run) : Prop :=
  forall r, r ∈ l -> exists t tk, T !! t = Some tk /\ run_of procs tk r.

(** The server's window of the client. *)
Definition window_ok (R : list Z) (l : list run) (w : list reply_t) : Prop :=
  ordered w /\ (forall f, front w = Some f -> settled R f) /\
  (forall r, r ∈ w -> cb_present r = true -> exists rn, rn ∈ l /\ run_xid rn = r_xid r /\
     load_bytes (r_buf r) 0 (Z.to_nat (r_sz r)) = Done (run_reply rn)).

(** A reply is that of an execution, or a refusal; a request is only refused
    as forgotten when it is settled. *)
Definition refusal (R : list Z) (T : gmap nat ticket) (m : list Z) : Prop :=
  exists t tk code bytes, T !! t = Some tk /\ bare_reply fill (ReplyHeader (s32 (kx tk)) code) = Done bytes /\
    m = frame bytes /\ (code = oldsrv_failure \/ (code = atmostonce_failure /\ kx tk ∈ R)).

Definition replies_ok (R : list Z) (T : gmap nat ticket) (l : list run) (rp : list (list Z)) : Prop :=
  forall m, m ∈ rp -> (exists r, r ∈ l /\ m = frame (run_reply r)) \/ refusal R T m.

(** What a job of the client's is about to send. *)
Definition source_ok (R : list Z) (T : gmap nat ticket) (l : list run) (src : buffer) : Prop :=
  forall b sz bytes, (src = Own b sz \/ exists n x, src = Recorded n x b sz) -> load_bytes b 0 (Z.to_nat sz) = Done bytes ->
    replies_ok R T l [frame bytes].

(** A job of the client's: its request is the one of a call, its handler's steps
    so far are those of the procedure, and what it will send is a reply. *)
Definition phase_ok (R : list Z) (T : gmap nat ticket) (l : list run) (tk : ticket) (d : disp) (ph : phase) : Prop :=
  match ph with
  | PRun log p => Forall (fun st => Inv (fst st)) log /\ exists rep0, marshall_new fill = Done rep0 /\
      forall tr o, hexec p tr o -> hexec (d_fn d (d_req d) rep0) (log ++ tr) o
  | PAdd b sz => exists r, r ∈ l /\ run_xid r = kx tk /\ load_bytes b 0 (Z.to_nat sz) = Done (run_reply r)
  | PChoose src | PSend src => source_ok R T l src
  | _ => True
  end.

Definition client_job (R : list Z) (T : gmap nat ticket) (l : list run) (procs : gmap Z (handler A)) (j : job) : Prop :=
  match j with
  | Queued c m sz => exists t tk, T !! t = Some tk /\ m = frame (kreq tk) /\ sz = pdu_len m
  | Working d ph => exists t tk, T !! t = Some tk /\ unpacked tk (d_req d) (d_head d) /\
      procs !! s32 (k_proc tk) = Some (d_fn d) /\ phase_ok R T l tk d ph
  end.

Definition other_job (n : Z) (j : job) : Prop :=
  match j with
  | Queued c m sz => exists req h, unpack_req_header (unmarshall_new m sz) = Done (req, h) /\ q_clt_nonce h <> n
  | Working d ph => d_nonce d <> n
  end.

(** Whoever sent the request, the handler is one of the server's. *)
Definition safe_job (procs : gmap Z (handler A)) (j : job) : Prop :=
  match j with
  | Queued _ _ _ => True
  | Working d ph => (exists p, procs !! p = Some (d_fn d)) /\ match ph with PRun _ p => hsafe Inv good_reply p | _ => True end
  end.

Definition job_ok (n : Z) (R : list Z) (T : gmap nat ticket) (l : list run) (procs : gmap Z (handler A)) (mj : bool * job) : Prop :=
  safe_job procs (snd mj) /\ if fst mj then client_job R T l procs (snd mj) else other_job n (snd mj).

Definition jobs_ok (n : Z) (R : list Z) (T : gmap nat ticket) (l : list run) (procs : gmap Z (handler A)) (js : list (bool * job)) : Prop :=
  forall mj, mj ∈ js -> job_ok n R T l procs mj.

(** Requests of the client whose handler was started and has not returned. *)
Definition unfinished (mj : bool * job) : option Z :=
  match mj with
  | (true, Working d (PNew | PRun _ _)) => Some (d_xid d)
  | _ => None
  end.

(** What a call may return. *)
Definition answered (l : list run) (x ret : Z) (u : unmarshall) : Prop :=
  exists r u0 h, r ∈ l /\ run_xid r = x /\
    unpack_reply_header (unmarshall_new (frame (run_reply r)) (pdu_len (frame (run_reply r)))) = Done (u0, h) /\
    p_ret h = ret /\ u = fst (take_in u0).

Definition result_ok (l : list run) (x ret : Z) (u : unmarshall) : Prop :=
  ret = timeout_failure \/ ret = cancel_failure \/ ret = oldsrv_failure \/ answered l x ret u.

(** A call that is under way is registered; once it is done it has its result,
    and before that its transaction id is not settled. *)
Definition registered (R : list Z) (l : list run) (c : rpcc) (t : nat) (x : Z) : Prop :=
  calls_ c !! s32 x = Some t /\ exists ca, callers c !! t = Some ca /\
    if done_ ca then result_ok l x (intret ca) (un ca) else x ∉ R.

Definition calls_ok (R : list Z) (th : gmap nat thread) (l : list run) (c : rpcc) : Prop :=
  (forall x t, calls_ c !! x = Some t ->
     exists tr, th !! t = Some tr /\ active (t_pc tr) /\ x = s32 (k_xid (t_call tr))) /\
  (forall t tr, th !! t = Some tr -> active (t_pc tr) -> registered R l c t (k_xid (t_call tr))) /\
  (forall t tr ret u, th !! t = Some tr -> t_pc tr = Returned ret u -> result_ok l (k_xid (t_call tr)) ret u).

Definition client_ok (n : Z) (R : list Z) (T : gmap nat ticket) (c : rpcc) : Prop :=
  clt_nonce_ c = n /\ is_u32 (srv_nonce_ c) /\ 1 <= xid_ c /\
  win_ok (xid_rep_window_ c) R /\ (forall x, x ∈ R -> x < xid_ c) /\
  (isvalid (dup_req_ c) = true -> sent_by T (rq_buf (dup_req_ c))).

(** The server and the messages. *)
Definition world_ok (n next : Z) (R : list Z) (T : gmap nat ticket) (s : server) (rq rp : list (list Z))
    (l : list run) : Prop :=
  serving fill (node s) (jobs s).*2 /\ app_ok (node s) /\ tickets_ok n next R T /\
  (forall m, m ∈ rq -> exists m0, m = frame m0 /\ sent_by T m0) /\
  runs_ok (procs_ (node s)) T l /\ (run_xid <$> l) ++ omap unfinished (jobs s) ≡ₚ executed_of n (node s) /\
  window_ok R l (window n (node s)) /\ replies_ok R T l rp /\ jobs_ok n R T l (procs_ (node s)) (jobs s).

Definition sys_ok (n : Z) (R : list Z) (s : sys) : Prop :=
  let T := tickets (threads s) in
  is_u32 n /\ n <> 0 /\ world_ok n (xid_ (cl s)) R T (srv s) (requests s) (replies s) (runs s) /\
  client_ok n R T (cl s) /\ calls_ok R (threads s) (runs s) (cl s).

(** ** Growth *)

Lemma settled_mono R R' a : R ⊆ R' -> settled R a -> settled R' a.
Proof. intros HR H x Hx. by apply HR, H. Qed.

Lemma tickets_ok_mono n next next' R R' T :
  R ⊆ R' -> next <= next' -> tickets_ok n next R T -> tickets_ok n next' R' T.
Proof.
  intros HR Hn [H1 H2]. split; [| done]. intros t tk Ht. destruct (H1 t tk Ht) as [[Hx (b & u & h & Hb)] Hlt].
  split; [| lia]. split; [done |]. exists b, u, h. destruct Hb as (?&?&?&?&?&?&?). split_and!; try done.
  by apply (settled_mono R).
Qed.

Lemma sent_by_mono T T' m : T ⊆ T' -> sent_by T m -> sent_by T' m.
Proof. intros HT (t & tk & Ht & ->). exists t, tk. split; [by apply (lookup_weaken _ T') in Ht | done]. Qed.

Lemma runs_ok_mono procs T T' l : T ⊆ T' -> runs_ok procs T l -> runs_ok procs T' l.
Proof.
  intros HT H r Hr. destruct (H r Hr) as (t & tk & Ht & Hrun). exists t, tk. split; [| done].
  by apply (lookup_weaken _ T') in Ht.
Qed.

Lemma window_ok_mono R R' l w : R ⊆ R' -> window_ok R l w -> window_ok R' l w.
Proof. intros HR (H1 & H2 & H3). split_and!; auto. intros f Hf. apply (settled_mono R); auto. Qed.

Lemma replies_ok_mono R R' T T' l rp :
  R ⊆ R' -> T ⊆ T' -> replies_ok R T l rp -> replies_ok R' T' l rp.
Proof.
  intros HR HT H m Hm. destruct (H m Hm) as [Hr|(t & tk & code & bytes & Ht & Hb & -> & Hc)]; [by left | right].
  exists t, tk, code, bytes. split_and!; [by apply (lookup_weaken _ T') in Ht | done | done |].
  destruct Hc as [|[? Hk]]; [by left | right]. split; [done | by apply HR].
Qed.

Lemma source_ok_mono R R' T T' l l' src :
  (forall rp, replies_ok R T l rp -> replies_ok R' T' l' rp) -> source_ok R T l src -> source_ok R' T' l' src.
Proof. intros Hrp H b sz bytes Hs Hl. by apply Hrp, (H b sz). Qed.

Lemma jobs_ok_mono n R R' T T' l l' procs js :
  T ⊆ T' -> l ⊆ l' -> (forall rp, replies_ok R T l rp -> replies_ok R' T' l' rp) ->
  jobs_ok n R T l procs js -> jobs_ok n R' T' l' procs js.
Proof.
  intros HT Hl Hrp H mj Hmj. destruct (H mj Hmj) as [Hs Hc]. split; [done |]. destruct (fst mj); [| done].
  destruct (snd mj) as [c m sz|d ph]; destruct Hc as (t & tk & Ht & Hrest); exists t, tk;
    (split; [by apply (lookup_weaken _ T') in Ht |]); [done |]. destruct Hrest as (? & ? & Hph). split_and!; [done | done |].
  destruct ph; cbn [phase_ok] in *; try done; [| by eapply source_ok_mono ..].
  destruct Hph as (r & Hr & ? & ?). exists r. by split; [apply Hl |].
Qed.

Lemma world_ok_mono n next R R' T T' s rq rp l next' :
  R ⊆ R' -> T ⊆ T' -> tickets_ok n next' R' T' -> world_ok n next R T s rq rp l -> world_ok n next' R' T' s rq rp l.
Proof.
  intros HR HT Htk (H1 & H2 & H3 & H4 & H5 & H6 & H7 & H8 & H9). split_and!; auto.
  - intros m Hm. destruct (H4 m Hm) as (m0 & -> & Hm0). exists m0. split; [done |]. by apply (sent_by_mono T).
  - by apply (runs_ok_mono _ T).
  - by apply (window_ok_mono R).
  - by apply (replies_ok_mono R _ T).
  - eapply jobs_ok_mono; [exact HT | done | | exact H9]. intros rp' Hrp. by apply (replies_ok_mono R _ T).
Qed.

Lemma world_ok_settle n next R x T s rq rp l :
  world_ok n next R T s rq rp l -> world_ok n next (x :: R) T s rq rp l.
Proof.
  intros H. assert (R ⊆ x :: R) by (intros y Hy; by right). apply (world_ok_mono n next R _ T); auto.
  apply (tickets_ok_mono n next next R); [done | lia | by destruct H as (_ & _ & ? & _)].
Qed.

Lemma result_ok_mono l l' x ret u : l ⊆ l' -> result_ok l x ret u -> result_ok l' x ret u.
Proof.
  intros Hl [|[|[|(r & u0 & h & Hr & Ha)]]]; [by left | by right; left | by right; right; left |].
  right; right; right. exists r, u0, h. split; [by apply Hl | done].
Qed.

Lemma calls_ok_runs R th l l' c : l ⊆ l' -> calls_ok R th l c -> calls_ok R th l' c.
Proof.
  intros Hl (H1 & H2 & H3). split_and!; [done | | intros; by eapply result_ok_mono, H3].
  intros t tr Ht Ha. destruct (H2 t tr Ht Ha) as [Hc (ca & Hca & Hd)]. split; [done |]. exists ca. split; [done |].
  destruct (done_ ca); [by eapply result_ok_mono | done].
Qed.

(** A step of a thread keeps its ticket. *)
Lemma tickets_same th t tr tr' :
  th !! t = Some tr -> ticket_of tr' = ticket_of tr -> tickets (<[t := tr']> th) = tickets th.
Proof. intros Ht He. rewrite fmap_insert, He. apply insert_id. by rewrite lookup_fmap, Ht. Qed.

(** ** Steps of a thread *)

Lemma decref_opt_chan o c c' : decref_opt o c = Done c' -> exists ch r, c' = set_chan ch r c.
Proof.
  destruct o as [x|]; cbn [decref_opt].
  - unfold conn_decref. intros H. apply bind_Done_inv in H as (u & _ & H). injection H as <-. by eexists _, _.
  - intros [= <-]. exists (chan_ c), (conn_refs c). by destruct c.
Qed.

Lemma get_refconn_chan dead conn o c c' o' :
  get_refconn dead conn o c = Done (c', o') -> exists ch r, c' = set_chan ch r c.
Proof.
  unfold get_refconn. intros H. apply bind_Done_inv in H as (c1 & H1 & H).
  assert (Hc1 : exists ch r, c1 = set_chan ch r c).
  { destruct (match chan_ c with None => true | Some x => dead x end).
    - apply bind_Done_inv in H1 as (c0 & H0 & H1). injection H1 as <-.
      apply decref_opt_chan in H0 as (ch & r & ->). by eexists _, _.
    - injection H1 as <-. exists (chan_ c), (conn_refs c). by destruct c. }
  destruct Hc1 as (ch & r & ->). destruct (chan_ _).
  - apply bind_Done_inv in H as (c2 & H2 & H). injection H as <- _.
    apply decref_opt_chan in H2 as (ch2 & r2 & ->). by eexists _, _.
  - injection H as <- _. by eexists _, _.
Qed.

Definition same_ids (k k' : call) : Prop := k_xid k' = k_xid k /\ k_req k' = k_req k.

(** The fields the invariant talks about. *)
Definition same_core (c c' : rpcc) : Prop :=
  clt_nonce_ c' = clt_nonce_ c /\ xid_ c' = xid_ c /\ xid_rep_window_ c' = xid_rep_window_ c /\
  calls_ c' = calls_ c /\ callers c' = callers c.

Lemma call1_send_spec dead conn k c c' k' out :
  call1_send dead conn k c = Done (c', k', out) ->
  same_ids k k' /\ same_core c c' /\ srv_nonce_ c' = srv_nonce_ c /\
  (dup_req_ c' = dup_req_ c \/ dup_req_ c' = request_clear) /\
  (forall m, m ∈ out.*2 -> m = k_req k \/ (isvalid (dup_req_ c) = true /\ m = rq_buf (dup_req_ c))).
Proof.
  unfold call1_send. destruct (negb (k_transmit k)).
  { intros [= <- <- <-]. split_and!; auto; try done. intros m Hm. by apply not_elem_of_nil in Hm. }
  intros H. apply bind_Done_inv in H as ([c1 o] & H1 & H). apply get_refconn_chan in H1 as (ch & r & ->).
  destruct o as [x|].
  2:{ injection H as <- <- <-. split_and!; auto; try done. intros m Hm. by apply not_elem_of_nil in Hm. }
  destruct (reachable_ _).
  2:{ injection H as <- <- <-. split_and!; auto; try done. intros m Hm. by apply not_elem_of_nil in Hm. }
  destruct (isvalid (dup_req_ (set_chan ch r c)) && _) eqn:Hv.
  - injection H as <- <- <-. apply andb_true_iff in Hv as [Hv _]. split_and!; auto; try done.
    intros m Hm. cbn in Hm. rewrite !elem_of_cons, elem_of_nil in Hm. destruct Hm as [->|[->|[]]]; auto.
  - injection H as <- <- <-. split_and!; auto; try done.
    intros m Hm. cbn in Hm. rewrite elem_of_cons, elem_of_nil in Hm. destruct Hm as [->|[]]; auto.
Qed.

Lemma call1_arm_spec now k r : call1_arm now k = Done (Some r) -> same_ids k r.
Proof.
  unfold call1_arm. destruct (_ =? 0); [done |]. intros H. apply bind_Done_inv in H as (next & _ & H).
  destruct (if 0 <? _ then _ else _). injection H as <-. done.
Qed.

Lemma call1_wake_spec dead t k c r : call1_wake dead t k c = Done (Some r) -> same_ids k r.
Proof.
  unfold call1_wake. destruct (callers c !! t); [| done]. destruct (done_ _); [done |]. by intros [= <-].
Qed.

Lemma calls_ok_move R th l c c' t tr k p :
  calls_ok R th l c -> th !! t = Some tr -> active (t_pc tr) -> active p -> k_xid k = k_xid (t_call tr) ->
  calls_ c' = calls_ c -> callers c' = callers c -> calls_ok R (<[t := at_pc p k tr]> th) l c'.
Proof.
  intros (H1 & H2 & H3) Ht Ha Hp Hk Hc Hr. split_and!.
  - intros x t' Hx. rewrite Hc in Hx. destruct (H1 x t' Hx) as (tr' & Ht' & Ha' & ->).
    destruct (decide (t' = t)) as [->|Hne].
    + rewrite lookup_insert_eq. eexists. split_and!; [done | done |]. cbn [t_call at_pc]. rewrite Hk. congruence.
    + rewrite lookup_insert_ne by done. by exists tr'.
  - intros t' tr' Ht' Ha'. unfold registered. rewrite Hc, Hr. destruct (decide (t' = t)) as [->|Hne].
    + rewrite lookup_insert_eq in Ht'. injection Ht' as <-. cbn [t_call at_pc]. rewrite Hk. by apply H2.
    + rewrite lookup_insert_ne in Ht' by done. by apply H2.
  - intros t' tr' ret u Ht' Hpc. destruct (decide (t' = t)) as [->|Hne].
    + rewrite lookup_insert_eq in Ht'. injection Ht' as <-. cbn [t_pc at_pc] in Hpc. by subst p.
    + rewrite lookup_insert_ne in Ht' by done. by eapply H3.
Qed.

Lemma client_ok_core n R T T' c c' :
  client_ok n R T c -> same_core c c' -> is_u32 (srv_nonce_ c') -> T ⊆ T' ->
  (dup_req_ c' = dup_req_ c \/ dup_req_ c' = request_clear) -> client_ok n R T' c'.
Proof.
  intros (H1 & _ & H3 & H4 & H5 & H6) (E1 & E2 & E3 & _ & _) Hs HT Hd. unfold client_ok.
  rewrite E1, E2, E3. split_and!; auto. intros Hv. destruct Hd as [Hd|Hd]; rewrite Hd in *; [| done].
  by apply (sent_by_mono T), H6.
Qed.

Lemma s32_inj x y : 1 <= x < 2 ^ 32 - 1 -> 1 <= y < 2 ^ 32 - 1 -> s32 x = s32 y -> x = y.
Proof. intros Hx Hy H. rewrite <- (s32_u32 x), <- (s32_u32 y) by (unfold is_u32; lia). by rewrite H. Qed.

(** ** A new call *)

Lemma call1_begin_spec n R T t proc req to now c c' k :
  built req -> is_u32 n -> client_ok n R T c -> xid_ c < 2 ^ 32 - 1 ->
  call1_begin fill t proc req to now c = Done (c', inr k) ->
  ticket_ok n R (Ticket proc req (xid_ c) (k_req k)) /\ k_xid k = xid_ c /\
  c' = set_calls (<[s32 (xid_ c) := t]> (calls_ c)) (<[t := Caller (xid_ c) unmarshall_empty 0 false]> (callers c))
         (set_xid (xid_ c + 1) c).
Proof.
  intros (b & Hb & Hind) Hn (Hnonce & Hsrv & Hx1 & (f & w' & Hw & Hs & Hxs & _ & Hrun & _) & _) Hx H.
  unfold call1_begin in H. destruct (_ || _); [done |]. destruct (destroy_wait_ c); [done |].
  cbn [xid_rep_window_ set_calls set_xid] in H. rewrite Hw in H. cbn [window_front] in H. rewrite bind_Done in H.
  assert (Hf : xid_ok f) by (rewrite Forall_forall in Hxs; apply Hxs; rewrite Hw; left). unfold xid_ok in Hf.
  cbn [clt_nonce_ srv_nonce_ set_calls set_xid] in H.
  destruct (request_on_wire fill (ReqHeader (s32 (xid_ c)) (s32 proc) (clt_nonce_ c) (srv_nonce_ c) (s32 f)) req b Hb Hind)
    as (m' & bytes & u & Hpack & Hmsg & Hun & Hat).
  { split_and!; try apply s32_range; [by rewrite Hnonce | done]. }
  rewrite Hpack, bind_Done, Hmsg, bind_Done in H. apply bind_Done_inv in H as (final & _ & H).
  injection H as <- <-. rewrite u32_id by (unfold is_u32; lia). split_and!; try done.
  split; [cbn [kx]; lia |]. exists b, u, (ReqHeader (s32 (xid_ c)) (s32 proc) (clt_nonce_ c) (srv_nonce_ c) (s32 f)).
  cbn [k_args kreq kx k_proc k_req q_xid q_proc q_clt_nonce q_xid_rep]. split_and!; try done.
  rewrite s32_u32 by (unfold is_u32; lia). done.
Qed.

Lemma tickets_ok_new n next R T t tk :
  tickets_ok n next R T -> ticket_ok n R tk -> kx tk = next ->
  tickets_ok n (next + 1) R (<[t := tk]> T).
Proof.
  intros Htk Hnew Hx. destruct (tickets_ok_mono n next (next + 1) R R T ltac:(done) ltac:(lia) Htk) as [A1 A2].
  assert (Hne : forall t' tk', T !! t' = Some tk' -> kx tk' <> next).
  { intros t' tk' Ht'. destruct (proj1 Htk t' tk' Ht') as [_ Hlt]. lia. }
  split.
  - intros t' tk' Ht'. rewrite lookup_insert in Ht'.
    case_decide; [injection Ht' as <-; split; [done | lia] | by apply (A1 t')].
  - intros t1 t2 tk1 tk2 H1 H2 He. rewrite lookup_insert in H1, H2. repeat case_decide; subst; try done.
    + injection H2 as <-. by destruct (Hne _ _ H1).
    + injection H1 as <-. by destruct (Hne _ _ H2).
    + by apply (A2 t1 t2 tk1 tk2).
Qed.

Lemma ticket_in T th t tr : T = tickets th -> th !! t = Some tr -> T !! t = Some (ticket_of tr).
Proof. intros -> Ht. by rewrite lookup_fmap, Ht. Qed.

(** The transaction ids of calls in the table are those of their tickets. *)
Lemma call_range n next R th t tr :
  tickets_ok n next R (tickets th) -> th !! t = Some tr -> 1 <= k_xid (t_call tr) < 2 ^ 32 - 1 /\ k_xid (t_call tr) < next.
Proof. intros [Htk _] Ht. by destruct (Htk t _ (ticket_in _ th t tr eq_refl Ht)) as [[Hx _] Hlt]. Qed.

Lemma calls_ok_new n R th l c t proc req k :
  tickets_ok n (xid_ c) R (tickets th) -> (forall x, x ∈ R -> x < xid_ c) -> 1 <= xid_ c < 2 ^ 32 - 1 ->
  calls_ok R th l c -> th !! t = None -> k_xid k = xid_ c ->
  calls_ok R (<[t := Thread proc req k Sending]> th) l
    (set_calls (<[s32 (xid_ c) := t]> (calls_ c)) (<[t := Caller (xid_ c) unmarshall_empty 0 false]> (callers c))
       (set_xid (xid_ c + 1) c)).
Proof.
  intros Htk HR Hx (H1 & H2 & H3) Ht Hkx. split_and!.
  - intros x t' Hl. cbn [calls_ set_calls] in Hl. rewrite lookup_insert in Hl. case_decide as Hd.
    + injection Hl as <-. rewrite lookup_insert_eq. eexists. split_and!; [done | done |]. cbn [t_call]. by rewrite Hkx.
    + destruct (H1 x t' Hl) as (tr & Ht' & Hr). assert (t' <> t) by congruence.
      rewrite lookup_insert_ne by done. by exists tr.
  - intros t' tr' Ht' Ha. destruct (decide (t' = t)) as [->|Hne].
    + rewrite lookup_insert_eq in Ht'. injection Ht' as <-. cbn [t_call]. rewrite Hkx.
      split; [apply lookup_insert_eq |]. eexists. split; [apply lookup_insert_eq |]. cbn [done_].
      intros HxR. specialize (HR _ HxR). lia.
    + rewrite lookup_insert_ne in Ht' by done. destruct (H2 t' tr' Ht' Ha) as [Hc (ca & Hcaller & Hd)].
      destruct (call_range n _ R th t' tr' Htk Ht') as [Hr Hlt]. split; cbn [calls_ callers set_calls].
      * rewrite lookup_insert_ne; [done |]. intros He. apply s32_inj in He; lia.
      * exists ca. by rewrite lookup_insert_ne.
  - intros t' tr' ret u Ht' Hpc. destruct (decide (t' = t)) as [->|Hne].
    + rewrite lookup_insert_eq in Ht'. by injection Ht' as <-.
    + rewrite lookup_insert_ne in Ht' by done. by eapply H3.
Qed.

Lemma begin_step n R t proc req to now c c' k th s rq rp l :
  sys_ok n R (Sys c th s rq rp l) -> th !! t = None -> built req -> xid_ c < 2 ^ 32 - 1 ->
  call1_begin fill t proc req to now c = Done (c', inr k) ->
  sys_ok n R (Sys c' (<[t := Thread proc req k Sending]> th) s rq rp l).
Proof.
  intros (Hn & Hn0 & Hw & Hcl & Hca) Ht Hbuilt Hx H. cbn [cl threads srv requests replies runs] in *.
  destruct (call1_begin_spec n R _ t proc req to now c c' k Hbuilt Hn Hcl Hx H) as (Htick & Hkx & ->).
  destruct Hcl as (H1 & H2 & H3 & H4 & H5 & H6). assert (Htk := Hw). destruct Htk as (_ & _ & Htk & _).
  assert (Hsub : tickets th ⊆ <[t := Ticket proc req (xid_ c) (k_req k)]> (tickets th)).
  { apply insert_subseteq. by rewrite lookup_fmap, Ht. }
  unfold sys_ok. cbn [cl threads srv requests replies runs xid_ set_calls set_xid]. rewrite fmap_insert.
  unfold ticket_of at 1 3. cbn [t_proc t_args t_call]. rewrite Hkx. split_and!; [done | done | | |].
  - apply (world_ok_mono n (xid_ c) R R (tickets th)); auto. by apply tickets_ok_new.
  - split_and!; try done; cbn [xid_ set_calls set_xid dup_req_].
    + lia.
    + intros x HxR. specialize (H5 x HxR). lia.
    + intros Hv. by apply (sent_by_mono (tickets th)), H6.
  - by apply (calls_ok_new n).
Qed.

(** ** Steps inside a call *)

Lemma move_step n R t tr k p c c' th s rq rq' rp l :
  sys_ok n R (Sys c th s rq rp l) -> th !! t = Some tr -> active (t_pc tr) -> active p ->
  same_ids (t_call tr) k -> same_core c c' -> is_u32 (srv_nonce_ c') ->
  (dup_req_ c' = dup_req_ c \/ dup_req_ c' = request_clear) ->
  (forall m, m ∈ rq' -> m ∈ rq \/ exists m0, m = frame m0 /\ sent_by (tickets th) m0) ->
  sys_ok n R (Sys c' (<[t := at_pc p k tr]> th) s rq' rp l).
Proof.
  intros (Hn & Hn0 & Hw & Hcl & Hca) Ht Ha Hp [Hk1 Hk2] Hcore Hsrv Hdup Hrq.
  cbn [cl threads srv requests replies runs] in *.
  assert (HT : tickets (<[t := at_pc p k tr]> th) = tickets th).
  { apply (tickets_same th t tr); [done |]. unfold ticket_of. cbn [t_proc t_args t_call at_pc]. by rewrite Hk1, Hk2. }
  unfold sys_ok. cbn [cl threads srv requests replies runs]. rewrite HT.
  destruct Hcore as (E1 & E2 & E3 & E4 & E5). split_and!; [done | done | | |].
  - rewrite E2. destruct Hw as (W1 & W2 & W3 & W4 & W5). split_and!; auto; try tauto.
    intros m Hm. destruct (Hrq m Hm); auto.
  - by apply (client_ok_core n R (tickets th) _ c).
  - by apply (calls_ok_move R th l c).
Qed.

Lemma send_step n R dead conn t tr c c' k out th s rq rp l :
  sys_ok n R (Sys c th s rq rp l) -> th !! t = Some tr -> t_pc tr = Sending ->
  call1_send dead conn (t_call tr) c = Done (c', k, out) ->
  sys_ok n R (Sys c' (<[t := at_pc Arming k tr]> th) s ((frame <$> out.*2) ++ rq) rp l).
Proof.
  intros Hok Ht Hpc H. destruct (call1_send_spec _ _ _ _ _ _ _ H) as (Hids & Hcore & Hs & Hdup & Hout).
  assert (Hcl := Hok). destruct Hcl as (_ & _ & _ & (_ & Hsrv & _ & _ & _ & Hd) & _).
  apply (move_step n R t tr k Arming c c' th s rq); auto; [by rewrite Hpc | done | by rewrite Hs |].
  intros m [Hm|Hm]%elem_of_app; [right | by left]. apply list_elem_of_fmap in Hm as (m0 & -> & Hm0).
  exists m0. split; [done |]. destruct (Hout m0 Hm0) as [->|[Hv ->]]; [| by apply Hd].
  exists t, (ticket_of tr). split; [by rewrite lookup_fmap, Ht | done].
Qed.

Lemma quiet_step n R t tr p k c th s rq rp l :
  sys_ok n R (Sys c th s rq rp l) -> th !! t = Some tr -> active (t_pc tr) -> active p ->
  same_ids (t_call tr) k -> sys_ok n R (Sys c (<[t := at_pc p k tr]> th) s rq rp l).
Proof.
  intros Hok Ht Ha Hp Hk. assert (Hcl := Hok). destruct Hcl as (_ & _ & _ & (_ & Hsrv & _) & _).
  apply (move_step n R t tr k p c c th s rq); auto; done.
Qed.

(** ** The end of a call *)

Lemma calls_ok_end n R th l c c' t tr ret u :
  tickets_ok n (xid_ c) R (tickets th) -> calls_ok R th l c -> th !! t = Some tr ->
  calls_ c' = delete (s32 (k_xid (t_call tr))) (calls_ c) -> callers c' = delete t (callers c) ->
  result_ok l (k_xid (t_call tr)) ret u ->
  calls_ok (k_xid (t_call tr) :: R) (<[t := at_pc (Returned ret u) (t_call tr) tr]> th) l c'.
Proof.
  intros Htk (H1 & H2 & H3) Ht Hc Hr Hres. pose proof (call_range n _ R th t tr Htk Ht) as [Hx _].
  assert (Hother : forall t' tr', th !! t' = Some tr' -> t' <> t ->
    k_xid (t_call tr') <> k_xid (t_call tr) /\ s32 (k_xid (t_call tr')) <> s32 (k_xid (t_call tr))).
  { intros t' tr' Ht' Hne. pose proof (call_range n _ R th t' tr' Htk Ht') as [Hx' _].
    assert (k_xid (t_call tr') <> k_xid (t_call tr)); [| split; [done | intros He; by apply s32_inj in He]].
    intros He. destruct Hne. destruct Htk as [_ Hinj].
    apply (Hinj t' t (ticket_of tr') (ticket_of tr)); [by eapply ticket_in .. | done]. }
  split_and!.
  - intros x t' Hl. rewrite Hc in Hl. apply lookup_delete_Some in Hl as [Hxne Hl].
    destruct (H1 x t' Hl) as (tr' & Ht' & Ha & ->). assert (t' <> t) by (intros ->; congruence).
    rewrite lookup_insert_ne by done. by exists tr'.
  - intros t' tr' Ht' Ha. destruct (decide (t' = t)) as [->|Hne].
    { rewrite lookup_insert_eq in Ht'. by injection Ht' as <-. }
    rewrite lookup_insert_ne in Ht' by done. destruct (H2 t' tr' Ht' Ha) as [Hreg (ca & Hca & Hd)].
    destruct (Hother t' tr' Ht' Hne) as [Hx1 Hx2]. split; [rewrite Hc, lookup_delete_ne by done; done |].
    exists ca. rewrite Hr, lookup_delete_ne by done. split; [done |]. destruct (done_ ca); [done |].
    rewrite elem_of_cons. tauto.
  - intros t' tr' ret' u' Ht' Hpc. destruct (decide (t' = t)) as [->|Hne].
    + rewrite lookup_insert_eq in Ht'. injection Ht' as <-. by injection Hpc as <- <-.
    + rewrite lookup_insert_ne in Ht' by done. by eapply H3.
Qed.

Lemma call1_end_spec t k c c' ret u :
  call1_end t k c = Done (c', ret, u) ->
  exists ca, callers c !! t = Some ca /\ ret = (if done_ ca then intret ca else timeout_failure) /\ u = un ca /\
    clt_nonce_ c' = clt_nonce_ c /\ srv_nonce_ c' = srv_nonce_ c /\ xid_ c' = xid_ c /\
    xid_rep_window_ c' = update_xid_rep (k_xid k) (xid_rep_window_ c) /\
    calls_ c' = delete (s32 (k_xid k)) (calls_ c) /\ callers c' = delete t (callers c) /\
    (dup_req_ c' = dup_req_ c \/ dup_req_ c' = DupRequest (k_req k) (s32 (k_xid k))).
Proof.
  unfold call1_end. destruct (callers c !! t) as [ca|] eqn:Hca; [| done]. intros H.
  apply bind_Done_inv in H as (c1 & Hd & H). injection H as <- <- <-.
  apply decref_opt_chan in Hd as (ch & r & ->). exists ca.
  destruct (done_ ca && _); [| split_and!; auto].
  split_and!; auto. cbn [dup_req_ set_calls set_chan set_dup]. destruct (isvalid _); auto.
Qed.

Lemma end_step n R t tr c c' ret u th s rq rp l :
  sys_ok n R (Sys c th s rq rp l) -> th !! t = Some tr -> t_pc tr = Leaving ->
  call1_end t (t_call tr) c = Done (c', ret, u) ->
  sys_ok n (k_xid (t_call tr) :: R) (Sys c' (<[t := at_pc (Returned ret u) (t_call tr) tr]> th) s rq rp l).
Proof.
  intros (Hn & Hn0 & Hw & Hcl & Hca) Ht Hpc H. cbn [cl threads srv requests replies runs] in *.
  destruct (call1_end_spec _ _ _ _ _ _ H) as (ca & Hcaller & Hret & Hu & E1 & E2 & E3 & E4 & E5 & E6 & E7).
  assert (Htk := Hw). destruct Htk as (_ & _ & Htk & _). pose proof (call_range n _ R th t tr Htk Ht) as [Hx Hlt].
  assert (HT : tickets (<[t := at_pc (Returned ret u) (t_call tr) tr]> th) = tickets th) by (by apply (tickets_same th t tr)).
  unfold sys_ok. cbn [cl threads srv requests replies runs]. rewrite HT, E3. split_and!; [done | done | | |].
  - by apply world_ok_settle.
  - destruct Hcl as (H1 & H2 & H3 & H4 & H5 & H6). unfold client_ok. rewrite E1, E2, E3, E4. split_and!; auto.
    + apply update_xid_rep_ok; [done | unfold xid_ok; lia].
    + intros x [->|HxR]%elem_of_cons; auto.
    + destruct E7 as [-> | ->]; [done |]. intros _. exists t, (ticket_of tr). split; [by rewrite lookup_fmap, Ht | done].
  - apply (calls_ok_end n R th l c c' t tr ret u); auto. subst ret u.
    destruct (proj1 (proj2 Hca) t tr Ht) as [_ (ca' & Hca' & Hd)]; [by rewrite Hpc |].
    rewrite Hcaller in Hca'. injection Hca' as <-. destruct (done_ ca); [done | by left].
Qed.

(** ** Cancellation *)

Lemma cancel_step n R c th s rq rp l :
  sys_ok n R (Sys c th s rq rp l) -> sys_ok n R (Sys (cancel c) th s rq rp l).
Proof.
  intros (Hn & Hn0 & Hw & Hcl & (H1 & H2 & H3)). cbn [cl threads srv requests replies runs] in *.
  assert (Hc : calls_ (cancel c) = calls_ c /\ xid_ (cancel c) = xid_ c) by (unfold cancel; by destruct (decide _)).
  destruct Hc as [Hc Hx]. unfold sys_ok. cbn [cl threads srv requests replies runs]. rewrite Hx. split_and!; auto.
  - unfold cancel. by destruct (decide _).
  - split_and!; [by rewrite Hc | | done]. intros t tr Ht Ha. destruct (H2 t tr Ht Ha) as [Hr (ca & Hca & Hd)].
    split; [by rewrite Hc |]. destruct (cancel_callers c t ca Hca) as [->| ->]; eexists; (split; [done |]); [done |].
    right. by left.
Qed.

(** ** Replies *)

Lemma run_reply_header procs tk r :
  run_of procs tk r ->
  exists u0 ret, unpack_reply_header (unmarshall_new (frame (run_reply r)) (pdu_len (frame (run_reply r)))) =
      Done (u0, ReplyHeader (s32 (kx tk)) ret) /\ u_ok u0 = true /\ 0 <= ret.
Proof.
  intros (_ & _ & f & u & h & rep0 & rep & ret & rep' & _ & _ & _ & _ & Hret & (b & Hb & Hind) & Hs & Hpack & Hmsg).
  destruct (reply_on_wire fill (ReplyHeader (s32 (kx tk)) ret) rep b Hb Hind) as (m' & bytes & u0 & Hp & Hm & Hun & Hok & _);
    [apply s32_range | done |]. rewrite Hpack in Hp. injection Hp as <-. rewrite Hmsg in Hm. injection Hm as <-.
  by exists u0, ret.
Qed.

Lemma bare_reply_header x code bytes :
  is_s32 x -> is_s32 code -> bare_reply fill (ReplyHeader x code) = Done bytes ->
  exists u0, unpack_reply_header (unmarshall_new (frame bytes) (pdu_len (frame bytes))) =
    Done (u0, ReplyHeader x code) /\ u_ok u0 = true.
Proof.
  intros Hx Hc H. unfold bare_reply in H. destruct (marshall_new_done fill) as (m & b & Hm & Hb & Hind).
  rewrite Hm, bind_Done in H.
  destruct (reply_on_wire fill (ReplyHeader x code) m b Hb) as (m' & bytes' & u0 & Hp & Hmsg & Hun & Hok & _);
    [rewrite Hind; unfold MSG_LIMIT; lia | done | done |].
  rewrite Hp, bind_Done, Hmsg in H. injection H as <-. by exists u0.
Qed.

(** A reply belongs to a call, and what it says is a result of the call unless
    the call is settled. *)
Lemma reply_meaning n next R T s rq rp l m :
  world_ok n next R T s rq rp l -> m ∈ rp ->
  exists u0 t tk ret, unpack_reply_header (unmarshall_new m (pdu_len m)) = Done (u0, ReplyHeader (s32 (kx tk)) ret) /\
    u_ok u0 = true /\ T !! t = Some tk /\ (kx tk ∈ R \/ result_ok l (kx tk) ret (fst (take_in u0))).
Proof.
  intros (_ & _ & _ & _ & Hruns & _ & _ & Hrp & _) Hm.
  destruct (Hrp m Hm) as [(r & Hr & ->)|(t & tk & code & bytes & Ht & Hb & -> & Hc)].
  - destruct (Hruns r Hr) as (t & tk & Ht & Hrun). destruct (run_reply_header _ tk r Hrun) as (u0 & ret & Hun & Hok & _).
    exists u0, t, tk, ret. split_and!; try done. right. right; right; right. exists r, u0, (ReplyHeader (s32 (kx tk)) ret).
    split_and!; try done. by destruct Hrun as (? & _).
  - destruct (bare_reply_header (s32 (kx tk)) code bytes) as (u0 & Hun & Hok); [apply s32_range | | done |].
    { destruct Hc as [->|[-> _]]; (split; [discriminate | reflexivity]). }
    exists u0, t, tk, code. split_and!; [exact Hun | exact Hok | exact Ht |]. destruct Hc as [->|[_ HR]]; [right; by right; right; left | by left].
Qed.

Lemma calls_ok_done R th l c t tr ca u ret w :
  calls_ok R th l c -> th !! t = Some tr -> callers c !! t = Some ca ->
  result_ok l (k_xid (t_call tr)) ret u ->
  calls_ok R th l (set_calls (calls_ c) (<[t := Caller (ca_xid ca) u ret true]> (callers c)) (set_window w c)).
Proof.
  intros (H1 & H2 & H3) Ht Hca Hres. split_and!; [done | | done].
  intros t' tr' Ht' Ha. destruct (H2 t' tr' Ht' Ha) as [Hc (ca' & Hca' & Hd)]. split; [done |].
  cbn [callers set_calls]. destruct (decide (t' = t)) as [->|Hne].
  - rewrite lookup_insert_eq. eexists. split; [done |]. cbn [done_ intret un]. congruence.
  - rewrite lookup_insert_ne by done. by exists ca'.
Qed.

(** A transaction id is settled when its call is done or gone. *)
Lemma calls_ok_settle R th l c x :
  calls_ok R th l c ->
  (forall t tr ca, th !! t = Some tr -> active (t_pc tr) -> callers c !! t = Some ca -> k_xid (t_call tr) = x -> done_ ca = true) ->
  calls_ok (x :: R) th l c.
Proof.
  intros (H1 & H2 & H3) Hx. split_and!; [done | | done].
  intros t tr Ht Ha. destruct (H2 t tr Ht Ha) as [Hc (ca & Hca & Hd)]. split; [done |]. exists ca. split; [done |].
  destruct (done_ ca) eqn:E; [done |]. rewrite elem_of_cons. intros [He|]; [| done].
  by rewrite (Hx t tr ca Ht Ha Hca He) in E.
Qed.

Lemma reply_step n R m c c' th s rq rp l :
  sys_ok n R (Sys c th s rq rp l) -> m ∈ rp -> client_got_pdu m (pdu_len m) c = Done c' ->
  exists x, sys_ok n (x :: R) (Sys c' th s rq rp l).
Proof.
  intros (Hn & Hn0 & Hw & Hcl & Hca) Hm H. cbn [cl threads srv requests replies runs] in *.
  destruct (reply_meaning _ _ _ _ _ _ _ _ _ Hw Hm) as (u0 & t & tk & ret & Hun & Hok & Ht & Hres).
  assert (Htk := Hw). destruct Htk as (_ & _ & Htk & _). destruct (proj1 Htk t tk Ht) as [[Hx _] Hlt].
  assert (Htr := Ht). rewrite lookup_fmap in Htr. apply fmap_Some in Htr as (tr & Htr & ->). cbn [kx ticket_of] in *.
  set (x := k_xid (t_call tr)) in *. exists x.
  unfold client_got_pdu in H. rewrite Hun, bind_Done, Hok in H. cbn [negb p_xid p_ret] in H.
  rewrite s32_u32 in H by (unfold is_u32; lia). set (w := update_xid_rep x (xid_rep_window_ c)) in *.
  cbn [calls_ callers set_window] in H.
  assert (Hcl' : client_ok n (x :: R) (tickets th) (set_window w c)).
  { destruct Hcl as (H1 & H2 & H3 & H4 & H5 & H6). split_and!; auto.
    - apply update_xid_rep_ok; [done | unfold xid_ok; lia].
    - intros y [->|HyR]%elem_of_cons; auto. }
  assert (Hset : forall c1, calls_ c1 = calls_ c -> calls_ok R th l c1 ->
    (forall ca, calls_ c !! s32 x = Some t -> callers c1 !! t = Some ca -> done_ ca = true) ->
    calls_ok (x :: R) th l c1).
  { intros c1 Hc1 Hok1 Hdone. apply calls_ok_settle; [done |]. intros t' tr' ca' Ht' Ha' Hca' He.
    assert (t' = t) as -> by (apply (proj2 Htk t' t (ticket_of tr') (ticket_of tr)); [by eapply ticket_in .. | done]).
    apply Hdone; [| done]. destruct (proj1 (proj2 Hok1) t tr' Ht' Ha') as [Hreg _]. rewrite He, Hc1 in Hreg. done. }
  destruct (calls_ c !! s32 x) as [t1|] eqn:Hcall.
  2:{ injection H as <-. unfold sys_ok. cbn [cl threads srv requests replies runs]. split_and!; try done.
      - by apply world_ok_settle.
      - by apply Hset. }
  destruct (proj1 Hca _ _ Hcall) as (tr1 & Ht1 & Ha1 & He1).
  pose proof (call_range n _ R th t1 tr1 Htk Ht1) as [Hx1 _]. apply s32_inj in He1; [| done | done].
  assert (t1 = t) as ->.
  { apply (proj2 Htk t1 t (ticket_of tr1) (ticket_of tr)); [by eapply ticket_in .. | done]. }
  assert (tr1 = tr) as -> by congruence.
  destruct (proj1 (proj2 Hca) t tr Htr Ha1) as [_ (ca & Hcaller & Hd)]. rewrite Hcaller in H. fold x in Hd.
  destruct (done_ ca) eqn:Hdone; injection H as <-; unfold sys_ok; cbn [cl threads srv requests replies runs];
    split_and!; try done; try (by apply world_ok_settle).
  - apply Hset; try done. intros ca' _ Hca'. cbn [callers set_window] in Hca'. congruence.
  - destruct Hres as [|Hres]; [done |]. apply Hset; try done.
    + by apply (calls_ok_done R th l c t tr ca).
    + intros ca' _ Hca'. cbn [callers set_calls] in Hca'. rewrite lookup_insert_eq in Hca'. by injection Hca' as <-.
Qed.

(** ** The server *)

Lemma window_ok_check R l w w' x ack st :
  window_ok R l w -> settled R ack -> checkduplicate_and_update x ack w = Done (st, w') -> window_ok R l w'.
Proof.
  intros (Ho & Hf & Hcb) Hack H. destruct (check_spec _ _ _ _ _ Ho H) as (_ & Ho' & _ & f' & Hf' & Hmono & Hnone & _ & Hfrom).
  split_and!; [done | |].
  - intros f0 Hf0. rewrite Hf' in Hf0. injection Hf0 as <-. destruct (front w) as [f|] eqn:E.
    + destruct (Hmono f eq_refl) as [_ [->| ->]]; [by apply Hf | done].
    + by rewrite Hnone.
  - intros r Hr Hp. destruct (Hfrom r Hr) as [Hin|[[-> _]|[_ ->]]]; [by apply Hcb | done | done].
Qed.

Lemma window_ok_add R l w w' x b sz rn :
  window_ok R l w -> add_reply x b sz w = Done w' -> rn ∈ l -> run_xid rn = x ->
  load_bytes b 0 (Z.to_nat sz) = Done (run_reply rn) -> window_ok R l w'.
Proof.
  intros (Ho & Hf & Hcb) H Hrn Hx Hl. destruct (add_reply_spec _ _ _ _ _ Ho H) as [Hxs Hin]. split_and!.
  - unfold ordered. by rewrite Hxs.
  - intros f Hf'. apply Hf. rewrite <- Hf'. unfold front. apply (f_equal head) in Hxs. unfold xids in Hxs.
    by destruct w, w'.
  - intros r Hr Hp. destruct (Hin r Hr) as [Hr'| ->]; [by apply Hcb | by exists rn].
Qed.

Lemma window_ok_runs R l l' w : l ⊆ l' -> window_ok R l w -> window_ok R l' w.
Proof.
  intros Hl (Ho & Hf & Hcb). split_and!; [done | done |]. intros r Hr Hp. destruct (Hcb r Hr Hp) as (rn & Hrn & ?).
  exists rn. by split; [apply Hl |].
Qed.

Lemma replies_ok_app R T l rp rp' : replies_ok R T l rp -> replies_ok R T l rp' -> replies_ok R T l (rp ++ rp').
Proof. intros H H' m [Hm|Hm]%elem_of_app; auto. Qed.

Lemma replies_ok_runs R T l l' rp : l ⊆ l' -> replies_ok R T l rp -> replies_ok R T l' rp.
Proof. intros Hl H m Hm. destruct (H m Hm) as [(r & Hr & ->)|]; [left; exists r; by split; [apply Hl |] | by right]. Qed.

Lemma replies_ok_nil R T l : replies_ok R T l [].
Proof. intros m Hm. by apply not_elem_of_nil in Hm. Qed.

(** The header of a request of the client. *)
Lemma client_header n R tk u h :
  ticket_ok n R tk -> unpacked tk u h ->
  u_ok u = true /\ q_clt_nonce h = n /\ u32 (q_xid h) = kx tk /\ q_xid h = s32 (kx tk) /\ q_proc h = s32 (k_proc tk) /\
  settled R (u32 (q_xid_rep h)) /\ 1 <= kx tk.
Proof.
  intros [Hx (b & u' & h' & Hb & Hun & Hat & Hhx & Hhp & Hhn & Hset)] Hu. unfold unpacked in Hu. rewrite Hun in Hu. injection Hu as <- <-.
  split_and!; try done; [by destruct Hat as (? & _ & ? & _) | rewrite Hhx; apply s32_u32; unfold is_u32; lia | lia].
Qed.

(** ** The server's threads *)

Lemma safe_step view z (j : job) s s' oj out :
  handlers_ok (procs_ s) -> Inv (app s) -> safe_job (procs_ s) j -> job_step fill view z j s = Done (Some (s', oj, out)) ->
  Inv (app s') /\ forall j', oj = Some j' -> safe_job (procs_ s) j'.
Proof.
  intros Hho Hinv Hs H. split.
  { destruct (job_step_fixed fill view z j s s' oj out H) as (_ & _ & [->|(d & log & f & a & p & -> & Hf & -> & _)]); [done |].
    destruct Hs as [_ Hp]. inversion Hp as [|f' Hi _|]; subst. by eapply Hi. }
  intros j' ->. destruct j as [c buf sz|d ph]; cbn [job_step] in H.
  { apply bind_Done_inv in H as (r & He & H). injection H as ->. unfold enter in He.
    apply bind_Done_inv in He as ([req h] & _ & He). destruct (negb _); [by apply bind_Done_inv in He as (? & _ & He) |].
    destruct (_ && _); [by apply bind_Done_inv in He as (? & _ & He) |].
    destruct (procs_ s !! q_proc h) as [f|] eqn:Hf; [| done]. injection He as _ <- _. split; [by eexists |]. by destruct (_ =? 0). }
  destruct Hs as [Hfn Hph]. unfold work in H. destruct ph as [| | | |log p|b sz|src|src|].
  - by injection H as _ <- _.
  - apply bind_Done_inv in H as (s1 & _ & H). by injection H as _ <- _.
  - apply bind_Done_inv in H as ([s1 ph1] & Hc & H). injection H as _ <- _. split; [done |]. unfold check in Hc.
    apply bind_Done_inv in Hc as ([st l] & _ & Hc). cbn [fst snd] in *.
    destruct st; [| | | apply bind_Done_inv in Hc as (? & _ & Hc)]; by injection Hc as _ <-.
  - apply bind_Done_inv in H as (rep & Hrep & H). injection H as _ <- _. split; [done |]. destruct Hfn as [p Hp]. by apply (Hho p).
  - destruct p as [o|f|k].
    + apply bind_Done_inv in H as (ph1 & Hfin & H). injection H as _ <- _. split; [done |]. unfold finish in Hfin.
      apply bind_Done_inv in Hfin as ([rep ret] & _ & Hfin). do 3 (apply bind_Done_inv in Hfin as (? & _ & Hfin)).
      destruct (m_take_buf _) as [[[b1|] sz1] m1]; [| done]. by injection Hfin as <-.
    + apply bind_Done_inv in H as ([[a p]|] & Hf & H); [| done]. injection H as _ <- _. split; [done |].
      inversion Hph as [|f' _ Hi|]; subst. by eapply Hi.
    + injection H as _ <- _. split; [done |]. inversion Hph; subst. auto.
  - destruct (0 <? d_nonce d); [apply bind_Done_inv in H as (l & _ & H) |]; by injection H as _ <- _.
  - destruct (_ && _); [| by injection H as _ <- _].
    apply bind_Done_inv in H as (s1 & Hd & H). destruct (conns_ s1 !! d_nonce d) as [c'|]; [| done]. by injection H as _ <- _.
  - apply bind_Done_inv in H as (bytes & _ & H). by injection H as _ <- _.
  - by apply bind_Done_inv in H as (s1 & _ & H).
Qed.

(** A job keeps its request. *)
Lemma work_disp view z (d : disp) ph s s' j' out :
  work fill view z d ph s = Done (Some (s', Some j', out)) -> exists c ph', j' = Working (on_conn c d) ph'.
Proof.
  assert (Hd : forall ph', exists c ph'', Working d ph' = Working (on_conn c d) ph'') by (intros ph'; exists (d_conn d), ph'; by destruct d).
  intros H. unfold work in H. destruct ph as [| | | |log p|b sz|src|src|].
  - injection H as _ <- _. apply Hd.
  - apply bind_Done_inv in H as (s1 & _ & H). injection H as _ <- _. apply Hd.
  - apply bind_Done_inv in H as (r & _ & H). injection H as _ <- _. apply Hd.
  - apply bind_Done_inv in H as (rep & _ & H). injection H as _ <- _. apply Hd.
  - destruct p as [o|f|k]; [apply bind_Done_inv in H as (ph1 & _ & H) | apply bind_Done_inv in H as ([[a p]|] & _ & H); [| done] |];
      injection H as _ <- _; apply Hd.
  - destruct (0 <? d_nonce d); [apply bind_Done_inv in H as (l & _ & H) |]; injection H as _ <- _; apply Hd.
  - destruct (_ && _); [| injection H as _ <- _; apply Hd].
    apply bind_Done_inv in H as (s1 & _ & H). destruct (conns_ s1 !! d_nonce d) as [c'|]; [| done]. injection H as _ <- _. by eexists _, _.
  - apply bind_Done_inv in H as (bytes & _ & H). injection H as _ <- _. apply Hd.
  - by apply bind_Done_inv in H as (s1 & _ & H).
Qed.

(** Another client's job. *)
Lemma job_step_other n view z (j : job) s s' oj out :
  other_job n j -> job_step fill view z j s = Done (Some (s', oj, out)) ->
  window n s' = window n s /\ executed_of n s' = executed_of n s /\ forall j', oj = Some j' -> other_job n j'.
Proof.
  intros Ho H. split; [| split].
  - destruct (job_step_effect fill view z j s s' oj out H) as [? Hw _|d _ Hw _|d st l' _ Hw _|d b sz l' _ Hw _]; rewrite Hw; [done | done | |];
      by rewrite decide_False by (intros ->; by apply Ho).
  - destruct (job_step_effect fill view z j s s' oj out H) as [? _ He|d Hz _ He|d st l' _ _ He|d b sz l' _ _ He];
      [unfold executed_of; by rewrite He | | | unfold executed_of; by rewrite He].
    { rewrite (executed_of_cons n 0 (d_xid d) s s' He). rewrite <- Hz. by rewrite decide_False by (intros ->; by apply Ho). }
    destruct st; [| unfold executed_of; by rewrite He ..]. rewrite (executed_of_cons n (d_nonce d) (d_xid d) s s' He).
    by rewrite decide_False by (intros ->; by apply Ho).
  - intros j' ->. destruct j as [c buf sz|d ph]; cbn [job_step] in H.
    + apply bind_Done_inv in H as (r & He & H). injection H as ->. destruct Ho as (req & h & Hun & Hne). unfold enter in He.
      rewrite Hun, bind_Done in He. destruct (negb _); [by apply bind_Done_inv in He as (? & _ & He) |].
      destruct (_ && _); [by apply bind_Done_inv in He as (? & _ & He) |].
      destruct (procs_ s !! q_proc h); [| done]. by injection He as _ <- _.
    + by destruct (work_disp view z d ph s s' j' out H) as (c & ph' & ->).
Qed.

(** What a step of a job of the client's does to the client's part of the
    world. *)
Record client_stepped (n : Z) (R : list Z) (T : gmap nat ticket) (l : list run) (procs : gmap Z (handler A))
    (j : job) (s s' : rpcs A) (oj : option job) (out : list (Z * list Z)) (l' : list run) : Prop := {
  cs_runs : forall r, r ∈ l' -> r ∈ l \/ exists t tk, T !! t = Some tk /\ run_of procs tk r;
  cs_grow : l ⊆ l';
  cs_window : window_ok R l' (window n s');
  cs_replies : replies_ok R T l' (frame <$> out.*2);
  cs_job : forall j', oj = Some j' -> client_job R T l' procs j';
  cs_executed : exists ex, executed_of n s' = ex ++ executed_of n s /\
    (run_xid <$> l') ++ omap unfinished (pair true <$> over oj) ≡ₚ ex ++ (run_xid <$> l) ++ omap unfinished [(true, j)]
}.

(** Steps that touch neither the window nor the executions. *)
Lemma quiet_stepped n R T l procs (j : job) (s s' : rpcs A) oj out :
  window_ok R l (window n s) -> window n s' = window n s -> executed_of n s' = executed_of n s ->
  replies_ok R T l (frame <$> out.*2) -> (forall j', oj = Some j' -> client_job R T l procs j') ->
  omap unfinished (pair true <$> over oj) = omap unfinished [(true, j)] -> client_stepped n R T l procs j s s' oj out l.
Proof.
  intros Hw Hw' He Hr Hj Hu. split; [by left | done | by rewrite Hw' | done | done |]. exists []. by rewrite He, Hu.
Qed.

Lemma enter_stepped n R T l procs c m sz s s' oj out :
  n <> 0 -> (forall t tk, T !! t = Some tk -> ticket_ok n R tk) -> window_ok R l (window n s) -> procs = procs_ s ->
  client_job R T l procs (Queued c m sz) -> enter fill c m sz s = Done (s', oj, out) ->
  client_stepped n R T l procs (Queued c m sz) s s' oj out l.
Proof.
  intros Hn0 Htk Hw -> (t & tk & Ht & -> & ->) H. assert (Hcore := H). apply enter_core in Hcore as (_ & _ & C3 & _ & _ & C6).
  assert (Hww : window n s' = window n s) by (unfold window; by rewrite C3).
  assert (Hee : executed_of n s' = executed_of n s) by (unfold executed_of; by rewrite C6).
  unfold enter in H. apply bind_Done_inv in H as ([u h] & Hun & H).
  destruct (client_header n R tk u h (Htk t tk Ht) Hun) as (Hok & Hn & Hx & Hx' & Hp & Hset & _). rewrite Hok in H. cbn [negb] in H.
  destruct (_ && _).
  - apply bind_Done_inv in H as (bytes & Hb & H). injection H as <- <- <-.
    apply quiet_stepped; [exact Hw | exact Hww | exact Hee | | by intros j' [=] | reflexivity].
    intros r Hr. apply list_elem_of_singleton in Hr as ->. right. exists t, tk, oldsrv_failure, bytes. rewrite <- Hx'. auto.
  - destruct (procs_ s !! q_proc h) as [f|] eqn:Hf; [| done]. injection H as <- <- <-.
    rewrite Hn, (proj2 (Z.eqb_neq n 0) Hn0). apply quiet_stepped; try done; [apply replies_ok_nil |].
    intros j' [= <-]. exists t, tk. split_and!; [done | done | by rewrite <- Hp | done].
Qed.

Section client_job.
Context (n : Z) (R : list Z) (T : gmap nat ticket) (l : list run) (d : disp) (t : nat) (tk : ticket) (procs : gmap Z (handler A)).
Hypotheses (Hn0 : 0 < n) (Ht : T !! t = Some tk) (Htk : ticket_ok n R tk) (Hun : unpacked tk (d_req d) (d_head d))
  (Hfn : procs !! s32 (k_proc tk) = Some (d_fn d)).

Lemma cj_nonce : d_nonce d = n.
Proof. by destruct (client_header n R tk _ _ Htk Hun) as (_ & ? & _). Qed.

Lemma cj_xid : d_xid d = kx tk.
Proof. by destruct (client_header n R tk _ _ Htk Hun) as (_ & _ & ? & _). Qed.

Lemma client_working c ph l' : phase_ok R T l' tk d ph -> client_job R T l' procs (Working (on_conn c d) ph).
Proof. intros H. exists t, tk. by split_and!. Qed.

Lemma client_working_same ph l' : phase_ok R T l' tk d ph -> client_job R T l' procs (Working d ph).
Proof. intros H. exists t, tk. by split_and!. Qed.

Lemma source_reply b sz rn src :
  rn ∈ l -> load_bytes b 0 (Z.to_nat sz) = Done (run_reply rn) -> src = Own b sz \/ (exists n' x, src = Recorded n' x b sz) ->
  source_ok R T l src.
Proof.
  intros Hrn Hl Hs b' sz' bytes Hs' Hl'. assert (b' = b /\ sz' = sz) as [-> ->].
  { destruct Hs as [->|(n1 & x1 & ->)], Hs' as [Hs'|(n2 & x2 & Hs')]; try done; by injection Hs'. }
  rewrite Hl in Hl'. injection Hl' as <-. intros m Hm. apply list_elem_of_singleton in Hm as ->. left. by exists rn.
Qed.

Lemma check_stepped s s' ph :
  window_ok R l (window n s) -> check fill d s = Done (s', ph) ->
  client_stepped n R T l procs (Working d PCheck) s s' (Some (Working d ph)) [] l.
Proof.
  intros Hw H. destruct (check_inv fill d s s' ph H) as (st & l' & Hck & Hws & Hex & Hph).
  destruct (client_header n R tk _ _ Htk Hun) as (_ & Hn & Hx & Hx' & _ & Hset & Hpos). fold (d_nonce d) in Hn. fold (d_xid d) in Hx.
  rewrite Hn, Hx in *. assert (Hw' : window_ok R l (window n s')) by (rewrite Hws, decide_True by done; by eapply window_ok_check).
  destruct Hw as (Ho & Hf & Hcb). destruct (check_spec _ _ _ _ _ Ho Hck) as (_ & _ & Hv & _).
  split; [by left | done | done | apply replies_ok_nil | |].
  - intros j' [= <-]. apply client_working_same. destruct st as [| |b sz|]; cbn [verdict_phase] in Hph.
    + by subst ph.
    + by subst ph.
    + subst ph. cbn [phase_ok]. destruct Hv as (r & Hr & Hrx & Hp & <- & <-). destruct (Hcb r Hr Hp) as (rn & Hrn & _ & Hload).
      eapply (source_reply _ _ rn); [done | exact Hload | right; by eexists _, _].
    + destruct Hph as (bytes & Hb & ->). cbn [phase_ok]. intros b sz bytes' Hs Hl.
      destruct Hs as [Hs|(n' & x' & Hs)]; [| done]. injection Hs as <- <-.
      rewrite load_used in Hl by lia. rewrite Nat2Z.id, take_ge in Hl by done. injection Hl as <-.
      intros m Hm. apply list_elem_of_singleton in Hm as ->. right. exists t, tk, atmostonce_failure, bytes. rewrite Hx' in Hb.
      split_and!; [exact Ht | exact Hb | reflexivity |]. right. split; [reflexivity |]. destruct Hv as [_ (f & Hfr & Hle)]. apply (Hf f Hfr). lia.
  - destruct st as [| |b sz|]; cbn [verdict_phase] in Hph.
    + subst ph. exists [kx tk]. rewrite (executed_of_cons n n (kx tk) s s' Hex), decide_True by done. split; [done |].
      cbn. rewrite cj_xid. by rewrite app_nil_r, Permutation_app_comm.
    + subst ph. exists []. unfold executed_of. by rewrite Hex.
    + subst ph. exists []. unfold executed_of. by rewrite Hex.
    + destruct Hph as (bytes & _ & ->). exists []. unfold executed_of. by rewrite Hex.
Qed.

Lemma finish_stepped log o s ph :
  window_ok R l (window n s) -> hsafe Inv good_reply (HRet (A := A) o) -> phase_ok R T l tk d (PRun log (HRet o)) ->
  finish fill d o = Done ph ->
  client_stepped n R T l procs (Working d (PRun log (HRet o))) s s (Some (Working d ph)) []
    (record_run true (Working d (PRun log (HRet o))) (Some (Working d ph)) l).
Proof.
  intros Hw Hs (Hinv & rep0 & Hrep0 & Hx) H. unfold finish in H. apply bind_Done_inv in H as ([rep ret] & -> & H).
  apply bind_Done_inv in H as (u1 & _ & H). apply bind_Done_inv in H as (u2 & Hret & H).
  apply bind_Done_inv in H as (rep' & Hpack & H). destruct rep' as [ob capa ind]. cbn [m_take_buf] in H.
  destruct ob as [b1|]; [| done]. injection H as <-. inversion Hs as [b Hg| |]; subst. destruct (Hg rep ret eq_refl) as [Hb Hr].
  destruct (client_header n R tk _ _ Htk Hun) as (_ & _ & _ & Hx' & _). rewrite Hx' in Hpack.
  assert (Hret' : 0 <= ret) by (destruct (Z.leb_spec 0 ret); [done | done]).
  destruct Hb as (bb & Hbb & Hind).
  destruct (reply_on_wire fill (ReplyHeader (s32 (kx tk)) ret) rep bb Hbb Hind) as (m' & bytes & u0 & Hp & Hm & _);
    [apply s32_range | done |]. rewrite Hpack in Hp. injection Hp as <-. assert (Hm' := Hm). unfold message, buf_of in Hm'.
  cbn [m_buf m_ind] in Hm'. rewrite bind_Done in Hm'. cbn [record_run]. rewrite Hm'. set (rn := Run (d_xid d) log bytes).
  assert (Hsub : l ⊆ rn :: l) by (intros r Hr'; by right).
  split; [| done | by eapply window_ok_runs | apply replies_ok_nil | |].
  - intros r [->|Hr']%elem_of_cons; [right | by left]. exists t, tk. split; [done |]. split; [apply cj_xid |]. split; [done |].
    exists (d_fn d), (d_req d), (d_head d), rep0, rep, ret, (Marshall (Some b1) capa ind).
    split_and!; try done; [| by exists bb]. cbn [run_steps rn]. rewrite <- (app_nil_r log). apply Hx. constructor.
  - intros j' [= <-]. apply client_working_same. exists rn. split_and!; [left | apply cj_xid | done].
  - exists []. split; [done |]. cbn. rewrite app_nil_r. apply Permutation_cons_append.
Qed.

Lemma work_stepped view z ph s s' oj out :
  window_ok R l (window n s) -> Inv (app s) -> phase_ok R T l tk d ph -> safe_job procs (Working d ph) ->
  work fill view z d ph s = Done (Some (s', oj, out)) ->
  client_stepped n R T l procs (Working d ph) s s' oj out (record_run true (Working d ph) oj l).
Proof.
  intros Hw Hinv Hph [_ Hsafe] H. unfold work in H. assert (Hd : on_conn (d_conn d) d = d) by by destruct d.
  assert (Hcore : forall s1, RpcServer.same_core s s1 -> window n s1 = window n s /\ executed_of n s1 = executed_of n s).
  { intros s1 (_ & _ & E3 & _ & _ & E6). unfold window, executed_of. by rewrite E3, E6. }
  destruct ph as [| | | |log p|b sz|src|src|].
  - injection H as <- <- <-. apply quiet_stepped; try done; [| by destruct (reply_window_ s !! d_nonce d) | apply replies_ok_nil |
      intros j' [= <-]; by apply client_working_same].
    destruct (reply_window_ s !! d_nonce d) eqn:E; [done |]. rewrite window_with. case_decide as Hk; [| done].
    unfold window. by rewrite Hk, E.
  - apply bind_Done_inv in H as (s1 & Hs & H). injection H as <- <- <-. apply save_conn_core in Hs.
    destruct (Hcore s1 Hs). apply quiet_stepped; try done; [apply replies_ok_nil | intros j' [= <-]; by apply client_working_same].
  - apply bind_Done_inv in H as ([s1 ph1] & Hc & H). injection H as <- <- <-. by apply check_stepped.
  - apply bind_Done_inv in H as (rep & Hrep & H). rewrite cj_nonce, (proj2 (Z.eqb_neq n 0)) in H by lia. injection H as <- <- <-.
    apply quiet_stepped; try done; [by destruct (counting_ s =? 0) | by destruct (counting_ s =? 0) | apply replies_ok_nil |].
    intros j' [= <-]. apply client_working_same. split; [constructor |]. exists rep. by split.
  - destruct p as [o|f|k].
    + apply bind_Done_inv in H as (ph1 & Hf & H). injection H as <- <- <-. by apply finish_stepped.
    + apply bind_Done_inv in H as ([[a p]|] & Hf & H); [| done]. injection H as <- <- <-.
      apply quiet_stepped; try done; [apply replies_ok_nil |]. intros j' [= <-]. apply client_working_same.
      destruct Hph as (Hi & rep0 & Hr0 & Hx). split; [apply Forall_app; by split; [| constructor] |]. exists rep0. split; [done |].
      intros tr o Ho. rewrite <- (assoc_L (++)). apply Hx. cbn. by eapply hx_step.
    + injection H as <- <- <-. apply quiet_stepped; try done; [apply replies_ok_nil |]. intros j' [= <-].
      apply client_working_same. destruct Hph as (Hi & rep0 & Hr0 & Hx). split; [done |]. exists rep0. split; [done |].
      intros tr o Ho. apply Hx. by eapply hx_env.
  - rewrite cj_nonce, (proj2 (Z.ltb_lt 0 n) Hn0) in H. apply bind_Done_inv in H as (l' & Ha & H). injection H as <- <- <-.
    destruct Hph as (rn & Hrn & Hrx & Hld). rewrite cj_xid in *.
    split; [by left | done | | apply replies_ok_nil | | exists []; by split].
    + rewrite window_with, decide_True by done. by eapply window_ok_add.
    + intros j' [= <-]. apply client_working_same. eapply (source_reply _ _ rn); [done | exact Hld | right; by eexists _, _].
  - destruct (_ && _).
    + apply bind_Done_inv in H as (s1 & Hs & H). destruct (conns_ s1 !! d_nonce d) as [c'|]; [| done]. injection H as <- <- <-.
      apply decref_core in Hs. destruct (Hcore s1 Hs). apply quiet_stepped; try done; [apply replies_ok_nil |].
      intros j' [= <-]. by apply client_working.
    + injection H as <- <- <-. apply quiet_stepped; try done; [apply replies_ok_nil |]. intros j' [= <-]. by apply client_working_same.
  - apply bind_Done_inv in H as (bytes & Hb & H). injection H as <- <- <-.
    apply quiet_stepped; try done; [| intros j' [= <-]; by apply client_working_same].
    destruct src as [b sz|n' x' b sz]; cbn [read_buffer] in Hb.
    + apply (Hph b sz); [by left | done].
    + destruct (recorded x' (window n' s)); [| done]. apply (Hph b sz); [right; by eexists _, _ | done].
  - apply bind_Done_inv in H as (s1 & Hs & H). injection H as <- <- <-. apply decref_core in Hs.
    destruct (Hcore s1 Hs). apply quiet_stepped; try done; apply replies_ok_nil.
Qed.
End client_job.

(** A message arrives. *)
Lemma take_ok n next R T x mine m sz s js rq rp l :
  world_ok n next R T (Server s js) rq rp l -> job_ok n R T l (procs_ s) (mine, Queued x m sz) ->
  world_ok n next R T (Server (take_pdu x s) ((mine, Queued x m sz) :: js)) rq rp l.
Proof.
  intros (Hsv & Hok & Htk & Hrq & Hruns & Hex & Hwin & Hrp & Hjs) Hj. cbn [node jobs] in *.
  split_and!; try done; cbn [node jobs].
  - rewrite fmap_cons. by apply sv_pdu.
  - cbn. by destruct mine.
  - intros mj [->|Hmj]%elem_of_cons; [done | by apply Hjs].
Qed.

(** Jobs of the list before and after a step. *)
Lemma jobs_ok_step n R T l l' procs l1 mine j l2 oj :
  l ⊆ l' -> jobs_ok n R T l procs (l1 ++ (mine, j) :: l2) -> (forall j', oj = Some j' -> job_ok n R T l' procs (mine, j')) ->
  jobs_ok n R T l' procs (l1 ++ (pair mine <$> over oj) ++ l2).
Proof.
  intros Hl Hjs Hj mj Hmj. rewrite !elem_of_app in Hmj.
  assert (Hold : mj ∈ l1 ++ (mine, j) :: l2 -> job_ok n R T l' procs mj).
  { intros Hin. by apply (jobs_ok_mono n R R T T l l' procs (l1 ++ (mine, j) :: l2)); [done | done | intros rp'; apply replies_ok_runs | |]. }
  destruct Hmj as [Hmj|[Hmj|Hmj]]; [apply Hold, elem_of_app; by left | | apply Hold, elem_of_app; right; by right].
  destruct oj as [j'|]; cbn in Hmj; [| by apply not_elem_of_nil in Hmj]. apply list_elem_of_singleton in Hmj as ->. by apply Hj.
Qed.

Lemma unfinished_app l1 (l0 l2 : list (bool * job)) (l : list Z) :
  l ++ omap unfinished (l1 ++ l0 ++ l2) ≡ₚ (l ++ omap unfinished l0) ++ omap unfinished (l1 ++ l2).
Proof. rewrite !omap_app. solve_Permutation. Qed.

(** A thread of the server takes a step. *)
Lemma job_ok_step n next R T view z l1 mine j l2 s s' oj out rq rp l :
  0 < n -> world_ok n next R T (Server s (l1 ++ (mine, j) :: l2)) rq rp l ->
  job_step fill view z j s = Done (Some (s', oj, out)) ->
  world_ok n next R T (Server s' (l1 ++ (pair mine <$> over oj) ++ l2)) rq (if mine then (frame <$> out.*2) ++ rp else rp)
    (record_run mine j oj l) /\ l ⊆ record_run mine j oj l.
Proof.
  intros Hn (Hsv & [Hho Hinv] & Htk & Hrq & Hruns & Hex & Hwin & Hrp & Hjs) H. cbn [node jobs] in *.
  assert (Hsv' : serving fill s' (l1 ++ (pair mine <$> over oj) ++ l2).*2).
  { rewrite fmap_app, fmap_cons in Hsv. rewrite !fmap_app, <- list_fmap_compose. cbn [snd] in Hsv.
    replace ((snd ∘ pair mine) <$> over oj) with (over oj) by (by destruct oj). by eapply sv_job. }
  destruct (job_step_fixed fill view z j s s' oj out H) as (_ & Hprocs & _).
  assert (Hjok := Hjs (mine, j)). destruct Hjok as [Hsafe Hj]; [apply elem_of_app; right; left |]. cbn [fst snd] in Hsafe, Hj.
  destruct (safe_step view z j s s' oj out Hho Hinv Hsafe H) as [Hinv' Hsafe'].
  assert (Hok' : app_ok s') by (split; [by rewrite Hprocs | done]). destruct mine.
  - set (l' := record_run true j oj l).
    assert (Hcs : client_stepped n R T l (procs_ s) j s s' oj out l').
    { destruct j as [c m sz|d ph]; cbn [job_step] in H.
      - apply bind_Done_inv in H as (r & He & H). injection H as ->. eapply enter_stepped; eauto; [lia |].
        intros t tk Ht. by apply (proj1 Htk t).
      - destruct Hj as (t & tk & Ht & Hun & Hfn & Hph). eapply work_stepped; eauto. by apply (proj1 Htk t). }
    destruct Hcs as [Cr Cg Cw Crep Cj (ex & Ce & Cp)]. split; [| done].
    split_and!; try done; cbn [node jobs]; rewrite ?Hprocs.
    + intros r Hr. destruct (Cr r Hr) as [|]; [by apply Hruns | done].
    + rewrite Ce, unfinished_app, Cp, <- Hex. rewrite (unfinished_app l1 [(true, j)] l2). solve_Permutation.
    + apply replies_ok_app; [done | by apply (replies_ok_runs R T l)].
    + eapply jobs_ok_step; [done | exact Hjs |]. intros j' Hj'. split; [by apply Hsafe' | by apply Cj].
  - destruct (job_step_other n view z j s s' oj out Hj H) as (Hw & He & Hj'). split; [| done].
    split_and!; try done; cbn [node jobs record_run]; rewrite ?Hprocs, ?Hw, ?He; try done.
    + rewrite <- Hex, unfinished_app, (unfinished_app l1 [(false, j)] l2). by destruct oj.
    + eapply jobs_ok_step; [done | exact Hjs |]. intros j' Hj''. split; [by apply Hsafe' | by apply Hj'].
Qed.

(** ** Every reachable state *)

Lemma step_ok n R s s' : sys_ok n R s -> step s s' -> exists R', sys_ok n R' s'.
Proof.
  intros Hok H. destruct H as
    [t proc req to now c c' k th s rq rp l Ht Hb Hx Hc | t proc req to now ret c c' th s rq rp l Hc
    | dead conn t tr c c' k out th s rq rp l Ht Hpc Hc
    | now t tr r c th s rq rp l Ht Hpc Hc | dead t tr r c th s rq rp l Ht Hpc Hc
    | t tr c c' ret u th s rq rp l Ht Hpc Hc | t tr ret u ret' r c th s rq rp l Ht Hpc Hp Hc | c th s rq rp l
    | b c th s rq rp l | m c c' th s rq rp l Hm Hc | x m c th s js rq rp l Hm
    | x m sz req h c th s js rq rp l Hun Hne | view z l1 mine j l2 s' oj out c th s rq rp l Hc].
  - exists R. by eapply begin_step.
  - exists R. by destruct (call1_refused _ _ _ _ _ _ _ _ _ Hc) as [-> _].
  - exists R. by eapply send_step.
  - exists R. destruct r as [k|]; apply quiet_step; auto; try (by rewrite Hpc); try done.
    by apply (call1_arm_spec now).
  - exists R. destruct r as [k|]; apply quiet_step; auto; try (by rewrite Hpc); try done.
    by apply (call1_wake_spec dead t _ c).
  - eexists. by eapply end_step.
  - exists R. destruct Hok as (Hn & Hn0 & Hw & Hcl & Hca). split_and!; try done.
    + cbn [cl threads srv requests replies runs] in *. unfold bind_end. by destruct r; [destruct (_ =? 0) |].
    + cbn [cl threads] in *. apply (client_ok_core n R (tickets th) _ c); auto; [| | left]; unfold bind_end;
        (destruct r; [destruct (_ =? 0) |]); try done; try apply u32_range; by destruct Hcl as (_ & ? & _).
    + cbn [cl threads runs] in *. unfold bind_end. by destruct r; [destruct (_ =? 0) |].
  - exists R. by apply cancel_step.
  - exists R. exact Hok.
  - destruct (reply_step n R m c c' th s rq rp l Hok Hm Hc) as (x & Hx). by eexists.
  - exists R. destruct Hok as (Hn & Hn0 & Hw & Hcl & Hca). cbn [cl threads srv requests replies runs] in *.
    split_and!; try done. cbn [cl threads srv requests replies runs]. apply take_ok; [done |]. split; [done |].
    destruct Hw as (_ & _ & _ & Hrq & _). destruct (Hrq m Hm) as (m0 & -> & t & tk & Ht & ->). by exists t, tk.
  - exists R. destruct Hok as (Hn & Hn0 & Hw & Hcl & Hca). cbn [cl threads srv requests replies runs] in *.
    split_and!; try done. cbn [cl threads srv requests replies runs]. apply take_ok; [done |]. split; [done |].
    destruct Hcl as (<- & _). by exists req, h.
  - exists R. destruct Hok as (Hn & Hn0 & Hw & Hcl & Hca). cbn [cl threads srv requests replies runs] in *.
    destruct (job_ok_step n _ R _ view z l1 mine j l2 s s' oj out rq rp l ltac:(unfold is_u32 in Hn; lia) Hw Hc) as [Hw' Hl].
    split_and!; try done. by eapply calls_ok_runs.
Qed.

Lemma start_ok s : start s -> sys_ok (clt_nonce_ (cl s)) [] s.
Proof.
  intros [rnd lossy s0 Hr Hsv Hho Hinv Hw Hex]. cbn [cl clt_nonce_ rpcc_new].
  split_and!; [apply u32_range | done | |  |]; cbn [cl threads srv requests replies runs].
  - rewrite fmap_empty. split_and!; cbn [node jobs]; [done | done | | | | by rewrite Hex | | |].
    + split; intros t; [intros tk |intros t' tk tk']; by rewrite lookup_empty.
    + intros m Hm. by apply not_elem_of_nil in Hm.
    + intros r Hr'. by apply not_elem_of_nil in Hr'.
    + rewrite Hw. split_and!; [constructor | by intros f |]. intros r Hr'. by apply not_elem_of_nil in Hr'.
    + intros m Hm. by apply not_elem_of_nil in Hm.
    + intros mj Hm. by apply not_elem_of_nil in Hm.
  - split_and!; try done; [apply win_ok_new |]. intros x Hx. by apply not_elem_of_nil in Hx.
  - split_and!; intros x t; [| | intros ? ?]; cbn [calls_ rpcc_new]; by rewrite lookup_empty.
Qed.

Lemma reach_ok s : reach s -> exists n R, sys_ok n R s.
Proof.
  induction 1 as [s Hs|s s' _ (n & R & IH) Hst].
  - eexists _, _. by apply start_ok.
  - destruct (step_ok n R s s' IH Hst) as (R' & H). by exists n, R'.
Qed.

(** ** Typed calls *)

Lemma nodup_key {B} (f : B -> Z) (l : list B) x y :
  NoDup (f <$> l) -> x ∈ l -> y ∈ l -> f x = f y -> x = y.
Proof.
  induction l as [|z l IH]; intros Hnd Hx Hy He; [by apply not_elem_of_nil in Hx |].
  rewrite fmap_cons in Hnd. apply NoDup_cons in Hnd as [Hz Hnd].
  apply elem_of_cons in Hx as [->|Hx], Hy as [->|Hy]; auto.
  - destruct Hz. rewrite He. by apply list_elem_of_fmap_2.
  - destruct Hz. rewrite <- He. by apply list_elem_of_fmap_2.
Qed.

(** A value the << operators can put into one message. *)
Definition fits {X} (cx : codec X) (x : X) : Prop := c_wf cx x /\ 24 + Z.of_nat (length (c_enc cx x)) < MSG_LIMIT.

Lemma put_body {X} (cx : codec X) x m0 m :
  fits cx x -> marshall_new fill = Done m0 -> c_put cx fill x m0 = Done m ->
  exists b, mar_ok m b /\ 24 <= m_ind m < MSG_LIMIT /\ body m b = c_enc cx x.
Proof.
  intros [Hwf Hlim] H0 Hm. destruct (write_message cx fill x Hwf Hlim) as (m1 & m2 & b & H1 & H2 & Hok & Hind & Htake).
  rewrite H0 in H1. injection H1 as <-. rewrite Hm in H2. injection H2 as <-. exists b. split_and!; [done | lia | lia |].
  unfold body. rewrite Htake. apply drop_app_length'. destruct Hok as (_ & Hl & Hc & _). rewrite length_take. lia.
Qed.

Lemma mar_ok_buf m b b' : mar_ok m b -> mar_ok m b' -> b' = b.
Proof. intros (H & _) (H' & _). rewrite H in H'. by injection H'. Qed.

Lemma read_all {X} (cx : codec X) x u :
  c_wf cx x -> um_at u (c_enc cx x) -> exists u', c_get cx u = Done (u', x) /\ okdone u' = true.
Proof.
  intros Hwf Hat. rewrite <- (app_nil_r (c_enc cx x)) in Hat.
  destruct (c_reads cx x Hwf u [] Hat) as (u' & Hg & b & _ & Hok & Hl & Hi & _ & Hd). exists u'. split; [done |].
  unfold okdone. rewrite Hok. apply (f_equal length) in Hd. rewrite length_drop in Hd. cbn in Hd |- *. lia.
Qed.

(** A method whose results can be sent and that keeps the application's
    invariant. *)
Definition typed_method {X Y} (cy : codec Y) (meth : X -> hprog A (Y * Z)) : Prop :=
  forall x, hsafe Inv (fun yb => fits cy (fst yb) /\ is_s32 (snd yb)) (meth x).

(** Such methods make handlers as the server expects them. *)
Lemma reg_fn_ok {X Y} (cx : codec X) (cy : codec Y) (meth : X -> hprog A (Y * Z)) :
  typed_method cy meth -> forall req rep0, marshall_new fill = Done rep0 -> hsafe Inv good_reply (reg_fn fill cx cy meth req rep0).
Proof.
  intros Hm req rep0 H0. unfold reg_fn. destruct (c_get cx req) as [[u x]|]; [| constructor; by intros rep ret]. cbn [fst snd].
  destruct (negb _).
  - constructor. intros rep ret [= <- <-]. split; [| done]. destruct (marshall_new_done fill) as (m & b & Hn & Hb & Hi).
    rewrite H0 in Hn. injection Hn as <-. exists b. split; [done |]. rewrite Hi. unfold MSG_LIMIT. lia.
  - eapply hsafe_map; [apply Hm |]. intros [y r] [Hfit Hr] rep ret Hput. cbn [fst snd] in *.
    apply bind_Done_inv in Hput as (rep1 & Hput & H). injection H as <- <-. split; [| done].
    destruct (put_body cy y rep0 rep1 Hfit H0 Hput) as (b & ? & ? & _). by exists b.
Qed.

Lemma hexec_safe {B} (Q : B -> Prop) (p : hprog A B) tr b :
  hsafe Inv Q p -> hexec p tr b -> Forall (fun st => Inv (fst st)) tr -> Q b.
Proof.
  intros Hs Hx. induction Hx as [b|f a a' p tr b Hf _ IH|k z tr b _ IH]; intros Htr; inversion Hs; subst; auto.
  apply Forall_cons in Htr as [Ha Htr]. apply IH; [| done]. eauto.
Qed.

(** The execution behind an answer, for a call of a typed procedure. *)
Lemma answered_typed {X Y} (cx : codec X) (cy : codec Y) (meth : X -> hprog A (Y * Z)) x
    (procs : gmap Z (handler A)) (tk : ticket) n R r u0 h m0 :
  ticket_ok n R tk -> run_of procs tk r -> procs !! s32 (k_proc tk) = Some (reg_fn fill cx cy meth) ->
  fits cx x -> marshall_new fill = Done m0 -> c_put cx fill x m0 = Done (k_args tk) -> typed_method cy meth ->
  unpack_reply_header (unmarshall_new (frame (run_reply r)) (pdu_len (frame (run_reply r)))) = Done (u0, h) ->
  exists y, hexec (meth x) (run_steps r) (y, p_ret h) /\ call_m cy (p_ret h) (fst (take_in u0)) = Done (p_ret h, Some y).
Proof.
  intros [_ (b & u & hq & Hb & Hun & Hat & _)] (_ & Hinv & f & u' & h' & rep0 & rep & ret & rep' & Hf & Hun' & H0 & Hrun & Hret & _ & _ & Hpack & Hmsg)
    Hproc Hx Hm0 Hput Hmeth Hrep.
  rewrite Hproc in Hf. injection Hf as <-. unfold unpacked in Hun'. rewrite Hun in Hun'. injection Hun' as <- <-.
  destruct (put_body cx x m0 (k_args tk) Hx Hm0 Hput) as (b' & Hb' & _ & Hbody).
  rewrite (mar_ok_buf _ _ _ Hb' Hb), Hbody in Hat. destruct (read_all cx x u (proj1 Hx) Hat) as (u1 & Hget & Hdone).
  unfold reg_fn in Hrun. rewrite Hget in Hrun. cbn [fst snd] in Hrun. rewrite Hdone in Hrun. cbn [negb] in Hrun.
  apply hexec_map in Hrun as ([y r1] & Hy & Hrun). symmetry in Hy. cbn [fst snd] in Hy.
  apply bind_Done_inv in Hy as (rep1 & Hputy & Hy). injection Hy as <- <-.
  destruct (hexec_safe _ _ _ _ (Hmeth x) Hrun Hinv) as [Hfit Hs]. cbn [fst snd] in *.
  destruct (put_body cy y rep0 rep1 Hfit H0 Hputy) as (by' & Hby & Hind & Hbody').
  destruct (reply_on_wire fill (ReplyHeader (s32 (kx tk)) r1) rep1 by' Hby Hind) as (m' & bytes & u2 & Hp & Hm & Hun2 & _ & Hat2);
    [apply s32_range | done |].
  rewrite Hpack in Hp. injection Hp as <-. rewrite Hmsg in Hm. injection Hm as <-. unfold pdu_len in Hrep.
  rewrite Hun2 in Hrep. injection Hrep as <- <-. cbn [p_ret]. exists y. split; [done |].
  rewrite Hbody' in Hat2. destruct (read_all cy y _ (proj1 Hfit) Hat2) as (u3 & Hget3 & Hdone3).
  unfold call_m. destruct (Z.ltb_spec r1 0); [lia |].
  rewrite Hget3, bind_Done. cbn [fst snd]. by rewrite Hdone3.
Qed.

(** ** Theorems *)

(** A finished call whose reply came from the server. *)
Lemma returned_answered st t tr ret u :
  reach st -> threads st !! t = Some tr -> t_pc tr = Returned ret u ->
  ret = timeout_failure \/ ret = cancel_failure \/ ret = oldsrv_failure \/
  exists n R r u0 h, ticket_ok n R (ticket_of tr) /\ run_of (procs_ (node (srv st))) (ticket_of tr) r /\ r ∈ runs st /\
    unpack_reply_header (unmarshall_new (frame (run_reply r)) (pdu_len (frame (run_reply r)))) = Done (u0, h) /\
    p_ret h = ret /\ u = fst (take_in u0) /\ 0 <= ret /\ NoDup (run_xid <$> runs st).
Proof.
  intros Hr Ht Hpc. destruct (reach_ok st Hr) as (n & R & Hn & Hn0 & Hw & Hcl & (_ & _ & H3)).
  destruct (H3 t tr ret u Ht Hpc) as [|[|[|(r & u0 & h & Hin & Hx & Hun & Hret & Hu)]]];
    [by left | by right; left | by right; right; left |]. right; right; right.
  destruct Hw as (Hsv & _ & Htk & _ & Hruns & Hex & _). destruct (Hruns r Hin) as (t' & tk & Ht' & Hrun).
  pose proof (ticket_in _ (threads st) t tr eq_refl Ht) as Htt.
  assert (t' = t) as ->.
  { apply (proj2 Htk t' t tk (ticket_of tr)); auto. destruct Hrun as (<- & _). exact Hx. }
  assert (tk = ticket_of tr) as -> by congruence.
  destruct (run_reply_header _ _ r Hrun) as (u1 & ret1 & Hun1 & _ & Hpos). rewrite Hun1 in Hun. injection Hun as <- <-.
  exists n, R, r, u1, (ReplyHeader (s32 (kx (ticket_of tr))) ret1). split_and!; try done; [by apply (proj1 Htk t) | by subst ret |].
  pose proof (executed_of_nodup fill n _ _ Hn0 Hsv) as Hnd. rewrite <- Hex in Hnd. by apply NoDup_app in Hnd as [? _].
Qed.

(** The execution behind the result of a typed call. *)
Lemma typed_call_run {X Y} (cx : codec X) (cy : codec Y) (meth : X -> hprog A (Y * Z)) x m0 st t tr ret u :
  reach st -> threads st !! t = Some tr -> t_pc tr = Returned ret u -> 0 <= ret ->
  procs_ (node (srv st)) !! s32 (t_proc tr) = Some (reg_fn fill cx cy meth) ->
  fits cx x -> marshall_new fill = Done m0 -> c_put cx fill x m0 = Done (t_args tr) -> typed_method cy meth ->
  exists r y, r ∈ runs st /\ run_xid r = k_xid (t_call tr) /\
    hexec (meth x) (run_steps r) (y, ret) /\ call_m cy ret u = Done (ret, Some y) /\
    (forall r', r' ∈ runs st -> run_xid r' = k_xid (t_call tr) -> r' = r) /\ Forall (fun p => Inv (fst p)) (run_steps r).
Proof.
  intros Hr Ht Hpc Hret Hproc Hx Hm0 Hput Hmeth.
  destruct (returned_answered st t tr ret u Hr Ht Hpc) as [->|[->|[->|(n & R & r & u0 & h & Htk & Hrun & Hin & Hun & <- & -> & _ & Hnd)]]];
    try (by destruct Hret).
  destruct (answered_typed cx cy meth x _ (ticket_of tr) n R r u0 h m0 Htk Hrun Hproc Hx Hm0 Hput Hmeth Hun) as (y & Hy & Hcall).
  assert (Hxr : run_xid r = k_xid (t_call tr)) by (by destruct Hrun as (? & _)).
  exists r, y. split_and!; try done; [| by destruct Hrun as (_ & ? & _)].
  intros r' Hr' Hx'. apply (nodup_key run_xid (runs st)); try done. congruence.
Qed.

(** C4: a remote call is one local call.  If a thread's call of a typed
    procedure returns a result that is not an error, then the method was run
    for it exactly once, on the arguments of the call: the steps it took are
    those of one run of its program, on states in which the application's
    invariant held.  The result it returned is the one the caller unmarshals,
    and the unmarshalling does not fail.  This holds for any number of calling
    threads and of threads of the server, for methods that wait and make calls
    themselves, with timeouts, retransmissions on new connections,
    cancellations and other clients, when messages can be lost, delayed,
    repeated and reordered. *)
Theorem remote_call_correct {X Y} (cx : codec X) (cy : codec Y) (meth : X -> hprog A (Y * Z)) x m0 st t tr ret u :
  reach st -> threads st !! t = Some tr -> t_pc tr = Returned ret u -> 0 <= ret ->
  procs_ (node (srv st)) !! s32 (t_proc tr) = Some (reg_fn fill cx cy meth) ->
  fits cx x -> marshall_new fill = Done m0 -> c_put cx fill x m0 = Done (t_args tr) -> typed_method cy meth ->
  exists r y, r ∈ runs st /\ run_xid r = k_xid (t_call tr) /\
    hexec (meth x) (run_steps r) (y, ret) /\ call_m cy ret u = Done (ret, Some y) /\
    (forall r', r' ∈ runs st -> run_xid r' = k_xid (t_call tr) -> r' = r) /\ Forall (fun p => Inv (fst p)) (run_steps r).
Proof. apply typed_call_run. Qed.

Lemma call_errors_cases st t tr ret u :
  reach st -> threads st !! t = Some tr -> t_pc tr = Returned ret u ->
  0 <= ret \/ ret = timeout_failure \/ ret = cancel_failure \/ ret = oldsrv_failure.
Proof.
  intros Hr Ht Hpc. destruct (returned_answered st t tr ret u Hr Ht Hpc)
    as [?|[?|[?|(n & R & r & u0 & h & _ & _ & _ & _ & _ & _ & Hret & _)]]]; auto.
Qed.

(** C20: the errors call1 reports.  A call that sent its request reports a
    timeout, a cancellation or a server that was replaced and no other error;
    in particular the server never answers that it has forgotten a request its
    client still waits for.  A call that returns before it has a transaction id
    reports bind_failure, exactly when it binds a bound endpoint or uses one
    that is not bound, or cancel_failure, when a cancellation waits; such a
    call leaves the endpoint as it was. *)
Theorem call_errors st :
  reach st ->
  (forall t tr ret u, threads st !! t = Some tr -> t_pc tr = Returned ret u ->
    0 <= ret \/ ret = timeout_failure \/ ret = cancel_failure \/ ret = oldsrv_failure) /\
  (forall t proc req to now c' ret, call1_begin fill t proc req to now (cl st) = Done (c', inl ret) ->
    c' = cl st /\ ((ret = bind_failure /\ (proc = bind <-> bind_done_ (cl st) = true)) \/
                  (ret = cancel_failure /\ destroy_wait_ (cl st) = true))).
Proof. intros H. split; [intros t tr ret u; by apply call_errors_cases | intros *; by apply call1_refused]. Qed.

(** ** Running the system *)

Inductive action :=
| ABegin (t : nat) (proc : Z) (req : outcome marshall) (to : Z) (now : timespec)
| ASend (t : nat) (dead : Z -> bool) (conn : option Z)
| AArm (t : nat) (now : timespec)
| AWake (t : nat) (dead : Z -> bool)
| AEnd (t : nat)
| ABound (t : nat)
| AReply (i : nat)
| AServe (c : Z) (i : nat)
| AJob (view : Z -> conn_view) (z : Z) (i : nat).

Definition builtb (m : marshall) : bool :=
  match m_buf m with
  | None => false
  | Some b => (Z.of_nat (length b) =? m_capa m) && (1024 <=? m_capa m) && (m_capa m <? 2 ^ 31) &&
      (24 <=? m_ind m) && (m_ind m <=? m_capa m) && (m_ind m <? MSG_LIMIT)
  end.

(** The thread [t] if it is at a place that satisfies [p]. *)
Definition thread_at (p : pc -> bool) (t : nat) (s : sys) : outcome thread :=
  match threads s !! t with
  | Some tr => if p (t_pc tr) then Done tr else Fault AssertFailed
  | None => Fault AssertFailed
  end.

Definition nth_message (l : list (list Z)) (i : nat) : outcome (list Z) :=
  match l !! i with Some m => Done m | None => Fault AssertFailed end.

Definition perform (a : action) (s : sys) : outcome sys :=
  let '(Sys c th sv rq rp l) := s in
  match a with
  | ABegin t proc req to now =>
      req ← req;
      _ ← verify (bool_decide (th !! t = None) && builtb req && (xid_ c <? 2 ^ 32 - 1));
      r ← call1_begin fill t proc req to now c;
      match snd r with
      | inl _ => Fault AssertFailed
      | inr k => mret (Sys (fst r) (<[t := Thread proc req k Sending]> th) sv rq rp l)
      end
  | ASend t dead conn =>
      tr ← thread_at (fun p => match p with Sending => true | _ => false end) t s;
      r ← call1_send dead conn (t_call tr) c;
      mret (Sys (fst (fst r)) (<[t := at_pc Arming (snd (fst r)) tr]> th) sv ((frame <$> (snd r).*2) ++ rq) rp l)
  | AArm t now =>
      tr ← thread_at (fun p => match p with Arming => true | _ => false end) t s;
      r ← call1_arm now (t_call tr);
      mret (Sys c (<[t := match r with Some k => at_pc Waiting k tr | None => at_pc Leaving (t_call tr) tr end]> th)
                sv rq rp l)
  | AWake t dead =>
      tr ← thread_at (fun p => match p with Waiting => true | _ => false end) t s;
      r ← call1_wake dead t (t_call tr) c;
      mret (Sys c (<[t := match r with Some k => at_pc Sending k tr | None => at_pc Leaving (t_call tr) tr end]> th)
                sv rq rp l)
  | AEnd t =>
      tr ← thread_at (fun p => match p with Leaving => true | _ => false end) t s;
      r ← call1_end t (t_call tr) c;
      mret (Sys (fst (fst r)) (<[t := at_pc (Returned (snd (fst r)) (snd r)) (t_call tr) tr]> th) sv rq rp l)
  | ABound t =>
      tr ← thread_at (fun _ => true) t s;
      match t_pc tr with
      | Returned ret u =>
          _ ← verify (t_proc tr =? bind);
          r ← call_m cd_int ret u;
          mret (Sys (bind_end (fst r) (snd r) c) th sv rq rp l)
      | _ => Fault AssertFailed
      end
  | AReply i =>
      m ← nth_message rp i;
      c' ← client_got_pdu m (pdu_len m) c;
      mret (Sys c' th sv rq rp l)
  | AServe x i =>
      m ← nth_message rq i;
      mret (Sys c th (Server (take_pdu x (node sv)) ((true, Queued x m (pdu_len m)) :: jobs sv)) rq rp l)
  | AJob view z i =>
      match (jobs sv !! i : option (bool * job)) with
      | None => Fault AssertFailed
      | Some (mine, j) =>
          r ← job_step fill view z j (node sv);
          match r with
          | None => Fault AssertFailed
          | Some (s', oj, out) =>
              mret (Sys c th (Server s' (take i (jobs sv) ++ (pair mine <$> over oj) ++ drop (S i) (jobs sv))) rq
                        (if mine then (frame <$> out.*2) ++ rp else rp) (record_run mine j oj l))
          end
      end
  end.

Fixpoint perform_all (l : list action) (s : sys) : outcome sys :=
  match l with
  | [] => Done s
  | a :: l => s ← perform a s; perform_all l s
  end.

Lemma builtb_built m : builtb m = true -> built m.
Proof.
  unfold builtb, built, mar_ok. destruct (m_buf m) as [b|] eqn:E; [| done]. rewrite !andb_true_iff.
  intros [[[[[H1 H2] H3] H4] H5] H6]. exists b. split_and!; try done; lia.
Qed.

Lemma thread_at_spec p t s tr : thread_at p t s = Done tr -> threads s !! t = Some tr /\ p (t_pc tr) = true.
Proof. unfold thread_at. destruct (threads s !! t) as [tr'|]; [| done]. destruct (p (t_pc tr')) eqn:E; [| done]. by intros [= <-]. Qed.

Lemma nth_message_in l i m : nth_message l i = Done m -> m ∈ l.
Proof. unfold nth_message. destruct (l !! i) eqn:E; [| done]. intros [= <-]. by apply list_elem_of_lookup_2 in E. Qed.

Lemma perform_step a s s' : perform a s = Done s' -> step s s'.
Proof.
  destruct s as [c th sv rq rp l], a as [t proc req to now|t dead conn|t now|t dead|t|t|i|x i|view z i]; cbn [perform]; intros H.
  - apply bind_Done_inv in H as (m & -> & H). apply bind_Done_inv in H as (u & Hv & H).
    destruct (_ && _ && _) eqn:E in Hv; [| done]. rewrite !andb_true_iff in E. destruct E as [[E1 E2] E3].
    apply bind_Done_inv in H as ([c' [e|k]] & Hb & H); cbn [fst snd] in H; [done |]. injection H as <-.
    apply (st_begin t proc m to now); [by apply bool_decide_eq_true in E1 | by apply builtb_built | lia | done].
  - apply bind_Done_inv in H as (tr & Hat & H). apply thread_at_spec in Hat as [Ht Hp].
    apply bind_Done_inv in H as ([[c' k] out] & Hc & H). injection H as <-.
    apply (st_send dead conn t tr); [done | by destruct (t_pc tr) | done].
  - apply bind_Done_inv in H as (tr & Hat & H). apply thread_at_spec in Hat as [Ht Hp].
    apply bind_Done_inv in H as (r & Hc & H). injection H as <-. apply (st_arm now t tr); [done | by destruct (t_pc tr) | done].
  - apply bind_Done_inv in H as (tr & Hat & H). apply thread_at_spec in Hat as [Ht Hp].
    apply bind_Done_inv in H as (r & Hc & H). injection H as <-. apply (st_wake dead t tr); [done | by destruct (t_pc tr) | done].
  - apply bind_Done_inv in H as (tr & Hat & H). apply thread_at_spec in Hat as [Ht Hp].
    apply bind_Done_inv in H as ([[c' ret] u] & Hc & H). injection H as <-.
    apply (st_end t tr); [done | by destruct (t_pc tr) | done].
  - apply bind_Done_inv in H as (tr & Hat & H). apply thread_at_spec in Hat as [Ht _].
    destruct (t_pc tr) as [| | | |ret u] eqn:Hp; try done. apply bind_Done_inv in H as (v & Hv & H).
    destruct (Z.eqb_spec (t_proc tr) bind); [| done].
    apply bind_Done_inv in H as ([ret' r] & Hc & H). injection H as <-. by apply (st_bound t tr ret u).
  - apply bind_Done_inv in H as (m & Hm & H). apply bind_Done_inv in H as (c' & Hc & H). injection H as <-.
    apply (st_reply m); [by apply nth_message_in in Hm | done].
  - apply bind_Done_inv in H as (m & Hm & H). injection H as <-. destruct sv as [s js].
    apply (st_serve x m). by apply nth_message_in in Hm.
  - destruct sv as [s js]. cbn [node jobs] in H. destruct (js !! i) as [[mine j]|] eqn:Hj; [| done].
    apply bind_Done_inv in H as ([[[s1 oj] out]|] & Hc & H); [| done]. injection H as <-.
    rewrite <- (take_drop_middle js i (mine, j) Hj) at 1. by apply (st_job view z).
Qed.

(** Nobody registers procedures while the system runs. *)
Lemma step_procs s s' : step s s' -> procs_ (node (srv s')) = procs_ (node (srv s)).
Proof.
  intros H. destruct H as [| | | | | | | | | | | |view z l1 mine j l2 s' oj out c th s rq rp l H]; try done.
  by destruct (job_step_fixed fill view z j s s' oj out H) as (_ & ? & _).
Qed.

Lemma perform_all_reach l s s' :
  reach s -> perform_all l s = Done s' -> reach s' /\ procs_ (node (srv s')) = procs_ (node (srv s)).
Proof.
  revert s. induction l as [|a l IH]; intros s Hr H; cbn [perform_all] in H; [by injection H as <- |].
  apply bind_Done_inv in H as (s1 & H1 & H). apply perform_step in H1. destruct (IH s1) as [IH1 IH2]; [| done |].
  - by eapply reach_step0.
  - split; [done |]. rewrite IH2. by apply step_procs.
Qed.

End system.

(** ** A run

    Thread 0 binds; then thread 1 calls procedure 9, which adds its argument
    to the server's number.  The first transmission of the call is lost with
    its connection, the second one is delivered twice, and so is the reply.
    The two copies are served by two threads at the same time; the one that
    comes second finds the request in progress. *)

Definition demo_add (x : Z) (a : Z) : outcome (Z * Z * Z) := mret (a + x, s32 (a + x), 0).
Definition demo_method (x : Z) : hprog Z (Z * Z) := atomically (demo_add x).

Definition demo_srv : rpcs Z :=
  Rpcs 77 (<[9 := reg_fn demo_fill cd_int cd_int demo_method]> {[bind := reg_fn demo_fill cd_int cd_int (rpcbind 77)]})
       ∅ ∅ ∅ 0 0 ∅ 100 [].

Definition demo_sys : @sys Z := Sys (rpcc_new true 5 0) ∅ (Server demo_srv []) [] [] [].

Definition alive : Z -> bool := fun _ => false.

(** The thread at position [i] takes [k] steps. *)
Definition steps (i k : nat) : list action := replicate k (AJob demo_view 0 i).

Definition demo_bind : list action :=
  [ABegin 0 bind (call_args demo_fill cd_int 0) to_max (Timespec 10 0); ASend 0 alive (Some 3); AServe 7 0] ++ steps 0 10 ++
  [AReply 0; AArm 0 (Timespec 10 5); AWake 0 alive; AEnd 0; ABound 0].

Definition demo_call : list action :=
  [ABegin 1 9 (call_args demo_fill cd_int 23) to_max (Timespec 11 0); ASend 1 alive None; AArm 1 (Timespec 11 5);
   AWake 1 (fun c => c =? 3); ASend 1 (fun c => c =? 3) (Some 4); AArm 1 (Timespec 12 0);
   AServe 8 0; AServe 8 0] ++ steps 0 5 ++ steps 1 5 ++ steps 0 6 ++
  [AReply 0; AReply 0; AWake 1 alive; AEnd 1].

Lemma demo_typed : typed_method (fun _ => True) cd_int demo_method.
Proof.
  intros x. apply hsafe_atomically. intros a a' y b _ [= <- <- <-]. split; [done |]. split; [split; [apply s32_range | done] | done].
Qed.

Lemma rpcbind_typed {A} (Inv : A -> Prop) nonce : typed_method Inv cd_int (rpcbind nonce).
Proof. intros x. constructor. split; [split; [apply s32_range | done] | done]. Qed.

Lemma demo_start : start demo_fill (fun _ => True) demo_sys.
Proof.
  apply (start_intro demo_fill (fun _ => True) 5 0 demo_srv); [done | | | done | done | done].
  - apply (sv_reg demo_fill 9 (reg_fn demo_fill cd_int cd_int demo_method)
      (Rpcs 77 {[bind := reg_fn demo_fill cd_int cd_int (rpcbind 77)]} ∅ ∅ ∅ 0 0 ∅ 100 [])); [| reflexivity].
    by apply (sv_new demo_fill 77 0 100).
  - intros p f Hf. unfold demo_srv in Hf. cbn [procs_] in Hf. apply lookup_insert_Some in Hf as [[_ <-]|[_ Hf]].
    + apply reg_fn_ok, demo_typed.
    + apply lookup_singleton_Some in Hf as [_ <-]. apply reg_fn_ok, rpcbind_typed.
Qed.

(** The state at the end of the run, and what is needed about it. *)
Definition demo_final (f : @sys Z -> thread -> Z -> unmarshall -> Prop) : Prop :=
  match perform_all demo_fill (demo_bind ++ demo_call) demo_sys with
  | Done s =>
      match threads s !! 1%nat with
      | Some tr => match t_pc tr with Returned ret u => f s tr ret u | _ => False end
      | None => False
      end
  | Fault _ => False
  end.

Lemma demo_final_intro (f : @sys Z -> thread -> Z -> unmarshall -> Prop) :
  demo_final (fun _ _ _ _ => True) ->
  (forall s tr ret u, perform_all demo_fill (demo_bind ++ demo_call) demo_sys = Done s ->
     threads s !! 1%nat = Some tr -> t_pc tr = Returned ret u -> f s tr ret u) -> demo_final f.
Proof.
  unfold demo_final. destruct (perform_all _ _ _) as [s|]; [| done].
  destruct (threads s !! 1%nat) as [tr|] eqn:E1; [| done]. destruct (t_pc tr) eqn:E2; try done. auto.
Qed.

Lemma remote_call_correct_witness :
  demo_final (fun s tr ret u => exists r y, r ∈ runs s /\ run_xid r = 2 /\ hexec (demo_method 23) (run_steps r) (y, 0) /\
    call_m cd_int 0 u = Done (0, Some y)).
Proof.
  assert (Hfin : demo_final (fun s tr ret u => ret = 0 /\ k_xid (t_call tr) = 2 /\ t_proc tr = 9 /\
    call_args demo_fill cd_int 23 = Done (t_args tr))) by (vm_compute; repeat split).
  apply demo_final_intro; [vm_compute; exact I |]. intros s tr ret u Hs Ht Hpc.
  unfold demo_final in Hfin. rewrite Hs, Ht, Hpc in Hfin. destruct Hfin as (-> & Hx & Hp & Hargs).
  destruct (perform_all_reach demo_fill (fun _ => True) _ _ _ (reach_start0 _ _ _ demo_start) Hs) as [Hreach Hproc].
  destruct (marshall_new_done demo_fill) as (m0 & _ & Hm0 & _). unfold call_args in Hargs. rewrite Hm0, bind_Done in Hargs.
  destruct (remote_call_correct demo_fill (fun _ => True) cd_int cd_int demo_method 23 m0 s 1 tr 0 u) as (r & y & Hr & Hxr & Hm & Hc & _).
  - exact Hreach.
  - exact Ht.
  - exact Hpc.
  - reflexivity.
  - rewrite Hp, Hproc. apply lookup_insert_eq.
  - split; [split; [discriminate | reflexivity] | reflexivity].
  - exact Hm0.
  - exact Hargs.
  - exact demo_typed.
  - exists r, y. rewrite <- Hx. split_and!; assumption.
Defined.

Lemma call_errors_witness :
  demo_final (fun s tr ret u => (0 <= ret \/ ret = timeout_failure \/ ret = cancel_failure \/ ret = oldsrv_failure) /\
    forall t req to now c' r, call1_begin demo_fill t bind req to now (cl s) = Done (c', inl r) ->
      r = bind_failure \/ r = cancel_failure).
Proof.
  apply demo_final_intro; [vm_compute; exact I |]. intros s tr ret u Hs Ht Hpc.
  destruct (call_errors demo_fill (fun _ => True) s) as [H1 H2].
  - apply (perform_all_reach demo_fill (fun _ => True) _ _ _ (reach_start0 _ _ _ demo_start) Hs).
  - split; [exact (H1 1%nat tr ret u Ht Hpc) |]. intros t req to now c' r Hb.
    destruct (H2 t bind req to now c' r Hb) as [_ [[-> _]|[-> _]]]; [left | right]; reflexivity.
Defined.
