(* ===== verification/RpcCalls.v ===== *)
(** * Calls of one endpoint: time limits and connections (src/rpc/rpc.cc)

    Any number of threads call through one rpcc while the clock runs, replies
    arrive, other threads cancel and the server binds.  Each thread's step is
    one of the parts of call1 in RpcClient.v.  What is shown here does not
    depend on the server: how long a call takes, that every connection has as
    many references as holders, and that the table of calls never points to a
    caller that is gone.

    connect_to_dst is outside the model: it returns nothing or a connection
    that nobody holds.  A wait ends when its caller is done, or when the clock
    has reached a deadline that pthread_cond_timedwait accepts (one whose
    nanoseconds are below a second); with another deadline the loop around the
    wait spins.  Returns of the wait that find the caller not done and are no
    timeouts (spurious ones and those of the spinning loop) are steps that
    change nothing. *)

From S2P Require Import Prelude Marshall RpcWindow RpcServer RpcClient.
Import Client Timer.
#[local] Set Warnings "-clear-no-such-hyp".

(** ** Time *)

Definition ns (t : timespec) : Z := tv_sec t * 1000000000 + tv_nsec t.
Definition ms : Z := 1000000.
Definition clock_ok (t : timespec) : Prop := 1 <= tv_sec t /\ 0 <= tv_nsec t < 1000000000.
Definition deadline_ok (t : timespec) : Prop := 0 <= tv_nsec t <= 1000000000.
(** pthread_cond_timedwait accepts the deadline. *)
Definition deadline_valid (t : timespec) : Prop := tv_nsec t < 1000000000.

Lemma deadline_spec now to :
  clock_ok now -> 0 <= to ->
  exists d, deadline now to = Done d /\ ns d = ns now + to * ms /\ deadline_ok d /\ 1 <= tv_sec d /\
    (Z.rem to 1000 = 0 -> tv_nsec d = tv_nsec now).
Proof.
  intros [Hs Hn] Hto. unfold deadline, add_timespec.
  pose proof (Z.quot_rem' to 1000) as Hqr. pose proof (Z.rem_bound_pos to 1000 Hto ltac:(lia)) as Hr.
  assert (Hq : 0 <= Z.quot to 1000) by (apply Z.quot_pos; lia).
  generalize dependent (Z.quot to 1000). generalize dependent (Z.rem to 1000). intros r Hr q Hqr Hq.
  cbn [tv_sec tv_nsec]. rewrite (proj2 (Z.leb_le 0 (tv_nsec now + r * 1000000))) by lia.
  unfold verify. rewrite bind_Done. cbn [carry tv_nsec tv_sec].
  destruct (Z.ltb_spec 1000000000 (tv_nsec now + r * 1000000)) as [H1|H1].
  - cbn [carry tv_nsec tv_sec]. rewrite (proj2 (Z.ltb_ge _ _)) by lia. eexists. split; [done |].
    unfold ns, ms, deadline_ok. cbn [tv_nsec tv_sec]. lia.
  - eexists. split; [done |]. unfold ns, ms, deadline_ok. cbn [tv_nsec tv_sec]. lia.
Qed.

(** With a second of exactly 10^9 nanoseconds the comparison still agrees
    with the time. *)
Lemma cmp_timespec_ns a b :
  deadline_ok a -> deadline_ok b ->
  (0 < cmp_timespec a b -> ns b <= ns a) /\ (cmp_timespec a b <= 0 -> ns a <= ns b).
Proof.
  unfold deadline_ok, cmp_timespec, ns. intros Ha Hb.
  destruct (Z.ltb_spec (tv_sec b) (tv_sec a)); [lia |]. destruct (Z.ltb_spec (tv_sec a) (tv_sec b)); [lia |].
  destruct (Z.ltb_spec (tv_nsec b) (tv_nsec a)); [lia |]. destruct (Z.ltb_spec (tv_nsec a) (tv_nsec b)); lia.
Qed.

(** ** The transition system *)

(** A call with the time it began and its limit. *)
Record thr := Thr { th_call : call; th_pc : pc; th_begin : timespec; th_to : Z }.

Record cstate := CState { ep : rpcc; thrs : gmap nat thr; time : timespec }.

Definition goto (p : pc) (k : call) (x : thr) : thr := Thr k p (th_begin x) (th_to x).

(** connect_to_dst returns a connection nobody holds. *)
Definition fresh_conn (conn : option Z) (s : rpcc) : Prop := match conn with Some c => conn_refcount c s = 0 | None => True end.

Definition wait_over (t : nat) (k : call) (now : timespec) (s : rpcc) : Prop :=
  (exists ca, callers s !! t = Some ca /\ done_ ca = true) \/ (deadline_valid (k_next k) /\ ns (k_next k) <= ns now).

Section calls.
Variable fill : nat -> Z.

(** A call that returned before the loop. *)
Definition refused (ret : Z) (T : timespec) (to : Z) : thr :=
  Thr (Call 0 [] 0 None false 0 T T) (Returned ret unmarshall_empty) T to.

(** Whose step it is: a thread in call1, a message that arrives, a
    cancellation, or anything else. *)
Inductive label := Own (t : nat) | Pdu (b : list Z) (sz : Z) | Cancelling | Env.

Inductive cstep : label -> cstate -> cstate -> Prop :=
| cs_tick now e th T : clock_ok now -> ns T <= ns now -> cstep Env (CState e th T) (CState e th now)
| cs_begin t proc req to k e' e th T :
    th !! t = None -> 0 <= to < 2 ^ 31 -> call1_begin fill t proc req to T e = Done (e', inr k) ->
    cstep (Own t) (CState e th T) (CState e' (<[t := Thr k Sending T to]> th) T)
| cs_refused t proc req to ret e' e th T :
    th !! t = None -> 0 <= to < 2 ^ 31 -> call1_begin fill t proc req to T e = Done (e', inl ret) ->
    cstep (Own t) (CState e th T) (CState e' (<[t := refused ret T to]> th) T)
| cs_send dead conn t x k e' out e th T :
    th !! t = Some x -> th_pc x = Sending -> fresh_conn conn e -> call1_send dead conn (th_call x) e = Done (e', k, out) ->
    cstep (Own t) (CState e th T) (CState e' (<[t := goto Arming k x]> th) T)
| cs_arm t x r e th T :
    th !! t = Some x -> th_pc x = Arming -> call1_arm T (th_call x) = Done r ->
    cstep (Own t) (CState e th T)
      (CState e (<[t := match r with Some k => goto Waiting k x | None => goto Leaving (th_call x) x end]> th) T)
| cs_wake dead t x r e th T :
    th !! t = Some x -> th_pc x = Waiting -> wait_over t (th_call x) T e -> call1_wake dead t (th_call x) e = Done r ->
    cstep (Own t) (CState e th T)
      (CState e (<[t := match r with Some k => goto Sending k x | None => goto Leaving (th_call x) x end]> th) T)
(* the wait returns without a timeout and the caller is not done: it waits again *)
| cs_retest t x ca e th T :
    th !! t = Some x -> th_pc x = Waiting -> callers e !! t = Some ca -> done_ ca = false ->
    cstep Env (CState e th T) (CState e th T)
| cs_end t x e' ret u e th T :
    th !! t = Some x -> th_pc x = Leaving -> call1_end t (th_call x) e = Done (e', ret, u) ->
    cstep (Own t) (CState e th T) (CState e' (<[t := goto (Returned ret u) (th_call x) x]> th) T)
| cs_pdu b sz e' e th T : client_got_pdu b sz e = Done e' -> cstep (Pdu b sz) (CState e th T) (CState e' th T)
| cs_cancel e th T : cstep Cancelling (CState e th T) (CState (cancel e) th T)
| cs_bound r e th T : cstep Env (CState e th T) (CState (set_bind r e) th T)
| cs_reachable b e th T : cstep Env (CState e th T) (CState (set_reachable b e) th T).

#[export] Instance label_eq_dec : EqDecision label.
Proof. solve_decision. Defined.

(** Runs, with the labels of their steps, the last one first. *)
Inductive crun : list label -> cstate -> Prop :=
| cr_start retrans rnd lossy now : clock_ok now -> crun [] (CState (rpcc_new retrans rnd lossy) ∅ now)
| cr_step w l s s' : crun l s -> cstep w s s' -> crun (w :: l) s'.

(** The steps of one thread. *)
Definition own (t : nat) (l : list label) : nat := length (filter (fun w => w = Own t) l).

(** ** What the parts of call1 do to a call *)

Lemma call1_begin_call t proc req to now e e' k :
  clock_ok now -> 0 <= to -> call1_begin fill t proc req to now e = Done (e', inr k) ->
  k_curr_to k = to_min /\ ns (k_final k) = ns now + to * ms /\ deadline_ok (k_final k) /\ 1 <= tv_sec (k_final k) /\
  k_ch k = None /\ callers e' = <[t := Caller (k_xid k) unmarshall_empty 0 false]> (callers e) /\
  calls_ e' = <[s32 (k_xid k) := t]> (calls_ e) /\ chan_ e' = chan_ e /\ conn_refs e' = conn_refs e.
Proof.
  intros Hnow Hto H. unfold call1_begin in H. destruct (_ || _); [by injection H |]. destruct (destroy_wait_ e); [by injection H |].
  cbv zeta in H. apply bind_Done_inv in H as (ack & _ & H). apply bind_Done_inv in H as (m & _ & H).
  apply bind_Done_inv in H as (bytes & _ & H). apply bind_Done_inv in H as (final & Hf & H).
  destruct (deadline_spec now to Hnow Hto) as (d & Hd & Hns & Hok & Hsec & _). rewrite Hd in Hf. injection Hf as <-.
  injection H as <- <-. cbn [k_curr_to k_final k_ch k_xid]. split_and!; try done; by apply Hok.
Qed.

(** ** References on connections *)

(** One reference for the variable [o] if it points to [c]. *)
Definition ref_of (o : option Z) (c : Z) : Z := Z.b2z (bool_decide (o = Some c)).

Lemma ref_of_other c c' : c' <> c -> ref_of (Some c) c' = 0.
Proof. intros H. unfold ref_of. by rewrite bool_decide_false by congruence. Qed.

Lemma ref_of_same c : ref_of (Some c) c = 1.
Proof. unfold ref_of. by rewrite bool_decide_true. Qed.

Lemma ref_of_none c : ref_of None c = 0.
Proof. unfold ref_of. by rewrite bool_decide_false. Qed.

Lemma ref_of_nonneg o c : 0 <= ref_of o c.
Proof. unfold ref_of. destruct (bool_decide _); cbn; lia. Qed.

Lemma refcount_insert c n c' ch e :
  conn_refcount c' (set_chan ch (<[c := n]> (conn_refs e)) e) = if decide (c' = c) then n else conn_refcount c' e.
Proof.
  unfold conn_refcount. cbn [conn_refs set_chan]. case_decide as Hc; [subst; by rewrite lookup_insert_eq |].
  by rewrite lookup_insert_ne.
Qed.

(** A release by one of the holders. *)
Lemma decref_opt_done o e (n : Z -> Z) :
  (forall c, conn_refcount c e = ref_of o c + n c) -> (forall c, 0 <= n c) ->
  exists r, decref_opt o e = Done (set_chan (chan_ e) r e) /\ forall c, conn_refcount c (set_chan (chan_ e) r e) = n c.
Proof.
  intros Hr Hn. destruct o as [c|]; cbn [decref_opt].
  - unfold conn_decref. pose proof (Hr c) as Hc. rewrite ref_of_same in Hc. specialize (Hn c).
    rewrite (proj2 (Z.leb_le _ _)) by lia. unfold verify. rewrite bind_Done. eexists. split; [reflexivity |].
    intros c'. rewrite refcount_insert. case_decide as Hd; [subst; lia |]. rewrite Hr, ref_of_other by done. lia.
  - exists (conn_refs e). split; [by destruct e |]. intros c. specialize (Hr c). by destruct e.
Qed.

(** get_refconn, with the other holders counted by [n]: it cannot fail, and
    the channel and [*ch] are counted afterwards. *)
Lemma get_refconn_done dead conn ch e (n : Z -> Z) :
  (forall c, conn_refcount c e = ref_of (chan_ e) c + ref_of ch c + n c) -> (forall c, 0 <= n c) -> fresh_conn conn e ->
  exists cn r ch', get_refconn dead conn ch e = Done (set_chan cn r e, ch') /\
    forall c, conn_refcount c (set_chan cn r e) = ref_of cn c + ref_of ch' c + n c.
Proof.
  intros Hr Hn Hf.
  assert (H1 : exists cn r, (if match chan_ e with None => true | Some c => dead c end then
         s ← decref_opt (chan_ e) e;
         mret (set_chan conn (match conn with Some c => <[c := 1]> (conn_refs s) | None => conn_refs s end) s)
       else mret e) = Done (set_chan cn r e) /\
       forall c, conn_refcount c (set_chan cn r e) = ref_of cn c + ref_of ch c + n c).
  { case_match eqn:Hd; [| exists (chan_ e), (conn_refs e); split; [by destruct e | intros c; specialize (Hr c); by destruct e]].
    destruct (decref_opt_done (chan_ e) e (fun c => ref_of ch c + n c)) as (r & -> & Hr').
    { intros c. rewrite Hr. lia. }
    { intros c. pose proof (ref_of_nonneg ch c). specialize (Hn c). lia. }
    rewrite bind_Done. cbn [set_chan conn_refs chan_] in *. destruct conn as [c|].
    - exists (Some c), (<[c := 1]> r). split; [done |]. intros c'. specialize (Hr' c'). unfold conn_refcount in *.
      cbn [set_chan conn_refs] in *. rewrite lookup_insert. case_decide as Hcc; [subst c'|].
      + rewrite ref_of_same. change (default 0 (Some 1)) with 1. cbn in Hf. unfold conn_refcount in Hf. specialize (Hr c). specialize (Hn c). unfold conn_refcount in Hr.
        pose proof (ref_of_nonneg ch c). pose proof (ref_of_nonneg (chan_ e) c). lia.
      + rewrite ref_of_other by congruence. lia.
    - exists None, r. split; [done |]. intros c'. specialize (Hr' c'). unfold conn_refcount in *. cbn [set_chan conn_refs] in *. rewrite Hr', ref_of_none. lia. }
  destruct H1 as (cn & r & Hc1 & Hr1). unfold get_refconn. rewrite Hc1, bind_Done. cbn [set_chan chan_].
  destruct cn as [c|]; [| by exists None, r, ch].
  destruct (decref_opt_done ch (set_chan (Some c) r e) (fun c' => ref_of (Some c) c' + n c')) as (r' & -> & Hr2).
  { intros c'. rewrite Hr1. lia. }
  { intros c'. pose proof (ref_of_nonneg (Some c) c'). specialize (Hn c'). lia. }
  rewrite bind_Done. eexists (Some c), _, (Some c). split; [reflexivity |].
  intros c'. specialize (Hr2 c'). unfold conn_refcount in *. cbn [set_chan conn_refs chan_] in *.
  rewrite lookup_insert. case_decide as Hcc.
  - subst c'. rewrite ref_of_same in *. cbn [from_option]. unfold id at 1. lia.
  - rewrite ref_of_other in * by congruence. lia.
Qed.

(** A thread inside call1 holds the connection of its [ch]. *)
Definition held (x : thr) : option Z := match th_pc x with Returned _ _ => None | _ => k_ch (th_call x) end.
Definition holds (c : Z) (x : thr) : bool := bool_decide (held x = Some c).

(** Every connection has as many references as holders: the endpoint's
    channel and the calls that use it. *)
Definition refs_ok (s : cstate) : Prop :=
  forall c, conn_refcount c (ep s) = ref_of (chan_ (ep s)) c + Z.of_nat (count (holds c) (thrs s)).

(** The references of the other threads. *)
Lemma refs_split c th t x : th !! t = Some x ->
  Z.of_nat (count (holds c) th) = ref_of (held x) c + Z.of_nat (count (holds c) (delete t th)).
Proof.
  intros Ht. pose proof (count_delete (holds c) th t x Ht) as H. unfold holds at 2 in H. unfold ref_of.
  destruct (bool_decide _); cbn in *; lia.
Qed.

Lemma refs_insert c th t x : Z.of_nat (count (holds c) (<[t := x]> th)) = ref_of (held x) c + Z.of_nat (count (holds c) (delete t th)).
Proof. rewrite (refs_split c _ t x) by apply lookup_insert_eq. by rewrite delete_insert_eq. Qed.

(** ** The parts of call1 under the invariant *)

Definition same_time (k k' : call) : Prop :=
  k_xid k' = k_xid k /\ k_curr_to k' = k_curr_to k /\ k_next k' = k_next k /\ k_final k' = k_final k.

Definition same_calls (e e' : rpcc) : Prop := callers e' = callers e /\ calls_ e' = calls_ e.

Lemma send_done dead conn t x e th T :
  refs_ok (CState e th T) -> th !! t = Some x -> th_pc x = Sending -> fresh_conn conn e ->
  exists e' k out, call1_send dead conn (th_call x) e = Done (e', k, out) /\ same_time (th_call x) k /\
    same_calls e e' /\ refs_ok (CState e' (<[t := goto Arming k x]> th) T).
Proof.
  intros Hr Ht Hp Hf. unfold call1_send.
  assert (Hh : held x = k_ch (th_call x)) by (unfold held; by rewrite Hp).
  assert (Hs : forall c, conn_refcount c e = ref_of (chan_ e) c + ref_of (k_ch (th_call x)) c + Z.of_nat (count (holds c) (delete t th)))
    by (intros c; specialize (Hr c); cbn [ep thrs] in Hr; rewrite Hr, <- Hh, (refs_split c th t x Ht); lia).
  destruct (k_transmit (th_call x)); cbn [negb].
  - destruct (get_refconn_done dead conn (k_ch (th_call x)) e (fun c => Z.of_nat (count (holds c) (delete t th))) Hs)
      as (cn & r & ch' & -> & Hr'); [lia | done |].
    assert (Hfin : forall d, refs_ok (CState (set_dup d (xid_rep_done_ e) (set_chan cn r e))
      (<[t := goto Arming (Call (k_xid (th_call x)) (k_req (th_call x)) (k_xid_rep (th_call x)) ch' false (k_curr_to (th_call x))
         (k_next (th_call x)) (k_final (th_call x))) x]> th) T)).
    { intros d c. cbn [ep thrs]. rewrite refs_insert. specialize (Hr' c). unfold conn_refcount in *.
      cbn [conn_refs set_dup set_chan chan_ held goto th_pc th_call k_ch] in *. lia. }
    rewrite bind_Done. destruct ch' as [c|]; cbn [reachable_ set_chan dup_req_ xid_rep_done_] in *;
      repeat case_match; (eexists _, _, _; split; [reflexivity |]; split_and!;
        [by repeat split | by split |]); first [apply Hfin | exact (Hfin (dup_req_ e))].
  - eexists _, _, _. split; [reflexivity |].
    split_and!; [by repeat split | by split |]. intros c. cbn [ep thrs]. rewrite refs_insert, Hs.
    cbn [held goto th_pc th_call]. lia.
Qed.

Lemma end_done t x e th T ca :
  refs_ok (CState e th T) -> th !! t = Some x -> th_pc x = Leaving -> callers e !! t = Some ca ->
  exists e', call1_end t (th_call x) e = Done (e', if done_ ca then intret ca else timeout_failure, un ca) /\
    callers e' = delete t (callers e) /\ calls_ e' = delete (s32 (k_xid (th_call x))) (calls_ e) /\
    forall ret u, refs_ok (CState e' (<[t := goto (Returned ret u) (th_call x) x]> th) T).
Proof.
  intros Hr Ht Hp Hca. unfold call1_end. rewrite Hca. cbv zeta.
  set (e1 := if done_ ca && _ then _ else _).
  assert (He1 : conn_refs e1 = conn_refs e /\ chan_ e1 = chan_ e /\ callers e1 = callers e /\
    calls_ e1 = delete (s32 (k_xid (th_call x))) (calls_ e)) by (unfold e1; by case_match).
  destruct He1 as (Er & Ec & Ea & El).
  destruct (decref_opt_done (k_ch (th_call x)) e1 (fun c => ref_of (chan_ e) c + Z.of_nat (count (holds c) (delete t th))))
    as (r & -> & Hr').
  { intros c. specialize (Hr c). unfold conn_refcount in *. cbn [ep thrs] in Hr. rewrite Er, Hr.
    rewrite (refs_split c th t x Ht). unfold held. rewrite Hp. lia. }
  { intros c. pose proof (ref_of_nonneg (chan_ e) c). lia. }
  rewrite bind_Done. eexists. split; [reflexivity |].
  cbn [callers calls_ set_calls set_chan]. rewrite Ea, El. split_and!; [done | done |].
  intros ret u c. cbn [ep thrs]. rewrite refs_insert. specialize (Hr' c). unfold conn_refcount in *.
  cbn [conn_refs set_calls set_chan chan_ held goto th_pc] in *. rewrite ref_of_none, Ec. lia.
Qed.

(** ** The table of calls *)

(** The caller object of every call in progress exists, and the table points
    to those objects only. *)
Definition pointers_ok (s : cstate) : Prop :=
  (forall t x, thrs s !! t = Some x -> active (th_pc x) -> is_Some (callers (ep s) !! t)) /\
  (forall i t, calls_ (ep s) !! i = Some t ->
    exists x, thrs s !! t = Some x /\ active (th_pc x) /\ s32 (k_xid (th_call x)) = i).

Definition client_inv (s : cstate) : Prop := clock_ok (time s) /\ refs_ok s /\ pointers_ok s.

Lemma cancel_dom e : dom (callers (cancel e)) = dom (callers e).
Proof.
  unfold cancel. set (m := map_fold _ _ _). assert (Hm : dom m = dom (callers e)).
  { unfold m. apply (map_fold_weak_ind (fun r _ => dom r = dom (callers e))); [done |].
    intros i t cs r _ IH. by rewrite dom_alter_L. }
  cbv zeta. case_decide; cbn [callers set_calls set_destroy_wait]; done.
Qed.

(** A reply changes one caller object at most. *)
Lemma got_pdu_spec b sz e e' :
  client_got_pdu b sz e = Done e' ->
  calls_ e' = calls_ e /\ chan_ e' = chan_ e /\ conn_refs e' = conn_refs e /\ dom (callers e') = dom (callers e).
Proof.
  intros H. unfold client_got_pdu in H. apply bind_Done_inv in H as ([rep h] & _ & H). destruct (negb (u_ok rep)); [by injection H as <- |].
  cbv zeta in H. cbn [calls_ callers set_window] in H. destruct (calls_ e !! p_xid h) as [t|]; [| by injection H as <-].
  destruct (callers e !! t) as [ca|] eqn:Hca; [| done]. destruct (done_ ca); injection H as <-; [done |].
  cbn [calls_ chan_ conn_refs callers set_calls set_window]. split_and!; try done.
  rewrite dom_insert_lookup_L; [done | by eexists].
Qed.

Lemma got_pdu_done b sz e e' t :
  client_got_pdu b sz e = Done e' -> (exists ca, callers e !! t = Some ca /\ done_ ca = true) ->
  exists ca, callers e' !! t = Some ca /\ done_ ca = true.
Proof.
  intros H Hd. unfold client_got_pdu in H. apply bind_Done_inv in H as ([rep h] & _ & H). destruct (negb (u_ok rep)); [by injection H as <- |].
  cbv zeta in H. cbn [calls_ callers set_window] in H. destruct (calls_ e !! p_xid h) as [t'|]; [| by injection H as <-].
  destruct (callers e !! t') as [ca|] eqn:Hca; [| done]. destruct (done_ ca); injection H as <-; [done |].
  cbn [callers set_calls set_window]. rewrite lookup_insert. case_decide; [by eexists | done].
Qed.

Lemma client_inv_same e e' th T :
  client_inv (CState e th T) -> calls_ e' = calls_ e -> chan_ e' = chan_ e -> conn_refs e' = conn_refs e ->
  dom (callers e') = dom (callers e) -> client_inv (CState e' th T).
Proof.
  intros (Hc & Hr & [Hp1 Hp2]) E1 E2 E3 E4. cbn [ep thrs time] in *. split_and!; [done | |].
  - intros c. specialize (Hr c). unfold conn_refcount in *. cbn [ep thrs] in *. by rewrite E3, E2.
  - split; cbn [ep thrs]; [| by rewrite E1]. intros t x Ht Hx. apply elem_of_dom. rewrite E4. apply elem_of_dom. by eapply Hp1.
Qed.

(** A thread that stays in call1 keeps its connection and its id. *)
Lemma client_inv_move t x k p e th T :
  client_inv (CState e th T) -> th !! t = Some x -> active (th_pc x) -> active p -> k_ch k = k_ch (th_call x) ->
  k_xid k = k_xid (th_call x) -> client_inv (CState e (<[t := goto p k x]> th) T).
Proof.
  intros (Hc & Hr & [Hp1 Hp2]) Ht Hx Hp Hch Hxid. cbn [ep thrs time] in *. split_and!; [done | |].
  - intros c. specialize (Hr c). cbn [ep thrs] in *. rewrite Hr, refs_insert, (refs_split c th t x Ht).
    do 2 f_equal. f_equal. unfold held. cbn [goto th_pc th_call]. by destruct (th_pc x), p; cbn in *.
  - split; cbn [ep thrs].
    + intros t' y Hy Ha. rewrite lookup_insert in Hy. case_decide; [subst t'; by eapply Hp1 | by eapply Hp1].
    + intros i t' Hi. destruct (Hp2 i t' Hi) as (y & Hy & Ha & Hiy). rewrite lookup_insert.
      case_decide; [| by exists y]. subst t'. rewrite Ht in Hy. injection Hy as <-.
      eexists. split_and!; [done | done |]. cbn [goto th_call]. by rewrite Hxid.
Qed.

Lemma call1_arm_keeps now k k' : call1_arm now k = Done (Some k') -> k_ch k' = k_ch k /\ k_xid k' = k_xid k.
Proof.
  unfold call1_arm. destruct (_ =? 0); [by intros [=] |]. intros H. apply bind_Done_inv in H as (next & _ & H).
  destruct (0 <? _); by injection H as <-.
Qed.

Lemma call1_wake_keeps dead t k e k' : call1_wake dead t k e = Done (Some k') -> k_ch k' = k_ch k /\ k_xid k' = k_xid k.
Proof. unfold call1_wake. destruct (callers e !! t) as [ca|]; [| done]. destruct (done_ ca); [by intros [=] |]. by intros [= <-]. Qed.

Lemma client_step_inv w s s' : client_inv s -> cstep w s s' -> client_inv s'.
Proof.
  intros Hi H. assert (HI := Hi). destruct HI as (Hc & Hr & [Hp1 Hp2]).
  destruct H as [now e th T Hnow Hle|t proc req to k e' e th T Ht Hto Hb|t proc req to ret e' e th T Ht Hto Hb
    |dead conn t x k e' out e th T Ht Hpc Hf Hsd
    |t x r e th T Ht Hpc Ha|dead t x r e th T Ht Hpc Hw Hk|t x ca e th T|t x e' ret u e th T Ht Hpc He|b sz e' e th T Hg|e th T|r e th T|b e th T];
    cbn [ep thrs time] in *.
  - split_and!; [done | done |]. by split.
  - destruct (call1_begin_call _ _ _ _ _ _ _ _ Hc (proj1 Hto) Hb) as (_ & _ & _ & _ & Hch & Hca & Hcl & Hcn & Hrf).
    split_and!; [done | |].
    + intros c. specialize (Hr c). unfold conn_refcount in *. cbn [ep thrs] in *. rewrite Hrf, Hcn, Hr, refs_insert.
      unfold held. cbn [th_pc th_call]. rewrite Hch, ref_of_none. by rewrite delete_id.
    + split; cbn [ep thrs]; rewrite ?Hca, ?Hcl.
      * intros t' y Hy Hy'. rewrite lookup_insert in Hy. rewrite lookup_insert. case_decide; [by eexists | by eapply Hp1].
      * intros i t' Hi'. rewrite lookup_insert in Hi'. case_decide; [injection Hi' as <-; subst i; eexists; split; [apply lookup_insert_eq | done] |].
        destruct (Hp2 i t' Hi') as (y & Hy & ? & ?). exists y. split; [| done]. rewrite lookup_insert_ne; [done |]. congruence.
  - destruct (call1_refused _ _ _ _ _ _ _ _ _ Hb) as [-> _]. split_and!; [done | |].
    + intros c. specialize (Hr c). cbn [ep thrs] in *. rewrite Hr, refs_insert. cbn [held refused th_pc].
      rewrite ref_of_none. by rewrite delete_id.
    + split; cbn [ep thrs].
      * intros t' y Hy Hy'. rewrite lookup_insert in Hy. case_decide; [by injection Hy as <- | by eapply Hp1].
      * intros i t' Hi'. destruct (Hp2 i t' Hi') as (y & Hy & ? & ?). exists y. split; [| done].
        rewrite lookup_insert_ne; [done |]. congruence.
  - destruct (send_done dead conn t x e th T Hr Ht Hpc Hf) as (e2 & k2 & out2 & Hs & (Hx1 & _) & [Hca Hcl] & Hr2).
    rewrite Hsd in Hs. injection Hs as <- <- <-. split_and!; [done | done |].
    split; cbn [ep thrs]; rewrite ?Hca, ?Hcl.
    + intros t' y Hy Ha. rewrite lookup_insert in Hy. case_decide; [subst t'; apply (Hp1 t x Ht); by rewrite Hpc | by eapply Hp1].
    + intros i t' Hi'. destruct (Hp2 i t' Hi') as (y & Hy & Ha & Hiy). rewrite lookup_insert.
      case_decide; [| by exists y]. subst t'. rewrite Ht in Hy. injection Hy as <-.
      eexists. split_and!; [done | done |]. cbn [goto th_call]. by rewrite Hx1.
  - destruct r as [k|]; [destruct (call1_arm_keeps _ _ _ Ha) |]; apply client_inv_move; try done; by rewrite Hpc.
  - destruct r as [k|]; [destruct (call1_wake_keeps _ _ _ _ _ Hk) |]; apply client_inv_move; try done; by rewrite Hpc.
  - done.
  - destruct (Hp1 t x Ht) as [ca Hca]; [by rewrite Hpc |].
    destruct (end_done t x e th T ca Hr Ht Hpc Hca) as (e2 & He2 & Hca2 & Hcl2 & Hr2). rewrite He in He2.
    injection He2 as -> -> ->. split_and!; [done | apply Hr2 |]. split; cbn [ep thrs]; rewrite ?Hca2, ?Hcl2.
    + intros t' y Hy Ha. rewrite lookup_insert in Hy. case_decide as Hd; [by injection Hy as <- |].
      rewrite lookup_delete_ne by done. by eapply Hp1.
    + intros i t' Hi'. apply lookup_delete_Some in Hi' as [Hne Hi']. destruct (Hp2 i t' Hi') as (y & Hy & Ha & Hiy).
      exists y. split; [| done]. rewrite lookup_insert_ne; [done |]. intros ->. rewrite Ht in Hy. congruence.
  - destruct (got_pdu_spec b sz e e' Hg) as (E1 & E2 & E3 & E4). by apply (client_inv_same e).
  - apply (client_inv_same e); try done; try (unfold cancel; cbv zeta; by case_decide). apply cancel_dom.
  - by apply (client_inv_same e).
  - by apply (client_inv_same e).
Qed.

Lemma crun_inv l s : crun l s -> client_inv s.
Proof.
  induction 1 as [retrans rnd lossy now Hnow|w l s s' _ IH H]; [| by eapply client_step_inv].
  split_and!; [done | |].
  - intros c. cbn [ep thrs]. rewrite count_zero by (intros t x; by rewrite lookup_empty). by rewrite ref_of_none.
  - split; intros i t; cbn [ep thrs calls_ rpcc_new]; by rewrite lookup_empty.
Qed.

(** C12: in every reachable state of an endpoint each connection has exactly
    as many references as it has holders, the endpoint's channel and the calls
    that use it; so no decref fails its check and no connection is freed while
    a call uses it.  The table of calls only points to callers of calls in
    progress, so a reply is never written to a caller that is gone. *)
Theorem client_references_exact l s :
  crun l s ->
  (forall c, conn_refcount c (ep s) = ref_of (chan_ (ep s)) c + Z.of_nat (count (holds c) (thrs s))) /\
  (forall t x c, thrs s !! t = Some x -> held x = Some c -> 1 <= conn_refcount c (ep s)) /\
  (forall i t, calls_ (ep s) !! i = Some t -> exists x, thrs s !! t = Some x /\ active (th_pc x) /\ is_Some (callers (ep s) !! t)).
Proof.
  intros H. destruct (crun_inv l s H) as (_ & Hr & [Hp1 Hp2]). split_and!; [done | |].
  - intros t x c Ht Hx. rewrite (Hr c). pose proof (ref_of_nonneg (chan_ (ep s)) c).
    pose proof (count_pos (holds c) _ t x Ht). unfold holds at 1 in H1. rewrite bool_decide_true in H1 by done. specialize (H1 eq_refl). lia.
  - intros i t Hi. destruct (Hp2 i t Hi) as (x & Hx & Ha & _). exists x. eauto.
Qed.

(** ** How long a call takes *)

(** The end of the i-th wait at the earliest, in nanoseconds after the begin
    of the call: 1, 2, 4, ... seconds. *)
Definition waited (i : nat) : Z := 1000 * (2 ^ Z.of_nat i - 1) * ms.

Lemma waited_succ i : waited (S i) = waited i + 1000 * 2 ^ Z.of_nat i * ms.
Proof. unfold waited. rewrite Nat2Z.inj_succ, Z.pow_succ_r by lia. lia. Qed.

Lemma waited_bound i to : to < 2 ^ 31 -> waited (S i) <= to * ms -> (i <= 20)%nat.
Proof.
  intros Hto H. destruct (Nat.le_gt_cases i 20) as [Hi|Hi]; [done | exfalso].
  assert (2 ^ 22 <= 2 ^ Z.of_nat (S i)) by (apply Z.pow_le_mono_r; lia).
  unfold waited, ms in H. change (2 ^ 22) with 4194304 in *. change (2 ^ 31) with 2147483648 in *. lia.
Qed.

(** The deadlines of the i-th round: the limit of the call, or later than the
    waits so far. *)
Lemma arm_round now k b to i :
  clock_ok now -> to < 2 ^ 31 -> tv_sec (k_final k) <> 0 -> ns (k_final k) = b + to * ms -> deadline_ok (k_final k) ->
  k_curr_to k = 1000 * 2 ^ Z.of_nat i -> b + waited i <= ns now ->
  exists k', call1_arm now k = Done (Some k') /\ k_curr_to k' = k_curr_to k /\ tv_nsec (k_final k') = tv_nsec (k_final k) /\
    ((tv_sec (k_final k') = 0 /\ k_next k' = k_final k) \/
     ((i <= 20)%nat /\ k_final k' = k_final k /\ b + waited (S i) <= ns (k_next k') <= ns (k_final k) /\ deadline_valid (k_next k'))).
Proof.
  intros Hnow Hto Hsec Hfin Hok Hcur Hw. unfold call1_arm. rewrite (proj2 (Z.eqb_neq _ _) Hsec).
  assert (Hpow : 0 < 2 ^ Z.of_nat i) by lia.
  destruct (deadline_spec now (k_curr_to k) Hnow ltac:(lia)) as (d & -> & Hd & Hdok & _ & Hdv). rewrite bind_Done.
  destruct (cmp_timespec_ns d (k_final k) Hdok Hok) as [_ Hc]. destruct (Z.ltb_spec 0 (cmp_timespec d (k_final k))) as [Hlt|Hge].
  - eexists. split; [reflexivity |]. cbn [k_curr_to k_final k_next tv_sec tv_nsec]. auto.
  - eexists. split; [reflexivity |]. cbn [k_curr_to k_final k_next tv_sec tv_nsec]. split_and!; try done. right.
    specialize (Hc Hge). pose proof (waited_succ i) as Hs. rewrite Hcur in *.
    split_and!; [apply (waited_bound i to); lia | done | lia | lia |]. unfold deadline_valid. destruct Hnow as [_ Hn].
    rewrite Hdv; [lia |]. rewrite Z.mul_comm. apply Z.rem_mul. lia.
Qed.

Definition is_done (e : rpcc) (t : nat) : Prop := exists ca, callers e !! t = Some ca /\ done_ ca = true.

(** The steps a thread still takes at most. *)
Definition round_steps (i : nat) : nat := 69 - 3 * i.

(** Before the last round, and in it, when the sentinel is set. *)
Definition early_round (T : timespec) (x : thr) (n : nat) : Prop :=
  let k := th_call x in let b := ns (th_begin x) in
  tv_sec (k_final k) <> 0 /\ ns (k_final k) = b + th_to x * ms /\ deadline_ok (k_final k) /\
  exists i, (i <= 21)%nat /\ k_curr_to k = 1000 * 2 ^ Z.of_nat i /\
    match th_pc x with
    | Waiting => (i <= 20)%nat /\ b + waited (S i) <= ns (k_next k) <= ns (k_final k) /\ deadline_valid (k_next k) /\ (round_steps i - 2 <= n)%nat
    | Arming => b + waited i <= ns T /\ (round_steps i - 1 <= n)%nat
    | _ => b + waited i <= ns T /\ (round_steps i <= n)%nat
    end.

Definition last_round (T : timespec) (x : thr) (n : nat) : Prop :=
  let k := th_call x in let limit := ns (th_begin x) + th_to x * ms in
  tv_sec (k_final k) = 0 /\
  match th_pc x with
  | Waiting => ns (k_next k) = limit /\ tv_nsec (k_next k) = tv_nsec (k_final k) /\ (4 <= n)%nat
  | Arming => limit <= ns T /\ (2 <= n)%nat
  | _ => limit <= ns T /\ (3 <= n)%nat
  end.

Definition timing (T : timespec) (e : rpcc) (t : nat) (x : thr) (n : nat) : Prop :=
  0 <= th_to x < 2 ^ 31 /\
  match th_pc x with
  | Returned _ _ => True
  | Leaving => (is_done e t \/ ns (th_begin x) + th_to x * ms <= ns T) /\ (1 <= n)%nat
  | _ => early_round T x n \/ last_round T x n
  end.

Lemma timing_mono T T' e e' t x n :
  timing T e t x n -> ns T <= ns T' -> (is_done e t -> is_done e' t) -> timing T' e' t x n.
Proof.
  intros [Hto H] HT Hd. split; [done |]. unfold early_round, last_round in *.
  destruct (th_pc x); [| | | | done]; try (destruct H as [H|H]; [left | right]; naive_solver lia).
  destruct H as [[H|H] Hn]; (split; [| done]); [left; auto | right; lia].
Qed.

Lemma begin_timing t proc req to T e e' k :
  clock_ok T -> 0 <= to < 2 ^ 31 -> call1_begin fill t proc req to T e = Done (e', inr k) ->
  timing T e' t (Thr k Sending T to) 69.
Proof.
  intros HT Hto H. destruct (call1_begin_call _ _ _ _ _ _ _ _ HT (proj1 Hto) H) as (Hc & Hf & Hok & Hs & _).
  split; [done |]. left. unfold early_round. cbn [th_call th_begin th_to th_pc]. split_and!; [lia | done | done |].
  exists 0%nat. unfold waited, round_steps. rewrite Hc. change (2 ^ Z.of_nat 0) with 1. unfold to_min. split_and!; lia.
Qed.

Lemma send_timing T e t x k n e' :
  timing T e t x n -> th_pc x = Sending -> same_time (th_call x) k ->
  exists n', (n' < n)%nat /\ timing T e' t (goto Arming k x) n'.
Proof.
  intros [Hto H] Hp (_ & E1 & E2 & E3). unfold timing, early_round, last_round, goto in *.
  cbn [th_call th_begin th_to th_pc] in *. rewrite Hp in H. rewrite E1, E3. exists (n - 1)%nat.
  destruct H as [(H1 & H2 & H3 & i & Hi & H4 & H5 & H6)|(H1 & H2 & H3)].
  - unfold round_steps in *. split; [lia |]. split; [done |]. left. split_and!; [done | done | done |].
    exists i. split_and!; try done. lia.
  - split; [lia |]. split; [done |]. right. split_and!; try done. lia.
Qed.

Lemma arm_timing T e t x n :
  clock_ok T -> timing T e t x n -> th_pc x = Arming ->
  exists r n', call1_arm T (th_call x) = Done r /\ (n' < n)%nat /\
    timing T e t (match r with Some k => goto Waiting k x | None => goto Leaving (th_call x) x end) n'.
Proof.
  intros HT [Hto H] Hp. unfold timing, early_round, last_round in *. rewrite Hp in H.
  destruct H as [(H1 & H2 & H3 & i & Hi & H4 & H5 & H6)|(H1 & H2 & H3)].
  - destruct (arm_round T (th_call x) _ _ i HT (proj2 Hto) H1 H2 H3 H4 H5) as (k & -> & Hc & Hn & Hk).
    exists (Some k), (n - 1)%nat. unfold goto, round_steps in *. cbn [th_call th_begin th_to th_pc] in *.
    split_and!; [done | lia | lia | lia |]. destruct Hk as [[Hk1 Hk2]|(Hk1 & Hk2 & Hk3 & Hk4)].
    + right. rewrite Hk2, Hn. split_and!; [done | done | done | lia].
    + left. rewrite Hk2, Hc. split_and!; try done; try apply H3. exists i. split_and!; try done; lia.
  - exists None, (n - 1)%nat. unfold call1_arm. rewrite H1. unfold goto. cbn [th_call th_begin th_to th_pc].
    split_and!; [done | lia | lia | lia | by right | lia].
Qed.

Lemma s32_double i : (i <= 20)%nat -> s32 (Z.shiftl (1000 * 2 ^ Z.of_nat i) 1) = 1000 * 2 ^ Z.of_nat (S i).
Proof.
  intros Hi. rewrite Z.shiftl_mul_pow2 by lia. rewrite Nat2Z.inj_succ, Z.pow_succ_r by lia. change (2 ^ 1) with 2.
  assert (2 ^ Z.of_nat i <= 2 ^ 20) by (apply Z.pow_le_mono_r; lia). assert (0 < 2 ^ Z.of_nat i) by lia.
  rewrite s32_id; [lia |]. unfold is_s32. change (2 ^ 20) with 1048576 in *. change (2 ^ 31) with 2147483648. lia.
Qed.

Lemma wake_timing T e t x dead n ca :
  timing T e t x n -> th_pc x = Waiting -> callers e !! t = Some ca -> wait_over t (th_call x) T e ->
  exists r n', call1_wake dead t (th_call x) e = Done r /\ (n' < n)%nat /\
    timing T e t (match r with Some k => goto Sending k x | None => goto Leaving (th_call x) x end) n'.
Proof.
  intros [Hto H] Hp Hca Hw. unfold call1_wake. rewrite Hca. unfold timing, early_round, last_round in *. rewrite Hp in H.
  assert (Hn : (4 <= n)%nat) by (destruct H as [(_ & _ & _ & i & _ & _ & Hi & _ & _ & Hn)|(_ & _ & _ & Hn)];
    [unfold round_steps in Hn; lia | done]).
  destruct (done_ ca) eqn:Hd.
  { exists None, (n - 1)%nat. unfold goto. cbn [th_call th_begin th_to th_pc]. split_and!; [done | lia | lia | lia | | lia].
    left. by exists ca. }
  assert (Hlim : ns (k_next (th_call x)) <= ns T).
  { destruct Hw as [(ca' & Hca' & Hd')|[_ Hw]]; [congruence | done]. }
  eexists (Some _), (n - 1)%nat. split; [reflexivity |]. unfold goto. cbn [th_call th_begin th_to th_pc k_final k_curr_to k_next].
  split_and!; [lia | lia | lia |]. destruct H as [(H1 & H2 & H3 & i & Hi & H4 & H5 & H6 & _ & H7)|(H1 & H2 & _ & H3)].
  - left. split_and!; try done; try apply H3. exists (S i). rewrite H4, s32_double by done. unfold round_steps in *.
    split_and!; [lia | done | lia | lia].
  - right. split_and!; [done | lia | lia].
Qed.

(** ** All steps *)

(** What the other steps do to a thread: nothing; a caller that is done stays
    so. *)
Lemma other_step w s s' t :
  client_inv s -> cstep w s s' -> w <> Own t ->
  thrs s' !! t = thrs s !! t /\ ns (time s) <= ns (time s') /\ (is_done (ep s) t -> is_done (ep s') t).
Proof.
  intros (HC & Hr & [Hp1 Hp2]) H Hw.
  destruct H as [now e th T Hnow Hle|t' proc req to k e' e th T Ht Hto Hb|t' proc req to ret e' e th T Ht Hto Hb
    |dead conn t' x k e' out e th T Ht Hpc Hf Hsd
    |t' x r e th T Ht Hpc Ha|dead t' x r e th T Ht Hpc Hwo Hk|t'' x ca e th T|t' x e' ret u e th T Ht Hpc He|b sz e' e th T Hg|e th T|r e th T|b e th T];
    cbn [ep thrs time] in *; try (assert (t' <> t) by congruence; rewrite lookup_insert_ne by done).
  - done.
  - destruct (call1_begin_call _ _ _ _ _ _ _ _ HC (proj1 Hto) Hb) as (_ & _ & _ & _ & _ & Hca & _).
    split_and!; [done | lia |]. unfold is_done. rewrite Hca. by rewrite lookup_insert_ne.
  - destruct (call1_refused _ _ _ _ _ _ _ _ _ Hb) as [-> _]. by split_and!; [| lia |].
  - destruct (send_done dead conn t' x e th T Hr Ht Hpc Hf) as (e2 & k2 & out2 & Hs & _ & [Hca _] & _).
    rewrite Hsd in Hs. injection Hs as <- <- <-. split_and!; [done | lia |]. unfold is_done. by rewrite Hca.
  - split_and!; [done | lia | done].
  - split_and!; [done | lia | done].
  - split_and!; [done | lia | done].
  - destruct (Hp1 t' x Ht) as [ca Hca]; [by rewrite Hpc |].
    destruct (end_done t' x e th T ca Hr Ht Hpc Hca) as (e2 & He2 & Hca2 & _). rewrite He in He2. injection He2 as -> -> ->.
    split_and!; [done | lia |]. unfold is_done. rewrite Hca2. by rewrite lookup_delete_ne.
  - split_and!; [done | lia |]. by eapply got_pdu_done.
  - split_and!; [done | lia |]. intros (ca & Hca & Hd). destruct (cancel_callers e t ca Hca) as [Hc|Hc]; eexists; done.
  - by split_and!; [| lia |].
  - by split_and!; [| lia |].
Qed.

Lemma own_step s s' t x n :
  client_inv s -> thrs s !! t = Some x -> timing (time s) (ep s) t x n -> cstep (Own t) s s' ->
  exists x' n', thrs s' !! t = Some x' /\ (n' < n)%nat /\ timing (time s') (ep s') t x' n'.
Proof.
  intros (HC & Hr & [Hp1 Hp2]) Hx Hn H. inversion H as [|? ? ? ? ? ? ? ? ? Ht|? ? ? ? ? ? ? ? ? Ht
    |? conn ? y k e' out e th T Ht Hpc Hf Hsd
    |? y r e th T Ht Hpc Ha|dead ? y r e th T Ht Hpc Hwo Hk| |? y e' ret u e th T Ht Hpc He| | | |]; subst;
    cbn [ep thrs time] in *; rewrite Ht in Hx; simplify_eq; rewrite lookup_insert_eq.
  - destruct (send_done dead conn t x e th T Hr Ht Hpc Hf) as (e2 & k2 & out2 & Hs & Hst & _).
    rewrite Hsd in Hs. injection Hs as <- <- <-.
    destruct (send_timing T e t x k n e' Hn Hpc Hst) as (n' & Hlt & Hn'). by eexists _, n'.
  - destruct (arm_timing T e t x n HC Hn Hpc) as (r' & n' & Hr' & Hlt & Hn'). rewrite Ha in Hr'. injection Hr' as <-.
    by eexists _, n'.
  - destruct (Hp1 t x Ht) as [ca Hca]; [by rewrite Hpc |].
    destruct (wake_timing T e t x dead n ca Hn Hpc Hca Hwo) as (r' & n' & Hr' & Hlt & Hn'). rewrite Hk in Hr'.
    injection Hr' as <-. by eexists _, n'.
  - destruct Hn as [Hto Hn]. rewrite Hpc in Hn. eexists _, 0%nat. split_and!; [done | lia |]. by split.
Qed.

Lemma own_cons t w l : own t (w :: l) = (if decide (w = Own t) then S (own t l) else own t l).
Proof. unfold own. rewrite filter_cons. by case_decide. Qed.

Lemma crun_timing l s t :
  crun l s ->
  match thrs s !! t with
  | None => own t l = 0%nat
  | Some x => exists n, timing (time s) (ep s) t x n /\ (own t l + n <= 70)%nat
  end.
Proof.
  induction 1 as [retrans rnd lossy now Hnow|w l s s' Hl IH H]; [by cbn [thrs]; rewrite lookup_empty |].
  pose proof (crun_inv l s Hl) as Hi. rewrite own_cons. case_decide as Hw; [subst w |].
  - destruct (thrs s !! t) as [x|] eqn:Hx.
    + destruct IH as (n & Hn & Hown). destruct (own_step s s' t x n Hi Hx Hn H) as (x' & n' & -> & Hlt & Hn').
      exists n'. split; [done | lia].
    + inversion H as [|? proc req to k e' e th T Ht Hto Hb|? proc req to ret e' e th T Ht Hto Hb|? conn ? y k e' out e th T Ht
        |? y r e th T Ht|? ? y r e th T Ht| |? y e' ret u e th T Ht| | | |]; subst; cbn [ep thrs time] in *; try congruence;
        rewrite lookup_insert_eq; exists 69%nat; (split; [| lia]).
      * eapply begin_timing; try done. apply Hi.
      * by split.
  - destruct (other_step w s s' t Hi H Hw) as (-> & HT & Hd). destruct (thrs s !! t) as [x|]; [| done].
    destruct IH as (n & Hn & Hown). exists n. split; [| done]. by eapply timing_mono.
Qed.

(** No deadline of a call is behind its time limit. *)
Lemma next_within_limit T e t x n :
  timing T e t x n -> th_pc x = Waiting -> deadline_valid (k_final (th_call x)) ->
  deadline_valid (k_next (th_call x)) /\ ns (k_next (th_call x)) <= ns (th_begin x) + th_to x * ms.
Proof.
  intros [_ Hn] Hpc Hv. rewrite Hpc in Hn. unfold early_round, last_round, deadline_valid in *. rewrite Hpc in Hn.
  destruct Hn as [(_ & Hf & _ & i & _ & _ & _ & Hd & Hn & _)|(_ & Hd & Hn & _)]; lia.
Qed.

(** A thread in call1 whose wait is over can take its next step. *)
Lemma own_step_enabled l s t x now :
  crun l s -> thrs s !! t = Some x -> active (th_pc x) -> clock_ok now -> ns (time s) <= ns now ->
  (th_pc x = Waiting -> wait_over t (th_call x) now (ep s)) ->
  exists s', cstep (Own t) (CState (ep s) (thrs s) now) s'.
Proof.
  intros H Hx Ha HC' HT' Hwo. pose proof (crun_timing l s t H) as Ht. rewrite Hx in Ht. destruct Ht as (n & Hn & _).
  destruct (crun_inv l s H) as (HC & Hr & [Hp1 Hp2]). destruct s as [e th T]. cbn [ep thrs time] in *.
  assert (Hn' : timing now e t x n) by (by eapply timing_mono).
  destruct (Hp1 t x Hx Ha) as [ca Hca]. destruct (th_pc x) eqn:Hpc; [| | | | done].
  - destruct (send_done (fun _ => false) None t x e th T Hr Hx Hpc) as (e' & k & out & Hs & _); [done |].
    eexists. by eapply (cs_send (fun _ => false) None).
  - destruct (arm_timing now e t x n HC' Hn' Hpc) as (r & n' & Hr' & _). eexists. by eapply cs_arm.
  - specialize (Hwo eq_refl). destruct (wake_timing now e t x (fun _ => false) n ca Hn' Hpc Hca Hwo) as (r & n' & Hr' & _).
    eexists. by eapply (cs_wake (fun _ => false)).
  - destruct (end_done t x e th T ca Hr Hx Hpc Hca) as (e' & He & _). eexists. by eapply cs_end.
Qed.


(** ** Where the result of a call comes from *)

(** A reply that arrived in the run, or a cancellation in it. *)
Definition replied (l : list label) (x ret : Z) (u : unmarshall) : Prop :=
  exists b sz rep h, Pdu b sz ∈ l /\ unpack_reply_header (unmarshall_new b sz) = Done (rep, h) /\ u_ok rep = true /\
    p_xid h = s32 x /\ p_ret h = ret /\ fst (take_in rep) = u.

Definition answered_by (l : list label) (ca : caller) : Prop :=
  replied l (ca_xid ca) (intret ca) (un ca) \/ (Cancelling ∈ l /\ intret ca = cancel_failure).

Definition answers_ok (l : list label) (s : cstate) : Prop :=
  forall t x, thrs s !! t = Some x -> active (th_pc x) ->
    exists ca, callers (ep s) !! t = Some ca /\ ca_xid ca = k_xid (th_call x) /\ (done_ ca = true -> answered_by l ca).

Lemma answered_by_cons w l ca : answered_by l ca -> answered_by (w :: l) ca.
Proof.
  intros [(b & sz & rep & h & Hin & H)|[Hin H]]; [left; exists b, sz, rep, h | right]; (split; [by right | done]).
Qed.

Lemma answers_ok_move w l t x k p e e' th T :
  answers_ok l (CState e th T) -> callers e' = callers e -> th !! t = Some x -> active (th_pc x) -> k_xid k = k_xid (th_call x) ->
  answers_ok (w :: l) (CState e' (<[t := goto p k x]> th) T).
Proof.
  intros Hi He Ht Ha Hk t' y Hy Hya. cbn [ep thrs] in *. rewrite He. rewrite lookup_insert in Hy. case_decide as Hd.
  - subst t'. injection Hy as <-. destruct (Hi t x Ht Ha) as (ca & ? & ? & ?). exists ca. cbn [goto th_call]. rewrite Hk.
    split_and!; try done. intros ?. apply answered_by_cons. auto.
  - destruct (Hi t' y Hy Hya) as (ca & ? & ? & ?). exists ca. split_and!; try done. intros ?. apply answered_by_cons. auto.
Qed.

Lemma answers_ok_cons w l e e' th T T' :
  answers_ok l (CState e th T) -> callers e' = callers e -> answers_ok (w :: l) (CState e' th T').
Proof.
  intros Hi He t x Ht Ha. cbn [ep thrs] in *. rewrite He. destruct (Hi t x Ht Ha) as (ca & ? & ? & ?).
  exists ca. split_and!; try done. intros ?. apply answered_by_cons. auto.
Qed.

Lemma answers_ok_pdu l b sz e e' th T :
  client_inv (CState e th T) -> answers_ok l (CState e th T) -> client_got_pdu b sz e = Done e' ->
  answers_ok (Pdu b sz :: l) (CState e' th T).
Proof.
  intros (_ & _ & [_ Hp2]) Hi H. unfold client_got_pdu in H. apply bind_Done_inv in H as ([rep h] & Hun & H).
  destruct (u_ok rep) eqn:Hok; cbn [negb] in H; [| injection H as <-; by eapply answers_ok_cons].
  cbv zeta in H. cbn [calls_ callers set_window ep thrs] in *.
  destruct (calls_ e !! p_xid h) as [t|] eqn:Hc; [| injection H as <-; by eapply answers_ok_cons].
  destruct (callers e !! t) as [ca|] eqn:Hca; [| done].
  destruct (done_ ca) eqn:Hd; injection H as <-; [by eapply answers_ok_cons |].
  destruct (Hp2 _ _ Hc) as (x & Hx & Hxa & Hxid). intros t' y Hy Hya. cbn [ep thrs callers set_calls set_window] in *.
  rewrite lookup_insert. case_decide as Ht.
  - subst t'. rewrite Hx in Hy. injection Hy as <-. destruct (Hi t x Hx Hxa) as (ca' & Hca' & Hx' & _). cbn [ep] in Hca'.
    rewrite Hca in Hca'. injection Hca' as <-. eexists. split_and!; [done | done |]. intros _. left. exists b, sz, rep, h. cbn [ca_xid intret un].
    split_and!; try done; [by left | congruence].
  - destruct (Hi t' y Hy Hya) as (ca' & ? & ? & ?). exists ca'. split_and!; try done. intros ?. apply answered_by_cons. auto.
Qed.

Lemma answers_ok_step w l s s' : client_inv s -> answers_ok l s -> cstep w s s' -> answers_ok (w :: l) s'.
Proof.
  intros Hinv Hi H. assert (HI := Hinv). destruct HI as (Hc & Hr & [Hp1 Hp2]).
  destruct H as [now e th T Hnow Hle|t proc req to k e' e th T Ht Hto Hb|t proc req to ret e' e th T Ht Hto Hb
    |dead conn t x k e' out e th T Ht Hpc Hf Hsd
    |t x r e th T Ht Hpc Ha|dead t x r e th T Ht Hpc Hw Hk|t x ca e th T|t x e' ret u e th T Ht Hpc He|b sz e' e th T Hg|e th T|r e th T|b e th T];
    cbn [ep thrs time] in *; try by eapply answers_ok_cons.
  - destruct (call1_begin_call _ _ _ _ _ _ _ _ Hc (proj1 Hto) Hb) as (_ & _ & _ & _ & _ & Hca & _).
    intros t' y Hy Hya. cbn [ep thrs] in *. rewrite Hca. rewrite lookup_insert in Hy. rewrite lookup_insert. case_decide.
    + injection Hy as <-. by eexists.
    + destruct (Hi t' y Hy Hya) as (ca & ? & ? & ?). exists ca. split_and!; try done. intros ?. apply answered_by_cons. auto.
  - destruct (call1_refused _ _ _ _ _ _ _ _ _ Hb) as [-> _]. intros t' y Hy Hya. cbn [ep thrs] in *.
    rewrite lookup_insert in Hy. case_decide; [by injection Hy as <- |].
    destruct (Hi t' y Hy Hya) as (ca & ? & ? & ?). exists ca. split_and!; try done. intros ?. apply answered_by_cons. auto.
  - destruct (send_done dead conn t x e th T Hr Ht Hpc Hf) as (e2 & k2 & out2 & Hs & (Hx1 & _) & [Hca _] & _).
    rewrite Hsd in Hs. injection Hs as <- <- <-. apply (answers_ok_move _ _ _ _ _ _ e); try done. by rewrite Hpc.
  - destruct r as [k|]; [destruct (call1_arm_keeps _ _ _ Ha) |]; apply (answers_ok_move _ _ _ _ _ _ e); try done; by rewrite Hpc.
  - destruct r as [k|]; [destruct (call1_wake_keeps _ _ _ _ _ Hk) |]; apply (answers_ok_move _ _ _ _ _ _ e); try done; by rewrite Hpc.
  - destruct (Hp1 t x Ht) as [ca Hca]; [by rewrite Hpc |].
    destruct (end_done t x e th T ca Hr Ht Hpc Hca) as (e2 & He2 & Hca2 & _). rewrite He in He2. injection He2 as -> -> ->.
    intros t' y Hy Hya. cbn [ep thrs] in *. rewrite lookup_insert in Hy. case_decide as Hd; [by injection Hy as <- |].
    rewrite Hca2, lookup_delete_ne by done. destruct (Hi t' y Hy Hya) as (ca' & ? & ? & ?). exists ca'.
    split_and!; try done. intros ?. apply answered_by_cons. auto.
  - by eapply answers_ok_pdu.
  - intros t y Hy Hya. cbn [ep thrs] in *. destruct (Hi t y Hy Hya) as (ca & Hca & Hx & Ha).
    destruct (cancel_callers e t ca Hca) as [Hc'|Hc']; eexists; (split_and!; [done | done |]); intros Hd.
    + apply answered_by_cons. auto.
    + right. split; [by left | done].
Qed.

Lemma crun_answers l s : crun l s -> answers_ok l s.
Proof.
  induction 1 as [retrans rnd lossy now Hnow|w l s s' Hl IH H].
  - intros t x. cbn [thrs]. by rewrite lookup_empty.
  - eapply answers_ok_step; [by eapply crun_inv | done | done].
Qed.

Lemma returned_cases l s s' t x ret u :
  crun l s -> cstep (Own t) s s' -> thrs s' !! t = Some x -> th_pc x = Returned ret u ->
  (replied l (k_xid (th_call x)) ret u /\ is_Some (thrs s !! t)) \/
  (ret = cancel_failure /\ Cancelling ∈ l) \/
  (ret = timeout_failure /\ ns (th_begin x) + th_to x * ms <= ns (time s)) \/
  (thrs s !! t = None /\ exists proc req, call1_begin fill t proc req (th_to x) (time s) (ep s) = Done (ep s', inl ret) /\ ep s' = ep s /\
   ((ret = bind_failure /\ (proc = bind <-> bind_done_ (ep s) = true)) \/
    (ret = cancel_failure /\ destroy_wait_ (ep s) = true))).
Proof.
  intros Hl H Hx Hret. destruct (crun_inv l s Hl) as (HC & Hr & [Hp1 Hp2]). pose proof (crun_answers l s Hl) as Hans.
  inversion H as [|? proc req to k e' e th T Ht|? proc req to r0 e' e th T Ht Hto Hb|? conn ? y k e' out e th T Ht|? y r e th T Ht|? ? y r e th T Ht| |
    ? y e' ret' u' e th T Ht Hpc He| | | |]; subst; cbn [ep thrs time] in *; rewrite lookup_insert_eq in Hx; injection Hx as <-;
    try (destruct r); cbn [goto th_pc refused th_call th_begin th_to] in *; try done.
  { injection Hret as <- <-. destruct (call1_refused _ _ _ _ _ _ _ _ _ Hb) as [-> Hc]. right; right; right. split; [done |]. by exists proc, req. }
  injection Hret as -> ->.
  destruct (Hans t y Ht) as (ca & Hca & Hxid & Hd'); [by rewrite Hpc |]. cbn [ep] in Hca.
  destruct (end_done t y e th T ca Hr Ht Hpc Hca) as (e2 & He2 & _). rewrite He in He2. injection He2 as -> -> ->.
  destruct (done_ ca) eqn:Hd.
  { destruct (Hd' eq_refl) as [Ha|[Ha1 Ha2]]; [left; rewrite <- Hxid; eauto | by right; left]. }
  right; right; left. split; [done |].
  pose proof (crun_timing l _ t Hl) as Htm. cbn [thrs] in Htm. rewrite Ht in Htm. destruct Htm as (n & [_ Hn] & _).
  rewrite Hpc in Hn. destruct Hn as [[(ca' & Hca' & Hd2)|Hn] _]; [cbn [ep] in Hca'; congruence | done].
Qed.

(** C21: what a call returns, on every path.  A call that was let in returns
    the result of a reply with its transaction id that arrived, or
    cancel_failure when the endpoint was cancelled, or a timeout, and the
    timeout not before its time limit has passed.  A call that was not let in
    returns at once: bind_failure when it binds a bound endpoint or uses one
    that is not bound, cancel_failure when a cancellation waits. *)
Theorem timeout_in_time l s s' t x ret u :
  crun l s -> cstep (Own t) s s' -> thrs s' !! t = Some x -> th_pc x = Returned ret u ->
  (replied l (k_xid (th_call x)) ret u /\ is_Some (thrs s !! t)) \/
  (ret = cancel_failure /\ Cancelling ∈ l) \/
  (ret = timeout_failure /\ ns (th_begin x) + th_to x * ms <= ns (time s)) \/
  (thrs s !! t = None /\ exists proc req, call1_begin fill t proc req (th_to x) (time s) (ep s) = Done (ep s', inl ret) /\ ep s' = ep s /\
   ((ret = bind_failure /\ (proc = bind <-> bind_done_ (ep s) = true)) \/
    (ret = cancel_failure /\ destroy_wait_ (ep s) = true))).
Proof. apply returned_cases. Qed.

(** Every call began at a time the clock showed. *)
Lemma crun_begin l s t x : crun l s -> thrs s !! t = Some x -> clock_ok (th_begin x).
Proof.
  intros Hl. revert t x. induction Hl as [retrans rnd lossy now Hnow|w l s s' Hl IH H]; intros t x Hx.
  { cbn [thrs] in Hx. by rewrite lookup_empty in Hx. }
  destruct (crun_inv l s Hl) as (HC & _).
  destruct H; cbn [ep thrs time] in *; try (by eapply IH); rewrite lookup_insert in Hx; case_decide; try (by eapply IH);
    injection Hx as <-; repeat case_match; cbn [goto refused th_begin]; first [done | by eapply IH].
Qed.

End calls.

(** ** A run: nobody answers

    Thread 0 binds with a limit of one second; its only connection stays open
    and no reply arrives. *)

Inductive call_action := DoTick (now : timespec) | DoBegin (t : nat) (to : Z) | DoSend (t : nat) (conn : option Z) | DoArm (t : nat) | DoWake (t : nat) | DoEnd (t : nat).

Definition thr_at (t : nat) (s : cstate) : outcome thr :=
  match thrs s !! t with Some x => Done x | None => Fault OutOfBounds end.

Definition pc_num (p : pc) : Z := match p with Sending => 0 | Arming => 1 | Waiting => 2 | Leaving => 3 | Returned _ _ => 4 end.

Definition wait_overb (t : nat) (k : call) (now : timespec) (e : rpcc) : bool :=
  match callers e !! t with Some ca => done_ ca | None => false end ||
  ((tv_nsec (k_next k) <? 1000000000) && (ns (k_next k) <=? ns now)).

Definition do_call (a : call_action) (s : cstate) : outcome (label * cstate) :=
  let '(CState e th T) := s in
  match a with
  | DoTick now =>
      _ ← verify ((1 <=? tv_sec now) && (0 <=? tv_nsec now) && (tv_nsec now <? 1000000000) && (ns T <=? ns now));
      mret (Env, CState e th now)
  | DoBegin t to =>
      _ ← verify (bool_decide (th !! t = None) && (0 <=? to) && (to <? 2 ^ 31));
      m ← call_args demo_fill cd_int 0;
      r ← call1_begin demo_fill t bind m to T e;
      match r with
      | (e', inr k) => mret (Own t, CState e' (<[t := Thr k Sending T to]> th) T)
      | (e', inl ret) => mret (Own t, CState e' (<[t := refused ret T to]> th) T)
      end
  | DoSend t conn =>
      x ← thr_at t s; _ ← verify (pc_num (th_pc x) =? 0);
      _ ← verify (match conn with Some c => conn_refcount c e =? 0 | None => true end);
      r ← call1_send (fun _ => false) conn (th_call x) e;
      let '(e', k, _) := r in mret (Own t, CState e' (<[t := goto Arming k x]> th) T)
  | DoArm t =>
      x ← thr_at t s; _ ← verify (pc_num (th_pc x) =? 1); r ← call1_arm T (th_call x);
      mret (Own t, CState e (<[t := match r with Some k => goto Waiting k x | None => goto Leaving (th_call x) x end]> th) T)
  | DoWake t =>
      x ← thr_at t s; _ ← verify (pc_num (th_pc x) =? 2); _ ← verify (wait_overb t (th_call x) T e);
      r ← call1_wake (fun _ => false) t (th_call x) e;
      mret (Own t, CState e (<[t := match r with Some k => goto Sending k x | None => goto Leaving (th_call x) x end]> th) T)
  | DoEnd t =>
      x ← thr_at t s; _ ← verify (pc_num (th_pc x) =? 3); r ← call1_end t (th_call x) e;
      let '(e', ret, u) := r in mret (Own t, CState e' (<[t := goto (Returned ret u) (th_call x) x]> th) T)
  end.

Lemma thr_at_inv t s x : thr_at t s = Done x -> thrs s !! t = Some x.
Proof. unfold thr_at. destruct (thrs s !! t); [by intros [= ->] | done]. Qed.

Lemma pc_num_inv p : (pc_num p = 0 -> p = Sending) /\ (pc_num p = 1 -> p = Arming) /\ (pc_num p = 2 -> p = Waiting) /\ (pc_num p = 3 -> p = Leaving).
Proof. by destruct p. Qed.

Lemma wait_overb_inv t k now e : wait_overb t k now e = true -> wait_over t k now e.
Proof.
  unfold wait_overb, wait_over, deadline_valid. intros [H|H]%orb_true_iff; [| right; lia].
  destruct (callers e !! t) as [ca|] eqn:Hca; [| done]. left. by exists ca.
Qed.

Lemma do_call_step a s w s' : do_call a s = Done (w, s') -> cstep demo_fill w s s'.
Proof.
  destruct s as [e th T]. destruct a as [now|t to|t conn|t|t|t]; cbn [do_call]; intros H.
  - apply bind_Done_inv in H as ([] & Hv%verify_Done & H). injection H as <- <-. apply cs_tick; [split|]; lia.
  - apply bind_Done_inv in H as ([] & Hv%verify_Done & H). apply bind_Done_inv in H as (m & _ & H).
    apply bind_Done_inv in H as ([e' [r|k]] & Hb & H); injection H as <- <-;
      apply andb_true_iff in Hv as [[Hv%bool_decide_eq_true Hv1]%andb_true_iff Hv2];
      [eapply cs_refused | eapply cs_begin]; first [done | lia].
  - apply bind_Done_inv in H as (x & Hx%thr_at_inv & H). apply bind_Done_inv in H as ([] & Hp%verify_Done & H).
    apply bind_Done_inv in H as ([] & Hf%verify_Done & H). apply bind_Done_inv in H as ([[e' k] out] & Hs & H). injection H as <- <-.
    eapply (cs_send _ (fun _ => false) conn); [done | apply pc_num_inv; lia | destruct conn; cbn; [lia | done] | done].
  - apply bind_Done_inv in H as (x & Hx%thr_at_inv & H). apply bind_Done_inv in H as ([] & Hp%verify_Done & H).
    apply bind_Done_inv in H as (r & Hr & H). injection H as <- <-. eapply cs_arm; [done | apply pc_num_inv; lia | done].
  - apply bind_Done_inv in H as (x & Hx%thr_at_inv & H). apply bind_Done_inv in H as ([] & Hp%verify_Done & H).
    apply bind_Done_inv in H as ([] & Hf%verify_Done & H). apply bind_Done_inv in H as (r & Hr & H). injection H as <- <-.
    eapply cs_wake; [done | apply pc_num_inv; lia | by apply wait_overb_inv | done].
  - apply bind_Done_inv in H as (x & Hx%thr_at_inv & H). apply bind_Done_inv in H as ([] & Hp%verify_Done & H).
    apply bind_Done_inv in H as ([[e' ret] u] & Hr & H). injection H as <- <-. eapply cs_end; [done | apply pc_num_inv; lia | done].
Qed.

Fixpoint do_calls (acts : list call_action) (l : list label) (s : cstate) : outcome (list label * cstate) :=
  match acts with
  | [] => mret (l, s)
  | a :: acts => r ← do_call a s; do_calls acts (fst r :: l) (snd r)
  end.

Lemma do_calls_run acts l s l' s' : crun demo_fill l s -> do_calls acts l s = Done (l', s') -> crun demo_fill l' s'.
Proof.
  revert l s. induction acts as [|a acts IH]; intros l s Hl H; cbn [do_calls] in H; [by injection H as <- <- |].
  apply bind_Done_inv in H as ([w s1] & Ha & H). cbn [fst snd] in H. eapply IH; [| done].
  eapply cr_step; [done | by eapply do_call_step].
Qed.

Definition lonely_start : cstate := CState (rpcc_new true 5 0) ∅ (Timespec 10 0).
Definition lonely_calls : list call_action :=
  [DoBegin 0 1000; DoSend 0 (Some 3); DoArm 0; DoTick (Timespec 11 0); DoWake 0; DoSend 0 None; DoArm 0; DoWake 0;
   DoSend 0 None; DoArm 0].

Definition lonely (f : list label -> cstate -> Prop) : Prop :=
  match do_calls lonely_calls [] lonely_start with Done (l, s) => f l s | Fault _ => False end.

Lemma lonely_intro (f : list label -> cstate -> Prop) :
  lonely (fun _ _ => True) -> (forall l s, crun demo_fill l s -> do_calls lonely_calls [] lonely_start = Done (l, s) -> f l s) -> lonely f.
Proof.
  unfold lonely. destruct (do_calls _ _ _) as [[l s]|] eqn:E; [| done]. intros _ H. apply H; [| done].
  eapply do_calls_run; [| exact E]. apply cr_start. unfold clock_ok. cbn. lia.
Qed.

Lemma client_references_exact_witness :
  lonely (fun l s => conn_refcount 3 (ep s) = ref_of (chan_ (ep s)) 3 + Z.of_nat (count (holds 3) (thrs s)) /\ conn_refcount 3 (ep s) = 2).
Proof.
  apply lonely_intro; [vm_compute; exact I |]. intros l s Hl E. split.
  - apply (client_references_exact demo_fill l s Hl).
  - assert (H : lonely (fun _ s => conn_refcount 3 (ep s) = 2)) by (vm_compute; reflexivity). unfold lonely in H. by rewrite E in H.
Defined.


Lemma timeout_in_time_witness :
  lonely (fun l s => match do_call (DoEnd 0) s with
    | Done (_, s') => match thrs s' !! 0%nat with
        | Some x => match th_pc x with
            | Returned ret u => ret = timeout_failure /\ ns (th_begin x) + th_to x * ms <= ns (time s)
            | _ => False
            end
        | None => False
        end
    | Fault _ => False
    end).
Proof.
  assert (H : lonely (fun l s => forallb (fun w => match w with Pdu _ _ => false | _ => true end) l = true /\
    (match thrs s !! 0%nat with Some _ => True | None => False end) /\
    match do_call (DoEnd 0) s with
    | Done (w, s') => w = Own 0%nat /\ match thrs s' !! 0%nat with
        | Some x => match th_pc x with Returned ret u => ret = timeout_failure | _ => False end
        | None => False
        end
    | Fault _ => False
    end)) by (vm_compute; repeat split).
  apply lonely_intro; [vm_compute; exact I |]. intros l s Hl E. unfold lonely in H. rewrite E in H.
  destruct H as (Hn & Hx0 & H).
  destruct (do_call (DoEnd 0) s) as [[w s']|] eqn:Es; [| destruct H]. destruct H as [-> H].
  destruct (thrs s' !! 0%nat) as [x|] eqn:Ex; [| destruct H]. destruct (th_pc x) as [| | | |ret u] eqn:Ep; [destruct H | destruct H | destruct H | destruct H |].
  subst ret.
  destruct (timeout_in_time demo_fill l s s' 0 x timeout_failure u Hl (do_call_step (DoEnd 0) s _ s' Es) Ex Ep) as [HA|[HA|[HA|HA]]].
  - (* no reply arrived *)
    destruct HA as [(b & sz & rep & h & Hin & _) _]. exfalso.
    apply list_elem_of_In, (proj1 (forallb_forall _ _) Hn) in Hin. discriminate Hin.
  - destruct HA as [HA _]. discriminate HA.
  - exact HA.
  - destruct HA as [HA _]. rewrite HA in Hx0. destruct Hx0.
Defined.

(** A limit that is not a whole number of seconds can give a final deadline
    of exactly 10^9 nanoseconds past a second, which the wait rejects. *)
Lemma final_deadline_rejected :
  deadline (Timespec 10 500000000) 500 = Done (Timespec 10 1000000000) /\ ~ deadline_valid (Timespec 10 1000000000).
Proof. split; [reflexivity |]. unfold deadline_valid. cbn. lia. Qed.
