(* ===== verification/PollMgr.v ===== *)
(** * The poll manager (src/rpc/pollmgr.cc, src/rpc/pollmgr.h)

    One thread waits for file descriptors to become ready and runs their
    callbacks.  Which descriptors it waits for is kept by an [aio_mgr], of
    which there are two: SelectAIO (used) and EPollAIO.  The class [AioMgr]
    has the operations of the abstract class, [AioSpec] what they promise in
    terms of two sets of descriptors; both implementations are shown to keep
    the promise, so that they answer alike (but for EPollAIO's is_watched).

    The loop of the poll thread and block_remove_fd of other threads are a
    transition system.  A removal that was woken up by the poll thread is final;
    one that was woken up spuriously need not be. *)

From Stdlib Require Import Sorting.Sorted.
From S2P Require Import Prelude.
#[local] Set Warnings "-clear-no-such-hyp".

(** enum poll_flag *)
Definition CB_NONE : Z := 0x0.
Definition CB_RDONLY : Z := 0x1.
Definition CB_WRONLY : Z := 0x10.
Definition CB_RDWR : Z := 0x11.
Definition CB_MASK : Z := Z.lnot 0x11.

Definition MAX_POLL_FDS : Z := 128.

(** class aio_mgr *)
Class AioMgr (M : Type) := {
  watch_fd : Z -> Z -> M -> outcome M;
  unwatch_fd : Z -> Z -> M -> outcome (M * bool);
  is_watched : Z -> Z -> M -> outcome bool
}.

(** ** SelectAIO *)

(** [piped] counts the bytes in the pipe that wakes select up. *)
Record select_aio := SelectAIO {
  rfds_ : gset Z; wfds_ : gset Z; highfds_ : Z; pipefd_ : Z * Z; piped : nat
}.

(** FD_SETSIZE: the macros on fd_set write outside of the set beyond it. *)
Definition FD_SETSIZE : Z := 1024.
Definition fd_check (fd : Z) : outcome unit :=
  if (0 <=? fd) && (fd <? FD_SETSIZE) then Done tt else Fault OutOfBounds.

(** The constructor, with the descriptors that pipe returns. *)
Definition select_new (p : Z * Z) : select_aio := SelectAIO {[fst p]} ∅ (fst p) p 0.

Definition select_watch_fd (fd flag : Z) (s : select_aio) : outcome select_aio :=
  let high := if highfds_ s <=? fd then fd else highfds_ s in
  _ ← fd_check fd;
  let '(r, w) :=
    if flag =? CB_RDONLY then ({[fd]} ∪ rfds_ s, wfds_ s)
    else if flag =? CB_WRONLY then (rfds_ s, {[fd]} ∪ wfds_ s)
    else ({[fd]} ∪ rfds_ s, {[fd]} ∪ wfds_ s) in
  mret (SelectAIO r w high (pipefd_ s) (S (piped s))).

Definition select_is_watched (fd flag : Z) (s : select_aio) : outcome bool :=
  _ ← fd_check fd;
  mret (if flag =? CB_RDONLY then bool_decide (fd ∈ rfds_ s)
        else if flag =? CB_WRONLY then bool_decide (fd ∈ wfds_ s)
        else bool_decide (fd ∈ rfds_ s) && bool_decide (fd ∈ wfds_ s)).

(** The loop that looks for the highest descriptor left. *)
Definition new_high (r w : gset Z) (p0 high : Z) : Z :=
  fold_left (fun newh i => if decide (i ∈ r) then i else if decide (i ∈ w) then i else newh)
            (seqZ 0 (high + 1)) p0.

Definition select_unwatch_fd (fd flag : Z) (s : select_aio) : outcome (select_aio * bool) :=
  _ ← fd_check fd;
  rw ← (if flag =? CB_RDONLY then mret (rfds_ s ∖ {[fd]}, wfds_ s)
        else if flag =? CB_WRONLY then mret (rfds_ s, wfds_ s ∖ {[fd]})
        else if flag =? CB_RDWR then mret (rfds_ s ∖ {[fd]}, wfds_ s ∖ {[fd]})
        else Fault AssertFailed);
  let '(r, w) := (rw : gset Z * gset Z) in
  let gone := negb (bool_decide (fd ∈ r)) && negb (bool_decide (fd ∈ w)) in
  let high := if gone && (fd =? highfds_ s) then new_high r w (fst (pipefd_ s)) (highfds_ s) else highfds_ s in
  mret (SelectAIO r w high (pipefd_ s) (if flag =? CB_RDWR then S (piped s) else piped s), gone).

(** What wait_ready copies under the mutex before it calls select. *)
Record snapshot := Snapshot { trfds : gset Z; twfds : gset Z; high : Z }.
Definition select_snapshot (s : select_aio) : snapshot := Snapshot (rfds_ s) (wfds_ s) (highfds_ s).

(** What select returns: the ready part of the sets, or an error. *)
Inductive selected := Ready (r w : gset Z) | SelErr (eintr : bool).

(** The loop over the descriptors: [n] of them are left, [fd] is next.  A
    byte is read from the pipe when it is ready. *)
Fixpoint ready_loop (n : nat) (fd : Z) (p0 : Z) (r w : gset Z) (bytes : nat) (acc : list Z * list Z)
    : outcome (nat * (list Z * list Z)) :=
  match n with
  | O => Done (bytes, acc)
  | S n =>
      if (fd =? p0) && bool_decide (fd ∈ r) then
        _ ← verify (negb (bytes =? 0)%nat);
        ready_loop n (fd + 1) p0 r w (bytes - 1) acc
      else
        let wr := if decide (fd ∈ w) then snd acc ++ [fd] else snd acc in
        let rd := if decide (fd ∈ r) then fst acc ++ [fd] else fst acc in
        ready_loop n (fd + 1) p0 r w bytes (rd, wr)
  end.

(** The rest of wait_ready: the readable and the writable descriptors. *)
Definition select_wait_ready (sn : snapshot) (res : selected) (s : select_aio)
    : outcome (select_aio * (list Z * list Z)) :=
  match res with
  | SelErr eintr => _ ← verify eintr; mret (s, ([], []))
  | Ready r w =>
      x ← ready_loop (Z.to_nat (high sn + 1)) 0 (fst (pipefd_ s)) r w (piped s) ([], []);
      mret (SelectAIO (rfds_ s) (wfds_ s) (highfds_ s) (pipefd_ s) (fst x), snd x)
  end.

#[export] Instance SelectAIO_mgr : AioMgr select_aio := {|
  watch_fd := select_watch_fd; unwatch_fd := select_unwatch_fd; is_watched := select_is_watched |}.

(** ** EPollAIO *)

(** The kernel's interest list of the epoll descriptor. *)
Record epoll_aio := EPollAIO { fdstatus_ : gmap Z Z; interest : gmap Z Z }.

Definition EPOLLIN : Z := 0x1.
Definition EPOLLOUT : Z := 0x4.
Definition EPOLLET : Z := 2 ^ 31.

Inductive epoll_op := EPOLL_CTL_ADD | EPOLL_CTL_MOD | EPOLL_CTL_DEL.
#[export] Instance epoll_op_eq_dec : EqDecision epoll_op.
Proof. solve_decision. Defined.

(** epoll_ctl(2); [None] is a return value other than 0. *)
Definition epoll_ctl (op : epoll_op) (fd ev : Z) (k : gmap Z Z) : option (gmap Z Z) :=
  match op, k !! fd with
  | EPOLL_CTL_ADD, None => Some (<[fd := ev]> k)
  | EPOLL_CTL_MOD, Some _ => Some (<[fd := ev]> k)
  | EPOLL_CTL_DEL, Some _ => Some (delete fd k)
  | _, _ => None
  end.

Definition epoll_new : epoll_aio := EPollAIO ∅ ∅.

Definition fdstatus (fd : Z) (s : epoll_aio) : Z := default 0 (fdstatus_ s !! fd).

(** The VERIFY, and that [fd] is a valid index. *)
Definition poll_fd_check (fd : Z) : outcome unit :=
  _ ← verify (fd <? MAX_POLL_FDS);
  if 0 <=? fd then Done tt else Fault OutOfBounds.

Definition events_of (st : Z) : Z :=
  let ev := EPOLLET in
  let ev := if Z.land st CB_RDONLY =? 0 then ev else Z.lor ev EPOLLIN in
  if Z.land st CB_WRONLY =? 0 then ev else Z.lor ev EPOLLOUT.

Definition poll_flag_to_event (flag : Z) : Z :=
  if flag =? CB_RDONLY then EPOLLIN
  else if flag =? CB_WRONLY then EPOLLOUT
  else Z.lor EPOLLIN EPOLLOUT.

Definition epoll_watch_fd (fd flag : Z) (s : epoll_aio) : outcome epoll_aio :=
  _ ← poll_fd_check fd;
  let op := if fdstatus fd s =? 0 then EPOLL_CTL_ADD else EPOLL_CTL_MOD in
  let st := Z.lor (fdstatus fd s) flag in
  let ev := events_of st in
  _ ← verify (negb (flag =? CB_RDWR) || (ev =? Z.lor EPOLLET (Z.lor EPOLLIN EPOLLOUT)));
  match epoll_ctl op fd ev (interest s) with
  | Some k => mret (EPollAIO (<[fd := st]> (fdstatus_ s)) k)
  | None => Fault AssertFailed
  end.

Definition epoll_unwatch_fd (fd flag : Z) (s : epoll_aio) : outcome (epoll_aio * bool) :=
  _ ← poll_fd_check fd;
  let st := Z.land (fdstatus fd s) (Z.lnot flag) in
  let op := if st =? 0 then EPOLL_CTL_DEL else EPOLL_CTL_MOD in
  _ ← verify (negb (flag =? CB_RDWR) || bool_decide (op = EPOLL_CTL_DEL));
  match epoll_ctl op fd (events_of st) (interest s) with
  | Some k => mret (EPollAIO (<[fd := st]> (fdstatus_ s)) k, bool_decide (op = EPOLL_CTL_DEL))
  | None => Fault AssertFailed
  end.

Definition epoll_is_watched (fd flag : Z) (s : epoll_aio) : outcome bool :=
  _ ← poll_fd_check fd;
  mret (Z.land (fdstatus fd s) CB_MASK =? flag).

(** wait_ready, given what epoll_wait stored: descriptors with their events. *)
Definition epoll_wait_ready (ready : list (Z * Z)) : list Z * list Z :=
  fold_left (fun acc e =>
    (if Z.land (snd e) EPOLLIN =? 0 then fst acc else fst acc ++ [fst e],
     if Z.land (snd e) EPOLLOUT =? 0 then snd acc else snd acc ++ [fst e])) ready ([], []).

#[export] Instance EPollAIO_mgr : AioMgr epoll_aio := {|
  watch_fd := epoll_watch_fd; unwatch_fd := epoll_unwatch_fd; is_watched := epoll_is_watched |}.

(** ** PollMgr *)

(** Callbacks are named by numbers. *)
Record poll_mgr (M : Type) := PollMgr_ { callbacks_ : gmap Z Z; aio_ : M; pending_change_ : bool }.
Arguments PollMgr_ {M}. Arguments callbacks_ {M}. Arguments aio_ {M}. Arguments pending_change_ {M}.

Section manager.
Context {M : Type} `{AioMgr M}.
Abbreviation pm := (poll_mgr M).

Definition poll_mgr_new (a : M) : pm := PollMgr_ ∅ a false.

Definition add_callback (fd flag ch : Z) (p : pm) : outcome pm :=
  _ ← verify (fd <? MAX_POLL_FDS);
  a ← watch_fd fd flag (aio_ p);
  _ ← (if 0 <=? fd then Done tt else Fault OutOfBounds);
  _ ← verify (match callbacks_ p !! fd with None => true | Some ch' => ch' =? ch end);
  mret (PollMgr_ (<[fd := ch]> (callbacks_ p)) a (pending_change_ p)).

Definition del_callback (fd flag : Z) (p : pm) : outcome pm :=
  r ← unwatch_fd fd flag (aio_ p);
  mret (PollMgr_ (if (snd r : bool) then delete fd (callbacks_ p) else callbacks_ p) (fst r) (pending_change_ p)).

Definition has_callback (fd flag ch : Z) (p : pm) : outcome bool :=
  match callbacks_ p !! fd with
  | None => mret false
  | Some ch' => if negb (ch' =? ch) then mret false else is_watched fd flag (aio_ p)
  end.

(** block_remove_fd up to its wait, and the rest. *)
Definition block_remove_begin (fd : Z) (p : pm) : outcome pm :=
  r ← unwatch_fd fd CB_RDWR (aio_ p);
  mret (PollMgr_ (callbacks_ p) (fst r) true).

Definition block_remove_end (fd : Z) (p : pm) : pm :=
  PollMgr_ (delete fd (callbacks_ p)) (aio_ p) (pending_change_ p).

(** The top of wait_loop; whether the removers are woken up. *)
Definition loop_top (p : pm) : pm * bool :=
  if pending_change_ p then (PollMgr_ (callbacks_ p) (aio_ p) false, true) else (p, false).

End manager.

(** ** What the managers promise *)

Definition wants_read (flag : Z) : bool := (flag =? CB_RDONLY) || (flag =? CB_RDWR).
Definition wants_write (flag : Z) : bool := (flag =? CB_WRONLY) || (flag =? CB_RDWR).
Definition flag_ok (flag : Z) : Prop := flag = CB_RDONLY \/ flag = CB_WRONLY \/ flag = CB_RDWR.

(** [aio_fd] are the descriptors that may be watched, [reads_fd] and
    [writes_fd] those that are watched for reading and writing. *)
Class AioSpec (M : Type) `{AioMgr M} := {
  aio_ok : M -> Prop;
  aio_fd : M -> Z -> Prop;
  reads_fd : M -> Z -> bool;
  writes_fd : M -> Z -> bool;
  watch_spec s fd flag :
    aio_ok s -> aio_fd s fd -> flag_ok flag ->
    exists s', watch_fd fd flag s = Done s' /\ aio_ok s' /\ (forall x, aio_fd s x -> aio_fd s' x) /\
      (forall x, reads_fd s' x = ((x =? fd) && wants_read flag) || reads_fd s x) /\
      (forall x, writes_fd s' x = ((x =? fd) && wants_write flag) || writes_fd s x);
  unwatch_spec s fd flag :
    aio_ok s -> aio_fd s fd -> flag_ok flag -> reads_fd s fd || writes_fd s fd = true ->
    exists s', unwatch_fd fd flag s = Done (s', negb (reads_fd s' fd) && negb (writes_fd s' fd)) /\
      aio_ok s' /\ (forall x, aio_fd s x -> aio_fd s' x) /\
      (forall x, reads_fd s' x = negb ((x =? fd) && wants_read flag) && reads_fd s x) /\
      (forall x, writes_fd s' x = negb ((x =? fd) && wants_write flag) && writes_fd s x)
}.

(** *** SelectAIO keeps it *)

(** [highfds_] is the largest descriptor watched; the pipe always is. *)
Definition select_ok (s : select_aio) : Prop :=
  fst (pipefd_ s) ∈ rfds_ s /\ highfds_ s ∈ rfds_ s ∪ wfds_ s /\
  forall fd, fd ∈ rfds_ s ∪ wfds_ s -> 0 <= fd <= highfds_ s.

Definition select_fd (s : select_aio) (fd : Z) : Prop := 0 <= fd < FD_SETSIZE /\ fd <> fst (pipefd_ s).

Definition select_reads (s : select_aio) (fd : Z) : bool := bool_decide (fd ∈ rfds_ s /\ fd <> fst (pipefd_ s)).
Definition select_writes (s : select_aio) (fd : Z) : bool := bool_decide (fd ∈ wfds_ s).

Lemma new_high_spec r w p0 n :
  let x := new_high r w p0 (Z.of_nat n - 1) in
  (x = p0 /\ forall fd, 0 <= fd < Z.of_nat n -> fd ∉ r ∪ w) \/
  (x ∈ r ∪ w /\ 0 <= x < Z.of_nat n /\ forall fd, 0 <= fd < Z.of_nat n -> fd ∈ r ∪ w -> fd <= x).
Proof.
  unfold new_high. replace (Z.of_nat n - 1 + 1) with (Z.of_nat n) by lia. induction n as [|n IH].
  { left. split; [done | lia]. }
  rewrite seqZ_S, fold_left_app, Z.add_0_l. cbn [fold_left]. set (y := fold_left _ (seqZ 0 (Z.of_nat n)) p0) in *.
  assert (Hcase : Z.of_nat n ∈ r ∪ w \/ Z.of_nat n ∉ r ∪ w) by (destruct (decide (Z.of_nat n ∈ r ∪ w)); auto).
  destruct Hcase as [Hin|Hout].
  - right. replace (if decide (Z.of_nat n ∈ r) then Z.of_nat n else if decide (Z.of_nat n ∈ w) then Z.of_nat n else y)
      with (Z.of_nat n) by (repeat case_decide; set_solver). split_and!; [done | lia | lia | lia].
  - rewrite !decide_False by set_solver. destruct IH as [[-> H]|(H1 & H2 & H3)].
    + left. split; [done |]. intros fd Hfd. destruct (decide (fd = Z.of_nat n)) as [->|]; [done | apply H; lia].
    + right. split_and!; [done | lia | lia |]. intros fd Hfd Hin. apply H3; [| done].
      assert (fd <> Z.of_nat n) by (intros ->; done). lia.
Qed.

(** The highest descriptor that is left, when the pipe is. *)
Lemma new_high_max r w p0 h :
  p0 ∈ r -> (forall fd, fd ∈ r ∪ w -> 0 <= fd <= h) ->
  new_high r w p0 h ∈ r ∪ w /\ forall fd, fd ∈ r ∪ w -> 0 <= fd <= new_high r w p0 h.
Proof.
  intros Hp Hb. pose proof (Hb p0 ltac:(set_solver)) as Hp0.
  pose proof (new_high_spec r w p0 (Z.to_nat (h + 1))) as H. cbn zeta in H.
  replace (Z.of_nat (Z.to_nat (h + 1)) - 1) with h in H by lia.
  destruct H as [[_ H]|(H1 & H2 & H3)].
  - exfalso. apply (H p0); [lia | set_solver].
  - split; [done |]. intros fd Hfd. pose proof (Hb fd Hfd). split; [lia |]. apply H3; [lia | done].
Qed.

Lemma fd_check_done fd : 0 <= fd < FD_SETSIZE -> fd_check fd = Done tt.
Proof. intros. unfold fd_check. destruct (Z.leb_spec 0 fd), (Z.ltb_spec fd FD_SETSIZE); done || lia. Qed.

(** The sets after an operation on [fd] with the given flag. *)
Ltac set_bool :=
  unfold select_reads, select_writes; cbn [rfds_ wfds_ pipefd_];
  let x := fresh "x" in intros x;
  repeat match goal with |- context [?a =? ?b] => destruct (Z.eqb_spec a b) end; cbn [andb orb negb];
  subst; rewrite ?andb_true_l, ?orb_false_l;
  first [ apply bool_decide_ext; set_solver
        | apply bool_decide_eq_true; set_solver
        | apply bool_decide_eq_false; set_solver ].

Lemma select_watch_spec s fd flag :
  select_ok s -> select_fd s fd -> flag_ok flag ->
  exists s', select_watch_fd fd flag s = Done s' /\ select_ok s' /\ (forall x, select_fd s x -> select_fd s' x) /\
    (forall x, select_reads s' x = ((x =? fd) && wants_read flag) || select_reads s x) /\
    (forall x, select_writes s' x = ((x =? fd) && wants_write flag) || select_writes s x).
Proof.
  intros (Hp & Hh & Hb) [Hfd Hne] Hf. unfold select_watch_fd. rewrite fd_check_done, bind_Done by done.
  assert (Hhigh : forall r w, rfds_ s ⊆ r -> wfds_ s ⊆ w -> fd ∈ r ∪ w -> r ∪ w ⊆ {[fd]} ∪ (rfds_ s ∪ wfds_ s) ->
    select_ok (SelectAIO r w (if highfds_ s <=? fd then fd else highfds_ s) (pipefd_ s) (S (piped s)))).
  { intros r w Hr Hw Hin Hsub. split_and!; cbn [rfds_ wfds_ highfds_ pipefd_]; [set_solver | |].
    - destruct (Z.leb_spec (highfds_ s) fd); set_solver.
    - intros x Hx%Hsub. rewrite elem_of_union, elem_of_singleton in Hx.
      destruct Hx as [->|Hx%Hb]; destruct (Z.leb_spec (highfds_ s) fd); lia. }
  destruct Hf as [->|[->| ->]]; cbn [Z.eqb CB_RDONLY CB_WRONLY CB_RDWR Pos.eqb];
    (eexists; split_and!; [reflexivity | apply Hhigh; set_solver | done | |]; unfold wants_read, wants_write; cbn; set_bool).
Qed.

Lemma select_unwatch_spec s fd flag :
  select_ok s -> select_fd s fd -> flag_ok flag ->
  exists s', select_unwatch_fd fd flag s = Done (s', negb (select_reads s' fd) && negb (select_writes s' fd)) /\
    select_ok s' /\ (forall x, select_fd s x -> select_fd s' x) /\
    (forall x, select_reads s' x = negb ((x =? fd) && wants_read flag) && select_reads s x) /\
    (forall x, select_writes s' x = negb ((x =? fd) && wants_write flag) && select_writes s x).
Proof.
  intros (Hp & Hh & Hb) [Hfd Hne] Hf. unfold select_unwatch_fd. rewrite fd_check_done, bind_Done by done.
  assert (Hok : forall r w n, fst (pipefd_ s) ∈ r -> r ∪ w ⊆ rfds_ s ∪ wfds_ s ->
    (forall x, x ∈ rfds_ s ∪ wfds_ s -> x <> fd -> x ∈ r ∪ w) ->
    select_ok (SelectAIO r w (if negb (bool_decide (fd ∈ r)) && negb (bool_decide (fd ∈ w)) && (fd =? highfds_ s)
                              then new_high r w (fst (pipefd_ s)) (highfds_ s) else highfds_ s) (pipefd_ s) n)).
  { intros r w n Hpr Hsub Hkeep. assert (Hb' : forall x, x ∈ r ∪ w -> 0 <= x <= highfds_ s) by (intros x Hx; by apply Hb, Hsub).
    destruct (new_high_max r w (fst (pipefd_ s)) (highfds_ s) Hpr Hb') as [Hm1 Hm2].
    destruct (negb (bool_decide (fd ∈ r)) && negb (bool_decide (fd ∈ w)) && (fd =? highfds_ s)) eqn:E; [done |].
    split_and!; cbn [rfds_ wfds_ highfds_ pipefd_]; [done | | done].
    destruct (decide (highfds_ s = fd)) as [He|]; [| by apply Hkeep]. rewrite He in E |- *.
    rewrite Z.eqb_refl, andb_true_r in E. apply elem_of_union.
    destruct (bool_decide_reflect (fd ∈ r)); [by left |]. destruct (bool_decide_reflect (fd ∈ w)); [by right | done]. }
  assert (Hgone : forall r w n h, negb (bool_decide (fd ∈ r)) && negb (bool_decide (fd ∈ w)) =
    negb (select_reads (SelectAIO r w h (pipefd_ s) n) fd) && negb (select_writes (SelectAIO r w h (pipefd_ s) n) fd)).
  { intros r w n h. unfold select_reads, select_writes. cbn [rfds_ wfds_ pipefd_]. f_equal. f_equal.
    apply bool_decide_ext. tauto. }
  destruct Hf as [->|[->| ->]]; cbn [Z.eqb CB_RDONLY CB_WRONLY CB_RDWR Pos.eqb]; rewrite bind_Done;
    (eexists; split_and!; [by rewrite <- Hgone | apply Hok; set_solver | done | |]; unfold wants_read, wants_write; cbn; set_bool).
Qed.

#[export] Instance SelectAIO_spec : AioSpec select_aio := {|
  aio_ok := select_ok; aio_fd := select_fd; reads_fd := select_reads; writes_fd := select_writes;
  watch_spec := select_watch_spec;
  unwatch_spec s fd flag H1 H2 H3 _ := select_unwatch_spec s fd flag H1 H2 H3 |}.

Lemma select_new_ok p : 0 <= fst p -> select_ok (select_new p).
Proof. intros Hp. split_and!; cbn; set_solver by lia. Qed.

(** *** EPollAIO keeps it *)

Definition status_ok (st : Z) : Prop := st = CB_NONE \/ flag_ok st.

(** The kernel's list is what [fdstatus_] says. *)
Definition epoll_ok (s : epoll_aio) : Prop :=
  forall fd, status_ok (fdstatus fd s) /\
    interest s !! fd = if fdstatus fd s =? 0 then None else Some (events_of (fdstatus fd s)).

Definition epoll_fd (s : epoll_aio) (fd : Z) : Prop := 0 <= fd < MAX_POLL_FDS.
Definition epoll_reads (s : epoll_aio) (fd : Z) : bool := negb (Z.land (fdstatus fd s) CB_RDONLY =? 0).
Definition epoll_writes (s : epoll_aio) (fd : Z) : bool := negb (Z.land (fdstatus fd s) CB_WRONLY =? 0).

Lemma poll_fd_check_done fd : 0 <= fd < MAX_POLL_FDS -> poll_fd_check fd = Done tt.
Proof. intros. unfold poll_fd_check. destruct (Z.ltb_spec fd MAX_POLL_FDS), (Z.leb_spec 0 fd); done || lia. Qed.

Lemma fdstatus_insert fd st m k x :
  fdstatus x (EPollAIO (<[fd := st]> m) k) = if decide (x = fd) then st else default 0 (m !! x).
Proof.
  unfold fdstatus. cbn [fdstatus_]. rewrite lookup_insert. destruct (decide (fd = x)) as [->|]; [by rewrite decide_True |].
  by rewrite decide_False by congruence.
Qed.



Lemma epoll_ok_insert s fd st k :
  epoll_ok s -> status_ok st -> (forall x, x <> fd -> k !! x = interest s !! x) ->
  k !! fd = (if st =? 0 then None else Some (events_of st)) -> epoll_ok (EPollAIO (<[fd := st]> (fdstatus_ s)) k).
Proof.
  intros Hok Hst Hk Hfd x. rewrite fdstatus_insert. cbn [interest]. case_decide as He; [by subst x |].
  rewrite Hk by done. apply Hok.
Qed.

(** What becomes of the bits of one descriptor. *)
Lemma epoll_bits s fd st k b :
  (forall c, c = CB_RDONLY \/ c = CB_WRONLY -> negb (Z.land st c =? 0) = b c (negb (Z.land (fdstatus fd s) c =? 0))) ->
  forall x, let s' := EPollAIO (<[fd := st]> (fdstatus_ s)) k in
    epoll_reads s' x = (if x =? fd then b CB_RDONLY (epoll_reads s x) else epoll_reads s x) /\
    epoll_writes s' x = (if x =? fd then b CB_WRONLY (epoll_writes s x) else epoll_writes s x).
Proof.
  intros Hb x s'. unfold s', epoll_reads, epoll_writes. rewrite fdstatus_insert.
  destruct (Z.eqb_spec x fd) as [->|Hne]; [rewrite decide_True by done | rewrite decide_False by done; done].
  rewrite !Hb by tauto. done.
Qed.

Lemma epoll_watch_spec s fd flag :
  epoll_ok s -> epoll_fd s fd -> flag_ok flag ->
  exists s', epoll_watch_fd fd flag s = Done s' /\ epoll_ok s' /\ (forall x, epoll_fd s x -> epoll_fd s' x) /\
    (forall x, epoll_reads s' x = ((x =? fd) && wants_read flag) || epoll_reads s x) /\
    (forall x, epoll_writes s' x = ((x =? fd) && wants_write flag) || epoll_writes s x).
Proof.
  intros Hok Hfd Hf. destruct (Hok fd) as [Hst Hint]. unfold epoll_watch_fd.
  rewrite poll_fd_check_done, bind_Done by done. set (st := Z.lor (fdstatus fd s) flag).
  assert (Hst' : status_ok st /\ st <> 0 /\ (flag = CB_RDWR -> events_of st = Z.lor EPOLLET (Z.lor EPOLLIN EPOLLOUT)) /\
    negb (Z.land st CB_RDONLY =? 0) = wants_read flag || negb (Z.land (fdstatus fd s) CB_RDONLY =? 0) /\
    negb (Z.land st CB_WRONLY =? 0) = wants_write flag || negb (Z.land (fdstatus fd s) CB_WRONLY =? 0)).
  { unfold st, status_ok, flag_ok. destruct Hst as [->|[->|[->| ->]]], Hf as [->|[->| ->]]; vm_compute; intuition discriminate. }
  destruct Hst' as (H1 & H2 & H3 & H4 & H5).
  replace (negb (flag =? CB_RDWR) || (events_of st =? Z.lor EPOLLET (Z.lor EPOLLIN EPOLLOUT))) with true.
  2:{ destruct (Z.eqb_spec flag CB_RDWR) as [He|]; [rewrite (H3 He), Z.eqb_refl |]; done. }
  cbn [verify]. rewrite bind_Done.
  assert (Hctl : epoll_ctl (if fdstatus fd s =? 0 then EPOLL_CTL_ADD else EPOLL_CTL_MOD) fd (events_of st) (interest s) =
    Some (<[fd := events_of st]> (interest s))).
  { unfold epoll_ctl. rewrite Hint. by destruct (fdstatus fd s =? 0). }
  rewrite Hctl. eexists. split; [reflexivity |].
  pose proof (epoll_bits s fd st (<[fd := events_of st]> (interest s))
    (fun c o => (if c =? CB_RDONLY then wants_read flag else wants_write flag) || o)) as Hbits.
  split_and!; [| done | |].
  - apply epoll_ok_insert; [done | done | |]; [intros x Hx; by rewrite lookup_insert_ne |].
    rewrite lookup_insert_eq. by destruct (Z.eqb_spec st 0).
  - intros x. destruct (Hbits ltac:(by intros c [->| ->]) x) as [-> _]. by destruct (x =? fd).
  - intros x. destruct (Hbits ltac:(by intros c [->| ->]) x) as [_ ->]. by destruct (x =? fd).
Qed.

Lemma epoll_unwatch_spec s fd flag :
  epoll_ok s -> epoll_fd s fd -> flag_ok flag -> epoll_reads s fd || epoll_writes s fd = true ->
  exists s', epoll_unwatch_fd fd flag s = Done (s', negb (epoll_reads s' fd) && negb (epoll_writes s' fd)) /\
    epoll_ok s' /\ (forall x, epoll_fd s x -> epoll_fd s' x) /\
    (forall x, epoll_reads s' x = negb ((x =? fd) && wants_read flag) && epoll_reads s x) /\
    (forall x, epoll_writes s' x = negb ((x =? fd) && wants_write flag) && epoll_writes s x).
Proof.
  intros Hok Hfd Hf Hw. destruct (Hok fd) as [Hst Hint]. unfold epoll_unwatch_fd.
  rewrite poll_fd_check_done, bind_Done by done. set (st := Z.land (fdstatus fd s) (Z.lnot flag)).
  assert (Hst' : status_ok st /\ fdstatus fd s <> 0 /\ (flag = CB_RDWR -> st = 0) /\
    (st =? 0) = (Z.land st CB_RDONLY =? 0) && (Z.land st CB_WRONLY =? 0) /\
    negb (Z.land st CB_RDONLY =? 0) = negb (wants_read flag) && negb (Z.land (fdstatus fd s) CB_RDONLY =? 0) /\
    negb (Z.land st CB_WRONLY =? 0) = negb (wants_write flag) && negb (Z.land (fdstatus fd s) CB_WRONLY =? 0)).
  { unfold st, epoll_reads, epoll_writes in *. unfold status_ok, flag_ok.
    destruct Hst as [Hs|[Hs|[Hs|Hs]]]; rewrite Hs in *; [done | ..]; destruct Hf as [->|[->| ->]]; vm_compute; intuition discriminate. }
  destruct Hst' as (H1 & H2 & H3 & H4 & H5 & H6).
  replace (negb (flag =? CB_RDWR) || bool_decide ((if st =? 0 then EPOLL_CTL_DEL else EPOLL_CTL_MOD) = EPOLL_CTL_DEL)) with true.
  2:{ destruct (Z.eqb_spec flag CB_RDWR) as [He|]; [rewrite (H3 He) |]; done. }
  cbn [verify]. rewrite bind_Done.
  set (k := if st =? 0 then delete fd (interest s) else <[fd := events_of st]> (interest s)).
  assert (Hctl : epoll_ctl (if st =? 0 then EPOLL_CTL_DEL else EPOLL_CTL_MOD) fd (events_of st) (interest s) = Some k).
  { unfold epoll_ctl, k. rewrite Hint. destruct (Z.eqb_spec (fdstatus fd s) 0); [done |]. by destruct (st =? 0). }
  rewrite Hctl. eexists. split.
  - do 2 f_equal. unfold epoll_reads, epoll_writes. rewrite !fdstatus_insert, !decide_True by done.
    rewrite !negb_involutive, <- H4. by destruct (st =? 0).
  - pose proof (epoll_bits s fd st k (fun c o => negb (if c =? CB_RDONLY then wants_read flag else wants_write flag) && o)) as Hbits.
    split_and!; [| done | |].
    + apply epoll_ok_insert; [done | done | |]; unfold k.
      * intros x Hx. destruct (st =? 0); [by rewrite lookup_delete_ne | by rewrite lookup_insert_ne].
      * destruct (st =? 0); [by rewrite lookup_delete_eq | by rewrite lookup_insert_eq].
    + intros x. destruct (Hbits ltac:(by intros c [->| ->]) x) as [-> _]. by destruct (x =? fd).
    + intros x. destruct (Hbits ltac:(by intros c [->| ->]) x) as [_ ->]. by destruct (x =? fd).
Qed.

#[export] Instance EPollAIO_spec : AioSpec epoll_aio := {|
  aio_ok := epoll_ok; aio_fd := epoll_fd; reads_fd := epoll_reads; writes_fd := epoll_writes;
  watch_spec := epoll_watch_spec; unwatch_spec := epoll_unwatch_spec |}.

Lemma epoll_new_ok : epoll_ok epoll_new.
Proof. intros fd. unfold fdstatus. cbn. rewrite !lookup_empty. split; [by left | done]. Qed.

(** *** The same answers *)

Inductive aio_op := Watch (fd flag : Z) | Unwatch (fd flag : Z).

(** The descriptors watched for reading and for writing. *)
Definition watches : Type := Z -> bool * bool.

Definition watches_op (o : aio_op) (w : watches) : watches :=
  match o with
  | Watch fd flag => fun x => (((x =? fd) && wants_read flag) || fst (w x), ((x =? fd) && wants_write flag) || snd (w x))
  | Unwatch fd flag =>
      fun x => (negb ((x =? fd) && wants_read flag) && fst (w x), negb ((x =? fd) && wants_write flag) && snd (w x))
  end.

(** Descriptors are in range and only watched ones are given up. *)
Fixpoint legal (ok : Z -> Prop) (l : list aio_op) (w : watches) : Prop :=
  match l with
  | [] => True
  | o :: l =>
      match o with
      | Watch fd flag => ok fd /\ flag_ok flag
      | Unwatch fd flag => ok fd /\ flag_ok flag /\ fst (w fd) || snd (w fd) = true
      end /\ legal ok l (watches_op o w)
  end.

(** The answers a set of watches gives. *)
Fixpoint answers (l : list aio_op) (w : watches) : list bool :=
  match l with
  | [] => []
  | o :: l =>
      let w' := watches_op o w in
      match o with
      | Watch _ _ => answers l w'
      | Unwatch fd _ => negb (fst (w' fd)) && negb (snd (w' fd)) :: answers l w'
      end
  end.

Fixpoint run_aio `{AioMgr M} (l : list aio_op) (s : M) : outcome (M * list bool) :=
  match l with
  | [] => Done (s, [])
  | Watch fd flag :: l => s ← watch_fd fd flag s; run_aio l s
  | Unwatch fd flag :: l =>
      r ← unwatch_fd fd flag s;
      q ← run_aio l (fst r);
      mret (fst q, snd r :: snd q)
  end.

Lemma legal_ext ok (w w' : watches) l : (forall x, w x = w' x) -> legal ok l w -> legal ok l w'.
Proof.
  revert w w'. induction l as [|o l IH]; intros w w' Hw; [done |]. cbn [legal]. intros [Ho Hl]. split.
  - destruct o; [done |]. by rewrite <- Hw.
  - apply (IH (watches_op o w)); [| done]. intros x. by destruct o; cbn; rewrite Hw.
Qed.

Lemma answers_ext (w w' : watches) l : (forall x, w x = w' x) -> answers l w = answers l w'.
Proof.
  revert w w'. induction l as [|o l IH]; intros w w' Hw; [done |]. cbn [answers].
  assert (Hw' : forall x, watches_op o w x = watches_op o w' x) by (intros x; destruct o; cbn; by rewrite Hw).
  destruct o; [by apply IH |]. rewrite Hw'. f_equal. by apply IH.
Qed.

Lemma watches_fold_ext l (w w' : watches) :
  (forall x, w x = w' x) ->
  forall x, fold_left (fun w o => watches_op o w) l w x = fold_left (fun w o => watches_op o w) l w' x.
Proof.
  revert w w'. induction l as [|o l IH]; intros w w' Hw x; [done |]. apply IH. intros y. by destruct o; cbn; rewrite Hw.
Qed.

Section lawful.
Context {M : Type} `{AioSpec M}.

Definition watching (s : M) : watches := fun x => (reads_fd s x, writes_fd s x).

(** A manager that keeps its promise answers like the set of watches. *)
Lemma run_aio_spec l (ok : Z -> Prop) s :
  aio_ok s -> (forall x, ok x -> aio_fd s x) -> legal ok l (watching s) ->
  exists s', run_aio l s = Done (s', answers l (watching s)) /\ aio_ok s' /\
    forall x, watching s' x = fold_left (fun w o => watches_op o w) l (watching s) x.
Proof.
  revert s. induction l as [|o l IH]; intros s Hok Hfd Hl; [by exists s |]. destruct Hl as [Ho Hl].
  destruct o as [fd flag|fd flag]; cbn [run_aio answers fold_left].
  - destruct Ho as [Hx Hf]. destruct (watch_spec s fd flag Hok (Hfd _ Hx) Hf) as (s1 & -> & Hok1 & Hfd1 & Hr & Hw).
    rewrite bind_Done. assert (Hext : forall x, watches_op (Watch fd flag) (watching s) x = watching s1 x).
    { intros x. unfold watching. cbn. by rewrite Hr, Hw. }
    destruct (IH s1 Hok1) as (s2 & H1 & H2 & H3); [auto | by apply (legal_ext _ _ _ _ Hext) |].
    exists s2. split_and!; [by rewrite (answers_ext _ _ _ Hext) | done |]. intros x. rewrite H3. symmetry. by apply watches_fold_ext.
  - destruct Ho as (Hx & Hf & Hwd). destruct (unwatch_spec s fd flag Hok (Hfd _ Hx) Hf Hwd) as (s1 & -> & Hok1 & Hfd1 & Hr & Hw).
    rewrite bind_Done. cbn [fst snd]. assert (Hext : forall x, watches_op (Unwatch fd flag) (watching s) x = watching s1 x).
    { intros x. unfold watching. cbn. by rewrite Hr, Hw. }
    destruct (IH s1 Hok1) as (s2 & H1 & H2 & H3); [auto | by apply (legal_ext _ _ _ _ Hext) |].
    exists s2. rewrite H1, bind_Done. split_and!; [| done |].
    + cbn [fst snd]. rewrite (answers_ext _ _ _ Hext). by rewrite Hext.
    + intros x. rewrite H3. symmetry. by apply watches_fold_ext.
Qed.

End lawful.

(** SelectAIO's is_watched says what is watched. *)
Lemma select_is_watched_spec s fd flag p0 :
  fst (pipefd_ s) = p0 -> 0 <= fd < FD_SETSIZE -> fd <> p0 -> flag_ok flag ->
  select_is_watched fd flag s = Done ((negb (wants_read flag) || select_reads s fd) && (negb (wants_write flag) || select_writes s fd)).
Proof.
  intros Hp Hfd Hne Hf. unfold select_is_watched. rewrite fd_check_done, bind_Done by done.
  assert (Hr : select_reads s fd = bool_decide (fd ∈ rfds_ s)) by (apply bool_decide_ext; rewrite Hp; tauto).
  rewrite Hr. unfold select_writes. destruct Hf as [->|[->| ->]]; cbn; by rewrite ?andb_true_r.
Qed.

(** The pipe stays. *)
Lemma run_aio_pipe l (s s' : select_aio) ans : run_aio l s = Done (s', ans) -> pipefd_ s' = pipefd_ s.
Proof.
  revert s ans. induction l as [|[fd flag|fd flag] l IH]; intros s ans H; cbn [run_aio] in H; [by injection H as <- _ | |].
  - apply bind_Done_inv in H as (s1 & Hs & H). apply IH in H as ->. cbn in Hs. unfold select_watch_fd in Hs.
    apply bind_Done_inv in Hs as (u & _ & Hs). destruct (flag =? CB_RDONLY); [| destruct (flag =? CB_WRONLY)]; by injection Hs as <-.
  - apply bind_Done_inv in H as ([s1 b] & Hs & H). apply bind_Done_inv in H as ([s2 ans2] & Hr & H). injection H as <- _.
    apply IH in Hr. cbn [fst] in *. rewrite Hr. cbn in Hs. unfold select_unwatch_fd in Hs.
    apply bind_Done_inv in Hs as (u & _ & Hs). apply bind_Done_inv in Hs as ([r w] & _ & Hs). by injection Hs as <- _.
Qed.

(** EPollAIO's is_watched does not say what is watched: it masks the two bits
    away before it compares. *)
Lemma epoll_is_watched_false s fd flag :
  epoll_ok s -> 0 <= fd < MAX_POLL_FDS -> flag_ok flag -> epoll_is_watched fd flag s = Done false.
Proof.
  intros Hok Hfd Hf. unfold epoll_is_watched. rewrite poll_fd_check_done, bind_Done by done.
  destruct (Hok fd) as [Hst _]. f_equal. destruct Hst as [->|[->|[->| ->]]], Hf as [->|[->| ->]]; reflexivity.
Qed.

(** C23: the two implementations of aio_mgr agree on watch_fd and unwatch_fd:
    on any sequence of registrations and removals of descriptors in the range of
    both, in which only watched descriptors are removed, neither of them
    aborts, both report the same descriptors as gone, and both end up watching
    the same descriptors for reading and for writing.  They do not agree on
    is_watched, which changes nothing: after any such sequence SelectAIO says
    what is watched, and EPollAIO says of every descriptor that it is not. *)
Theorem aio_implementations_agree l p :
  0 <= fst p -> legal (fun fd => 0 <= fd < MAX_POLL_FDS /\ fd <> fst p) l (fun _ => (false, false)) ->
  exists s e ans, run_aio l (select_new p) = Done (s, ans) /\ run_aio l epoll_new = Done (e, ans) /\
    (forall fd, select_reads s fd = epoll_reads e fd /\ select_writes s fd = epoll_writes e fd) /\
    (forall fd flag, 0 <= fd < MAX_POLL_FDS -> fd <> fst p -> flag_ok flag ->
      is_watched fd flag s = Done ((negb (wants_read flag) || select_reads s fd) && (negb (wants_write flag) || select_writes s fd)) /\
      is_watched fd flag e = Done false).
Proof.
  intros Hp Hl.
  assert (Hs : forall x, (false, false) = watching (select_new p) x).
  { intros x. unfold watching. cbn. unfold select_reads, select_writes. cbn. f_equal; symmetry; apply bool_decide_eq_false; set_solver. }
  assert (He : forall x, (false, false) = watching epoll_new x).
  { intros x. unfold watching. cbn. unfold epoll_reads, epoll_writes, fdstatus. cbn. by rewrite lookup_empty. }
  destruct (run_aio_spec l (fun fd => 0 <= fd < MAX_POLL_FDS /\ fd <> fst p) (select_new p)) as (s & Hs1 & _ & Hs2);
    [by apply select_new_ok | | by apply (legal_ext _ _ _ _ Hs) |].
  { intros x [Hx Hne]. split; [| done]. unfold MAX_POLL_FDS, FD_SETSIZE in *. lia. }
  destruct (run_aio_spec l (fun fd => 0 <= fd < MAX_POLL_FDS /\ fd <> fst p) epoll_new) as (e & He1 & Heok & He2);
    [apply epoll_new_ok | by intros x [Hx _] | by apply (legal_ext _ _ _ _ He) |].
  exists s, e, (answers l (fun _ => (false, false))). rewrite Hs1, He1.
  rewrite <- (answers_ext _ _ l Hs), <- (answers_ext _ _ l He). split_and!; [done | done | |].
  2:{ intros fd flag Hfd Hne Hf. split; [| by apply epoll_is_watched_false].
      apply (select_is_watched_spec _ _ _ (fst p)); [| unfold MAX_POLL_FDS, FD_SETSIZE in *; lia | done | done].
      by rewrite (run_aio_pipe l (select_new p) s _ Hs1). }
  intros fd. specialize (Hs2 fd). specialize (He2 fd). cut (watching s fd = watching e fd); [by intros [= H1 H2] |].
  rewrite Hs2, He2.
  rewrite <- (watches_fold_ext l (fun _ => (false, false)) (watching (select_new p)) Hs fd).
  by rewrite <- (watches_fold_ext l (fun _ => (false, false)) (watching epoll_new) He fd).
Qed.

Lemma aio_implementations_agree_witness :
  exists s e, run_aio [Watch 5 CB_RDONLY; Watch 9 CB_RDWR; Watch 5 CB_WRONLY; Unwatch 9 CB_RDONLY; Unwatch 5 CB_RDWR]
      (select_new (3, 4)) = Done (s, [false; true]) /\
    run_aio [Watch 5 CB_RDONLY; Watch 9 CB_RDWR; Watch 5 CB_WRONLY; Unwatch 9 CB_RDONLY; Unwatch 5 CB_RDWR]
      epoll_new = Done (e, [false; true]) /\ select_writes s 9 = epoll_writes e 9 /\ highfds_ s = 9.
Proof.
  destruct (aio_implementations_agree [Watch 5 CB_RDONLY; Watch 9 CB_RDWR; Watch 5 CB_WRONLY; Unwatch 9 CB_RDONLY; Unwatch 5 CB_RDWR]
    (3, 4)) as (s & e & ans & Hs & He & Hw).
  - cbn. lia.
  - unfold MAX_POLL_FDS. cbn. unfold flag_ok. split_and!; first [done | lia | tauto].
  - exists s, e. assert (Ha : ans = [false; true] /\ highfds_ s = 9).
    { apply (f_equal (fun o => match o with Done (s, ans) => (ans, highfds_ s) | Fault _ => ([], 0) end)) in Hs.
      vm_compute in Hs. injection Hs as Ha Hh. split; [exact (eq_sym Ha) | exact (eq_sym Hh)]. }
    destruct Ha as [-> Hh]. split_and!; [exact Hs | exact He | apply Hw | exact Hh].
Defined.

(** A watched descriptor is not reported. *)
Lemma epoll_is_watched_wrong :
  epoll_is_watched 5 CB_RDONLY (EPollAIO {[5 := CB_RDONLY]} {[5 := events_of CB_RDONLY]}) = Done false.
Proof.
  apply epoll_is_watched_false; [| cbv; split; [discriminate | reflexivity] | left; reflexivity].
  intros fd. unfold fdstatus. cbn [fdstatus_ interest]. destruct (decide (fd = 5)) as [->|Hne].
  - split; [right; left; reflexivity | reflexivity].
  - rewrite !lookup_singleton_ne by congruence. split; [left; reflexivity | reflexivity].
Qed.

(** ** What wait_ready reports *)

Lemma ready_loop_spec n fd p0 r w bytes rd wr :
  p0 ∉ w -> (p0 ∈ r -> fd <= p0 -> (0 < bytes)%nat) ->
  exists bytes', ready_loop n fd p0 r w bytes (rd, wr) =
    Done (bytes', (rd ++ filter (fun x => x ∈ r /\ x <> p0) (seqZ fd (Z.of_nat n)),
                   wr ++ filter (fun x => x ∈ w) (seqZ fd (Z.of_nat n)))).
Proof.
  intros Hw. revert fd bytes rd wr. induction n as [|n IH]; intros fd bytes rd wr Hb.
  { exists bytes. cbn. by rewrite !app_nil_r. }
  cbn [ready_loop]. rewrite (seqZ_cons fd) by lia. replace (Z.pred (Z.of_nat (S n))) with (Z.of_nat n) by lia.
  replace (Z.succ fd) with (fd + 1) by lia. rewrite !filter_cons. cbn [fst snd].
  destruct (Z.eqb_spec fd p0) as [->|Hne]; cbn [andb].
  - rewrite (decide_False (P := p0 ∈ r /\ p0 <> p0)) by tauto. rewrite !(decide_False (P := p0 ∈ w)) by done.
    destruct (bool_decide_reflect (p0 ∈ r)) as [Hr|Hr].
    + specialize (Hb Hr ltac:(lia)). destruct (Nat.eqb_spec bytes 0); [lia |]. cbn [negb verify]. rewrite bind_Done.
      apply IH. lia.
    + rewrite decide_False by done. apply IH. lia.
  - destruct (decide (fd ∈ r)) as [Hr|Hr], (decide (fd ∈ w)) as [Hw'|Hw'];
      rewrite ?(decide_True (P := fd ∈ r /\ fd <> p0)) by done; rewrite ?(decide_False (P := fd ∈ r /\ fd <> p0)) by tauto;
      (edestruct (IH (fd + 1) bytes) as (b & ->); [intros ? ?; apply Hb; [done | lia] |]);
      exists b; by rewrite <- ?app_assoc.
Qed.

(** Wait_ready reports exactly the watched descriptors that select found
    ready, each once, in increasing order, and keeps the wake-up pipe to
    itself: the bound [highfds_] never hides one. *)
Theorem wait_ready_exact s r w :
  select_ok s -> fst (pipefd_ s) ∉ wfds_ s ->
  r ⊆ rfds_ s -> w ⊆ wfds_ s -> (fst (pipefd_ s) ∈ r -> (0 < piped s)%nat) ->
  exists s' rd wr, select_wait_ready (select_snapshot s) (Ready r w) s = Done (s', (rd, wr)) /\
    (forall fd, fd ∈ rd <-> fd ∈ r /\ fd <> fst (pipefd_ s)) /\ (forall fd, fd ∈ wr <-> fd ∈ w) /\
    NoDup rd /\ NoDup wr /\ StronglySorted Z.lt rd /\ StronglySorted Z.lt wr /\
    rfds_ s' = rfds_ s /\ wfds_ s' = wfds_ s.
Proof.
  intros (Hp & Hh & Hb) Hpw Hr Hw Hbytes. unfold select_wait_ready. cbn [select_snapshot high].
  destruct (ready_loop_spec (Z.to_nat (highfds_ s + 1)) 0 (fst (pipefd_ s)) r w (piped s) [] []) as (b & ->);
    [set_solver | auto |]. rewrite bind_Done. cbn [fst snd app].
  assert (Hrange : forall fd, fd ∈ rfds_ s ∪ wfds_ s -> fd ∈ seqZ 0 (Z.of_nat (Z.to_nat (highfds_ s + 1)))).
  { intros fd Hfd%Hb. apply elem_of_seqZ. lia. }
  assert (Hsort : forall (P : Z -> Prop) `{forall x, Decision (P x)} n m, StronglySorted Z.lt (filter P (seqZ m (Z.of_nat n)))).
  { intros P HP n. induction n as [|n IH]; intros m; [constructor |]. rewrite (seqZ_cons m) by lia.
    replace (Z.pred (Z.of_nat (S n))) with (Z.of_nat n) by lia. rewrite filter_cons. case_decide; [| apply IH].
    constructor; [apply IH |]. apply Forall_forall. intros x [_ Hx]%list_elem_of_filter. apply elem_of_seqZ in Hx. lia. }
  eexists _, _, _. split_and!; [reflexivity | | | apply NoDup_filter, NoDup_seqZ .. | apply Hsort | apply Hsort | done | done].
  - intros fd. rewrite list_elem_of_filter. split; [tauto |]. intros [Hin Hne]. split; [done | apply Hrange; set_solver].
  - intros fd. rewrite list_elem_of_filter. split; [tauto |]. intros Hin. split; [done | apply Hrange; set_solver].
Qed.

Lemma wait_ready_exact_witness :
  exists s' rd wr, select_wait_ready (select_snapshot (SelectAIO {[3; 9; 5]} {[9]} 9 (3, 4) 2)) (Ready {[3; 9]} {[9]})
      (SelectAIO {[3; 9; 5]} {[9]} 9 (3, 4) 2) = Done (s', (rd, wr)) /\ 9 ∈ rd /\ rd = [9].
Proof.
  destruct (wait_ready_exact (SelectAIO {[3; 9; 5]} {[9]} 9 (3, 4) 2) {[3; 9]} {[9]})
    as (s' & rd & wr & Heq & Hrd & _).
  - split_and!; cbn [rfds_ wfds_ highfds_ pipefd_ fst]; [set_solver | set_solver |]. intros fd Hfd.
    rewrite !elem_of_union, !elem_of_singleton in Hfd. lia.
  - cbn. set_solver.
  - cbn. set_solver.
  - cbn. set_solver.
  - cbn. lia.
  - exists s', rd, wr. split; [exact Heq |]. split; [apply Hrd; cbn; split; [set_solver | lia] |].
    apply (f_equal (fun o => match o with Done (_, (rd, _)) => rd | Fault _ => [] end)) in Heq.
    vm_compute in Heq. symmetry. exact Heq.
Defined.

(** ** Removing a descriptor

    The poll thread runs wait_loop; other threads add and remove callbacks.  A
    remover waits until the poll thread has passed the top of its loop.  It
    waits once and does not check why it was woken up, so that a wake-up without
    a broadcast, which POSIX allows, lets it return early; [retired] are the
    descriptors whose removal returned after a broadcast.  Descriptors are not
    registered again before their removal has returned (they are closed after
    it). *)

Inductive poll_pc :=
| Top                                      (* the start of an iteration *)
| Clear                                    (* about to call wait_ready *)
| Selecting (sn : snapshot)                (* inside select *)
| Dispatching (todo : list Z)              (* running callbacks *)
| InCallback (fd : Z) (todo : list Z).

Record poll_state := PollState {
  mgr : poll_mgr select_aio; at_ : poll_pc;
  removers : gmap nat (Z * bool);          (* descriptor, woken up *)
  retired : gset Z                         (* removed after a broadcast and not added since *)
}.

Definition wake_all (m : gmap nat (Z * bool)) : gmap nat (Z * bool) := (fun r => (fst r, true)) <$> m.

Inductive poll_step : poll_state -> poll_state -> Prop :=
| ps_top p rm re :
    poll_step (PollState p Top rm re)
      (PollState (fst (loop_top p)) Clear (if snd (loop_top p) then wake_all rm else rm) re)
| ps_snapshot p rm re :
    poll_step (PollState p Clear rm re) (PollState p (Selecting (select_snapshot (aio_ p))) rm re)
| ps_ready res sn p a rd wr rm re :
    match res with Ready r w => r ⊆ trfds sn /\ w ⊆ twfds sn | SelErr _ => True end ->
    select_wait_ready sn res (aio_ p) = Done (a, (rd, wr)) ->
    poll_step (PollState p (Selecting sn) rm re)
      (PollState (PollMgr_ (callbacks_ p) a (pending_change_ p)) (Dispatching (rd ++ wr)) rm re)
| ps_call fd ch todo p rm re :
    callbacks_ p !! fd = Some ch ->
    poll_step (PollState p (Dispatching (fd :: todo)) rm re) (PollState p (InCallback fd todo) rm re)
| ps_skip fd todo p rm re :
    callbacks_ p !! fd = None ->
    poll_step (PollState p (Dispatching (fd :: todo)) rm re) (PollState p (Dispatching todo) rm re)
| ps_return fd todo p rm re :
    poll_step (PollState p (InCallback fd todo) rm re) (PollState p (Dispatching todo) rm re)
| ps_again p rm re : poll_step (PollState p (Dispatching []) rm re) (PollState p Top rm re)
| ps_add fd flag ch p p' c rm re :
    (forall t b, rm !! t <> Some (fd, b)) -> add_callback fd flag ch p = Done p' ->
    poll_step (PollState p c rm re) (PollState p' c rm (re ∖ {[fd]}))
| ps_del fd flag p p' c rm re :
    del_callback fd flag p = Done p' -> poll_step (PollState p c rm re) (PollState p' c rm re)
| ps_remove t fd p p' c rm re :
    rm !! t = None -> block_remove_begin fd p = Done p' ->
    poll_step (PollState p c rm re) (PollState p' c (<[t := (fd, false)]> rm) re)
| ps_removed t fd p c rm re :
    rm !! t = Some (fd, true) ->
    poll_step (PollState p c rm re) (PollState (block_remove_end fd p) c (delete t rm) ({[fd]} ∪ re))
(* a spurious wake-up *)
| ps_spurious t fd p c rm re :
    rm !! t = Some (fd, false) ->
    poll_step (PollState p c rm re) (PollState (block_remove_end fd p) c (delete t rm) re).

Inductive poll_reach : poll_state -> Prop :=
| pr_start pipe : poll_reach (PollState (poll_mgr_new (select_new pipe)) Top ∅ ∅)
| pr_step s s' : poll_reach s -> poll_step s s' -> poll_reach s'.

Definition watched (p : poll_mgr select_aio) : gset Z := rfds_ (aio_ p) ∪ wfds_ (aio_ p).

(** The descriptors the poll thread still has in hand. *)
Definition in_hand (c : poll_pc) (fd : Z) : Prop :=
  match c with
  | Top | Clear => False
  | Selecting sn => fd ∈ trfds sn ∪ twfds sn
  | Dispatching todo => fd ∈ todo
  | InCallback x todo => fd = x \/ fd ∈ todo
  end.

Definition poll_inv (s : poll_state) : Prop :=
  (forall t fd b, removers s !! t = Some (fd, b) -> fd ∉ watched (mgr s)) /\
  (forall fd, fd ∈ retired s -> fd ∉ watched (mgr s)) /\
  (forall fd, (fd ∈ retired s \/ exists t, removers s !! t = Some (fd, true)) -> ~ in_hand (at_ s) fd).

Lemma unwatch_shrinks fd flag a a' b :
  select_unwatch_fd fd flag a = Done (a', b) ->
  rfds_ a' ⊆ rfds_ a /\ wfds_ a' ⊆ wfds_ a /\ (flag = CB_RDWR -> fd ∉ rfds_ a' ∪ wfds_ a').
Proof.
  unfold select_unwatch_fd. intros H. apply bind_Done_inv in H as (u & _ & H).
  apply bind_Done_inv in H as ([r w] & Hrw & H). injection H as <- _. cbn [rfds_ wfds_].
  destruct (flag =? CB_RDONLY) eqn:E1; [| destruct (flag =? CB_WRONLY) eqn:E2; [| destruct (flag =? CB_RDWR); [| done]]];
    injection Hrw as <- <-; (split_and!; [set_solver | set_solver | intros ->; try done; set_solver]).
Qed.

Lemma watch_adds fd flag a a' :
  select_watch_fd fd flag a = Done a' -> rfds_ a' ∪ wfds_ a' ⊆ {[fd]} ∪ (rfds_ a ∪ wfds_ a).
Proof.
  unfold select_watch_fd. intros H. apply bind_Done_inv in H as (u & _ & H).
  destruct (flag =? CB_RDONLY); [| destruct (flag =? CB_WRONLY)]; injection H as <-; cbn [rfds_ wfds_]; set_solver.
Qed.

Lemma ready_loop_in n fd p0 r w bytes acc b rd wr :
  ready_loop n fd p0 r w bytes acc = Done (b, (rd, wr)) ->
  (forall x, x ∈ rd -> x ∈ fst acc \/ x ∈ r) /\ (forall x, x ∈ wr -> x ∈ snd acc \/ x ∈ w).
Proof.
  revert fd bytes acc. induction n as [|n IH]; intros fd bytes acc H; cbn [ready_loop] in H.
  { injection H as _ ->. cbn. auto. }
  destruct (_ && _).
  - apply bind_Done_inv in H as (u & _ & H). by apply IH in H.
  - apply IH in H as [H1 H2]. cbn [fst snd] in H1, H2. split; intros x Hx.
    + destruct (H1 x Hx) as [Hin|]; [| by right]. case_decide; [| by left].
      apply elem_of_app in Hin as [|Hin]; [by left |]. apply list_elem_of_singleton in Hin as ->. by right.
    + destruct (H2 x Hx) as [Hin|]; [| by right]. case_decide; [| by left].
      apply elem_of_app in Hin as [|Hin]; [by left |]. apply list_elem_of_singleton in Hin as ->. by right.
Qed.

Lemma wait_ready_keeps sn res a a' rd wr :
  select_wait_ready sn res a = Done (a', (rd, wr)) ->
  match res with Ready r w => r ⊆ trfds sn /\ w ⊆ twfds sn | SelErr _ => True end ->
  rfds_ a' = rfds_ a /\ wfds_ a' = wfds_ a /\ forall fd, fd ∈ rd ++ wr -> fd ∈ trfds sn ∪ twfds sn.
Proof.
  intros H Hres. destruct res as [r w|e]; cbn [select_wait_ready] in H.
  - apply bind_Done_inv in H as ([b [rd' wr']] & Hl & H). injection H as <- <- <-. split_and!; [done | done |].
    intros fd [Hfd|Hfd]%elem_of_app; apply ready_loop_in in Hl as [H1 H2].
    + destruct (H1 fd Hfd) as [Hn|Hr]; [by apply not_elem_of_nil in Hn | set_solver].
    + destruct (H2 fd Hfd) as [Hn|Hr]; [by apply not_elem_of_nil in Hn | set_solver].
  - apply bind_Done_inv in H as (u & _ & H). injection H as <- <- <-. split_and!; [done | done |].
    intros fd Hfd. by apply not_elem_of_nil in Hfd.
Qed.

(** A step that watches nothing new and leaves the poll thread with no more. *)
Lemma poll_inv_shrink p p' c c' rm rm' re :
  poll_inv (PollState p c rm re) -> watched p' ⊆ watched p -> (forall fd, in_hand c' fd -> in_hand c fd) ->
  (forall t fd b, rm' !! t = Some (fd, b) -> (b = false /\ fd ∉ watched p') \/ rm !! t = Some (fd, b)) ->
  poll_inv (PollState p' c' rm' re).
Proof.
  intros (H1 & H2 & H3) Hw Hc Hrm. split_and!; cbn [mgr at_ removers retired] in *.
  - intros t fd b Ht. destruct (Hrm t fd b Ht) as [[_ ?]|Ht']; [done |]. specialize (H1 t fd b Ht'). set_solver.
  - intros fd Hfd. specialize (H2 fd Hfd). set_solver.
  - intros fd Hfd Hin%Hc. apply (H3 fd); [| done]. destruct Hfd as [|[t Ht]]; [by left |].
    destruct (Hrm t fd true Ht) as [[? _]|Ht']; [done |]. right. by exists t.
Qed.

Lemma poll_step_inv s s' : poll_inv s -> poll_step s s' -> poll_inv s'.
Proof.
  intros Hi H. destruct H as [p rm re|p rm re|res sn p a rd wr rm re Hres Hw|fd ch todo p rm re _|fd todo p rm re _
    |fd todo p rm re|p rm re|fd flag ch p p' c rm re Hno Ha|fd flag p p' c rm re Hd|t fd p p' c rm re Ht Hb|t fd p c rm re Ht|t fd p c rm re Ht].
  - destruct Hi as (H1 & H2 & H3). unfold loop_top. destruct (pending_change_ p); cbn [fst snd]; [| by split_and!].
    split_and!; cbn [mgr at_ removers retired] in *; [| done | by intros fd _ []]. intros t fd b Ht.
    unfold wake_all in Ht. rewrite lookup_fmap in Ht. apply fmap_Some in Ht as ([fd' b'] & Ht & [= -> ->]). by apply (H1 t fd' b').
  - destruct Hi as (H1 & H2 & H3). split_and!; cbn [mgr at_ removers retired in_hand select_snapshot trfds twfds] in *; [done | done |].
    intros fd [Hfd|[t Ht]]; [by apply H2 | by apply (H1 t fd true)].
  - destruct (wait_ready_keeps _ _ _ _ _ _ Hw Hres) as (E1 & E2 & Hin).
    apply (poll_inv_shrink p _ (Selecting sn) _ rm); [done | | exact Hin | auto].
    unfold watched. cbn [aio_]. by rewrite E1, E2.
  - apply (poll_inv_shrink p _ (Dispatching (fd :: todo)) _ rm); auto. cbn. set_solver.
  - apply (poll_inv_shrink p _ (Dispatching (fd :: todo)) _ rm); auto. cbn. set_solver.
  - apply (poll_inv_shrink p _ (InCallback fd todo) _ rm); auto. cbn. tauto.
  - apply (poll_inv_shrink p _ (Dispatching []) _ rm); auto. by cbn.
  - destruct Hi as (H1 & H2 & H3). unfold add_callback in Ha. apply bind_Done_inv in Ha as (u & _ & Ha).
    apply bind_Done_inv in Ha as (a & Hw & Ha). apply bind_Done_inv in Ha as (u1 & _ & Ha).
    apply bind_Done_inv in Ha as (u2 & _ & Ha). injection Ha as <-. apply watch_adds in Hw.
    split_and!; cbn [mgr at_ removers retired] in *; unfold watched in *; cbn [aio_] in *.
    + intros t x b Ht. specialize (H1 t x b Ht). assert (x <> fd) by (intros ->; by apply (Hno t b)). set_solver.
    + intros x Hx. specialize (H2 x ltac:(set_solver)). set_solver.
    + intros x Hx. apply H3. set_solver.
  - unfold del_callback in Hd. apply bind_Done_inv in Hd as ([a b] & Hu & Hd). injection Hd as <-.
    apply unwatch_shrinks in Hu as (E1 & E2 & _). apply (poll_inv_shrink p _ c _ rm); auto. unfold watched. cbn [aio_ fst]. set_solver.
  - unfold block_remove_begin in Hb. apply bind_Done_inv in Hb as ([a b] & Hu & Hb). injection Hb as <-.
    apply unwatch_shrinks in Hu as (E1 & E2 & E3). apply (poll_inv_shrink p _ c _ rm); auto.
    + unfold watched. cbn [aio_ fst]. set_solver.
    + intros t' x b' Ht'. rewrite lookup_insert in Ht'. case_decide; [| by right]. injection Ht' as <- <-. left.
      split; [done |]. unfold watched. cbn [aio_ fst]. by apply E3.
  - destruct Hi as (H1 & H2 & H3). split_and!; cbn [mgr at_ removers retired] in *.
    + intros t' x b Ht'. apply lookup_delete_Some in Ht' as [_ Ht']. by apply (H1 t' x b).
    + intros x [->%elem_of_singleton|Hx]%elem_of_union; [by apply (H1 t fd true) | by apply H2].
    + intros x [[->%elem_of_singleton|Hx]%elem_of_union|[t' Ht']]; apply H3; [right; by exists t | by left |].
      apply lookup_delete_Some in Ht' as [_ Ht']. right. by exists t'.
  - apply (poll_inv_shrink p _ c _ rm); [done | done | done |]. intros t' x b' Ht'. apply lookup_delete_Some in Ht' as [_ Ht']. by right.
Qed.

(** C22: once block_remove_fd has been woken up by the poll thread and has
    returned, the callback of its descriptor is not running and will not be
    called again until the descriptor is registered anew, whatever the poll
    thread and other threads do (other than registering the descriptor while it
    is being removed).  Nothing is claimed of a removal that returned from a
    spurious wake-up: see [spurious_removal]. *)
Theorem removal_is_final s fd : poll_reach s -> fd ∈ retired s -> forall todo, at_ s <> InCallback fd todo.
Proof.
  intros Hr Hfd todo Hat. assert (Hi : poll_inv s).
  { clear fd Hfd todo Hat. induction Hr as [pipe|s s' _ IH Hs]; [| by eapply poll_step_inv].
    split_and!; cbn; [intros t fd b; by rewrite lookup_empty | set_solver | tauto]. }
  destruct Hi as (_ & _ & H3). apply (H3 fd (or_introl Hfd)). rewrite Hat. by left.
Qed.

(** A descriptor is removed while select waits for it. *)
Definition demo_aio0 : select_aio := select_new (3, 4).
Definition demo_aio1 : select_aio := SelectAIO {[5; 3]} ∅ 5 (3, 4) 1.
Definition demo_aio2 : select_aio := SelectAIO ({[5; 3]} ∖ {[5]}) (∅ ∖ {[5]}) 3 (3, 4) 2.
Definition demo_aio3 : select_aio := SelectAIO ({[5; 3]} ∖ {[5]}) (∅ ∖ {[5]}) 3 (3, 4) 1.
Definition demo_cbs : gmap Z Z := <[5 := 70]> ∅.

Lemma removal_is_final_witness :
  exists s, poll_reach s /\ 5 ∈ retired s /\ forall todo, at_ s <> InCallback 5 todo.
Proof.
  set (s := PollState (block_remove_end 5 (PollMgr_ demo_cbs demo_aio3 false)) Clear (delete 1%nat (wake_all (<[1%nat := (5, false)]> ∅))) ({[5]} ∪ ∅ ∖ {[5]})).
  assert (Hr : poll_reach s); [| exists s; split; [exact Hr |]; split; [unfold s; cbn; set_solver |];
    apply (removal_is_final s 5 Hr); unfold s; cbn; set_solver].
  apply (pr_step (PollState (PollMgr_ demo_cbs demo_aio3 false) Clear (wake_all (<[1%nat := (5, false)]> ∅)) (∅ ∖ {[5]})));
    [| apply ps_removed; reflexivity].
  apply (pr_step (PollState (PollMgr_ demo_cbs demo_aio3 true) Top (<[1%nat := (5, false)]> ∅) (∅ ∖ {[5]})));
    [| apply (ps_top (PollMgr_ demo_cbs demo_aio3 true) (<[1%nat := (5, false)]> ∅))].
  apply (pr_step (PollState (PollMgr_ demo_cbs demo_aio3 true) (Dispatching []) (<[1%nat := (5, false)]> ∅) (∅ ∖ {[5]})));
    [| apply ps_again].
  apply (pr_step (PollState (PollMgr_ demo_cbs demo_aio2 true) (Selecting (select_snapshot demo_aio1)) (<[1%nat := (5, false)]> ∅) (∅ ∖ {[5]}))).
  2:{ apply (ps_ready (Ready {[3]} ∅) (select_snapshot demo_aio1) (PollMgr_ demo_cbs demo_aio2 true) demo_aio3 [] []);
      [cbn; split; set_solver | reflexivity]. }
  apply (pr_step (PollState (PollMgr_ demo_cbs demo_aio1 false) (Selecting (select_snapshot demo_aio1)) ∅ (∅ ∖ {[5]})));
    [| apply ps_remove; reflexivity].
  apply (pr_step (PollState (PollMgr_ demo_cbs demo_aio1 false) Clear ∅ (∅ ∖ {[5]})));
    [| apply (ps_snapshot (PollMgr_ demo_cbs demo_aio1 false))].
  apply (pr_step (PollState (PollMgr_ demo_cbs demo_aio1 false) Top ∅ (∅ ∖ {[5]})));
    [| apply (ps_top (PollMgr_ demo_cbs demo_aio1 false))].
  apply (pr_step (PollState (poll_mgr_new demo_aio0) Top ∅ ∅)); [apply (pr_start (3, 4)) |].
  apply (ps_add 5 CB_RDONLY 70 (poll_mgr_new demo_aio0)); [intros t b Ht; rewrite lookup_empty in Ht; discriminate Ht | reflexivity].
Defined.

(** The wait of block_remove_fd has no predicate: after a spurious wake-up it
    returns although the callback of its descriptor is running. *)
Theorem spurious_removal :
  exists s t fd todo, poll_reach s /\ at_ s = InCallback fd todo /\ removers s !! t = Some (fd, false) /\
    poll_step s (PollState (block_remove_end fd (mgr s)) (InCallback fd todo) (delete t (removers s)) (retired s)).
Proof.
  set (p1 := PollMgr_ demo_cbs demo_aio1 false).
  exists (PollState (PollMgr_ demo_cbs demo_aio2 true) (InCallback 5 []) (<[1%nat := (5, false)]> ∅) (∅ ∖ {[5]})), 1%nat, 5, [].
  split; [| split; [done | split; [done | by apply ps_spurious]]].
  apply (pr_step (PollState p1 (InCallback 5 []) ∅ (∅ ∖ {[5]}))); [| apply ps_remove; reflexivity].
  apply (pr_step (PollState p1 (Dispatching [5]) ∅ (∅ ∖ {[5]}))); [| by apply (ps_call 5 70)].
  apply (pr_step (PollState p1 (Selecting (select_snapshot demo_aio1)) ∅ (∅ ∖ {[5]}))).
  2:{ apply (ps_ready (Ready {[5]} ∅) (select_snapshot demo_aio1) p1 demo_aio1 [5] []); [cbn; split; set_solver | reflexivity]. }
  apply (pr_step (PollState p1 Clear ∅ (∅ ∖ {[5]}))); [| apply (ps_snapshot p1)].
  apply (pr_step (PollState p1 Top ∅ (∅ ∖ {[5]}))); [| apply (ps_top p1)].
  apply (pr_step (PollState (poll_mgr_new demo_aio0) Top ∅ ∅)); [apply (pr_start (3, 4)) |].
  apply (ps_add 5 CB_RDONLY 70 (poll_mgr_new demo_aio0)); [intros t b Ht; rewrite lookup_empty in Ht; discriminate Ht | reflexivity].
Qed.
