(* ===== verification/ThreadPool.v ===== *)
(** * The bounded queue and the thread pool (src/rpc/fifo.h, src/rpc/thr_pool.cc, thr_pool.h)

    [fifo] is a queue whose producers wait while it is full and whose
    consumers wait while it is empty.  The pool's workers take jobs from such
    a queue and run them; the destructor puts one empty job per worker into the
    queue, which makes the worker exit, and joins the workers.

    Workers, adding threads and the destructor are a transition system; each
    step is the part of a method that runs under the queue's mutex.  A signal
    wakes one waiting thread, and waiting threads may also wake up for no
    reason. *)

From S2P Require Import Prelude.

(** ** The queue *)

Record fifo (T : Type) := Fifo { q_ : list T; max_ : Z }.
Arguments Fifo {T}. Arguments q_ {T}. Arguments max_ {T}.

Section fifo.
Context {T : Type}.

Definition fifo_new (limit : Z) : fifo T := Fifo [] (u32 limit).

Definition fifo_size (f : fifo T) : bool := negb (Z.of_nat (length (q_ f)) =? 0).

(** enq under the mutex. *)
Inductive enq_result := Enqueued (f : fifo T) | EnqWaits | EnqRefused.

Definition enq (e : T) (blocking : bool) (f : fifo T) : enq_result :=
  if (max_ f =? 0) || (Z.of_nat (length (q_ f)) <? max_ f) then Enqueued (Fifo (q_ f ++ [e]) (max_ f))
  else if blocking then EnqWaits else EnqRefused.

(** deq under the mutex: the element and whether a producer is signalled, or
    nothing when it waits. *)
Definition deq (f : fifo T) : option (T * fifo T * bool) :=
  match q_ f with
  | [] => None
  | e :: q => Some (e, Fifo q (max_ f), negb (max_ f =? 0) && (Z.of_nat (length q) <? max_ f))
  end.

End fifo.
Arguments enq_result : clear implicits.

(** ** The pool *)

Section pool.
Context {J : Type}.

(** struct job_t; the poison pill has no function. *)
Definition job_t : Type := option J.

Record thr_pool := ThrPool { nthreads_ : Z; blockadd_ : bool; jobq_ : fifo job_t }.

Definition thr_pool_new (sz : Z) (blocking : bool) : thr_pool := ThrPool sz blocking (fifo_new (100 * sz)).

Definition with_jobq (f : fifo job_t) (p : thr_pool) : thr_pool := ThrPool (nthreads_ p) (blockadd_ p) f.

Definition addJob (j : J) (p : thr_pool) : enq_result job_t := enq (Some j) (blockadd_ p) (jobq_ p).

(** takeJob: the job (none for a worker that must exit) and the signal. *)
Definition takeJob (p : thr_pool) : option (job_t * thr_pool * bool) :=
  match deq (jobq_ p) with
  | Some (j, f, sig) => Some (j, with_jobq f p, sig)
  | None => None
  end.

(** ** Threads *)

(** A worker: at the top of do_worker's loop, waiting, woken up, back from
    takeJob with a job, running a job, gone. *)
Inductive worker := WTop | WSleep | WWoken | WTaken (j : J) | WRun (j : J) | WExit.

(** A producer waiting in enq, and whether it was woken up. *)
Record producer := Producer { p_job : job_t; p_woken : bool }.

Record pool_state := PoolState {
  pool : thr_pool; workers : gmap nat worker; producers : gmap nat producer;
  destroying : bool;          (* the destructor has begun *)
  pills : nat;                (* poison pills put into the queue *)
  added : list J;             (* jobs put into the queue *)
  taken : list J            (* jobs taken out *)
}.

(** Who may be woken by a signal: one sleeper, or nobody if there is none. *)
Definition signal_worker (m m' : gmap nat worker) : Prop :=
  (exists t, m !! t = Some WSleep /\ m' = <[t := WWoken]> m) \/ ((forall t, m !! t <> Some WSleep) /\ m' = m).

Definition signal_producer (m m' : gmap nat producer) : Prop :=
  (exists t j, m !! t = Some (Producer j false) /\ m' = <[t := Producer j true]> m) \/
  ((forall t j, m !! t <> Some (Producer j false)) /\ m' = m).

Definition note_added (j : job_t) (l : list J) : list J := match j with Some x => l ++ [x] | None => l end.
Definition note_pill (j : job_t) (n : nat) : nat := match j with Some _ => n | None => S n end.

(** Who may call enq with which job: anybody until the destructor begins, then
    the destructor with one pill per worker. *)
Definition may_enq (j : job_t) (s : pool_state) : Prop :=
  match j with
  | Some _ => destroying s = false
  | None => destroying s = true /\ producers s = ∅ /\ (pills s < Z.to_nat (nthreads_ (pool s)))%nat
  end.

(** Steps, with the job whose call they begin. *)
Inductive pool_step : option J -> pool_state -> pool_state -> Prop :=
(* addJob and the destructor's enq: there is room *)
| po_enq j f w' p w pr d n a st :
    may_enq j (PoolState p w pr d n a st) ->
    enq j (match j with Some _ => blockadd_ p | None => true end) (jobq_ p) = Enqueued f -> signal_worker w w' ->
    pool_step None (PoolState p w pr d n a st) (PoolState (with_jobq f p) w' pr d (note_pill j n) (note_added j a) st)
(* there is none *)
| po_enq_wait t j p w pr d n a st :
    may_enq j (PoolState p w pr d n a st) -> pr !! t = None ->
    enq j (match j with Some _ => blockadd_ p | None => true end) (jobq_ p) = EnqWaits ->
    pool_step None (PoolState p w pr d n a st) (PoolState p w (<[t := Producer j false]> pr) d n a st)
| po_enq_refused j p w pr d n a st :
    may_enq (Some j) (PoolState p w pr d n a st) -> addJob j p = EnqRefused ->
    pool_step None (PoolState p w pr d n a st) (PoolState p w pr d n a st)
(* a producer that was woken up tries again *)
| po_again t j f w' p w pr d n a st :
    pr !! t = Some (Producer j true) -> enq j true (jobq_ p) = Enqueued f -> signal_worker w w' ->
    pool_step None (PoolState p w pr d n a st)
      (PoolState (with_jobq f p) w' (delete t pr) d (note_pill j n) (note_added j a) st)
| po_again_wait t j p w pr d n a st :
    pr !! t = Some (Producer j true) -> enq j true (jobq_ p) = EnqWaits ->
    pool_step None (PoolState p w pr d n a st) (PoolState p w (<[t := Producer j false]> pr) d n a st)
(* a worker calls takeJob, or comes back from its wait *)
| po_take t x j p' sig pr' p w pr d n a st :
    w !! t = Some x -> (x = WTop \/ x = WWoken) -> takeJob p = Some (j, p', sig) ->
    (if (sig : bool) then signal_producer pr pr' else pr' = pr) ->
    pool_step None (PoolState p w pr d n a st)
      (PoolState p' (<[t := match j with Some y => WTaken y | None => WExit end]> w) pr' d n a (note_added j st))
| po_take_wait t x p w pr d n a st :
    w !! t = Some x -> (x = WTop \/ x = WWoken) -> takeJob p = None ->
    pool_step None (PoolState p w pr d n a st) (PoolState p (<[t := WSleep]> w) pr d n a st)
(* the worker calls the job *)
| po_call t y p w pr d n a st :
    w !! t = Some (WTaken y) -> pool_step (Some y) (PoolState p w pr d n a st) (PoolState p (<[t := WRun y]> w) pr d n a st)
(* the job returns *)
| po_ran t y p w pr d n a st :
    w !! t = Some (WRun y) -> pool_step None (PoolState p w pr d n a st) (PoolState p (<[t := WTop]> w) pr d n a st)
(* the destructor begins when no other thread uses the pool *)
| po_destroy p w n a st : pool_step None (PoolState p w ∅ false n a st) (PoolState p w ∅ true n a st)
(* spurious wake-ups *)
| po_spurious_worker t p w pr d n a st :
    w !! t = Some WSleep -> pool_step None (PoolState p w pr d n a st) (PoolState p (<[t := WWoken]> w) pr d n a st)
| po_spurious_producer t j p w pr d n a st :
    pr !! t = Some (Producer j false) ->
    pool_step None (PoolState p w pr d n a st) (PoolState p w (<[t := Producer j true]> pr) d n a st).

Definition workers_new (sz : nat) : gmap nat worker := list_to_map ((fun i => (i, WTop)) <$> seq 0 sz).

(** Runs, with the jobs called so far. *)
Inductive pool_reach : list J -> pool_state -> Prop :=
| po_start sz blocking :
    (0 < sz)%nat -> 100 * Z.of_nat sz < 2 ^ 32 ->
    pool_reach [] (PoolState (thr_pool_new (Z.of_nat sz) blocking) (workers_new sz) ∅ false 0 [] [])
| po_step oj l s s' : pool_reach l s -> pool_step oj s s' -> pool_reach (l ++ option_list oj) s'.

(** ** The invariant's counters *)

Definition exited (x : worker) : bool := match x with WExit => true | _ => false end.
Definition asleep (x : worker) : bool := match x with WSleep => true | _ => false end.
Definition woken (x : worker) : bool := match x with WWoken => true | _ => false end.

(** ** The invariant *)

(** The queue holds jobs and then pills; the jobs taken out and the jobs in it
    are those added, in order. *)
Definition queue_ok (s : pool_state) : Prop :=
  exists js k, q_ (jobq_ (pool s)) = (Some <$> js) ++ replicate k None /\ taken s ++ js = added s /\
    (k + count exited (workers s) = pills s)%nat /\ ((0 < pills s)%nat -> destroying s = true) /\
    ((0 < count exited (workers s))%nat -> js = []).

Definition producers_ok (s : pool_state) : Prop :=
  size (workers s) = Z.to_nat (nthreads_ (pool s)) /\
  if destroying s
  then (forall t pr, producers s !! t = Some pr -> p_job pr = None) /\
       (pills s + size (producers s) <= Z.to_nat (nthreads_ (pool s)))%nat
  else forall t pr, producers s !! t = Some pr -> p_job pr <> None.

(** Sleepers are only left behind when enough threads are on their way. *)
Definition wakeups_ok (s : pool_state) : Prop :=
  let q := jobq_ (pool s) in
  0 < max_ q /\ Z.of_nat (length (q_ q)) <= max_ q /\
  (count asleep (workers s) = 0%nat \/ (length (q_ q) <= count woken (workers s))%nat) /\
  (count (fun p => negb (p_woken p)) (producers s) = 0%nat \/
   max_ q - Z.of_nat (length (q_ q)) <= Z.of_nat (count p_woken (producers s))).

Definition pool_inv (s : pool_state) : Prop := queue_ok s /\ producers_ok s /\ wakeups_ok s.

Lemma signal_worker_counts w w' :
  signal_worker w w' ->
  count exited w' = count exited w /\ size w' = size w /\
  ((count asleep w = 0%nat /\ w' = w) \/
   ((count asleep w' + 1)%nat = count asleep w /\ count woken w' = (count woken w + 1)%nat)).
Proof.
  intros [(t & Ht & ->)|[Hno ->]].
  - pose proof (count_insert exited w t WWoken WSleep Ht) as H1. pose proof (count_insert asleep w t WWoken WSleep Ht) as H2.
    pose proof (count_insert woken w t WWoken WSleep Ht) as H3. cbn [exited asleep woken Nat.b2n] in *.
    split_and!; [lia | by apply map_size_insert_Some | right; lia].
  - split_and!; [done | done | left]. split; [| done]. apply count_zero. intros t y Ht.
    destruct y; try done. by destruct (Hno t).
Qed.

Lemma signal_producer_counts m m' :
  signal_producer m m' ->
  size m' = size m /\ (forall t x, m' !! t = Some x -> exists y, m !! t = Some y /\ p_job x = p_job y) /\
  let sl := count (fun p => negb (p_woken p)) in
  ((sl m = 0%nat /\ m' = m) \/ ((sl m' + 1)%nat = sl m /\ count p_woken m' = (count p_woken m + 1)%nat)).
Proof.
  intros [(t & j & Ht & ->)|[Hno ->]].
  - pose proof (count_insert (fun p => negb (p_woken p)) m t (Producer j true) _ Ht) as H1.
    pose proof (count_insert p_woken m t (Producer j true) _ Ht) as H2. cbn [p_woken negb Nat.b2n] in *.
    split_and!; [by apply map_size_insert_Some; eexists | | right; lia].
    intros t' x Hx. rewrite lookup_insert in Hx. case_decide; [subst t'; injection Hx as <-; by eexists | by exists x].
  - split_and!; [done | intros t x Hx; by exists x | left]. split; [| done]. apply count_zero. intros t [j b] Ht.
    destruct b; [done |]. by destruct (Hno t j).
Qed.

Lemma enq_room (j : job_t) b f f' :
  enq j b f = Enqueued f' -> f' = Fifo (q_ f ++ [j]) (max_ f) /\ (0 < max_ f -> Z.of_nat (length (q_ f)) < max_ f).
Proof.
  unfold enq. destruct (Z.eqb_spec (max_ f) 0), (Z.ltb_spec (Z.of_nat (length (q_ f))) (max_ f)); cbn [orb];
    try (destruct b; done); intros [= <-]; (split; [done | lia]).
Qed.

Lemma enq_full (j : job_t) b f : enq j b f = EnqWaits -> max_ f <= Z.of_nat (length (q_ f)).
Proof.
  unfold enq. destruct (Z.eqb_spec (max_ f) 0), (Z.ltb_spec (Z.of_nat (length (q_ f))) (max_ f)); cbn [orb]; done || lia.
Qed.

(** A job or a pill goes into the queue. *)
Lemma queue_ok_push j f w' pr' p w pr d n a st :
  queue_ok (PoolState p w pr d n a st) -> f = Fifo (q_ (jobq_ p) ++ [j]) (max_ (jobq_ p)) -> count exited w' = count exited w ->
  d = (match j with Some _ => false | None => true end) ->
  queue_ok (PoolState (with_jobq f p) w' pr' d (note_pill j n) (note_added j a) st).
Proof.
  intros (js & k & Hq & Hst & Hk & Hd & Hex) -> Hc Hj. cbn [pool workers pills added taken destroying] in *.
  destruct j as [x|]; cbn [note_pill note_added].
  - assert (n = 0%nat) by (destruct (decide (n = 0%nat)); [done | exfalso; rewrite Hd in Hj by lia; done]).
    assert (k = 0%nat) as -> by lia. exists (js ++ [x]), 0%nat. unfold queue_ok; cbn [pool workers pills added taken destroying jobq_ with_jobq q_].
    rewrite Hq, Hc, app_nil_r, fmap_app. cbn. split_and!; [by rewrite app_nil_r | by rewrite app_assoc, Hst | lia | done | lia].
  - exists js, (S k). cbn [pool workers pills added taken destroying jobq_ with_jobq q_]. rewrite Hq, Hc.
    split_and!; [by rewrite replicate_S_end, app_assoc | done | lia | done | done].
Qed.

(** A worker takes the first element. *)
Lemma queue_ok_pop t x j q pr' p w pr d n a st :
  queue_ok (PoolState p w pr d n a st) -> q_ (jobq_ p) = j :: q -> w !! t = Some x -> exited x = false ->
  queue_ok (PoolState (with_jobq (Fifo q (max_ (jobq_ p))) p)
    (<[t := match j with Some y => WTaken y | None => WExit end]> w) pr' d n a (note_added j st)).
Proof.
  intros (js & k & Hq & Hst & Hk & Hd & Hex) Hj Ht Hx. cbn [pool workers pills added taken destroying] in *.
  pose proof (count_insert exited w t (match j with Some y => WTaken y | None => WExit end) x Ht) as Hc. rewrite Hx in Hc.
  rewrite Hj in Hq. destruct js as [|y js]; cbn [fmap list_fmap app] in Hq.
  - destruct k as [|k]; cbn [replicate] in Hq; [done |]. injection Hq as -> ->. cbn [exited Nat.b2n note_added] in *.
    exists [], k. cbn [pool workers pills added taken destroying jobq_ with_jobq q_]. split_and!; [done | done | lia | done | done].
  - injection Hq as -> ->. cbn [exited Nat.b2n note_added] in *. exists js, k.
    cbn [pool workers pills added taken destroying jobq_ with_jobq q_]. split_and!; [done | | lia | done |].
    + by rewrite <- app_assoc.
    + intros Hpos. rewrite Nat.add_0_r in Hc. rewrite Nat.add_0_r in Hc. rewrite Hc in Hpos. by specialize (Hex Hpos).
Qed.

Lemma queue_ok_same p w w' pr pr' d n a st :
  queue_ok (PoolState p w pr d n a st) -> count exited w' = count exited w -> queue_ok (PoolState p w' pr' d n a st).
Proof.
  intros (js & k & H) Hc. exists js, k. cbn [pool workers pills added taken destroying] in *. by rewrite Hc.
Qed.

(** The queue grows by one and a worker is signalled; producers may leave. *)
Lemma wakeups_ok_push j f w' pr' p w pr d n a st d' n' a' :
  wakeups_ok (PoolState p w pr d n a st) -> f = Fifo (q_ (jobq_ p) ++ [j]) (max_ (jobq_ p)) ->
  Z.of_nat (length (q_ (jobq_ p))) < max_ (jobq_ p) -> signal_worker w w' ->
  count (fun p => negb (p_woken p)) pr' = count (fun p => negb (p_woken p)) pr ->
  (count p_woken pr <= count p_woken pr' + 1)%nat ->
  wakeups_ok (PoolState (with_jobq f p) w' pr' d' n' a' st).
Proof.
  intros (H1 & H2 & H3 & H4) -> Hroom Hsig Hs1 Hs2. destruct (signal_worker_counts w w' Hsig) as (_ & _ & Hc).
  unfold wakeups_ok. cbn [pool workers producers jobq_ with_jobq q_ max_] in *. rewrite length_app. cbn [length].
  split_and!; [done | lia | | lia]. destruct Hc as [[Hc ->]|[Hc1 Hc2]]; lia.
Qed.

Lemma wakeups_ok_pop t x y q j pr' p w pr d n a st st' :
  wakeups_ok (PoolState p w pr d n a st) -> q_ (jobq_ p) = j :: q -> w !! t = Some x -> (x = WTop \/ x = WWoken) ->
  asleep y = false -> woken y = false -> signal_producer pr pr' ->
  wakeups_ok (PoolState (with_jobq (Fifo q (max_ (jobq_ p))) p) (<[t := y]> w) pr' d n a st').
Proof.
  intros (H1 & H2 & H3 & H4) Hq Ht Hx Hy1 Hy2 Hsig. destruct (signal_producer_counts pr pr' Hsig) as (_ & _ & Hc).
  pose proof (count_insert asleep w t y x Ht) as C1. pose proof (count_insert woken w t y x Ht) as C2.
  unfold wakeups_ok. cbn [pool workers producers jobq_ with_jobq q_ max_] in *. rewrite Hq in *. cbn [length] in *.
  rewrite Hy1 in C1. rewrite Hy2 in C2.
  assert (Hx' : asleep x = false /\ (woken x = true \/ woken x = false)) by (destruct Hx as [->| ->]; auto).
  destruct Hx' as [Hx1 Hx2]. rewrite Hx1 in C1. cbn [Nat.b2n] in *. split_and!; [done | lia | |].
  - destruct Hx2 as [Hx2|Hx2]; rewrite Hx2 in C2; cbn [Nat.b2n] in C2; lia.
  - destruct Hc as [[Hc ->]|[Hc1 Hc2]]; [by left | lia].
Qed.

Lemma enq_inv j b f w' pr' p w pr d n a st :
  pool_inv (PoolState p w pr d n a st) -> enq j b (jobq_ p) = Enqueued f -> signal_worker w w' ->
  d = (match j with Some _ => false | None => true end) ->
  count (fun p => negb (p_woken p)) pr' = count (fun p => negb (p_woken p)) pr ->
  (count p_woken pr <= count p_woken pr' + 1)%nat ->
  producers_ok (PoolState p w pr' d (note_pill j n) a st) ->
  pool_inv (PoolState (with_jobq f p) w' pr' d (note_pill j n) (note_added j a) st).
Proof.
  intros (HQ & _ & HW) He Hsig Hd Hs1 Hs2 HP. destruct (enq_room _ _ _ _ He) as [Hf Hroom].
  destruct (signal_worker_counts w w' Hsig) as (Hc & Hsz & _). split_and!.
  - by apply (queue_ok_push j f w' pr' p w pr).
  - unfold producers_ok in *. cbn [pool workers producers destroying pills nthreads_ with_jobq] in *. by rewrite Hsz.
  - eapply (wakeups_ok_push j); try done. apply Hroom. by destruct HW.
Qed.

Lemma may_enq_state j p w pr d n a st :
  may_enq j (PoolState p w pr d n a st) -> d = match j with Some _ => false | None => true end.
Proof. destruct j; cbn; tauto. Qed.

Lemma producers_ok_enq j p w pr d n a st :
  producers_ok (PoolState p w pr d n a st) -> may_enq j (PoolState p w pr d n a st) ->
  producers_ok (PoolState p w pr d (note_pill j n) a st).
Proof.
  intros [H1 H2] Hm. split; [done |]. cbn [pool workers producers destroying pills] in *.
  destruct j; cbn in Hm; cbn [note_pill]; destruct d; try done; try (by destruct Hm).
  destruct H2, Hm as (_ & -> & Hm). rewrite map_size_empty. split; [done | lia].
Qed.

(** A producer goes to sleep, again or for the first time. *)
Lemma wakeups_ok_sleep p w pr d n a st pr' :
  wakeups_ok (PoolState p w pr d n a st) -> max_ (jobq_ p) <= Z.of_nat (length (q_ (jobq_ p))) ->
  wakeups_ok (PoolState p w pr' d n a st).
Proof. intros (H1 & H2 & H3 & H4) Hfull. unfold wakeups_ok. cbn [pool workers producers] in *. split_and!; auto. right. lia. Qed.

(** A worker that does not exit changes its state; it sleeps, or uses up a
    wake-up without taking a job, only when the queue is empty. *)
Lemma worker_moves t x y p w pr d n a st :
  pool_inv (PoolState p w pr d n a st) -> w !! t = Some x -> exited x = false -> exited y = false ->
  (asleep y = true \/ (woken x = true /\ woken y = false) -> q_ (jobq_ p) = []) ->
  pool_inv (PoolState p (<[t := y]> w) pr d n a st).
Proof.
  intros (HQ & [HP1 HP2] & (W1 & W2 & W3 & W4)) Ht Hx Hy He. pose proof (count_insert exited w t y x Ht) as C0.
  pose proof (count_insert asleep w t y x Ht) as C1. pose proof (count_insert woken w t y x Ht) as C2.
  rewrite Hx, Hy in C0. cbn [pool workers producers] in *. split_and!.
  - eapply queue_ok_same; [done | lia].
  - split; [| done]. cbn [pool workers]. by rewrite map_size_insert_Some by (by eexists).
  - split_and!; cbn [pool workers producers]; auto.
    destruct (asleep y) eqn:E1; [rewrite He by auto; right; cbn; lia |].
    destruct (woken x) eqn:E2, (woken y) eqn:E3; cbn [Nat.b2n] in *; try lia. rewrite He by auto. right. cbn. lia.
Qed.

(** Every waiting producer has a job of the kind that is being added. *)
Lemma producers_insert (P : job_t -> Prop) (pr : gmap nat producer) t j b :
  (forall t x, pr !! t = Some x -> P (p_job x)) -> P j ->
  forall t' x, <[t := Producer j b]> pr !! t' = Some x -> P (p_job x).
Proof. intros H Hj t' x Hx. rewrite lookup_insert in Hx. case_decide; [by injection Hx as <- | by eapply H]. Qed.

Lemma producers_ok_move t j b b' p w pr d n a st :
  producers_ok (PoolState p w pr d n a st) -> pr !! t = Some (Producer j b) ->
  producers_ok (PoolState p w (<[t := Producer j b']> pr) d n a st).
Proof.
  intros [HP1 HP2] Ht. split; [done |]. cbn [pool workers producers destroying pills] in *. destruct d.
  - destruct HP2 as [HP2 HP3]. rewrite map_size_insert_Some by (by eexists). split; [| done].
    apply (producers_insert (fun j => j = None)); [done | apply (HP2 _ _ Ht)].
  - apply (producers_insert (fun j => j <> None)); [done | apply (HP2 _ _ Ht)].
Qed.

Lemma producers_ok_wait t j p w pr d n a st :
  producers_ok (PoolState p w pr d n a st) -> may_enq j (PoolState p w pr d n a st) -> pr !! t = None ->
  producers_ok (PoolState p w (<[t := Producer j false]> pr) d n a st).
Proof.
  intros [HP1 HP2] Hm Ht. split; [done |]. cbn [pool workers producers destroying pills] in *.
  destruct j as [y|]; cbn in Hm; destruct d; try done; try (by destruct Hm).
  - by apply (producers_insert (fun j => j <> None)).
  - destruct Hm as (_ & -> & Hm), HP2 as [HP2 HP3]. rewrite map_size_insert_None, map_size_empty by done.
    split; [| lia]. by apply (producers_insert (fun j => j = None)).
Qed.

(** A woken producer finds room. *)
Lemma again_inv t j f w' p w pr d n a st :
  pool_inv (PoolState p w pr d n a st) -> pr !! t = Some (Producer j true) -> enq j true (jobq_ p) = Enqueued f ->
  signal_worker w w' -> pool_inv (PoolState (with_jobq f p) w' (delete t pr) d (note_pill j n) (note_added j a) st).
Proof.
  intros Hi Ht He Hsig. assert (HP := Hi). destruct HP as (_ & [HP1 HP2] & _).
  cbn [pool workers producers destroying pills] in *.
  assert (Hd : d = match j with Some _ => false | None => true end).
  { destruct d; [destruct HP2 as [HP2 _] |]; specialize (HP2 t _ Ht); cbn in HP2; by destruct j. }
  pose proof (count_delete (fun p => negb (p_woken p)) pr t _ Ht) as C1. pose proof (count_delete p_woken pr t _ Ht) as C2.
  cbn [p_woken negb Nat.b2n] in *. eapply enq_inv; try done; [lia | lia |]. split; [done |].
  cbn [pool workers producers destroying pills]. destruct d.
  - destruct j; [done |]. destruct HP2 as [HP2 HP3]. cbn [note_pill].
    pose proof (map_size_ne_0_lookup_2 pr t ltac:(by eexists)) as Hne.
    rewrite map_size_delete_Some by (by eexists).
    split; [| lia]. intros t' pr0 Hpr. apply lookup_delete_Some in Hpr as [_ Hpr]. by eapply HP2.
  - intros t' pr0 Hpr. apply lookup_delete_Some in Hpr as [_ Hpr]. by eapply HP2.
Qed.

(** A worker takes a job or a pill. *)
Lemma take_inv t x j p' sig pr' p w pr d n a st :
  pool_inv (PoolState p w pr d n a st) -> w !! t = Some x -> (x = WTop \/ x = WWoken) -> takeJob p = Some (j, p', sig) ->
  (if (sig : bool) then signal_producer pr pr' else pr' = pr) ->
  pool_inv (PoolState p' (<[t := match j with Some y => WTaken y | None => WExit end]> w) pr' d n a (note_added j st)).
Proof.
  intros (HQ & [HP1 HP2] & HW) Ht Hx Htk Hsig.
  unfold takeJob, deq in Htk. destruct (q_ (jobq_ p)) as [|j0 q] eqn:Hq; [done |]. injection Htk as <- <- <-.
  assert (HW' := HW). destruct HW' as (Hmax & Hlen & _).
  cbn [pool workers producers destroying pills] in *. rewrite Hq in Hlen. cbn [length] in Hlen.
  replace (negb (max_ (jobq_ p) =? 0) && (Z.of_nat (length q) <? max_ (jobq_ p))) with true in Hsig by lia.
  destruct (signal_producer_counts pr pr' Hsig) as (Hsz & Hjobs & _).
  split_and!; [apply (queue_ok_pop t x _ q pr' p w pr); auto; by destruct Hx as [->| ->] | |].
  - split; cbn [pool workers producers destroying pills nthreads_ with_jobq];
      [by rewrite map_size_insert_Some by (by eexists) |]. rewrite Hsz.
    destruct d; [destruct HP2 as [HP2 HP3]; split; [| done] |]; intros t' pr0 Hpr;
      destruct (Hjobs t' pr0 Hpr) as (y & Hy & ->); by eapply HP2.
  - eapply wakeups_ok_pop; try done; by destruct j0.
Qed.

Lemma pool_step_inv oj s s' : pool_inv s -> pool_step oj s s' -> pool_inv s'.
Proof.
  intros Hi H. assert (HI := Hi). destruct HI as (HQ & HP & HW).
  destruct H as [j f w' p w pr d n a st Hm He Hsig|t j p w pr d n a st Hm Ht He|j p w pr d n a st Hm He
    |t j f w' p w pr d n a st Ht He Hsig|t j p w pr d n a st Ht He|t x j p' sig pr' p w pr d n a st Ht Hx Htk Hsig
    |t x p w pr d n a st Ht Hx Htk|t y p w pr d n a st Ht|t y p w pr d n a st Ht|p w n a st|t p w pr d n a st Ht|t j p w pr d n a st Ht].
  - pose proof (may_enq_state _ _ _ _ _ _ _ _ Hm) as Hd. eapply enq_inv; try done; [lia |]. by apply producers_ok_enq.
  - split_and!; [by eapply queue_ok_same | by apply producers_ok_wait | by eapply wakeups_ok_sleep, enq_full].
  - done.
  - by eapply again_inv.
  - split_and!; [by eapply queue_ok_same | by eapply producers_ok_move | by eapply wakeups_ok_sleep, enq_full].
  - by eapply take_inv.
  - apply (worker_moves t x WSleep); [done | done | by destruct Hx as [->| ->] | done |].
    unfold takeJob, deq in Htk. by destruct (q_ (jobq_ p)).
  - apply (worker_moves t (WTaken y) (WRun y)); try done. cbn. intros [?|[? _]]; done.
  - apply (worker_moves t (WRun y) WTop); try done. cbn. intros [?|[? _]]; done.
  - destruct HQ as (js & k & Hq & Hst & Hk & Hd & Hex), HP as [HP1 HP2].
    cbn [pool workers producers destroying pills added taken] in *.
    assert (n = 0%nat) by (destruct (decide (n = 0%nat)); [done | exfalso; discriminate Hd; lia]).
    split_and!; [exists js, k; by split_and! | | done]. split; [done |]. cbn [producers destroying pills].
    rewrite map_size_empty. split; [intros t pr0; by rewrite lookup_empty | lia].
  - apply (worker_moves t WSleep WWoken); try done. cbn. intros [?|[? _]]; done.
  - destruct HW as (W1 & W2 & W3 & W4).
    pose proof (count_insert (fun p => negb (p_woken p)) pr t (Producer j true) _ Ht) as C1.
    pose proof (count_insert p_woken pr t (Producer j true) _ Ht) as C2.
    cbn [p_woken negb Nat.b2n pool workers producers destroying pills] in *.
    split_and!; [by eapply queue_ok_same | by eapply producers_ok_move | split_and!; cbn [pool workers producers]; auto; lia].
Qed.

Lemma workers_new_lookup sz t x : workers_new sz !! t = Some x -> x = WTop.
Proof.
  unfold workers_new. intros H. apply elem_of_list_to_map_2, list_elem_of_fmap in H as (i & [= _ ->] & _). done.
Qed.

Lemma workers_new_size sz : size (workers_new sz) = sz.
Proof.
  unfold workers_new. rewrite map_size_list_to_map; [by rewrite length_fmap, length_seq |].
  rewrite <- list_fmap_compose. change (NoDup ((fun i : nat => i) <$> seq 0 sz)). rewrite list_fmap_id. apply NoDup_seq.
Qed.

Lemma pool_reach_inv l s : pool_reach l s -> pool_inv s.
Proof.
  induction 1 as [sz blocking Hsz Hlim|oj l s s' _ IH H]; [| by eapply pool_step_inv].
  assert (Hmax : max_ (jobq_ (thr_pool_new (Z.of_nat sz) blocking)) = 100 * Z.of_nat sz)
    by (cbn; unfold u32; rewrite Z.mod_small; lia).
  assert (Hz : forall P, P WTop = false -> count P (workers_new sz) = 0%nat)
    by (intros P HP; apply count_zero; intros t x Hx; by rewrite (workers_new_lookup _ _ _ Hx)).
  split_and!.
  - exists [], 0%nat. cbn [pool workers pills added taken destroying]. rewrite Hz by done. split_and!; try done; lia.
  - split; cbn [pool workers producers destroying pills]; [rewrite workers_new_size; cbn; lia |]. intros t x. by rewrite lookup_empty.
  - split_and!; cbn [pool workers producers]; rewrite ?Hmax; [lia | cbn; lia | left; by apply Hz | left].
    apply count_zero. intros t x. by rewrite lookup_empty.
Qed.

(** ** What the pool promises *)

Lemma pool_workers_pos l s : pool_reach l s -> (0 < size (workers s))%nat.
Proof.
  intros H. destruct (pool_reach_inv l s H) as (_ & [-> _] & _). induction H as [sz blocking Hsz Hlim|oj l s s' _ IH H].
  - cbn. lia.
  - replace (nthreads_ (pool s')) with (nthreads_ (pool s)); [done |]. destruct H; try done.
    match goal with H : takeJob _ = _ |- _ => unfold takeJob in H; destruct (deq _) as [[[? ?] ?]|]; by simplify_eq end.
Qed.

Lemma omap_jobs (js : list J) k : omap id ((Some <$> js) ++ replicate k (@None J)) = js.
Proof. induction js as [|x js IH]; cbn; [by induction k |]. by f_equal. Qed.

Lemma pool_all_exited l s :
  pool_reach l s -> (forall t x, workers s !! t = Some x -> x = WExit) -> q_ (jobq_ (pool s)) = [].
Proof.
  intros H Hall. destruct (pool_reach_inv l s H) as ((js & k & Hq & Hst & Hk & Hd & Hex) & [HP1 HP2] & _).
  assert (Hc : count exited (workers s) = size (workers s)) by (apply count_all; intros t x Hx; by rewrite (Hall t x Hx)).
  pose proof (pool_workers_pos l s H) as Hn. rewrite Hd in HP2 by lia. destruct HP2 as [_ HP3].
  rewrite Hq, Hex by lia. by replace k with 0%nat by lia.
Qed.

(** ** Calls *)

(** The job a worker has taken and not called yet. *)
Definition in_hand (x : worker) : option J := match x with WTaken y => Some y | _ => None end.
Definition hands (w : gmap nat worker) : list J := omap (fun tx => in_hand (snd tx)) (map_to_list w).

Lemma hands_insert t y w : hands (<[t := y]> w) ≡ₚ option_list (in_hand y) ++ hands (delete t w).
Proof.
  unfold hands. rewrite <- insert_delete_eq, map_to_list_insert by apply lookup_delete_eq. cbn. by destruct (in_hand y).
Qed.

Lemma hands_split t x w : w !! t = Some x -> hands w ≡ₚ option_list (in_hand x) ++ hands (delete t w).
Proof. intros H. rewrite <- (insert_id w t x H) at 1. apply hands_insert. Qed.

(** A worker that has no job in hand before and after. *)
Lemma hands_move t x y w : w !! t = Some x -> in_hand x = None -> in_hand y = None -> hands (<[t := y]> w) ≡ₚ hands w.
Proof. intros Ht Hx Hy. by rewrite hands_insert, (hands_split t x w Ht), Hx, Hy. Qed.

Lemma hands_signal w w' : signal_worker w w' -> hands w' ≡ₚ hands w.
Proof. intros [(t & Ht & ->)|[_ ->]]; [by eapply hands_move | done]. Qed.

Lemma hands_nil w : (forall t x, w !! t = Some x -> in_hand x = None) -> hands w = [].
Proof.
  intros Hw. unfold hands.
  assert (Hn : forall tx, tx ∈ map_to_list w -> in_hand (snd tx) = None) by (intros [t x] Htx%elem_of_map_to_list; by eapply Hw).
  induction (map_to_list w) as [|tx q IHq]; [done |]. cbn. rewrite Hn by by left. apply IHq. intros y Hy. apply Hn. by right.
Qed.

(** Every job taken is called or in the hand of one worker. *)
Lemma taken_called l s : pool_reach l s -> taken s ≡ₚ l ++ hands (workers s).
Proof.
  induction 1 as [sz blocking Hsz Hlim|oj l s s' _ IH H]; cbn [taken workers].
  - rewrite hands_nil; [done |]. intros t x Hx. by rewrite (workers_new_lookup _ _ _ Hx).
  - destruct H; cbn [taken workers option_list] in *; rewrite ?app_nil_r; try done.
    + by rewrite (hands_signal w w').
    + by rewrite (hands_signal w w').
    + assert (Hx : in_hand x = None) by (by match goal with H : x = _ \/ _ |- _ => destruct H as [->| ->] end).
      rewrite hands_insert. erewrite hands_split in IH by done. rewrite Hx in IH.
      destruct j as [y|]; cbn [note_added in_hand option_list app] in *; [| done]. rewrite IH. solve_Permutation.
    + erewrite hands_move; [done | done | | done]. by match goal with H : x = _ \/ _ |- _ => destruct H as [->| ->] end.
    + erewrite hands_insert. erewrite hands_split in IH by done. cbn [in_hand option_list app] in *. rewrite IH. solve_Permutation.
    + by erewrite hands_move.
    + by erewrite hands_move.
Qed.

(** C24: jobs leave the queue in the order in which they were put in, none
    is lost and none is run twice: at any moment the jobs taken out, followed by
    the jobs still queued, are the jobs added, and each job taken out has been
    called once or is in the hand of one worker that is about to call it.  When
    the destructor has joined every worker, all jobs have been taken in order,
    each has been called exactly once, and the queue is empty. *)
Theorem pool_runs_every_job called s :
  pool_reach called s ->
  taken s ++ omap id (q_ (jobq_ (pool s))) = added s /\ taken s ≡ₚ called ++ hands (workers s) /\
  ((forall t x, workers s !! t = Some x -> x = WExit) ->
    taken s = added s /\ called ≡ₚ added s /\ q_ (jobq_ (pool s)) = []).
Proof.
  intros H. destruct (pool_reach_inv called s H) as ((js & k & Hq & Hst & _) & _).
  assert (Ha : taken s ++ omap id (q_ (jobq_ (pool s))) = added s) by by rewrite Hq, omap_jobs.
  pose proof (taken_called called s H) as Hc.
  split_and!; [done | done |]. intros Hall. pose proof (pool_all_exited called s H Hall) as He. rewrite He in Ha.
  cbn in Ha. rewrite app_nil_r in Ha. split_and!; [done | | done]. rewrite <- Ha, Hc.
  rewrite hands_nil; [by rewrite app_nil_r |]. intros t x Hx. by rewrite (Hall _ _ Hx).
Qed.

(** C26: no wake-up is lost: while the queue holds an element some worker
    is running, about to take one or already woken up; and while a producer
    waits for room, the queue is full or some producer has been woken up.
    Hence the pool never gets stuck with work left. *)
Theorem pool_no_lost_wakeup l s :
  pool_reach l s ->
  (q_ (jobq_ (pool s)) <> [] -> exists t x, workers s !! t = Some x /\ x <> WSleep /\ x <> WExit) /\
  (forall t j, producers s !! t = Some (Producer j false) ->
    Z.of_nat (length (q_ (jobq_ (pool s)))) = max_ (jobq_ (pool s)) \/
    exists t' j', producers s !! t' = Some (Producer j' true)).
Proof.
  intros H. destruct (pool_reach_inv l s H) as (_ & _ & (W1 & W2 & W3 & W4)). split.
  - intros Hne. destruct (decide (map_Forall (fun _ x => exited x = true \/ asleep x = true) (workers s))) as [Hall|Hno].
    + exfalso. apply Hne. destruct W3 as [W3|W3].
      * apply (pool_all_exited l s H). intros t x Hx. destruct (Hall t x Hx) as [E|E]; [by destruct x |].
        pose proof (count_pos asleep _ t x Hx E). lia.
      * apply nil_length_inv. rewrite count_zero in W3; [lia |]. intros t x Hx. destruct (Hall t x Hx); by destruct x.
    + apply map_not_Forall in Hno as (t & x & Hx & Hn); [| intros; apply _]. exists t, x. split; [done |].
      split; intros ->; apply Hn; auto.
  - intros t j Ht. destruct (decide (count p_woken (producers s) = 0%nat)) as [Hz|Hz].
    + left. destruct W4 as [W4|W4]; [| lia].
      pose proof (count_pos (fun p => negb (p_woken p)) _ t _ Ht eq_refl). lia.
    + right. unfold count in Hz. apply map_size_ne_0_lookup in Hz as (t' & y & Hy).
      apply map_lookup_filter_Some in Hy as [Hy Hp]. destruct y as [j' b]. cbn in Hp. subst b. by exists t', j'.
Qed.

End pool.

(** ** A run: one worker, two jobs, then the destructor *)

Definition pool1 (q : list (@job_t nat)) : @thr_pool nat := ThrPool 1 true (Fifo q 100).
Definition pool_end : @pool_state nat :=
  PoolState (pool1 []) {[ 0%nat := WExit ]} ∅ true 1 [7%nat; 8%nat] [7%nat; 8%nat].

Lemma one_worker_signal (x : @worker nat) : x <> WSleep -> signal_worker {[ 0%nat := x ]} {[ 0%nat := x ]}.
Proof. intros Hx. right. split; [| done]. intros t. rewrite lookup_singleton. case_decide; congruence. Qed.

(** One worker takes what comes next, and calls it if it is a job. *)
Lemma one_worker_takes x (j : @job_t nat) q d n a st l :
  (x = WTop \/ x = WWoken) -> pool_reach l (PoolState (pool1 (j :: q)) {[ 0%nat := x ]} ∅ d n a st) ->
  pool_reach (l ++ option_list j)
    (PoolState (pool1 q) {[ 0%nat := match j with Some y => WRun y | None => WExit end ]} ∅ d n a (note_added j st)).
Proof.
  intros Hx H.
  assert (H1 : pool_reach (l ++ []) (PoolState (pool1 q) {[ 0%nat := match j with Some y => WTaken y | None => WExit end ]} ∅ d n a (note_added j st))).
  { eapply (po_step None); [exact H |]. rewrite <- (insert_singleton_eq 0%nat (match j with Some y => WTaken y | None => WExit end) x).
    eapply (po_take 0 x j _ _); [apply lookup_singleton_eq | done | reflexivity |]. case_match; [| done].
    right. split; [| done]. intros t j'. by rewrite lookup_empty. }
  rewrite app_nil_r in H1. destruct j as [y|]; cbn [option_list]; [| by rewrite app_nil_r].
  eapply (po_step (Some y)); [exact H1 |]. rewrite <- (insert_singleton_eq 0%nat (WRun y) (WTaken y)).
  apply po_call, lookup_singleton_eq.
Qed.

Lemma po_quiet (l : list nat) s s' : pool_reach l s -> pool_step None s s' -> pool_reach l s'.
Proof. intros H Hs. rewrite <- (app_nil_r l). by eapply (po_step None). Qed.

Lemma pool_run :
  pool_reach [7%nat] (PoolState (pool1 [Some 8%nat]) {[ 0%nat := WRun 7%nat ]} ∅ false 0 [7%nat; 8%nat] [7%nat]) /\
  pool_reach [7%nat; 8%nat] pool_end.
Proof.
  assert (H0 : pool_reach [] (PoolState (pool1 []) {[ 0%nat := @WTop nat ]} ∅ false 0 [] [])).
  { change (pool1 []) with (@thr_pool_new nat (Z.of_nat 1) true). apply (po_start 1 true); lia. }
  assert (H1 : pool_reach [7%nat] (PoolState (pool1 [Some 8%nat]) {[ 0%nat := WRun 7%nat ]} ∅ false 0 [7%nat; 8%nat] [7%nat])).
  { apply (one_worker_takes WWoken (Some 7%nat) [Some 8%nat] _ _ _ [] []); [by right |].
    eapply po_quiet; [eapply po_quiet; [eapply po_quiet; [exact H0 |] |] |].
    - by apply (po_take_wait 0 WTop); [| left |].
    - apply (po_enq (Some 7%nat) (Fifo [Some 7%nat] 100) {[ 0%nat := WWoken ]}); [done | done |].
      left. exists 0%nat. by rewrite insert_singleton_eq.
    - apply (po_enq (Some 8%nat) (Fifo [Some 7%nat; Some 8%nat] 100) {[ 0%nat := WWoken ]}); [done | done |].
      by apply one_worker_signal.
  }
  split; [done |]. apply (one_worker_takes WTop None [] true 1 [7%nat; 8%nat] [7%nat; 8%nat] [7%nat; 8%nat]); [by left |].
  eapply po_quiet; [eapply po_quiet; [eapply po_quiet;
    [apply (one_worker_takes WTop (Some 8%nat) [] false 0 [7%nat; 8%nat] [7%nat] [7%nat]); [by left |]; eapply po_quiet; [exact H1 |] |] |] |].
  - apply (po_ran 0 7%nat). done.
  - apply po_destroy.
  - apply (po_enq None (Fifo [None] 100) {[ 0%nat := WRun 8%nat ]}); [cbn; split_and!; [done | done | lia] | done |]. by apply one_worker_signal.
  - apply (po_ran 0 8%nat). done.
Qed.

Lemma pool_runs_every_job_witness :
  taken pool_end = [7%nat; 8%nat] /\ [7%nat; 8%nat] ≡ₚ added pool_end /\ q_ (jobq_ (pool pool_end)) = [].
Proof.
  apply (pool_runs_every_job [7%nat; 8%nat] pool_end (proj2 pool_run)). intros t x Hx. cbn in Hx. apply lookup_singleton_Some in Hx.
  by destruct Hx.
Defined.

Lemma pool_no_lost_wakeup_witness :
  exists t x, ({[ 0%nat := WRun 7%nat ]} : gmap nat (@worker nat)) !! t = Some x /\ x <> WSleep /\ x <> WExit.
Proof. apply (pool_no_lost_wakeup _ _ (proj1 pool_run)). done. Defined.
