(* ===== verification/ExtentProgram.v ===== *)
(** * The extent server as its threads run it (src/inode_manager.cc, src/extent_server.cc)

    rpcs runs the procedures of the extent server on several threads, and
    neither the extent server nor the inode manager nor the block manager has a
    mutex.  Here the routines of Disk.v, InodeManager.v and ExtentServer.v are
    programs whose steps are the single accesses to the disk ([dprog]), each
    taken as a whole; what other threads do comes between.  The superblock in
    memory is never assigned, so programs have it as an argument.

    A program that runs alone does what the routine does ([requests_alone]).
    Whatever comes between its accesses, the disk stays an array of blocks of
    512 bytes and a reply is a value of its type that fits into a message. *)

From S2P Require Import Prelude Disk InodeManager ExtentServer.

(** ** Programs over the disk *)

Inductive dprog (B : Type) :=
| DRet (b : B)
| DFail (f : fault)
| DRead (id : Z) (buf : list Z) (k : list Z -> dprog B)   (* bm->read_block(id, buf) *)
| DWrite (id : Z) (buf : list Z) (p : dprog B).           (* bm->write_block(id, buf) *)
Arguments DRet {B}. Arguments DFail {B}. Arguments DRead {B}. Arguments DWrite {B}.

#[export] Instance dprog_ret : MRet dprog := @DRet.
#[export] Instance dprog_bind : MBind dprog :=
  fun A B (k : A -> dprog B) => fix go p :=
    match p with
    | DRet a => k a
    | DFail f => DFail f
    | DRead id buf h => DRead id buf (fun bs => go (h bs))
    | DWrite id buf p => DWrite id buf (go p)
    end.

(** What does not touch the disk. *)
Definition lift {B} (o : outcome B) : dprog B := match o with Done b => DRet b | Fault f => DFail f end.

Definition read_block (id : Z) (buf : list Z) : dprog (list Z) := DRead id buf DRet.
Definition write_block (id : Z) (buf : list Z) : dprog unit := DWrite id buf (DRet tt).

(** The program from the state [bm] with nothing in between. *)
Fixpoint solo {B} (p : dprog B) (bm : block_manager) : outcome (block_manager * B) :=
  match p with
  | DRet b => Done (bm, b)
  | DFail f => Fault f
  | DRead id buf k => solo (k (bm_read_block bm id buf)) bm
  | DWrite id buf p => bm ← bm_write_block bm id buf; solo p bm
  end.

(** ** The routines *)

Section routines.
Variable sb : superblock.
Variables junk junk_ind : list Z.

(** *** block_manager *)

Fixpoint alloc_scan_p (n : nat) (i : Z) (buf : list Z) : dprog Z :=
  match n with
  | O => mret 0
  | S n =>
      buf ← read_block (BBLOCK i) buf;
      let t := u32 (i - BBLOCK i) in
      byte ← lift (load buf (Z.shiftr t 3));
      if Z.land byte (Z.shiftl 1 (t mod 8)) =? 0
      then buf ← lift (store buf (Z.shiftr t 3) (u8 (Z.lor byte (Z.shiftl 1 (t mod 8)))));
           _ ← write_block (BBLOCK i) buf; mret i
      else alloc_scan_p n (i + 1) buf
  end.

Definition alloc_block_p : dprog Z :=
  let i := first_candidate sb in alloc_scan_p (Z.to_nat (sb_nblocks sb - i)) i junk.

Definition free_block_p (id : Z) : dprog unit :=
  let i := u32 (BBLOCK id) in
  let t := u32 (id - i) in
  buf ← read_block i junk;
  byte ← lift (load buf (Z.shiftr t 3));
  buf ← lift (store buf (Z.shiftr t 3) (u8 (Z.land byte (Z.lnot (Z.shiftl 1 (t mod 8))))));
  write_block i buf.

(** *** inode_manager *)

Fixpoint inode_slots_p (n : nat) (cur type i j : Z) (buf : list Z) : dprog (option Z) :=
  match n with
  | O => mret None
  | S n =>
      if (i =? 0) && (j =? 0) then inode_slots_p n cur type i (j + 1) buf
      else if INODE_NUM <=? j + i * IPB then mret (Some 0)
      else
        let ino := load_inode buf j in
        if i_type ino =? 0 then
          let ino' := Inode (s16 type) 0 (i_atime ino) (u32 cur) (u32 cur) (replicate 33 0) in
          _ ← write_block (i + IBLOCK 0 (sb_nblocks sb)) (store_inode buf j ino');
          mret (Some (j + i * IPB))
        else inode_slots_p n cur type i (j + 1) buf
  end.

Fixpoint inode_table_scan_p (n : nat) (cur type i : Z) (buf : list Z) : dprog Z :=
  match n with
  | O => mret 0
  | S n =>
      buf ← read_block (i + IBLOCK 0 (sb_nblocks sb)) buf;
      r ← inode_slots_p (Z.to_nat IPB) cur type i 0 buf;
      match r with
      | Some inum => mret inum
      | None => inode_table_scan_p n cur type (i + 1) buf
      end
  end.

Definition alloc_inode_p (cur type : Z) : dprog Z :=
  inode_table_scan_p (Z.to_nat (CEIL (sb_ninodes sb) IPB)) cur type 0 junk.

Definition get_inode_p (inum : Z) : dprog (option inode) :=
  if (inum <? 0) || (INODE_NUM <=? inum) then mret None
  else
    buf ← read_block (IBLOCK inum (sb_nblocks sb)) junk;
    let ino_disk := load_inode buf (inum mod IPB) in
    mret (if i_type ino_disk =? 0 then None else Some ino_disk).

Definition put_inode_p (inum : Z) (ino : inode) : dprog unit :=
  buf ← read_block (IBLOCK inum (sb_nblocks sb)) junk;
  write_block (IBLOCK inum (sb_nblocks sb)) (store_inode buf (inum mod IPB) ino).

Definition free_inode_p (cur inum : Z) : dprog unit :=
  o ← get_inode_p inum;
  match o with
  | None => mret tt
  | Some ino =>
      if i_type ino =? 0 then mret tt
      else put_inode_p inum (set_times (set_type ino 0) (u32 cur) (u32 cur))
  end.

Fixpoint read_blocks_p (n : nat) (ino : inode) (ind : list Z) (i : Z) (buf out : list Z) : dprog (list Z * list Z) :=
  match n with
  | O => mret (buf, out)
  | S n =>
      b ← lift (BLK ino ind i);
      buf ← read_block b buf;
      out ← lift (store_bytes out (i * BLOCK_SIZE) (take (Z.to_nat BLOCK_SIZE) buf));
      read_blocks_p n ino ind (i + 1) buf out
  end.

Definition read_file_p (cur inum : Z) (out : option (list Z) * Z) : dprog (option (list Z) * Z) :=
  o ← get_inode_p inum;
  match o with
  | None => mret out
  | Some ino =>
      if i_type ino =? 0 then mret (None, 0)
      else
        let bc := CEIL (i_size ino) BLOCK_SIZE in
        ind ← (if NDIRECT <? bc then read_block (ind_block ino) junk_ind else mret junk_ind);
        let size := s32 (i_size ino) in
        if size =? 0 then mret (fst out, size)
        else
          r ← read_blocks_p (Z.to_nat (bc - 1)) ino ind 0 junk (replicate (Z.to_nat (i_size ino)) 0);
          b ← lift (BLK ino ind (bc - 1));
          buf ← read_block b (fst r);
          let last := if i_size ino mod BLOCK_SIZE =? 0 then BLOCK_SIZE else i_size ino mod BLOCK_SIZE in
          mem ← lift (store_bytes (snd r) ((bc - 1) * BLOCK_SIZE) (take (Z.to_nat last) buf));
          _ ← put_inode_p inum (set_atime ino (u32 cur));
          mret (Some mem, size)
  end.

Fixpoint write_blocks_p (n : nat) (ino : inode) (ind : list Z) (i : Z) (buf : list Z) : dprog unit :=
  match n with
  | O => mret tt
  | S n =>
      b ← lift (BLK ino ind i);
      _ ← write_block b (drop (Z.to_nat (i * BLOCK_SIZE)) buf);
      write_blocks_p n ino ind (i + 1) buf
  end.

Fixpoint free_tail_p (n : nat) (ino : inode) (ind : list Z) (i : Z) : dprog (inode * list Z) :=
  match n with
  | O => mret (ino, ind)
  | S n =>
      b ← lift (BLK ino ind i);
      _ ← free_block_p b;
      r ← lift (BLK_set ino ind i 0);
      free_tail_p n (fst r) (snd r) (i + 1)
  end.

Fixpoint grow_blocks_p (n : nat) (ino : inode) (ind : list Z) (i : Z) (buf : list Z) : dprog (inode * list Z) :=
  match n with
  | O => mret (ino, ind)
  | S n =>
      a ← alloc_block_p;
      r ← lift (BLK_set ino ind i a);
      b ← lift (BLK (fst r) (snd r) i);
      _ ← write_block b (drop (Z.to_nat (i * BLOCK_SIZE)) buf);
      grow_blocks_p n (fst r) (snd r) (i + 1) buf
  end.

Definition write_file_p (cur inum : Z) (buf : list Z) (size : Z) : dprog unit :=
  o ← get_inode_p inum;
  match o with
  | None => mret tt
  | Some ino =>
      if i_type ino =? 0 then mret tt
      else
        let bc := CEIL (i_size ino) BLOCK_SIZE in
        let bc_new := CEIL size BLOCK_SIZE in
        ind ← (if NDIRECT <? bc then read_block (ind_block ino) junk_ind else mret junk_ind);
        _ ← write_blocks_p (Z.to_nat (Z.min bc_new bc)) ino ind 0 buf;
        if bc_new =? bc then
          let ino := set_times ino (u32 cur) (u32 cur) in
          let ino := if u32 size =? i_size ino then ino
                     else set_times (set_size ino (u32 size)) (i_mtime ino) (u32 cur) in
          put_inode_p inum ino
        else if bc_new <? bc then
          r ← free_tail_p (Z.to_nat (bc - bc_new)) ino ind bc_new;
          let ino := fst r in
          ino ← (if (NDIRECT <? bc) && (bc_new <=? NDIRECT)
                 then _ ← free_block_p (ind_block ino); mret (set_block ino (Z.to_nat NDIRECT) 0)
                 else mret ino);
          put_inode_p inum (set_size (set_times ino (u32 cur) (u32 cur)) (u32 size))
        else
          r ← (if (bc <=? NDIRECT) && (NDIRECT <? bc_new)
               then a ← alloc_block_p; mret (set_block ino (Z.to_nat NDIRECT) a, zero_block)
               else mret (ino, ind));
          r ← grow_blocks_p (Z.to_nat (bc_new - bc)) (fst r) (snd r) bc buf;
          let ino := fst r in
          _ ← (if ind_block ino =? 0 then mret tt else write_block (ind_block ino) (snd r));
          put_inode_p inum (set_size (set_times ino (u32 cur) (u32 cur)) (u32 size))
  end.

Definition im_getattr_p (inum : Z) : dprog attr :=
  buf ← read_block (u32 (IBLOCK inum (sb_nblocks sb))) junk;
  let ino_disk := load_inode buf (inum mod IPB) in
  mret (Attr (u32 (i_type ino_disk)) (i_atime ino_disk) (i_mtime ino_disk) (i_ctime ino_disk) (i_size ino_disk)).

Fixpoint free_blocks_of_p (n : nat) (ino : inode) (ind : list Z) (i : Z) : dprog unit :=
  match n with
  | O => mret tt
  | S n =>
      b ← lift (BLK ino ind i);
      _ ← free_block_p b;
      free_blocks_of_p n ino ind (i + 1)
  end.

Definition remove_file_p (cur inum : Z) : dprog unit :=
  o ← get_inode_p inum;
  match o with
  | None => mret tt
  | Some ino =>
      if i_type ino =? 0 then mret tt
      else
        let bc := CEIL (i_size ino) BLOCK_SIZE in
        ind ← (if NDIRECT <? bc
               then ind ← read_block (ind_block ino) junk_ind; _ ← free_block_p (ind_block ino); mret ind
               else mret junk_ind);
        _ ← free_blocks_of_p (Z.to_nat bc) ino ind 0;
        free_inode_p cur inum
  end.

End routines.

(** *** extent_server *)

Section server.
Variables (sb : superblock) (e : env).

Definition es_create_p (type : Z) : dprog (Z * Z) :=
  inum ← alloc_inode_p sb (e_junk e) (e_cur e) type; mret (OK, inum).

Definition es_put_p (id : Z) (buf : list Z) : dprog Z :=
  _ ← write_file_p sb (e_junk e) (e_junk_ind e) (e_cur e) (u32 (mask_id id)) (buf ++ 0 :: e_slack e) (s32 (Z.of_nat (length buf)));
  mret OK.

Definition es_get_p (id : Z) : dprog (Z * list Z) :=
  r ← read_file_p sb (e_junk e) (e_junk_ind e) (e_cur e) (u32 (mask_id id)) (None, 0);
  if snd r =? 0 then mret (OK, [])
  else match fst r with
       | None => DFail UncaughtException
       | Some p => buf ← lift (load_bytes p 0 (Z.to_nat (snd r))); mret (OK, buf)
       end.

Definition es_getattr_p (id : Z) : dprog (Z * attr) :=
  a ← im_getattr_p sb (e_junk e) (u32 (mask_id id)); mret (OK, a).

Definition es_remove_p (id : Z) : dprog Z :=
  _ ← remove_file_p sb (e_junk e) (e_junk_ind e) (e_cur e) (u32 (mask_id id)); mret OK.

(** A request, and its reply. *)
Definition serve_p (q : request) : dprog reply :=
  match q with
  | ReqCreate type => r ← es_create_p type; mret (RepId (snd r))
  | ReqPut id buf => _ ← es_put_p id buf; mret RepNone
  | ReqGet id => r ← es_get_p id; mret (RepData (snd r))
  | ReqGetattr id => r ← es_getattr_p id; mret (RepAttr (snd r))
  | ReqRemove id => _ ← es_remove_p id; mret RepNone
  end.

End server.

(** ** Alone *)

Lemma solo_bind {A B} (p : dprog A) (k : A -> dprog B) bm :
  solo (p ≫= k) bm = (r ← solo p bm; solo (k (snd r)) (fst r)).
Proof.
  revert bm. induction p as [a|f|id buf h IH|id buf p IH]; intros bm; [done | done | apply IH |].
  change (solo (DWrite id buf p ≫= k) bm) with (bm ← bm_write_block bm id buf; solo (p ≫= k) bm). cbn [solo].
  destruct (bm_write_block bm id buf); [apply IH | done].
Qed.

Lemma solo_lift {B} (o : outcome B) bm : solo (lift o) bm = (b ← o; mret (bm, b)).
Proof. by destruct o. Qed.

Lemma solo_ret {B} (b : B) bm : solo (mret b) bm = Done (bm, b).
Proof. done. Qed.

Lemma solo_if {B} (b : bool) (p q : dprog B) bm : solo (if b then p else q) bm = if b then solo p bm else solo q bm.
Proof. by destruct b. Qed.

Lemma write_block_sb bm id buf bm' : bm_write_block bm id buf = Done bm' -> bm_sb bm' = bm_sb bm.
Proof. unfold bm_write_block. intros (d & _ & [= <-])%bind_Done_inv. done. Qed.

Lemma solo_sb {B} (p : dprog B) bm bm' b : solo p bm = Done (bm', b) -> bm_sb bm' = bm_sb bm.
Proof.
  revert bm. induction p as [a|f|id buf h IH|id buf p IH]; intros bm; cbn [solo]; [by intros [= <- _] | done | by intros ?%IH |].
  intros (bm1 & Hw & H)%bind_Done_inv. rewrite (IH _ H). by apply write_block_sb in Hw.
Qed.

(** The program is the routine [f], on disks with the superblock [sb]. *)
Definition does {B} (sb : superblock) (p : dprog B) (f : block_manager -> outcome (block_manager * B)) : Prop :=
  forall bm, bm_sb bm = sb -> solo p bm = f bm.

(** ... one that returns nothing. *)
Definition acts (sb : superblock) (p : dprog unit) (f : block_manager -> outcome block_manager) : Prop :=
  does sb p (fun bm => bm ← f bm; mret (bm, tt)).

Lemma does_bind {A B} sb (p : dprog A) f (k : A -> dprog B) bm :
  does sb p f -> bm_sb bm = sb -> solo (p ≫= k) bm = (r ← f bm; solo (k (snd r)) (fst r)).
Proof. intros Hp Hs. by rewrite solo_bind, (Hp bm Hs). Qed.

Lemma does_sb {B} sb (p : dprog B) f bm bm' b : does sb p f -> bm_sb bm = sb -> f bm = Done (bm', b) -> bm_sb bm' = sb.
Proof. intros Hp Hs H. rewrite <- (Hp bm Hs) in H. by rewrite (solo_sb _ _ _ _ H). Qed.

Lemma acts_bind {B} sb p f (k : unit -> dprog B) bm :
  acts sb p f -> bm_sb bm = sb -> solo (p ≫= k) bm = (bm' ← f bm; solo (k tt) bm').
Proof. intros Hp Hs. rewrite (does_bind sb p _ k bm Hp Hs). by destruct (f bm). Qed.

Lemma acts_sb sb p f bm bm' : acts sb p f -> bm_sb bm = sb -> f bm = Done bm' -> bm_sb bm' = sb.
Proof. intros Hp Hs H. apply (does_sb sb p _ bm bm' tt Hp Hs). by rewrite H. Qed.

Lemma read_bind {B} id buf (k : list Z -> dprog B) bm :
  solo (read_block id buf ≫= k) bm = solo (k (bm_read_block bm id buf)) bm.
Proof. done. Qed.

Lemma lift_bind {A B} (o : outcome A) (k : A -> dprog B) bm : solo (lift o ≫= k) bm = (a ← o; solo (k a) bm).
Proof. by destruct o. Qed.

Lemma acts_write sb id buf : acts sb (write_block id buf) (fun bm => bm_write_block bm id buf).
Proof. by intros bm _. Qed.

(** The next part of a program: it has returned, with the same superblock, or
    failed. *)
Ltac first_of o := lazymatch o with ?o' ≫= _ => first_of o' | _ => o end.
Tactic Notation "case_first" ident(E) := match goal with |- ?o = _ => let o' := first_of o in destruct o' eqn:E; [rewrite ?bind_Done, ?solo_ret, ?bind_Done; cbn [fst snd] | done] end.
Ltac lifted := rewrite lift_bind; let E := fresh "E" in case_first E; clear E.
Tactic Notation "acted" open_constr(L) ident(Hs) ident(E) :=
  rewrite (acts_bind _ _ _ _ _ L Hs); cbn beta; case_first E; apply (acts_sb _ _ _ _ _ L Hs) in E.
Tactic Notation "did" open_constr(L) ident(Hs) ident(E) :=
  rewrite (does_bind _ _ _ _ _ L Hs); cbn beta; case_first E;
  match type of E with _ = Done ?r => destruct r end; apply (does_sb _ _ _ _ _ _ L Hs) in E; cbn [fst snd].

Section alone.
Variable sb : superblock.
Variables junk junk_ind : list Z.

Lemma alloc_scan_alone n i buf : does sb (alloc_scan_p n i buf) (fun bm => alloc_scan n bm i buf).
Proof.
  revert i buf. induction n as [|n IH]; intros i buf bm Hs; [done |]. cbn [alloc_scan_p alloc_scan].
  rewrite read_bind. lifted. rewrite solo_if. destruct (_ =? 0); [| by apply IH]. lifted. by acted (acts_write sb _ _) Hs E.
Qed.

Lemma alloc_block_alone : does sb (alloc_block_p sb junk) (alloc_block junk).
Proof. intros bm Hs. unfold alloc_block. rewrite Hs. by apply alloc_scan_alone. Qed.

Lemma free_block_alone id : acts sb (free_block_p junk id) (fun bm => free_block junk bm id).
Proof. intros bm Hs. unfold free_block_p, free_block. rewrite read_bind. lifted. by lifted. Qed.

Lemma inode_slots_alone n cur type i j buf :
  does sb (inode_slots_p sb n cur type i j buf) (fun bm =>
    r ← inode_slots n cur type bm i j buf; mret (match r with Some (bm, inum) => (bm, Some inum) | None => (bm, None) end)).
Proof.
  revert j. induction n as [|n IH]; intros j bm Hs; [done |]. cbn [inode_slots_p inode_slots]. rewrite Hs.
  destruct (_ && _); [by apply IH |]. destruct (INODE_NUM <=? _); [done |]. destruct (_ =? 0); [| by apply IH].
  by acted (acts_write sb _ _) Hs E.
Qed.

Lemma inode_table_scan_alone n cur type i buf :
  does sb (inode_table_scan_p sb n cur type i buf) (fun bm => inode_table_scan n cur type bm i buf).
Proof.
  revert i buf. induction n as [|n IH]; intros i buf bm Hs; [done |]. cbn [inode_table_scan_p inode_table_scan]. rewrite Hs.
  rewrite read_bind, (does_bind _ _ _ _ _ (inode_slots_alone _ _ _ _ _ _) Hs).
  destruct (inode_slots _ _ _ _ _ _ _) as [[[bm1 inum]|]|]; [done | by apply IH | done].
Qed.

Lemma alloc_inode_alone cur type : does sb (alloc_inode_p sb junk cur type) (alloc_inode junk cur type).
Proof. intros bm Hs. unfold alloc_inode. rewrite Hs. exact (inode_table_scan_alone _ cur type 0 junk bm Hs). Qed.

Lemma get_inode_alone inum : does sb (get_inode_p sb junk inum) (fun bm => mret (bm, get_inode junk bm inum)).
Proof. intros bm Hs. unfold get_inode_p, get_inode. rewrite Hs. by destruct (_ || _). Qed.

Lemma put_inode_alone inum ino : acts sb (put_inode_p sb junk inum ino) (fun bm => put_inode junk bm inum ino).
Proof. intros bm Hs. unfold put_inode. by rewrite Hs. Qed.

(** What all routines begin with. *)
Lemma with_inode_alone {B} inum (k : option inode -> dprog B) bm :
  bm_sb bm = sb -> solo (get_inode_p sb junk inum ≫= k) bm = solo (k (get_inode junk bm inum)) bm.
Proof. intros Hs. by rewrite (does_bind _ _ _ _ _ (get_inode_alone inum) Hs). Qed.

Lemma free_inode_alone cur inum : acts sb (free_inode_p sb junk cur inum) (fun bm => free_inode junk cur bm inum).
Proof.
  intros bm Hs. unfold free_inode_p, free_inode. rewrite with_inode_alone by done.
  destruct (get_inode junk bm inum) as [ino|]; [| done]. destruct (_ =? 0); [done |]. by apply put_inode_alone.
Qed.

Lemma read_blocks_alone n ino ind i buf out :
  does sb (read_blocks_p n ino ind i buf out) (fun bm => r ← read_blocks n bm ino ind i buf out; mret (bm, r)).
Proof.
  revert i buf out. induction n as [|n IH]; intros i buf out bm Hs; [done |]. cbn [read_blocks_p read_blocks].
  lifted. rewrite read_bind. lifted. by apply IH.
Qed.

Lemma with_ind_alone {B} (b : bool) id (k : list Z -> dprog B) bm :
  solo ((if b then read_block id junk_ind else mret junk_ind) ≫= k) bm = solo (k (if b then bm_read_block bm id junk_ind else junk_ind)) bm.
Proof. by destruct b. Qed.

Lemma read_file_alone cur inum out : does sb (read_file_p sb junk junk_ind cur inum out) (fun bm => read_file junk junk_ind cur bm inum out).
Proof.
  intros bm Hs. unfold read_file_p, read_file. rewrite with_inode_alone by done.
  destruct (get_inode junk bm inum) as [ino|]; [| done]. destruct (_ =? 0); [done |]. cbv zeta.
  rewrite with_ind_alone, solo_if. destruct (_ =? 0); [done |].
  rewrite (does_bind _ _ _ _ _ (read_blocks_alone _ _ _ _ _ _) Hs). destruct (read_blocks _ _ _ _ _ _ _) as [[buf mem]|]; [| done].
  rewrite !bind_Done. cbn [fst snd]. lifted. rewrite read_bind. lifted. by acted (put_inode_alone _ _) Hs E.
Qed.

Lemma write_blocks_alone n ino ind i buf : acts sb (write_blocks_p n ino ind i buf) (fun bm => write_blocks n bm ino ind i buf).
Proof.
  revert i. induction n as [|n IH]; intros i bm Hs; [done |]. cbn [write_blocks_p write_blocks]. lifted. acted (acts_write sb _ _) Hs E. by apply IH.
Qed.

Lemma free_tail_alone n ino ind i :
  does sb (free_tail_p junk n ino ind i) (fun bm => r ← free_tail junk n bm ino ind i; mret (let '(bm, ino, ind) := r in (bm, (ino, ind)))).
Proof.
  revert ino ind i. induction n as [|n IH]; intros ino ind i bm Hs; [done |]. cbn [free_tail_p free_tail].
  lifted. acted (free_block_alone _) Hs E. lifted. by apply IH.
Qed.

Lemma grow_blocks_alone n ino ind i buf :
  does sb (grow_blocks_p sb junk n ino ind i buf)
    (fun bm => r ← grow_blocks junk n bm ino ind i buf; mret (let '(bm, ino, ind) := r in (bm, (ino, ind)))).
Proof.
  revert ino ind i. induction n as [|n IH]; intros ino ind i bm Hs; [done |]. cbn [grow_blocks_p grow_blocks].
  did alloc_block_alone Hs E. lifted. lifted. acted (acts_write sb _ _) E E1. by apply IH.
Qed.

Lemma free_blocks_of_alone n ino ind i : acts sb (free_blocks_of_p junk n ino ind i) (fun bm => free_blocks_of junk n bm ino ind i).
Proof.
  revert i. induction n as [|n IH]; intros i bm Hs; [done |]. cbn [free_blocks_of_p free_blocks_of].
  lifted. acted (free_block_alone _) Hs E. by apply IH.
Qed.

Lemma remove_file_alone cur inum : acts sb (remove_file_p sb junk junk_ind cur inum) (fun bm => remove_file junk junk_ind cur bm inum).
Proof.
  intros bm Hs. unfold remove_file_p, remove_file. rewrite with_inode_alone by done.
  destruct (get_inode junk bm inum) as [ino|]; [| done]. destruct (_ =? 0); [done |]. cbv zeta.
  destruct (NDIRECT <? _).
  - rewrite solo_bind, read_bind. acted (free_block_alone _) Hs E. acted (free_blocks_of_alone _ _ _ _) E E1. by apply free_inode_alone.
  - rewrite solo_bind, solo_ret, !bind_Done. cbn [fst snd]. acted (free_blocks_of_alone _ _ _ _) Hs E. by apply free_inode_alone.
Qed.

(** The end of write_file when the file grows. *)
Lemma write_file_grow_alone n inum ino ind i buf (fin : inode -> inode) :
  acts sb (r ← grow_blocks_p sb junk n ino ind i buf;
           _ ← (if ind_block (fst r) =? 0 then mret tt else write_block (ind_block (fst r)) (snd r));
           put_inode_p sb junk inum (fin (fst r)))
    (fun bm => r ← grow_blocks junk n bm ino ind i buf;
               let '(bm, ino, ind) := r in
               bm ← (if ind_block ino =? 0 then mret bm else bm_write_block bm (ind_block ino) ind);
               put_inode junk bm inum (fin ino)).
Proof.
  intros bm Hs. rewrite (does_bind _ _ _ _ _ (grow_blocks_alone _ _ _ _ _) Hs).
  destruct (grow_blocks _ _ _ _ _ _ _) as [[[bm1 ino1] ind1]|] eqn:E1; [| done]. rewrite !bind_Done. cbn [fst snd].
  assert (Hs1 : bm_sb bm1 = sb) by (eapply does_sb; [apply grow_blocks_alone | exact Hs | cbn beta; by rewrite E1]).
  destruct (_ =? 0); [rewrite solo_bind, solo_ret, !bind_Done; cbn [fst snd]; by apply put_inode_alone |].
  acted (acts_write sb _ _) Hs1 E. by apply put_inode_alone.
Qed.

(** write_file, by its three cases. *)
Lemma write_file_alone cur inum buf size :
  acts sb (write_file_p sb junk junk_ind cur inum buf size) (fun bm => write_file junk junk_ind cur bm inum buf size).
Proof.
  intros bm Hs. unfold write_file_p, write_file. rewrite with_inode_alone by done.
  destruct (get_inode junk bm inum) as [ino|]; [| done]. destruct (_ =? 0); [done |]. cbv zeta.
  rewrite with_ind_alone. acted (write_blocks_alone _ _ _ _ _) Hs E. destruct (CEIL size BLOCK_SIZE =? _); [by apply put_inode_alone |].
  destruct (CEIL size BLOCK_SIZE <? _).
  - rewrite (does_bind _ _ _ _ _ (free_tail_alone _ _ _ _) E).
    destruct (free_tail _ _ _ _ _ _) as [[[bm1 ino1] ind1]|] eqn:E1; [| done]. rewrite !bind_Done. cbn [fst snd].
    assert (Hs1 : bm_sb bm1 = sb) by (eapply does_sb; [apply free_tail_alone | exact E | cbn beta; by rewrite E1]).
    destruct (_ && _); [rewrite solo_bind; acted (free_block_alone _) Hs1 E2 | rewrite solo_bind, solo_ret, !bind_Done; cbn [fst snd]];
      by apply put_inode_alone.
  - set (fin := fun ino => set_size (set_times ino (u32 cur) (u32 cur)) (u32 size)).
    destruct ((CEIL (i_size ino) BLOCK_SIZE <=? NDIRECT) && _); rewrite solo_bind;
      [did alloc_block_alone E E1; by apply (write_file_grow_alone _ _ _ _ _ _ fin) |].
    rewrite solo_ret, !bind_Done. cbn [fst snd]. by apply (write_file_grow_alone _ _ _ _ _ _ fin).
Qed.

End alone.

(** Without interference the program of a request is what ExtentServer.v says of
    it. *)
Theorem requests_alone e q bm : solo (serve_p (bm_sb bm) e q) bm = serve e q bm.
Proof.
  destruct q as [type|id buf|id|id|id]; cbn [serve_p serve]; rewrite solo_bind.
  - unfold es_create_p, es_create. rewrite (does_bind _ _ _ _ _ (alloc_inode_alone _ _ _ _) eq_refl). by destruct (alloc_inode _ _ _ _).
  - unfold es_put_p, es_put. rewrite (acts_bind _ _ _ _ _ (write_file_alone _ _ _ _ _ _ _) eq_refl). by destruct (write_file _ _ _ _ _ _ _).
  - unfold es_get_p, es_get. rewrite (does_bind _ _ _ _ _ (read_file_alone _ _ _ _ _ _) eq_refl).
    destruct (read_file _ _ _ _ _ _) as [[bm1 [p size]]|]; [| done]. rewrite !bind_Done. cbn [fst snd].
    destruct (size =? 0); [done |]. destruct p as [p|]; [| done]. rewrite lift_bind. by destruct (load_bytes _ _ _).
  - done.
  - unfold es_remove_p, es_remove. rewrite (acts_bind _ _ _ _ _ (remove_file_alone _ _ _ _ _) eq_refl). by destruct (remove_file _ _ _ _ _).
Qed.

(** ** Whatever comes between *)

(** Results that satisfy [Q], whatever blocks of 512 bytes the program reads. *)
Inductive ends {B} (Q : B -> Prop) : dprog B -> Prop :=
| en_ret b : Q b -> ends Q (DRet b)
| en_fail f : ends Q (DFail f)
| en_read id buf k : (forall bs, (length buf = 512%nat -> length bs = 512%nat) -> ends Q (k bs)) -> ends Q (DRead id buf k)
| en_write id buf p : ends Q p -> ends Q (DWrite id buf p).

Lemma ends_bind {A B} (Q : A -> Prop) (R : B -> Prop) p k :
  ends Q p -> (forall a, Q a -> ends R (k a)) -> ends R (p ≫= k).
Proof. intros Hp Hk. induction Hp; [by apply Hk | constructor | by constructor | by constructor]. Qed.

Lemma ends_mono {B} (Q R : B -> Prop) p : ends Q p -> (forall b, Q b -> R b) -> ends R p.
Proof. intros Hp HQ. induction Hp; constructor; auto. Qed.

Lemma ends_any {B} (p : dprog B) : ends (fun _ => True) p.
Proof. induction p; constructor; auto. Qed.

Lemma ends_lift {B} (o : outcome B) : ends (fun b => o = Done b) (lift o).
Proof. destruct o; by constructor. Qed.

Lemma ends_read id buf : length buf = 512%nat -> ends (fun bs => length bs = 512%nat) (read_block id buf).
Proof. intros H. constructor. intros bs Hb. constructor. auto. Qed.

(** ** Types *)

(** The local arrays of the server's routines. *)
Definition env_typed (e : env) : Prop := length (e_junk e) = 512%nat /\ length (e_junk_ind e) = 512%nat.

Definition attr_typed (a : attr) : Prop :=
  is_u32 (a_type a) /\ is_u32 (a_atime a) /\ is_u32 (a_mtime a) /\ is_u32 (a_ctime a) /\ is_u32 (a_size a).

Lemma read_block_length bm id buf : bm_ok bm -> length buf = 512%nat -> length (bm_read_block bm id buf) = 512%nat.
Proof. intros [Hd _] Hb. unfold bm_read_block, disk_read_block. destruct (_ || _); [done | apply Hd]. Qed.

Lemma write_block_ok bm id buf bm' : bm_write_block bm id buf = Done bm' -> bm_ok bm -> bm_ok bm'.
Proof.
  intros H [Hd Hs]. unfold bm_write_block in H. apply bind_Done_inv in H as (d & Hw & H). injection H as <-.
  split; [| done]. cbn [bm_d]. unfold disk_write_block in Hw. destruct (_ || _); [by injection Hw as <- |].
  apply bind_Done_inv in Hw as (bs & Hl & Hw). injection Hw as <-. apply disk_ok_insert; [done |].
  unfold load_bytes in Hl. destruct (_ && _) eqn:E; [| done]. injection Hl as <-. apply length_sub.
  apply andb_true_iff in E as [_ E%Z.leb_le]. change (Z.to_nat BLOCK_SIZE) with 512%nat in *. lia.
Qed.

Lemma slot_inode_ok buf n : length buf = 512%nat -> inode_ok (load_inode buf (n mod IPB)).
Proof. intros Hb. apply load_inode_ok; [done |]. change IPB with 3. apply Z.mod_pos_bound. lia. Qed.

Lemma inode_slots_ends sb n cur type i j buf :
  0 <= i -> 0 <= j -> ends (fun r => forall inum, r = Some inum -> 0 <= inum < INODE_NUM) (inode_slots_p sb n cur type i j buf).
Proof.
  revert j. induction n as [|n IH]; intros j Hi Hj0; cbn [inode_slots_p]; [by constructor |].
  destruct (_ && _); [apply IH; lia |]. destruct (Z.leb_spec INODE_NUM (j + i * IPB)); [by constructor; intros ? [= <-] |].
  destruct (i_type _ =? 0); [| apply IH; lia]. constructor. constructor. intros ? [= <-]. change IPB with 3 in *. lia.
Qed.

Lemma inode_table_scan_ends sb n cur type i buf : 0 <= i -> ends (fun inum => 0 <= inum < INODE_NUM) (inode_table_scan_p sb n cur type i buf).
Proof.
  revert i buf. induction n as [|n IH]; intros i buf Hi; cbn [inode_table_scan_p]; [by constructor |].
  constructor. intros bs _. change (ends (fun inum => 0 <= inum < INODE_NUM) (inode_slots_p sb (Z.to_nat IPB) cur type i 0 bs ≫=
    (fun r => match r with Some inum => mret inum | None => inode_table_scan_p sb n cur type (i + 1) bs end))).
  eapply ends_bind; [by apply inode_slots_ends |]. intros [inum|] Hr; [constructor; by apply Hr | apply IH; lia].
Qed.

(** The number of blocks of a file. *)
Lemma size_blocks n : is_u32 n -> n <= 512 * CEIL n BLOCK_SIZE.
Proof.
  intros Hn. unfold CEIL. change BLOCK_SIZE with 512. unfold is_u32 in Hn. rewrite Z.quot_div_nonneg, Z.rem_mod_nonneg by lia.
  pose proof (Z.div_mod n 512). destruct (Z.eqb_spec (n mod 512) 0); [lia |]. pose proof (Z.mod_pos_bound n 512). lia.
Qed.

Lemma BLK_bounded ino ind i b : length ind = 512%nat -> BLK ino ind i = Done b -> i < 160.
Proof.
  intros Hind Hb. unfold BLK in Hb. change NDIRECT with 32 in *. destruct (Z.ltb_spec i 32); [lia |].
  unfold load32, load_bytes in Hb. apply bind_Done_inv in Hb as (x & Hx & _). destruct (_ && _) eqn:E; [| done].
  apply andb_true_iff in E as [_ E%Z.leb_le]. lia.
Qed.

Section types.
Variable sb : superblock.
Variables junk junk_ind : list Z.
Hypothesis Hj : length junk = 512%nat.
Hypothesis Hji : length junk_ind = 512%nat.

Lemma get_inode_ends n : ends (fun o => forall ino, o = Some ino -> inode_ok ino) (get_inode_p sb junk n).
Proof.
  unfold get_inode_p. destruct (_ || _); [by constructor |]. eapply ends_bind; [by apply ends_read |]. intros buf Hb.
  constructor. intros ino. destruct (_ =? 0); [done |]. intros [= <-]. by apply slot_inode_ok.
Qed.

(** What is read is no longer than the largest file: a longer one has blocks
    the indirect block has no place for. *)
Lemma read_file_ends cur n : ends (fun r => 0 <= snd r <= 81920) (read_file_p sb junk junk_ind cur n (None, 0)).
Proof.
  unfold read_file_p. eapply ends_bind; [apply get_inode_ends |]. intros [ino|] Hino; [| by constructor].
  destruct (_ =? 0); [by constructor |]. cbv zeta. specialize (Hino ino eq_refl).
  apply (ends_bind (fun ind => length ind = 512%nat)); [destruct (_ <? _); [by apply ends_read | by constructor] |]. intros ind Hind.
  destruct (Z.eqb_spec (s32 (i_size ino)) 0) as [Hz|Hz]; [constructor; cbn [snd]; lia |].
  eapply ends_bind; [apply ends_any |]. intros [buf mem] _. eapply ends_bind; [apply ends_lift |]. intros b Hb.
  assert (Hn : 0 <= s32 (i_size ino) <= 81920).
  { pose proof (BLK_bounded ino ind _ b Hind Hb). destruct Hino as (_ & Hsz & _). pose proof (size_blocks _ Hsz). unfold is_u32 in Hsz.
    rewrite s32_id; [lia |]. unfold is_s32. lia. }
  apply (ends_bind (fun _ => True)); [apply ends_any |]. intros buf' _. apply (ends_bind (fun _ => True)); [apply ends_any |]. intros mem' _.
  apply (ends_bind (fun _ => True)); [apply ends_any |]. intros _ _. by constructor.
Qed.

End types.

(** Whatever other threads do to the disk in between, a procedure that ends
    returns OK and a result of its type. *)
Section procedures.
Variables (sb : superblock) (e : env).
Hypothesis He : env_typed e.

Lemma es_create_ends type : ends (fun r => fst r = OK /\ 0 <= snd r < INODE_NUM) (es_create_p sb e type).
Proof. eapply ends_bind; [by apply inode_table_scan_ends |]. intros inum Hi. by constructor. Qed.

Lemma es_put_ends id buf : ends (fun r => r = OK) (es_put_p sb e id buf).
Proof. apply (ends_bind (fun _ => True)); [apply ends_any | by constructor]. Qed.

Lemma es_get_ends id : ends (fun r => fst r = OK /\ Z.of_nat (length (snd r)) <= 81920) (es_get_p sb e id).
Proof.
  destruct He as [Hj Hji]. eapply ends_bind; [by apply read_file_ends |]. intros [p size] Hb. cbn [fst snd] in *.
  destruct (size =? 0); [constructor; cbn; lia |]. destruct p as [p|]; [| constructor].
  eapply ends_bind; [apply ends_lift |]. intros bs Hl. constructor. split; [done |]. cbn [snd]. unfold load_bytes in Hl.
  destruct (_ && _); [| done]. injection Hl as <-. unfold sub. rewrite length_take. lia.
Qed.

Lemma es_getattr_ends id : ends (fun r => fst r = OK /\ attr_typed (snd r)) (es_getattr_p sb e id).
Proof.
  destruct He as [Hj Hji]. apply (ends_bind attr_typed); [| intros a Ha; by constructor].
  eapply ends_bind; [by apply ends_read |]. intros bs Hb. constructor.
  destruct (slot_inode_ok bs (u32 (mask_id id)) Hb) as (_ & H1 & H2 & H3 & H4 & _).
  split_and!; cbn [a_type a_atime a_mtime a_ctime a_size]; try done. apply u32_range.
Qed.

Lemma es_remove_ends id : ends (fun r => r = OK) (es_remove_p sb e id).
Proof. apply (ends_bind (fun _ => True)); [apply ends_any | by constructor]. Qed.
End procedures.
