(* ===== verification/RpcService.v ===== *)
(** * Services behind RPC

    What the services of a server have in common: methods with the types of
    their arguments and results, the table of registered procedures, and a
    typed call of one of them through the system of RpcSystem.v.  ExtentRpc.v
    and RpcTest.v are such services. *)

From S2P Require Import Prelude Marshall RpcWindow Connection RpcServer RpcClient RpcSystem.
Import Client Server Timer.

Section service.
Context {A : Type}.
Variable fill : nat -> Z.
Variable Inv : A -> Prop.

Lemma int_fits x : is_s32 x -> fits cd_int x.
Proof. intros H. split; [done |]. cbn [c_enc cd_int]. rewrite length_be32. unfold MSG_LIMIT. lia. Qed.

Lemma uint_fits x : is_u32 x -> fits cd_uint x.
Proof. intros H. split; [done |]. cbn [c_enc cd_uint]. rewrite length_be32. unfold MSG_LIMIT. lia. Qed.

Lemma ull_fits x : 0 <= x < 2 ^ 64 -> fits cd_ulonglong x.
Proof. intros H. split; [done |]. cbn [c_enc cd_ulonglong]. rewrite length_app, !length_be32. unfold MSG_LIMIT. lia. Qed.

Lemma string_fits s : Z.of_nat (length s) < 2 ^ 29 -> fits cd_string s.
Proof.
  intros H. split; cbn [c_wf c_enc cd_string]; [lia |]. rewrite length_app, length_be32. unfold MSG_LIMIT. lia.
Qed.

(** A method that runs under one mutex. *)
Lemma atomic_typed {X Y} (cy : codec Y) (meth : X -> A -> outcome (A * Y * Z)) :
  (forall x a a' y r, Inv a -> meth x a = Done (a', y, r) -> fits cy y /\ is_s32 r /\ Inv a') ->
  typed_method Inv cy (fun x => atomically (meth x)).
Proof. intros H x. apply hsafe_atomically. intros a a' y b Ha Hm. by destruct (H x a a' y b Ha Hm) as (? & ? & ?). Qed.

Lemma reg_inv {X Y} proc (cx : codec X) (cy : codec Y) meth (s s' : rpcs A) :
  reg fill proc cx cy meth s = Done s' -> procs_ s' = <[proc := reg_fn fill cx cy meth]> (procs_ s) /\ reg1 proc (reg_fn fill cx cy meth) s = Done s' /\
  app s' = app s /\ reply_window_ s' = reply_window_ s /\ executed s' = executed s.
Proof.
  intros H. assert (H' := H). unfold reg, reg1 in H. apply bind_Done_inv in H as ([] & _ & H). injection H as <-. done.
Qed.

(** A server whose procedures are registered and that has served nothing. *)
Definition started (procs : gmap Z (handler A)) (a : A) (s : rpcs A) : Prop :=
  serving fill s [] /\ procs_ s = procs /\ app s = a /\ reply_window_ s = ∅ /\ executed s = [].

Lemma started_new nonce count a s :
  rpcs_new fill nonce count a = Done s -> started {[bind := reg_fn fill cd_int cd_int (rpcbind nonce)]} a s.
Proof.
  intros H. pose proof (sv_new fill _ _ _ _ H) as Hs. unfold rpcs_new in H. apply reg_inv in H as (P & _ & A0 & W & X).
  split_and!; [done | | done | done | done]. rewrite P. apply insert_empty.
Qed.

Lemma started_reg {X Y} proc (cx : codec X) (cy : codec Y) meth procs a s s' :
  started procs a s -> reg fill proc cx cy meth s = Done s' -> started (<[proc := reg_fn fill cx cy meth]> procs) a s'.
Proof.
  intros (S0 & P0 & A0 & W0 & X0) (P & S1 & A1 & W1 & X1)%reg_inv.
  split_and!; [by eapply sv_reg | by rewrite P, P0 | congruence | congruence | congruence].
Qed.

(** Such a server and a new client are a system at its start. *)
Lemma started_start procs a s rnd lossy :
  started procs a s -> u32 rnd <> 0 -> handlers_ok fill Inv procs -> Inv a -> start fill Inv (Sys (rpcc_new true rnd lossy) ∅ (Server s []) [] [] []).
Proof.
  intros (Hs & Hp & Ha & Hw & Hx) Hrnd Hok Hinv. apply start_intro; [done | done | | | |].
  - by rewrite Hp.
  - by rewrite Ha.
  - unfold window. by rewrite Hw.
  - unfold executed_of. by rewrite Hx.
Qed.

(** A call whose procedure, codecs and method are given. *)
Lemma typed_request {X Y} (cx : codec X) (cy : codec Y) (meth : X -> hprog A (Y * Z)) x st t tr ret u :
  reach fill Inv st -> threads st !! t = Some tr -> t_pc tr = Returned ret u -> 0 <= ret ->
  procs_ (node (srv st)) !! s32 (t_proc tr) = Some (reg_fn fill cx cy meth) -> fits cx x -> call_args fill cx x = Done (t_args tr) ->
  typed_method Inv cy meth ->
  exists r y, r ∈ runs st /\ run_xid r = k_xid (t_call tr) /\ hexec (meth x) (run_steps r) (y, ret) /\
    call_m cy ret u = Done (ret, Some y) /\ (forall r', r' ∈ runs st -> run_xid r' = k_xid (t_call tr) -> r' = r) /\
    Forall (fun p => Inv (fst p)) (run_steps r).
Proof.
  intros Hr Ht Hpc Hret Hp Hx Hargs Hm. unfold call_args in Hargs. destruct (marshall_new_done fill) as (m0 & _ & Hm0 & _).
  rewrite Hm0, bind_Done in Hargs. by apply (typed_call_run fill Inv cx cy meth x m0 st t tr ret u).
Qed.

(** A method that runs under one mutex takes one step. *)
Lemma atomic_request {X Y} (cx : codec X) (cy : codec Y) (meth : X -> A -> outcome (A * Y * Z)) x st t tr ret u :
  reach fill Inv st -> threads st !! t = Some tr -> t_pc tr = Returned ret u -> 0 <= ret ->
  procs_ (node (srv st)) !! s32 (t_proc tr) = Some (reg_fn fill cx cy (fun x => atomically (meth x))) ->
  fits cx x -> call_args fill cx x = Done (t_args tr) -> typed_method Inv cy (fun x => atomically (meth x)) ->
  exists r a a' y, r ∈ runs st /\ run_xid r = k_xid (t_call tr) /\ run_steps r = [(a, a')] /\ meth x a = Done (a', y, ret) /\
    call_m cy ret u = Done (ret, Some y) /\ (forall r', r' ∈ runs st -> run_xid r' = k_xid (t_call tr) -> r' = r) /\ Inv a.
Proof.
  intros Hr Ht Hpc Hret Hp Hx Hargs Hm.
  destruct (typed_request cx cy _ x st t tr ret u Hr Ht Hpc Hret Hp Hx Hargs Hm) as (r & y & Hin & Hxr & Hex & Hc & Hun & Hi).
  apply hexec_atomically in Hex as (a & a' & Hst & Hy). rewrite Hst in Hi. apply Forall_cons in Hi as [Ha _]. by exists r, a, a', y.
Qed.

End service.

(** ** A server that was replaced *)

Section replaced.
Context {A : Type}.
Variable fill : nat -> Z.

Lemma bare_reply_done h : exists bytes, bare_reply fill h = Done bytes.
Proof.
  unfold bare_reply. destruct (marshall_new_done fill) as (m & b & -> & Hb & Hind). rewrite bind_Done.
  rewrite (pack_reply_header_done fill h m b Hb), bind_Done.
  destruct (framed_parts m b (reply_header_bytes h) Hb) as [H _]; [rewrite Hind; unfold MSG_LIMIT; lia | cbn; lia |]. by eexists.
Qed.

(** What call1 prepares: the message with the nonces of the client and of the
    server it is bound to, and the entry in the table of calls. *)
Lemma call1_begin_message t proc req to now c c' k :
  built req -> is_u32 (clt_nonce_ c) -> is_u32 (srv_nonce_ c) -> call1_begin fill t proc req to now c = Done (c', inr k) ->
  (exists u h, unpack_req_header (unmarshall_new (frame (k_req k)) (pdu_len (frame (k_req k)))) = Done (u, h) /\
     u_ok u = true /\ q_srv_nonce h = srv_nonce_ c /\ q_xid h = s32 (xid_ c)) /\
  calls_ c' = <[s32 (xid_ c) := t]> (calls_ c) /\ callers c' = <[t := Caller (xid_ c) unmarshall_empty 0 false]> (callers c).
Proof.
  intros (b & Hb & Hind) Hn Hs H. unfold call1_begin in H. destruct (_ || _); [done |]. destruct (destroy_wait_ c); [done |].
  apply bind_Done_inv in H as (f & _ & H). cbn [clt_nonce_ srv_nonce_ set_calls set_xid] in H.
  destruct (request_on_wire fill (ReqHeader (s32 (xid_ c)) (s32 proc) (clt_nonce_ c) (srv_nonce_ c) (s32 f)) req b Hb Hind)
    as (m' & bytes & u & Hpack & Hmsg & Hun & Hat).
  { split_and!; try apply s32_range; done. }
  rewrite Hpack, bind_Done, Hmsg, bind_Done in H. apply bind_Done_inv in H as (fin & _ & H). injection H as <- <-.
  cbn [k_req calls_ callers set_calls set_xid]. split; [| done].
  eexists u, _. split_and!; [exact Hun | by destruct Hat as (? & _ & ? & _) | done | done].
Qed.

(** C18: a server that took the place of the one a client is bound to runs
    nothing for that client.  It answers each of its requests with
    oldsrv_failure, and the answer ends the call with that error. *)
Theorem replaced_server_detected t proc req to now c c' k view z x (s : rpcs A) :
  built req -> is_u32 (clt_nonce_ c) -> is_u32 (srv_nonce_ c) -> srv_nonce_ c <> 0 -> srv_nonce_ c <> nonce_ s ->
  call1_begin fill t proc req to now c = Done (c', inr k) ->
  exists bytes c2,
    job_step fill view z (Queued x (frame (k_req k)) (pdu_len (frame (k_req k)))) s = Done (Some (s, None, [(x, bytes)])) /\
    client_got_pdu (frame bytes) (pdu_len (frame bytes)) c' = Done c2 /\
    (exists c3 u, call1_end t k c2 = Done (c3, oldsrv_failure, u)) /\
    (forall k' c3 ret u, call1_end t k' c2 = Done (c3, ret, u) -> ret = oldsrv_failure).
Proof.
  intros Hreq Hn Hs H0 Hne Hbeg. assert (Hch : k_ch k = None).
  { unfold call1_begin in Hbeg. destruct (_ || _); [done |]. destruct (destroy_wait_ c); [done |].
    do 4 (apply bind_Done_inv in Hbeg as (? & _ & Hbeg)). by injection Hbeg as _ <-. }
  destruct (call1_begin_message t proc req to now c c' k Hreq Hn Hs Hbeg) as ((u & h & Hun & Hok & Hsn & Hx) & Hcalls & Hcallers).
  destruct (bare_reply_done (ReplyHeader (q_xid h) oldsrv_failure)) as [bytes Hb].
  assert (Hb' := Hb). rewrite Hx in Hb'. apply bare_reply_header in Hb' as (u0 & Hun0 & Hok0); [| apply s32_range | done].
  eexists bytes, _. split_and!.
  - cbn [job_step]. unfold enter. rewrite Hun, bind_Done, Hok. cbn [negb].
    rewrite Hsn, (proj2 (Z.eqb_neq _ _) H0), (proj2 (Z.eqb_neq _ _) Hne), Hb. done.
  - unfold client_got_pdu. rewrite Hun0, bind_Done, Hok0. cbn [negb p_xid calls_ callers set_window].
    rewrite Hcalls, lookup_insert_eq, Hcallers, lookup_insert_eq. reflexivity.
  - unfold call1_end. cbn [callers set_calls]. rewrite lookup_insert_eq, Hch. cbn [done_ intret decref_opt]. by eexists _, _.
  - intros k' c3 ret u'. unfold call1_end. cbn [callers set_calls]. rewrite lookup_insert_eq. cbn [done_ intret un].
    intros H. apply bind_Done_inv in H as (c4 & _ & H). by injection H as _ <- _.
Qed.
End replaced.

Definition demo_bound : rpcc := set_bind 76 (rpcc_new true 5 0).

Lemma replaced_server_detected_witness :
  match call_args demo_fill cd_int 23 with
  | Done req =>
      match call1_begin demo_fill 0 9 req to_max (Timespec 10 0) demo_bound with
      | Done (c', inr k) => exists bytes,
          job_step demo_fill demo_view 0 (Queued 7 (frame (k_req k)) (pdu_len (frame (k_req k)))) demo_server =
            Done (Some (demo_server, None, [(7, bytes)]))
      | _ => False
      end
  | Fault _ => False
  end.
Proof.
  destruct (call_args demo_fill cd_int 23) as [req|] eqn:Hreq; [| discriminate Hreq].
  assert (Hok : match call1_begin demo_fill 0 9 req to_max (Timespec 10 0) demo_bound with Done (_, inr _) => True | _ => False end).
  { injection Hreq as <-. vm_compute. exact I. }
  destruct (call1_begin demo_fill 0 9 req to_max (Timespec 10 0) demo_bound) as [[c' [e|k]]|] eqn:Hbeg; [destruct Hok | | destruct Hok].
  destruct (replaced_server_detected demo_fill 0 9 req to_max (Timespec 10 0) demo_bound c' k demo_view 0 7 demo_server) as (bytes & _ & H & _).
  - apply builtb_built. injection Hreq as <-. reflexivity.
  - split; [discriminate | reflexivity].
  - split; [discriminate | reflexivity].
  - discriminate.
  - discriminate.
  - exact Hbeg.
  - exists bytes. exact H.
Defined.
