(* ===== verification/LockRpc.v ===== *)
(** * The lock server behind RPC (src/lock_smain.cc, src/lock_server_cache.cc)

    The caching lock server of LockServer.v, registered with the RPC server as
    its main program does.  acquire and release do their work under the mutex of
    the server, and then wait for a call of their own to a client, a revoke or a
    retry: as handlers they have one step on the state of the server, and then
    take the results of their calls from outside.

    The theorem is what the lock protocol of LockProtocol.v takes for granted:
    a request of a client is one transition of the lock it is about, and of no
    other lock, at one moment between the call and its return, although messages
    are lost, repeated and reordered, and although the handler blocks. *)

From S2P Require Import Prelude Marshall RpcWindow RpcServer RpcClient RpcSystem RpcService LockServer.
Import Client Server Timer.

(** ** lock_protocol *)

Definition proc_acquire : Z := 0x7001.
Definition proc_release : Z := 0x7002.
Definition proc_stat : Z := 0x7003.

(** The std::string of some bytes. *)
Definition string_of (b : list Z) : string := String.string_of_list_ascii ((fun z => Ascii.ascii_of_nat (Z.to_nat z)) <$> b).

(** ** The methods *)

Definition assert_then {A B} (c : bool) (p : hprog A B) : hprog A B :=
  if c then p else HStep (fun _ => Fault AssertFailed).

(** [int &] results that are not set have any value. *)
Definition unset {A} (ret : Z) : hprog A (Z * Z) := HEnv (fun r => HRet (s32 r, ret)).

(** [handle h(dest); clrpc = h.safebind(); assert(clrpc != NULL);] *)
Definition bound {A B} (p : hprog A B) : hprog A B := HEnv (fun clrpc => assert_then (negb (clrpc =? 0)) p).

Definition prog_acquire (x : Z * list Z) : hprog Cache.lock_server_cache (Z * Z) :=
  HStep (fun s =>
    a ← Cache.acquire (fst x) (string_of (snd x)) s;
    let '(s, ret, revoke) := a in
    mret (Some (s,
      match revoke with
      | None => unset ret
      | Some dest => bound (HEnv (fun r => assert_then (r =? RLOCK_OK) (unset ret)))
      end))).

Definition prog_release (x : Z * list Z) : hprog Cache.lock_server_cache (Z * Z) :=
  HStep (fun s =>
    a ← Cache.release (fst x) (string_of (snd x)) s;
    let '(s, ret, retry) := a in
    mret (Some (s,
      match retry with
      | None => unset ret
      | Some dest => bound (HEnv (fun _ => unset ret))
      end))).

Definition prog_stat (lid : Z) : hprog Cache.lock_server_cache (Z * Z) :=
  HStep (fun s => mret (Some (s, HRet (snd (Cache.stat s), fst (Cache.stat s))))).

Definition cd_lock : codec (Z * list Z) := cd_pair cd_ulonglong cd_string.

Section rpc.
Variable fill : nat -> Z.

(** The main program, up to its endless loop. *)
Definition lock_smain (nonce count : Z) (a : Cache.lock_server_cache) : outcome (rpcs Cache.lock_server_cache) :=
  s ← rpcs_new fill nonce count a;
  s ← reg fill proc_stat cd_ulonglong cd_int prog_stat s;
  s ← reg fill proc_release cd_lock cd_int prog_release s;
  reg fill proc_acquire cd_lock cd_int prog_acquire s.

(** nacquire is an int. *)
Definition server_typed (s : Cache.lock_server_cache) : Prop := is_s32 (Cache.nacquire s).

(** ** What the methods do *)

Lemma hexec_unset {A} ret tr y r : hexec (A := A) (unset ret) tr (y, r) -> tr = [] /\ r = ret.
Proof. intros H. inversion H; subst. inversion H1; subst. done. Qed.

Lemma hexec_assert {A B} c (p : hprog A B) tr b : hexec (assert_then c p) tr b -> hexec p tr b.
Proof. destruct c; [done |]. intros H. by inversion H. Qed.

Lemma hexec_env {A B} (k : Z -> hprog A B) tr b : hexec (HEnv k) tr b -> exists z, hexec (k z) tr b.
Proof. intros H. inversion H; subst. eauto. Qed.

Lemma hexec_bound {A B} (p : hprog A B) tr b : hexec (bound p) tr b -> hexec p tr b.
Proof. intros [z H%hexec_assert]%hexec_env. done. Qed.

(** One step on the state, which is acquire of LockServer.v. *)
Lemma hexec_acquire x tr y ret :
  hexec (prog_acquire x) tr (y, ret) ->
  exists s s' revoke, tr = [(s, s')] /\ Cache.acquire (fst x) (string_of (snd x)) s = Done (s', ret, revoke).
Proof.
  intros H. inversion H as [|f s s' p tr' b' Hf Hp|]; subst. apply bind_Done_inv in Hf as ([[s1 ret1] rv] & Ha & Hf). injection Hf as <- <-.
  exists s, s1, rv. destruct rv as [dest|].
  - apply hexec_bound, hexec_env in Hp as [r Hp%hexec_assert]. apply hexec_unset in Hp as [-> ->]. done.
  - apply hexec_unset in Hp as [-> ->]. done.
Qed.

Lemma hexec_release x tr y ret :
  hexec (prog_release x) tr (y, ret) ->
  exists s s' retry, tr = [(s, s')] /\ Cache.release (fst x) (string_of (snd x)) s = Done (s', ret, retry).
Proof.
  intros H. inversion H as [|f s s' p tr' b' Hf Hp|]; subst. apply bind_Done_inv in Hf as ([[s1 ret1] rv] & Ha & Hf). injection Hf as <- <-.
  exists s, s1, rv. destruct rv as [dest|].
  - apply hexec_bound, hexec_env in Hp as [r Hp]. apply hexec_unset in Hp as [-> ->]. done.
  - apply hexec_unset in Hp as [-> ->]. done.
Qed.

(** Only the entry of the lock changes. *)
Definition one_entry (lid : Z) (s s' : Cache.lock_server_cache) : Prop :=
  Cache.nacquire s' = Cache.nacquire s /\ forall lid', lid' <> lid -> Cache.entry lid' s' = Cache.entry lid' s.

Lemma insert_one lid e s : one_entry lid s (Cache.LockServerCache (Cache.nacquire s) (<[lid := e]> (Cache.lock_states_server s))).
Proof. split; [done |]. intros lid' Hne. unfold Cache.entry. cbn [Cache.lock_states_server]. by rewrite lookup_insert_ne. Qed.

Lemma acquire_entry_ret cid e e' ret rv : Cache.acquire_entry cid e = Done (e', ret, rv) -> ret = LP.OK \/ ret = LP.RETRY.
Proof.
  unfold Cache.acquire_entry. destruct (Cache.state e).
  - intros H. apply bind_Done_inv in H as (? & _ & H). injection H as <- <- <-. by left.
  - intros H. do 2 apply bind_Done_inv in H as (? & _ & H). destruct (Cache.send_rpc _); injection H as <- <- <-; by right.
  - intros H. apply bind_Done_inv in H as (? & _ & H). destruct (bool_decide _); injection H as <- <- <-; [by left | by right].
Qed.

Lemma acquire_one lid cid s s' ret rv :
  Cache.acquire lid cid s = Done (s', ret, rv) ->
  Cache.acquire_entry cid (Cache.entry lid s) = Done (Cache.entry lid s', ret, rv) /\ one_entry lid s s' /\ (ret = LP.OK \/ ret = LP.RETRY).
Proof.
  unfold Cache.acquire. intros H. apply bind_Done_inv in H as ([[e r0] rv0] & He & H). injection H as <- <- <-.
  split_and!; [| apply insert_one | by eapply acquire_entry_ret]. unfold Cache.entry at 2. cbn [Cache.lock_states_server]. by rewrite lookup_insert_eq.
Qed.

Lemma release_one lid cid s s' ret rt :
  Cache.release lid cid s = Done (s', ret, rt) ->
  Cache.release_entry cid (Cache.entry lid s) = Done (Cache.entry lid s', rt) /\ one_entry lid s s' /\ ret = LP.OK.
Proof.
  unfold Cache.release. intros H. apply bind_Done_inv in H as ([e rt0] & He & H). injection H as <- <- <-.
  split_and!; [| apply insert_one | done]. unfold Cache.entry at 2. cbn [Cache.lock_states_server fst]. by rewrite lookup_insert_eq.
Qed.

(** ** The methods keep the types *)

Lemma unset_safe Inv ret : is_s32 ret -> hsafe (A := Cache.lock_server_cache) Inv (fun yb => fits cd_int (fst yb) /\ is_s32 (snd yb)) (unset ret).
Proof. intros Hr. constructor. intros z. constructor. split; [apply int_fits, s32_range | done]. Qed.

Lemma assert_safe {A B} (Inv : A -> Prop) (Q : B -> Prop) c p : hsafe Inv Q p -> hsafe Inv Q (assert_then c p).
Proof. intros H. destruct c; [done |]. by constructor. Qed.

Lemma bound_safe {A B} (Inv : A -> Prop) (Q : B -> Prop) p : hsafe Inv Q p -> hsafe Inv Q (bound p).
Proof. intros H. constructor. intros z. by apply assert_safe. Qed.

Lemma acquire_typed : typed_method server_typed cd_int prog_acquire.
Proof.
  intros x. constructor; intros s s' p Hs Hf; apply bind_Done_inv in Hf as ([[s1 ret] rv] & Ha & Hf); injection Hf as <- <-;
    apply acquire_one in Ha as (_ & [Hn _] & Hret).
  - unfold server_typed. by rewrite Hn.
  - assert (is_s32 ret) by (by destruct Hret as [->| ->]). destruct rv; [| by apply unset_safe].
    apply bound_safe. constructor. intros z. by apply assert_safe, unset_safe.
Qed.

Lemma release_typed : typed_method server_typed cd_int prog_release.
Proof.
  intros x. constructor; intros s s' p Hs Hf; apply bind_Done_inv in Hf as ([[s1 ret] rv] & Ha & Hf); injection Hf as <- <-;
    apply release_one in Ha as (_ & [Hn _] & ->).
  - unfold server_typed. by rewrite Hn.
  - destruct rv; [| by apply unset_safe]. apply bound_safe. constructor. intros z. by apply unset_safe.
Qed.

Lemma stat_typed : typed_method server_typed cd_int prog_stat.
Proof.
  intros x. constructor; intros s s' p Hs Hf; injection Hf as <- <-; [done |]. constructor. split; [by apply int_fits | done].
Qed.

(** ** The server *)

Definition lock_procs (nonce : Z) : gmap Z (handler Cache.lock_server_cache) :=
  <[proc_acquire := reg_fn fill cd_lock cd_int prog_acquire]> (<[proc_release := reg_fn fill cd_lock cd_int prog_release]>
  (<[proc_stat := reg_fn fill cd_ulonglong cd_int prog_stat]> {[bind := reg_fn fill cd_int cd_int (rpcbind nonce)]})).

Lemma lock_procs_ok nonce : handlers_ok fill server_typed (lock_procs nonce).
Proof.
  intros p f Hf. unfold lock_procs in Hf. rewrite !lookup_insert_Some, lookup_singleton_Some in Hf.
  destruct Hf as [[_ <-]|[_ [[_ <-]|[_ [[_ <-]|[_ [_ <-]]]]]]]; apply reg_fn_ok;
    [apply acquire_typed | apply release_typed | apply stat_typed | apply rpcbind_typed].
Qed.

Lemma lock_smain_started nonce count a s : lock_smain nonce count a = Done s -> started fill (lock_procs nonce) a s.
Proof.
  intros H. unfold lock_smain in H. apply bind_Done_inv in H as (s0 & S0%started_new & H).
  do 2 (apply bind_Done_inv in H as (? & S1 & H); apply (started_reg fill _ _ _ _ _ _ _ _ S0) in S1; clear S0; rename S1 into S0).
  by apply (started_reg fill _ _ _ _ _ _ _ _ S0) in H.
Qed.

Definition lock_system (st : @sys Cache.lock_server_cache) : Prop :=
  reach fill server_typed st /\ exists nonce, procs_ (node (srv st)) = lock_procs nonce.

(** ** A remote call of the lock service *)

Inductive lock_request := Acquire | Release.
Definition lock_proc (q : lock_request) : Z := match q with Acquire => proc_acquire | Release => proc_release end.

(** What a request does to its lock, and what it answers. *)
Definition transition (q : lock_request) (cid : string) (e e' : Cache.lock_state_server) (ret : Z) : Prop :=
  match q with
  | Acquire => exists revoke, Cache.acquire_entry cid e = Done (e', ret, revoke) /\ (ret = LP.OK \/ ret = LP.RETRY)
  | Release => exists retry, Cache.release_entry cid e = Done (e', retry) /\ ret = LP.OK
  end.

Lemma lock_fits lid cid : 0 <= lid < 2 ^ 64 -> Z.of_nat (length cid) < 2 ^ 20 -> fits cd_lock (lid, cid).
Proof.
  intros Hid Hl. split; [split; cbn [fst snd c_wf cd_ulonglong cd_string]; [done | lia] |].
  cbn [c_enc cd_lock cd_pair cd_ulonglong cd_string fst snd]. rewrite !length_app, !length_be32. unfold MSG_LIMIT. lia.
Qed.

(** C5: a call of the lock service is one transition of its lock.  If a call of
    acquire or release returns without an error of the RPC layer, then the
    server has run the request exactly once; the run has changed the state of
    the server in one step, which is the transition of the protocol on the
    entry of the lock for the client of the call, and no other entry; and the
    call returns the answer of that transition.  This holds whatever messages
    are lost, repeated or reordered, whatever other clients do, and although
    the handler may wait for a call to another client before it answers. *)
Theorem remote_lock_call st t tr q lid cid ret u :
  lock_system st -> threads st !! t = Some tr -> t_pc tr = Returned ret u -> 0 <= ret ->
  t_proc tr = lock_proc q -> call_args fill cd_lock (lid, cid) = Done (t_args tr) ->
  0 <= lid < 2 ^ 64 -> Z.of_nat (length cid) < 2 ^ 20 ->
  exists r s s', r ∈ runs st /\ run_xid r = k_xid (t_call tr) /\ (forall r', r' ∈ runs st -> run_xid r' = k_xid (t_call tr) -> r' = r) /\
    run_steps r = [(s, s')] /\ transition q (string_of cid) (Cache.entry lid s) (Cache.entry lid s') ret /\ one_entry lid s s' /\
    exists y, call_m cd_int ret u = Done (ret, Some y).
Proof.
  intros [Hr [nonce Hprocs]] Ht Hpc Hret Hp Hargs Hl Hc. pose proof (lock_fits lid cid Hl Hc) as Hfit. destruct q; cbn [lock_proc transition] in *.
  - destruct (typed_request fill server_typed cd_lock cd_int prog_acquire (lid, cid) st t tr ret u Hr Ht Hpc Hret) as (r & y & Hin & Hx & Hex & Hcm & Hun & _);
      [rewrite Hp, Hprocs; reflexivity | done | done | apply acquire_typed |].
    apply hexec_acquire in Hex as (s & s' & rv & Hst & (He & Ho & Hrt)%acquire_one). exists r, s, s'. split_and!; eauto.
  - destruct (typed_request fill server_typed cd_lock cd_int prog_release (lid, cid) st t tr ret u Hr Ht Hpc Hret) as (r & y & Hin & Hx & Hex & Hcm & Hun & _);
      [rewrite Hp, Hprocs; reflexivity | done | done | apply release_typed |].
    apply hexec_release in Hex as (s & s' & rv & Hst & (He & Ho & Hrt)%release_one). exists r, s, s'. split_and!; eauto.
Qed.
End rpc.

(** ** A run: a client binds and acquires a lock *)

Definition demo_locks : Cache.lock_server_cache := Cache.LockServerCache 0 ∅.

Definition demo_lock_srv : rpcs Cache.lock_server_cache :=
  match lock_smain demo_fill 77 0 demo_locks with Done s => s | Fault _ => Rpcs 77 ∅ ∅ ∅ ∅ 0 0 ∅ demo_locks [] end.

Definition demo_lock_sys : @sys Cache.lock_server_cache := Sys (rpcc_new true 5 0) ∅ (Server demo_lock_srv []) [] [] [].

(** The request arrives twice. *)
Definition demo_lock_calls : list action :=
  demo_bind ++
  [ABegin 1 proc_acquire (call_args demo_fill cd_lock (9, [97])) to_max (Timespec 11 0); ASend 1 alive None; AArm 1 (Timespec 11 5);
   AServe 8 0; AServe 8 0] ++ steps 0 5 ++ steps 1 5 ++ steps 0 7 ++ [AReply 0; AReply 0; AWake 1 alive; AEnd 1].

Lemma demo_lock_smain : lock_smain demo_fill 77 0 demo_locks = Done demo_lock_srv.
Proof. reflexivity. Qed.

Lemma demo_lock_start : start demo_fill server_typed demo_lock_sys.
Proof.
  apply (started_start demo_fill server_typed _ _ _ 5 0 (lock_smain_started demo_fill 77 0 demo_locks demo_lock_srv demo_lock_smain));
    [done | apply lock_procs_ok | done].
Qed.

Definition demo_lock_final (f : @sys Cache.lock_server_cache -> thread -> Z -> unmarshall -> Prop) : Prop :=
  match perform_all demo_fill demo_lock_calls demo_lock_sys with
  | Done s =>
      match threads s !! 1%nat with
      | Some tr => match t_pc tr with Returned ret u => f s tr ret u | _ => False end
      | None => False
      end
  | Fault _ => False
  end.

Lemma remote_lock_call_witness :
  demo_lock_final (fun s tr ret u => ret = LP.OK /\ exists r a a', r ∈ runs s /\ run_steps r = [(a, a')] /\
    transition Acquire (string_of [97]) (Cache.entry 9 a) (Cache.entry 9 a') ret).
Proof.
  assert (Hfin : demo_lock_final (fun s tr ret u => ret = 0 /\ t_proc tr = proc_acquire /\
    call_args demo_fill cd_lock (9, [97]) = Done (t_args tr))) by (vm_compute; repeat split).
  unfold demo_lock_final in *. destruct (perform_all demo_fill demo_lock_calls demo_lock_sys) as [s|] eqn:Hs; [| destruct Hfin].
  destruct (threads s !! 1%nat) as [tr|] eqn:Ht; [| destruct Hfin].
  destruct (t_pc tr) as [| | | |ret u] eqn:Hpc; [destruct Hfin | destruct Hfin | destruct Hfin | destruct Hfin |].
  destruct Hfin as (-> & Hp & Hargs). split; [reflexivity |].
  destruct (perform_all_reach demo_fill server_typed _ _ _ (reach_start0 _ _ _ demo_lock_start) Hs) as [Hreach Hproc].
  destruct (lock_smain_started demo_fill 77 0 demo_locks demo_lock_srv demo_lock_smain) as (_ & Hpr & _).
  destruct (remote_lock_call demo_fill s 1 tr Acquire 9 [97] 0 u) as (r & a & a' & H1 & _ & _ & H2 & H3 & _).
  - split; [exact Hreach |]. exists 77. rewrite Hproc. exact Hpr.
  - exact Ht.
  - exact Hpc.
  - discriminate.
  - exact Hp.
  - exact Hargs.
  - split; [discriminate | reflexivity].
  - reflexivity.
  - exists r, a, a'. split; [exact H1 |]. split; [exact H2 | exact H3].
Defined.
