(* ===== verification/ExtentRpc.v ===== *)
(** * The extent server behind RPC (src/extent_smain.cc, src/extent_protocol.h, and the calls of src/extent_client.cc)

    The extent server of ExtentServer.v, registered with the RPC server as its
    main program does, and called through the endpoint of RpcClient.v.  The
    state of the application is the disk, together with what its routines find
    in their surroundings at each call (ExtentServer.v's [env], and the value of
    the [int] result that put and remove do not set).  The procedures are the
    programs of ExtentProgram.v: the threads of the server interleave at every
    access to the disk, as there is no mutex.

    The theorem puts four components together: a call of the extent client that
    returns ran the server's procedure exactly once, on the arguments of the
    call, and returns its result; and if no other thread changed the disk during
    that run, the result and the disk are what the specification of the store
    says.  ExtentRace.v shows what can happen otherwise. *)

From S2P Require Import Prelude Disk InodeManager FileSystem FileSpec ExtentServer ExtentProgram Marshall RpcWindow RpcServer RpcClient RpcSystem RpcService.
Import Client Server Timer.

(** ** extent_protocol *)

(** enum rpc_numbers *)
Definition proc_put : Z := 0x6001.
Definition proc_get : Z := 0x6002.
Definition proc_getattr : Z := 0x6003.
Definition proc_remove : Z := 0x6004.
Definition proc_create : Z := 0x6005.

(** The operators << and >> of attr. *)
Definition m_attr (fill : nat -> Z) (a : attr) (m : marshall) : outcome marshall :=
  m ← m_uint fill (a_type a) m; m ← m_uint fill (a_atime a) m; m ← m_uint fill (a_mtime a) m;
  m ← m_uint fill (a_ctime a) m; m_uint fill (a_size a) m.

Definition u_attr (u : unmarshall) : outcome (unmarshall * attr) :=
  t ← u_uint u; at_ ← u_uint (fst t); mt ← u_uint (fst at_); ct ← u_uint (fst mt); sz ← u_uint (fst ct);
  mret (fst sz, Attr (snd t) (snd at_) (snd mt) (snd ct) (snd sz)).

Lemma reads_u32 x : is_u32 x -> reads u_uint (be32 x) x.
Proof. intros Hx. pose proof (reads_uint x) as H. by rewrite u32_id in H. Qed.

Definition cd_attr : codec attr.
Proof.
  refine (Codec attr attr_typed
    (fun a => be32 (a_type a) ++ be32 (a_atime a) ++ be32 (a_mtime a) ++ be32 (a_ctime a) ++ be32 (a_size a)) m_attr u_attr _ _).
  - intros fill a _. unfold m_attr. repeat apply emits_bind; apply emits_uint.
  - intros [t at_ mt ct sz] (H1 & H2 & H3 & H4 & H5). cbn [a_type a_atime a_mtime a_ctime a_size] in *. unfold u_attr.
    apply (reads_bind u_uint (fun t u => at_ ← u_uint u; mt ← u_uint (fst at_); ct ← u_uint (fst mt); sz ← u_uint (fst ct);
      mret (fst sz, Attr t (snd at_) (snd mt) (snd ct) (snd sz))) _ _ t); [by apply reads_u32 |].
    apply (reads_bind u_uint (fun at_ u => mt ← u_uint u; ct ← u_uint (fst mt); sz ← u_uint (fst ct);
      mret (fst sz, Attr t at_ (snd mt) (snd ct) (snd sz))) _ _ at_); [by apply reads_u32 |].
    apply (reads_bind u_uint (fun mt u => ct ← u_uint u; sz ← u_uint (fst ct);
      mret (fst sz, Attr t at_ mt (snd ct) (snd sz))) _ _ mt); [by apply reads_u32 |].
    apply (reads_bind u_uint (fun ct u => sz ← u_uint u; mret (fst sz, Attr t at_ mt ct (snd sz))) _ _ ct); [by apply reads_u32 |].
    apply (reads_map u_uint (fun sz => Attr t at_ mt ct sz)). by apply reads_u32.
Defined.

(** ** The registered procedures *)

Record extent_app := ExtentApp { xa_bm : block_manager; xa_env : nat -> env; xa_int : nat -> Z; xa_n : nat }.

Definition env_at (a : extent_app) : env := xa_env a (xa_n a).
Definition began (a : extent_app) : extent_app := ExtentApp (xa_bm a) (xa_env a) (xa_int a) (S (xa_n a)).
Definition with_bm (bm : block_manager) (a : extent_app) : extent_app := ExtentApp bm (xa_env a) (xa_int a) (xa_n a).

(** A program as a thread of the server runs it: other threads take their steps
    between its accesses to the disk. *)
Fixpoint on_disk {B} (p : dprog B) : hprog extent_app B :=
  match p with
  | DRet b => HRet b
  | DFail f => HStep (fun _ => Fault f)
  | DRead id buf k => HStep (fun a => Done (Some (a, on_disk (k (bm_read_block (xa_bm a) id buf)))))
  | DWrite id buf p => HStep (fun a => bm ← bm_write_block (xa_bm a) id buf; mret (Some (with_bm bm a, on_disk p)))
  end.

Definition called {B} (k : extent_app -> dprog B) : hprog extent_app B :=
  HStep (fun a => mret (Some (began a, on_disk (k a)))).

(** The procedures: their result and what they return. *)
Definition prog_create (type : Z) : hprog extent_app (Z * Z) :=
  called (fun a => r ← es_create_p (bm_sb (xa_bm a)) (env_at a) type; mret (snd r, fst r)).
Definition prog_put (x : Z * list Z) : hprog extent_app (Z * Z) :=
  called (fun a => r ← es_put_p (bm_sb (xa_bm a)) (env_at a) (fst x) (snd x); mret (xa_int a (xa_n a), r)).
Definition prog_get (id : Z) : hprog extent_app (list Z * Z) :=
  called (fun a => r ← es_get_p (bm_sb (xa_bm a)) (env_at a) id; mret (snd r, fst r)).
Definition prog_getattr (id : Z) : hprog extent_app (attr * Z) :=
  called (fun a => r ← es_getattr_p (bm_sb (xa_bm a)) (env_at a) id; mret (snd r, fst r)).
Definition prog_remove (id : Z) : hprog extent_app (Z * Z) :=
  called (fun a => r ← es_remove_p (bm_sb (xa_bm a)) (env_at a) id; mret (xa_int a (xa_n a), r)).

Definition cd_put : codec (Z * list Z) := cd_pair cd_ulonglong cd_string.

Section rpc.
Variable fill : nat -> Z.

(** The main program, up to its endless loop. *)
Definition extent_smain (nonce count : Z) (a : extent_app) : outcome (rpcs extent_app) :=
  s ← rpcs_new fill nonce count a;
  s ← reg fill proc_get cd_ulonglong cd_string prog_get s;
  s ← reg fill proc_getattr cd_ulonglong cd_attr prog_getattr s;
  s ← reg fill proc_put cd_put cd_int prog_put s;
  s ← reg fill proc_remove cd_ulonglong cd_int prog_remove s;
  reg fill proc_create cd_uint cd_ulonglong prog_create s.

Definition app_typed (a : extent_app) : Prop :=
  bm_ok (xa_bm a) /\ forall n, env_typed (xa_env a n) /\ env_ok (xa_env a n) /\ is_s32 (xa_int a n).

(** ** Requests as calls *)

Definition request_proc (q : ExtentServer.request) : Z :=
  match q with
  | ReqCreate _ => proc_create | ReqPut _ _ => proc_put | ReqGet _ => proc_get
  | ReqGetattr _ => proc_getattr | ReqRemove _ => proc_remove
  end.

(** [cl->call(proc, args..., result)] in extent_client.cc: what is sent, *)
Definition request_args (q : ExtentServer.request) : outcome marshall :=
  match q with
  | ReqCreate type => call_args fill cd_uint type
  | ReqPut id buf => call_args fill cd_put (id, buf)
  | ReqGet id | ReqGetattr id | ReqRemove id => call_args fill cd_ulonglong id
  end.

(** and how the result is read. *)
Definition request_result (q : ExtentServer.request) (ret : Z) (u : unmarshall) : outcome (Z * option reply) :=
  match q with
  | ReqCreate _ => r ← call_m cd_ulonglong ret u; mret (fst r, option_map RepId (snd r))
  | ReqPut _ _ | ReqRemove _ => r ← call_m cd_int ret u; mret (fst r, option_map (fun _ => RepNone) (snd r))
  | ReqGet _ => r ← call_m cd_string ret u; mret (fst r, option_map RepData (snd r))
  | ReqGetattr _ => r ← call_m cd_attr ret u; mret (fst r, option_map RepAttr (snd r))
  end.

(** Arguments of the types the calls have, short enough for a message. *)
Definition request_fits (q : ExtentServer.request) : Prop :=
  match q with
  | ReqCreate type => is_u32 type
  | ReqPut id buf => 0 <= id < 2 ^ 64 /\ Z.of_nat (length buf) < 2 ^ 20
  | ReqGet id | ReqGetattr id | ReqRemove id => 0 <= id < 2 ^ 64
  end.

(** ** The procedures keep the types *)

Lemma on_disk_safe {B} (Q : B -> Prop) p : ends Q p -> hsafe app_typed Q (on_disk p).
Proof.
  intros Hp. induction Hp as [b Hb|f|id buf k _ IH|id buf p _ IH]; cbn [on_disk]; [by constructor | by constructor | |].
  - constructor; intros a a' p Ha [= <- <-]; [done |]. apply IH. intros Hl. by apply read_block_length; [apply Ha |].
  - constructor; intros a a' q Ha Hf; apply bind_Done_inv in Hf as (bm & Hw & [= <- <-]); [| done].
    destruct Ha as [Hbm Ha]. split; [by apply (write_block_ok _ _ _ _ Hw) | done].
Qed.

Lemma called_safe {B} (Q : B -> Prop) k : (forall a, app_typed a -> ends Q (k a)) -> hsafe app_typed Q (called k).
Proof.
  intros Hk. constructor; intros a a' p Ha [= <- <-]; [by destruct Ha |]. by apply on_disk_safe, Hk.
Qed.

(** ... and return results that can be sent. *)
Lemma called_typed {X Y R} (cy : codec Y) (P : R -> Prop) (prog : extent_app -> X -> dprog R) (out : extent_app -> R -> Y * Z) :
  (forall a x, app_typed a -> ends P (prog a x)) ->
  (forall a r, app_typed a -> P r -> fits cy (fst (out a r)) /\ snd (out a r) = OK) ->
  typed_method app_typed cy (fun x => called (fun a => r ← prog a x; mret (out a r))).
Proof.
  intros Hp Ho x. apply called_safe. intros a Ha. eapply ends_bind; [by apply Hp |]. intros r Hr. constructor.
  by destruct (Ho a r Ha Hr) as [? ->].
Qed.

Lemma app_env a : app_typed a -> env_typed (env_at a).
Proof. intros [_ He]. apply He. Qed.

Lemma create_typed : typed_method app_typed cd_ulonglong prog_create.
Proof.
  apply (called_typed _ _ (fun a => es_create_p (bm_sb (xa_bm a)) (env_at a)) (fun a r => (snd r, fst r)) (fun a x Ha => es_create_ends _ _ x)).
  intros a [ret id] _ [-> Hid]. split; [| done]. apply ull_fits. cbn [fst snd] in *. unfold INODE_NUM in Hid. lia.
Qed.

Lemma put_typed : typed_method app_typed cd_int prog_put.
Proof.
  apply (called_typed _ _ (fun a x => es_put_p (bm_sb (xa_bm a)) (env_at a) (fst x) (snd x)) (fun a r => (xa_int a (xa_n a), r))
    (fun a x Ha => es_put_ends _ _ (fst x) (snd x))).
  intros a r [_ He] ->. split; [apply int_fits, He | done].
Qed.

Lemma remove_typed : typed_method app_typed cd_int prog_remove.
Proof.
  apply (called_typed _ _ (fun a => es_remove_p (bm_sb (xa_bm a)) (env_at a)) (fun a r => (xa_int a (xa_n a), r)) (fun a x Ha => es_remove_ends _ _ x)).
  intros a r [_ He] ->. split; [apply int_fits, He | done].
Qed.

Lemma get_typed : typed_method app_typed cd_string prog_get.
Proof.
  apply (called_typed _ _ (fun a => es_get_p (bm_sb (xa_bm a)) (env_at a)) (fun a r => (snd r, fst r))
    (fun a x Ha => es_get_ends _ _ (app_env a Ha) x)).
  intros a [ret buf] _ [-> Hl]. split; [| done]. cbn [fst snd] in *. split; cbn [c_wf c_enc cd_string]; [lia |].
  rewrite length_app, length_be32. unfold MSG_LIMIT. lia.
Qed.

Lemma getattr_typed : typed_method app_typed cd_attr prog_getattr.
Proof.
  apply (called_typed _ _ (fun a => es_getattr_p (bm_sb (xa_bm a)) (env_at a)) (fun a r => (snd r, fst r))
    (fun a x Ha => es_getattr_ends _ _ (app_env a Ha) x)).
  intros a [ret at_] _ [-> Ha]. split; [| done]. split; [done |].
  cbn [c_enc cd_attr fst snd]. rewrite !length_app, !length_be32. unfold MSG_LIMIT. lia.
Qed.

(** The table of procedures of the main program. *)
Definition extent_procs (nonce : Z) : gmap Z (handler extent_app) :=
  <[proc_create := reg_fn fill cd_uint cd_ulonglong prog_create]> (<[proc_remove := reg_fn fill cd_ulonglong cd_int prog_remove]>
  (<[proc_put := reg_fn fill cd_put cd_int prog_put]> (<[proc_getattr := reg_fn fill cd_ulonglong cd_attr prog_getattr]>
  (<[proc_get := reg_fn fill cd_ulonglong cd_string prog_get]> {[bind := reg_fn fill cd_int cd_int (rpcbind nonce)]})))).

Lemma extent_procs_ok nonce : handlers_ok fill app_typed (extent_procs nonce).
Proof.
  intros p f Hf. unfold extent_procs in Hf. rewrite !lookup_insert_Some, lookup_singleton_Some in Hf.
  destruct Hf as [[_ <-]|[_ [[_ <-]|[_ [[_ <-]|[_ [[_ <-]|[_ [[_ <-]|[_ [_ <-]]]]]]]]]]]; apply reg_fn_ok;
    [apply create_typed | apply remove_typed | apply put_typed | apply getattr_typed | apply get_typed | apply rpcbind_typed].
Qed.

Lemma extent_smain_started nonce count a s : extent_smain nonce count a = Done s -> started fill (extent_procs nonce) a s.
Proof.
  intros H. unfold extent_smain in H. apply bind_Done_inv in H as (s0 & S0%started_new & H).
  do 4 (apply bind_Done_inv in H as (? & S1 & H); apply (started_reg fill _ _ _ _ _ _ _ _ S0) in S1; clear S0; rename S1 into S0).
  by apply (started_reg fill _ _ _ _ _ _ _ _ S0) in H.
Qed.

(** ** A remote call of the extent service *)

(** A system whose server was started by the main program. *)
Definition extent_system (st : @sys extent_app) : Prop :=
  reach fill app_typed st /\ exists nonce, procs_ (node (srv st)) = extent_procs nonce.

(** The request ran, with the steps [tr] and the reply [rep]. *)
Definition executes (q : ExtentServer.request) (tr : list (extent_app * extent_app)) (rep : reply) : Prop :=
  hexec (called (fun a => serve_p (bm_sb (xa_bm a)) (env_at a) q)) tr rep.

(** The disk before and after each of the steps. *)
Definition disk_steps (tr : list (extent_app * extent_app)) : list (block_manager * block_manager) :=
  (fun st => (xa_bm (fst st), xa_bm (snd st))) <$> tr.

(** Each access finds what the one before has left: nothing came between. *)
Fixpoint undisturbed {B} (a : B) (tr : list (B * B)) (a' : B) : Prop :=
  match tr with
  | [] => a' = a
  | (x, y) :: tr => x = a /\ undisturbed y tr a'
  end.

Lemma exec_map {B C} (p : dprog B) (g : B -> C) tr c :
  hexec (on_disk (p ≫= (fun b => mret (g b)))) tr c <-> exists b, c = g b /\ hexec (on_disk p) tr b.
Proof.
  revert tr. induction p as [b|f|id buf k IH|id buf p IH]; intros tr; split.
  - intros H. inversion H; subst. eexists. split; [done | constructor].
  - intros (b' & -> & H). inversion H; subst. constructor.
  - intros H. by inversion H.
  - intros (b' & -> & H). by inversion H.
  - intros H. inversion H as [|f a a' p' tr' b' Hf Hp|]; subst. injection Hf as <- <-. apply IH in Hp as (b & -> & Hp).
    exists b. split; [done |]. by eapply hx_step.
  - intros (b & -> & H). inversion H as [|f a a' p' tr' b' Hf Hp|]; subst. injection Hf as <- <-. eapply hx_step; [done |]. apply IH. eauto.
  - intros H. inversion H as [|f a a' p' tr' b' Hf Hp|]; subst. apply bind_Done_inv in Hf as (bm & Hw & [= <- <-]).
    apply IH in Hp as (b & -> & Hp). exists b. split; [done |]. eapply hx_step; [by rewrite Hw | done].
  - intros (b & -> & H). inversion H as [|f a a' p' tr' b' Hf Hp|]; subst. apply bind_Done_inv in Hf as (bm & Hw & [= <- <-]).
    eapply hx_step; [| apply IH; eauto]. by rewrite Hw.
Qed.

Lemma called_exec {B} (k : extent_app -> dprog B) tr b :
  hexec (called k) tr b <-> exists a tr', tr = (a, began a) :: tr' /\ hexec (on_disk (k a)) tr' b.
Proof.
  split.
  - intros H. inversion H as [|f a a' p' tr' b' Hf Hp|]; subst. injection Hf as <- <-. eauto.
  - intros (a & tr' & -> & H). by eapply hx_step.
Qed.

(** A procedure and the request it stands for. *)
Lemma executes_of {Y R} (q : ExtentServer.request) (P : R -> Prop) (prog : extent_app -> dprog R) (out : extent_app -> R -> Y * Z) (rep : R -> reply) tr y ret :
  (forall a, serve_p (bm_sb (xa_bm a)) (env_at a) q = (r ← prog a; mret (rep r))) ->
  (forall a, app_typed a -> ends P (prog a)) -> Forall (fun st => app_typed (fst st)) tr ->
  hexec (called (fun a => r ← prog a; mret (out a r))) tr (y, ret) ->
  exists a r, executes q tr (rep r) /\ P r /\ (y, ret) = out a r.
Proof.
  intros Hq Hp Ht H. apply called_exec in H as (a & tr' & -> & H). apply exec_map in H as (r & E & H). exists a, r.
  apply Forall_cons in Ht as [Ha Ht]. split_and!; [| | done].
  - apply called_exec. exists a, tr'. split; [done |]. rewrite Hq. apply exec_map. eauto.
  - apply (hexec_safe app_typed P _ _ _ (on_disk_safe P _ (Hp a Ha)) H Ht).
Qed.

Lemma exec_solo {B} (p : dprog B) tr b bm bm' :
  hexec (on_disk p) tr b -> undisturbed bm (disk_steps tr) bm' -> solo p bm = Done (bm', b).
Proof.
  revert tr bm. induction p as [b0|f|id buf k IH|id buf p IH]; intros tr bm H Hu;
    inversion H as [|f' a a' p' tr' b' Hf Hp|]; subst; [by cbn in Hu; subst | done | |]; cbn in Hu.
  - injection Hf as <- <-. destruct Hu as [<- Hu]. cbn [solo]. by apply (IH _ tr').
  - apply bind_Done_inv in Hf as (bm1 & Hw & [= <- <-]). destruct Hu as [<- Hu]. cbn [solo]. rewrite Hw. by apply (IH tr').
Qed.

(** Undisturbed, a request is what the sequential server does. *)
Lemma executes_alone q tr rep bm bm' :
  executes q tr rep -> Forall (fun st => app_typed (fst st)) tr -> undisturbed bm (disk_steps tr) bm' ->
  exists e, env_ok e /\ serve e q bm = Done (bm', rep).
Proof.
  intros H Ht Hu. apply called_exec in H as (a & tr' & -> & H). apply Forall_cons in Ht as [[_ Ha] _]. cbn in Hu. destruct Hu as [Hbm Hu].
  exists (env_at a). split; [apply Ha |]. rewrite <- requests_alone. rewrite <- Hbm in *. by apply (exec_solo _ tr').
Qed.

(** What one call did. *)
Definition ran_once (st : @sys extent_app) (tr : thread) (q : ExtentServer.request) (ret : Z) (u : unmarshall)
    (r : run) (rep : reply) : Prop :=
  ret = OK /\ r ∈ runs st /\ run_xid r = k_xid (t_call tr) /\ executes q (run_steps r) rep /\
  request_result q ret u = Done (ret, Some rep) /\ (forall r', r' ∈ runs st -> run_xid r' = k_xid (t_call tr) -> r' = r) /\
  Forall (fun p => app_typed (fst p)) (run_steps r).

Lemma put_fits id buf : 0 <= id < 2 ^ 64 -> Z.of_nat (length buf) < 2 ^ 20 -> fits cd_put (id, buf).
Proof.
  intros Hid Hl. split; [split; cbn [fst snd c_wf cd_ulonglong cd_string]; [done | lia] |].
  cbn [c_enc cd_put cd_pair cd_ulonglong cd_string fst snd]. rewrite !length_app, !length_be32. unfold MSG_LIMIT. lia.
Qed.

Lemma request_ran st t tr q ret u :
  extent_system st -> threads st !! t = Some tr -> t_pc tr = Returned ret u -> 0 <= ret ->
  t_proc tr = request_proc q -> request_args q = Done (t_args tr) -> request_fits q -> exists r rep, ran_once st tr q ret u r rep.
Proof.
  intros [Hr0 [nonce Hprocs]] Ht Hpc Hret Hp Hargs Hfit.
  destruct q as [type|id buf|id|id|id]; cbn [request_proc request_args request_fits] in *.
  - destruct (typed_request fill app_typed cd_uint cd_ulonglong prog_create type st t tr ret u Hr0 Ht Hpc Hret)
      as (r & y & Hin & Hx & Hex & Hc & Hun & Hi); [rewrite Hp, Hprocs; reflexivity | by apply uint_fits | done | apply create_typed |].
    destruct (executes_of (ReqCreate type) _ (fun a => es_create_p (bm_sb (xa_bm a)) (env_at a) type) (fun _ r => (snd r, fst r)) (fun r => RepId (snd r))
      (run_steps r) y ret (fun a => eq_refl) (fun a Ha => es_create_ends _ _ type) Hi Hex) as (a & [z i] & Hq & [Hz _] & [= -> ->]).
    cbn [fst snd] in *. subst z. exists r, (RepId i). refine (conj eq_refl (conj Hin (conj Hx (conj Hq (conj _ (conj Hun Hi)))))). cbn [request_result]. by rewrite Hc.
  - destruct (typed_request fill app_typed cd_put cd_int prog_put (id, buf) st t tr ret u Hr0 Ht Hpc Hret)
      as (r & y & Hin & Hx & Hex & Hc & Hun & Hi); [rewrite Hp, Hprocs; reflexivity | by apply put_fits; apply Hfit | done | apply put_typed |].
    destruct (executes_of (ReqPut id buf) _ (fun a => es_put_p (bm_sb (xa_bm a)) (env_at a) id buf) (fun a r => (xa_int a (xa_n a), r)) (fun _ => RepNone)
      (run_steps r) y ret (fun a => eq_refl) (fun a Ha => es_put_ends _ _ id buf) Hi Hex) as (a & z & Hq & -> & [= -> ->]).
    exists r, RepNone. refine (conj eq_refl (conj Hin (conj Hx (conj Hq (conj _ (conj Hun Hi)))))). cbn [request_result]. by rewrite Hc.
  - destruct (typed_request fill app_typed cd_ulonglong cd_string prog_get id st t tr ret u Hr0 Ht Hpc Hret)
      as (r & y & Hin & Hx & Hex & Hc & Hun & Hi); [rewrite Hp, Hprocs; reflexivity | by apply ull_fits | done | apply get_typed |].
    destruct (executes_of (ReqGet id) _ (fun a => es_get_p (bm_sb (xa_bm a)) (env_at a) id) (fun _ r => (snd r, fst r)) (fun r => RepData (snd r))
      (run_steps r) y ret (fun a => eq_refl) (fun a Ha => es_get_ends _ _ (app_env a Ha) id) Hi Hex) as (a & [z b] & Hq & [Hz _] & [= -> ->]).
    cbn [fst snd] in *. subst z. exists r, (RepData b). refine (conj eq_refl (conj Hin (conj Hx (conj Hq (conj _ (conj Hun Hi)))))). cbn [request_result]. by rewrite Hc.
  - destruct (typed_request fill app_typed cd_ulonglong cd_attr prog_getattr id st t tr ret u Hr0 Ht Hpc Hret)
      as (r & y & Hin & Hx & Hex & Hc & Hun & Hi); [rewrite Hp, Hprocs; reflexivity | by apply ull_fits | done | apply getattr_typed |].
    destruct (executes_of (ReqGetattr id) _ (fun a => es_getattr_p (bm_sb (xa_bm a)) (env_at a) id) (fun _ r => (snd r, fst r)) (fun r => RepAttr (snd r))
      (run_steps r) y ret (fun a => eq_refl) (fun a Ha => es_getattr_ends _ _ (app_env a Ha) id) Hi Hex) as (a & [z b] & Hq & [Hz _] & [= -> ->]).
    cbn [fst snd] in *. subst z. exists r, (RepAttr b). refine (conj eq_refl (conj Hin (conj Hx (conj Hq (conj _ (conj Hun Hi)))))). cbn [request_result]. by rewrite Hc.
  - destruct (typed_request fill app_typed cd_ulonglong cd_int prog_remove id st t tr ret u Hr0 Ht Hpc Hret)
      as (r & y & Hin & Hx & Hex & Hc & Hun & Hi); [rewrite Hp, Hprocs; reflexivity | by apply ull_fits | done | apply remove_typed |].
    destruct (executes_of (ReqRemove id) _ (fun a => es_remove_p (bm_sb (xa_bm a)) (env_at a) id) (fun a r => (xa_int a (xa_n a), r)) (fun _ => RepNone)
      (run_steps r) y ret (fun a => eq_refl) (fun a Ha => es_remove_ends _ _ id) Hi Hex) as (a & z & Hq & -> & [= -> ->]).
    exists r, RepNone. refine (conj eq_refl (conj Hin (conj Hx (conj Hq (conj _ (conj Hun Hi)))))). cbn [request_result]. by rewrite Hc.
Qed.

(** C3: a call of the extent service runs its procedure once.  If a client's
    call of create, put, get, getattr or remove returns without an error of the
    RPC layer, then it returns OK, the server has run the procedure exactly once
    on the arguments of the call, and the caller reads the result of that run,
    whatever messages were lost, repeated or reordered and whatever the other
    clients and the other threads of the server did between the accesses of the
    run to the disk.  If no other thread changed the disk between those accesses,
    and the disk held a consistent file system with room for the request, then
    the result is the one the abstract store gives and the disk holds the store
    after the request; without a mutex in the server nothing ensures the first
    of these conditions ([clients_share_a_file]). *)
Theorem remote_extent_call st t tr q ret u :
  extent_system st -> threads st !! t = Some tr -> t_pc tr = Returned ret u -> 0 <= ret ->
  t_proc tr = request_proc q -> request_args q = Done (t_args tr) -> request_fits q ->
  exists r rep, ran_once st tr q ret u r rep /\
    forall bm bm', undisturbed bm (disk_steps (run_steps r)) bm' -> fs_ok bm -> admissible q (abs bm) ->
      answers q (abs bm) rep /\ fs_ok bm' /\ abs bm' = next q (abs bm).
Proof.
  intros Hs Ht Hpc Hret Hp Hargs Hfit. destruct (request_ran st t tr q ret u Hs Ht Hpc Hret Hp Hargs Hfit) as (r & rep & Hran).
  exists r, rep. split; [done |]. intros bm bm' Hu Hfs Hadm. destruct Hran as (_ & _ & _ & Hex & _ & _ & Hty).
  destruct (executes_alone q _ rep bm bm' Hex Hty Hu) as (e & He & Hsv).
  destruct (serve_step e q bm Hfs He Hadm) as (bm1 & rep1 & Hsv1 & Hok & Hab & Hans). rewrite Hsv in Hsv1. by injection Hsv1 as <- <-.
Qed.

End rpc.

(** ** A run: a client binds and creates a file *)

Definition demo_app : extent_app :=
  ExtentApp (match inode_manager_new zero_block 5 with Done bm => bm | Fault _ => block_manager_new end) (fun _ => demo_env) (fun _ => 0) 0.

Definition demo_extent_srv : rpcs extent_app :=
  match extent_smain demo_fill 77 0 demo_app with Done s => s | Fault _ => Rpcs 77 ∅ ∅ ∅ ∅ 0 0 ∅ demo_app [] end.

Definition demo_extent_sys : @sys extent_app := Sys (rpcc_new true 5 0) ∅ (Server demo_extent_srv []) [] [] [].

Definition demo_extent_calls : list action :=
  demo_bind ++
  [ABegin 1 proc_create (request_args demo_fill (ReqCreate 2)) to_max (Timespec 11 0); ASend 1 alive None; AArm 1 (Timespec 11 5);
   AServe 8 0; AServe 8 0] ++ steps 0 7 ++ steps 1 5 ++ steps 0 6 ++ [AReply 0; AReply 0; AWake 1 alive; AEnd 1].

Lemma demo_app_typed : app_typed demo_app.
Proof.
  split.
  - destruct (inode_manager_new_done zero_block 5) as (bm0 & Hn & Hok & _). unfold demo_app. cbn [xa_bm]. rewrite Hn. apply Hok.
  - intros n. split_and!; try (split; reflexivity); try (split; [reflexivity | apply Nat.leb_le; reflexivity]); unfold is_s32; cbn; lia.
Qed.

Lemma demo_app_fs : fs_ok (xa_bm demo_app).
Proof.
  destruct (inode_manager_new_done zero_block 5) as (bm0 & Hn & Hok & _). unfold demo_app. cbn [xa_bm]. rewrite Hn. exact Hok.
Qed.

Lemma demo_extent_smain : extent_smain demo_fill 77 0 demo_app = Done demo_extent_srv.
Proof. reflexivity. Qed.

Lemma demo_extent_start : start demo_fill app_typed demo_extent_sys.
Proof.
  apply (started_start demo_fill app_typed _ _ _ 5 0 (extent_smain_started demo_fill 77 0 demo_app demo_extent_srv demo_extent_smain));
    [done | apply extent_procs_ok | apply demo_app_typed].
Qed.

Definition demo_extent_final (f : @sys extent_app -> thread -> Z -> unmarshall -> Prop) : Prop :=
  match perform_all demo_fill demo_extent_calls demo_extent_sys with
  | Done s =>
      match threads s !! 1%nat with
      | Some tr => match t_pc tr with Returned ret u => f s tr ret u | _ => False end
      | None => False
      end
  | Fault _ => False
  end.

(** The runs of a call. *)
Definition runs_of (s : @sys extent_app) (tr : thread) : list run := filter (fun r => run_xid r = k_xid (t_call tr)) (runs s).

Lemma remote_extent_call_witness :
  demo_extent_final (fun s tr ret u => exists r rep, ran_once s tr (ReqCreate 2) ret u r rep /\
    answers (ReqCreate 2) (abs (xa_bm demo_app)) rep).
Proof.
  assert (Hfin : demo_extent_final (fun s tr ret u => ret = 0 /\ t_proc tr = proc_create /\
    request_args demo_fill (ReqCreate 2) = Done (t_args tr) /\
    Forall (fun r => undisturbed (xa_bm demo_app) (disk_steps (run_steps r)) (xa_bm (app (node (srv s))))) (runs_of s tr)))
    by (vm_compute; repeat split; repeat constructor).
  unfold demo_extent_final in *. destruct (perform_all demo_fill demo_extent_calls demo_extent_sys) as [s|] eqn:Hs; [| destruct Hfin].
  destruct (threads s !! 1%nat) as [tr|] eqn:Ht; [| destruct Hfin].
  destruct (t_pc tr) as [| | | |ret u] eqn:Hpc; [destruct Hfin | destruct Hfin | destruct Hfin | destruct Hfin |].
  destruct Hfin as (-> & Hp & Hargs & Hund).
  destruct (perform_all_reach demo_fill app_typed _ _ _ (reach_start0 _ _ _ demo_extent_start) Hs) as [Hreach Hproc].
  destruct (extent_smain_started demo_fill 77 0 demo_app demo_extent_srv demo_extent_smain) as (_ & Hpr & _).
  destruct (remote_extent_call demo_fill s 1 tr (ReqCreate 2) 0 u) as (r & rep & Hran & Hans).
  - split; [exact Hreach |]. exists 77. rewrite Hproc. exact Hpr.
  - exact Ht.
  - exact Hpc.
  - discriminate.
  - exact Hp.
  - exact Hargs.
  - split; [discriminate | reflexivity].
  - exists r, rep. split; [exact Hran |]. destruct Hran as (_ & Hin & Hx & _).
    assert (Hu := proj1 (Forall_forall _ _) Hund r (proj2 (list_elem_of_filter _ _ _) (conj Hx Hin))).
    apply (Hans _ _ Hu); [exact demo_app_fs | discriminate].
Defined.
