(* ===== verification/ExtentRace.v ===== *)
(** * The extent server on several threads: what can go wrong (src/inode_manager.cc, src/extent_server.cc, src/rpc/rpc.cc)

    rpcs runs handlers on six threads, and neither the extent server nor the
    inode manager nor the block manager has a mutex.  Two allocation routines
    (ExtentProgram.v) that interleave can hand out the same inode or the same
    block, and a free can undo an allocation.  At the end two clients of the
    extent server of ExtentRpc.v create a file at the same time and get the same
    one. *)

From S2P Require Import Prelude Disk InodeManager FileSystem FileSpec ExtentServer ExtentProgram Marshall RpcWindow RpcServer RpcClient ExtentRpc.
Import Server.

(** ** Two programs on one disk *)

(** In any order of their accesses. *)
Inductive both {B C} : block_manager -> dprog B -> dprog C -> block_manager -> B -> C -> Prop :=
| both_end bm b c : both bm (DRet b) (DRet c) bm b c
| both_read_left id buf k q bm bm' b c : both bm (k (bm_read_block bm id buf)) q bm' b c -> both bm (DRead id buf k) q bm' b c
| both_read_right id buf k p bm bm' b c : both bm p (k (bm_read_block bm id buf)) bm' b c -> both bm p (DRead id buf k) bm' b c
| both_write_left id buf p q bm bm1 bm' b c :
    bm_write_block bm id buf = Done bm1 -> both bm1 p q bm' b c -> both bm (DWrite id buf p) q bm' b c
| both_write_right id buf p q bm bm1 bm' b c :
    bm_write_block bm id buf = Done bm1 -> both bm1 p q bm' b c -> both bm p (DWrite id buf q) bm' b c.

(** Accesses that leave the disk as it is. *)
Inductive quiet {B} (bm : block_manager) : dprog B -> dprog B -> Prop :=
| quiet_here p : quiet bm p p
| quiet_read id buf k p : quiet bm (k (bm_read_block bm id buf)) p -> quiet bm (DRead id buf k) p.

Lemma quiet_left {B C} bm (p p' : dprog B) (q : dprog C) bm' b c : quiet bm p p' -> both bm p' q bm' b c -> both bm p q bm' b c.
Proof. induction 1; intros; [done |]. apply both_read_left. auto. Qed.

Lemma quiet_right {B C} bm (p : dprog B) (q q' : dprog C) bm' b c : quiet bm q q' -> both bm p q' bm' b c -> both bm p q bm' b c.
Proof. induction 1; intros; [done |]. apply both_read_right. auto. Qed.

(** From the state [bm] the program only reads, up to one write at its end, of
    the block [id], that leads to [bm']. *)
Definition commits {B} (id : Z) (bm : block_manager) (p : dprog B) (bm' : block_manager) (b : B) : Prop :=
  quiet bm p (DRet b) /\ bm' = bm \/
  exists buf, quiet bm p (DWrite id buf (DRet b)) /\ bm_write_block bm id buf = Done bm'.

Lemma commits_ret {B} id bm (b : B) : commits id bm (DRet b) bm b.
Proof. left. split; [constructor | done]. Qed.

Lemma commits_read {B} id bm id' buf k bm' (b : B) :
  commits id bm (k (bm_read_block bm id' buf)) bm' b -> commits id bm (read_block id' buf ≫= k) bm' b.
Proof. intros [[Hq ->]|(buf' & Hq & Hw)]; [left; split; [| done] | right; exists buf'; split; [| done]]; by constructor. Qed.

Lemma commits_lift {A B} id bm (o : outcome A) a k bm' (b : B) : o = Done a -> commits id bm (k a) bm' b -> commits id bm (lift o ≫= k) bm' b.
Proof. by intros ->. Qed.

Lemma commits_write {B} bm id buf bm' (b : B) : bm_write_block bm id buf = Done bm' -> commits id bm (_ ← write_block id buf; mret b) bm' b.
Proof. intros H. right. exists buf. by split; [constructor |]. Qed.

Lemma commits_write_then {A B} bm id buf bm' (a : A) (k : A -> dprog B) b :
  bm_write_block bm id buf = Done bm' -> k a = DRet b -> commits id bm ((_ ← write_block id buf; mret a) ≫= k) bm' b.
Proof. intros Hw Hk. right. exists buf. split; [| done]. cbn. rewrite Hk. constructor. Qed.

Lemma quiet_lift {A B} bm (o : outcome A) a k (p : dprog B) : o = Done a -> quiet bm (k a) p -> quiet bm (lift o ≫= k) p.
Proof. by intros ->. Qed.

Section routines.
Variable junk : list Z.

Lemma alloc_scan_commits n i buf bm bm' b :
  alloc_scan n bm i buf = Done (bm', b) -> commits (BBLOCK b) bm (alloc_scan_p n i buf) bm' b.
Proof.
  revert i buf. induction n as [|n IH]; intros i buf H; cbn [alloc_scan alloc_scan_p] in *; [injection H as <- <-; apply commits_ret |].
  apply bind_Done_inv in H as (byte & Hl & H). apply commits_read. eapply commits_lift; [exact Hl |].
  destruct (_ =? 0); [| by apply IH]. apply bind_Done_inv in H as (buf' & Hs & H). apply bind_Done_inv in H as (bm1 & Hw & H).
  injection H as <- <-. eapply commits_lift; [exact Hs |]. by apply commits_write.
Qed.

Lemma inode_slots_commits n cur type i j buf (k : option Z -> dprog Z) bm r :
  inode_slots n cur type bm i j buf = Done r -> (forall inum, k (Some inum) = DRet inum) ->
  match r with
  | Some (bm', b) => exists id, commits id bm (inode_slots_p (bm_sb bm) n cur type i j buf ≫= k) bm' b
  | None => inode_slots_p (bm_sb bm) n cur type i j buf ≫= k = k None
  end.
Proof.
  intros H Hk. revert j H. induction n as [|n IH]; intros j H; cbn [inode_slots inode_slots_p] in *; [by injection H as <- |].
  destruct (_ && _); [by apply IH |]. destruct (INODE_NUM <=? _).
  { injection H as <-. exists 0. cbn [mbind dprog_bind mret dprog_ret]. rewrite Hk. apply commits_ret. }
  destruct (_ =? 0); [| by apply IH]. apply bind_Done_inv in H as (bm1 & Hw & H). injection H as <-. eexists.
  exact (commits_write_then bm _ _ bm1 (Some (j + i * IPB)) k _ Hw (Hk _)).
Qed.

Lemma inode_table_scan_commits n cur type i buf bm bm' b :
  inode_table_scan n cur type bm i buf = Done (bm', b) ->
  exists id, commits id bm (inode_table_scan_p (bm_sb bm) n cur type i buf) bm' b.
Proof.
  revert i buf. induction n as [|n IH]; intros i buf H; cbn [inode_table_scan inode_table_scan_p] in *.
  { injection H as <- <-. exists 0. apply commits_ret. }
  apply bind_Done_inv in H as (r & Hr & H). set (bs := bm_read_block _ _ _) in *.
  apply (inode_slots_commits _ _ _ _ _ _
    (fun r => match r with Some inum => mret inum | None => inode_table_scan_p (bm_sb bm) n cur type (i + 1) bs end)) in Hr; [| done].
  destruct r as [[bm1 b1]|].
  - injection H as <- <-. destruct Hr as [id Hr]. exists id. by apply commits_read.
  - destruct (IH _ _ H) as [id Hi]. exists id. apply commits_read. fold bs. by rewrite Hr.
Qed.

(** A block written by somebody in between is overwritten. *)
Lemma write_block_again bm id buf buf1 bm1 bm' :
  bm_write_block bm id buf1 = Done bm1 -> bm_write_block bm id buf = Done bm' -> bm_write_block bm1 id buf = Done bm'.
Proof.
  unfold bm_write_block, disk_write_block. destruct (_ || _); [by intros [= <-] [= <-] |].
  destruct (load_bytes buf1 _ _) as [bs1|]; [| done]. destruct (load_bytes buf _ _) as [bs|]; [| done].
  rewrite !bind_Done. intros [= <-] [= <-]. cbn. by rewrite insert_insert_eq.
Qed.

(** Two writers of the same block, one after the other has read. *)
Lemma writers_race {B C} bm id buf buf' (p : dprog B) (q : dprog C) b c bm1 bm' :
  quiet bm p (DWrite id buf (DRet b)) -> quiet bm q (DWrite id buf' (DRet c)) ->
  bm_write_block bm id buf = Done bm1 -> bm_write_block bm id buf' = Done bm' ->
  both bm p q bm' b c.
Proof.
  intros Hp Hq H1 H2. eapply quiet_left; [exact Hp |]. eapply quiet_right; [exact Hq |].
  apply (both_write_left _ _ _ _ _ bm1); [done |].
  apply (both_write_right _ _ _ _ _ bm'); [by apply (write_block_again bm id buf' buf) |]. apply both_end.
Qed.

(** Whatever the first program does to the block, the second one undoes it. *)
Lemma commits_overwritten {B C} id bm (p : dprog B) (q : dprog C) bm1 bm' buf b c :
  commits id bm p bm1 b -> quiet bm q (DWrite id buf (DRet c)) -> bm_write_block bm id buf = Done bm' -> both bm p q bm' b c.
Proof.
  intros [[Hq ->]|(buf1 & Hq & Hw)] Hq' Hw'; [| by eapply writers_race].
  eapply quiet_left; [exact Hq |]. eapply quiet_right; [exact Hq' |]. eapply both_write_right; [exact Hw' | apply both_end].
Qed.

Lemma commits_twice {B} id bm (p : dprog B) bm' b : commits id bm p bm' b -> both bm p p bm' b b.
Proof.
  intros H. assert (H' := H). destruct H' as [[Hq ->]|(buf & Hq & Hw)]; [| by eapply commits_overwritten].
  eapply quiet_left; [exact Hq |]. eapply quiet_right; [exact Hq |]. apply both_end.
Qed.

(** On any disk two allocations that interleave can return the same inode, or
    the same block, and leave the disk as one of them alone would. *)
Theorem allocations_collide bm :
  (forall type cur bm' inum, alloc_inode junk cur type bm = Done (bm', inum) ->
     both bm (alloc_inode_p (bm_sb bm) junk cur type) (alloc_inode_p (bm_sb bm) junk cur type) bm' inum inum) /\
  (forall bm' b, alloc_block junk bm = Done (bm', b) ->
     both bm (alloc_block_p (bm_sb bm) junk) (alloc_block_p (bm_sb bm) junk) bm' b b).
Proof.
  split; intros.
  - edestruct inode_table_scan_commits as [id Hc]; [done |]. by eapply commits_twice.
  - by eapply commits_twice, alloc_scan_commits.
Qed.

Lemma free_block_commits x bm bm' :
  free_block junk bm x = Done bm' ->
  exists buf, quiet bm (free_block_p junk x) (DWrite (u32 (BBLOCK x)) buf (DRet tt)) /\ bm_write_block bm (u32 (BBLOCK x)) buf = Done bm'.
Proof.
  unfold free_block, free_block_p. intros H. apply bind_Done_inv in H as (byte & Hl & H). apply bind_Done_inv in H as (buf & Hs & H).
  exists buf. split; [| done]. apply (quiet_read _ _ _ (fun bs => _)). eapply quiet_lift; [exact Hl |]. eapply quiet_lift; [exact Hs |]. apply quiet_here.
Qed.

(** The free of another block can undo an allocation: the block is handed out
    and still marked free, so that the next allocation hands it out again. *)
Theorem free_undoes_allocation bm b rest x :
  bm_ok bm -> free_blocks (bm_d bm) = b :: rest -> data_block x -> x <> b -> BBLOCK x = BBLOCK b ->
  exists bm', both bm (alloc_block_p (bm_sb bm) junk) (free_block_p junk x) bm' b tt /\ b ∈ free_blocks (bm_d bm').
Proof.
  intros Hbm Hf Hx Hne He. destruct (alloc_block_done junk bm b rest Hbm Hf) as (Ha & Hb & _).
  assert (Hu : b ∈ free_blocks (bm_d bm)) by (rewrite Hf; apply elem_of_cons; by left).
  exists (set_free bm x). destruct (free_block_commits x bm _ (free_block_done junk bm x Hbm Hx)) as (buf & Hq & Hw).
  rewrite u32_id in * by (pose proof (BBLOCK_range x Hx); unfold is_u32; lia). split.
  - rewrite He in *. eapply commits_overwritten; [by apply alloc_scan_commits | exact Hq | exact Hw].
  - apply free_blocks_data. split; [done |]. destruct (set_free_update bm x Hbm Hx) as (_ & Hbit & _).
    rewrite Hbit by done. destruct (decide (b = x)); [done |]. by apply free_blocks_data in Hu as [_ Hu].
Qed.
End routines.

(** ** Two clients *)

(** create(T_FILE) of the client [n], its first request. *)
Definition create_request (n : Z) : list Z :=
  [0; 0; 0; 28] ++ be32 1 ++ be32 proc_create ++ be32 n ++ be32 77 ++ be32 0 ++ be32 T_FILE.

(** They arrive on two connections, and two threads of the server take turns. *)
Definition creates : list act :=
  [Take 3 (create_request 5) 28; Take 4 (create_request 6) 28] ++ concat (replicate 12 [Go 0 1000; Go 1 1000]).

(** What the stub of create makes of an answer. *)
Definition created (bytes : list Z) : outcome (Z * option Z) :=
  r ← unpack_reply_header (unmarshall_new bytes (Z.of_nat (length bytes)));
  call_m cd_ulonglong (p_ret (snd r)) (fst r).

(** C17: two clients create a file at the same time at the server that extent_smain
    starts, and are both told that theirs is number 2. *)
Theorem clients_share_a_file :
  exists s js m1 m2, extent_smain demo_fill 77 0 demo_app = Done demo_extent_srv /\
    act_all demo_fill demo_view creates (demo_extent_srv, [], []) = Done (s, js, [(3, m1); (4, m2)]) /\
    created m1 = Done (0, Some 2) /\ created m2 = Done (0, Some 2).
Proof.
  assert (H : match act_all demo_fill demo_view creates (demo_extent_srv, [], []) with
              | Done (_, _, out) => map (fun m => (fst m, created (snd m))) out = [(3, Done (0, Some 2)); (4, Done (0, Some 2))]
              | _ => False
              end) by (vm_compute; reflexivity).
  destruct (act_all demo_fill demo_view creates (demo_extent_srv, [], [])) as [[[s js] out]|] eqn:E; [| destruct H].
  destruct out as [|[c1 m1] [|[c2 m2] [|? ?]]]; [discriminate H | discriminate H | | discriminate H].
  cbn [map fst snd] in H. injection H as -> H1 -> H2. exists s, js, m1, m2. split; [exact demo_extent_smain |].
  split; [reflexivity |]. split; [exact H1 | exact H2].
Qed.
