(* ===== verification/RpcTest.v ===== *)
(** * The RPC test program (src/rpc/rpctest.cc)

    The handlers it registers, its check of the marshalling classes, and the
    loops of its client threads as programs over remote calls: each call, and
    what the test does with the result.  The threads that several tests start
    run these programs at the same time; which calls return what is up to the
    system of RpcSystem.v, so a program is checked against every answer a
    reachable system can give, under any time limit.  Deleting and restarting servers is not
    modelled; that a client of the old server gets oldsrv_failure from the new one
    is a theorem of RpcService.v.

    Strings are allocated from a memory of [room] bytes; an allocation beyond
    it throws.  Random numbers are arguments. *)

From S2P Require Import Prelude Marshall RpcWindow RpcServer RpcClient RpcCalls RpcSystem RpcService.
Import Client Server Timer.

Section handlers.
Variable room : Z.

(** [std::string(len, c)]: a negative [int] is converted to a huge length. *)
Definition new_string (len c : Z) : outcome (list Z) :=
  if (0 <=? len) && (len <=? room) then mret (replicate (Z.to_nat len) c) else Fault UncaughtException.

Definition append (a b : list Z) : outcome (list Z) :=
  if Z.of_nat (length a + length b) <=? room then mret (a ++ b) else Fault UncaughtException.

(** ** class srv: its methods have no state *)

Definition handle_22 (x : list Z * list Z) (a : unit) : outcome (unit * list Z * Z) :=
  r ← append (fst x) (snd x); mret (a, r, 0).
Definition handle_fast (x : Z) (a : unit) : outcome (unit * Z * Z) := mret (a, s32 (x + 1), 0).
(** It sleeps for a while first. *)
Definition handle_slow (x : Z) (a : unit) : outcome (unit * Z * Z) := mret (a, s32 (x + 2), 0).
Definition handle_bigrep (len : Z) (a : unit) : outcome (unit * list Z * Z) :=
  r ← new_string len 120; mret (a, r, 0).

Definition cd_22 : codec (list Z * list Z) := cd_pair cd_string cd_string.

Variable fill : nat -> Z.

Definition startserver (nonce count : Z) : outcome (rpcs unit) :=
  s ← rpcs_new fill nonce count tt;
  s ← reg fill 22 cd_22 cd_string (fun x => atomically (handle_22 x)) s;
  s ← reg fill 23 cd_int cd_int (fun x => atomically (handle_fast x)) s;
  s ← reg fill 24 cd_int cd_int (fun x => atomically (handle_slow x)) s;
  reg fill 25 cd_int cd_string (fun x => atomically (handle_bigrep x)) s.

(** ** testmarshall *)

(** "hallo...." *)
Definition hallo : list Z := [104; 97; 108; 108; 111; 46; 46; 46; 46].

Definition header_eqb (a b : req_header) : bool :=
  (q_xid a =? q_xid b) && (q_proc a =? q_proc b) && (q_clt_nonce a =? q_clt_nonce b) &&
  (q_srv_nonce a =? q_srv_nonce b) && (q_xid_rep a =? q_xid_rep b).

Definition testmarshall : outcome unit :=
  m ← marshall_new fill;
  let rh := ReqHeader 1 2 3 4 5 in
  m ← pack_req_header fill rh m;
  _ ← verify (m_ind m =? RPC_HEADER_SZ);
  let i := 12345 in
  let l := 1223344455 in
  let s := hallo in
  m ← m_int fill i m;
  m ← m_ulonglong fill l m;
  m ← m_string fill s m;
  let '(b, sz, m) := m_take_buf m in
  _ ← verify (sz =? RPC_HEADER_SZ + 4 + 8 + Z.of_nat (length s) + 4);
  b ← (match b with Some b => mret b | None => Fault OutOfBounds end);
  let un := unmarshall_new b sz in
  rh1 ← unpack_req_header un;
  _ ← verify (header_eqb rh (snd rh1));
  i1 ← u_int (fst rh1);
  l1 ← u_ulonglong (fst i1);
  s1 ← u_string [] (fst l1);
  _ ← verify (okdone (fst s1));
  verify ((snd i1 =? i) && (snd l1 =? l) && bool_decide (snd s1 = s)).
End handlers.

(** ** Tests as programs *)

(** A remote call of one of the four procedures, and what it returns. *)
Inductive tcall := C22 (a b : list Z) | C23 (a : Z) | C24 (a : Z) | C25 (len : Z).
Inductive trep := RStr (s : list Z) | RInt (i : Z).

Inductive test :=
| Pass
| Aborted
| Invoke (q : tcall) (k : Z -> option trep -> test)
| BindNobody (k : Z -> Z -> test).      (* the result of bind and the seconds it took *)

(** VERIFY *)
Definition check (b : bool) (k : test) : test := if b then k else Aborted.

(** The variable that takes the result: a call that fails does not set it. *)
Definition str (s0 : list Z) (r : option trep) : list Z := match r with Some (RStr s) => s | _ => s0 end.
Definition int (i0 : Z) (r : option trep) : Z := match r with Some (RInt i) => i | _ => i0 end.

(** [(int) rep.size()] *)
Definition rep_size (s : list Z) : Z := s32 (Z.of_nat (length s)).

(** The first loop of client1, given the numbers [random()] returns. *)
Fixpoint client1_sizes (rs : list Z) (k : test) : test :=
  match rs with
  | [] => k
  | r :: rs =>
      let arg := r mod 2000 in
      Invoke (C25 arg) (fun ret rep => check (ret =? 0) (check (rep_size (str [] rep) =? arg) (client1_sizes rs k)))
  end.

(** The second one; [junk] is what the variable holds before the call. *)
Fixpoint client1_values (rs : list (Z * Z * Z)) : test :=
  match rs with
  | [] => Pass
  | (r1, r2, junk) :: rs =>
      let which := negb (r1 mod 2 =? 0) in
      let arg := r2 mod 1000 in
      Invoke (if which then C23 arg else C24 arg)
        (fun ret rep => check (ret =? 0) (check (int junk rep =? if which then arg + 1 else arg + 2) (client1_values rs)))
  end.

Definition client1 (rs : list Z) (rs' : list (Z * Z * Z)) : test := client1_sizes rs (client1_values rs').

(** client2 makes as many calls as it can in ten seconds. *)
Fixpoint client2 (rs : list Z) : test :=
  match rs with
  | [] => Pass
  | r :: rs => let arg := r mod 2000 in Invoke (C25 arg) (fun ret rep => check (rep_size (str [] rep) =? arg) (client2 rs))
  end.

Fixpoint client3_loop (i : Z) (junks : list Z) : test :=
  match junks with
  | [] => Pass
  | junk :: junks =>
      Invoke (C24 i) (fun ret rep => check ((ret =? timeout_failure) || (int junk rep =? i + 2)) (client3_loop (i + 1) junks))
  end.

Definition client3 (j0 j1 j2 j3 : Z) : test := client3_loop 0 [j0; j1; j2; j3].

(** "hello" and " goodbye" *)
Definition hello : list Z := [104; 101; 108; 108; 111].
Definition goodbye : list Z := [32; 103; 111; 111; 100; 98; 121; 101].

(** simple_tests; at its end it binds to a server that does not exist. *)
Definition simple_tests (k : test) : test :=
  Invoke (C22 hello goodbye) (fun intret rep1 =>
  check (intret =? 0) (check (bool_decide (str [] rep1 = hello ++ goodbye)) (
  Invoke (C25 70000) (fun intret rep2 =>
  check (intret =? 0) (check (Z.of_nat (length (str (str [] rep1) rep2)) =? 70000) (
  Invoke (C23 77) (fun intret xx =>
  check ((intret =? 0) && (int 0 xx =? 78)) (
  Invoke (C22 (replicate (Z.to_nat 1000) 120) [120]) (fun _ rep3 =>
  check (Z.of_nat (length (str [] rep3)) =? 1001) (
  Invoke (C22 (replicate (Z.to_nat 1000000) 120) [122]) (fun _ rep4 =>
  check (Z.of_nat (length (str (str (str [] rep1) rep2) rep4)) =? 1000001) (
  BindNobody (fun intret dt => check ((intret <? 0) && (dt <=? 4)) k))))))))))))).

(** What a call with a limit of three seconds returns, and the seconds time()
    counts, when no message arrives and nobody cancels it, and when its thread
    runs within a second of its limit. *)
Definition unanswered (ret dt : Z) : Prop :=
  exists fill l s s' t x u, crun fill l s /\ Forall (fun w => match w with Pdu _ _ | Cancelling => False | _ => True end) l /\
    cstep fill (RpcCalls.Own t) s s' /\ thrs s' !! t = Some x /\ th_pc x = Returned ret u /\ th_to x = 3000 /\
    ns (time s') <= ns (th_begin x) + 4000 * ms /\ dt = tv_sec (time s') - tv_sec (th_begin x).

(** The test aborts for no answers that [ans] allows. *)
Fixpoint passes (ans : tcall -> Z -> option trep -> Prop) (p : test) : Prop :=
  match p with
  | Pass => True
  | Aborted => False
  | Invoke q k => forall ret rep, ans q ret rep -> passes ans (k ret rep)
  | BindNobody k => forall ret dt, unanswered ret dt -> passes ans (k ret dt)
  end.

(** Arguments of their types that fit into a message. *)
Definition tcall_fits (q : tcall) : Prop :=
  match q with
  | C22 a b => Z.of_nat (length a) + Z.of_nat (length b) < 2 ^ 28
  | C23 a | C24 a | C25 a => is_s32 a
  end.

(** What the procedures should answer. *)
Definition expected (q : tcall) : trep :=
  match q with
  | C22 a b => RStr (a ++ b)
  | C23 a => RInt (s32 (a + 1))
  | C24 a => RInt (s32 (a + 2))
  | C25 len => RStr (replicate (Z.to_nat len) 120)
  end.

(** The call reports an error, after four seconds at most. *)
Lemma unanswered_fails ret dt : unanswered ret dt -> ret < 0 /\ dt <= 4.
Proof.
  intros (fill & l & s & s' & t & x & u & Hl & Hq & Hst & Hx & Hpc & Hto & Hdt & ->).
  assert (Hl' : crun fill (RpcCalls.Own t :: l) s') by (by eapply cr_step).
  destruct (crun_begin _ _ _ t x Hl' Hx) as [_ Hb]. destruct (crun_inv _ _ _ Hl') as ([_ HT] & _). split.
  - destruct (returned_cases fill l s s' t x ret u Hl Hst Hx Hpc) as [HA|[HA|[HA|HA]]].
    + destruct HA as [(b & sz & rep & h & Hin & _) _]. rewrite Forall_forall in Hq. by apply Hq in Hin.
    + by destruct HA as [-> _].
    + by destruct HA as [-> _].
    + by destruct HA as (_ & proc & req & _ & _ & [[-> _]|[-> _]]).
  - unfold ns, ms in Hdt. lia.
Qed.

(** ** The tests against answers without an error *)

Section checks.
Variable ans : tcall -> Z -> option trep -> Prop.
Hypothesis ans_expected : forall q ret rep, tcall_fits q -> ans q ret rep -> 0 <= ret -> ret = 0 /\ rep = Some (expected q).

Definition fine (q : tcall) (ret : Z) (rep : option trep) : Prop := ans q ret rep /\ 0 <= ret.
(** An answer or a timeout. *)
Definition timely (q : tcall) (ret : Z) (rep : option trep) : Prop := ans q ret rep /\ (0 <= ret \/ ret = timeout_failure).

Lemma call_passes q k : tcall_fits q -> passes fine (k 0 (Some (expected q))) -> passes fine (Invoke q k).
Proof. intros Hq Hk ret rep [Ha Hret]. by destruct (ans_expected q ret rep Hq Ha Hret) as [-> ->]. Qed.

Lemma check_passes (b : bool) k (f : tcall -> Z -> option trep -> Prop) : b = true -> passes f k -> passes f (check b k).
Proof. by intros ->. Qed.

Lemma rep_size_replicate n c : 0 <= n < 2 ^ 31 -> rep_size (replicate (Z.to_nat n) c) = n.
Proof. intros Hn. unfold rep_size. rewrite length_replicate, Z2Nat.id by lia. apply s32_id. unfold is_s32. lia. Qed.

Lemma mod_s32 r n : 0 < n <= 2000 -> is_s32 (r mod n).
Proof. intros Hn. pose proof (Z.mod_pos_bound r n). unfold is_s32. lia. Qed.

Lemma small_s32 x n : 0 <= x < 2000 -> 0 <= n <= 2 -> s32 (x + n) = x + n.
Proof. intros Hx Hn. apply s32_id. unfold is_s32. lia. Qed.

Lemma client1_sizes_passes rs k : passes fine k -> passes fine (client1_sizes rs k).
Proof.
  intros Hk. induction rs as [|r rs IH]; [done |]. apply call_passes; [by apply mod_s32 |].
  apply check_passes; [done |]. apply check_passes; [| done]. apply Z.eqb_eq, rep_size_replicate.
  pose proof (Z.mod_pos_bound r 2000). lia.
Qed.

Lemma client1_values_passes rs : passes fine (client1_values rs).
Proof.
  induction rs as [|[[r1 r2] junk] rs IH]; [done |]. pose proof (Z.mod_pos_bound r2 1000 eq_refl) as Hr. cbn [client1_values].
  apply call_passes; [destruct (negb _); by apply mod_s32 |]. apply check_passes; [done |]. apply check_passes; [| done].
  apply Z.eqb_eq. destruct (negb _); apply small_s32; lia.
Qed.

Lemma client2_passes rs : passes fine (client2 rs).
Proof.
  induction rs as [|r rs IH]; [done |]. apply call_passes; [by apply mod_s32 |]. apply check_passes; [| done].
  apply Z.eqb_eq, rep_size_replicate. pose proof (Z.mod_pos_bound r 2000). lia.
Qed.

Lemma client3_loop_passes i junks : 0 <= i -> i + Z.of_nat (length junks) < 1000 -> passes timely (client3_loop i junks).
Proof.
  revert i. induction junks as [|j junks IH]; intros i Hi Hn; [done |]. cbn [length] in Hn. intros ret rep [Ha Hret].
  apply check_passes; [| apply IH; lia]. destruct Hret as [Hret| ->]; [| done].
  destruct (ans_expected (C24 i) ret rep) as [-> ->]; [cbn; unfold is_s32; lia | done | done |].
  apply orb_true_iff. right. apply Z.eqb_eq, small_s32; lia.
Qed.

Lemma simple_tests_passes k : passes fine k -> passes fine (simple_tests k).
Proof.
  intros Hk. unfold simple_tests. apply call_passes; [done |]. do 2 (apply check_passes; [done |]).
  apply call_passes; [done |]. apply check_passes; [done |]. apply check_passes.
  { cbn [str expected]. rewrite length_replicate. apply Z.eqb_eq. lia. }
  apply call_passes; [done |]. apply check_passes; [done |].
  apply call_passes; [cbn [tcall_fits]; rewrite length_replicate; cbn [length]; lia |]. apply check_passes.
  { cbn [str expected]. rewrite length_app, length_replicate. apply Z.eqb_eq. cbn [length]. lia. }
  apply call_passes; [cbn [tcall_fits]; rewrite length_replicate; cbn [length]; lia |]. apply check_passes.
  { cbn [str expected]. rewrite length_app, length_replicate. apply Z.eqb_eq. cbn [length]. lia. }
  intros ret dt Hn%unanswered_fails. apply check_passes; [lia | done].
Qed.
End checks.

(** ** The server the test starts *)

Section system.
Variables (room : Z) (fill : nat -> Z).

Definition test_procs (nonce : Z) : gmap Z (handler unit) :=
  <[25 := reg_fn fill cd_int cd_string (fun x => atomically (handle_bigrep room x))]> (<[24 := reg_fn fill cd_int cd_int (fun x => atomically (handle_slow x))]>
  (<[23 := reg_fn fill cd_int cd_int (fun x => atomically (handle_fast x))]> (<[22 := reg_fn fill cd_22 cd_string (fun x => atomically (handle_22 room x))]>
  {[bind := reg_fn fill cd_int cd_int (rpcbind nonce)]}))).

Abbreviation stateless := (fun _ : unit => True).

Lemma startserver_started nonce count s : startserver room fill nonce count = Done s -> started fill (test_procs nonce) tt s.
Proof.
  intros H. unfold startserver in H. apply bind_Done_inv in H as (s0 & S0%started_new & H).
  do 3 (apply bind_Done_inv in H as (? & S1 & H); apply (started_reg fill _ _ _ _ _ _ _ _ S0) in S1; clear S0; rename S1 into S0).
  by apply (started_reg fill _ _ _ _ _ _ _ _ S0) in H.
Qed.

(** A call as it is sent, and its result as it is read. *)
Definition tcall_proc (q : tcall) : Z := match q with C22 _ _ => 22 | C23 _ => 23 | C24 _ => 24 | C25 _ => 25 end.

Definition tcall_args (q : tcall) : outcome marshall :=
  match q with
  | C22 a b => call_args fill cd_22 (a, b)
  | C23 a | C24 a | C25 a => call_args fill cd_int a
  end.

Definition tcall_result (q : tcall) (ret : Z) (u : unmarshall) : outcome (Z * option trep) :=
  match q with
  | C22 _ _ | C25 _ => r ← call_m cd_string ret u; mret (fst r, option_map RStr (snd r))
  | C23 _ | C24 _ => r ← call_m cd_int ret u; mret (fst r, option_map RInt (snd r))
  end.

(** A thread's call returned [ret] and set the result to [rep] in some state a
    system with the test's server can reach. *)
Definition answers (q : tcall) (ret : Z) (rep : option trep) : Prop :=
  exists st t tr u nonce, reach fill stateless st /\ procs_ (node (srv st)) = test_procs nonce /\ threads st !! t = Some tr /\
    t_pc tr = Returned ret u /\ t_proc tr = tcall_proc q /\ tcall_args q = Done (t_args tr) /\
    tcall_result q ret u = Done (ret, rep).

Hypothesis room_limit : room < 2 ^ 29.

Lemma bigrep_typed : typed_method stateless cd_string (fun x => atomically (handle_bigrep room x)).
Proof. apply atomic_typed.
  intros len [] a' y r _ H. unfold handle_bigrep, new_string in H. destruct (_ && _) eqn:E; [| done].
  cbn in H. injection H as <- <- <-. apply andb_true_iff in E as [E1 E2]. split_and!; [| done | done].
  apply string_fits. rewrite length_replicate. lia.
Qed.

Lemma handle_22_typed : typed_method stateless cd_string (fun x => atomically (handle_22 room x)).
Proof. apply atomic_typed.
  intros [a b] [] a' y r _ H. unfold handle_22, append in H. cbn [fst snd] in H.
  destruct (Z.leb_spec (Z.of_nat (length a + length b)) room) as [E|]; [| done].
  injection H as <- <- <-. split_and!; [| done | done]. apply string_fits. rewrite length_app. lia.
Qed.

Lemma fast_typed : typed_method stateless cd_int (fun x => atomically (handle_fast x)).
Proof. apply atomic_typed. intros x a a' y r _ [= <- <- <-]. split_and!; [apply int_fits, s32_range | done | done]. Qed.

Lemma slow_typed : typed_method stateless cd_int (fun x => atomically (handle_slow x)).
Proof. apply atomic_typed. intros x a a' y r _ [= <- <- <-]. split_and!; [apply int_fits, s32_range | done | done]. Qed.

Lemma test_procs_ok nonce : handlers_ok fill stateless (test_procs nonce).
Proof.
  intros p f Hf. unfold test_procs in Hf. rewrite !lookup_insert_Some, lookup_singleton_Some in Hf.
  destruct Hf as [[_ <-]|[_ [[_ <-]|[_ [[_ <-]|[_ [[_ <-]|[_ [_ <-]]]]]]]]]; apply reg_fn_ok;
    [apply bigrep_typed | apply slow_typed | apply fast_typed | apply handle_22_typed | apply rpcbind_typed].
Qed.

Lemma c22_fits a b : tcall_fits (C22 a b) -> fits cd_22 (a, b).
Proof.
  cbn [tcall_fits]. intros H. split; [split; cbn [fst snd c_wf cd_string]; lia |].
  cbn [c_enc cd_22 cd_pair cd_string fst snd]. rewrite !length_app, !length_be32. unfold MSG_LIMIT. lia.
Qed.

(** A call without an error is answered as the procedure should. *)
Lemma answered_expected q ret rep : tcall_fits q -> answers q ret rep -> 0 <= ret -> ret = 0 /\ rep = Some (expected q).
Proof.
  intros Hfit (st & t & tr & u & nonce & Hr & Hp & Ht & Hpc & Hq & Hargs & Hres) Hret.
  destruct q as [a b|a|a|len]; cbn [tcall_proc tcall_args tcall_result expected] in *.
  - destruct (atomic_request fill stateless cd_22 cd_string (handle_22 room) (a, b) st t tr ret u Hr Ht Hpc Hret)
      as (r & a1 & a2 & y & _ & _ & _ & Hm & Hc & _); [rewrite Hq, Hp; reflexivity | by apply c22_fits | done | apply handle_22_typed |].
    unfold handle_22, append in Hm. destruct (_ <=? _); [| done]. cbn in Hm. injection Hm as _ <- <-.
    rewrite Hc in Hres. by injection Hres as <-.
  - destruct (atomic_request fill stateless cd_int cd_int handle_fast a st t tr ret u Hr Ht Hpc Hret)
      as (r & a1 & a2 & y & _ & _ & _ & Hm & Hc & _); [rewrite Hq, Hp; reflexivity | by apply int_fits | done | apply fast_typed |].
    injection Hm as _ <- <-. rewrite Hc in Hres. by injection Hres as <-.
  - destruct (atomic_request fill stateless cd_int cd_int handle_slow a st t tr ret u Hr Ht Hpc Hret)
      as (r & a1 & a2 & y & _ & _ & _ & Hm & Hc & _); [rewrite Hq, Hp; reflexivity | by apply int_fits | done | apply slow_typed |].
    injection Hm as _ <- <-. rewrite Hc in Hres. by injection Hres as <-.
  - destruct (atomic_request fill stateless cd_int cd_string (handle_bigrep room) len st t tr ret u Hr Ht Hpc Hret)
      as (r & a1 & a2 & y & _ & _ & _ & Hm & Hc & _); [rewrite Hq, Hp; reflexivity | by apply int_fits | done | apply bigrep_typed |].
    unfold handle_bigrep, new_string in Hm. destruct (_ && _); [| done]. cbn in Hm. injection Hm as _ <- <-.
    rewrite Hc in Hres. by injection Hres as <-.
Qed.

(** A call with an error leaves the result as it was. *)
Lemma answered_error q ret rep :
  answers q ret rep -> ret < 0 -> rep = None /\ (ret = timeout_failure \/ ret = cancel_failure \/ ret = oldsrv_failure).
Proof.
  intros (st & t & tr & u & nonce & Hr & Hp & Ht & Hpc & Hq & Hargs & Hres) Hret.
  assert (Hc : forall R (c : codec R), call_m c ret u = Done (ret, None)).
  { intros R c. unfold call_m. by rewrite (proj2 (Z.ltb_lt ret 0) Hret). }
  split.
  - destruct q; cbn [tcall_result] in Hres; rewrite Hc in Hres; by injection Hres as <-.
  - destruct (call_errors_cases fill stateless st t tr ret u Hr Ht Hpc); [lia | done].
Qed.
End system.

Lemma testmarshall_passes fill : testmarshall fill = Done tt.
Proof. vm_compute. reflexivity. Qed.

(** The loop of client1 aborts at the first call that reports an error. *)
Lemma client1_aborts r rs k ret rep : ret < 0 ->
  match client1_sizes (r :: rs) k with Invoke _ f => f ret rep = Aborted | _ => False end.
Proof. intros Hret. cbn [client1_sizes]. by rewrite (proj2 (Z.eqb_neq ret 0)) by lia. Qed.

(** A second bind of a client is refused before anything is sent. *)
Lemma second_bind_refused fill t req to now c : bind_done_ c = true -> call1_begin fill t bind req to now c = Done (c, inl bind_failure).
Proof. intros H. unfold call1_begin. by rewrite H. Qed.

(** C14: no check of the RPC test program fails because of a wrong answer.
    testmarshall reads back what it packed.  The loops of simple_tests, client1
    and client2 get through on any answers without an error that a system with
    the test's server can give, whatever is lost, repeated or reordered (and
    the bind to a server that does not exist fails within four seconds, if its
    thread runs within a second of its time limit);
    client3 also gets through timeouts.  A call with an error, which is a
    timeout, a cancellation or a replaced server, leaves the result unset, and
    makes client1 abort. *)
Theorem rpctest_passes room fill :
  room < 2 ^ 29 ->
  testmarshall fill = Done tt /\
  (forall rs rs', passes (fine (answers room fill)) (simple_tests (client1 rs rs'))) /\
  (forall rs, passes (fine (answers room fill)) (client2 rs)) /\
  (forall j0 j1 j2 j3, passes (timely (answers room fill)) (client3 j0 j1 j2 j3)) /\
  (forall q ret rep, answers room fill q ret rep -> ret < 0 ->
     rep = None /\ (ret = timeout_failure \/ ret = cancel_failure \/ ret = oldsrv_failure)) /\
  (forall r rs k ret rep, ret < 0 -> match client1_sizes (r :: rs) k with Invoke _ f => f ret rep = Aborted | _ => False end).
Proof.
  intros Hroom. pose proof (answered_expected room fill Hroom) as Ha. split_and!.
  - apply testmarshall_passes.
  - intros rs rs'. apply simple_tests_passes; [done |]. apply client1_sizes_passes; [done |]. by apply client1_values_passes.
  - intros rs. by apply client2_passes.
  - intros j0 j1 j2 j3. by apply client3_loop_passes.
  - apply answered_error.
  - apply client1_aborts.
Qed.

(** ** A run: a client binds and calls procedure 23 *)

Definition demo_test_srv : rpcs unit :=
  match startserver 1000000 demo_fill 77 0 with Done s => s | Fault _ => Rpcs 77 ∅ ∅ ∅ ∅ 0 0 ∅ tt [] end.

Definition demo_test_sys : @sys unit := Sys (rpcc_new true 5 0) ∅ (Server demo_test_srv []) [] [] [].

Definition demo_test_calls : list action :=
  demo_bind ++
  [ABegin 1 23 (tcall_args demo_fill (C23 77)) 3000 (Timespec 11 0); ASend 1 alive None; AArm 1 (Timespec 11 5);
   AServe 8 0; AServe 8 0] ++ steps 0 11 ++ steps 0 6 ++ [AReply 0; AReply 1; AWake 1 alive; AEnd 1].

Lemma demo_test_start : start demo_fill (fun _ : unit => True) demo_test_sys.
Proof.
  assert (H : startserver 1000000 demo_fill 77 0 = Done demo_test_srv) by reflexivity.
  apply (started_start demo_fill _ _ _ _ 5 0 (startserver_started _ _ _ _ _ H)); [done | by apply test_procs_ok | exact I].
Qed.

Lemma demo_test_answers : answers 1000000 demo_fill (C23 77) 0 (Some (RInt 78)).
Proof.
  assert (Hfin : match perform_all demo_fill demo_test_calls demo_test_sys with
    | Done s => match threads s !! 1%nat with
                | Some tr => match t_pc tr with
                             | Returned ret u => ret = 0 /\ t_proc tr = 23 /\ tcall_args demo_fill (C23 77) = Done (t_args tr) /\
                                 tcall_result (C23 77) ret u = Done (0, Some (RInt 78))
                             | _ => False
                             end
                | None => False
                end
    | Fault _ => False
    end) by (vm_compute; repeat split).
  destruct (perform_all demo_fill demo_test_calls demo_test_sys) as [s|] eqn:Hs; [| destruct Hfin].
  destruct (threads s !! 1%nat) as [tr|] eqn:Ht; [| destruct Hfin].
  destruct (t_pc tr) as [| | | |ret u] eqn:Hpc; [destruct Hfin | destruct Hfin | destruct Hfin | destruct Hfin |].
  destruct Hfin as (-> & Hp & Hargs & Hres).
  destruct (perform_all_reach demo_fill _ _ _ _ (reach_start0 _ _ _ demo_test_start) Hs) as [Hreach Hproc].
  exists s, 1%nat, tr, u, 77. by split_and!.
Qed.

Lemma rpctest_passes_witness :
  fine (answers 1000000 demo_fill) (C23 77) 0 (Some (RInt 78)) /\
  passes (fine (answers 1000000 demo_fill)) (simple_tests (client1 [5] [(1, 2, 3)])).
Proof.
  split; [split; [apply demo_test_answers | discriminate] |].
  destruct (rpctest_passes 1000000 demo_fill) as (_ & H & _); [reflexivity |]. apply H.
Defined.
