(* ===== verification/ConnSend.v ===== *)
(** * Many senders on one connection (src/rpc/connection.cc: send, write_cb)

    Threads call send on the same connection while the poll thread calls
    write_cb and the connection may be closed.  A step is what happens under
    the connection's mutex; send is cut at its two waits and where it gives up
    the mutex to call block_remove_fd: [send_enter] is the part up to there and
    [send_leave] the rest.  Waiting threads may wake up for no reason.

    Connection.v has the same code for one sender, as a single run. *)

From S2P Require Import Prelude Marshall Connection.
#[local] Set Warnings "-clear-no-such-hyp".

(** Where a thread is in send: waiting for the other sender, waiting for its
    message to go out (or for block_remove_fd), or back with a result. *)
Inductive sender := SWait (b : list Z) | SOwner (b : list Z) | SDone (b : list Z) (ret : bool).

(** The connection and whether CB_WRONLY is registered for it. *)
Definition send_enter (b : list Z) (w : wres) (c : connection) (cb : bool)
    : outcome (connection * bool * sender * list Z) :=
  if dead c then mret (c, cb, SDone b false, [])
  else if negb (bool_decide (c_buf (wpdu c) = None)) then mret (c, cb, SWait b, [])
  else
    r ← writepdu w (Charbuf (Some b) (Z.of_nat (length b)) 0);
    let '(ok, p, bs) := r in
    let c := set_wpdu p c in
    if negb ok then mret (kill c, cb, SOwner b, bs)
    else if c_solong p =? c_sz p then mret (set_wpdu charbuf_new c, cb, SDone b true, bs)
    else mret (c, true, SOwner b, bs).

(** The loop around the second wait ends. *)
Definition send_over (c : connection) : bool :=
  negb (negb (dead c) && (0 <=? c_solong (wpdu c)) && (c_solong (wpdu c) <? c_sz (wpdu c))).

Definition send_leave (c : connection) : connection * bool :=
  (set_wpdu charbuf_new c, negb (dead c) && (c_solong (wpdu c) =? c_sz (wpdu c))).

(** write_cb unregisters the callback when there is nothing to write, and
    both callbacks when the write fails. *)
Definition write_cb_keeps (w : wres) (c : connection) : bool :=
  negb (c_sz (wpdu c) =? 0) && negb (fails w).

(** The bytes on the wire so far, and the sends that were successful. *)
Record nstate := NState {
  cn : connection; wcb : bool; senders : gmap nat sender; wire : list Z; sent : list (nat * list Z)
}.

Definition note_sent (t : nat) (x : sender) (l : list (nat * list Z)) : list (nat * list Z) :=
  match x with SDone b true => l ++ [(t, b)] | _ => l end.

(** A thread that calls send, or waits for the other sender. *)
Definition entering (t : nat) (b : list Z) (m : gmap nat sender) : Prop :=
  (m !! t = None /\ (4 <= length b)%nat) \/ m !! t = Some (SWait b).

Inductive nstep : nstate -> nstate -> Prop :=
| ns_enter t b w c' cb' x bs c cb m wr l :
    entering t b m -> wres_ok (Z.of_nat (length b)) w -> send_enter b w c cb = Done (c', cb', x, bs) ->
    nstep (NState c cb m wr l) (NState c' cb' (<[t := x]> m) (wr ++ bs) (note_sent t x l))
| ns_write w c' bs c m wr l :
    wres_ok (c_sz (wpdu c) - c_solong (wpdu c)) w -> write_cb w c = Done (c', bs) ->
    nstep (NState c true m wr l) (NState c' (write_cb_keeps w c) m (wr ++ bs) l)
| ns_leave t b c cb m wr l :
    m !! t = Some (SOwner b) -> send_over c = true ->
    nstep (NState c cb m wr l)
      (NState (fst (send_leave c)) cb (<[t := SDone b (snd (send_leave c))]> m) wr (note_sent t (SDone b (snd (send_leave c))) l))
(* closeconn, or a read that fails *)
| ns_kill c cb m wr l : nstep (NState c cb m wr l) (NState (kill c) cb m wr l)
(* block_remove_fd *)
| ns_removed c cb m wr l : dead c = true -> nstep (NState c cb m wr l) (NState c false m wr l).

Inductive nreach : nstate -> Prop :=
| nr_start t : nreach (NState (connection_new t) false ∅ [] [])
| nr_step s s' : nreach s -> nstep s s' -> nreach s'.

(** ** The invariant *)

Definition frames (l : list (nat * list Z)) : list Z := mjoin (frame <$> l.*2).

(** What is on the wire: the frames of the successful sends and the part of
    the one in progress, or of the one at which the connection died. *)
Definition wire_ok (s : nstate) : Prop :=
  if dead (cn s) then exists b k, wire s = frames (sent s) ++ take k (frame b)
  else match c_buf (wpdu (cn s)) with
       | None => wire s = frames (sent s)
       | Some _ => exists t b out, senders s !! t = Some (SOwner b) /\ (4 <= length b)%nat /\
           sending b (wpdu (cn s)) out /\ wire s = frames (sent s) ++ out
       end.

Definition owners_ok (s : nstate) : Prop :=
  (forall t b, senders s !! t = Some (SOwner b) -> c_buf (wpdu (cn s)) <> None) /\
  (forall t t' b b', senders s !! t = Some (SOwner b) -> senders s !! t' = Some (SOwner b') -> t' = t).

Definition results_ok (s : nstate) : Prop :=
  NoDup (sent s).*1 /\ (forall t b, (t, b) ∈ sent s <-> senders s !! t = Some (SDone b true)) /\
  (forall t b, senders s !! t = Some (SWait b) -> (4 <= length b)%nat).

Definition net_inv (s : nstate) : Prop := wire_ok s /\ owners_ok s /\ results_ok s.

Lemma frames_snoc l t b : frames (l ++ [(t, b)]) = frames l ++ frame b.
Proof. unfold frames. rewrite !fmap_app, join_app. cbn. by rewrite app_nil_r. Qed.

Lemma sending_start b : sending b (Charbuf (Some b) (Z.of_nat (length b)) 0) [].
Proof. split_and!; cbn; try lia; [done |]. exists b. by split_and!. Qed.

Lemma sending_full b p out : (4 <= length b)%nat -> sending b p out -> c_solong p = c_sz p -> out = frame b.
Proof. intros Hb (Hsz & _ & -> & _) E. rewrite E, Hsz, Nat2Z.id. apply take_ge. by rewrite length_frame. Qed.

Lemma sending_buf b p out : sending b p out -> c_buf p <> None.
Proof. intros (_ & _ & _ & x & -> & _). done. Qed.

(** The result of [send_enter] on an open connection that nobody uses. *)
Lemma send_enter_open b w c cb :
  (4 <= length b)%nat -> wres_ok (Z.of_nat (length b)) w -> dead c = false -> c_buf (wpdu c) = None ->
  exists p bs, send_enter b w c cb = Done
    (if fails w then (kill (set_wpdu p c), cb, SOwner b, bs)
     else if c_solong p =? c_sz p then (set_wpdu charbuf_new (set_wpdu p c), cb, SDone b true, bs)
     else (set_wpdu p c, true, SOwner b, bs)) /\
    if fails w then bs = [] /\ c_buf p <> None else sending b p bs.
Proof.
  intros Hb Hw Hd Hn. unfold send_enter. rewrite Hd, Hn, bool_decide_true by done. cbn [negb].
  destruct (writepdu_sending w b _ [] Hb (sending_start b)) as (p & bs & Hwr & Hp);
    [cbn; lia | cbn [c_sz c_solong]; by rewrite Z.sub_0_r |].
  rewrite Hwr, bind_Done, negb_involutive. exists p, bs. destruct (fails w) eqn:Hf.
  - split; [done |]. destruct Hp as [-> _]. split; [done |].
    unfold writepdu in Hwr. cbn [c_solong c_sz c_buf] in Hwr. destruct (Z.eqb_spec 0 (Z.of_nat (length b))); [lia |].
    cbn [verify Z.leb] in Hwr. rewrite Z.eqb_refl, store_header, !bind_Done in Hwr by lia.
    destruct w as [|[]]; try done. by injection Hwr as <-.
  - split; [by destruct (_ =? _) |]. apply Hp.
Qed.

Lemma writepdu_keeps_buf w p ok p' bs : writepdu w p = Done (ok, p', bs) -> c_buf p <> None -> c_buf p' <> None.
Proof.
  intros H Hn. unfold writepdu in H. apply bind_Done_inv in H as ([] & _ & H). destruct (_ =? _); [by injection H as <- <- <- |].
  destruct (c_buf p) as [b|]; [| done]. apply bind_Done_inv in H as (b' & _ & H). destruct w as [n|[]].
  - apply bind_Done_inv in H as (x & _ & H). by injection H as <- <- <-.
  - by injection H as <- <- <-.
  - by injection H as <- <- <-.
Qed.

(** ** Steps *)

Lemma results_insert t x s c cb wr :
  results_ok s -> (forall b, x = SWait b -> (4 <= length b)%nat) -> (forall b, senders s !! t <> Some (SDone b true)) ->
  results_ok (NState c cb (<[t := x]> (senders s)) wr (note_sent t x (sent s))).
Proof.
  intros (H1 & H2 & H3) Hx Ht. assert (Hn : forall b, (t, b) ∉ sent s) by (intros b Hb; apply H2 in Hb; by destruct (Ht b)).
  split_and!; cbn [senders sent].
  - destruct x as [| |b [|]]; cbn [note_sent]; try done. rewrite fmap_app. apply NoDup_app. cbn. split_and!; [done | | apply NoDup_singleton].
    intros t' Ht' ->%list_elem_of_singleton. apply list_elem_of_fmap in Ht' as ([t0 b0] & -> & Hin). by destruct (Hn b0).
  - intros t' b. rewrite lookup_insert. case_decide as Hd.
    + subst t'. split.
      * intros Hin. destruct x as [| |b' [|]]; cbn [note_sent] in Hin; try (by destruct (Hn b)).
        apply elem_of_app in Hin as [Hin|Hin]; [by destruct (Hn b) |]. apply list_elem_of_singleton in Hin. by injection Hin as <-.
      * intros [= ->]. cbn [note_sent]. set_solver.
    + rewrite <- H2. destruct x as [| |b' [|]]; cbn [note_sent]; try done. rewrite elem_of_app, list_elem_of_singleton.
      split; [intros [?|[= -> _]]; done | by left].
  - intros t' b. rewrite lookup_insert. case_decide; [intros [= ->]; by apply Hx | apply H3].
Qed.

Lemma owners_insert t x s c cb wr l :
  owners_ok s -> (forall b, x <> SOwner b) ->
  ((forall b, senders s !! t <> Some (SOwner b)) /\ (c_buf (wpdu (cn s)) <> None -> c_buf (wpdu c) <> None) \/
   (exists b, senders s !! t = Some (SOwner b))) ->
  owners_ok (NState c cb (<[t := x]> (senders s)) wr l).
Proof.
  intros [H1 H2] Hx Hc. split; cbn [senders cn].
  - intros t' b Ht'. apply lookup_insert_Some in Ht' as [[_ ->]|[Hne Ht']]; [by destruct (Hx b) |].
    destruct Hc as [[_ Hc]|[b' Hb']]; [by eapply Hc, H1 |]. destruct Hne. by eapply H2.
  - intros t1 t2 b1 b2 Ht1 Ht2. apply lookup_insert_Some in Ht1 as [[_ ->]|[_ Ht1]]; [by destruct (Hx b1) |].
    apply lookup_insert_Some in Ht2 as [[_ ->]|[_ Ht2]]; [by destruct (Hx b2) |]. by eapply H2.
Qed.

Lemma owners_new t b c cb wr l (m : gmap nat sender) :
  (forall t' b', m !! t' <> Some (SOwner b')) -> c_buf (wpdu c) <> None -> owners_ok (NState c cb (<[t := SOwner b]> m) wr l).
Proof.
  intros Hno Hc. split; cbn [senders cn]; [done |]. intros t1 t2 b1 b2 Ht1 Ht2.
  apply lookup_insert_Some in Ht1 as [[<- _]|[_ Ht1]]; [| by destruct (Hno t1 b1)].
  apply lookup_insert_Some in Ht2 as [[<- _]|[_ Ht2]]; [done | by destruct (Hno t2 b2)].
Qed.

Lemma enter_inv t b w c' cb' x bs c cb m wr l :
  net_inv (NState c cb m wr l) -> entering t b m -> wres_ok (Z.of_nat (length b)) w -> send_enter b w c cb = Done (c', cb', x, bs) ->
  net_inv (NState c' cb' (<[t := x]> m) (wr ++ bs) (note_sent t x l)).
Proof.
  intros (HW & HO & HR) He Hw Hs.
  assert (Hb : (4 <= length b)%nat) by (destruct He as [[_ ?]|He]; [done |]; destruct HR as (_ & _ & H3); by apply (H3 t)).
  assert (Hnt : (forall b', m !! t <> Some (SOwner b')) /\ (forall b', m !! t <> Some (SDone b' true)))
    by (destruct He as [[-> _]| ->]; done).
  destruct Hnt as [Hno Hnd]. unfold wire_ok in HW. cbn [cn wire sent senders] in HW.
  destruct (dead c) eqn:Hd; [| destruct (c_buf (wpdu c)) as [bf|] eqn:Hbuf].
  - unfold send_enter in Hs. rewrite Hd in Hs. injection Hs as <- <- <- <-. rewrite app_nil_r. split_and!.
    + unfold wire_ok. cbn [cn wire sent note_sent]. by rewrite Hd.
    + apply (owners_insert t _ (NState c cb m wr l)); [done | done | by left].
    + by apply (results_insert t (SDone b false) (NState c cb m wr l)).
  - unfold send_enter in Hs. rewrite Hd, Hbuf, bool_decide_false in Hs by done. injection Hs as <- <- <- <-. rewrite app_nil_r.
    split_and!.
    + unfold wire_ok. cbn [cn wire sent senders note_sent]. rewrite Hd, Hbuf. destruct HW as (t' & b' & out & Ht' & HW).
      exists t', b', out. split; [| done]. rewrite lookup_insert_ne; [done |]. intros ->. by destruct (Hno b').
    + apply (owners_insert t _ (NState c cb m wr l)); [done | done | by left].
    + apply (results_insert t (SWait b) (NState c cb m wr l)); [done | by intros ? [= <-] | done].
  - assert (Hnone : forall t' b', m !! t' <> Some (SOwner b')) by (intros t' b' Ht'; by destruct (proj1 HO t' b' Ht')).
    destruct (send_enter_open b w c cb Hb Hw Hd Hbuf) as (p & bs' & Hs' & Hp). rewrite Hs in Hs'. injection Hs' as Hs'.
    destruct (fails w); [| destruct (Z.eqb_spec (c_solong p) (c_sz p)) as [Ef|Ef]]; injection Hs' as -> -> -> ->.
    + destruct Hp as [-> Hp]. rewrite app_nil_r. split_and!; [| by apply owners_new |].
      * unfold wire_ok. cbn [cn kill dead wire sent note_sent]. exists b, 0%nat. by rewrite app_nil_r.
      * by apply (results_insert t (SOwner b) (NState c cb m wr l)).
    + split_and!.
      * unfold wire_ok. cbn [cn set_wpdu dead wpdu wire sent note_sent charbuf_new c_buf]. rewrite Hd, frames_snoc, HW.
        by rewrite (sending_full b p bs').
      * apply (owners_insert t _ (NState c cb m wr l)); [done | done |]. left. split; [done |]. cbn [cn]. by rewrite Hbuf.
      * by apply (results_insert t (SDone b true) (NState c cb m wr l)).
    + pose proof (sending_buf _ _ _ Hp) as Hnb. split_and!; [| by apply owners_new |].
      * unfold wire_ok. cbn [cn set_wpdu dead wpdu wire sent senders note_sent]. rewrite Hd.
        destruct (c_buf p) eqn:Ebp; [| done]. exists t, b, bs'. split_and!; [apply lookup_insert_eq | done | done | by rewrite HW].
      * by apply (results_insert t (SOwner b) (NState c cb m wr l)).
Qed.

(** write_cb keeps the dead flag or sets it when the write fails. *)
Lemma write_cb_inv w c' bs c cb cb' m wr l :
  net_inv (NState c cb m wr l) -> wres_ok (c_sz (wpdu c) - c_solong (wpdu c)) w -> write_cb w c = Done (c', bs) ->
  net_inv (NState c' cb' m (wr ++ bs) l).
Proof.
  intros (HW & HO & HR) Hw H. unfold wire_ok in HW. cbn [cn wire sent senders] in HW. unfold write_cb in H.
  destruct (dead c) eqn:Hd; [done |]. cbn [negb verify] in H. rewrite bind_Done in H.
  destruct (Z.eqb_spec (c_sz (wpdu c)) 0) as [Hz|Hz].
  { injection H as <- <-. rewrite app_nil_r. split_and!; [| done | done]. unfold wire_ok. cbn [cn wire sent senders]. by rewrite Hd. }
  destruct (c_buf (wpdu c)) as [bf|] eqn:Hbuf.
  - destruct HW as (t & b & out & Ht & Hb & Hs & HW). pose proof Hs as (Hsz & Hso & Hout & _).
    destruct (Z.eqb_spec (c_solong (wpdu c)) (c_sz (wpdu c))) as [Ef|Ef].
    + unfold writepdu in H. rewrite (proj2 (Z.leb_le _ _)) in H by lia. cbn [verify] in H. rewrite bind_Done, Ef, Z.eqb_refl, bind_Done in H.
      cbn [negb] in H. rewrite (proj2 (Z.leb_le _ _)) in H by lia. cbn [verify] in H. rewrite bind_Done in H. injection H as <- <-.
      rewrite app_nil_r. assert (Hc : set_wpdu (wpdu c) c = c) by (by destruct c). rewrite Hc.
      split_and!; [| done | done]. unfold wire_ok. cbn [cn wire sent senders]. rewrite Hd, Hbuf. by exists t, b, out.
    + destruct (writepdu_sending w b (wpdu c) out Hb Hs ltac:(lia) Hw) as (p & bs' & Hwr & Hp). rewrite Hwr, bind_Done in H.
      rewrite negb_involutive in H. destruct (fails w) eqn:Hf.
      * injection H as <- <-. destruct Hp as [-> _]. rewrite app_nil_r. split_and!; [| | done].
        { unfold wire_ok. cbn [cn kill set_wpdu dead wire sent]. exists b, (Z.to_nat (c_solong (wpdu c))). by rewrite HW, Hout. }
        { destruct HO as [HO1 HO2]. split; [| done]. intros t' b' Ht'. cbn [cn kill set_wpdu wpdu].
          eapply writepdu_keeps_buf; [exact Hwr | by rewrite Hbuf]. }
      * destruct Hp as [Hp Hso']. pose proof Hp as (_ & Hr & _). rewrite (proj2 (Z.leb_le _ _)) in H by lia.
        cbn [verify] in H. rewrite bind_Done in H. injection H as <- <-. pose proof (sending_buf _ _ _ Hp) as Hnb.
        split_and!; [| | done].
        { unfold wire_ok. cbn [cn set_wpdu dead wpdu wire sent senders]. rewrite Hd. destruct (c_buf p); [| done].
          exists t, b, (out ++ bs'). by rewrite HW, app_assoc. }
        { destruct HO as [HO1 HO2]. by split. }
  - unfold writepdu in H. apply bind_Done_inv in H as ([[ok p] bs'] & Hwr & H). apply bind_Done_inv in Hwr as ([] & _ & Hwr).
    destruct (Z.eqb_spec (c_solong (wpdu c)) (c_sz (wpdu c))) as [Ef|Ef]; [| by rewrite Hbuf in Hwr]. injection Hwr as <- <- <-.
    cbn [negb] in H. apply bind_Done_inv in H as ([] & _ & H). injection H as <- <-. rewrite app_nil_r.
    assert (Hc : set_wpdu (wpdu c) c = c) by (by destruct c). rewrite Hc. split_and!; [| done | done].
    unfold wire_ok. cbn [cn wire sent senders]. by rewrite Hd, Hbuf.
Qed.

Lemma leave_inv t b c cb m wr l :
  net_inv (NState c cb m wr l) -> m !! t = Some (SOwner b) -> send_over c = true ->
  net_inv (NState (fst (send_leave c)) cb (<[t := SDone b (snd (send_leave c))]> m) wr (note_sent t (SDone b (snd (send_leave c))) l)).
Proof.
  intros (HW & HO & HR) Ht Ho. unfold wire_ok in HW. cbn [cn wire sent senders] in HW.
  assert (HO' : forall x l', (forall b', x <> SOwner b') -> owners_ok (NState (fst (send_leave c)) cb (<[t := x]> m) wr l'))
    by (intros x l' Hx; apply (owners_insert t x (NState c cb m wr l)); [done | done | right; by exists b]).
  assert (HR' : forall r wr', results_ok (NState (fst (send_leave c)) cb (<[t := SDone b r]> m) wr' (note_sent t (SDone b r) l)))
    by (intros r wr'; apply (results_insert t (SDone b r) (NState c cb m wr l)); [done | done | cbn [senders]; by rewrite Ht]).
  split_and!; [| by apply HO' | by apply HR']. unfold wire_ok. cbn [cn wire sent send_leave fst snd set_wpdu dead wpdu charbuf_new c_buf].
  unfold send_over in Ho. destruct (dead c) eqn:Hd; [done |]. cbn [negb andb] in *.
  destruct (c_buf (wpdu c)) eqn:Hbuf; [| by destruct (proj1 HO t b Ht)].
  destruct HW as (t' & b' & out & Ht' & Hb & Hs & HW). assert (t' = t) as -> by by eapply (proj2 HO).
  rewrite Ht in Ht'. injection Ht' as <-. pose proof Hs as (Hsz & Hso & _). rewrite (proj2 (Z.leb_le _ _)) in Ho by lia. cbn [andb] in Ho.
  apply negb_true_iff, Z.ltb_ge in Ho. assert (Ef : c_solong (wpdu c) = c_sz (wpdu c)) by lia. rewrite Ef, Z.eqb_refl.
  cbn [note_sent]. rewrite frames_snoc, HW. by rewrite (sending_full b (wpdu c) out).
Qed.

Lemma kill_inv c cb m wr l : net_inv (NState c cb m wr l) -> net_inv (NState (kill c) cb m wr l).
Proof.
  intros (HW & HO & HR). split_and!; [| done | done]. unfold wire_ok in *. cbn [cn wire sent senders kill dead] in *.
  destruct (dead c); [done |]. destruct (c_buf (wpdu c)).
  - destruct HW as (t & b & out & _ & _ & (_ & _ & -> & _) & HW). by eexists b, _.
  - exists [], 0%nat. by rewrite app_nil_r.
Qed.

Lemma nreach_inv s : nreach s -> net_inv s.
Proof.
  induction 1 as [t|s s' _ IH H].
  - split_and!; [done | split; cbn [senders]; [intros t' b | intros t' t'' b b']; by rewrite lookup_empty |]. split_and!; cbn [senders sent].
    + apply NoDup_nil_2.
    + intros t' b. rewrite lookup_empty. split; [| done]. by intros ?%not_elem_of_nil.
    + intros t' b. by rewrite lookup_empty.
  - destruct H as [t b w c' cb' x bs c cb m wr l He Hw Hs|w c' bs c m wr l Hw Hs|t b c cb m wr l Ht Ho|c cb m wr l|c cb m wr l Hd].
    + by eapply enter_inv.
    + by eapply write_cb_inv.
    + by apply leave_inv.
    + by eapply kill_inv.
    + done.
Qed.

(** C19: sends of many threads on one connection do not mix: while the
    connection is open the bytes on the wire are the frames of the successful
    sends, one after the other, followed by a part of the frame of the one
    send in progress; once it is dead they stay frames followed by a part of
    one frame.  A send returns success exactly for the frames on the wire, and
    each frame is there once. *)
Theorem sends_do_not_mix s :
  nreach s ->
  NoDup (sent s).*1 /\ (forall t b, (t, b) ∈ sent s <-> senders s !! t = Some (SDone b true)) /\
  (exists b k, wire s = frames (sent s) ++ take k (frame b)) /\
  (dead (cn s) = false -> (forall t b, senders s !! t <> Some (SOwner b)) -> wire s = frames (sent s)).
Proof.
  intros H. destruct (nreach_inv s H) as (HW & HO & (H1 & H2 & _)). unfold wire_ok in HW. split_and!; [done | done | |].
  - destruct (dead (cn s)); [done |]. destruct (c_buf (wpdu (cn s))).
    + destruct HW as (t & b & out & _ & _ & (_ & _ & -> & _) & HW). by eexists b, _.
    + exists [], 0%nat. by rewrite app_nil_r.
  - intros Hd Hno. rewrite Hd in HW. destruct (c_buf (wpdu (cn s))); [| done].
    destruct HW as (t & b & out & Ht & _). by destruct (Hno t b).
Qed.

(** ** A run: two senders *)

Definition msg1 : list Z := [0; 0; 0; 0; 11; 12].
Definition msg2 : list Z := [0; 0; 0; 0; 21].

Inductive send_action := DoEnter (t : nat) (b : list Z) (w : wres) | DoWrite (w : wres) | DoLeave (t : nat) | DoKill.

Definition wres_okb (r : Z) (w : wres) : bool := match w with Wrote n => (0 <=? n) && (n <=? r) | WErr _ => true end.

Definition do_send (a : send_action) (s : nstate) : outcome nstate :=
  let '(NState c cb m wr l) := s in
  match a with
  | DoEnter t b w =>
      _ ← verify (match m !! t with None => (4 <=? length b)%nat | Some (SWait b') => bool_decide (b' = b) | _ => false end
                  && wres_okb (Z.of_nat (length b)) w);
      r ← send_enter b w c cb;
      let '(c', cb', x, bs) := r in mret (NState c' cb' (<[t := x]> m) (wr ++ bs) (note_sent t x l))
  | DoWrite w =>
      _ ← verify (cb && wres_okb (c_sz (wpdu c) - c_solong (wpdu c)) w);
      r ← write_cb w c; mret (NState (fst r) (write_cb_keeps w c) m (wr ++ snd r) l)
  | DoLeave t =>
      match m !! t with
      | Some (SOwner b) =>
          _ ← verify (send_over c);
          mret (NState (fst (send_leave c)) cb (<[t := SDone b (snd (send_leave c))]> m) wr
                       (note_sent t (SDone b (snd (send_leave c))) l))
      | _ => Fault OutOfBounds
      end
  | DoKill => mret (NState (kill c) cb m wr l)
  end.

Lemma wres_okb_ok r w : wres_okb r w = true -> wres_ok r w.
Proof. destruct w; cbn; [lia | done]. Qed.

Lemma do_send_step a s s' : do_send a s = Done s' -> nstep s s'.
Proof.
  destruct s as [c cb m wr l]. destruct a as [t b w|w|t|]; cbn [do_send]; intros H.
  - apply bind_Done_inv in H as ([] & Hv%verify_Done & H). apply bind_Done_inv in H as ([[[c' cb'] x] bs] & Hs & H). injection H as <-.
    apply andb_true_iff in Hv as [Hv1 Hv2]. eapply ns_enter; [| by apply wres_okb_ok | exact Hs].
    destruct (m !! t) as [[b'| |]|] eqn:Ht; try done; [right; apply bool_decide_eq_true in Hv1; by subst | left].
    split; [done |]. by apply Nat.leb_le.
  - apply bind_Done_inv in H as ([] & Hv%verify_Done & H). apply bind_Done_inv in H as ([c' bs] & Hs & H). injection H as <-.
    apply andb_true_iff in Hv as [-> Hv]. apply ns_write; [by apply wres_okb_ok | done].
  - destruct (m !! t) as [[|b|]|] eqn:Ht; try done. apply bind_Done_inv in H as ([] & Hv%verify_Done & H). injection H as <-.
    by apply ns_leave.
  - injection H as <-. apply ns_kill.
Qed.

Definition do_sends (l : list send_action) (s : nstate) : outcome nstate :=
  foldl (fun r a => s ← r; do_send a s) (Done s) l.

Lemma do_sends_reach l s s' : nreach s -> do_sends l s = Done s' -> nreach s'.
Proof.
  unfold do_sends. revert s. induction l as [|a l IH]; intros s Hs H; cbn [foldl] in H; [by injection H as <- |].
  rewrite bind_Done in H. destruct (do_send a s) as [s1|f] eqn:Ha.
  - eapply IH; [| exact H]. eapply nr_step; [exact Hs | by eapply do_send_step].
  - exfalso. clear -H. induction l as [|b l IH]; cbn in H; [done | by apply IH].
Qed.

Definition send_script : list send_action :=
  [DoEnter 0 msg1 (Wrote 3); DoEnter 1 msg2 (Wrote 5); DoWrite (WErr true); DoWrite (Wrote 3); DoLeave 0; DoEnter 1 msg2 (Wrote 5)].

Definition quiet : nstate := NState (connection_new (0, 0)) false ∅ [] [].

Lemma sends_do_not_mix_witness :
  match do_sends send_script quiet with
  | Done s => (exists b k, wire s = frames (sent s) ++ take k (frame b)) /\ sent s = [(0%nat, msg1); (1%nat, msg2)] /\
      wire s = [0; 0; 0; 6; 11; 12; 0; 0; 0; 5; 21]
  | Fault _ => False
  end.
Proof.
  assert (H : match do_sends send_script quiet with Done s => sent s = [(0%nat, msg1); (1%nat, msg2)] /\
    wire s = [0; 0; 0; 6; 11; 12; 0; 0; 0; 5; 21] | Fault _ => False end) by (vm_compute; split; reflexivity).
  destruct (do_sends send_script quiet) as [s|] eqn:E; [| destruct H]. split; [| exact H].
  apply (sends_do_not_mix s). eapply do_sends_reach; [| exact E]. apply nr_start.
Defined.

(** A connection that is closed while a send waits can still have its write
    callback registered, and write_cb aborts on a dead connection. *)
Lemma write_cb_race :
  match do_sends [DoEnter 0 msg1 (Wrote 3); DoKill] quiet with
  | Done s => nreach s /\ wcb s = true /\ write_cb (Wrote 3) (cn s) = Fault AssertFailed
  | Fault _ => False
  end.
Proof.
  assert (H : match do_sends [DoEnter 0 msg1 (Wrote 3); DoKill] quiet with
    | Done s => wcb s = true /\ write_cb (Wrote 3) (cn s) = Fault AssertFailed | Fault _ => False end) by (vm_compute; split; reflexivity).
  destruct (do_sends _ quiet) as [s|] eqn:E; [| destruct H]. split; [| exact H]. eapply do_sends_reach; [| exact E]. apply nr_start.
Qed.
