(* ===== verification/Acceptor.v ===== *)
(** * Accepted connections and their collection (src/rpc/connection.cc: class tcpsconn)

    The server's accepting thread keeps the connections it has accepted, by
    file descriptor, with one reference each.  Requests and the RPC server hold
    further references.  When a connection is accepted, dead connections that
    nobody else holds are released.  Connections live on a heap and are reached
    through pointers; using one that was deleted is a fault.

    A descriptor is closed when its connection is deleted, and accept returns a
    descriptor that is not open. *)

From S2P Require Import Prelude Connection.
#[local] Set Warnings "-clear-no-such-hyp".

(** [conns] is conns_; the heap has the descriptor with each connection. *)
Record tcpsconn := Tcpsconn { conns : gmap Z Z; cheap : gmap Z (Z * connection); cfresh : Z }.

Definition tcpsconn_new : tcpsconn := Tcpsconn ∅ ∅ 1.

(** decref through a pointer, and what it leaves on the heap. *)
Definition decref_at (p : Z) (s : tcpsconn) : outcome tcpsconn :=
  match cheap s !! p with
  | None => Fault OutOfBounds
  | Some (fd, c) =>
      r ← decref c;
      mret (Tcpsconn (conns s) (match r with Some c' => <[p := (fd, c')]> (cheap s) | None => delete p (cheap s) end) (cfresh s))
  end.

Definition incref_at (p : Z) (s : tcpsconn) : outcome tcpsconn :=
  match cheap s !! p with
  | None => Fault OutOfBounds
  | Some (fd, c) => mret (Tcpsconn (conns s) (<[p := (fd, incref c)]> (cheap s)) (cfresh s))
  end.

(** One round of the loop over conns_. *)
Definition collect (x : Z * Z) (s : tcpsconn) : outcome tcpsconn :=
  match cheap s !! snd x with
  | None => Fault OutOfBounds
  | Some (_, c) =>
      if isdead c && (ref c =? 1) then
        s ← decref_at (snd x) s;
        mret (Tcpsconn (delete (fst x) (conns s)) (cheap s) (cfresh s))
      else mret s
  end.

Fixpoint collect_all (l : list (Z * Z)) (s : tcpsconn) : outcome tcpsconn :=
  match l with
  | [] => mret s
  | x :: l => s ← collect x s; collect_all l s
  end.

(** [s1] is what accept returned and [t] the time. *)
Definition process_accept (s1 : Z) (t : Z * Z) (s : tcpsconn) : outcome tcpsconn :=
  let ch := cfresh s in
  let s := Tcpsconn (conns s) (<[ch := (s1, connection_new t)]> (cheap s)) (ch + 1) in
  s ← collect_all (map_to_list (conns s)) s;
  mret (Tcpsconn (<[s1 := ch]> (conns s)) (cheap s) (cfresh s)).

(** What select reports: the pipe of the destructor, the listening socket with
    what accept returns, an interruption, another error, or neither. *)
Inductive accept_event := PipeClosed | Incoming (s1 : Z) (t : Z * Z) | Interrupted | SelectError | NothingSet.

(** One round of accept_conn; [None] ends the thread. *)
Definition accept_round (e : accept_event) (s : tcpsconn) : outcome (option tcpsconn) :=
  match e with
  | PipeClosed => mret None
  | Incoming s1 t => if s1 <? 0 then mret None else s ← process_accept s1 t s; mret (Some s)
  | Interrupted => mret (Some s)
  | SelectError | NothingSet => Fault AssertFailed
  end.

(** The destructor, after the thread has ended: closeconn and decref. *)
Definition close_at (p : Z) (s : tcpsconn) : outcome tcpsconn :=
  match cheap s !! p with
  | None => Fault OutOfBounds
  | Some (fd, c) => mret (Tcpsconn (conns s) (<[p := (fd, closeconn c)]> (cheap s)) (cfresh s))
  end.

Fixpoint close_all (l : list (Z * Z)) (s : tcpsconn) : outcome tcpsconn :=
  match l with
  | [] => mret s
  | (_, p) :: l => s ← close_at p s; s ← decref_at p s; close_all l s
  end.

Definition tcpsconn_delete (s : tcpsconn) : outcome tcpsconn := close_all (map_to_list (conns s)) s.

(** The client's side; [ok] says whether connect succeeds. *)
Definition connect_to_dst (ok : bool) (t : Z * Z) : option connection := if ok then Some (connection_new t) else None.

(** ** Threads *)

(** The other holders of references. *)
Record astate := AState { acc : tcpsconn; holders : gmap nat Z }.

Definition open_fd (fd : Z) (s : tcpsconn) : Prop := exists p c, cheap s !! p = Some (fd, c).

Inductive astep : astate -> astate -> Prop :=
| as_accept s1 t a' a h :
    0 <= s1 -> ~ open_fd s1 a -> process_accept s1 t a = Done a' -> astep (AState a h) (AState a' h)
(* a reference is taken by somebody who reached the connection through another one *)
| as_hold x p a' a h :
    h !! x = None -> (exists fd, conns a !! fd = Some p) \/ (exists y, h !! y = Some p) -> incref_at p a = Done a' ->
    astep (AState a h) (AState a' (<[x := p]> h))
| as_release x p a' a h :
    h !! x = Some p -> decref_at p a = Done a' -> astep (AState a h) (AState a' (delete x h))
(* a connection dies *)
| as_dies p fd c a h :
    cheap a !! p = Some (fd, c) -> astep (AState a h) (AState (Tcpsconn (conns a) (<[p := (fd, kill c)]> (cheap a)) (cfresh a)) h).

Inductive areach : astate -> Prop :=
| ar_start : areach (AState tcpsconn_new ∅)
| ar_step s s' : areach s -> astep s s' -> areach s'.

(** ** The invariant *)

Definition at_conn (p : Z) (q : Z) : bool := q =? p.
Abbreviation held p h := (Z.of_nat (count (at_conn p) h)).

(** Every connection on the heap, except perhaps the new one, is in the table
    under its descriptor, and has a reference for that and one per holder. *)
Record acc_wf (new : option Z) (a : tcpsconn) (h : gmap nat Z) : Prop := {
  aw_table fd p : conns a !! fd = Some p -> exists c, cheap a !! p = Some (fd, c) /\ new <> Some p;
  aw_listed p fd c : cheap a !! p = Some (fd, c) -> new = Some p \/ conns a !! fd = Some p;
  aw_refs p fd c : cheap a !! p = Some (fd, c) -> refno c = 1 + held p h;
  aw_idle p fd c : cheap a !! p = Some (fd, c) -> c_buf (wpdu c) = None;
  aw_holders x p : h !! x = Some p -> is_Some (cheap a !! p);
  aw_fresh p : is_Some (cheap a !! p) -> p < cfresh a
}.

(** A connection that is collected. *)
Definition collectible (c : connection) : bool := isdead c && (ref c =? 1).

(** One entry changes but stays where it is. *)
Lemma wf_entry new a h h' p fd c c' :
  acc_wf new a h -> cheap a !! p = Some (fd, c) -> c_buf (wpdu c') = c_buf (wpdu c) -> refno c' = 1 + held p h' ->
  (forall q, q <> p -> count (at_conn q) h' = count (at_conn q) h) -> (forall x q, h' !! x = Some q -> is_Some (cheap a !! q)) ->
  acc_wf new (Tcpsconn (conns a) (<[p := (fd, c')]> (cheap a)) (cfresh a)) h'.
Proof.
  intros [W1 W2 W3 W4 W5 W6] Hp Hb Hr Hq Hh. split; cbn [conns cheap cfresh].
  - intros f q Hf. destruct (W1 f q Hf) as (x & Hx & Hn). rewrite lookup_insert. case_decide; [subst q | by exists x].
    rewrite Hp in Hx. injection Hx as -> _. by eexists.
  - intros q f x Hx. apply lookup_insert_Some in Hx as [[<- Hx]|[_ Hx]]; [injection Hx as -> _ | by eapply W2]. by apply (W2 p f c).
  - intros q f x Hx. apply lookup_insert_Some in Hx as [[<- Hx]|[Hne Hx]]; [by injection Hx as _ <- |]. rewrite Hq by done. by eapply W3.
  - intros q f x Hx. apply lookup_insert_Some in Hx as [[<- Hx]|[_ Hx]]; [| by eapply W4]. injection Hx as _ <-. rewrite Hb. by eapply W4.
  - intros x q Hx. rewrite lookup_insert_is_Some'. right. by eapply Hh.
  - intros q Hx. rewrite lookup_insert_is_Some' in Hx. apply W6. destruct Hx as [<-|]; [by eexists | done].
Qed.

(** ** Collection *)

Lemma collect_wf new a h fd p :
  acc_wf new a h -> conns a !! fd = Some p ->
  exists c, cheap a !! p = Some (fd, c) /\
    collect (fd, p) a = Done (if collectible c then Tcpsconn (delete fd (conns a)) (delete p (cheap a)) (cfresh a) else a) /\
    (collectible c = true -> acc_wf new (Tcpsconn (delete fd (conns a)) (delete p (cheap a)) (cfresh a)) h).
Proof.
  intros W Hf. assert (W' := W). destruct W' as [W1 W2 W3 W4 W5 W6]. destruct (W1 fd p Hf) as (c & Hp & Hn). exists c. split; [done |].
  pose proof (W3 p fd c Hp) as Hr. split.
  - unfold collect. cbn [fst snd]. rewrite Hp. unfold collectible. destruct (isdead c && (ref c =? 1)) eqn:E; [| done].
    apply andb_true_iff in E as [Ed Er%Z.eqb_eq]. unfold decref_at. rewrite Hp. unfold decref. unfold ref in Er. unfold isdead in Ed.
    rewrite Er, Ed, (W4 p fd c Hp), bool_decide_true by done. done.
  - intros E. apply andb_true_iff in E as [_ Er%Z.eqb_eq]. unfold ref in Er. assert (Hz : count (at_conn p) h = 0%nat) by lia.
    assert (Hno : forall x, h !! x <> Some p).
    { intros x Hx. pose proof (count_pos (at_conn p) h x p Hx). unfold at_conn in *. rewrite Z.eqb_refl in *. lia. }
    split; cbn [conns cheap cfresh].
    + intros f q Hq. apply lookup_delete_Some in Hq as [Hne Hq]. destruct (W1 f q Hq) as (x & Hx & Hxn). exists x. split; [| done].
      rewrite lookup_delete_ne; [done |]. intros ->. rewrite Hp in Hx. congruence.
    + intros q f x Hx. apply lookup_delete_Some in Hx as [Hne Hx]. destruct (W2 q f x Hx) as [|Hq]; [by left | right].
      rewrite lookup_delete_ne; [done |]. intros ->. congruence.
    + intros q f x Hx. apply lookup_delete_Some in Hx as [_ Hx]. by eapply W3.
    + intros q f x Hx. apply lookup_delete_Some in Hx as [_ Hx]. by eapply W4.
    + intros x q Hx. rewrite lookup_delete_ne; [by eapply W5 |]. intros ->. by destruct (Hno x).
    + intros q Hq. apply W6. rewrite lookup_delete_is_Some in Hq. by destruct Hq.
Qed.

(** The fate of an entry when the list [l] of entries is examined. *)
Definition fate (l : list (Z * Z)) (fd p : Z) (c : connection) (a' : tcpsconn) : Prop :=
  if decide ((fd, p) ∈ l) then
    if collectible c then conns a' !! fd = None /\ cheap a' !! p = None else conns a' !! fd = Some p /\ cheap a' !! p = Some (fd, c)
  else conns a' !! fd = Some p /\ cheap a' !! p = Some (fd, c).

(** What is deleted stays deleted. *)
Lemma collected_gone l a a' p : collect_all l a = Done a' -> cheap a !! p = None -> cheap a' !! p = None.
Proof.
  revert a. induction l as [|[fd q] l IH]; intros a H Hp; cbn [collect_all] in H; [by injection H as <- |].
  apply bind_Done_inv in H as (a1 & H1 & H). apply (IH a1 H). unfold collect in H1. cbn [fst snd] in H1.
  destruct (cheap a !! q) as [[f c]|] eqn:Hq; [| done]. destruct (_ && _); [| by injection H1 as <-].
  apply bind_Done_inv in H1 as (a2 & H2 & H1). injection H1 as <-. cbn [cheap]. unfold decref_at in H2. rewrite Hq in H2.
  apply bind_Done_inv in H2 as (r & _ & H2). injection H2 as <-. cbn [cheap]. destruct r.
  - rewrite lookup_insert_ne; [done | congruence].
  - rewrite lookup_delete. by case_decide.
Qed.

Lemma collect_all_wf new l a h :
  acc_wf new a h -> NoDup l.*1 -> (forall fd p, (fd, p) ∈ l -> conns a !! fd = Some p) ->
  exists a', collect_all l a = Done a' /\ acc_wf new a' h /\ cfresh a' = cfresh a /\
    (forall fd p c, conns a !! fd = Some p -> cheap a !! p = Some (fd, c) -> fate l fd p c a') /\
    (forall p x, new = Some p -> cheap a !! p = Some x -> cheap a' !! p = Some x) /\
    (forall fd, conns a !! fd = None -> conns a' !! fd = None).
Proof.
  revert a. induction l as [|[fd0 p0] l IH]; intros a W Hnd Hin; cbn [collect_all].
  { exists a. split_and!; [done | done | done | | done | done]. intros fd p c Hf Hp. unfold fate. by rewrite decide_False by apply not_elem_of_nil. }
  rewrite fmap_cons in Hnd. apply NoDup_cons in Hnd as [Hn0 Hnd]. cbn [fst] in Hn0.
  assert (Hf0 : conns a !! fd0 = Some p0) by (apply Hin; left).
  assert (Hne : forall fd p, (fd, p) ∈ l -> fd <> fd0).
  { intros fd p Hl ->. apply Hn0. apply list_elem_of_fmap. by exists (fd0, p). }
  destruct (collect_wf new a h fd0 p0 W Hf0) as (c0 & Hp0 & Hc & Hw). rewrite Hc, bind_Done. destruct (collectible c0) eqn:Ec.
  - set (a1 := Tcpsconn (delete fd0 (conns a)) (delete p0 (cheap a)) (cfresh a)).
    destruct (IH a1 (Hw eq_refl) Hnd) as (a' & Ha' & W' & Hfr & Hfate & Hnew & Hnone).
    { intros fd p Hl. cbn [conns a1]. rewrite lookup_delete_ne; [by apply Hin; right |]. intros <-. by destruct (Hne fd0 p Hl). }
    exists a'. split_and!; [done | done | done | | |].
    + intros fd p c Hf Hp. unfold fate. destruct (decide (fd = fd0)) as [->|Hd].
      * assert (p = p0) as -> by congruence. rewrite decide_True by left. assert (c = c0) as -> by congruence. rewrite Ec.
        split; [apply Hnone, lookup_delete_eq |]. destruct (cheap a' !! p0) as [[f x]|] eqn:Ea'; [| done]. exfalso.
        destruct (aw_listed _ _ _ W' p0 f x Ea') as [Hx|Hx].
        { destruct (aw_table _ _ _ W fd0 p0 Hf0) as (? & _ & Hx'). done. }
        destruct (aw_table _ _ _ W' f p0 Hx) as (? & _ & _). pose proof (collected_gone l a1 a' p0 Ha' (lookup_delete_eq _ _)). congruence.
      * assert (Hpp : p <> p0) by (intros ->; rewrite Hp0 in Hp; congruence).
        specialize (Hfate fd p c). unfold fate in Hfate. cbn [conns cheap a1] in Hfate. rewrite !lookup_delete_ne in Hfate by done.
        specialize (Hfate Hf Hp). destruct (decide ((fd, p) ∈ l)) as [Hl|Hl].
        { by rewrite decide_True by (by right). }
        { rewrite decide_False; [done |]. intros [[= -> ->]|]%elem_of_cons; done. }
    + intros p x Hp Hx. apply Hnew; [done |]. cbn [cheap a1]. rewrite lookup_delete_ne; [done |]. intros ->.
      by destruct (aw_table _ _ _ W fd0 p Hf0) as (? & _ & Hx').
    + intros fd Hf. apply Hnone. cbn [conns a1]. rewrite lookup_delete. by case_decide.
  - destruct (IH a W Hnd) as (a' & Ha' & W' & Hfr & Hfate & Hnew & Hnone); [intros fd p Hl; by apply Hin; right |].
    exists a'. split_and!; try done. intros fd p c Hf Hp. specialize (Hfate fd p c Hf Hp). unfold fate in *.
    destruct (decide (fd = fd0)) as [->|Hd].
    + assert (p = p0) as -> by congruence. assert (c = c0) as -> by congruence. rewrite Ec in *.
      rewrite decide_True by left. by case_decide.
    + destruct (decide ((fd, p) ∈ l)) as [Hl|Hl]; [by rewrite decide_True by (by right) |].
      rewrite decide_False; [done |]. intros [[= -> ->]|]%elem_of_cons; done.
Qed.

(** ** Accepting *)

Lemma wf_new s1 t a h :
  acc_wf None a h -> acc_wf (Some (cfresh a)) (Tcpsconn (conns a) (<[cfresh a := (s1, connection_new t)]> (cheap a)) (cfresh a + 1)) h.
Proof.
  intros [W1 W2 W3 W4 W5 W6].
  assert (Hp : cheap a !! cfresh a = None).
  { destruct (cheap a !! cfresh a) eqn:E; [| done]. exfalso. specialize (W6 (cfresh a) ltac:(by eexists)). lia. }
  split; cbn [conns cheap cfresh].
  - intros fd p Hf. destruct (W1 fd p Hf) as (c & Hc & _). exists c. rewrite lookup_insert_ne by congruence. split; [done | congruence].
  - intros p fd c Hx. apply lookup_insert_Some in Hx as [[<- _]|[_ Hx]]; [by left | right]. by destruct (W2 p fd c Hx).
  - intros p fd c Hx. apply lookup_insert_Some in Hx as [[<- Hx]|[_ Hx]]; [| by eapply W3]. injection Hx as _ <-. cbn [refno connection_new].
    rewrite count_zero; [done |]. intros x q Hq. unfold at_conn. apply Z.eqb_neq. intros ->. destruct (W5 x _ Hq). congruence.
  - intros p fd c Hx. apply lookup_insert_Some in Hx as [[<- Hx]|[_ Hx]]; [by injection Hx as _ <- | by eapply W4].
  - intros x p Hx. rewrite lookup_insert_is_Some'. right. by eapply W5.
  - intros p Hx. rewrite lookup_insert_is_Some' in Hx. destruct Hx as [<-|Hx]; [lia |]. specialize (W6 p Hx). lia.
Qed.

Lemma wf_publish s1 p a h x :
  acc_wf (Some p) a h -> conns a !! s1 = None -> cheap a !! p = Some (s1, x) -> acc_wf None (Tcpsconn (<[s1 := p]> (conns a)) (cheap a) (cfresh a)) h.
Proof.
  intros [W1 W2 W3 W4 W5 W6] Hn Hp. split; cbn [conns cheap cfresh]; try done.
  - intros fd q Hf. apply lookup_insert_Some in Hf as [[<- <-]|[_ Hf]]; [by exists x |]. destruct (W1 fd q Hf) as (c & Hc & _). by exists c.
  - intros q fd c Hx. right. destruct (W2 q fd c Hx) as [[= ->]|Hf].
    + rewrite Hp in Hx. injection Hx as <- _. apply lookup_insert_eq.
    + rewrite lookup_insert_ne; [done | congruence].
Qed.

(** Everything about one call of process_accept. *)
Lemma accept_wf s1 t a h :
  acc_wf None a h -> ~ open_fd s1 a ->
  exists a', process_accept s1 t a = Done a' /\ acc_wf None a' h /\ conns a !! s1 = None /\
    (exists p, conns a' !! s1 = Some p /\ cheap a' !! p = Some (s1, connection_new t) /\ cheap a !! p = None) /\
    (forall fd p c, conns a !! fd = Some p -> cheap a !! p = Some (fd, c) ->
      if collectible c then conns a' !! fd = None /\ cheap a' !! p = None else conns a' !! fd = Some p /\ cheap a' !! p = Some (fd, c)).
Proof.
  intros W Hopen. assert (Hn : conns a !! s1 = None).
  { destruct (conns a !! s1) as [p|] eqn:E; [| done]. exfalso. apply Hopen. destruct (aw_table _ _ _ W s1 p E) as (c & Hc & _). by exists p, c. }
  assert (Hp : cheap a !! cfresh a = None).
  { destruct (cheap a !! cfresh a) eqn:E; [| done]. exfalso. pose proof (aw_fresh _ _ _ W (cfresh a) ltac:(by eexists)). lia. }
  unfold process_accept. cbv zeta. cbn [conns cheap cfresh]. set (a1 := Tcpsconn (conns a) _ _).
  destruct (collect_all_wf (Some (cfresh a)) (map_to_list (conns a)) a1 h (wf_new s1 t a h W)) as (a' & Ha' & W' & Hfr & Hfate & Hnew & Hnone).
  { apply NoDup_fst_map_to_list. }
  { intros fd p Hl. by apply elem_of_map_to_list in Hl. }
  rewrite Ha', bind_Done. pose proof (Hnone s1 Hn) as Hn'.
  pose proof (Hnew (cfresh a) (s1, connection_new t) eq_refl (lookup_insert_eq _ _ _)) as Hc'.
  eexists. split; [reflexivity |]. split_and!; [by eapply wf_publish | done | |].
  - exists (cfresh a). cbn [conns cheap]. by rewrite lookup_insert_eq.
  - intros fd p c Hf Hpc. assert (Hne : fd <> s1) by congruence. assert (Hpp : p <> cfresh a) by congruence.
    specialize (Hfate fd p c Hf). cbn [cheap a1] in Hfate. rewrite lookup_insert_ne in Hfate by done. specialize (Hfate Hpc).
    unfold fate in Hfate. rewrite decide_True in Hfate by by apply elem_of_map_to_list. cbn [conns cheap].
    destruct (collectible c); (rewrite lookup_insert_ne by done); done.
Qed.

Lemma at_conn_same p : at_conn p p = true.
Proof. apply Z.eqb_refl. Qed.

Lemma at_conn_other p q : q <> p -> at_conn q p = false.
Proof. intros H. apply Z.eqb_neq. congruence. Qed.

Lemma astep_wf s s' : acc_wf None (acc s) (holders s) -> astep s s' -> acc_wf None (acc s') (holders s').
Proof.
  intros W H. destruct H as [s1 t a' a h Hs1 Ho Ha|x p a' a h Hx Hp Ha|x p a' a h Hx Ha|p fd c a h Hp]; cbn [acc holders] in *.
  - destruct (accept_wf s1 t a h W Ho) as (a1 & H1 & W1 & _). rewrite Ha in H1. by injection H1 as ->.
  - unfold incref_at in Ha. destruct (cheap a !! p) as [[fd c]|] eqn:Ep; [| done]. injection Ha as <-.
    eapply wf_entry; try done; cbn [refno incref].
    + rewrite count_new, at_conn_same, (aw_refs _ _ _ W p fd c Ep) by done. cbn. lia.
    + intros q Hq. rewrite count_new, at_conn_other by done. cbn. lia.
    + intros y q Hy. apply lookup_insert_Some in Hy as [[_ <-]|[_ Hy]]; [by eexists | by apply (aw_holders _ _ _ W y)].
  - unfold decref_at in Ha. destruct (cheap a !! p) as [[fd c]|] eqn:Ep; [| done]. apply bind_Done_inv in Ha as (r & Hr & Ha). injection Ha as <-.
    pose proof (count_delete (at_conn p) h x p Hx) as Hc. rewrite at_conn_same in Hc. cbn [Nat.b2n] in Hc.
    pose proof (aw_refs _ _ _ W p fd c Ep) as Href. unfold decref in Hr. apply bind_Done_inv in Hr as ([] & _ & Hr).
    destruct (Z.eqb_spec (refno c - 1) 0); [lia |]. cbn [andb] in Hr. injection Hr as <-.
    eapply wf_entry; try done; cbn [refno]; [lia | |].
    + intros q Hq. pose proof (count_delete (at_conn q) h x p Hx) as Hcq. rewrite at_conn_other in Hcq by done. cbn [Nat.b2n] in Hcq. lia.
    + intros y q Hy. apply lookup_delete_Some in Hy as [_ Hy]. by apply (aw_holders _ _ _ W y).
  - eapply wf_entry; try done; [by apply (aw_refs _ _ _ W p fd c) |]. intros y q Hy. by apply (aw_holders _ _ _ W y).
Qed.

Lemma areach_wf s : areach s -> acc_wf None (acc s) (holders s).
Proof.
  induction 1 as [|s s' _ IH H]; [| by eapply astep_wf]. split; cbn [acc holders tcpsconn_new conns cheap]; intros *; rewrite lookup_empty; try done.
Qed.

(** Accepting a connection never loses or frees one in use.  In every
    reachable state process_accept succeeds for a descriptor that is not open,
    the table has no entry under it, the new connection is entered with one
    reference, and of the connections accepted before exactly the dead ones
    that nobody else holds are deleted; a connection that somebody holds is
    still there, and releasing it is possible. *)
Theorem accept_collects s s1 t :
  areach s -> ~ open_fd s1 (acc s) ->
  exists a', process_accept s1 t (acc s) = Done a' /\ conns (acc s) !! s1 = None /\
    (exists p, conns a' !! s1 = Some p /\ cheap a' !! p = Some (s1, connection_new t)) /\
    (forall fd p c, cheap (acc s) !! p = Some (fd, c) ->
      if dead c && bool_decide (count (at_conn p) (holders s) = 0%nat)
      then conns a' !! fd = None /\ cheap a' !! p = None else conns a' !! fd = Some p /\ cheap a' !! p = Some (fd, c)) /\
    (forall x p, holders s !! x = Some p -> is_Some (cheap a' !! p) /\ exists a'', decref_at p a' = Done a'').
Proof.
  intros H Ho. pose proof (areach_wf s H) as W. destruct (accept_wf s1 t (acc s) (holders s) W Ho) as (a' & Ha & W' & Hn & (p & Hp1 & Hp2 & _) & Hold).
  exists a'. split_and!; [done | done | by exists p | |].
  - intros fd q c Hq. destruct (aw_listed _ _ _ W q fd c Hq) as [|Hf]; [done |]. specialize (Hold fd q c Hf Hq).
    pose proof (aw_refs _ _ _ W q fd c Hq) as Hr. unfold collectible, isdead, ref in Hold.
    replace (dead c && bool_decide (count (at_conn q) (holders s) = 0%nat)) with (dead c && (refno c =? 1)); [done |]. f_equal.
    destruct (Z.eqb_spec (refno c) 1); [rewrite bool_decide_true; [done | lia] | rewrite bool_decide_false; [done | lia]].
  - intros x q Hx. destruct (aw_holders _ _ _ W' x q Hx) as [[fd c] Hq]. split; [by eexists |]. unfold decref_at, decref. rewrite Hq.
    pose proof (aw_refs _ _ _ W' q fd c Hq) as Hr. pose proof (count_pos (at_conn q) (holders s) x q Hx (at_conn_same q)) as Hc.
    rewrite (proj2 (Z.leb_le _ _)) by lia. cbn [verify]. rewrite !bind_Done. destruct (Z.eqb_spec (refno c - 1) 0); [lia |]. by eexists.
Qed.

(** ** A run: three connections, the second and the third die, the third is held *)

Definition acc0 : tcpsconn := tcpsconn_new.
Definition accept3 : outcome tcpsconn :=
  a ← process_accept 5 (1, 0) acc0; a ← process_accept 6 (2, 0) a; process_accept 7 (3, 0) a.
Definition dies (p : Z) (a : tcpsconn) : tcpsconn :=
  match cheap a !! p with Some (fd, c) => Tcpsconn (conns a) (<[p := (fd, kill c)]> (cheap a)) (cfresh a) | None => a end.
Definition acc_demo : outcome tcpsconn := a ← accept3; a ← incref_at 3 a; mret (dies 3 (dies 2 a)).

Lemma dies_reach p a h : areach (AState a h) -> areach (AState (dies p a) h).
Proof.
  intros H. unfold dies. destruct (cheap a !! p) as [[fd c]|] eqn:E; [| done]. eapply ar_step; [exact H |]. by apply as_dies.
Qed.

Definition closed (fd : Z) (a : tcpsconn) : bool := forallb (fun x => negb (fst (snd x) =? fd)) (map_to_list (cheap a)).

Lemma closed_not_open fd a : closed fd a = true -> ~ open_fd fd a.
Proof.
  unfold closed. rewrite forallb_forall. intros H (p & c & Hp). specialize (H (p, (fd, c))). cbn [fst snd] in H.
  rewrite Z.eqb_refl in H. discriminate H. apply list_elem_of_In, elem_of_map_to_list. exact Hp.
Qed.

Lemma accept_reach fd t a a' h : areach (AState a h) -> 0 <= fd -> closed fd a = true -> process_accept fd t a = Done a' -> areach (AState a' h).
Proof. intros H Hf Hc Ha. eapply ar_step; [exact H |]. eapply as_accept; [done | by apply closed_not_open | done]. Qed.

Lemma acc_demo_reach :
  match acc_demo with
  | Done a => areach (AState a {[0%nat := 3]}) /\ closed 8 a = true /\ cheap a !! 2 = Some (6, kill (connection_new (2, 0)))
  | Fault _ => False
  end.
Proof.
  unfold acc_demo, accept3. destruct (process_accept 5 (1, 0) acc0) as [a1|] eqn:E1; [| by vm_compute in E1]. rewrite bind_Done.
  assert (R1 : areach (AState a1 ∅)) by (eapply (accept_reach 5); [apply ar_start | lia | reflexivity | exact E1]).
  vm_compute in E1. injection E1 as <-.
  destruct (process_accept 6 (2, 0) _) as [a2|] eqn:E2; [| by vm_compute in E2]. rewrite bind_Done.
  assert (R2 : areach (AState a2 ∅)) by (eapply (accept_reach 6); [exact R1 | lia | reflexivity | exact E2]).
  vm_compute in E2. injection E2 as <-.
  destruct (process_accept 7 (3, 0) _) as [a3|] eqn:E3; [| by vm_compute in E3]. rewrite bind_Done.
  assert (R3 : areach (AState a3 ∅)) by (eapply (accept_reach 7); [exact R2 | lia | reflexivity | exact E3]).
  vm_compute in E3. injection E3 as <-.
  destruct (incref_at 3 _) as [a4|] eqn:E4; [| by vm_compute in E4]. rewrite bind_Done.
  assert (R4 : areach (AState a4 {[0%nat := 3]})).
  { eapply ar_step; [exact R3 |]. rewrite <- insert_empty. eapply as_hold; [done | left; exists 7; reflexivity | exact E4]. }
  vm_compute in E4. injection E4 as <-. split; [by apply dies_reach, dies_reach | vm_compute; split; reflexivity].
Qed.

Lemma accept_collects_witness :
  match acc_demo with
  | Done a => exists a', process_accept 8 (4, 0) a = Done a' /\ conns a' !! 6 = None /\ cheap a' !! 2 = None
  | Fault _ => False
  end.
Proof.
  pose proof acc_demo_reach as H. destruct acc_demo as [a|]; [| exact H]. destruct H as (Hr & Hc & H2).
  destruct (accept_collects (AState a {[0%nat := 3]}) 8 (4, 0) Hr (closed_not_open 8 a Hc)) as (a' & Ha & _ & _ & Hold & _).
  exists a'. split; [exact Ha |]. specialize (Hold 6 2 _ H2). exact Hold.
Defined.
