(* ===== verification/Handle.v ===== *)
(** * The cache of client endpoints (src/handle.cc, src/handle.h)

    [handle_mgr] keeps one [hinfo] per destination, with the endpoint that was
    bound to it and the number of [handle] objects that use it.  An hinfo is
    shared: handles hold pointers to it, and the manager's table holds one, so
    the model has a heap of hinfos and a set of endpoints that exist.  Using a
    pointer to an hinfo that was freed, or deleting an endpoint twice, is a
    fault.

    safebind calls rpcc::bind while it holds the hinfo's own mutex but not the
    manager's: other threads create, drop and delete handles meanwhile.  It is
    cut there; the result of bind is an argument. *)

From S2P Require Import Prelude.
#[local] Set Warnings "-clear-no-such-hyp".

(** ** Data *)

Record hinfo := Hinfo { h_cl : option Z; refcnt : Z; h_del : bool; h_m : string }.

(** Pointers to hinfos and endpoints are numbers; [fresh_ptr] is what the next
    [new] returns. *)
Record handle_mgr := HandleMgr { hmap : gmap string Z; heap : gmap Z hinfo; live_rpccs : gset Z; fresh_ptr : Z }.

Definition handle_mgr_new : handle_mgr := HandleMgr ∅ ∅ ∅ 1.

Definition deref (p : Z) (s : handle_mgr) : outcome hinfo :=
  match heap s !! p with Some h => Done h | None => Fault OutOfBounds end.

Definition set_hinfo (p : Z) (h : hinfo) (s : handle_mgr) : handle_mgr :=
  HandleMgr (hmap s) (<[p := h]> (heap s)) (live_rpccs s) (fresh_ptr s).

(** ** handle_mgr *)

Definition get_handle (m : string) (s : handle_mgr) : outcome (handle_mgr * option Z) :=
  match hmap s !! m with
  | None =>
      let p := fresh_ptr s in
      mret (HandleMgr (<[m := p]> (hmap s)) (<[p := Hinfo None 1 false m]> (heap s)) (live_rpccs s) (p + 1), Some p)
  | Some p =>
      h ← deref p s;
      if negb (h_del h) then mret (set_hinfo p (Hinfo (h_cl h) (refcnt h + 1) (h_del h) (h_m h)) s, Some p)
      else mret (s, None)
  end.

(** [h->cl->cancel(); delete h->cl] *)
Definition delete_rpcc (c : option Z) (s : handle_mgr) : outcome handle_mgr :=
  match c with
  | None => mret s
  | Some c =>
      if decide (c ∈ live_rpccs s) then mret (HandleMgr (hmap s) (heap s) (live_rpccs s ∖ {[c]}) (fresh_ptr s))
      else Fault OutOfBounds
  end.

Definition delete_handle_wo (m : string) (s : handle_mgr) : outcome handle_mgr :=
  match hmap s !! m with
  | None => mret s
  | Some p =>
      h ← deref p s;
      if refcnt h =? 0 then
        s ← delete_rpcc (h_cl h) s;
        mret (HandleMgr (delete m (hmap s)) (delete p (heap s)) (live_rpccs s) (fresh_ptr s))
      else mret (set_hinfo p (Hinfo (h_cl h) (refcnt h) true (h_m h)) s)
  end.

Definition done_handle (p : Z) (s : handle_mgr) : outcome handle_mgr :=
  h ← deref p s;
  let h := Hinfo (h_cl h) (refcnt h - 1) (h_del h) (h_m h) in
  let s := set_hinfo p h s in
  if (refcnt h =? 0) && h_del h then delete_handle_wo (h_m h) s else mret s.

Definition delete_handle (m : string) (s : handle_mgr) : outcome handle_mgr := delete_handle_wo m s.

(** ** handle *)

(** safebind up to the call of bind: its result, or that it has to bind. *)
Definition safebind_begin (h : option Z) (s : handle_mgr) : outcome (option (option Z)) :=
  match h with
  | None => mret (Some None)
  | Some p =>
      i ← deref p s;
      if h_del i then mret (Some None)
      else match h_cl i with Some c => mret (Some (Some c)) | None => mret None end
  end.

(** With what bind returned. *)
Definition safebind_end (p ret : Z) (s : handle_mgr) : outcome (handle_mgr * option Z) :=
  i ← deref p s;
  if ret <? 0 then mret (set_hinfo p (Hinfo (h_cl i) (refcnt i) true (h_m i)) s, h_cl i)
  else
    let c := fresh_ptr s in
    let s := HandleMgr (hmap s) (heap s) ({[c]} ∪ live_rpccs s) (c + 1) in
    mret (set_hinfo p (Hinfo (Some c) (refcnt i) (h_del i) (h_m i)) s, Some c).

(** The destructor. *)
Definition handle_delete (h : option Z) (s : handle_mgr) : outcome handle_mgr :=
  match h with Some p => done_handle p s | None => mret s end.

(** ** Threads *)

(** The handle objects of the program, and the hinfos whose mutex a safebind
    holds, with the handle it is called on. *)
Record hstate := HState { mgr : handle_mgr; handles : gmap nat (option Z); binding : gmap Z nat }.

(** Steps; the flag marks calls of delete_handle. *)
Inductive hstep : bool -> hstate -> hstate -> Prop :=
| hs_new t m p s' s hs b :
    hs !! t = None -> get_handle m s = Done (s', p) -> hstep false (HState s hs b) (HState s' (<[t := p]> hs) b)
| hs_bind t p s hs b :
    hs !! t = Some (Some p) -> b !! p = None -> safebind_begin (Some p) s = Done None ->
    hstep false (HState s hs b) (HState s hs (<[p := t]> b))
| hs_bound t p ret c s' s hs b :
    b !! p = Some t -> safebind_end p ret s = Done (s', c) -> hstep false (HState s hs b) (HState s' hs (delete p b))
| hs_drop t p s' s hs b :
    hs !! t = Some p -> (forall q, b !! q <> Some t) -> handle_delete p s = Done s' ->
    hstep false (HState s hs b) (HState s' (delete t hs) b)
| hs_delete m s' s hs b : delete_handle m s = Done s' -> hstep true (HState s hs b) (HState s' hs b).

Inductive hreach : hstate -> Prop :=
| hr_start : hreach (HState handle_mgr_new ∅ ∅)
| hr_step w s s' : hreach s -> hstep w s s' -> hreach s'.

(** Steps without a call of delete_handle during which the handle [t] keeps
    its hinfo. *)
Inductive while_held (t : nat) (p : Z) : hstate -> hstate -> Prop :=
| wh_nil s : while_held t p s s
| wh_cons s s' s'' :
    hstep false s s' -> handles s' !! t = Some (Some p) -> while_held t p s' s'' -> while_held t p s s''.

(** ** Well-formedness *)

Definition points (p : Z) (h : option Z) : bool := bool_decide (h = Some p).

Record handles_wf (s : hstate) : Prop := {
  (* the table and the heap agree *)
  wf_table m p : hmap (mgr s) !! m = Some p -> exists h, heap (mgr s) !! p = Some h /\ h_m h = m;
  wf_listed p h : heap (mgr s) !! p = Some h -> hmap (mgr s) !! h_m h = Some p;
  (* reference counts *)
  wf_refs p h : heap (mgr s) !! p = Some h -> refcnt h = Z.of_nat (count (points p) (handles s));
  wf_handles t p : handles s !! t = Some (Some p) -> is_Some (heap (mgr s) !! p);
  (* endpoints have one owner *)
  wf_live p h c : heap (mgr s) !! p = Some h -> h_cl h = Some c -> c ∈ live_rpccs (mgr s);
  wf_owner p q h h' c : heap (mgr s) !! p = Some h -> heap (mgr s) !! q = Some h' -> h_cl h = Some c -> h_cl h' = Some c -> p = q;
  wf_binding p t : binding s !! p = Some t -> handles s !! t = Some (Some p) /\ exists h, heap (mgr s) !! p = Some h /\ h_cl h = None;
  (* memory below [fresh_ptr] is used *)
  wf_ptrs p : is_Some (heap (mgr s) !! p) -> p < fresh_ptr (mgr s);
  wf_rpccs c : c ∈ live_rpccs (mgr s) -> c < fresh_ptr (mgr s)
}.

(** An hinfo that keeps its destination and its endpoint. *)
Lemma wf_update p h h' s hs hs' b :
  handles_wf (HState s hs b) -> heap s !! p = Some h -> h_m h' = h_m h -> h_cl h' = h_cl h ->
  refcnt h' = Z.of_nat (count (points p) hs') -> (forall q, q <> p -> count (points q) hs' = count (points q) hs) ->
  (forall t q, hs' !! t = Some (Some q) -> is_Some (heap s !! q)) ->
  (forall q t, b !! q = Some t -> hs' !! t = Some (Some q)) ->
  handles_wf (HState (set_hinfo p h' s) hs' b).
Proof.
  intros [W1 W2 W3 W4 W5 W6 W7 W8 W9] Hp Hm Hcl Hr Hq Hh Hb. cbn [mgr handles binding] in *.
  split; cbn [mgr handles binding set_hinfo hmap heap live_rpccs fresh_ptr].
  - intros m q Hmq. destruct (W1 m q Hmq) as (x & Hx & Hxm). rewrite lookup_insert. case_decide; [subst q | by exists x].
    exists h'. split; [done |]. congruence.
  - intros q x Hx. rewrite lookup_insert in Hx. case_decide; [subst q; injection Hx as <-; rewrite Hm |]; by apply W2.
  - intros q x Hx. rewrite lookup_insert in Hx. case_decide; [subst q; by injection Hx as <- |]. rewrite Hq by done. by apply W3.
  - intros t q Ht. rewrite lookup_insert. case_decide; [by eexists | by eapply Hh].
  - intros q x c Hx Hc. rewrite lookup_insert in Hx. case_decide; [subst q; injection Hx as <-; rewrite Hcl in Hc |]; by eapply W5.
  - intros q r x y c Hx Hy Hcx Hcy. rewrite lookup_insert in Hx. rewrite lookup_insert in Hy.
    repeat case_decide; simplify_eq; try done; rewrite ?Hcl in *; by eapply W6.
  - intros q t Ht. split; [by apply Hb |]. destruct (W7 q t Ht) as (_ & x & Hx & Hn). rewrite lookup_insert.
    case_decide; [subst q; exists h'; split; [done | congruence] | by exists x].
  - intros q Hx. rewrite lookup_insert_is_Some in Hx. destruct Hx as [<-|[_ Hx]]; [apply W8; by eexists | by apply W8].
  - done.
Qed.

(** The deletion of an hinfo without handles. *)
Lemma wf_free p h s hs b s' :
  handles_wf (HState s hs b) -> heap s !! p = Some h -> refcnt h = 0 -> delete_rpcc (h_cl h) s = Done s' ->
  handles_wf (HState (HandleMgr (delete (h_m h) (hmap s')) (delete p (heap s')) (live_rpccs s') (fresh_ptr s')) hs b).
Proof.
  intros [W1 W2 W3 W4 W5 W6 W7 W8 W9] Hp Hr Hd. cbn [mgr handles binding] in *.
  assert (Hs : hmap s' = hmap s /\ heap s' = heap s /\ fresh_ptr s' = fresh_ptr s /\ live_rpccs s' ⊆ live_rpccs s /\
    (forall c, c ∈ live_rpccs s -> h_cl h <> Some c -> c ∈ live_rpccs s')).
  { unfold delete_rpcc in Hd. destruct (h_cl h) as [c|]; [| by injection Hd as <-]. case_decide; [| done].
    injection Hd as <-. cbn [hmap heap fresh_ptr live_rpccs]. split_and!; try done; [set_solver |].
    intros c' Hc' Hne. apply elem_of_difference. split; [done |]. set_solver. }
  destruct Hs as (-> & -> & -> & Hsub & Hkeep).
  assert (Hnone : forall t, hs !! t <> Some (Some p)).
  { intros t Ht. pose proof (count_pos (points p) hs t _ Ht) as Hc. unfold points at 1 in Hc.
    rewrite bool_decide_true in Hc by done. specialize (Hc eq_refl). rewrite (W3 p h Hp) in Hr. lia. }
  split; cbn [mgr handles binding hmap heap live_rpccs fresh_ptr].
  - intros m q Hm. apply lookup_delete_Some in Hm as [Hne Hm]. destruct (W1 m q Hm) as (x & Hx & Hxm). exists x. split; [| done].
    rewrite lookup_delete_ne; [done |]. intros ->. congruence.
  - intros q x Hx. apply lookup_delete_Some in Hx as [Hne Hx]. rewrite lookup_delete_ne; [by apply W2 |].
    intros He. pose proof (W2 q x Hx) as H1. pose proof (W2 p h Hp) as H2. rewrite He in H2. congruence.
  - intros q x Hx. apply lookup_delete_Some in Hx as [_ Hx]. by apply W3.
  - intros t q Ht. rewrite lookup_delete_ne; [by eapply W4 |]. intros ->. by destruct (Hnone t).
  - intros q x c Hx Hc. apply lookup_delete_Some in Hx as [Hne Hx]. apply Hkeep; [by eapply W5 |].
    intros Hc'. apply Hne. by eapply W6.
  - intros q r x y c Hx Hy. apply lookup_delete_Some in Hx as [_ Hx]. apply lookup_delete_Some in Hy as [_ Hy]. by eapply W6.
  - intros q t Ht. destruct (W7 q t Ht) as (Hq & x & Hx & Hn). split; [done |]. exists x. split; [| done].
    rewrite lookup_delete_ne; [done |]. intros ->. by destruct (Hnone t).
  - intros q Hx. apply W8. rewrite lookup_delete_is_Some in Hx. by destruct Hx.
  - intros c Hc. apply W9. set_solver.
Qed.

(** ** Counting handles *)

Lemma points_new p hs t x : hs !! t = None ->
  count (points p) (<[t := x]> hs) = (count (points p) hs + Nat.b2n (points p x))%nat.
Proof. apply count_new. Qed.

Lemma points_same p : points p (Some p) = true.
Proof. unfold points. by rewrite bool_decide_true. Qed.

Lemma points_none p : points p None = false.
Proof. unfold points. by rewrite bool_decide_false. Qed.

Lemma points_other p q : q <> p -> points q (Some p) = false.
Proof. intros H. unfold points. by rewrite bool_decide_false by congruence. Qed.

(** A new hinfo with its first handle. *)
Lemma wf_alloc t m s hs b :
  handles_wf (HState s hs b) -> hs !! t = None -> hmap s !! m = None ->
  handles_wf (HState (HandleMgr (<[m := fresh_ptr s]> (hmap s)) (<[fresh_ptr s := Hinfo None 1 false m]> (heap s)) (live_rpccs s)
    (fresh_ptr s + 1)) (<[t := Some (fresh_ptr s)]> hs) b).
Proof.
  intros [W1 W2 W3 W4 W5 W6 W7 W8 W9] Ht Hm. cbn [mgr handles binding] in *.
  set (p := fresh_ptr s) in *.
  assert (Hp : heap s !! p = None) by (destruct (heap s !! p) eqn:E; [exfalso; specialize (W8 p ltac:(by eexists)); lia | done]).
  assert (Hno : forall t', hs !! t' <> Some (Some p)) by (intros t' Ht'; destruct (W4 t' p Ht'); congruence).
  split; cbn [mgr handles binding hmap heap live_rpccs fresh_ptr].
  - intros m' q Hq. apply lookup_insert_Some in Hq as [[<- <-]|[Hne Hq]]; [rewrite lookup_insert_eq; by eexists |].
    destruct (W1 m' q Hq) as (x & Hx & Hxm). exists x. rewrite lookup_insert_ne by congruence. done.
  - intros q x Hx. apply lookup_insert_Some in Hx as [[<- <-]|[Hne Hx]]; [by rewrite lookup_insert_eq |].
    rewrite lookup_insert_ne; [by apply W2 |]. intros ->. rewrite (W2 q x Hx) in Hm. done.
  - intros q x Hx. rewrite points_new by done. apply lookup_insert_Some in Hx as [[<- <-]|[Hne Hx]].
    + rewrite points_same. rewrite count_zero; [done |]. intros t' y Hy. unfold points. apply bool_decide_false.
      intros ->. by destruct (Hno t').
    + rewrite points_other, (W3 q x Hx) by done. cbn. lia.
  - intros t' q Hq. rewrite lookup_insert_is_Some'. apply lookup_insert_Some in Hq as [[_ ?]|[_ Hq]]; [left; congruence |].
    right. by eapply W4.
  - intros q x c Hx Hc. apply lookup_insert_Some in Hx as [[<- <-]|[Hne Hx]]; [done | by eapply W5].
  - intros q r x y c Hx Hy Hcx Hcy. apply lookup_insert_Some in Hx as [[<- <-]|[Hne Hx]]; [done |].
    apply lookup_insert_Some in Hy as [[<- <-]|[Hne' Hy]]; [done | by eapply W6].
  - intros q t' Hq. destruct (W7 q t' Hq) as (Hh & x & Hx & Hn).
    split; [rewrite lookup_insert_ne; [done | congruence] |]. exists x.
    rewrite lookup_insert_ne by congruence. done.
  - intros q Hx. rewrite lookup_insert_is_Some' in Hx. destruct Hx as [<-|Hx]; [lia |]. specialize (W8 q Hx). lia.
  - intros c Hc. specialize (W9 c Hc). lia.
Qed.

(** ** The operations *)

Lemma get_handle_wf t m s hs b :
  handles_wf (HState s hs b) -> hs !! t = None ->
  exists s' p, get_handle m s = Done (s', p) /\ handles_wf (HState s' (<[t := p]> hs) b).
Proof.
  intros W Ht. assert (W' := W). destruct W' as [W1 W2 W3 W4 W5 W6 W7 W8 W9]. cbn [mgr handles binding] in *.
  assert (Hb : forall p q t', b !! q = Some t' -> <[t := p]> hs !! t' = Some (Some q)).
  { intros p q t' Hq. destruct (W7 q t' Hq) as [Hh _]. rewrite lookup_insert_ne; [done | congruence]. }
  unfold get_handle. destruct (hmap s !! m) as [p|] eqn:Hm.
  - destruct (W1 m p Hm) as (h & Hp & Hhm). unfold deref. rewrite Hp, bind_Done. destruct (h_del h); cbn [negb].
    + exists s, None. split; [done |]. split; cbn [mgr handles binding]; try done.
      * intros q x Hx. rewrite points_new, points_none, (W3 q x Hx) by done. cbn. lia.
      * intros t' q Hq. apply lookup_insert_Some in Hq as [[_ ?]|[_ Hq]]; [done | by eapply W4].
      * intros q t' Hq. split; [by apply Hb |]. exact (proj2 (W7 q t' Hq)).
    + eexists _, _. split; [reflexivity |]. eapply wf_update; try done.
      * cbn [refcnt]. rewrite points_new, points_same, (W3 p h Hp) by done. cbn. lia.
      * intros q Hq. rewrite points_new, points_other by done. cbn. lia.
      * intros t' q Hq. apply lookup_insert_Some in Hq as [[_ ?]|[_ Hq]]; [simplify_eq; by eexists | by eapply W4].
      * intros q t' Hq. by apply Hb.
  - eexists _, _. split; [reflexivity |]. by apply wf_alloc.
Qed.

Lemma delete_handle_wf m s hs b :
  handles_wf (HState s hs b) -> exists s', delete_handle_wo m s = Done s' /\ handles_wf (HState s' hs b).
Proof.
  intros W. assert (W' := W). destruct W' as [W1 W2 W3 W4 W5 W6 W7 W8 W9]. cbn [mgr handles binding] in *.
  unfold delete_handle_wo. destruct (hmap s !! m) as [p|] eqn:Hm; [| by exists s].
  destruct (W1 m p Hm) as (h & Hp & <-). unfold deref. rewrite Hp, bind_Done. destruct (Z.eqb_spec (refcnt h) 0) as [H0|H0].
  - assert (Hd : exists s', delete_rpcc (h_cl h) s = Done s').
    { unfold delete_rpcc. destruct (h_cl h) as [c|] eqn:Hc; [| by eexists]. rewrite decide_True; [by eexists |]. by eapply W5. }
    destruct Hd as [s' Hd]. rewrite Hd, bind_Done. eexists. split; [reflexivity |]. by eapply wf_free.
  - eexists. split; [reflexivity |]. eapply wf_update; try done; [cbn [refcnt]; by apply W3 |]. intros q t Hq. by apply (W7 q t).
Qed.

Lemma handle_delete_wf t p s hs b :
  handles_wf (HState s hs b) -> hs !! t = Some p -> (forall q, b !! q <> Some t) ->
  exists s', handle_delete p s = Done s' /\ handles_wf (HState s' (delete t hs) b).
Proof.
  intros W Ht Hb. assert (W' := W). destruct W' as [W1 W2 W3 W4 W5 W6 W7 W8 W9]. cbn [mgr handles binding] in *.
  assert (Hb' : forall q t', b !! q = Some t' -> delete t hs !! t' = Some (Some q)).
  { intros q t' Hq. destruct (W7 q t' Hq) as [Hh _]. rewrite lookup_delete_ne; [done |]. intros ->. by destruct (Hb q). }
  assert (Hd : forall t' q, delete t hs !! t' = Some (Some q) -> is_Some (heap s !! q)).
  { intros t' q Hq. apply lookup_delete_Some in Hq as [_ Hq]. by eapply W4. }
  destruct p as [p|]; cbn [handle_delete].
  - destruct (W4 t p Ht) as [h Hp]. unfold done_handle, deref. rewrite Hp, bind_Done. cbv zeta. cbn [refcnt h_del h_m].
    pose proof (count_delete (points p) hs t _ Ht) as Hc. rewrite points_same in Hc. cbn [Nat.b2n] in Hc.
    assert (Wn : handles_wf (HState (set_hinfo p (Hinfo (h_cl h) (refcnt h - 1) (h_del h) (h_m h)) s) (delete t hs) b)).
    { eapply wf_update; try done; [cbn [refcnt]; rewrite (W3 p h Hp); lia |]. intros q Hq.
      pose proof (count_delete (points q) hs t _ Ht) as Hcq. rewrite points_other in Hcq by done. cbn [Nat.b2n] in Hcq. lia. }
    destruct ((refcnt h - 1 =? 0) && h_del h); [by apply delete_handle_wf |]. by eexists.
  - exists s. split; [done |]. split; cbn [mgr handles binding]; try done.
    + intros q x Hx. pose proof (count_delete (points q) hs t _ Ht) as Hcq. rewrite points_none in Hcq. cbn [Nat.b2n] in Hcq.
      rewrite (W3 q x Hx). lia.
    + intros q t' Hq. split; [by apply Hb' | exact (proj2 (W7 q t' Hq))].
Qed.

Lemma binding_delete_wf p s hs b : handles_wf (HState s hs b) -> handles_wf (HState s hs (delete p b)).
Proof.
  intros [W1 W2 W3 W4 W5 W6 W7 W8 W9]. split; try done. cbn [binding]. intros q t Hq. apply lookup_delete_Some in Hq as [_ Hq].
  by apply W7.
Qed.

Lemma safebind_end_wf p t ret s hs b :
  handles_wf (HState s hs b) -> b !! p = Some t ->
  exists s' c, safebind_end p ret s = Done (s', c) /\ handles_wf (HState s' hs (delete p b)).
Proof.
  intros W Hb. assert (W' := W). destruct W' as [W1 W2 W3 W4 W5 W6 W7 W8 W9]. cbn [mgr handles binding] in *.
  destruct (W7 p t Hb) as (Ht & h & Hp & Hn). unfold safebind_end, deref. rewrite Hp, bind_Done. destruct (ret <? 0).
  - eexists _, _. split; [reflexivity |]. apply binding_delete_wf. eapply wf_update; try done; [cbn [refcnt]; by apply W3 |].
    intros q t' Hq. by apply (W7 q t').
  - eexists _, _. split; [reflexivity |]. set (c := fresh_ptr s) in *.
    assert (Hfresh : forall q x, heap s !! q = Some x -> h_cl x <> Some c) by
      (intros q x Hx Hc; specialize (W9 c (W5 q x c Hx Hc)); lia).
    split; cbn [mgr handles binding set_hinfo hmap heap live_rpccs fresh_ptr].
    + intros m q Hm. destruct (W1 m q Hm) as (x & Hx & Hxm). rewrite lookup_insert. case_decide; [subst q | by exists x].
      eexists. split; [done |]. cbn [h_m]. congruence.
    + intros q x Hx. apply lookup_insert_Some in Hx as [[<- <-]|[Hne Hx]]; [by apply (W2 p h Hp) | by apply W2].
    + intros q x Hx. apply lookup_insert_Some in Hx as [[<- <-]|[Hne Hx]]; [cbn [refcnt] |]; by apply W3.
    + intros t' q Hq. rewrite lookup_insert_is_Some'. right. by eapply W4.
    + intros q x c' Hx Hc. apply lookup_insert_Some in Hx as [[<- <-]|[Hne Hx]]; [cbn [h_cl] in Hc; set_solver |].
      apply elem_of_union_r. by eapply W5.
    + intros q r x y c' Hx Hy Hcx Hcy. apply lookup_insert_Some in Hx as [[<- <-]|[Hne Hx]];
        apply lookup_insert_Some in Hy as [[<- <-]|[Hne' Hy]]; try done; cbn [h_cl] in *; simplify_eq;
        [by destruct (Hfresh r y) | by destruct (Hfresh q x) | by eapply W6].
    + intros q t' Hq. apply lookup_delete_Some in Hq as [Hne Hq]. destruct (W7 q t' Hq) as (Hh & x & Hx & Hxn).
      split; [done |]. exists x. by rewrite lookup_insert_ne.
    + intros q Hx. rewrite lookup_insert_is_Some' in Hx. destruct Hx as [<-|Hx]; [specialize (W8 p ltac:(by eexists)); lia |].
      specialize (W8 q Hx). lia.
    + intros c' Hc. apply elem_of_union in Hc as [Hc|Hc]; [set_solver by lia |]. specialize (W9 c' Hc). lia.
Qed.

Lemma handles_step_wf w s s' : handles_wf s -> hstep w s s' -> handles_wf s'.
Proof.
  intros W H. destruct H as [t m p s' s hs b Ht Hg|t p s hs b Ht Hb Hs|t p ret c s' s hs b Hb He|t p s' s hs b Ht Hb Hd|m s' s hs b Hd].
  - destruct (get_handle_wf t m s hs b W Ht) as (s1 & p1 & H1 & W1). rewrite Hg in H1. by injection H1 as -> ->.
  - destruct W as [W1 W2 W3 W4 W5 W6 W7 W8 W9]. split; try done. cbn [mgr handles binding] in *. intros q t' Hq.
    apply lookup_insert_Some in Hq as [[<- <-]|[_ Hq]]; [| by apply W7]. split; [done |].
    destruct (W4 t p Ht) as [h Hh]. exists h. split; [done |]. unfold safebind_begin, deref in Hs. rewrite Hh, bind_Done in Hs.
    destruct (h_del h); [done |]. by destruct (h_cl h).
  - destruct (safebind_end_wf p t ret s hs b W Hb) as (s1 & c1 & H1 & W1). rewrite He in H1. by injection H1 as -> ->.
  - destruct (handle_delete_wf t p s hs b W Ht Hb) as (s1 & H1 & W1). rewrite Hd in H1. by injection H1 as ->.
  - destruct (delete_handle_wf m s hs b W) as (s1 & H1 & W1). unfold delete_handle in Hd. rewrite Hd in H1. by injection H1 as ->.
Qed.

Lemma hreach_wf s : hreach s -> handles_wf s.
Proof.
  induction 1 as [|w s s' _ IH H]; [| by eapply handles_step_wf].
  split; cbn [mgr handles binding handle_mgr_new hmap heap live_rpccs fresh_ptr]; try (intros *; rewrite lookup_empty; done); try set_solver.
Qed.

(** ** What the cache promises *)

(** How a step changes an hinfo: it is freed for good, or its endpoint stays
    and it can only be marked, which without delete_handle happens to an
    unbound one only. *)
Definition hinfo_evolves (w : bool) (h h' : hinfo) : Prop :=
  (forall c, h_cl h = Some c -> h_cl h' = Some c /\ (w = false -> h_del h' = h_del h)) /\ (h_del h = true -> h_del h' = true).

Lemma evolves_refl w h : hinfo_evolves w h h.
Proof. by split. Qed.

Lemma delete_wo_evolves m s s' p h :
  delete_handle_wo m s = Done s' -> heap s !! p = Some h ->
  match heap s' !! p with Some h' => hinfo_evolves true h h' | None => True end.
Proof.
  intros H Hp. unfold delete_handle_wo in H. destruct (hmap s !! m) as [q|]; [| injection H as <-; rewrite Hp; apply evolves_refl].
  apply bind_Done_inv in H as (x & Hx & H). unfold deref in Hx. destruct (heap s !! q) as [x'|] eqn:Hq; [| done]. injection Hx as ->.
  destruct (refcnt x =? 0).
  - apply bind_Done_inv in H as (s1 & H1 & H). injection H as <-. cbn [heap].
    assert (heap s1 = heap s) as ->.
    { unfold delete_rpcc in H1. destruct (h_cl x); [case_decide; [by injection H1 as <- | done] | by injection H1 as <-]. }
    rewrite lookup_delete. case_decide; [done |]. rewrite Hp. apply evolves_refl.
  - injection H as <-. cbn [heap set_hinfo]. rewrite lookup_insert. case_decide; [subst q; simplify_eq | rewrite Hp; apply evolves_refl].
    by split.
Qed.

(** An hinfo without handles is freed. *)
Lemma delete_wo_frees m s s' q x p h' :
  delete_handle_wo m s = Done s' -> hmap s !! m = Some q -> heap s !! q = Some x -> refcnt x = 0 ->
  heap s' !! p = Some h' -> heap s !! p = Some h'.
Proof.
  intros H Hm Hq H0 Hp. unfold delete_handle_wo, deref in H. rewrite Hm, Hq, bind_Done, (proj2 (Z.eqb_eq _ _) H0) in H.
  apply bind_Done_inv in H as (s1 & H1 & H). injection H as <-. cbn [heap] in Hp. apply lookup_delete_Some in Hp as [_ Hp].
  unfold delete_rpcc in H1. destruct (h_cl x); [case_decide; [by injection H1 as <- | done] | by injection H1 as <-].
Qed.

Lemma step_evolves w s s' p h :
  handles_wf s -> hstep w s s' -> heap (mgr s) !! p = Some h ->
  match heap (mgr s') !! p with Some h' => hinfo_evolves w h h' | None => True end.
Proof.
  intros W H Hp. pose proof (wf_ptrs s W p (ex_intro _ h Hp)) as Hlt.
  destruct H as [t m q s' s hs b Ht Hg|t q s hs b Ht Hb Hs|t q ret c s' s hs b Hb He|t q s' s hs b Ht Hb Hd|m s' s hs b Hd]; cbn [mgr] in *.
  - unfold get_handle in Hg. destruct (hmap s !! m) as [r|].
    + apply bind_Done_inv in Hg as (x & Hx & Hg). unfold deref in Hx. destruct (heap s !! r) as [x'|] eqn:Hr; [| done].
      injection Hx as ->. destruct (negb (h_del x)); injection Hg as <- <-; [| rewrite Hp; apply evolves_refl].
      cbn [heap set_hinfo]. rewrite lookup_insert. case_decide; [subst r; simplify_eq; by split | rewrite Hp; apply evolves_refl].
    + injection Hg as <- <-. cbn [heap]. rewrite lookup_insert_ne by lia. rewrite Hp. apply evolves_refl.
  - rewrite Hp. apply evolves_refl.
  - destruct (wf_binding _ W q t Hb) as (_ & x & Hx & Hn). cbn [mgr] in Hx. unfold safebind_end, deref in He. rewrite Hx, bind_Done in He.
    destruct (ret <? 0); injection He as <- <-; cbn [heap set_hinfo]; rewrite lookup_insert;
      (case_decide; [subst q; simplify_eq; split; [congruence | done] | rewrite Hp; apply evolves_refl]).
  - destruct q as [q|]; [| injection Hd as <-; rewrite Hp; apply evolves_refl]. cbn [handle_delete] in Hd. unfold done_handle in Hd.
    apply bind_Done_inv in Hd as (x & Hx & Hd). unfold deref in Hx. destruct (heap s !! q) as [x'|] eqn:Hq; [| done]. injection Hx as ->.
    cbv zeta in Hd. cbn [refcnt h_del h_m] in Hd. set (s1 := set_hinfo _ _ _) in Hd.
    assert (H1 : exists h1, heap s1 !! p = Some h1 /\ h_cl h1 = h_cl h /\ h_del h1 = h_del h).
    { unfold s1. cbn [heap set_hinfo]. rewrite lookup_insert. case_decide; [subst q; simplify_eq; by eexists | by exists h]. }
    destruct H1 as (h1 & Hh1 & E1 & E2). assert (Hev : forall h', hinfo_evolves false h1 h' -> hinfo_evolves false h h').
    { unfold hinfo_evolves. by rewrite E1, E2. }
    destruct ((refcnt x - 1 =? 0) && h_del x) eqn:Ez; [| injection Hd as <-; rewrite Hh1; apply Hev, evolves_refl].
    apply andb_true_iff in Ez as [Ez%Z.eqb_eq _]. destruct (heap s' !! p) as [h'|] eqn:Eh; [| done]. apply Hev.
    rewrite (delete_wo_frees _ s1 s' q (Hinfo (h_cl x) (refcnt x - 1) (h_del x) (h_m x)) p h' Hd) in Hh1; try done.
    + injection Hh1 as ->. apply evolves_refl.
    + exact (wf_listed _ W q x Hq).
    + unfold s1. cbn [heap set_hinfo]. apply lookup_insert_eq.
  - by eapply delete_wo_evolves.
Qed.

(** C16: in every reachable state each hinfo has exactly as many references
    as there are handles on it, every handle points to an hinfo that exists and
    whose endpoint exists, and no operation faults: none uses freed memory and
    no endpoint is deleted twice. *)
Theorem handle_cache_wf s :
  hreach s ->
  (forall p h, heap (mgr s) !! p = Some h -> refcnt h = Z.of_nat (count (points p) (handles s))) /\
  (forall t p, handles s !! t = Some (Some p) -> exists h, heap (mgr s) !! p = Some h /\
     (forall c, h_cl h = Some c -> c ∈ live_rpccs (mgr s))) /\
  (forall m, (exists r, get_handle m (mgr s) = Done r) /\ (exists r, delete_handle m (mgr s) = Done r)) /\
  (forall t h, handles s !! t = Some h -> exists r, safebind_begin h (mgr s) = Done r) /\
  (forall t h, handles s !! t = Some h -> (forall q, binding s !! q <> Some t) -> exists r, handle_delete h (mgr s) = Done r) /\
  (forall p t ret, binding s !! p = Some t -> exists r, safebind_end p ret (mgr s) = Done r).
Proof.
  intros H. pose proof (hreach_wf s H) as W. destruct s as [s hs b]. split_and!; cbn [mgr handles binding] in *.
  - apply (wf_refs _ W).
  - intros t p Ht. destruct (wf_handles _ W t p Ht) as [h Hh]. exists h. split; [done |]. intros c. by apply (wf_live _ W p h c).
  - intros m. split; [| destruct (delete_handle_wf m s hs b W) as (s' & ? & _); by eexists].
    destruct (get_handle_wf (fresh (dom hs)) m s hs b W) as (s' & p & ? & _); [| by eexists].
    apply not_elem_of_dom, is_fresh.
  - intros t [p|] Ht; [| by eexists]. destruct (wf_handles _ W t p Ht) as [h Hh]. cbn [mgr] in Hh. cbn [safebind_begin]. unfold deref.
    rewrite Hh, bind_Done. destruct (h_del h), (h_cl h); by eexists.
  - intros t h Ht Hb. destruct (handle_delete_wf t h s hs b W Ht Hb) as (s' & ? & _). by eexists.
  - intros p t ret Hb. destruct (safebind_end_wf p t ret s hs b W Hb) as (s' & c & ? & _). by eexists.
Qed.

Lemma safebind_evolves s s' p h h' r :
  heap s !! p = Some h -> heap s' !! p = Some h' -> hinfo_evolves false h h' ->
  safebind_begin (Some p) s = Done (Some r) -> safebind_begin (Some p) s' = Done (Some r).
Proof.
  intros Hh Hh' [H1 H2] H. cbn [safebind_begin] in *. unfold deref in *. rewrite Hh, bind_Done in H. rewrite Hh', bind_Done.
  destruct (h_del h); [rewrite H2 by done; done |]. destruct (h_cl h) as [c|]; [| done]. injection H as <-.
  destruct (H1 c eq_refl) as [E1 E2]. by rewrite E2, E1.
Qed.

Lemma while_held_stable t p s s' :
  while_held t p s s' -> hreach s -> handles s !! t = Some (Some p) ->
  forall r, safebind_begin (Some p) (mgr s) = Done (Some r) -> safebind_begin (Some p) (mgr s') = Done (Some r).
Proof.
  induction 1 as [s|s s' s'' H Ht' _ IH]; intros Hs Ht r Hr; [done |]. pose proof (hr_step _ _ _ Hs H) as Hs'.
  apply IH; [done | done |]. pose proof (hreach_wf s Hs) as W. destruct (wf_handles _ W t p Ht) as [h Hh].
  destruct (wf_handles _ (hreach_wf s' Hs') t p Ht') as [h' Hh']. pose proof (step_evolves _ _ _ p h W H Hh) as Hev. rewrite Hh' in Hev.
  exact (safebind_evolves _ _ p h h' r Hh Hh' Hev Hr).
Qed.

(** C25: the contract of safebind.  Once a call has returned an endpoint, or
    none because the bind failed, every later call on a handle of the same
    destination returns the same, whatever other threads do, until
    delete_handle is called; and the call that binds returns an endpoint
    exactly if the bind succeeds. *)
Theorem safebind_contract s s' t p :
  hreach s -> handles s !! t = Some (Some p) -> while_held t p s s' ->
  (forall r, safebind_begin (Some p) (mgr s) = Done (Some r) -> safebind_begin (Some p) (mgr s') = Done (Some r)) /\
  (forall h ret m c, binding s !! p = Some t -> heap (mgr s) !! p = Some h -> h_del h = false ->
     safebind_end p ret (mgr s) = Done (m, c) -> safebind_begin (Some p) m = Done (Some c) /\ (c = None <-> ret < 0)).
Proof.
  intros Hs Ht Hw. split; [by apply (while_held_stable t) |]. intros h ret m c Hb Hh Hd He.
  destruct (wf_binding _ (hreach_wf s Hs) p t Hb) as (_ & x & Hx & Hn). simplify_eq.
  unfold safebind_end, deref in He. rewrite Hh, bind_Done in He.
  destruct (Z.ltb_spec ret 0); injection He as <- <-; cbn [safebind_begin]; unfold deref; cbn [heap set_hinfo];
    rewrite lookup_insert_eq, bind_Done; cbn [h_del h_cl]; rewrite ?Hd, ?Hn; (split; [done |]); (split; [done || lia | done || lia]).
Qed.

(** ** A run: two handles on one destination *)

Definition dst : string := "10.0.0.1:3772".
Definition hinfo1 (c : option Z) (n : Z) : hinfo := Hinfo c n false dst.
Definition cache1 (c : option Z) (n : Z) (l : gset Z) (f : Z) : handle_mgr := HandleMgr {[dst := 1]} {[1 := hinfo1 c n]} l f.
Definition one_handle : hstate := HState (cache1 None 1 ∅ 2) {[0%nat := Some 1]} ∅.
Definition one_bound : hstate := HState (cache1 (Some 2) 1 ({[2]} ∪ ∅) 3) {[0%nat := Some 1]} ∅.
Definition two_bound : hstate := HState (cache1 (Some 2) 2 ({[2]} ∪ ∅) 3) (<[1%nat := Some 1]> {[0%nat := Some 1]}) ∅.
Definition one_binding : hstate := HState (cache1 None 1 ∅ 2) {[0%nat := Some 1]} {[1 := 0%nat]}.

Lemma handle_run : hreach one_binding /\ hreach one_bound /\ hstep false one_bound two_bound /\ hreach two_bound.
Proof.
  assert (H1 : hreach one_handle).
  { eapply hr_step; [apply hr_start |]. by apply (hs_new 0 dst (Some 1) (cache1 None 1 ∅ 2)). }
  assert (H2 : hreach one_binding) by (eapply hr_step; [exact H1 | by apply (hs_bind 0 1)]).
  assert (H3 : hreach one_bound).
  { eapply hr_step; [exact H2 |]. unfold one_binding, one_bound. replace (∅ : gmap Z nat) with (delete 1 ({[1 := 0%nat]} : gmap Z nat)) by done.
    by apply (hs_bound 0 1 0 (Some 2)). }
  assert (H4 : hstep false one_bound two_bound) by by apply (hs_new 1 dst (Some 1)).
  split_and!; [done | done | done |]. by eapply hr_step.
Qed.

Lemma handle_cache_wf_witness : refcnt (hinfo1 (Some 2) 2) = Z.of_nat (count (points 1) (handles two_bound)).
Proof. apply (handle_cache_wf two_bound); [apply handle_run | reflexivity]. Defined.

Lemma safebind_contract_witness : safebind_begin (Some 1) (mgr two_bound) = Done (Some (Some 2)).
Proof.
  apply (safebind_contract one_bound two_bound 0 1); [apply handle_run | reflexivity | | reflexivity].
  eapply wh_cons; [apply handle_run | reflexivity | apply wh_nil].
Defined.

(** After delete_handle a bound handle gets no endpoint any more. *)
Lemma delete_unbinds : exists m, delete_handle dst (mgr two_bound) = Done m /\ safebind_begin (Some 1) m = Done (Some None).
Proof. eexists. split; reflexivity. Qed.
