(* ===== verification/FuseServer.v ===== *)
(** * The FUSE callbacks (src/fuse.cc)

    Each callback runs operations of the file system client (YfsClient.v) and
    sends one reply.  The session loop is single-threaded, so callbacks run
    one after the other on the client's state.  The layout of directory
    entries belongs to libfuse: [fuse_dirent_size] and [fuse_add_dirent] are
    parameters, of which only the documented length is used. *)

From S2P Require Import Prelude Disk InodeManager FileSpec ExtentServer ExtentClient YfsDir YfsOps YfsClient.
Import ClientOps.

(** errno and mode constants *)
Definition ENOENT : Z := 2.
Definition EEXIST : Z := 17.
Definition ENOTDIR : Z := 20.
Definition ENOSYS : Z := 38.
Definition S_IFREG : Z := 0x8000.
Definition S_IFDIR : Z := 0x4000.
(** octal 0666 and 0777 *)
Definition MODE_0666 : Z := 438.
Definition MODE_0777 : Z := 511.
Definition FUSE_SET_ATTR_SIZE : Z := 8.

(** The fields of [struct stat] the code sets; the others are zero. *)
Record stat := Stat {
  st_ino : Z; st_mode : Z; st_nlink : Z; st_atime : Z; st_mtime : Z; st_ctime : Z; st_size : Z }.

(** [struct fuse_entry_param]; timeouts and generation are always zero. *)
Record entry_param := Entry { e_ino : Z; e_attr : stat }.

Inductive fuse_reply :=
| ReplyErr (errno : Z)
| ReplyAttr (st : stat)
| ReplyBuf (bs : list Z)
| ReplyWrite (count : Z)
| ReplyCreate (e : entry_param)
| ReplyEntry (e : entry_param)
| ReplyOpen
| ReplyStatfs (namemax bsize : Z).

(** The characters before the first NUL. *)
Fixpoint c_str (s : list Z) : list Z :=
  match s with [] => [] | b :: s => if b =? 0 then [] else b :: c_str s end.

Section fuse.
Context {S : Type} `{!ExtentService S}.
Variable net : nat -> delivery * env.
Variable revoked : nat -> bool.
Variable pad : Z.
(** [fuse_add_dirent(buf, name, stbuf, off)]: the bytes it writes. *)
Variable fuse_dirent_size : Z -> Z.
Variable fuse_add_dirent : list Z -> Z -> Z -> list Z.

Abbreviation isfile := (isfile net revoked).
Abbreviation lock := (YfsOps.lock (M := ym S) (YfsPrims0 := ym_prims net revoked)).
Abbreviation unlock_if := (YfsOps.unlock_if (M := ym S) (YfsPrims0 := ym_prims net revoked)).
Abbreviation y_getattr := (YfsOps.y_getattr (M := ym S) (YfsPrims := ym_prims net revoked)).
Abbreviation isdir := (isdir net revoked).

(** The status and [st]. *)
Definition getattr (inum : Z) : ym S (Z * stat) :=
  _ ← isfile inum;                 (* the argument of printf *)
  b ← isfile inum;
  let st0 := Stat inum 0 0 0 0 0 0 in
  if (b : bool) then
    r ← getfile net revoked inum (Fileinfo 0 0 0 0);
    let '(ret, info) := r in
    if negb (ret =? OK) then mret (ret, st0)
    else mret (OK, Stat inum (Z.lor S_IFREG MODE_0666) 1 (fi_atime info) (fi_mtime info) (fi_ctime info)
                     (fi_size info))
  else
    r ← getdir net revoked inum (Dirinfo 0 0 0);
    let '(ret, info) := r in
    if negb (ret =? OK) then mret (ret, st0)
    else mret (OK, Stat inum (Z.lor S_IFDIR MODE_0777) 2 (di_atime info) (di_mtime info) (di_ctime info) 0).

Definition fuseserver_getattr (ino : Z) : ym S fuse_reply :=
  r ← getattr ino;
  if negb (fst r =? OK) then mret (ReplyErr ENOENT) else mret (ReplyAttr (snd r)).

Definition fuseserver_setattr (ino attr_size to_set : Z) : ym S fuse_reply :=
  if negb (Z.land FUSE_SET_ATTR_SIZE to_set =? 0) then
    _ ← setattr net revoked ino attr_size;
    r ← getattr ino;
    mret (ReplyAttr (snd r))
  else mret (ReplyErr ENOSYS).

Definition fuseserver_read (ino size off : Z) : ym S fuse_reply :=
  r ← read net revoked ino size off [];
  if fst r =? OK then mret (ReplyBuf (snd r)) else mret (ReplyErr ENOENT).

(** [bytes_written] is the caller's own [size]. *)
Definition fuseserver_write (ino : Z) (buf : list Z) (size off : Z) : ym S fuse_reply :=
  r ← write net revoked ino size off buf size;
  if fst r =? OK then mret (ReplyWrite (snd r)) else mret (ReplyErr ENOENT).

Definition fuseserver_createhelper (parent : Z) (name : list Z) (type : Z)
    : ym S (Z * option entry_param) :=
  r ← create net revoked pad parent name type;
  match r with
  | (ret, Some inum) =>
      if negb (ret =? OK) then mret (ret, None)
      else a ← getattr inum; mret (fst a, Some (Entry inum (snd a)))
  | (ret, None) => mret (ret, None)
  end.

(** The replies of create, mknod and mkdir differ in the success case. *)
Definition reply_created (ok : entry_param -> fuse_reply) (r : Z * option entry_param) : fuse_reply :=
  match r with
  | (ret, Some e) => if ret =? OK then ok e else if ret =? EXIST then ReplyErr EEXIST else ReplyErr ENOENT
  | (ret, None) => if ret =? EXIST then ReplyErr EEXIST else ReplyErr ENOENT
  end.

Definition fuseserver_create (parent : Z) (name : list Z) : ym S fuse_reply :=
  r ← fuseserver_createhelper parent name T_FILE; mret (reply_created ReplyCreate r).
Definition fuseserver_mknod (parent : Z) (name : list Z) : ym S fuse_reply :=
  r ← fuseserver_createhelper parent name T_FILE; mret (reply_created ReplyEntry r).
Definition fuseserver_mkdir (parent : Z) (name : list Z) : ym S fuse_reply :=
  r ← fuseserver_createhelper parent name T_DIR; mret (reply_created ReplyEntry r).

Definition fuseserver_lookup (parent : Z) (name : list Z) : ym S fuse_reply :=
  r ← lookup net revoked pad parent name;
  match snd r with
  | Some ino => a ← getattr ino; mret (ReplyEntry (Entry ino (snd a)))
  | None => mret (ReplyErr ENOENT)
  end.

(** The buffer grows by the size of the entry, whose last argument is the
    offset of the next one. *)
Definition dirbuf_add (b : list Z) (name : list Z) (ino : Z) : list Z :=
  let name := c_str name in
  b ++ fuse_add_dirent name ino (size b + fuse_dirent_size (size name)).

Definition reply_buf_limited (buf : list Z) (off maxsize : Z) : list Z :=
  if u64 off <? size buf
  then take (Z.to_nat (Z.min (size buf - off) maxsize)) (drop (Z.to_nat off) buf)
  else [].

Fixpoint dirbuf_fill (b : list Z) (l : list dirent) : list Z :=
  match l with
  | [] => b
  | e :: l => dirbuf_fill (dirbuf_add b (d_name e) (d_inum e)) l
  end.

Definition fuseserver_readdir (ino size off : Z) : ym S fuse_reply :=
  d ← isdir ino;
  if negb (d : bool) then mret (ReplyErr ENOTDIR)
  else
    r ← readdir net revoked pad ino;
    mret (ReplyBuf (reply_buf_limited (dirbuf_fill [] (snd r)) off size)).

Definition fuseserver_open (ino : Z) : ym S fuse_reply := mret ReplyOpen.

Definition fuseserver_unlink (parent : Z) (name : list Z) : ym S fuse_reply :=
  r ← unlink net revoked pad parent name;
  if r =? OK then mret (ReplyErr 0)
  else if r =? NOENT then mret (ReplyErr ENOENT) else mret (ReplyErr ENOTEMPTY).

Definition fuseserver_statfs : ym S fuse_reply := mret (ReplyStatfs 255 512).

(** ** Attributes *)

Section attributes.
Hypothesis Hnet : net_ok net.

(** The client can be asked for the attributes of [i], any number of times. *)
Definition ready (i : Z) (y : yfs S) (m : fstore) (f : file) : Prop :=
  yok y m /\ m !! i = Some f /\ typed i y f /\ (locked i y \/ fits i y m).

Lemma flush_fits i y m f c' :
  yok y m -> m !! i = Some f -> files c' !! i = view (y_ec y) i ->
  (forall id, id <> i -> files c' !! id = files (y_ec y) !! id) ->
  admissible (ReqPut i (f_data f)) (files (y_ec y)) -> id_ok i ->
  admissible (ReqPut i (f_data f)) (files c').
Proof.
  intros [Hco Hs] Hf Hat Ho [Hl Hu] Hid. split; [done |]. rewrite <- Hs in Hf. rewrite Hf in Hat.
  replace (Spec.write (mask_id i) (f_data f) (files c'))
    with (Spec.write (mask_id i) (f_data f) (files (y_ec y))); [done |].
  rewrite mask_id_small by done. apply map_eq. intros j. unfold Spec.write. rewrite !lookup_alter.
  case_decide as Hj; [| by rewrite Ho]. subst j. rewrite Hat.
  unfold view in Hf. destruct (bcache (y_ec y) !! i) as [b|]; [| by rewrite Hf].
  destruct (deleted b); [done |]. destruct (dirty b); [| by rewrite Hf].
  destruct (files (y_ec y) !! i); [| done]. by injection Hf as <-.
Qed.

(** The stretch of isfile, getfile and getdir. *)
Lemma attr_section i y m f :
  id_ok i -> ready i y m f ->
  exists y1 lr y2 a y3, lock i y = Done (y1, lr) /\ y_getattr i y1 = Done (y2, (OK, a)) /\
    unlock_if lr i y2 = Done (y3, tt) /\ ready i y3 m f /\ held_lock y3 = held_lock y /\
    a_type a = u32 (f_type f) /\ a_size a = u32 (size (f_data f)).
Proof.
  intros Hid (Hy & Hf & Hty & Hfit).
  destruct (lock_done net revoked i y) as (y1 & lr & Hl & Hec & Hlk & Ho & _).
  destruct (y_getattr_done net revoked Hnet i y1 m f (yok_ec _ _ _ Hec Hy) Hid Hf)
    as (y2 & a & Hg & Hy2 & Hh2 & Hf2 & Hsz & Ht).
  assert (Hat : a_type a = u32 (f_type f)) by (apply Ht; unfold typed; by rewrite Hec).
  assert (Hty2 : typed i y2 f).
  { intros a' Ha'. cbn [YfsOps.y_getattr ym_prims] in Hg. unfold on_ec in Hg.
    destruct (ec_getattr net i attr_zero (y_ec y1)) as [[[c st] a1]|] eqn:E; [| done].
    injection Hg as <- -> ->. apply getattr_acache in E. cbn [y_ec with_ec] in Ha'. congruence. }
  assert (Hfit2 : locked i y \/ fits i y2 m).
  { destruct Hfit as [|Hfit]; [by left | right]. intros f' Hf'. rewrite Hf2, Hec. by apply Hfit. }
  exists y1, lr, y2, a. destruct Ho as [(-> & -> & Hlk')|(-> & -> & Hnl)].
  - exists y2. split_and!; auto. split_and!; auto. left. unfold locked. by rewrite Hh2.
  - destruct Hfit2 as [|Hfit2]; [done |]. unfold YfsOps.unlock_if. rewrite Z.eqb_refl.
    assert (Hin : i ∈ held_lock y2) by (rewrite Hh2; apply take_lock_locked).
    assert (Hh : held_lock y2 ∖ {[i]} = held_lock y) by (rewrite Hh2; by apply release_taken).
    destruct (revoked (releases y2)) eqn:Hrev.
    + destruct (flush_done net Hnet i (y_ec y2) (proj1 Hy2) Hid) as (c' & Hfl & Hco' & Hv & _ & He & Hoth).
      { intros b. by apply (fits_flush i y2 m). }
      eexists. split; [done |]. split; [done |]. split.
      { pose proof (unlock_eq net revoked i y2 Hin) as Hu. rewrite Hrev in Hu. unfold dorelease in Hu. rewrite Hfl in Hu. by ystep Hu. }
      split; [| done]. split_and!; auto.
      * split; [done |]. intros id. cbn [y_ec with_ec]. rewrite Hv. apply Hy2.
      * intros a' Ha'. apply Hty2. by apply (flush_acache net i (y_ec y2) c').
      * right. intros f' Hf'. rewrite Hf in Hf'. injection Hf' as <-.
        apply (flush_fits i y2 m f c'); auto. intros id Hne. by apply Hoth.
    + eexists. split; [done |]. split; [done |]. split.
      { pose proof (unlock_eq net revoked i y2 Hin) as Hu. rewrite Hrev in Hu. by ystep Hu. }
      split; [| done]. split_and!; auto.
Qed.

Lemma isfile_ready i y m f :
  id_ok i -> ready i y m f ->
  exists y', isfile i y = Done (y', u32 (f_type f) =? T_FILE) /\ ready i y' m f /\
    held_lock y' = held_lock y.
Proof.
  intros Hid Hr. destruct (attr_section i y m f Hid Hr) as (y1 & lr & y2 & a & y3 & Hl & Hg & Hu & Hr3 & Hh & Ht & _).
  exists y3. split; [| done]. unfold YfsOps.isfile. ystep Hl. ystep Hg. ystep Hu. by rewrite Ht.
Qed.

(** The attributes of a plain file say so and carry its size, those of
    anything else say directory, provided the client has the right type (see
    [put_forgets_type]); the locks are given back and nothing changes. *)
Theorem fuse_getattr_correct i y m f :
  id_ok i -> ready i y m f -> size (f_data f) < 2 ^ 32 ->
  exists y' st, fuseserver_getattr i y = Done (y', ReplyAttr st) /\ ready i y' m f /\
    held_lock y' = held_lock y /\ st_ino st = i /\
    if u32 (f_type f) =? T_FILE
    then st_mode st = Z.lor S_IFREG MODE_0666 /\ st_size st = size (f_data f)
    else st_mode st = Z.lor S_IFDIR MODE_0777.
Proof.
  intros Hid Hr Hsz. destruct (isfile_ready i y m f Hid Hr) as (ya & Ha & Hra & Hha).
  destruct (isfile_ready i ya m f Hid Hra) as (yb & Hb & Hrb & Hhb).
  destruct (attr_section i yb m f Hid Hrb) as (y1 & lr & y2 & a & y3 & Hl & Hg & Hu & Hr3 & Hh & _ & Hs).
  rewrite u32_id in Hs by (unfold is_u32, size in *; lia).
  assert (Hgf : getfile net revoked i (Fileinfo 0 0 0 0) yb
    = Done (y3, (OK, Fileinfo (a_size a) (a_atime a) (a_mtime a) (a_ctime a))))
    by (unfold YfsOps.getfile; ystep Hl; ystep Hg; ystep Hu; done).
  assert (Hgd : getdir net revoked i (Dirinfo 0 0 0) yb
    = Done (y3, (OK, Dirinfo (a_atime a) (a_mtime a) (a_ctime a))))
    by (unfold YfsOps.getdir; ystep Hl; ystep Hg; ystep Hu; done).
  set (st := if u32 (f_type f) =? T_FILE
    then Stat i (Z.lor S_IFREG MODE_0666) 1 (a_atime a) (a_mtime a) (a_ctime a) (a_size a)
    else Stat i (Z.lor S_IFDIR MODE_0777) 2 (a_atime a) (a_mtime a) (a_ctime a) 0).
  assert (Hga : getattr i y = Done (y3, (OK, st))).
  { unfold getattr. ystep Ha. ystep Hb. unfold st. destruct (u32 (f_type f) =? T_FILE).
    - by ystep Hgf.
    - by ystep Hgd. }
  exists y3, st. split; [unfold fuseserver_getattr; by ystep Hga |].
  unfold st. destruct (u32 (f_type f) =? T_FILE); split_and!; auto; congruence.
Qed.

End attributes.

(** ** The directory buffer *)

(** What libfuse documents: an entry takes [fuse_dirent_size] bytes. *)
Hypothesis dirent_length : forall name ino off,
  size (fuse_add_dirent name ino off) = fuse_dirent_size (size name).

Lemma length_dirbuf_add b name ino :
  size (dirbuf_add b name ino) = size b + fuse_dirent_size (size (c_str name)).
Proof.
  unfold dirbuf_add. unfold size at 1. rewrite length_app, Nat2Z.inj_add. fold (size b).
  f_equal. apply dirent_length.
Qed.

Lemma dirbuf_fill_app b l k : dirbuf_fill b (l ++ k) = dirbuf_fill (dirbuf_fill b l) k.
Proof. revert b. induction l as [|e l IH]; intros b; [done |]. cbn [app dirbuf_fill]. apply IH. Qed.

Lemma dirbuf_fill_prefix b l : exists r, dirbuf_fill b l = b ++ r.
Proof.
  revert b. induction l as [|e l IH]; intros b.
  - exists []. by rewrite app_nil_r.
  - destruct (IH (dirbuf_add b (d_name e) (d_inum e))) as [r Hr]. cbn [dirbuf_fill]. rewrite Hr.
    unfold dirbuf_add. rewrite <- app_assoc. by eexists.
Qed.

(** C39: a directory listing can be resumed: the offset stored in an entry is
    the size of the buffer up to and including it, and asking again with that
    offset returns the entries that follow (as many bytes as asked for),
    nothing twice and nothing left out. *)
Theorem readdir_resumes l e k n :
  0 <= n -> size (dirbuf_fill [] (l ++ e :: k)) < 2 ^ 63 ->
  let before := dirbuf_fill [] l in
  let off := size before + fuse_dirent_size (size (c_str (d_name e))) in
  let this := fuse_add_dirent (c_str (d_name e)) (d_inum e) off in
  exists rest,
    dirbuf_fill [] (l ++ e :: k) = before ++ this ++ rest /\ size (before ++ this) = off /\
    reply_buf_limited (dirbuf_fill [] (l ++ e :: k)) off n = take (Z.to_nat n) rest.
Proof.
  intros Hn Hlen before off this. set (b1 := dirbuf_add before (d_name e) (d_inum e)).
  assert (Hb1 : size b1 = off) by apply length_dirbuf_add.
  destruct (dirbuf_fill_prefix b1 k) as [rest Hrest].
  assert (Hall : dirbuf_fill [] (l ++ e :: k) = b1 ++ rest) by (rewrite dirbuf_fill_app; exact Hrest).
  exists rest. rewrite Hall in *. split_and!; [by unfold b1, dirbuf_add; rewrite <- app_assoc | done |].
  unfold reply_buf_limited. rewrite <- Hb1.
  assert (Hs : size (b1 ++ rest) = size b1 + size rest) by (unfold size; rewrite length_app; lia).
  assert (H0 : 0 <= size b1 /\ 0 <= size rest) by (unfold size; lia).
  rewrite u64_id by lia. destruct (Z.ltb_spec (size b1) (size (b1 ++ rest))).
  - assert (Hd : drop (Z.to_nat (size b1)) (b1 ++ rest) = rest)
      by (unfold size; rewrite Nat2Z.id; apply drop_app_length).
    rewrite Hd. destruct (Z.le_gt_cases n (size rest)); [f_equal; lia |].
    rewrite !take_ge; [done | |]; unfold size in *; lia.
  - assert (rest = []) as -> by (apply length_zero_iff_nil; unfold size in *; lia). by rewrite take_nil.
Qed.

(** A write that starts behind the end of the file is answered with a
    count that includes the hole, more than the bytes the kernel asked to
    write; otherwise the count is the size of the write. *)
Theorem write_reply_count (Hnet : net_ok net) ino buf off y m f :
  yok y m -> id_ok ino -> m !! ino = Some f -> 0 <= off -> off + size buf < 2 ^ 31 ->
  size (f_data f) < 2 ^ 31 ->
  admissible (ReqPut ino (overwrite (f_data f) (Z.to_nat off) buf)) (files (y_ec y)) ->
  exists y' count, fuseserver_write ino buf (size buf) off y = Done (y', ReplyWrite count) /\
    count = size buf + Z.max 0 (off - size (f_data f)) /\
    yok y' (Spec.write ino (overwrite (f_data f) (Z.to_nat off) buf) m).
Proof.
  intros Hy Hi Hf Ho Hmax Hsz Hadm.
  destruct (write_done net revoked Hnet ino (size buf) off buf (size buf) y m f)
    as (y' & Hw & Hy' & _); auto; [unfold max_size; lia |].
  eexists y', _. split; [| split; [| done]].
  - unfold fuseserver_write. ystep Hw. reflexivity.
  - destruct (Z.leb_spec (size (f_data f)) off); lia.
Qed.

End fuse.

(** Entries as libfuse lays them out: ino, offset, length, type, name, padding
    to 8 bytes. *)
Definition demo_dirent_size (n : Z) : Z := (24 + n + 7) / 8 * 8.
Definition demo_add_dirent (name : list Z) (ino off : Z) : list Z :=
  le_enc 8 ino ++ le_enc 8 off ++ le_enc 4 (size name) ++ le_enc 4 0 ++ name ++
  replicate (Z.to_nat (demo_dirent_size (size name)) - 24 - length name) 0.

Lemma demo_dirent_length name ino off :
  size (demo_add_dirent name ino off) = demo_dirent_size (size name).
Proof.
  unfold demo_add_dirent, size. rewrite !length_app, !length_le_enc, length_replicate.
  unfold demo_dirent_size. set (n := Z.of_nat (length name)).
  pose proof (Z.div_mod (24 + n + 7) 8 ltac:(lia)). pose proof (Z.mod_pos_bound (24 + n + 7) 8 ltac:(lia)).
  lia.
Qed.

Lemma readdir_resumes_witness :
  exists rest,
    dirbuf_fill demo_dirent_size demo_add_dirent [] [Dirent [97] 2; Dirent [98] 3] =
      demo_add_dirent [97] 2 32 ++ rest /\
    reply_buf_limited (dirbuf_fill demo_dirent_size demo_add_dirent [] [Dirent [97] 2; Dirent [98] 3]) 32 100 =
      take 100 rest.
Proof.
  destruct (readdir_resumes demo_dirent_size demo_add_dirent demo_dirent_length [] (Dirent [97] 2)
    [Dirent [98] 3] 100) as (rest & H1 & _ & H2).
  - lia.
  - vm_compute. reflexivity.
  - exists rest. split; [exact H1 | exact H2].
Defined.

Lemma write_reply_count_witness :
  exists y' count, fuseserver_write reliable calm 2 [1; 2] 2 4 demo_yfs = Done (y', ReplyWrite count) /\
    count = 4.
Proof.
  destruct (write_reply_count reliable calm reliable_ok 2 [1; 2] 4 demo_yfs demo_files
    (File T_FILE [104; 105]) demo_ok two_ok) as (y' & count & Hw & Hc & _).
  - reflexivity.
  - lia.
  - vm_compute. reflexivity.
  - vm_compute. reflexivity.
  - apply small_admissible; vm_compute; reflexivity.
  - exists y', count. split; [exact Hw |]. rewrite Hc. reflexivity.
Defined.

Lemma fuse_getattr_correct_witness :
  exists y' st, fuseserver_getattr reliable calm 2 demo_yfs = Done (y', ReplyAttr st) /\
    st_mode st = Z.lor S_IFREG MODE_0666 /\ st_size st = 2.
Proof.
  destruct (fuse_getattr_correct reliable calm reliable_ok 2 demo_yfs demo_files
    (File T_FILE [104; 105]) two_ok) as (y' & st & Hg & _ & _ & _ & Hst).
  - split; [exact demo_ok |]. split; [reflexivity |]. split; [intros a Ha; discriminate Ha |].
    right. intros f Hf. injection Hf as <-. apply small_admissible; vm_compute; reflexivity.
  - vm_compute. reflexivity.
  - exists y', st. split; [exact Hg | exact Hst].
Defined.
