(* ===== verification/Posix.v ===== *)
(** * Processes and files (the C library calls of src/test-lab-3-a.c and src/test-lab-3-b.c)

    The test programs call the POSIX interface.  A program is a tree of calls;
    [resolve] (which object a path names) and [listing] (the order in which
    readdir lists a directory) belong to the operating system and are
    parameters.  The calls act on a file system as POSIX describes it: names,
    contents, and open files and directory streams of each process.  A call
    takes a number [z] for what POSIX leaves open: whether creating a file that
    exists fails with EEXIST, as it may when another process creates it at the
    same time, and the order of a listing.

    A process can fork one child at a time; the two then run interleaved, until
    the parent waits for the child.

    [vcall] is what POSIX documents, not a program of this repository: what runs
    the tests is any [PosixSystem], whose calls do that or are refused.

    The second half is a small rely-guarantee logic for such programs: [safe]
    for a process beside another one, [good] for the main process, and the
    theorem [adequate]: the runs of a good program end, without a failure. *)

From stdpp Require Import sorting.
From S2P Require Import Prelude Disk.

(** ** Programs *)

Inductive call :=
| Open (p : list Z) (flags : Z) | Read (fd n : Z) | Write (fd : Z) (buf : list Z) | Lseek (fd off : Z)
| Fsync (fd : Z) | Close (fd : Z) | Unlink (p : list Z) | Mkdir (p : list Z) | Access (p : list Z)
| Opendir (p : list Z) | Readdir (dp : Z) | Closedir (dp : Z).

(** The result, errno, and what is put into the caller's memory. *)
Record answer := Ans { res : Z; err : Z; got : list Z }.

(** What waitpid reports: an exit code, or an end by a signal. *)
Inductive prog :=
| Ret
| Exit (code : Z)
| Stop (e : fault)
| Sys (c : call) (k : answer -> prog)
| Fork (k : Z -> prog)
| Wait (pid : Z) (k : Z -> option Z -> prog).

Fixpoint seq (p q : prog) : prog :=
  match p with
  | Ret => q
  | Exit n => Exit n
  | Stop e => Stop e
  | Sys c k => Sys c (fun a => seq (k a) q)
  | Fork k => Fork (fun pid => seq (k pid) q)
  | Wait pid k => Wait pid (fun w st => seq (k w st) q)
  end.

Declare Scope prog_scope.
Delimit Scope prog_scope with prog.
Notation "p ;; q" := (seq p q) (at level 100, right associativity) : prog_scope.

(** for(i = i0; i < i0 + n; i++) *)
Fixpoint for_ (i : Z) (n : nat) (body : Z -> prog) : prog :=
  match n with
  | O => Ret
  | S n => seq (body i) (for_ (i + 1) n body)
  end.

Definition ENOENT : Z := 2.
Definition EBADF : Z := 9.
Definition EEXIST : Z := 17.
Definition EISDIR : Z := 21.
Definition EINVAL : Z := 22.
Definition O_WRONLY : Z := 1.
Definition O_CREAT : Z := 64.
Definition O_TRUNC : Z := 512.
Definition O_APPEND : Z := 1024.

(** ** The file system *)

Inductive who := Main | Kid.
#[export] Instance who_eq : EqDecision who.
Proof. solve_decision. Defined.

Record ofile := OFile { o_ino : Z; o_off : Z; o_flags : Z }.
Record tables := Tables { fds : gmap Z ofile; streams : gmap Z (list (list Z)) }.

(** A path as its components below the place where the file system is mounted. *)
Abbreviation key := (list (list Z)).

Record vfs := Vfs { dirs : gset key; ents : gmap key Z; files : gmap Z (list Z); tab_main : tables; tab_kid : tables }.

Definition tab (w : who) (v : vfs) : tables := match w with Main => tab_main v | Kid => tab_kid v end.
Definition set_tab (w : who) (t : tables) (v : vfs) : vfs :=
  match w with
  | Main => Vfs (dirs v) (ents v) (files v) t (tab_kid v)
  | Kid => Vfs (dirs v) (ents v) (files v) (tab_main v) t
  end.
Definition set_file (i : Z) (b : list Z) (v : vfs) : vfs := Vfs (dirs v) (ents v) (<[i := b]> (files v)) (tab_main v) (tab_kid v).
Definition set_ents (e : gmap key Z) (v : vfs) : vfs := Vfs (dirs v) e (files v) (tab_main v) (tab_kid v).
Definition no_tables : tables := Tables ∅ ∅.

(** A number that is not used yet. *)
Definition unused {A} (first : Z) (m : gmap Z A) : Z := map_fold (fun k _ n => Z.max (k + 1) n) first m.

Definition parent (k : key) : key := removelast k.
Definition child_of (k c : key) : option (list Z) := if decide (c <> [] /\ parent c = k) then last c else None.
Definition children (k : key) (v : vfs) : list (list Z) :=
  omap (child_of k) (elements (dom (ents v) ∪ dirs v)).

Definition DOT : Z := 46.

(** write at an offset; a hole reads as zeros. *)
Definition overwrite (b : list Z) (off : nat) (buf : list Z) : list Z :=
  let b := if (length b <? off)%nat then b ++ replicate (off - length b) 0 else b in
  take off b ++ buf ++ drop (off + length buf) b.

Section calls.
Variable resolve : list Z -> option key.
Variable listing : Z -> list (list Z) -> list (list Z).

Definition fails (e : Z) (v : vfs) : vfs * answer := (v, Ans (-1) e []).
Definition gives (r : Z) (v : vfs) : vfs * answer := (v, Ans r 0 []).

Definition open_fd (w : who) (i flags : Z) (v : vfs) : vfs * answer :=
  let t := tab w v in
  let fd := unused 3 (fds t) in
  gives fd (set_tab w (Tables (<[fd := OFile i 0 flags]> (fds t)) (streams t)) v).

Definition open_call (z : Z) (w : who) (p : list Z) (flags : Z) (v : vfs) : vfs * answer :=
  match resolve p with
  | None => fails ENOENT v
  | Some k =>
      if decide (k ∈ dirs v) then fails EISDIR v
      else
        match ents v !! k with
        | Some i =>
            if negb (Z.land flags O_CREAT =? 0) && Z.odd z then fails EEXIST v
            else open_fd w i flags (if Z.land flags O_TRUNC =? 0 then v else set_file i [] v)
        | None =>
            if Z.land flags O_CREAT =? 0 then fails ENOENT v
            else if decide (parent k ∈ dirs v) then
              let i := unused 1 (files v) in
              open_fd w i flags (set_ents (<[k := i]> (ents v)) (set_file i [] v))
            else fails ENOENT v
        end
  end.

Definition with_fd (w : who) (fd : Z) (v : vfs) (f : ofile -> list Z -> vfs * answer) : vfs * answer :=
  match fds (tab w v) !! fd with
  | None => fails EBADF v
  | Some o => match files v !! o_ino o with Some b => f o b | None => fails EBADF v end
  end.

Definition set_fd (w : who) (fd : Z) (o : ofile) (v : vfs) : vfs :=
  set_tab w (Tables (<[fd := o]> (fds (tab w v))) (streams (tab w v))) v.
Definition set_streams (w : who) (m : gmap Z (list (list Z))) (v : vfs) : vfs :=
  set_tab w (Tables (fds (tab w v)) m) v.

Definition vcall (z : Z) (w : who) (c : call) (v : vfs) : vfs * answer :=
  match c with
  | Open p flags => open_call z w p flags v
  | Read fd n =>
      with_fd w fd v (fun o b =>
        if negb (Z.land (o_flags o) O_WRONLY =? 0) then fails EBADF v
        else
          let r := sub b (Z.to_nat (o_off o)) (Z.to_nat n) in
          (set_fd w fd (OFile (o_ino o) (o_off o + Z.of_nat (length r)) (o_flags o)) v, Ans (Z.of_nat (length r)) 0 r))
  | Write fd buf =>
      with_fd w fd v (fun o b =>
        if Z.land (o_flags o) O_WRONLY =? 0 then fails EBADF v
        else
          let off := if Z.land (o_flags o) O_APPEND =? 0 then Z.to_nat (o_off o) else length b in
          gives (Z.of_nat (length buf))
            (set_fd w fd (OFile (o_ino o) (Z.of_nat (off + length buf)) (o_flags o)) (set_file (o_ino o) (overwrite b off buf) v)))
  | Lseek fd off =>
      with_fd w fd v (fun o _ =>
        if off <? 0 then fails EINVAL v else gives off (set_fd w fd (OFile (o_ino o) off (o_flags o)) v))
  | Fsync fd => with_fd w fd v (fun _ _ => gives 0 v)
  | Close fd =>
      with_fd w fd v (fun _ _ => gives 0 (set_tab w (Tables (delete fd (fds (tab w v))) (streams (tab w v))) v))
  | Unlink p =>
      match resolve p with
      | None => fails ENOENT v
      | Some k => match ents v !! k with
                  | None => fails ENOENT v
                  | Some _ => gives 0 (set_ents (delete k (ents v)) v)
                  end
      end
  | Mkdir p =>
      match resolve p with
      | None => fails ENOENT v
      | Some k =>
          if decide (k ∈ dirs v \/ is_Some (ents v !! k)) then fails EEXIST v
          else if decide (k <> [] /\ parent k ∈ dirs v)
          then gives 0 (Vfs ({[k]} ∪ dirs v) (ents v) (files v) (tab_main v) (tab_kid v))
          else fails ENOENT v
      end
  | Access p =>
      match resolve p with
      | None => fails ENOENT v
      | Some k => if decide (k ∈ dirs v \/ is_Some (ents v !! k)) then gives 0 v else fails ENOENT v
      end
  | Opendir p =>
      match resolve p with
      | None => (v, Ans 0 ENOENT [])
      | Some k =>
          if decide (k ∈ dirs v) then
            let dp := unused 1 (streams (tab w v)) in
            gives dp (set_streams w (<[dp := listing z ([DOT] :: [DOT; DOT] :: children k v)]> (streams (tab w v))) v)
          else (v, Ans 0 ENOENT [])
      end
  | Readdir dp =>
      match streams (tab w v) !! dp with
      | Some (e :: l) => (set_streams w (<[dp := l]> (streams (tab w v))) v, Ans 1 0 e)
      | Some [] => gives 0 v
      | None => (v, Ans 0 EBADF [])
      end
  | Closedir dp =>
      match streams (tab w v) !! dp with
      | Some _ => gives 0 (set_streams w (delete dp (streams (tab w v))) v)
      | None => fails EBADF v
      end
  end.

(** ** A process and its child *)

Record conf := Conf { cf_fs : vfs; cf_main : prog; cf_kid : option (Z * prog) }.

(** The child starts with the open files of its parent; at its end they are
    closed. *)
Definition forked (v : vfs) : vfs := Vfs (dirs v) (ents v) (files v) (tab_main v) (tab_main v).
Definition reaped (v : vfs) : vfs := Vfs (dirs v) (ents v) (files v) (tab_main v) no_tables.

Inductive step : conf -> conf -> Prop :=
| st_main z v c k kid v' a :
    vcall z Main c v = (v', a) -> step (Conf v (Sys c k) kid) (Conf v' (k a) kid)
| st_kid z v p pid c k v' a :
    vcall z Kid c v = (v', a) -> step (Conf v p (Some (pid, Sys c k))) (Conf v' p (Some (pid, k a)))
| st_fork v k pid : 0 < pid -> step (Conf v (Fork k) None) (Conf (forked v) (k pid) (Some (pid, k 0)))
| st_wait v pid k n : step (Conf v (Wait pid k) (Some (pid, Exit n))) (Conf (reaped v) (k pid (Some n)) None)
| st_wait_ret v pid k : step (Conf v (Wait pid k) (Some (pid, Ret))) (Conf (reaped v) (k pid (Some 0)) None)
| st_wait_stop v pid k e : step (Conf v (Wait pid k) (Some (pid, Stop e))) (Conf (reaped v) (k pid None) None)
| st_wait_none v pid k kid :
    (forall p, kid <> Some (pid, p)) -> step (Conf v (Wait pid k) kid) (Conf v (k (-1) None) kid).

Inductive steps : conf -> conf -> Prop :=
| steps_refl c : steps c c
| steps_step c1 c2 c3 : steps c1 c2 -> step c2 c3 -> steps c1 c3.

(** A test has failed: a process has stopped with an error, or in the middle. *)
Definition bad (p : prog) : Prop := match p with Exit n => n <> 0 | Stop _ => True | _ => False end.
Definition failed (c : conf) : Prop :=
  bad (cf_main c) \/ exists pid p, cf_kid c = Some (pid, p) /\ bad p.

(** ** Running *)

Definition run_main (z : Z) (c : conf) : option conf :=
  match c with
  | Conf v (Sys c k) kid => let '(v', a) := vcall z Main c v in Some (Conf v' (k a) kid)
  | Conf v (Fork k) None => Some (Conf (forked v) (k 1) (Some (1, k 0)))
  | Conf v (Wait pid k) (Some (pid', Exit n)) => if decide (pid = pid') then Some (Conf (reaped v) (k pid (Some n)) None) else None
  | _ => None
  end.

Definition run_kid (z : Z) (c : conf) : option conf :=
  match c with
  | Conf v p (Some (pid, Sys c k)) => let '(v', a) := vcall z Kid c v in Some (Conf v' p (Some (pid, k a)))
  | _ => None
  end.

(** At most [n] steps; the numbers from [z] on say what POSIX leaves open, and
    whose turn it is. *)
Fixpoint run (n : nat) (z : Z) (c : conf) : conf :=
  match n with
  | O => c
  | S n =>
      let '(first, second) := if Z.odd (z / 2) then (run_main, run_kid) else (run_kid, run_main) in
      match first z c with
      | Some c' => run n (z + 1) c'
      | None => match second z c with Some c' => run n (z + 1) c' | None => c end
      end
  end.

Lemma run_main_step z c c' : run_main z c = Some c' -> step c c'.
Proof.
  destruct c as [v p kid]. destruct p as [|n|e|c k|k|w k]; cbn [run_main]; try done.
  - destruct (vcall z Main c v) as [v' a] eqn:E. intros [= <-]. by eapply st_main.
  - destruct kid; [done |]. intros [= <-]. by apply st_fork.
  - destruct kid as [[pid' q]|]; [| done]. destruct q; try done. destruct (decide (w = pid')) as [->|]; [| done]. intros [= <-]. apply st_wait.
Qed.

Lemma run_kid_step z c c' : run_kid z c = Some c' -> step c c'.
Proof.
  destruct c as [v p [[pid q]|]]; cbn [run_kid]; [| done]. destruct q as [|n|e|c k|k|w k]; try done.
  destruct (vcall z Kid c v) as [v' a] eqn:E. intros [= <-]. by eapply st_kid.
Qed.

Lemma run_steps n z c0 c : steps c0 c -> steps c0 (run n z c).
Proof.
  revert z c. induction n as [|n IH]; intros z c Hs; [done |]. cbn [run].
  assert (H : forall c', run_main z c = Some c' \/ run_kid z c = Some c' -> steps c0 (run n (z + 1) c')).
  { intros c' Hc. apply IH. eapply steps_step; [exact Hs |]. destruct Hc as [Hc|Hc]; [by eapply run_main_step | by eapply run_kid_step]. }
  destruct (Z.odd (z / 2)); destruct (run_main z c) eqn:E1, (run_kid z c) eqn:E2; auto.
Qed.

(** ** Rely and guarantee *)

Definition rel : Type := vfs -> vfs -> Prop.
Definition pred : Type := vfs -> Prop.

(** The process [w] beside another one whose steps are in [R]: its own steps are
    in [G], it does not fail, fork or wait; [Q] holds when the program is
    through, and [X] when it exits. *)
Fixpoint safe (w : who) (R G : rel) (p : prog) (Q X : pred) (v : vfs) : Prop :=
  match p with
  | Ret => forall v', R v v' -> Q v'
  | Exit n => n = 0 /\ forall v', R v v' -> X v'
  | Sys c k => forall v1, R v v1 -> forall z v2 a, vcall z w c v1 = (v2, a) -> G v1 v2 /\ safe w R G (k a) Q X v2
  | _ => False
  end.

Definition never : pred := fun _ => False.

(** What is agreed between the main process and its child: the steps of the one,
    the steps of the other, and what holds when the child is through. *)
Record pact := Pact { pt_main : rel; pt_kid : rel; pt_post : pred }.

Definition rely_of (kid : option (Z * pact)) : rel := match kid with Some (_, s) => pt_kid s | None => eq end.
Definition guar_of (kid : option (Z * pact)) : rel := match kid with Some (_, s) => pt_main s | None => fun _ _ => True end.

(** The main process, without or with a child. *)
Fixpoint good (kid : option (Z * pact)) (p : prog) (Q : pred) (v : vfs) : Prop :=
  match p with
  | Ret => kid = None /\ Q v
  | Exit n => kid = None /\ n = 0
  | Stop _ => False
  | Sys c k =>
      forall v1, rely_of kid v v1 -> forall z v2 a, vcall z Main c v1 = (v2, a) -> guar_of kid v1 v2 /\ good kid (k a) Q v2
  | Fork k =>
      kid = None /\ forall pid, 0 < pid -> exists s, PreOrder (pt_main s) /\ PreOrder (pt_kid s) /\
        safe Kid (pt_main s) (pt_kid s) (k 0) never (pt_post s) (forked v) /\ good (Some (pid, s)) (k pid) Q (forked v)
  | Wait pid k =>
      match kid with
      | Some (pid', s) => pid = pid' /\ forall v1, pt_kid s v v1 -> pt_post s v1 -> good None (k pid (Some 0)) Q (reaped v1)
      | None => False
      end
  end.

Lemma safe_mono w R G p Q Q' X X' v :
  (forall v, Q v -> Q' v) -> (forall v, X v -> X' v) -> safe w R G p Q X v -> safe w R G p Q' X' v.
Proof.
  intros HQ HX. revert v. induction p as [| | |c k IH| |]; intros v Hs; cbn [safe] in *; eauto.
  - destruct Hs. eauto.
  - intros v1 HR z v2 a Hc. destruct (Hs v1 HR z v2 a Hc). eauto.
Qed.

Lemma safe_weaken w (R R' G G' : rel) p Q X v :
  (forall v v', R' v v' -> R v v') -> (forall v v', G v v' -> G' v v') -> safe w R G p Q X v -> safe w R' G' p Q X v.
Proof.
  intros HR HG. revert v. induction p as [|n| |c k IH| |]; intros v Hs; cbn [safe] in *; eauto.
  - destruct Hs. eauto.
  - intros v1 Hv z v2 a Hc. destruct (Hs v1 (HR _ _ Hv) z v2 a Hc). eauto.
Qed.

(** Steps of the other process do not matter. *)
Lemma safe_stable w (R G : rel) `{!PreOrder R} p Q X v v' : R v v' -> safe w R G p Q X v -> safe w R G p Q X v'.
Proof.
  intros Hv Hs. destruct p; cbn [safe] in *; [| | done | | done | done].
  - intros. apply Hs. by etrans.
  - destruct Hs as [-> Hs]. split; [done |]. intros. apply Hs. by etrans.
  - intros v1 H1. apply Hs. by etrans.
Qed.

Lemma safe_seq w (R G : rel) `{!PreOrder R} p q Q Q' X v :
  safe w R G p Q' X v -> (forall v', Q' v' -> safe w R G q Q X v') -> safe w R G (seq p q) Q X v.
Proof.
  intros Hs Hq. revert v Hs. induction p as [|n| |c k IH| |]; intros v Hs; cbn [safe seq] in *; eauto.
  - apply Hq, Hs. done.
  - intros v1 HR z v2 a Hc. destruct (Hs v1 HR z v2 a Hc). eauto.
Qed.

Lemma good_seq kid p q Q v : good kid p (good None q Q) v -> good kid (seq p q) Q v.
Proof.
  revert kid v. induction p as [|n|e|c k IH|k IH|pid k IH]; intros kid v H; cbn [good seq] in *; auto.
  - by destruct H as [-> H].
  - intros v1 HR z v2 a Hc. destruct (H v1 HR z v2 a Hc). eauto.
  - destruct H as [-> H]. split; [done |]. intros pid Hp. destruct (H pid Hp) as (s & ? & ? & Hs & Hg).
    exists s. split_and!; [done | done | | by apply IH]. eapply safe_seq; [done | exact Hs | by intros ? []].
  - destruct kid as [[pid' s]|]; [| done]. destruct H as [-> H]. split; [done |]. intros v1 H1 H2. by apply IH, H.
Qed.

Lemma safe_good kid p q Q' Q v :
  PreOrder (rely_of kid) -> safe Main (rely_of kid) (guar_of kid) p Q' never v ->
  (forall v', Q' v' -> good kid q Q v') -> good kid (seq p q) Q v.
Proof.
  intros HP Hs Hq. revert v Hs. induction p as [|n|e|c k IH|k IH|pid k IH]; intros v Hs; cbn [safe good seq] in *; try done.
  - by apply Hq, Hs.
  - destruct Hs as [_ Hs]. by destruct (Hs v).
  - intros v1 HR z v2 a Hc. destruct (Hs v1 HR z v2 a Hc). eauto.
Qed.

Lemma safe_good_last p Q' Q v :
  safe Main eq (fun _ _ => True) p Q' never v -> (forall v', Q' v' -> Q v') -> good None p Q v.
Proof.
  intros Hs Hq. revert v Hs. induction p as [|n|e|c k IH|k IH|pid k IH]; intros v Hs; cbn [safe good] in *; try done.
  - split; [done |]. by apply Hq, Hs.
  - destruct Hs as [_ Hs]. by destruct (Hs v).
  - intros v1 HR z v2 a Hc. destruct (Hs v1 HR z v2 a Hc). eauto.
Qed.

Lemma good_stable pid s `{!PreOrder (pt_kid s)} p Q v v' :
  pt_kid s v v' -> good (Some (pid, s)) p Q v -> good (Some (pid, s)) p Q v'.
Proof.
  intros Hv H. destruct p; cbn [good rely_of] in *; try (by destruct H); try done.
  - intros v1 H1. apply H. by etrans.
  - destruct H as [-> H]. split; [done |]. intros v1 H1. apply H. by etrans.
Qed.

(** *** The logic is right *)

(** Between two steps. *)
Definition fine (c : conf) : Prop :=
  match cf_kid c with
  | None => good None (cf_main c) never (cf_fs c)
  | Some (pid, p) => exists s, PreOrder (pt_main s) /\ PreOrder (pt_kid s) /\
      safe Kid (pt_main s) (pt_kid s) p never (pt_post s) (cf_fs c) /\ good (Some (pid, s)) (cf_main c) never (cf_fs c)
  end.

Lemma fine_step c c' : fine c -> step c c' -> fine c'.
Proof.
  intros Hf Hst.
  destruct Hst as [z v c k kid v' a Hc|z v p pid c k v' a Hc|v k pid Hp|v pid k n|v pid k|v pid k e|v pid k kid Hn]; unfold fine in *; cbn [cf_kid cf_main cf_fs] in *.
  - destruct kid as [[pid p]|].
    + destruct Hf as (s & H1 & H2 & Hk & Hm). cbn [good rely_of guar_of] in Hm.
      destruct (Hm v (reflexivity v) z v' a Hc) as [HG Hm']. exists s. split_and!; [done | done | by eapply safe_stable | done].
    + by destruct (Hf v eq_refl z v' a Hc).
  - destruct Hf as (s & H1 & H2 & Hk & Hm). cbn [safe] in Hk. destruct (Hk v (reflexivity v) z v' a Hc) as [HG Hk'].
    exists s. split_and!; [done | done | done | by eapply good_stable].
  - destruct Hf as [_ Hf]. exact (Hf pid Hp).
  - destruct Hf as (s & H1 & H2 & Hk & Hm). cbn [safe good] in Hk, Hm. destruct Hk as [-> Hk], Hm as [_ Hm]. by apply Hm; [| apply Hk].
  - destruct Hf as (s & H1 & H2 & Hk & Hm). cbn [safe] in Hk. by destruct (Hk v).
  - by destruct Hf as (s & H1 & H2 & Hk & Hm).
  - destruct kid as [[pid' p]|].
    + destruct Hf as (s & _ & _ & _ & Hm). cbn [good] in Hm. destruct Hm as [-> _]. by destruct (Hn p).
    + done.
Qed.

Lemma fine_progress c : fine c -> ~ failed c /\ (c = Conf (cf_fs c) (Exit 0) None \/ exists c', step c c').
Proof.
  destruct c as [v p kid]. intros Hf. unfold fine, failed in *. cbn [cf_kid cf_main cf_fs] in *.
  assert (Hkid : forall pid q s, PreOrder (pt_main s) -> kid = Some (pid, q) -> safe Kid (pt_main s) (pt_kid s) q never (pt_post s) v ->
    ~ bad q /\ (q = Exit 0 \/ exists c', step (Conf v p kid) c')).
  { intros pid q s HP -> Hk. destruct q as [|n|e|c k|k|w k]; cbn [safe bad] in *; try done.
    - by destruct (Hk v).
    - destruct Hk as [-> _]. split; [by intros H; apply H | by left].
    - split; [by intros [] |]. right. destruct (vcall 0 Kid c v) as [v' a] eqn:Hc. eexists. by eapply st_kid. }
  destruct kid as [[pid q]|].
  - destruct Hf as (s & H1 & H2 & Hk & Hm). destruct (Hkid pid q s H1 eq_refl Hk) as [Hb Hq]. split.
    + intros [Hbad|(pid' & p' & [= <- <-] & Hbad)]; [| done]. destruct p; cbn [bad good] in *; try done. by destruct Hm.
    + right. destruct p as [|n|e|c k|k|w k]; cbn [good] in Hm; try (by destruct Hm).
      * destruct (vcall 0 Main c v) as [v' a] eqn:Hc. eexists. by eapply st_main.
      * destruct Hm as [-> _]. destruct Hq as [->|Hq]; [| done]. eexists. apply st_wait.
  - split.
    + intros [Hbad|(? & ? & ? & _)]; [| done]. destruct p; cbn [bad good] in *; try done. by destruct Hf as [_ ->].
    + destruct p as [|n|e|c k|k|w k]; cbn [good] in Hf; try (by destruct Hf).
      * destruct Hf as [_ ->]. by left.
      * right. destruct (vcall 0 Main c v) as [v' a] eqn:Hc. eexists. by eapply st_main.
      * right. eexists. by apply (st_fork v k 1).
Qed.

(** Programs are finite trees, so that every run ends. *)
Lemma runs_end p : forall v kid, Acc (fun c' c => step c c') (Conf v p kid).
Proof.
  induction p as [|n|e|c k IH|k IH|w k IH].
  all: intros v kid.
  all: revert v; destruct kid as [[pid q]|]; [induction q as [|n'|e'|c' k' IHq|k' IHq|w' k' IHq]|]; intros v; constructor; intros c1 Hst; inversion Hst; subst; auto.
Qed.

(** Every run of a good program ends, and when nothing more can happen, the
    program has exited with 0; on the way no process fails. *)
Theorem adequate p v c :
  good None p never v -> steps (Conf v p None) c ->
  ~ failed c /\ (c = Conf (cf_fs c) (Exit 0) None \/ exists c', step c c') /\ Acc (fun c' c => step c c') c.
Proof.
  intros Hg Hst. assert (Hf : fine c).
  { remember (Conf v p None) as c0 eqn:E. induction Hst as [c|c1 c2 c3 _ IH H]; [by subst |]. by eapply fine_step; [apply IH |]. }
  destruct (fine_progress c Hf) as [H1 H2]. split_and!; [done | done |]. destruct c. apply runs_end.
Qed.

(** *** Systems

    What runs the programs is not under src/: it is any system whose calls do
    what is said above, or are refused. *)

(** The errors that say something about the arguments of a call. *)
Definition ARGUMENT_ERRORS : list Z := [ENOENT; EBADF; EEXIST; EISDIR; EINVAL].

(** A call has been refused: it reports another error (the disk is full, an
    input/output error, too many open files, an interruption...), or has
    written less than it was given. *)
Definition refused (c : call) (a : answer) : bool :=
  match c with
  | Write _ buf => (0 <=? res a) && (res a <? Z.of_nat (length buf)) || (res a <? 0) && negb (bool_decide (err a ∈ ARGUMENT_ERRORS))
  | Opendir _ | Readdir _ => (res a =? 0) && negb (bool_decide (err a ∈ 0 :: ARGUMENT_ERRORS))
  | _ => (res a <? 0) && negb (bool_decide (err a ∈ ARGUMENT_ERRORS))
  end.

Class PosixSystem (V : Type) := {
  os_view : V -> vfs;
  os_call : Z -> who -> call -> V -> V * answer;
  os_forked : V -> V;
  os_reaped : V -> V;
  os_posix : forall z w c x x' a, os_call z w c x = (x', a) -> refused c a = false ->
    exists z', vcall z' w c (os_view x) = (os_view x', a);
  os_forked_view : forall x, os_view (os_forked x) = forked (os_view x);
  os_reaped_view : forall x, os_view (os_reaped x) = reaped (os_view x)
}.

Section system.
Context {V : Type} `{!PosixSystem V}.

Record sconf := SConf { sc_sys : V; sc_main : prog; sc_kid : option (Z * prog) }.

(** A step; [true] if the system has refused something. *)
Inductive sys_step : bool -> sconf -> sconf -> Prop :=
| ss_main z x c k kid x' a :
    os_call z Main c x = (x', a) -> sys_step (refused c a) (SConf x (Sys c k) kid) (SConf x' (k a) kid)
| ss_kid z x p pid c k x' a :
    os_call z Kid c x = (x', a) -> sys_step (refused c a) (SConf x p (Some (pid, Sys c k))) (SConf x' p (Some (pid, k a)))
| ss_fork x k pid : 0 < pid -> sys_step false (SConf x (Fork k) None) (SConf (os_forked x) (k pid) (Some (pid, k 0)))
| ss_no_fork x k kid : sys_step true (SConf x (Fork k) kid) (SConf x (k (-1)) kid)
| ss_wait x pid k n : sys_step false (SConf x (Wait pid k) (Some (pid, Exit n))) (SConf (os_reaped x) (k pid (Some n)) None)
| ss_wait_ret x pid k : sys_step false (SConf x (Wait pid k) (Some (pid, Ret))) (SConf (os_reaped x) (k pid (Some 0)) None)
| ss_wait_stop x pid k e : sys_step false (SConf x (Wait pid k) (Some (pid, Stop e))) (SConf (os_reaped x) (k pid None) None)
| ss_wait_none x pid k kid :
    (forall p, kid <> Some (pid, p)) -> sys_step false (SConf x (Wait pid k) kid) (SConf x (k (-1) None) kid).

(** Nothing is refused. *)
Inductive sys_steps : sconf -> sconf -> Prop :=
| sys_refl c : sys_steps c c
| sys_more c1 c2 c3 : sys_steps c1 c2 -> sys_step false c2 c3 -> sys_steps c1 c3.

Definition shown (c : sconf) : conf := Conf (os_view (sc_sys c)) (sc_main c) (sc_kid c).
Definition sys_failed (c : sconf) : Prop := failed (shown c).

Lemma sys_step_shown c c' : sys_step false c c' -> step (shown c) (shown c').
Proof.
  intros H. remember false as b eqn:Eb. destruct H; try done; unfold shown; cbn [sc_sys sc_main sc_kid]; rewrite ?os_forked_view, ?os_reaped_view;
    try (by constructor).
  - destruct (os_posix _ _ _ _ _ _ H Eb) as [z' Hc]. by apply (st_main z').
  - destruct (os_posix _ _ _ _ _ _ H Eb) as [z' Hc]. by apply (st_kid z').
Qed.

Lemma sys_steps_shown c c' : sys_steps c c' -> steps (shown c) (shown c').
Proof. induction 1; [constructor |]. eapply steps_step; [done | by apply sys_step_shown]. Qed.

(** Where POSIX allows a step, the system takes one. *)
Lemma shown_step c c1 : step (shown c) c1 -> exists b c', sys_step b c c'.
Proof.
  destruct c as [x p kid]. unfold shown. cbn [sc_sys sc_main sc_kid]. intros H. inversion H; subst.
  - destruct (os_call 0 Main c x) as [x' a'] eqn:E. eexists _, _. by eapply ss_main.
  - destruct (os_call 0 Kid c x) as [x' a'] eqn:E. eexists _, _. by eapply ss_kid.
  - eexists _, _. by eapply ss_fork.
  - eexists _, _. apply ss_wait.
  - eexists _, _. apply ss_wait_ret.
  - eexists _, _. apply ss_wait_stop.
  - eexists _, _. by apply ss_wait_none.
Qed.

(** Programs are finite trees: their runs end, whatever is refused. *)
Lemma sys_runs_end p : forall x kid, Acc (fun c' c => exists b, sys_step b c c') (SConf x p kid).
Proof.
  induction p as [|n|e|c k IH|k IH|w k IH].
  all: intros x kid.
  all: revert x; destruct kid as [[pid q]|]; [induction q as [|n'|e'|c' k' IHq|k' IHq|w' k' IHq]|]; intros x; constructor; intros c1 [b Hst]; inversion Hst; subst; auto.
Qed.

Lemma sys_adequate p x c :
  good None p never (os_view x) -> sys_steps (SConf x p None) c ->
  ~ sys_failed c /\ (c = SConf (sc_sys c) (Exit 0) None \/ exists b c', sys_step b c c') /\
  Acc (fun c' c => exists b, sys_step b c c') c.
Proof.
  intros Hg Hs. apply sys_steps_shown in Hs. destruct (adequate p _ _ Hg Hs) as (H1 & H2 & _). destruct c as [x' p' kid]. split_and!; [done | | apply sys_runs_end].
  destruct H2 as [H2|[c1 H2]]; [left | right; by eapply shown_step]. unfold shown in H2. cbn in H2. injection H2 as -> ->. done.
Qed.
End system.
End calls.
