(* ===== verification/PosixFiles.v ===== *)
(** * Files a process works on (the C library calls of src/test-lab-3-a.c and src/test-lab-3-b.c)

    Assertions for the logic of Posix.v: a process has files of its own, the
    other process does not touch them, and it does not touch the others.  With
    [own] the process knows their contents and its own open files; the lemmas
    below say what each call does to them. *)

From S2P Require Import Prelude Posix.
#[local] Set Warnings "-clear-no-such-hyp".

Lemma unused_fresh {A} first (m : gmap Z A) : m !! unused first m = None /\ first <= unused first m.
Proof.
  assert (H : (forall k, is_Some (m !! k) -> k < unused first m) /\ first <= unused first m).
  { unfold unused. apply (map_fold_weak_ind (fun n (m : gmap Z A) => (forall k, is_Some (m !! k) -> k < n) /\ first <= n)).
    - split; [| done]. intros k [x Hx]. by rewrite lookup_empty in Hx.
    - intros k x m' n Hk [IH1 IH2]. split; [| lia]. intros k' [y Hy].
      destruct (decide (k' = k)) as [->|Hne]; [lia |]. rewrite lookup_insert_ne in Hy by done. pose proof (IH1 k' ltac:(eauto)). lia. }
  destruct H as [H1 H2]. split; [| done]. destruct (m !! _) eqn:E; [| done]. pose proof (H1 _ ltac:(eauto)). lia.
Qed.

(** ** The calls of Posix.v as a system of their own *)

Section itself.
Variable resolve : list Z -> option key.
Variable listing : Z -> list (list Z) -> list (list Z).

Lemma vcall_not_refused z w c v v' a : vcall resolve listing z w c v = (v', a) -> refused c a = false.
Proof.
  destruct c; cbn [vcall]; unfold open_call, with_fd, open_fd, fails, gives; repeat case_match; intros [= <- <-];
    cbn [refused res err]; try reflexivity; try (rewrite bool_decide_true by (cbn; set_solver); by rewrite andb_false_r).
  all: try (match goal with |- context [unused ?f ?m] => destruct (unused_fresh f m) as [_ ?] end).
  all: repeat match goal with |- context [?a <? ?b] => destruct (Z.ltb_spec a b) end; cbn [andb orb negb]; lia || done.
Qed.

Definition posix_itself : PosixSystem resolve listing vfs.
Proof.
  refine {| os_view := id; os_call := vcall resolve listing; os_forked := forked; os_reaped := reaped |}; try done.
  intros z w c x x' a H _. by exists z.
Defined.

Lemma itself_steps v p kid c :
  steps resolve listing (Conf v p kid) c ->
  @sys_steps resolve listing vfs posix_itself (SConf v p kid) (SConf (cf_fs c) (cf_main c) (cf_kid c)).
Proof.
  remember (Conf v p kid) as c0 eqn:E. intros H. induction H as [c|c1 c2 c3 _ IH Hs]; subst; [constructor |].
  eapply sys_more; [by apply IH |]. destruct Hs as [z v1 c k kd v2 a Hc|z v1 q pid c k v2 a Hc| | | | |]; cbn [cf_fs cf_main cf_kid].
  - rewrite <- (vcall_not_refused _ _ _ _ _ _ Hc). by eapply (ss_main resolve listing (PosixSystem0 := posix_itself)).
  - rewrite <- (vcall_not_refused _ _ _ _ _ _ Hc). by eapply (ss_kid resolve listing (PosixSystem0 := posix_itself)).
  - by apply (ss_fork resolve listing (PosixSystem0 := posix_itself)).
  - apply (ss_wait resolve listing (PosixSystem0 := posix_itself)).
  - apply (ss_wait_ret resolve listing (PosixSystem0 := posix_itself)).
  - apply (ss_wait_stop resolve listing (PosixSystem0 := posix_itself)).
  - by apply (ss_wait_none resolve listing (PosixSystem0 := posix_itself)).
Qed.
End itself.

(** ** Files and their owners *)

(** A file has one name, and a name has a file. *)
Definition wf (v : vfs) : Prop :=
  (forall k k' i, ents v !! k = Some i -> ents v !! k' = Some i -> k = k') /\
  (forall k i, ents v !! k = Some i -> is_Some (files v !! i)).

(** The number and the contents of the file with a name. *)
Definition look (v : vfs) (k : key) : option (Z * list Z) :=
  i ← ents v !! k; b ← files v !! i; Some (i, b).

Lemma look_Some v k i b : look v k = Some (i, b) <-> ents v !! k = Some i /\ files v !! i = Some b.
Proof. unfold look. destruct (ents v !! k) as [j|]; cbn; [| naive_solver]. destruct (files v !! j) eqn:E; cbn; naive_solver. Qed.

Lemma look_None v k : wf v -> look v k = None <-> ents v !! k = None.
Proof.
  intros [_ H]. unfold look. destruct (ents v !! k) as [j|] eqn:E; cbn; [| done]. destruct (H _ _ E) as [b ->]. done.
Qed.

Lemma look_same v v' k : ents v' !! k = ents v !! k -> (forall i, ents v !! k = Some i -> files v' !! i = files v !! i) -> look v' k = look v k.
Proof. intros He Hf. unfold look. rewrite He. destruct (ents v !! k) as [i|]; [| done]. cbn. by rewrite Hf. Qed.

Definition other (w : who) : who := match w with Main => Kid | Kid => Main end.

Lemma tab_set_tab w w' t v : tab w' (set_tab w t v) = if decide (w' = w) then t else tab w' v.
Proof. by destruct w, w'. Qed.

Lemma set_tab_fs w t v : ents (set_tab w t v) = ents v /\ files (set_tab w t v) = files v /\ dirs (set_tab w t v) = dirs v.
Proof. by destruct w. Qed.

Lemma look_set_tab w t v k : look (set_tab w t v) k = look v k.
Proof. by destruct w. Qed.

Lemma wf_set_tab w t v : wf (set_tab w t v) <-> wf v.
Proof. by destruct w. Qed.

(** What the process [w], which owns the files with names in [N], relies on, and
    what it does at most. *)
Definition rely (w : who) (N : key -> Prop) : rel := fun v v' =>
  wf v -> wf v' /\ (forall k, N k -> look v' k = look v k) /\ tab w v' = tab w v /\ dirs v' = dirs v.
Definition guar (w : who) (N : key -> Prop) : rel := fun v v' =>
  wf v -> wf v' /\ (forall k, ~ N k -> look v' k = look v k) /\ tab (other w) v' = tab (other w) v /\ dirs v' = dirs v.

#[export] Instance rely_preorder w N : PreOrder (rely w N).
Proof.
  split; [done |]. intros v1 v2 v3 H1 H2 Hwf. destruct (H1 Hwf) as (W2 & F2 & T2 & D2). destruct (H2 W2) as (W3 & F3 & T3 & D3).
  split_and!; [done | | congruence | congruence]. intros k Hk. by rewrite F3, F2.
Qed.

#[export] Instance guar_preorder w N : PreOrder (guar w N).
Proof.
  split; [done |]. intros v1 v2 v3 H1 H2 Hwf. destruct (H1 Hwf) as (W2 & F2 & T2 & D2). destruct (H2 W2) as (W3 & F3 & T3 & D3).
  split_and!; [done | | congruence | congruence]. intros k Hk. by rewrite F3, F2.
Qed.

(** Two processes with different files get on with each other. *)
Lemma guar_rely w (N M : key -> Prop) v v' : (forall k, M k -> ~ N k) -> guar w N v v' -> rely (other w) M v v'.
Proof. intros Hd H Hwf. destruct (H Hwf) as (? & Hf & ? & ?). split_and!; [done | | done | done]. intros k Hk. by apply Hf, Hd. Qed.

(** The process knows its files and its open files and streams. *)
Definition own (w : who) (N : key -> Prop) (D : gset key) (m : gmap key (Z * list Z)) (t : tables) (v : vfs) : Prop :=
  wf v /\ (forall k, N k -> look v k = m !! k) /\ tab w v = t /\ dirs v = D.

Lemma own_stable w N D m t v v' : rely w N v v' -> own w N D m t v -> own w N D m t v'.
Proof.
  intros HR (Hwf & Hm & Ht & HD). destruct (HR Hwf) as (W & F & T & E). split_and!; [done | | congruence | congruence].
  intros k Hk. by rewrite F, Hm.
Qed.

Section rules.
Variable resolve : list Z -> option key.
Variable listing : Z -> list (list Z) -> list (list Z).
Abbreviation vcall := (vcall resolve listing).
Abbreviation safe := (safe resolve listing).

Lemma safe_call w N D m t c k Q X v :
  own w N D m t v ->
  (forall z v1 v2 a, own w N D m t v1 -> vcall z w c v1 = (v2, a) -> guar w N v1 v2 /\ safe w (rely w N) (guar w N) (k a) Q X v2) ->
  safe w (rely w N) (guar w N) (Sys c k) Q X v.
Proof. intros Ho Hk v1 HR z v2 a Hc. eapply Hk; [by eapply own_stable | exact Hc]. Qed.

Lemma safe_ret w N D m t (Q : pred) X v :
  own w N D m t v -> (forall v', own w N D m t v' -> Q v') -> safe w (rely w N) (guar w N) Ret Q X v.
Proof. intros Ho HQ v' HR. apply HQ. by eapply own_stable. Qed.

Section one.
Context {w : who} {N : key -> Prop} {D : gset key} {m : gmap key (Z * list Z)} {t : tables}.

(** Calls that only change the tables of the caller. *)
Lemma own_tables t' v : own w N D m t v -> guar w N v (set_tab w t' v) /\ own w N D m t' (set_tab w t' v).
Proof.
  intros (Hwf & Hm & Ht & HD). destruct (set_tab_fs w t' v) as (_ & _ & Hd). split.
  - intros _. split_and!; [by apply wf_set_tab | intros; apply look_set_tab | by rewrite tab_set_tab; destruct w | done].
  - split_and!; [by apply wf_set_tab | intros; rewrite look_set_tab; auto | by rewrite tab_set_tab, decide_True | by rewrite Hd].
Qed.

Lemma own_same v : own w N D m t v -> guar w N v v /\ own w N D m t v.
Proof. by split. Qed.

(** The contents of a file change. *)
Lemma own_file v k i b b' :
  own w N D m t v -> N k -> m !! k = Some (i, b) ->
  guar w N v (set_file i b' v) /\ own w N D (<[k := (i, b')]> m) t (set_file i b' v).
Proof.
  intros (Hwf & Hm & Ht & HD) Hk Hi. assert (Hl := Hm k Hk). rewrite Hi in Hl. apply look_Some in Hl as [He Hf].
  assert (Hwf' : wf (set_file i b' v)).
  { destruct Hwf as [H1 H2]. split; [exact H1 |]. intros k' j Hj. unfold set_file. cbn [files ents] in *.
    destruct (decide (j = i)) as [->|]; [rewrite lookup_insert_eq; eauto | rewrite lookup_insert_ne by done; eauto]. }
  assert (Hoth : forall k', k' <> k -> look (set_file i b' v) k' = look v k').
  { intros k' Hne. apply look_same; [done |]. intros j Hj. unfold set_file. cbn [files]. rewrite lookup_insert_ne; [done |].
    intros ->. apply Hne. by eapply (proj1 Hwf). }
  split.
  - intros _. split_and!; [done | intros k' Hk'; apply Hoth; by intros -> | by destruct w | done].
  - split_and!; [done | | by destruct w | done]. intros k' Hk'. destruct (decide (k' = k)) as [->|Hne].
    + rewrite lookup_insert_eq. apply look_Some. split; [exact He |]. unfold set_file. cbn [files]. by rewrite lookup_insert_eq.
    + rewrite lookup_insert_ne, Hoth by done. auto.
Qed.

(** A name disappears. *)
Lemma own_remove v k :
  own w N D m t v -> N k ->
  guar w N v (set_ents (delete k (ents v)) v) /\ own w N D (delete k m) t (set_ents (delete k (ents v)) v).
Proof.
  intros (Hwf & Hm & Ht & HD) Hk.
  assert (Hwf' : wf (set_ents (delete k (ents v)) v)).
  { destruct Hwf as [H1 H2]. split; cbn [ents files set_ents].
    - intros k1 k2 i [_ Ha]%lookup_delete_Some [_ Hb]%lookup_delete_Some. eauto.
    - intros k1 i [_ Ha]%lookup_delete_Some. eauto. }
  assert (Hoth : forall k', k' <> k -> look (set_ents (delete k (ents v)) v) k' = look v k').
  { intros k' Hne. apply look_same; [| done]. cbn [ents set_ents]. by rewrite lookup_delete_ne. }
  split.
  - intros _. split_and!; [done | intros k' Hk'; apply Hoth; by intros -> | by destruct w | done].
  - split_and!; [done | | by destruct w | done]. intros k' Hk'. destruct (decide (k' = k)) as [->|Hne].
    + rewrite lookup_delete_eq. unfold look. cbn [ents set_ents]. by rewrite lookup_delete_eq.
    + rewrite lookup_delete_ne, Hoth by done. auto.
Qed.

(** A new name appears, with a new file. *)
Lemma own_new v k b :
  own w N D m t v -> N k -> m !! k = None ->
  let i := unused 1 (files v) in
  let v' := set_ents (<[k := i]> (ents v)) (set_file i b v) in
  guar w N v v' /\ own w N D (<[k := (i, b)]> m) t v'.
Proof.
  intros (Hwf & Hm & Ht & HD) Hk Hn i v'. destruct (unused_fresh 1 (files v)) as [Hfresh _]. fold i in Hfresh.
  assert (Hnone : ents v !! k = None) by (apply look_None; [done |]; by rewrite Hm).
  assert (Hni : forall k' j, ents v !! k' = Some j -> j <> i).
  { intros k' j Hj ->. destruct (proj2 Hwf _ _ Hj) as [? ?]. congruence. }
  assert (Hwf' : wf v').
  { destruct Hwf as [H1 H2]. split; cbn [v' ents files set_ents set_file].
    - intros k1 k2 j. rewrite !lookup_insert_Some. intros [[-> <-]|[_ Ha]] [[-> E]|[_ Hb]]; [done | by destruct (Hni _ _ Hb) | by destruct (Hni _ _ Ha) | eauto].
    - intros k1 j. rewrite lookup_insert_Some. intros [[-> <-]|[_ Ha]]; [rewrite lookup_insert_eq; eauto |].
      rewrite lookup_insert_ne by (intros E; by apply (Hni _ _ Ha)). eauto. }
  assert (Hoth : forall k', k' <> k -> look v' k' = look v k').
  { intros k' Hne. apply look_same; cbn [v' ents files set_ents set_file]; [by rewrite lookup_insert_ne |].
    intros j Hj. rewrite lookup_insert_ne; [done |]. intros E. by apply (Hni _ _ Hj). }
  split.
  - intros _. split_and!; [done | intros k' Hk'; apply Hoth; by intros -> | by destruct w | done].
  - split_and!; [done | | by destruct w | done]. intros k' Hk'. destruct (decide (k' = k)) as [->|Hne].
    + rewrite lookup_insert_eq. apply look_Some. cbn [v' ents files set_ents set_file]. by rewrite !lookup_insert_eq.
    + rewrite lookup_insert_ne, Hoth by done. auto.
Qed.

Definition opened (fd : Z) (o : ofile) (t : tables) : tables := Tables (<[fd := o]> (fds t)) (streams t).

Lemma own_open v i flags :
  own w N D m t v -> exists fd v2, open_fd w i flags v = (v2, Ans fd 0 []) /\ 0 <= fd /\ fds t !! fd = None /\
    guar w N v v2 /\ own w N D m (opened fd (OFile i 0 flags) t) v2.
Proof.
  intros Ho. destruct (unused_fresh 3 (fds t)) as [H1 H2]. exists (unused 3 (fds t)). eexists.
  assert (E : tab w v = t) by apply Ho. unfold open_fd. rewrite E. split; [reflexivity |]. split; [lia |]. split; [done |]. by apply own_tables.
Qed.

End one.

(** ** What each call does *)

Section names.
Context {w : who} {N : key -> Prop} {D : gset key} {m : gmap key (Z * list Z)} {t : tables}.
Context {Q X : pred}.
Abbreviation safe := (safe w (rely w N) (guar w N)).

Lemma safe_create p flags k K v :
  own w N D m t v -> resolve p = Some k -> N k -> m !! k = None -> k ∉ D -> parent k ∈ D -> Z.land flags O_CREAT <> 0 ->
  (forall i fd v2, 0 <= fd -> fds t !! fd = None -> own w N D (<[k := (i, [])]> m) (opened fd (OFile i 0 flags) t) v2 ->
     safe (K (Ans fd 0 [])) Q X v2) ->
  safe (Sys (Open p flags) K) Q X v.
Proof.
  intros Ho Hp Hk Hn Hd Hpar Hfl HK. eapply safe_call; [exact Ho |]. clear v Ho. intros z v v2 a Ho Hc.
  assert (Ho' := Ho). destruct Ho' as (Hwf & Hm & _ & HD). cbn [Posix.vcall] in Hc. unfold open_call in Hc. rewrite Hp in Hc.
  rewrite decide_False in Hc by (by rewrite HD). rewrite (proj1 (look_None v k Hwf)) in Hc by (by rewrite Hm).
  rewrite (proj2 (Z.eqb_neq _ _) Hfl) in Hc. rewrite decide_True in Hc by (by rewrite HD).
  destruct (own_new v k [] Ho Hk Hn) as [G1 O1]. cbv zeta in *.
  set (v1 := set_ents _ _) in *. set (i := unused 1 (files v)) in *.
  destruct (own_open v1 i flags O1) as (fd & v3 & E & H0 & H1 & G2 & O2).
  rewrite E in Hc. injection Hc as <- <-. split; [by etrans |]. by eapply HK.
Qed.

Lemma safe_open p flags k i b K v :
  own w N D m t v -> resolve p = Some k -> N k -> m !! k = Some (i, b) -> k ∉ D ->
  Z.land flags O_CREAT = 0 -> Z.land flags O_TRUNC = 0 ->
  (forall fd v2, 0 <= fd -> fds t !! fd = None -> own w N D m (opened fd (OFile i 0 flags) t) v2 -> safe (K (Ans fd 0 [])) Q X v2) ->
  safe (Sys (Open p flags) K) Q X v.
Proof.
  intros Ho Hp Hk Hi Hd Hfl Htr HK. eapply safe_call; [exact Ho |]. clear v Ho. intros z v v2 a Ho Hc.
  assert (Ho' := Ho). destruct Ho' as (Hwf & Hm & _ & HD). cbn [Posix.vcall] in Hc. unfold open_call in Hc. rewrite Hp in Hc.
  rewrite decide_False in Hc by (by rewrite HD). assert (Hl := Hm k Hk). rewrite Hi in Hl. apply look_Some in Hl as [He Hf].
  rewrite He, Hfl, Htr in Hc. cbn [Z.eqb negb andb] in Hc. destruct (own_open v i flags Ho) as (fd & v3 & E & H0 & H1 & G2 & O2).
  rewrite E in Hc. injection Hc as <- <-. split; [done |]. by apply HK.
Qed.

(** A missing file is not opened. *)
Lemma safe_open_missing p flags k K v :
  own w N D m t v -> resolve p = Some k -> N k -> m !! k = None -> k ∉ D -> Z.land flags O_CREAT = 0 ->
  (forall v2, own w N D m t v2 -> safe (K (Ans (-1) ENOENT [])) Q X v2) ->
  safe (Sys (Open p flags) K) Q X v.
Proof.
  intros Ho Hp Hk Hn Hd Hfl HK. eapply safe_call; [exact Ho |]. clear v Ho. intros z v v2 a Ho Hc.
  assert (Ho' := Ho). destruct Ho' as (Hwf & Hm & _ & HD). cbn [Posix.vcall] in Hc. unfold open_call in Hc. rewrite Hp in Hc.
  rewrite decide_False in Hc by (by rewrite HD). rewrite (proj1 (look_None v k Hwf)) in Hc by (by rewrite Hm).
  rewrite Hfl in Hc. injection Hc as <- <-. split; [done |]. by apply HK.
Qed.

Lemma safe_unlink p k K v :
  own w N D m t v -> resolve p = Some k -> N k -> is_Some (m !! k) ->
  (forall v2, own w N D (delete k m) t v2 -> safe (K (Ans 0 0 [])) Q X v2) ->
  safe (Sys (Unlink p) K) Q X v.
Proof.
  intros Ho Hp Hk [[i b] Hi] HK. eapply safe_call; [exact Ho |]. clear v Ho. intros z v v2 a Ho Hc.
  assert (Ho' := Ho). destruct Ho' as (Hwf & Hm & _ & _). cbn [Posix.vcall] in Hc. rewrite Hp in Hc.
  assert (Hl := Hm k Hk). rewrite Hi in Hl. apply look_Some in Hl as [He _]. rewrite He in Hc. injection Hc as <- <-.
  destruct (own_remove v k Ho Hk) as [G1 O1]. split; [done |]. by apply HK.
Qed.
End names.

(** Calls on the open file [fd]. *)
Section open_file.
Context {w : who} {N : key -> Prop} {D : gset key} {m : gmap key (Z * list Z)} {t : tables}.
Context {Q X : pred}.
Context {fd i off flags : Z} {k : key} {b : list Z}.
Abbreviation safe := (safe w (rely w N) (guar w N)).
Abbreviation now o := (opened fd o t).
Hypotheses (Hk : N k) (Hi : m !! k = Some (i, b)).

Lemma with_fd_own v f : own w N D m (now (OFile i off flags)) v -> with_fd w fd v f = f (OFile i off flags) b.
Proof.
  intros (Hwf & Hm & Ht & _). unfold with_fd. rewrite Ht. cbn [opened fds]. rewrite lookup_insert_eq. cbn [o_ino].
  assert (Hl := Hm k Hk). rewrite Hi in Hl. apply look_Some in Hl as [_ ->]. done.
Qed.

Lemma set_fd_own m' o o' v : own w N D m' (now o) v -> guar w N v (set_fd w fd o' v) /\ own w N D m' (now o') (set_fd w fd o' v).
Proof.
  intros Ho. assert (E : tab w v = now o) by apply Ho. unfold set_fd. rewrite E. cbn [opened fds streams]. rewrite insert_insert_eq.
  by eapply own_tables.
Qed.

Lemma safe_write buf K v :
  own w N D m (now (OFile i off flags)) v -> Z.land flags O_WRONLY <> 0 ->
  (let at_ := if Z.land flags O_APPEND =? 0 then Z.to_nat off else length b in
   forall v2, own w N D (<[k := (i, overwrite b at_ buf)]> m) (now (OFile i (Z.of_nat (at_ + length buf)) flags)) v2 ->
     safe (K (Ans (Z.of_nat (length buf)) 0 [])) Q X v2) ->
  safe (Sys (Write fd buf) K) Q X v.
Proof.
  intros Ho Hfl HK. eapply safe_call; [exact Ho |]. clear v Ho. intros z v v2 a Ho Hc. cbn [Posix.vcall] in Hc.
  rewrite with_fd_own in Hc by done. cbn [o_flags o_off o_ino] in Hc. rewrite (proj2 (Z.eqb_neq _ _) Hfl) in Hc. injection Hc as <- <-.
  destruct (own_file v k i b (overwrite b (if Z.land flags O_APPEND =? 0 then Z.to_nat off else length b) buf) Ho Hk Hi) as [G1 O1].
  destruct (set_fd_own _ _ (OFile i (Z.of_nat ((if Z.land flags O_APPEND =? 0 then Z.to_nat off else length b) + length buf)) flags) _ O1) as [G2 O2].
  split; [by etrans |]. by apply HK.
Qed.

Lemma safe_read n K v :
  own w N D m (now (OFile i off flags)) v -> Z.land flags O_WRONLY = 0 ->
  (let r := sub b (Z.to_nat off) (Z.to_nat n) in
   forall v2, own w N D m (now (OFile i (off + Z.of_nat (length r)) flags)) v2 -> safe (K (Ans (Z.of_nat (length r)) 0 r)) Q X v2) ->
  safe (Sys (Read fd n) K) Q X v.
Proof.
  intros Ho Hfl HK. eapply safe_call; [exact Ho |]. clear v Ho. intros z v v2 a Ho Hc. cbn [Posix.vcall] in Hc.
  rewrite with_fd_own in Hc by done. cbn [o_flags o_off o_ino] in Hc. rewrite Hfl in Hc. injection Hc as <- <-.
  destruct (set_fd_own _ _ (OFile i (off + Z.of_nat (length (sub b (Z.to_nat off) (Z.to_nat n)))) flags) _ Ho) as [G2 O2].
  split; [done |]. by apply HK.
Qed.

Lemma safe_lseek n K v :
  own w N D m (now (OFile i off flags)) v -> 0 <= n ->
  (forall v2, own w N D m (now (OFile i n flags)) v2 -> safe (K (Ans n 0 [])) Q X v2) ->
  safe (Sys (Lseek fd n) K) Q X v.
Proof.
  intros Ho Hn HK. eapply safe_call; [exact Ho |]. clear v Ho. intros z v v2 a Ho Hc. cbn [Posix.vcall] in Hc.
  rewrite with_fd_own in Hc by done. cbn [o_flags o_off o_ino] in Hc. rewrite (proj2 (Z.ltb_ge _ _) Hn) in Hc. injection Hc as <- <-.
  destruct (set_fd_own _ _ (OFile i n flags) _ Ho) as [G2 O2]. split; [done |]. by apply HK.
Qed.

Lemma safe_fsync K v :
  own w N D m (now (OFile i off flags)) v ->
  (forall v2, own w N D m (now (OFile i off flags)) v2 -> safe (K (Ans 0 0 [])) Q X v2) ->
  safe (Sys (Fsync fd) K) Q X v.
Proof.
  intros Ho HK. eapply safe_call; [exact Ho |]. clear v Ho. intros z v v2 a Ho Hc. cbn [Posix.vcall] in Hc.
  rewrite with_fd_own in Hc by done. injection Hc as <- <-. split; [done |]. by apply HK.
Qed.

Lemma safe_close K v :
  own w N D m (now (OFile i off flags)) v -> fds t !! fd = None ->
  (forall v2, own w N D m t v2 -> safe (K (Ans 0 0 [])) Q X v2) ->
  safe (Sys (Close fd) K) Q X v.
Proof.
  intros Ho Hfd HK. eapply safe_call; [exact Ho |]. clear v Ho. intros z v v2 a Ho Hc. cbn [Posix.vcall] in Hc.
  rewrite with_fd_own in Hc by done. injection Hc as <- <-.
  assert (E : Tables (delete fd (fds (tab w v))) (streams (tab w v)) = t).
  { destruct Ho as (_ & _ & -> & _). cbn [opened fds streams]. rewrite delete_insert_id by done. by destruct t. }
  rewrite E. destruct (own_tables t v Ho) as [G1 O1]. split; [done |]. by apply HK.
Qed.
End open_file.

(** ** Directories *)

(** The names in the directory [k]. *)
Definition names (k : key) (m : gmap key (Z * list Z)) : list (list Z) := omap (child_of k) (elements (dom m)).

Lemma child_of_Some k c f : child_of k c = Some f <-> c = k ++ [f].
Proof.
  unfold child_of. split.
  - destruct (decide _) as [[Hne Hp]|]; [| done]. intros Hl. destruct c as [|x c] using rev_ind; [done |].
    rewrite last_snoc in Hl. injection Hl as ->. unfold parent in Hp. by rewrite removelast_last in Hp; subst.
  - intros ->. rewrite decide_True; [apply last_snoc |]. unfold parent. rewrite removelast_last. split; [| done]. by destruct k.
Qed.

Lemma NoDup_children k l : NoDup l -> NoDup (omap (child_of k) l).
Proof.
  induction 1 as [|c l Hc Hl IH]; [constructor |]. cbn [omap list_omap]. destruct (child_of k c) as [f|] eqn:E; [| done].
  constructor; [| done]. intros (c' & Hc' & E')%list_elem_of_omap. apply child_of_Some in E, E'. congruence.
Qed.

Lemma children_names w N D m t k v :
  own w N D m t v -> (forall f, N (k ++ [f])) -> (forall f, k ++ [f] ∉ D) -> children k v ≡ₚ names k m.
Proof.
  intros (Hwf & Hm & _ & HD) HN Hsub. apply NoDup_Permutation; [apply NoDup_children, NoDup_elements .. |].
  intros f. unfold children, names. rewrite !list_elem_of_omap. split; intros (c & Hc & ->%child_of_Some).
  - exists (k ++ [f]). split; [| by apply child_of_Some]. rewrite elem_of_elements, elem_of_union, HD in Hc.
    destruct Hc as [[i Hc]%elem_of_dom|Hc]; [| by destruct (Hsub f)]. rewrite elem_of_elements, elem_of_dom, <- Hm by done.
    unfold look. rewrite Hc. destruct (proj2 Hwf _ _ Hc) as [b Hb]. cbn. rewrite Hb. eauto.
  - exists (k ++ [f]). split; [| by apply child_of_Some]. rewrite elem_of_elements, elem_of_dom, <- Hm in Hc by done.
    destruct Hc as [[i b] [Hc _]%look_Some]. rewrite elem_of_elements, elem_of_union. left. apply elem_of_dom. eauto.
Qed.

Definition streaming (dp : Z) (l : list (list Z)) (t : tables) : tables := Tables (fds t) (<[dp := l]> (streams t)).

(** For any knowledge [I] of the process about the file system and its own
    tables that it keeps while it only changes its directory streams. *)
Section directories.
Context {w : who} {R G : rel} {I : tables -> pred} {t : tables}.
Context {Q X : pred}.
Hypothesis I_stable : forall t v v', R v v' -> I t v -> I t v'.
Hypothesis I_tab : forall t v, I t v -> tab w v = t.
Hypothesis I_set : forall t t' v, I t v -> fds t' = fds t -> G v (set_tab w t' v) /\ I t' (set_tab w t' v).
Abbreviation safe := (safe w R G).
Hypothesis listing_perm : forall z l, listing z l ≡ₚ l.

Lemma safe_opendir p k l0 K v :
  I t v -> resolve p = Some k -> (forall v, I t v -> k ∈ dirs v /\ children k v ≡ₚ l0) ->
  (forall dp l v2, 0 < dp -> streams t !! dp = None -> l ≡ₚ [DOT] :: [DOT; DOT] :: l0 -> I (streaming dp l t) v2 ->
     safe (K (Ans dp 0 [])) Q X v2) ->
  safe (Sys (Opendir p) K) Q X v.
Proof.
  intros Ho Hp Hd HK v1 HR z v2 a Hc. apply (I_stable _ _ _ HR) in Ho. destruct (Hd v1 Ho) as [Hdir Hch]. cbn [Posix.vcall] in Hc.
  rewrite Hp, decide_True in Hc by done. injection Hc as <- <-.
  unfold set_streams. rewrite (I_tab t v1 Ho). destruct (unused_fresh 1 (streams t)) as [H1 H2]. set (dp := unused 1 (streams t)) in *.
  set (l := listing z _). destruct (I_set t (streaming dp l t) v1 Ho eq_refl) as [G1 O1]. split; [exact G1 |].
  apply (HK dp l); [lia | done | | exact O1]. unfold l. by rewrite listing_perm, Hch.
Qed.

Lemma safe_readdir dp e l K v :
  I (streaming dp (e :: l) t) v ->
  (forall v2, I (streaming dp l t) v2 -> safe (K (Ans 1 0 e)) Q X v2) ->
  safe (Sys (Readdir dp) K) Q X v.
Proof.
  intros Ho HK v1 HR z v2 a Hc. apply (I_stable _ _ _ HR) in Ho. cbn [Posix.vcall] in Hc.
  unfold set_streams in Hc. rewrite (I_tab _ _ Ho) in Hc. cbn [streaming streams fds] in Hc.
  rewrite lookup_insert_eq, insert_insert_eq in Hc. injection Hc as <- <-.
  destruct (I_set _ (streaming dp l t) v1 Ho eq_refl) as [G1 O1]. split; [exact G1 |]. by apply HK.
Qed.

Lemma safe_readdir_end dp K v :
  I (streaming dp [] t) v ->
  (forall v2, I (streaming dp [] t) v2 -> safe (K (Ans 0 0 [])) Q X v2) ->
  safe (Sys (Readdir dp) K) Q X v.
Proof.
  intros Ho HK v1 HR z v2 a Hc. apply (I_stable _ _ _ HR) in Ho. cbn [Posix.vcall] in Hc.
  rewrite (I_tab _ _ Ho) in Hc. cbn [streaming streams] in Hc. rewrite lookup_insert_eq in Hc. injection Hc as <- <-.
  destruct (I_set _ (tab w v1) v1 Ho) as [G1 _]; [by rewrite (I_tab _ _ Ho) |].
  assert (E : set_tab w (tab w v1) v1 = v1) by (by destruct w, v1). rewrite E in G1. split; [exact G1 |]. by apply HK.
Qed.

Lemma safe_closedir dp l K v :
  I (streaming dp l t) v -> streams t !! dp = None ->
  (forall v2, I t v2 -> safe (K (Ans 0 0 [])) Q X v2) ->
  safe (Sys (Closedir dp) K) Q X v.
Proof.
  intros Ho Hdp HK v1 HR z v2 a Hc. apply (I_stable _ _ _ HR) in Ho. cbn [Posix.vcall] in Hc.
  unfold set_streams in Hc. rewrite (I_tab _ _ Ho) in Hc. cbn [streaming streams fds] in Hc.
  rewrite lookup_insert_eq, delete_insert_id in Hc by done. injection Hc as <- <-.
  destruct (I_set _ (Tables (fds t) (streams t)) v1 Ho eq_refl) as [G1 O1]. split; [exact G1 |]. apply HK. by destruct t.
Qed.
End directories.
End rules.
