(* ===== verification/LabTests.v ===== *)
(** * The tests of the file system (src/test-lab-3-a.c, src/test-lab-3-b.c)

    Both programs work in a fresh directory through two mount points and check
    what they read: test-lab-3-a from one directory seen through both, partly in
    two processes at once; test-lab-3-b with two processes in two directories.
    They are programs of Posix.v, function by function.  A buffer that is too
    small for what is written into it stops the program; messages and sleeps are
    left out.

    The functions have the same text in both programs, but for the size of a
    buffer of check1 and the parameter possible_dup of createn; the definitions
    ending in [_b] are those of test-lab-3-b. *)

From stdpp Require Import sorting strings.
From S2P Require Import Prelude Address Posix.
Open Scope prog_scope.

(** ** Strings *)

Definition str (s : string) : list Z := (fun c => Z.of_nat (Ascii.nat_of_ascii c)) <$> String.list_ascii_of_string s.
Definition SLASH : Z := 47.
Definition DASH : Z := 45.

(** sprintf(n, "%s/%s", d, f) and sprintf(n, "%s/%s-%d", d, prefix, i) *)
Definition in_dir (d f : list Z) : list Z := d ++ SLASH :: f.
Definition numbered (prefix : list Z) (i : Z) : list Z := prefix ++ DASH :: print_dec i.

(** The result is in a [char[512]]. *)
Definition in_buffer (s : list Z) (k : list Z -> prog) : prog :=
  if 512 <=? Z.of_nat (length s) then Stop OutOfBounds else k s.

Fixpoint strncmp (n : nat) (a b : list Z) : Z :=
  match n with
  | O => 0
  | S n =>
      let x := default 0 (head a) in
      let y := default 0 (head b) in
      if negb (x =? y) then x - y else if x =? 0 then 0 else strncmp n (tail a) (tail b)
  end.

Definition strcmp (a b : list Z) : Z := strncmp (S (length a)) a b.

Definition len (s : list Z) : Z := Z.of_nat (length s).

(** exit(1) unless the condition holds. *)
Definition need (c : bool) (p : prog) : prog := if c then p else Exit 1.

(** ** One file *)

Definition CREAT : Z := O_CREAT + O_WRONLY + O_TRUNC.

Definition create1 (d f in_ : list Z) : prog :=
  in_buffer (in_dir d f) (fun n =>
  Sys (Open n CREAT) (fun fd =>
  need (0 <=? res fd) (
  Sys (Write (res fd) in_) (fun cc =>
  need (res cc =? len in_) (
  Sys (Close (res fd)) (fun r =>
  need (res r =? 0) Ret)))))).

(** [buf] is the size of the buffer. *)
Definition check1_buf (buf : Z) (d f in_ : list Z) : prog :=
  in_buffer (in_dir d f) (fun n =>
  Sys (Open n 0) (fun fd =>
  need (0 <=? res fd) (
  Sys (Read (res fd) (buf - 1)) (fun cc =>
  need (res cc =? len in_) (
  Sys (Close (res fd)) (fun _ =>
  need (strncmp (length n) (got cc) in_ =? 0) Ret)))))).

Definition check1 : list Z -> list Z -> list Z -> prog := check1_buf 21000.

Definition unlink1 (d f : list Z) : prog :=
  in_buffer (in_dir d f) (fun n => Sys (Unlink n) (fun r => need (res r =? 0) Ret)).

Definition checknot (d f : list Z) : prog :=
  in_buffer (in_dir d f) (fun n => Sys (Open n 0) (fun fd => need (res fd <? 0) Ret)).

Definition append1 (d f in_ : list Z) : prog :=
  in_buffer (in_dir d f) (fun n =>
  Sys (Open n (O_WRONLY + O_APPEND)) (fun fd =>
  need (0 <=? res fd) (
  Sys (Write (res fd) in_) (fun cc =>
  need (res cc =? len in_) (
  Sys (Close (res fd)) (fun r =>
  need (res r =? 0) Ret)))))).

Definition write1_file (fd : answer) (start : Z) (n : nat) (c : Z) : prog :=
  need (0 <=? res fd) (
  Sys (Lseek (res fd) start) (fun r =>
  need (res r =? start) (
  for_ 0 n (fun _ =>
    Sys (Write (res fd) [c]) (fun r => need (res r =? 1) (
    Sys (Fsync (res fd)) (fun r => need (res r =? 0) Ret))));;
  Sys (Close (res fd)) (fun r => need (res r =? 0) Ret)))).

Definition write1 (d f : list Z) (start : Z) (n : nat) (c : Z) : prog :=
  in_buffer (in_dir d f) (fun name =>
  Sys (Open name (O_WRONLY + O_CREAT)) (fun fd =>
  if (res fd <? 0) && (err fd =? EEXIST)
  then Sys (Open name O_WRONLY) (fun fd => write1_file fd start n c)
  else write1_file fd start n c)).

Definition checkread (d f : list Z) (start : Z) (n : nat) (c : Z) : prog :=
  in_buffer (in_dir d f) (fun name =>
  Sys (Open name 0) (fun fd =>
  need (0 <=? res fd) (
  Sys (Lseek (res fd) start) (fun r =>
  need (res r =? start) (
  for_ 0 n (fun _ =>
    Sys (Read (res fd) 1) (fun r => need (res r =? 1) (need (bool_decide (head (got r) = Some c)) Ret)));;
  Sys (Close (res fd)) (fun _ => Ret)))))).

(** ** Many files *)

(** An int in memory. *)
Definition int_bytes (i : Z) : list Z := le_enc 4 i.

Definition createn (d prefix : list Z) (nf : nat) (possible_dup : bool) : prog :=
  for_ 0 nf (fun i =>
    in_buffer (in_dir d (numbered prefix i)) (fun n =>
    Sys (Open n CREAT) (fun fd =>
    if (res fd <? 0) && possible_dup && (err fd =? EEXIST) then Ret    (* continue *)
    else
    need (0 <=? res fd) (
    Sys (Write (res fd) (int_bytes i)) (fun cc =>
    need (res cc =? 4) (
    Sys (Close (res fd)) (fun r =>
    need (res r =? 0) Ret))))))).

Definition checkn (d prefix : list Z) (nf : nat) : prog :=
  for_ 0 nf (fun i =>
    in_buffer (in_dir d (numbered prefix i)) (fun n =>
    Sys (Open n 0) (fun fd =>
    need (0 <=? res fd) (
    Sys (Read (res fd) 4) (fun cc =>
    need (res cc =? 4) (
    need (s32 (le_dec (got cc)) =? i) (
    Sys (Close (res fd)) (fun _ => Ret)))))))).

Definition unlinkn (d prefix : list Z) (nf : nat) : prog :=
  for_ 0 nf (fun i =>
    in_buffer (in_dir d (numbered prefix i)) (fun n => Sys (Unlink n) (fun r => need (res r =? 0) Ret))).

(** ** The directory *)

(** compar, as the order qsort sorts by. *)
Definition compar (a b : list Z) : Prop := strcmp a b <= 0.
#[export] Instance compar_dec a b : Decision (compar a b).
Proof. unfold compar. apply _. Defined.

Definition qsort (names : list (list Z)) : list (list Z) := merge_sort compar names.

Fixpoint duplicate (names : list (list Z)) : bool :=
  match names with
  | a :: (b :: _) as l => (strcmp a b =? 0) || duplicate l
  | _ => false
  end.

(** The loop over readdir: [names] has room for 1000. *)
Definition MAX_NAMES : nat := 1000.
Fixpoint read_names (fuel : nat) (dp : Z) (names : list (list Z)) (k : list (list Z) -> prog) : prog :=
  match fuel with
  | O => Stop OutOfFuel
  | S fuel =>
      Sys (Readdir dp) (fun e =>
      if res e =? 0 then k names
      else if default 0 (head (got e)) =? DOT then read_names fuel dp names k
      else if (MAX_NAMES <=? length names)%nat then Stop OutOfBounds
      else read_names fuel dp (names ++ [got e]) k)
  end.

(** Enough for a full array and the two names that start with a dot. *)
Definition DIR_FUEL : nat := 1003.

Definition dircheck (d : list Z) (nf : nat) : prog :=
  Sys (Opendir d) (fun dp =>
  need (negb (res dp =? 0)) (
  read_names DIR_FUEL (res dp) [] (fun names =>
  Sys (Closedir (res dp)) (fun _ =>
  need (nf =? length names)%nat (
  need (negb (duplicate (qsort names))) Ret))))).

(** ** Processes *)

Definition reap (pid : Z) : prog :=
  Wait pid (fun wpid status =>
  need (0 <=? wpid) (
  need (wpid =? pid) (
  need (bool_decide (status = Some 0)) Ret))).

(** [pid = fork(); if(pid < 0) ...; if(pid == 0){ child; exit(0); }] *)
Definition fork_ (child : prog) (rest : Z -> prog) : prog :=
  Fork (fun pid => if pid <? 0 then Exit 1 else if pid =? 0 then child;; Exit 0 else rest pid).

(** ** test-lab-3-a *)

Definition big : list Z := replicate (Z.to_nat 20000) 120.
Definition huge : list Z := replicate (Z.to_nat 65535) 48.

Section main_a.
Variables d1 d2 : list Z.

Definition create_then_read : prog :=
  create1 d1 (str "f1") (str "aaa");; check1 d2 (str "f1") (str "aaa");; check1 d1 (str "f1") (str "aaa").

Definition unlink_test : prog :=
  unlink1 d2 (str "f1");;
  create1 d1 (str "fx1") (str "fxx");; unlink1 d1 (str "fx1");;
  checknot d1 (str "f1");; checknot d2 (str "f1");;
  create1 d1 (str "f2") (str "222");; unlink1 d2 (str "f2");;
  checknot d1 (str "f2");; checknot d2 (str "f2");;
  create1 d1 (str "f3") (str "333");; check1 d2 (str "f3") (str "333");; check1 d1 (str "f3") (str "333");;
  unlink1 d1 (str "f3");;
  create1 d2 (str "fx2") (str "22");; unlink1 d2 (str "fx2");;
  checknot d2 (str "f3");; checknot d1 (str "f3").

Definition append_test : prog :=
  create1 d2 (str "f1") (str "aaa");; append1 d1 (str "f1") (str "bbb");; append1 d2 (str "f1") (str "ccc");;
  check1 d1 (str "f1") (str "aaabbbccc");; check1 d2 (str "f1") (str "aaabbbccc").

Definition readdir_test : prog :=
  dircheck d1 1;; dircheck d2 1;;
  unlink1 d1 (str "f1");; dircheck d1 0;; dircheck d2 0;;
  create1 d2 (str "f2") (str "aaa");; create1 d1 (str "f3") (str "aaa");; dircheck d1 2;; dircheck d2 2;;
  unlink1 d2 (str "f2");; dircheck d2 1;; dircheck d1 1;;
  unlink1 d2 (str "f3");; dircheck d1 0;; dircheck d2 0.

Definition sequential_creates : prog :=
  createn d1 (str "aa") 10 false;; createn d2 (str "bb") 10 false;; dircheck d2 20;;
  checkn d2 (str "bb") 10;; checkn d2 (str "aa") 10;; checkn d1 (str "aa") 10;; checkn d1 (str "bb") 10;;
  unlinkn d1 (str "aa") 10;; unlinkn d2 (str "bb") 10.

Definition write_20000 : prog :=
  create1 d1 (str "bf") big;; check1 d1 (str "bf") big;; check1 d2 (str "bf") big;; unlink1 d1 (str "bf").

Definition concurrent_creates : prog :=
  fork_ (createn d2 (str "xx") 10 false) (fun pid =>
  createn d1 (str "yy") 10 false;; reap pid;;
  dircheck d1 20;; checkn d1 (str "xx") 10;; checkn d2 (str "yy") 10;; unlinkn d1 (str "xx") 10;; unlinkn d1 (str "yy") 10).

Definition same_file : prog :=
  fork_ (createn d2 (str "zz") 10 true) (fun pid =>
  createn d1 (str "zz") 10 true;; dircheck d1 10;; reap pid;;
  checkn d1 (str "zz") 10;; checkn d2 (str "zz") 10;; unlinkn d1 (str "zz") 10).

Definition create_delete : prog :=
  createn d1 (str "x1") 5 false;; createn d2 (str "x2") 5 false;;
  fork_ (unlinkn d2 (str "x1") 5;; createn d1 (str "x3") 5 false) (fun pid =>
  createn d1 (str "x4") 5 false;; reap pid;;
  unlinkn d2 (str "x2") 5;; unlinkn d2 (str "x4") 5;; unlinkn d2 (str "x3") 5;; dircheck d1 0).

Definition same_file_same_server : prog :=
  fork_ (createn d1 (str "zz") 10 true) (fun pid =>
  createn d1 (str "zz") 10 true;; dircheck d1 10;; reap pid;; checkn d1 (str "zz") 10;; unlinkn d1 (str "zz") 10).

Definition concurrent_writes : prog :=
  create1 d1 (str "www") huge;;
  fork_ (write1 d2 (str "www") 10000 64 50) (fun pid =>
  write1 d1 (str "www") 0 64 49;; reap pid;;
  checkread d1 (str "www") 0 64 49;; checkread d2 (str "www") 0 64 49;;
  checkread d1 (str "www") 10000 64 50;; checkread d2 (str "www") 10000 64 50).

Definition tests_a : prog :=
  create_then_read;; unlink_test;; append_test;; readdir_test;; sequential_creates;; write_20000;;
  concurrent_creates;; same_file;; create_delete;; same_file_same_server;; concurrent_writes;; Exit 0.
End main_a.

(** [pid] is what getpid returns. *)
Definition main_a (argv1 argv2 : list Z) (pid : Z) : prog :=
  in_buffer (in_dir argv1 (str "d" ++ print_dec pid)) (fun d1 =>
  Sys (Mkdir d1) (fun r => need (res r =? 0) (
  in_buffer (in_dir argv2 (str "d" ++ print_dec pid)) (fun d2 =>
  Sys (Access d2) (fun r => need (res r =? 0) (tests_a d1 d2)))))).

(** ** test-lab-3-b *)

Definition create1_b : list Z -> list Z -> list Z -> prog := create1.
Definition check1_b : list Z -> list Z -> list Z -> prog := check1_buf 512.
Definition unlink1_b : list Z -> list Z -> prog := unlink1.
Definition checknot_b : list Z -> list Z -> prog := checknot.
Definition append1_b : list Z -> list Z -> list Z -> prog := append1.
Definition createn_b (d prefix : list Z) (nf : nat) : prog := createn d prefix nf false.
Definition checkn_b : list Z -> list Z -> nat -> prog := checkn.
Definition unlinkn_b : list Z -> list Z -> nat -> prog := unlinkn.
Definition dircheck_b : list Z -> nat -> prog := dircheck.
Definition reap_b : Z -> prog := reap.

Definition tests_b (d1 d2 : list Z) : prog :=
  fork_ (createn_b d2 (str "xx") 100;; unlinkn_b d2 (str "xx") 99) (fun pid =>
  createn_b d1 (str "yy") 100;; unlinkn_b d1 (str "yy") 99;; reap_b pid;; dircheck_b d1 1;; dircheck_b d2 1);;
  Exit 0.

Definition main_b (argv1 argv2 : list Z) (pid : Z) : prog :=
  in_buffer (in_dir argv1 (str "da" ++ print_dec pid)) (fun d1 =>
  Sys (Mkdir d1) (fun r => need (res r =? 0) (
  in_buffer (in_dir argv2 (str "db" ++ print_dec pid)) (fun d2 =>
  Sys (Mkdir d2) (fun r => need (res r =? 0) (
  in_buffer (in_dir argv2 (str "da" ++ print_dec pid)) (fun dd =>
  Sys (Access dd) (fun r => need (res r =? 0) (tests_b d1 d2))))))))).
