(* ===== verification/LabSpecs.v ===== *)
(** * What the functions of the tests do (src/test-lab-3-a.c, src/test-lab-3-b.c)

    Each function of LabTests.v turns one state of the test directory into
    another and finds what it looks for, whether its process is alone or beside
    another one that works on other files: [does].  The second part has the
    rules for fork and waitpid.  Processes that work on the same files are the
    matter of LabShared.v. *)

From stdpp Require Import sorting strings.
From S2P Require Import Prelude Address Posix PosixFiles LabTests.
#[local] Set Warnings "-clear-no-such-hyp".

(** ** Names *)

Definition name_ok (f : list Z) : Prop := f <> [] /\ Forall (fun c => c <> SLASH) f /\ (length f <= 100)%nat.
#[export] Instance name_ok_dec f : Decision (name_ok f).
Proof. unfold name_ok. apply _. Defined.

Definition prefix_ok (prefix : list Z) : Prop := name_ok prefix /\ (length prefix <= 50)%nat.
#[export] Instance prefix_ok_dec p : Decision (prefix_ok p).
Proof. unfold prefix_ok. apply _. Defined.

Lemma print_dec_slash i : 0 <= i < 2 ^ 64 -> Forall (fun c => c <> SLASH) (print_dec i).
Proof.
  intros Hi. destruct (print_dec_ok i Hi) as (H & _). rewrite forallb_forall in H. apply List.Forall_forall. intros c Hc.
  specialize (H c Hc). unfold is_digit, SLASH in *. intros ->. done.
Qed.

Lemma length_digits n i acc : (length (digits n i acc) <= n + length acc)%nat.
Proof.
  revert i acc. induction n as [|n IH]; intros i acc; [done |]. cbn [digits]. case_match; cbn [length]; [lia |].
  etrans; [apply IH |]. cbn [length]. lia.
Qed.

Lemma numbered_ok prefix i : name_ok prefix -> (length prefix <= 50)%nat -> 0 <= i < 2 ^ 64 -> name_ok (numbered prefix i).
Proof.
  intros (H1 & H2 & _) Hl Hi. unfold numbered. split_and!.
  - by destruct prefix.
  - apply Forall_app. split; [done |]. constructor; [done | by apply print_dec_slash].
  - rewrite length_app. cbn [length]. unfold print_dec. pose proof (length_digits 20 i []). cbn [length] in *. lia.
Qed.

Lemma numbered_inj prefix i j : 0 <= i < 2 ^ 64 -> 0 <= j < 2 ^ 64 -> numbered prefix i = numbered prefix j -> i = j.
Proof. intros Hi Hj E. unfold numbered in E. apply app_inv_head in E. injection E as E. by apply print_dec_inj. Qed.

(** ** Comparing strings *)

Definition plain (s : list Z) : Prop := Forall (fun c => c <> 0) s.

Lemma strncmp_refl n s : strncmp n s s = 0.
Proof. revert s. induction n as [|n IH]; intros s; [done |]. cbn [strncmp]. rewrite Z.eqb_refl. cbn [negb]. by destruct (_ =? 0). Qed.

Lemma strncmp_take n a b : take n a = take n b -> strncmp n a b = 0.
Proof.
  revert a b. induction n as [|n IH]; intros a b E; [done |]. cbn [strncmp].
  destruct a as [|x a], b as [|y b]; cbn [take] in E; [done | done | done |]. injection E as -> E. cbn [head tail default id from_option].
  rewrite Z.eqb_refl. cbn [negb]. destruct (_ =? 0); [done |]. by apply IH.
Qed.

Lemma strncmp_eq n a b : plain a -> plain b -> (length a < n)%nat -> strncmp n a b = 0 -> a = b.
Proof.
  revert a b. induction n as [|n IH]; intros a b Ha Hb Hl; [lia |]. cbn [strncmp].
  destruct a as [|x a], b as [|y b]; cbn [head tail default id from_option]; [done | | |].
  - apply Forall_cons in Hb as [Hy _]. rewrite (proj2 (Z.eqb_neq 0 y)) by done. cbn [negb]. lia.
  - apply Forall_cons in Ha as [Hx _]. rewrite (proj2 (Z.eqb_neq x 0)) by done. cbn [negb]. lia.
  - apply Forall_cons in Ha as [Hx Ha], Hb as [Hy Hb]. destruct (x =? y) eqn:E; cbn [negb]; [| lia]. apply Z.eqb_eq in E as ->.
    rewrite (proj2 (Z.eqb_neq y 0)) by done. cbn [length] in Hl. intros E. f_equal. apply IH; [done | done | lia | done].
Qed.

Lemma strcmp_eq a b : plain a -> plain b -> strcmp a b = 0 <-> a = b.
Proof. intros Ha Hb. split; [apply strncmp_eq; [done | done | lia] | intros ->; apply strncmp_refl]. Qed.

(** A list without duplicates passes the check of dircheck. *)
Lemma no_duplicate l : Forall plain l -> NoDup l -> duplicate l = false.
Proof.
  induction l as [|a l IH]; intros Hp Hn; [done |]. apply Forall_cons in Hp as [Ha Hl]. apply NoDup_cons in Hn as [Hin Hn].
  destruct l as [|b l]; [done |]. cbn [duplicate]. apply orb_false_intro; [| by apply IH].
  apply Z.eqb_neq. rewrite strcmp_eq by (done || by apply Forall_cons in Hl as [Hb _]). intros ->. apply Hin. by left.
Qed.

Lemma qsort_passes l : Forall plain l -> NoDup l -> duplicate (qsort l) = false.
Proof.
  intros Hp Hn. apply no_duplicate; unfold qsort.
  - by rewrite merge_sort_Permutation.
  - by rewrite merge_sort_Permutation.
Qed.

(** ** What the functions do, beside another process that has other files *)

Section functions.
Variable resolve : list Z -> option key.
Variable listing : Z -> list (list Z) -> list (list Z).
Hypothesis listing_perm : forall z l, listing z l ≡ₚ l.

(** [d] names the directory [dn] of the file system. *)
Definition mounted (d dn : list Z) : Prop :=
  resolve d = Some [dn] /\ (forall f, name_ok f -> resolve (in_dir d f) = Some [dn; f]) /\ (length d <= 400)%nat.

(** ** The directory *)

Definition visible (e : list Z) : Prop := default 0 (head e) <> DOT.
#[export] Instance visible_dec e : Decision (visible e).
Proof. unfold visible. apply _. Defined.

(** A name that dircheck counts and compares rightly. *)
Definition entry_ok (e : list Z) : Prop := plain e /\ visible e.
#[export] Instance entry_ok_dec e : Decision (entry_ok e).
Proof. unfold entry_ok, plain. apply _. Defined.

Lemma filter_visible l : Forall visible l -> filter visible l = l.
Proof. induction 1 as [|e l He Hl IH]; [done |]. by rewrite filter_cons_True, IH by done. Qed.

(** dircheck finds the names [l0], whatever else the process knows. *)
Section dircheck.
Variables (w : who) (R G : rel) (I : tables -> pred).
Hypothesis I_stable : forall t v v', R v v' -> I t v -> I t v'.
Hypothesis I_tab : forall t v, I t v -> tab w v = t.
Hypothesis I_set : forall t t' v, I t v -> fds t' = fds t -> G v (set_tab w t' v) /\ I t' (set_tab w t' v).
Abbreviation safe := (safe resolve listing w R G).

Lemma read_names_safe t dp k Q X l fuel acc v :
  (length l < fuel)%nat -> (length acc + length (filter visible l) <= MAX_NAMES)%nat ->
  I (streaming dp l t) v ->
  (forall v', I (streaming dp [] t) v' -> safe (k (acc ++ filter visible l)) Q X v') ->
  safe (read_names fuel dp acc k) Q X v.
Proof.
  revert fuel acc v. induction l as [|e l IH]; intros [|fuel] acc v Hfuel Hacc Ho Hk; [cbn in Hfuel; lia | | cbn in Hfuel; lia |]; cbn [read_names].
  - eapply safe_readdir_end; [exact I_stable | exact I_tab | exact I_set | exact Ho |].
    intros v2 Ho2. cbn [res Z.eqb]. rewrite filter_nil, app_nil_r in Hk. by apply Hk.
  - cbn [length] in Hfuel. eapply safe_readdir; [exact I_stable | exact I_tab | exact I_set | exact Ho |].
    intros v2 Ho2. cbn [res Z.eqb got]. rewrite filter_cons in Hacc, Hk. destruct (default 0 (head e) =? DOT) eqn:E.
    + rewrite decide_False in Hacc, Hk by (intros Hv; apply Hv, Z.eqb_eq, E). apply IH; [lia | done | done | done].
    + rewrite decide_True in Hacc, Hk by (apply Z.eqb_neq, E). cbn [length] in Hacc.
      rewrite (proj2 (Nat.leb_gt _ _)) by lia. apply IH; [lia | rewrite length_app; cbn [length]; lia | done |].
      intros v' Ho'. rewrite <- app_assoc. by apply Hk.
Qed.

Lemma dircheck_safe d dn l0 nf v :
  mounted d dn -> I no_tables v -> (forall v, I no_tables v -> [dn] ∈ dirs v /\ children [dn] v ≡ₚ l0) ->
  length l0 = nf -> (nf <= MAX_NAMES)%nat -> Forall entry_ok l0 -> NoDup l0 ->
  safe (dircheck d nf) (I no_tables) never v.
Proof.
  intros (Hr & _ & _) Ho Hch Hl Hnf Hok Hnd. unfold dircheck.
  eapply safe_opendir; [exact I_stable | exact I_tab | exact I_set | exact listing_perm | exact Ho | exact Hr | exact Hch |].
  intros dp l v2 Hdp Hnew Hperm Ho2. cbn [res]. rewrite (proj2 (Z.eqb_neq dp 0)) by lia. cbn [negb need].
  assert (Hvis : filter visible l ≡ₚ l0).
  { rewrite Hperm, !filter_cons_False by (intros H; by apply H). rewrite filter_visible; [done |].
    eapply Forall_impl; [exact Hok |]. by intros f [_ ?]. }
  assert (Hlen : length (filter visible l) = nf) by (by rewrite Hvis).
  eapply read_names_safe; [| | exact Ho2 |].
  - rewrite Hperm. cbn [length]. unfold DIR_FUEL, MAX_NAMES in *. lia.
  - cbn [length]. lia.
  - intros v3 Ho3. cbn [app]. eapply safe_closedir; [exact I_stable | exact I_tab | exact I_set | exact Ho3 | exact Hnew |].
    intros v4 Ho4. rewrite Hlen, Nat.eqb_refl. cbn [need]. rewrite qsort_passes; [| | by rewrite Hvis].
    + cbn [negb need]. intros v5 HR. by eapply I_stable.
    + rewrite Hvis. eapply Forall_impl; [exact Hok |]. by intros f [? _].
Qed.
End dircheck.

Section process.
Variables (w : who) (N : key -> Prop) (D : gset key) (dn : list Z).
Hypothesis file_not_dir : forall f, [dn; f] ∉ D.
Hypothesis dn_dir : [dn] ∈ D.
Abbreviation safe := (safe resolve listing w (rely w N) (guar w N)).

(** The contents of the files of the process in the directory [dn]; it has none
    open. *)
Definition shows (mi : gmap key (Z * list Z)) (m : gmap (list Z) (list Z)) : Prop :=
  forall f, N [dn; f] -> snd <$> mi !! [dn; f] = m !! f.
Definition holds (m : gmap (list Z) (list Z)) (v : vfs) : Prop :=
  exists mi, own w N D mi no_tables v /\ shows mi m.

Lemma shows_insert mi m f i b : shows mi m -> shows (<[[dn; f] := (i, b)]> mi) (<[f := b]> m).
Proof.
  intros H f' Hf'. destruct (decide (f' = f)) as [->|Hne]; [by rewrite !lookup_insert_eq |].
  rewrite !lookup_insert_ne by congruence. by apply H.
Qed.

Lemma shows_delete mi m f : shows mi m -> shows (delete [dn; f] mi) (delete f m).
Proof.
  intros H f' Hf'. destruct (decide (f' = f)) as [->|Hne]; [by rewrite !lookup_delete_eq |].
  rewrite !lookup_delete_ne by congruence. by apply H.
Qed.

Lemma shows_Some mi m f b : shows mi m -> N [dn; f] -> m !! f = Some b -> exists i, mi !! [dn; f] = Some (i, b).
Proof. intros H HN Hm. rewrite <- H in Hm by done. apply fmap_Some in Hm as ([i b'] & Hi & ->). by exists i. Qed.

Lemma shows_None mi m f : shows mi m -> N [dn; f] -> m !! f = None -> mi !! [dn; f] = None.
Proof. intros H HN Hm. rewrite <- H in Hm by done. by apply fmap_None in Hm. Qed.

Definition does (p : prog) (m m' : gmap (list Z) (list Z)) : Prop :=
  forall v, holds m v -> safe p (holds m') never v.

Lemma does_seq p q m1 m2 m3 : does p m1 m2 -> does q m2 m3 -> does (p ;; q) m1 m3.
Proof. intros Hp Hq v Hv. eapply safe_seq; [apply _ | by apply Hp |]. exact Hq. Qed.

Lemma does_ret m mi v : own w N D mi no_tables v -> shows mi m -> safe Ret (holds m) never v.
Proof. intros Ho Hs. eapply safe_ret; [exact Ho |]. intros v' Ho'. by exists mi. Qed.

Lemma in_buffer_ok d f k : (length d <= 400)%nat -> name_ok f -> in_buffer (in_dir d f) k = k (in_dir d f).
Proof.
  intros Hd (_ & _ & Hf). unfold in_buffer. rewrite (proj2 (Z.leb_gt _ _)); [done |]. unfold in_dir. rewrite length_app. cbn [length]. lia.
Qed.

Lemma overwrite_nil buf : overwrite [] 0 buf = buf.
Proof. unfold overwrite. cbn. by rewrite drop_nil, app_nil_r. Qed.

Lemma overwrite_at_end b buf : overwrite b (length b) buf = b ++ buf.
Proof. unfold overwrite. rewrite Nat.ltb_irrefl, firstn_all, drop_ge by lia. by rewrite app_nil_r. Qed.

Lemma sub_start (b : list Z) n : Z.of_nat (length b) <= n -> sub b (Z.to_nat 0) (Z.to_nat n) = b.
Proof. intros Hn. change (Z.to_nat 0) with 0%nat. rewrite sub_take, take_ge; [done | lia]. Qed.

(** A file of the process by its name. *)
Definition mine (f : list Z) : Prop := name_ok f /\ N [dn; f].

Lemma need_true p : need true p = p.
Proof. done. Qed.

Lemma nonneg_true fd p : 0 <= fd -> need (0 <=? fd) p = p.
Proof. intros H. by rewrite (proj2 (Z.leb_le 0 fd)). Qed.

Lemma create1_does d f in_ m :
  mounted d dn -> mine f -> m !! f = None -> does (create1 d f in_) m (<[f := in_]> m).
Proof.
  intros (_ & Hr & Hd) (Hf & HN) Hn v (mi & Ho & Hs). unfold create1. rewrite in_buffer_ok by done.
  eapply safe_create; [exact Ho | by apply Hr | done | by eapply shows_None | apply file_not_dir | exact dn_dir | done |].
  intros i fd v2 Hfd Hnew Ho2. cbn [res]. rewrite nonneg_true by done.
  eapply safe_write; [exact HN | apply lookup_insert_eq | exact Ho2 | done |]. cbv zeta. intros v3 Ho3. cbn [res].
  rewrite insert_insert_eq in Ho3. change (Z.land CREAT O_APPEND =? 0) with true in Ho3. cbn iota in Ho3.
  rewrite overwrite_nil in Ho3. unfold len. rewrite Z.eqb_refl, need_true.
  eapply safe_close; [exact HN | apply lookup_insert_eq | exact Ho3 | done |]. intros v4 Ho4. cbn [res Z.eqb need].
  eapply does_ret; [exact Ho4 |]. by apply shows_insert.
Qed.

(** check1 is content with a file of the right length that begins as the
    expected contents do, for as many bytes as the path has. *)
Lemma check1_accepts d f in_ b m :
  mounted d dn -> mine f -> m !! f = Some b -> len in_ < 21000 -> length b = length in_ ->
  take (length (in_dir d f)) b = take (length (in_dir d f)) in_ -> does (check1 d f in_) m m.
Proof.
  intros (_ & Hr & Hd) (Hf & HN) Hn Hl Hb Hpre v (mi & Ho & Hs). unfold check1, check1_buf. rewrite in_buffer_ok by done.
  destruct (shows_Some _ _ _ _ Hs HN Hn) as [i Hi].
  eapply safe_open; [exact Ho | by apply Hr | done | exact Hi | apply file_not_dir | done | done |].
  intros fd v2 Hfd Hnew Ho2. cbn [res]. rewrite nonneg_true by done.
  eapply safe_read; [exact HN | exact Hi | exact Ho2 | done |]. cbv zeta. intros v3 Ho3. cbn [res got] in *.
  rewrite sub_start in * by (unfold len in Hl; lia). unfold len. rewrite Hb, Z.eqb_refl, need_true.
  eapply safe_close; [exact HN | exact Hi | exact Ho3 | done |]. intros v4 Ho4. rewrite strncmp_take by done. cbn [need Z.eqb].
  by eapply does_ret.
Qed.

Lemma check1_does d f in_ m : mounted d dn -> mine f -> m !! f = Some in_ -> len in_ < 21000 -> does (check1 d f in_) m m.
Proof. intros. by eapply check1_accepts. Qed.

Lemma unlink_does d f m (K : answer -> prog) m' :
  mounted d dn -> mine f -> is_Some (m !! f) -> does (K (Ans 0 0 [])) (delete f m) m' ->
  does (in_buffer (in_dir d f) (fun n => Sys (Unlink n) K)) m m'.
Proof.
  intros (_ & Hr & Hd) (Hf & HN) [b Hb] HK v (mi & Ho & Hs). rewrite in_buffer_ok by done.
  destruct (shows_Some _ _ _ _ Hs HN Hb) as [i Hi].
  eapply safe_unlink; [exact Ho | by apply Hr | done | eauto |]. intros v2 Ho2. apply HK. eexists. split; [exact Ho2 |]. by apply shows_delete.
Qed.

Lemma unlink1_does d f m : mounted d dn -> mine f -> is_Some (m !! f) -> does (unlink1 d f) m (delete f m).
Proof. intros Hd Hf Hm. apply unlink_does; [done | done | done |]. intros v (mi & Ho & Hs). by eapply does_ret. Qed.

Lemma checknot_does d f m : mounted d dn -> mine f -> m !! f = None -> does (checknot d f) m m.
Proof.
  intros (_ & Hr & Hd) (Hf & HN) Hn v (mi & Ho & Hs). unfold checknot. rewrite in_buffer_ok by done.
  eapply safe_open_missing; [exact Ho | by apply Hr | done | by eapply shows_None | apply file_not_dir | done |].
  intros v2 Ho2. by eapply does_ret.
Qed.

Lemma append1_does d f in_ b m :
  mounted d dn -> mine f -> m !! f = Some b -> does (append1 d f in_) m (<[f := b ++ in_]> m).
Proof.
  intros (_ & Hr & Hd) (Hf & HN) Hn v (mi & Ho & Hs). unfold append1. rewrite in_buffer_ok by done.
  destruct (shows_Some _ _ _ _ Hs HN Hn) as [i Hi].
  eapply safe_open; [exact Ho | by apply Hr | done | exact Hi | apply file_not_dir | done | done |].
  intros fd v2 Hfd Hnew Ho2. cbn [res]. rewrite nonneg_true by done.
  eapply safe_write; [exact HN | exact Hi | exact Ho2 | done |]. cbv zeta. intros v3 Ho3. cbn [res].
  change (Z.land (O_WRONLY + O_APPEND) O_APPEND =? 0) with false in Ho3. cbn iota in Ho3.
  rewrite overwrite_at_end in Ho3. unfold len. rewrite Z.eqb_refl, need_true.
  eapply safe_close; [exact HN | apply lookup_insert_eq | exact Ho3 | done |]. intros v4 Ho4. cbn [res Z.eqb need].
  eapply does_ret; [exact Ho4 |]. by apply shows_insert.
Qed.

(** *** Many files *)


Fixpoint with_numbered (prefix : list Z) (i : Z) (n : nat) (m : gmap (list Z) (list Z)) : gmap (list Z) (list Z) :=
  match n with
  | O => m
  | S n => with_numbered prefix (i + 1) n (<[numbered prefix i := int_bytes i]> m)
  end.

Fixpoint without_numbered (prefix : list Z) (i : Z) (n : nat) (m : gmap (list Z) (list Z)) : gmap (list Z) (list Z) :=
  match n with
  | O => m
  | S n => without_numbered prefix (i + 1) n (delete (numbered prefix i) m)
  end.

(** The numbers of a loop from [i] over [n] files. *)
Definition range (i : Z) (n : nat) : Prop := 0 <= i /\ i + Z.of_nat n < 2 ^ 31.
Definition all_mine (prefix : list Z) (i : Z) (n : nat) : Prop :=
  prefix_ok prefix /\ range i n /\ forall j, i <= j < i + Z.of_nat n -> N [dn; numbered prefix j].

Lemma all_mine_head prefix i n : all_mine prefix i (S n) -> mine (numbered prefix i) /\ all_mine prefix (i + 1) n.
Proof.
  intros ([Hp Hl] & [H0 H1] & HN). split.
  - split; [apply numbered_ok; [done | done | lia] | apply HN; lia].
  - split_and!; [by split | split; lia |]. intros j Hj. apply HN. lia.
Qed.

Lemma numbered_ne prefix i j : 0 <= i -> i < j < 2 ^ 31 -> numbered prefix i <> numbered prefix j.
Proof. intros Hi Hj E. apply numbered_inj in E; lia. Qed.

Lemma createn_from d prefix i n m :
  mounted d dn -> all_mine prefix i n -> (forall j, i <= j < i + Z.of_nat n -> m !! numbered prefix j = None) ->
  does (for_ i n (fun i =>
    in_buffer (in_dir d (numbered prefix i)) (fun n =>
    Sys (Open n CREAT) (fun fd =>
    if (res fd <? 0) && false && (err fd =? EEXIST) then Ret
    else
    need (0 <=? res fd) (
    Sys (Write (res fd) (int_bytes i)) (fun cc =>
    need (res cc =? 4) (
    Sys (Close (res fd)) (fun r =>
    need (res r =? 0) Ret)))))))) m (with_numbered prefix i n m).
Proof.
  intros Hmt. destruct Hmt as (_ & Hr & Hd). revert i m. induction n as [|n IH]; intros i m Hm Hn; cbn [for_ with_numbered].
  { intros v (mi & Ho & Hs). by eapply does_ret. }
  assert (H01 := Hm). destruct H01 as (_ & [Hi0 Hi1] & _). apply all_mine_head in Hm as [[Hf HN] Hm].
  eapply does_seq; [| apply IH; [done |]].
  - intros v (mi & Ho & Hs). rewrite in_buffer_ok by done.
    eapply safe_create; [exact Ho | by apply Hr | done | eapply shows_None; [done | done |]; apply Hn; lia | apply file_not_dir | exact dn_dir | done |].
    intros j fd v2 Hfd Hnew Ho2. cbn [res]. rewrite andb_false_r. cbn [andb]. rewrite nonneg_true by done.
    eapply safe_write; [exact HN | apply lookup_insert_eq | exact Ho2 | done |]. cbv zeta. intros v3 Ho3. cbn [res].
    rewrite insert_insert_eq in Ho3. change (Z.land CREAT O_APPEND =? 0) with true in Ho3. cbn iota in Ho3.
    rewrite overwrite_nil in Ho3. rewrite need_true.
    eapply safe_close; [exact HN | apply lookup_insert_eq | exact Ho3 | done |]. intros v4 Ho4. cbn [res Z.eqb need].
    eapply does_ret; [exact Ho4 |]. by apply shows_insert.
  - intros j Hj. rewrite lookup_insert_ne; [apply Hn; lia |]. apply numbered_ne; lia.
Qed.

Lemma int_bytes_read i : 0 <= i < 2 ^ 31 -> s32 (le_dec (int_bytes i)) = i.
Proof. intros Hi. unfold int_bytes. rewrite le_dec_enc32 by (unfold is_u32; lia). apply s32_id. unfold is_s32. lia. Qed.

Lemma checkn_from d prefix i n m :
  mounted d dn -> all_mine prefix i n -> (forall j, i <= j < i + Z.of_nat n -> m !! numbered prefix j = Some (int_bytes j)) ->
  does (for_ i n (fun i =>
    in_buffer (in_dir d (numbered prefix i)) (fun n =>
    Sys (Open n 0) (fun fd =>
    need (0 <=? res fd) (
    Sys (Read (res fd) 4) (fun cc =>
    need (res cc =? 4) (
    need (s32 (le_dec (got cc)) =? i) (
    Sys (Close (res fd)) (fun _ => Ret))))))))) m m.
Proof.
  intros (_ & Hr & Hd). revert i. induction n as [|n IH]; intros i Hm Hn; cbn [for_].
  { intros v (mi & Ho & Hs). by eapply does_ret. }
  assert (H01 := Hm). destruct H01 as (_ & [Hi0 Hi1] & _). apply all_mine_head in Hm as [[Hf HN] Hm].
  eapply does_seq; [| apply IH; [done |]; intros j Hj; apply Hn; lia].
  intros v (mi & Ho & Hs). rewrite in_buffer_ok by done. destruct (shows_Some _ _ _ _ Hs HN (Hn i ltac:(lia))) as [ino Hi].
  eapply safe_open; [exact Ho | by apply Hr | done | exact Hi | apply file_not_dir | done | done |].
  intros fd v2 Hfd Hnew Ho2. cbn [res]. rewrite nonneg_true by done.
  eapply safe_read; [exact HN | exact Hi | exact Ho2 | done |]. cbv zeta. intros v3 Ho3. cbn [res got] in *.
  rewrite sub_start in * by done. rewrite need_true, int_bytes_read, Z.eqb_refl, need_true by lia.
  eapply safe_close; [exact HN | exact Hi | exact Ho3 | done |]. intros v4 Ho4. by eapply does_ret.
Qed.

Lemma unlinkn_from d prefix i n m :
  mounted d dn -> all_mine prefix i n -> (forall j, i <= j < i + Z.of_nat n -> is_Some (m !! numbered prefix j)) ->
  does (for_ i n (fun i =>
    in_buffer (in_dir d (numbered prefix i)) (fun n => Sys (Unlink n) (fun r => need (res r =? 0) Ret)))) m (without_numbered prefix i n m).
Proof.
  intros Hmt. revert i m. induction n as [|n IH]; intros i m Hm Hn; cbn [for_ without_numbered].
  { intros v (mi & Ho & Hs). by eapply does_ret. }
  assert (H01 := Hm). destruct H01 as (_ & [Hi0 Hi1] & _). apply all_mine_head in Hm as [Hf Hm].
  eapply does_seq; [| apply IH; [done |]].
  - apply unlink_does; [done | done | apply Hn; lia |]. intros v (mi & Ho & Hs). by eapply does_ret.
  - intros j Hj. rewrite lookup_delete_ne; [apply Hn; lia |]. apply numbered_ne; lia.
Qed.

Lemma createn_does d prefix n m :
  mounted d dn -> all_mine prefix 0 n -> (forall j, 0 <= j < 0 + Z.of_nat n -> m !! numbered prefix j = None) ->
  does (createn d prefix n false) m (with_numbered prefix 0 n m).
Proof. apply createn_from. Qed.

Lemma checkn_does d prefix n m :
  mounted d dn -> all_mine prefix 0 n -> (forall j, 0 <= j < 0 + Z.of_nat n -> m !! numbered prefix j = Some (int_bytes j)) ->
  does (checkn d prefix n) m m.
Proof. apply checkn_from. Qed.

Lemma unlinkn_does d prefix n m :
  mounted d dn -> all_mine prefix 0 n -> (forall j, 0 <= j < 0 + Z.of_nat n -> is_Some (m !! numbered prefix j)) ->
  does (unlinkn d prefix n) m (without_numbered prefix 0 n m).
Proof. apply unlinkn_from. Qed.

Lemma names_shows mi m : (forall f, N [dn; f]) -> shows mi m -> names [dn] mi ≡ₚ (map_to_list m).*1.
Proof.
  intros HN Hs. apply NoDup_Permutation; [apply NoDup_children, NoDup_elements | apply NoDup_fst_map_to_list |].
  intros f. unfold names. rewrite list_elem_of_omap. split.
  - intros (c & Hc & ->%child_of_Some). rewrite elem_of_elements, elem_of_dom in Hc. destruct Hc as [[i b] Hc].
    apply list_elem_of_fmap. exists (f, b). split; [done |]. apply elem_of_map_to_list. rewrite <- (Hs f) by done.
    exact (f_equal (fmap snd) Hc).
  - intros ([f' b] & -> & Hf)%list_elem_of_fmap. apply elem_of_map_to_list in Hf. destruct (shows_Some _ _ _ _ Hs (HN _) Hf) as [i Hi].
    exists ([dn] ++ [f']). split; [| by apply child_of_Some]. rewrite elem_of_elements, elem_of_dom. eauto.
Qed.

Lemma dircheck_own d mi nf v :
  mounted d dn -> (forall f, N [dn; f]) -> own w N D mi no_tables v ->
  length (names [dn] mi) = nf -> (nf <= MAX_NAMES)%nat -> Forall entry_ok (names [dn] mi) ->
  safe (dircheck d nf) (own w N D mi no_tables) never v.
Proof.
  intros Hd HN Ho Hl Hnf Hok. eapply dircheck_safe; [| | | exact Hd | exact Ho | | exact Hl | done | done |].
  - intros t v1 v2. apply own_stable.
  - by intros t v1 (_ & _ & ? & _).
  - intros t t' v1 Ho1 _. by apply (own_tables (t := t)).
  - intros v1 Ho1. split; [by destruct Ho1 as (_ & _ & _ & ->) |].
    eapply children_names; [exact Ho1 | exact HN | exact file_not_dir].
  - apply NoDup_children, NoDup_elements.
Qed.

Lemma dircheck_does d m nf :
  mounted d dn -> (forall f, N [dn; f]) -> size m = nf -> (nf <= MAX_NAMES)%nat -> map_Forall (fun f _ => entry_ok f) m ->
  does (dircheck d nf) m m.
Proof.
  intros Hd HN Hsz Hnf Hok v (mi & Ho & Hs). eapply safe_mono; [| done | eapply dircheck_own; [done | done | exact Ho | | done |]].
  - intros v' Ho'. by exists mi.
  - rewrite (names_shows mi m) by done. by rewrite length_fmap, length_map_to_list.
  - rewrite (names_shows mi m) by done. apply Forall_forall. intros f ([f' b] & -> & Hf)%list_elem_of_fmap.
    apply elem_of_map_to_list in Hf. exact (Hok f' b Hf).
Qed.

Lemma checkread_own d f start n c i b mi v :
  mounted d dn -> mine f -> own w N D mi no_tables v -> mi !! [dn; f] = Some (i, b) -> 0 <= start ->
  (forall j, (j < n)%nat -> b !! (Z.to_nat start + j)%nat = Some c) ->
  safe (checkread d f start n c) (own w N D mi no_tables) never v.
Proof.
  intros (_ & Hr & Hd) (Hf & HN) Ho Hi Hst Hb. unfold checkread. rewrite in_buffer_ok by done.
  eapply safe_open; [exact Ho | by apply Hr | done | exact Hi | apply file_not_dir | done | done |].
  intros fd v2 Hfd Hnew Ho2. cbn [res]. rewrite nonneg_true by done.
  eapply safe_lseek; [exact HN | exact Hi | exact Ho2 | done |]. intros v3 Ho3. cbn [res]. rewrite Z.eqb_refl, need_true.
  eapply (safe_seq resolve listing w _ _ _ _ _ (fun v => exists off, own w N D mi (opened fd (OFile i off 0) no_tables) v)).
  - assert (H : forall n' p q, (p + n' <= n)%nat -> forall v, own w N D mi (opened fd (OFile i (start + Z.of_nat p) 0) no_tables) v ->
      safe (for_ q n' (fun _ => Sys (Read fd 1) (fun r => need (res r =? 1) (need (bool_decide (head (got r) = Some c)) Ret))))
        (fun v => exists off, own w N D mi (opened fd (OFile i off 0) no_tables) v) never v).
    { induction n' as [|n' IH]; intros p q Hp v' Ho'; cbn [for_].
      { eapply safe_ret; [exact Ho' |]. intros v4 Ho4. by eexists. }
      eapply (safe_seq resolve listing w _ _ _ _ _ (own w N D mi (opened fd (OFile i (start + Z.of_nat (S p)) 0) no_tables))); [| intros v4 Ho4; eapply (IH (S p)); [lia | exact Ho4]].
      eapply safe_read; [exact HN | exact Hi | exact Ho' | done |]. cbv zeta. intros v4 Ho4. cbn [res got] in *.
      assert (Hc : sub b (Z.to_nat (start + Z.of_nat p)) (Z.to_nat 1) = [c]).
      { specialize (Hb p ltac:(lia)). replace (Z.to_nat (start + Z.of_nat p)) with (Z.to_nat start + p)%nat by lia. unfold sub.
        rewrite (drop_S b c) by done. done. }
      rewrite Hc in *. cbn [length head] in *. rewrite need_true, bool_decide_true by done. cbn [need].
      eapply safe_ret; [exact Ho4 |]. intros v5 Ho5. replace (start + Z.of_nat (S p)) with (start + Z.of_nat p + Z.of_nat 1) by lia. exact Ho5. }
    apply (H n 0%nat 0); [lia |]. rewrite Z.add_0_r. exact Ho3.
  - intros v4 [off Ho4]. eapply safe_close; [exact HN | exact Hi | exact Ho4 | done |]. intros v5 Ho5. by eapply safe_ret.
Qed.
End process.

(** ** The main process and its child *)

Abbreviation good := (good resolve listing).
Definition everything : key -> Prop := fun _ => True.

Lemma fork_good s child parent Q v :
  PreOrder (pt_main s) -> PreOrder (pt_kid s) -> (forall v v', pt_main s v v' -> pt_post s v -> pt_post s v') ->
  Posix.safe resolve listing Kid (pt_main s) (pt_kid s) child (pt_post s) never (forked v) ->
  (forall pid, 0 < pid -> good (Some (pid, s)) (parent pid) Q (forked v)) ->
  good None (fork_ child parent) Q v.
Proof.
  intros H1 H2 Hst Hc Hp. unfold fork_. cbn [Posix.good]. split; [done |]. intros pid Hpid. exists s. split_and!; [done | done | |].
  - cbn [Z.ltb Z.eqb Z.compare]. eapply safe_seq; [done | |].
    + eapply safe_mono; [| | exact Hc]; [done | by intros ? []].
    + intros v' Hv'. cbn [Posix.safe]. split; [done |]. intros v2 HR. by eapply Hst.
  - rewrite (proj2 (Z.ltb_ge pid 0)), (proj2 (Z.eqb_neq pid 0)) by lia. by apply Hp.
Qed.

Lemma reap_good pid s rest Q v :
  0 < pid -> (forall v1, pt_kid s v v1 -> pt_post s v1 -> good None rest Q (reaped v1)) -> good (Some (pid, s)) (reap pid ;; rest) Q v.
Proof.
  intros Hpid Hr. unfold reap. cbn [seq Posix.good]. split; [done |]. intros v1 H1 H2. rewrite nonneg_true by lia.
  rewrite Z.eqb_refl, need_true, bool_decide_true, need_true by done. cbn [seq]. by apply Hr.
Qed.

Section one_dir.
Variable D : gset key.

(** The main process alone, and all files of the directory. *)
Definition alone (dn : list Z) (m : gmap (list Z) (list Z)) : pred := holds Main everything D dn m.

Lemma does_good dn p q m m' Q v :
  alone dn m v -> does Main everything D dn p m m' -> (forall v', alone dn m' v' -> good None q Q v') -> good None (p ;; q) Q v.
Proof.
  intros Hv Hp Hq. eapply safe_good; [apply _ | | exact Hq]. eapply safe_weaken; [| | exact (Hp v Hv)]; cbn [rely_of guar_of]; [by intros ? ? <- | done].
Qed.

(** All that is there. *)
Definition all_files (v : vfs) : gmap key (Z * list Z) := omap (fun i => b ← files v !! i; Some (i, b)) (ents v).

Lemma lookup_all_files v k : all_files v !! k = look v k.
Proof. unfold all_files, look. rewrite lookup_omap. by destruct (ents v !! k). Qed.

Lemma own_all w v : wf v -> dirs v = D -> tab w v = no_tables -> own w everything D (all_files v) no_tables v.
Proof. intros Hwf HD Ht. split_and!; [done | | done | done]. intros k _. by rewrite lookup_all_files. Qed.

Lemma holds_look w N dn m v f : holds w N D dn m v -> N [dn; f] -> snd <$> look v [dn; f] = m !! f.
Proof. intros (mi & (_ & Hm & _) & Hs) HN. rewrite Hm by done. by apply Hs. Qed.

Lemma holds_intro w (N : key -> Prop) dn m v :
  wf v -> dirs v = D -> tab w v = no_tables -> (forall f, N [dn; f] -> snd <$> look v [dn; f] = m !! f) -> holds w N D dn m v.
Proof.
  intros Hwf HD Ht Hm. exists (all_files v). split.
  - split_and!; [done | | done | done]. intros k _. by rewrite lookup_all_files.
  - intros f Hf. rewrite lookup_all_files. by apply Hm.
Qed.

Lemma holds_parts w N dn m v : holds w N D dn m v -> wf v /\ dirs v = D /\ tab w v = no_tables.
Proof. by intros (mi & (? & _ & ? & ?) & _). Qed.

Lemma holds_stable w N dn m v v' : rely w N v v' -> holds w N D dn m v -> holds w N D dn m v'.
Proof. intros HR (mi & Ho & Hs). exists mi. split; [by eapply own_stable | done]. Qed.

(** ** Two processes with different files *)

(** The child has the files with names in [Nc]. *)
Section apart.
Variable Nc : key -> Prop.
Definition Nm : key -> Prop := fun k => ~ Nc k.

Definition apart (dc : list Z) (mc : gmap (list Z) (list Z)) : pact :=
  Pact (guar Main Nm) (guar Kid Nc) (holds Kid Nc D dc mc).

Lemma main_rely v v' : guar Main Nm v v' -> rely Kid Nc v v'.
Proof. apply (guar_rely Main). unfold Nm. tauto. Qed.

Lemma kid_rely v v' : guar Kid Nc v v' -> rely Main Nm v v'.
Proof. apply (guar_rely Kid). by unfold Nm. Qed.

Lemma holds_forked dn dc m mc v :
  alone dn m v -> alone dc mc v -> holds Kid Nc D dc mc (forked v) /\ holds Main Nm D dn m (forked v).
Proof.
  intros Hn Hc. destruct (holds_parts _ _ _ _ _ Hn) as (Hwf & HD & Ht). split; apply holds_intro; try done.
  - intros f _. by apply (holds_look Main everything).
  - intros f _. by apply (holds_look Main everything).
Qed.

Lemma fork_apart dn dc m mc mc' child parent Q v :
  alone dn m v -> alone dc mc v -> does Kid Nc D dc child mc mc' ->
  (forall pid v', 0 < pid -> holds Main Nm D dn m v' -> good (Some (pid, apart dc mc')) (parent pid) Q v') ->
  good None (fork_ child parent) Q v.
Proof.
  intros Hn Hc Hd Hp. destruct (holds_forked dn dc m mc v Hn Hc) as [Hk Hm]. apply (fork_good (apart dc mc')); cbn [apart pt_main pt_kid pt_post].
  - apply _.
  - apply _.
  - intros v1 v2 HR. by apply holds_stable, main_rely.
  - eapply safe_weaken; [| | exact (Hd _ Hk)]; [apply main_rely | done].
  - intros pid Hpid. by apply Hp.
Qed.

Lemma does_apart dn dc mc pid p q m m' Q v :
  holds Main Nm D dn m v -> does Main Nm D dn p m m' ->
  (forall v', holds Main Nm D dn m' v' -> good (Some (pid, apart dc mc)) q Q v') -> good (Some (pid, apart dc mc)) (p ;; q) Q v.
Proof.
  intros Hv Hp Hq. eapply safe_good; [cbn; apply _ | | exact Hq].
  eapply safe_weaken; [| | exact (Hp v Hv)]; cbn [rely_of guar_of apart pt_main pt_kid]; [apply kid_rely | done].
Qed.

(** When the child is through, the main process has all files again. *)
Lemma reap_apart dn dc mc m pid rest Q v :
  0 < pid -> holds Main Nm D dn m v ->
  (forall v', wf v' -> dirs v' = D -> tab_main v' = no_tables ->
     (forall f, ~ Nc [dn; f] -> snd <$> look v' [dn; f] = m !! f) -> (forall f, Nc [dc; f] -> snd <$> look v' [dc; f] = mc !! f) ->
     good None rest Q v') ->
  good (Some (pid, apart dc mc)) (reap pid ;; rest) Q v.
Proof.
  intros Hpid Hm Hr. apply reap_good; [done |]. cbn [apart pt_kid pt_post]. intros v1 Hg Hc.
  apply (holds_stable Main Nm dn m v v1) in Hm; [| by apply kid_rely]. destruct (holds_parts _ _ _ _ _ Hm) as (Hwf & HD & Ht).
  apply Hr; [done | done | done | |]; intros f Hf.
  - exact (holds_look _ _ _ _ _ f Hm Hf).
  - exact (holds_look _ _ _ _ _ f Hc Hf).
Qed.
End apart.
End one_dir.
End functions.

(** ** Numbered files *)

Lemma with_numbered_out prefix i n m f :
  (forall j, i <= j < i + Z.of_nat n -> f <> numbered prefix j) -> with_numbered prefix i n m !! f = m !! f.
Proof.
  revert i m. induction n as [|n IH]; intros i m Hf; [done |]. cbn [with_numbered]. rewrite IH by (intros j Hj; apply Hf; lia).
  rewrite lookup_insert_ne; [done |]. intros E. by apply (Hf i); [lia |].
Qed.

Lemma with_numbered_in prefix i n m j :
  range i n -> i <= j < i + Z.of_nat n -> with_numbered prefix i n m !! numbered prefix j = Some (int_bytes j).
Proof.
  revert i m. induction n as [|n IH]; intros i m [H0 H1] Hj; [lia |]. cbn [with_numbered].
  destruct (decide (j = i)) as [->|Hne]; [| apply IH; [split; lia | lia]].
  rewrite with_numbered_out; [apply lookup_insert_eq |]. intros j' Hj'. apply numbered_ne; lia.
Qed.

Lemma without_numbered_out prefix i n m f :
  (forall j, i <= j < i + Z.of_nat n -> f <> numbered prefix j) -> without_numbered prefix i n m !! f = m !! f.
Proof.
  revert i m. induction n as [|n IH]; intros i m Hf; [done |]. cbn [without_numbered]. rewrite IH by (intros j Hj; apply Hf; lia).
  rewrite lookup_delete_ne; [done |]. intros E. by apply (Hf i); [lia |].
Qed.

(** What a loop of creates does to a name depends on that name only. *)
Lemma with_numbered_congr prefix i n m m' f : m !! f = m' !! f -> with_numbered prefix i n m !! f = with_numbered prefix i n m' !! f.
Proof.
  revert i m m'. induction n as [|n IH]; intros i m m' E; [done |]. cbn [with_numbered]. apply IH.
  destruct (decide (f = numbered prefix i)) as [->|Hne]; [by rewrite !lookup_insert_eq | by rewrite !lookup_insert_ne].
Qed.
