(* ===== verification/LabShared.v ===== *)
(** * Two processes with the same files (src/test-lab-3-a.c)

    Two parts of test-lab-3-a have the parent and the child work on the same
    files: "Concurrent writes to different parts of same file", where each
    writes a part of its own, and "Concurrent creates of the same file", where
    each creates, or truncates and writes, the same ten files.  In the second
    one a file can be empty for a while; but then a process has it open and has
    not written yet. *)

From stdpp Require Import sorting strings.
From S2P Require Import Prelude Address Posix PosixFiles LabTests LabSpecs.
#[local] Set Warnings "-clear-no-such-hyp".

Section shared.
Variable resolve : list Z -> option key.
Variable listing : Z -> list (list Z) -> list (list Z).
Hypothesis listing_perm : forall z l, listing z l ≡ₚ l.
Variables (D : gset key) (dn : list Z).
Hypothesis file_not_dir : forall f, [dn; f] ∉ D.
Hypothesis dn_dir : [dn] ∈ D.
Abbreviation mounted := (mounted resolve).
Abbreviation safe := (safe resolve listing).

Lemma not_dir v f : dirs v = D -> [dn; f] ∉ dirs v.
Proof. intros ->. apply file_not_dir. Qed.

(** ** Different parts of a file *)

Section parts.
Variables (f : list Z) (i : Z) (L : nat).
Hypothesis f_ok : name_ok f.
Abbreviation k := [dn; f].

(** The process [w] writes bytes of the file at positions in [A] only. *)
Definition edits (w : who) (A : nat -> Prop) : rel := fun v v' =>
  wf v -> wf v' /\ (forall k', k' <> k -> look v' k' = look v k') /\
    (forall j b, look v k = Some (j, b) -> exists b', look v' k = Some (j, b') /\ length b' = length b /\ forall p, ~ A p -> b' !! p = b !! p) /\
    tab (other w) v' = tab (other w) v /\ dirs v' = dirs v.

#[local] Instance edits_preorder w A : PreOrder (edits w A).
Proof.
  split.
  - intros v Hwf. split_and!; [done | done | | done | done]. intros j b Hb. by exists b.
  - intros v1 v2 v3 H1 H2 Hwf. destruct (H1 Hwf) as (W2 & F2 & B2 & T2 & D2). destruct (H2 W2) as (W3 & F3 & B3 & T3 & D3).
    split_and!; [done | | | congruence | congruence].
    + intros k' Hk. by rewrite F3, F2.
    + intros j b Hb. destruct (B2 j b Hb) as (b2 & Hb2 & L2 & E2). destruct (B3 j b2 Hb2) as (b3 & Hb3 & L3 & E3).
      exists b3. split_and!; [done | congruence |]. intros p Hp. by rewrite E3, E2.
Qed.

(** What the process knows that has written [c] to the [p] positions from [s]. *)
Definition part (w : who) (s : nat) (c : Z) (p : nat) (t : tables) (v : vfs) : Prop :=
  wf v /\ tab w v = t /\ dirs v = D /\
  exists b, look v k = Some (i, b) /\ length b = L /\ forall j, (s <= j < s + p)%nat -> b !! j = Some c.

Section writer.
Variables (w : who) (s n : nat) (c : Z) (A B : nat -> Prop).
Hypothesis own_part : forall j, (s <= j < s + n)%nat -> A j /\ ~ B j.
Hypothesis in_file : (s + n <= L)%nat.
Abbreviation R := (edits (other w) B).
Abbreviation G := (edits w A).

Lemma part_stable p t v v' : (p <= n)%nat -> R v v' -> part w s c p t v -> part w s c p t v'.
Proof.
  intros Hp HR (Hwf & Ht & HD & b & Hb & Hl & Hc). destruct (HR Hwf) as (W & _ & F & T & E).
  destruct (F i b Hb) as (b' & Hb' & Hl' & Hsame). assert (Ho : other (other w) = w) by (by destruct w). rewrite Ho in T.
  split_and!; [done | congruence | congruence |]. exists b'. split_and!; [done | congruence |]. intros j Hj. rewrite Hsame; [by apply Hc |].
  apply own_part. lia.
Qed.

Lemma part_tables p t t' v : part w s c p t v -> G v (set_tab w t' v) /\ part w s c p t' (set_tab w t' v).
Proof.
  intros (Hwf & Ht & HD & Hb). destruct (set_tab_fs w t' v) as (_ & _ & Hd). split.
  - intros _. split_and!; [by apply wf_set_tab | intros; apply look_set_tab | | by rewrite tab_set_tab; destruct w | done].
    intros j b. rewrite look_set_tab. by exists b.
  - split_and!; [by apply wf_set_tab | by rewrite tab_set_tab, decide_True | by rewrite Hd |]. by rewrite look_set_tab.
Qed.

Lemma overwrite_one b off x : (off < length b)%nat -> overwrite b off [x] = <[off := x]> b.
Proof.
  intros Hl. unfold overwrite. rewrite (proj2 (Nat.ltb_ge _ _)) by lia. rewrite insert_take_drop by done. cbn [length app].
  by rewrite Nat.add_1_r.
Qed.

Lemma part_write p t v b :
  (p < n)%nat -> part w s c p t v -> look v k = Some (i, b) ->
  G v (set_file i (overwrite b (s + p) [c]) v) /\ part w s c (S p) t (set_file i (overwrite b (s + p) [c]) v).
Proof.
  intros Hp (Hwf & Ht & HD & b0 & Hb & Hl & Hc) Hb'. rewrite Hb in Hb'. injection Hb' as ->.
  rewrite overwrite_one by lia. set (b' := <[(s + p)%nat := c]> b).
  assert (Ho : own w everything D (all_files v) t v) by (split_and!; [done | intros k' _; by rewrite lookup_all_files | done | done]).
  destruct (own_file v k i b b' Ho) as [_ (W & Hm & T & E)]; [done | by rewrite lookup_all_files |].
  assert (Hk : look (set_file i b' v) k = Some (i, b')) by (rewrite Hm by done; apply lookup_insert_eq).
  split.
  - intros _. split_and!; [done | | | by destruct w | done].
    + intros k' Hne. rewrite Hm by done. rewrite lookup_insert_ne by done. apply lookup_all_files.
    + intros j b1 Hb1. rewrite Hb in Hb1. injection Hb1 as <- <-. exists b'. split_and!; [done | apply length_insert |].
      intros q Hq. unfold b'. rewrite list_lookup_insert_ne; [done |]. intros <-. apply Hq, own_part. lia.
  - split_and!; [done | done | done |]. exists b'. split_and!; [done | unfold b'; by rewrite length_insert |].
    intros j Hj. unfold b'. destruct (decide (j = (s + p)%nat)) as [->|Hne]; [apply list_lookup_insert_eq; lia |].
    rewrite list_lookup_insert_ne by done. apply Hc. lia.
Qed.

Abbreviation sf := (safe w R G).

Lemma part_open flags p t v :
  part w s c p t v -> exists fd v2, open_fd w i flags v = (v2, Ans fd 0 []) /\ 0 <= fd /\ fds t !! fd = None /\
    G v v2 /\ part w s c p (opened fd (OFile i 0 flags) t) v2.
Proof.
  intros Hp. destruct (unused_fresh 3 (fds t)) as [H1 H2]. exists (unused 3 (fds t)). eexists. assert (E : tab w v = t) by apply Hp.
  unfold open_fd. rewrite E. split; [reflexivity |]. split; [lia |]. split; [done |]. by eapply part_tables.
Qed.

Lemma open_existing d flags p t v z v2 a :
  mounted d dn -> Z.land flags O_TRUNC = 0 -> part w s c p t v -> open_call resolve z w (in_dir d f) flags v = (v2, a) ->
  (v2 = v /\ a = Ans (-1) EEXIST [] /\ Z.land flags O_CREAT <> 0) \/
  exists fd, a = Ans fd 0 [] /\ 0 <= fd /\ fds t !! fd = None /\ G v v2 /\ part w s c p (opened fd (OFile i 0 flags) t) v2.
Proof.
  intros (_ & Hr & _) Htr Hp Hc. assert (Hp' := Hp). destruct Hp' as (Hwf & _ & HD & b & [He _]%look_Some & _).
  unfold open_call in Hc. rewrite Hr, decide_False, He, Htr in Hc by (done || by apply not_dir).
  destruct (_ && _) eqn:E.
  - left. injection Hc as <- <-. split_and!; [done | done |]. intros E'. by rewrite E' in E.
  - right. destruct (part_open flags p t v Hp) as (fd & v3 & E' & H). cbn [Z.eqb] in Hc. rewrite E' in Hc. injection Hc as <- <-. by exists fd.
Qed.

Section opened_file.
Variables (fd flags : Z).
Hypotheses (Hwr : Z.land flags O_WRONLY <> 0) (Happ : Z.land flags O_APPEND = 0).
Abbreviation now off := (opened fd (OFile i off flags) no_tables).

Lemma with_fd_part p off v :
  part w s c p (now off) v -> exists b, look v k = Some (i, b) /\ forall g, with_fd w fd v g = g (OFile i off flags) b.
Proof.
  intros (_ & Ht & _ & b & Hb & _). exists b. split; [done |]. intros g. unfold with_fd. rewrite Ht. cbn [opened fds]. rewrite lookup_insert_eq. cbn [o_ino].
  apply look_Some in Hb as [_ ->]. done.
Qed.

Lemma set_fd_part p off off' v : part w s c p (now off) v -> G v (set_fd w fd (OFile i off' flags) v) /\ part w s c p (now off') (set_fd w fd (OFile i off' flags) v).
Proof.
  intros Hp. assert (E : tab w v = now off) by apply Hp. unfold set_fd. rewrite E. cbn [opened fds streams]. rewrite insert_insert_eq.
  by eapply part_tables.
Qed.

(** write and fsync, once per turn of the loop. *)
Lemma write_byte p off K Q v :
  (p < n)%nat -> off = Z.of_nat (s + p) -> part w s c p (now off) v ->
  (forall v', part w s c (S p) (now (off + 1)) v' -> sf K Q never v') ->
  sf (Sys (Write fd [c]) (fun r => need (res r =? 1) (Sys (Fsync fd) (fun r => need (res r =? 0) K)))) Q never v.
Proof.
  intros Hp -> Hv HK v1 HR z v2 a Hc. apply (part_stable p _ v v1 ltac:(lia) HR) in Hv. cbn [vcall] in Hc.
  destruct (with_fd_part p _ v1 Hv) as (b & Hb & E).
  rewrite E in Hc. cbn [o_flags o_off o_ino] in Hc. rewrite (proj2 (Z.eqb_neq _ _) Hwr), Happ in Hc. cbn [Z.eqb length] in Hc.
  rewrite Nat2Z.id in Hc. injection Hc as <- <-.
  destruct (part_write p _ v1 b Hp Hv Hb) as [G1 P1].
  destruct (set_fd_part (S p) _ (Z.of_nat (s + p + 1)) _ P1) as [G2 P2]. split; [by etrans |]. cbn [res Z.eqb Pos.eqb need].
  intros v3 HR3 z3 v4 a4 Hc4. apply (part_stable (S p) _ _ v3 ltac:(lia) HR3) in P2. cbn [vcall] in Hc4.
  destruct (with_fd_part (S p) _ v3 P2) as (b3 & _ & E3). rewrite E3 in Hc4. injection Hc4 as <- <-.
  split; [done |]. cbn [res Z.eqb need]. apply HK. replace (Z.of_nat (s + p) + 1) with (Z.of_nat (s + p + 1)) by lia. exact P2.
Qed.

Lemma write_loop m p q v :
  (p + m = n)%nat -> part w s c p (now (Z.of_nat (s + p))) v ->
  sf (for_ q m (fun _ => Sys (Write fd [c]) (fun r => need (res r =? 1) (Sys (Fsync fd) (fun r => need (res r =? 0) Ret)))))
    (part w s c n (now (Z.of_nat (s + n)))) never v.
Proof.
  revert p q v. induction m as [|m IH]; intros p q v Hp Hv; cbn [for_].
  - rewrite Nat.add_0_r in Hp. subst p. intros v' HR. by apply (part_stable n _ v v').
  - eapply (safe_seq resolve listing w _ _ _ _ _ (part w s c (S p) (now (Z.of_nat (s + S p))))).
    + eapply write_byte; [| reflexivity | exact Hv |]; [lia |]. intros v' Hv'. intros v2 HR. apply (part_stable (S p) _ v' v2); [lia | done |].
      by replace (Z.of_nat (s + S p)) with (Z.of_nat (s + p) + 1) by lia.
    + intros v' Hv'. apply (IH (S p)); [lia | done].
Qed.

Lemma write1_file_part v :
  0 <= fd -> fds no_tables !! fd = None -> part w s c 0 (now 0) v ->
  sf (write1_file (Ans fd 0 []) (Z.of_nat s) n c) (part w s c n no_tables) never v.
Proof.
  intros Hfd _ Hv. unfold write1_file. cbn [res]. rewrite nonneg_true by done.
  intros v1 HR z v2 a Hc. apply (part_stable 0 _ v v1 ltac:(lia) HR) in Hv. cbn [vcall] in Hc.
  destruct (with_fd_part 0 _ v1 Hv) as (b & _ & E).
  rewrite E, (proj2 (Z.ltb_ge _ _)) in Hc by lia. injection Hc as <- <-. cbn [o_ino o_flags].
  destruct (set_fd_part 0 _ (Z.of_nat s) _ Hv) as [G1 P1]. split; [done |]. cbn [res]. rewrite Z.eqb_refl, need_true.
  eapply safe_seq; [apply _ | apply (write_loop n 0 0); [done |]; by rewrite Nat.add_0_r |]. intros v3 Hv3.
  intros v4 HR4 z4 v5 a5 Hc5. apply (part_stable n _ _ v4 ltac:(lia) HR4) in Hv3. cbn [vcall] in Hc5.
  destruct (with_fd_part n _ v4 Hv3) as (b5 & _ & E5).
  rewrite E5 in Hc5. injection Hc5 as <- <-.
  assert (E6 : Tables (delete fd (fds (tab w v4))) (streams (tab w v4)) = no_tables).
  { destruct Hv3 as (_ & -> & _). cbn [opened fds streams no_tables]. by rewrite delete_insert_id. }
  rewrite E6. destruct (part_tables n _ no_tables v4 Hv3) as [G2 P2]. split; [done |]. cbn [res Z.eqb need].
  intros v6 HR6. by eapply part_stable.
Qed.
End opened_file.

Lemma write1_part d v :
  mounted d dn -> part w s c 0 no_tables v -> sf (write1 d f (Z.of_nat s) n c) (part w s c n no_tables) never v.
Proof.
  intros Hd Hv. unfold write1. rewrite in_buffer_ok by (done || apply Hd).
  intros v1 HR z v2 a Hc. apply (part_stable 0 _ v v1 ltac:(lia) HR) in Hv. cbn [vcall] in Hc.
  destruct (open_existing d (O_WRONLY + O_CREAT) 0 _ v1 z v2 a Hd eq_refl Hv Hc) as [(-> & -> & _)|(fd & -> & Hfd & Hnew & HG & HP)].
  - split; [done |]. cbn [res err Z.ltb Z.eqb Z.compare Pos.eqb andb EEXIST].
    intros v3 HR3 z3 v4 a4 Hc4. apply (part_stable 0 _ v1 v3 ltac:(lia) HR3) in Hv. cbn [vcall] in Hc4.
    destruct (open_existing d O_WRONLY 0 _ v3 z3 v4 a4 Hd eq_refl Hv Hc4) as [(_ & _ & H)|(fd & -> & Hfd & Hnew & HG & HP)]; [done |].
    split; [done |]. by apply (write1_file_part fd O_WRONLY).
  - split; [done |]. cbn [res]. rewrite (proj2 (Z.ltb_ge _ _)) by done. cbn [andb]. by apply (write1_file_part fd (O_WRONLY + O_CREAT)).
Qed.
End writer.
End parts.

(** ** The same files *)

Section same.
Variables (prefix : list Z) (nf : nat).
Hypothesis prefix_good : prefix_ok prefix.
Hypothesis nf_small : Z.of_nat nf < 2 ^ 31.
Abbreviation name j := (numbered prefix j).

Lemma name_good j : 0 <= j < Z.of_nat nf -> name_ok (name j).
Proof. intros Hj. apply numbered_ok; [apply prefix_good | apply prefix_good | lia]. Qed.

(** A process has the file open and has not read or written yet. *)
Definition pending (i : Z) (v : vfs) : Prop :=
  exists w fd o, fds (tab w v) !! fd = Some o /\ o_ino o = i /\ o_off o = 0.

Definition content_ok (i j : Z) (b : list Z) (v : vfs) : Prop := b = int_bytes j \/ (b = [] /\ pending i v).

(** There are no other files, and an empty one is being written. *)
Definition zinv (v : vfs) : Prop :=
  wf v /\ dirs v = D /\
  forall f i b, look v [dn; f] = Some (i, b) -> exists j, 0 <= j < Z.of_nat nf /\ f = name j /\ content_ok i j b v.

Definition zrel (w : who) : rel := fun v v' =>
  zinv v -> zinv v' /\ (forall k i, ents v !! k = Some i -> ents v' !! k = Some i) /\ tab (other w) v' = tab (other w) v.

#[local] Instance zrel_preorder w : PreOrder (zrel w).
Proof.
  split; [done |]. intros v1 v2 v3 H1 H2 Hi. destruct (H1 Hi) as (I2 & E2 & T2). destruct (H2 I2) as (I3 & E3 & T3).
  split_and!; [done | eauto | congruence].
Qed.

(** What a process knows that is through with the first [p] files. *)
Definition zown (w : who) (p : Z) (t : tables) (v : vfs) : Prop :=
  zinv v /\ tab w v = t /\ forall j, 0 <= j < p -> is_Some (ents v !! [dn; name j]).

Lemma zown_stable w p t v v' : zrel (other w) v v' -> zown w p t v -> zown w p t v'.
Proof.
  intros HR (Hi & Ht & He). destruct (HR Hi) as (I & E & T). assert (Ho : other (other w) = w) by (by destruct w). rewrite Ho in T.
  split_and!; [done | congruence |]. intros j Hj. destruct (He j Hj) as [i Hij]. eauto.
Qed.

(** The tables change: no file that was pending may be forgotten. *)
Lemma zinv_tables w t t' v :
  zinv v -> tab w v = t ->
  (forall fd o, fds t !! fd = Some o -> o_off o = 0 -> (exists fd' o', fds t' !! fd' = Some o' /\ o_ino o' = o_ino o /\ o_off o' = 0) \/
     (forall f b, look v [dn; f] = Some (o_ino o, b) -> b <> [])) ->
  zinv (set_tab w t' v).
Proof.
  intros (Hwf & HD & Hc) Ht Hk. destruct (set_tab_fs w t' v) as (_ & _ & Hd). split_and!; [by apply wf_set_tab | by rewrite Hd |].
  intros f i b Hb. rewrite look_set_tab in Hb. destruct (Hc f i b Hb) as (j & Hj & Hf & Hcont). exists j. split; [done |]. split; [done |].
  destruct Hcont as [->|[-> (w' & fd & o & Ho & Hi & Hoff)]]; [by left |]. right. split; [done |].
  destruct (decide (w' = w)) as [->|Hne].
  - rewrite Ht in Ho. destruct (Hk fd o Ho Hoff) as [(fd' & o' & Ho' & Hi' & Hoff')|Hn]; [| by rewrite <- Hi in Hb; destruct (Hn _ _ Hb)].
    exists w, fd', o'. rewrite tab_set_tab, decide_True by done. split_and!; [done | congruence | done].
  - exists w', fd, o. by rewrite tab_set_tab, decide_False by done.
Qed.

Lemma zown_tables w p t t' v :
  zown w p t v ->
  (forall fd o, fds t !! fd = Some o -> o_off o = 0 -> (exists fd' o', fds t' !! fd' = Some o' /\ o_ino o' = o_ino o /\ o_off o' = 0) \/
     (forall f b, look v [dn; f] = Some (o_ino o, b) -> b <> [])) ->
  zrel w v (set_tab w t' v) /\ zown w p t' (set_tab w t' v).
Proof.
  intros (Hi & Ht & He) Hk. pose proof (zinv_tables w t t' v Hi Ht Hk) as Hi'. destruct (set_tab_fs w t' v) as (Hen & _ & _). split.
  - intros _. split_and!; [done | by rewrite Hen | by rewrite tab_set_tab; destruct w].
  - split_and!; [done | by rewrite tab_set_tab, decide_True | by rewrite Hen].
Qed.

Lemma zown_streams w p t t' v : zown w p t v -> fds t' = fds t -> zrel w v (set_tab w t' v) /\ zown w p t' (set_tab w t' v).
Proof. intros Hz E. apply (zown_tables w p t t' v Hz). intros fd o Ho Hoff. left. exists fd, o. by rewrite E. Qed.

Lemma own_everything w v : zinv v -> own w everything D (all_files v) (tab w v) v.
Proof. intros (Hwf & HD & _). split_and!; [done | intros k _; by rewrite lookup_all_files | done | done]. Qed.

(** The contents change. *)
Lemma zown_file w p t v j i b' :
  zown w p t v -> ents v !! [dn; name j] = Some i -> 0 <= j < Z.of_nat nf -> content_ok i j b' v ->
  zrel w v (set_file i b' v) /\ zown w p t (set_file i b' v).
Proof.
  intros (Hi & Ht & He) Hj Hr Hc. assert (Hi' := Hi). destruct Hi' as (Hwf & HD & Hcont).
  destruct (proj2 Hwf _ _ Hj) as [b Hb]. destruct (own_file v [dn; name j] i b b' (own_everything w v Hi)) as [_ (W & Hm & _ & _)];
    [done | rewrite lookup_all_files; by apply look_Some |].
  assert (Hz : zinv (set_file i b' v)).
  { split_and!; [done | done |]. intros f i2 b2 Hb2. rewrite Hm in Hb2 by done. destruct (decide (f = name j)) as [->|Hne].
    - rewrite lookup_insert_eq in Hb2. injection Hb2 as <- <-. by exists j.
    - rewrite lookup_insert_ne, lookup_all_files in Hb2 by congruence. destruct (Hcont f i2 b2 Hb2) as (j2 & ? & ? & ?). by exists j2. }
  split; [intros _; split_and!; [done | done | by destruct w] | split_and!; [done | by destruct w | done]].
Qed.

(** A new file. *)
Lemma zown_new w p t v j b :
  let i := unused 1 (files v) in
  let v' := set_ents (<[[dn; name j] := i]> (ents v)) (set_file i b v) in
  zown w p t v -> ents v !! [dn; name j] = None -> 0 <= j < Z.of_nat nf -> content_ok i j b v ->
  zrel w v v' /\ zown w p t v' /\ ents v' !! [dn; name j] = Some i.
Proof.
  intros i v' (Hi & Ht & He) Hj Hr Hc. assert (Hi' := Hi). destruct Hi' as (Hwf & HD & Hcont).
  destruct (own_new v [dn; name j] b (own_everything w v Hi)) as [_ (W & Hm & _ & _)]; [done | by rewrite lookup_all_files; apply look_None |].
  fold i v' in W, Hm.
  assert (Hz : zinv v').
  { split_and!; [done | done |]. intros f i2 b2 Hb2. rewrite Hm in Hb2 by done. destruct (decide (f = name j)) as [->|Hne].
    - rewrite lookup_insert_eq in Hb2. injection Hb2 as <- <-. by exists j.
    - rewrite lookup_insert_ne, lookup_all_files in Hb2 by congruence. destruct (Hcont f i2 b2 Hb2) as (j2 & ? & ? & ?). by exists j2. }
  assert (Hk : forall k x, ents v !! k = Some x -> ents v' !! k = Some x).
  { intros k x Hx. cbn [v' ents set_ents]. rewrite lookup_insert_ne; [done |]. intros <-. discriminate (eq_trans (eq_sym Hj) Hx). }
  split_and!; [intros _; split_and!; [done | done | by destruct w] | split_and!; [done | by destruct w |] | apply lookup_insert_eq].
  intros j' Hj'. destruct (He j' Hj') as [x Hx]. eauto.
Qed.

Section creator.
Variables (w : who) (d : list Z).
Hypothesis d_mounted : mounted d dn.
Abbreviation sf := (safe w (zrel (other w)) (zrel w)).
Abbreviation now fd i off := (opened fd (OFile i off CREAT) no_tables).

(** The process has file [p] open, with the number [i]. *)
Definition at_file (p fd i off : Z) (v : vfs) : Prop := zown w (p + 1) (now fd i off) v /\ ents v !! [dn; name p] = Some i.

Lemma at_file_stable p fd i off v v' : zrel (other w) v v' -> at_file p fd i off v -> at_file p fd i off v'.
Proof. intros HR [Hz He]. split; [by eapply zown_stable |]. destruct (HR (proj1 Hz)) as (_ & E & _). eauto. Qed.

Lemma opens_empty fd i t v p : zown w p no_tables v -> zrel w v (set_tab w (now fd i t) v) /\ zown w p (now fd i t) (set_tab w (now fd i t) v).
Proof. intros Hz. apply (zown_tables w p no_tables _ v Hz). intros fd' o Ho. cbn [no_tables fds] in Ho. by rewrite lookup_empty in Ho. Qed.

Lemma now_pending fd i p v : zown w p (now fd i 0) v -> pending i v.
Proof. intros (_ & Ht & _). exists w, fd, (OFile i 0 CREAT). rewrite Ht. cbn [opened fds]. by rewrite lookup_insert_eq. Qed.

Lemma more_files p t v i : zown w p t v -> ents v !! [dn; name p] = Some i -> zown w (p + 1) t v.
Proof. intros (Hz & Ht & He) Hi. split_and!; [done | done |]. intros j Hj. destruct (decide (j = p)) as [->|]; [eauto | apply He; lia]. Qed.

(** creat makes the file, or empties it, or says that it is there. *)
Lemma creat_same z p v v2 a :
  0 <= p < Z.of_nat nf -> zown w p no_tables v -> open_call resolve z w (in_dir d (name p)) CREAT v = (v2, a) ->
  zrel w v v2 /\ ((a = Ans (-1) EEXIST [] /\ zown w (p + 1) no_tables v2) \/ exists fd i, a = Ans fd 0 [] /\ 0 <= fd /\ at_file p fd i 0 v2).
Proof.
  intros Hp Hz Hc. assert (Hz' := Hz). destruct Hz' as ((Hwf & HD & _) & Ht & _). destruct (unused_fresh 3 (fds no_tables)) as [_ Hfd].
  unfold open_call in Hc. rewrite (proj1 (proj2 d_mounted)) in Hc by (by apply name_good). rewrite decide_False in Hc by (by apply not_dir).
  destruct (ents v !! [dn; name p]) as [i|] eqn:He.
  - destruct (_ && _).
    { injection Hc as <- <-. split; [done |]. left. split; [done |]. by eapply more_files. }
    change (Z.land CREAT O_TRUNC =? 0) with false in Hc. cbn iota in Hc.
    unfold open_fd in Hc. assert (E : tab w (set_file i [] v) = no_tables) by (by destruct w). rewrite E in Hc. injection Hc as <- <-.
    set (fd := unused 3 (fds no_tables)) in *. destruct (opens_empty fd i 0 v p Hz) as [G1 Z1].
    assert (He1 : ents (set_tab w (now fd i 0) v) !! [dn; name p] = Some i) by (by destruct w).
    destruct (zown_file w p _ _ p i [] Z1 He1 Hp) as [G2 Z2]; [right; split; [done | by eapply now_pending] |].
    assert (Ev : set_file i [] (set_tab w (now fd i 0) v) = set_tab w (now fd i 0) (set_file i [] v)) by (by destruct w). rewrite Ev in *.
    split; [by etrans |]. right. exists fd, i. split_and!; [done | lia |]. split; [by eapply more_files; [done | destruct w] | by destruct w].
  - change (Z.land CREAT O_CREAT =? 0) with false in Hc. cbn iota in Hc.
    rewrite decide_True in Hc by (by rewrite HD).
    unfold open_fd in Hc. set (i := unused 1 (files v)) in *.
    assert (E : tab w (set_ents (<[[dn; name p] := i]> (ents v)) (set_file i [] v)) = no_tables) by (by destruct w). rewrite E in Hc. injection Hc as <- <-.
    set (fd := unused 3 (fds no_tables)) in *. destruct (opens_empty fd i 0 v p Hz) as [G1 Z1].
    assert (Ei : unused 1 (files (set_tab w (now fd i 0) v)) = i) by (by destruct w).
    destruct (zown_new w p _ (set_tab w (now fd i 0) v) p [] Z1) as (G2 & Z2 & E2); [by destruct w | done | rewrite Ei; right; split; [done | by eapply now_pending] |].
    rewrite Ei in *. assert (Ev : set_ents (<[[dn; name p] := i]> (ents (set_tab w (now fd i 0) v))) (set_file i [] (set_tab w (now fd i 0) v)) =
      set_tab w (now fd i 0) (set_ents (<[[dn; name p] := i]> (ents v)) (set_file i [] v))) by (by destruct w). rewrite Ev in *.
    split; [by etrans |]. right. exists fd, i. split_and!; [done | lia |]. split; [by eapply more_files | done].
Qed.

Lemma with_fd_at p fd i off v :
  0 <= p < Z.of_nat nf -> at_file p fd i off v ->
  exists b, content_ok i p b v /\ forall g, with_fd w fd v g = g (OFile i off CREAT) b.
Proof.
  intros Hp [((Hwf & _ & Hc) & Ht & _) He]. destruct (proj2 Hwf _ _ He) as [b Hb]. exists b. split.
  - destruct (Hc (name p) i b) as (j & Hj & Hn & Hok); [by apply look_Some |]. apply numbered_inj in Hn; [by subst | lia | lia].
  - intros g. unfold with_fd. rewrite Ht. cbn [opened fds]. rewrite lookup_insert_eq. cbn [o_ino]. by rewrite Hb.
Qed.

Lemma overwrite_int i j b v : content_ok i j b v -> overwrite b 0 (int_bytes j) = int_bytes j.
Proof. intros [->|[-> _]]; reflexivity. Qed.

(** After the write the file has its contents, and is no longer pending on
    account of this process. *)
Lemma write_number p fd i b v :
  0 <= p < Z.of_nat nf -> at_file p fd i 0 v -> content_ok i p b v ->
  let v2 := set_fd w fd (OFile i 4 CREAT) (set_file i (overwrite b 0 (int_bytes p)) v) in zrel w v v2 /\ at_file p fd i 4 v2.
Proof.
  intros Hp [Hz He] Hb v2. subst v2. rewrite (overwrite_int i p b v) by done.
  destruct (zown_file w _ _ v p i (int_bytes p) Hz He Hp) as [G1 Z1]; [by left |]. set (v1 := set_file i (int_bytes p) v) in *.
  assert (He1 : ents v1 !! [dn; name p] = Some i) by done. assert (Hf1 : files v1 !! i = Some (int_bytes p)) by apply lookup_insert_eq.
  unfold set_fd. rewrite (proj1 (proj2 Z1)). cbn [opened fds streams no_tables]. rewrite insert_insert_eq.
  destruct (zown_tables w _ _ (now fd i 4) v1 Z1) as [G2 Z2].
  - intros fd' o Ho Hoff. right. cbn [opened fds no_tables] in Ho. rewrite lookup_insert_Some, lookup_empty in Ho.
    destruct Ho as [[_ <-]|[_ [=]]]. cbn [o_ino]. intros f b' [_ Hb']%look_Some. rewrite Hf1 in Hb'. by injection Hb' as <-.
  - split; [by etrans |]. split; [exact Z2 | by destruct w].
Qed.

Lemma close_same p fd i v :
  at_file p fd i 4 v -> let v2 := set_tab w no_tables v in zrel w v v2 /\ zown w (p + 1) no_tables v2.
Proof.
  intros [Hz He]. apply (zown_tables w _ _ no_tables v Hz). intros fd' o Ho Hoff. cbn [opened fds no_tables] in Ho.
  rewrite lookup_insert_Some, lookup_empty in Ho. by destruct Ho as [[_ <-]|[_ [=]]].
Qed.

Lemma createn_same_from n i v :
  0 <= i -> i + Z.of_nat n = Z.of_nat nf -> zown w i no_tables v ->
  sf (for_ i n (fun i =>
    in_buffer (in_dir d (name i)) (fun n =>
    Sys (Open n CREAT) (fun fd =>
    if (res fd <? 0) && true && (err fd =? EEXIST) then Ret
    else
    need (0 <=? res fd) (
    Sys (Write (res fd) (int_bytes i)) (fun cc =>
    need (res cc =? 4) (
    Sys (Close (res fd)) (fun r =>
    need (res r =? 0) Ret)))))))) (zown w (Z.of_nat nf) no_tables) never v.
Proof.
  revert i v. induction n as [|n IH]; intros i v Hi Hn Hz; cbn [for_].
  { replace (Z.of_nat nf) with i by lia. intros v' HR. by eapply zown_stable. }
  eapply (safe_seq resolve listing w _ _ _ _ _ (zown w (i + 1) no_tables)); [| intros v' Hv'; apply IH; [lia | lia | done]].
  assert (Hp : 0 <= i < Z.of_nat nf) by lia. rewrite in_buffer_ok by (apply d_mounted || by apply name_good).
  intros v1 HR z v2 a Hc. apply (zown_stable w i _ v v1 HR) in Hz. cbn [vcall] in Hc.
  destruct (creat_same z i v1 v2 a Hp Hz Hc) as [HG [[-> Hz2]|(fd & ino & -> & Hfd & Ha)]]; (split; [exact HG |]).
  { cbn. intros v3 HR3. by eapply zown_stable. }
  cbn [res err]. rewrite (proj2 (Z.ltb_ge fd 0)) by done. cbn [andb]. rewrite nonneg_true by done.
  intros v3 HR3 z3 v4 a4 Hc4. apply (at_file_stable _ _ _ _ v2 v3 HR3) in Ha. cbn [vcall] in Hc4.
  destruct (with_fd_at i fd ino 0 v3 Hp Ha) as (b & Hb & E). rewrite E in Hc4.
  change ((set_fd w fd (OFile ino 4 CREAT) (set_file ino (overwrite b 0 (int_bytes i)) v3), Ans 4 0 []) = (v4, a4)) in Hc4. injection Hc4 as <- <-.
  destruct (write_number i fd ino b v3 Hp Ha Hb) as [G4 A4]. split; [exact G4 |]. cbn [res Z.eqb Pos.eqb need].
  intros v5 HR5 z5 v6 a6 Hc6. apply (at_file_stable _ _ _ _ _ v5 HR5) in A4. cbn [vcall] in Hc6.
  destruct (with_fd_at i fd ino 4 v5 Hp A4) as (b6 & _ & E6). rewrite E6 in Hc6.
  rewrite (proj1 (proj2 (proj1 A4))) in Hc6. cbn [opened fds streams no_tables] in Hc6. rewrite delete_insert_id in Hc6 by done. injection Hc6 as <- <-.
  destruct (close_same i fd ino v5 A4) as [G6 A6]. split; [exact G6 |]. cbn [res Z.eqb need]. intros v7 HR7. by eapply zown_stable.
Qed.

Lemma createn_same v : zown w 0 no_tables v -> sf (createn d prefix nf true) (zown w (Z.of_nat nf) no_tables) never v.
Proof. intros Hz. by apply createn_same_from. Qed.

Lemma children_same v :
  zown w (Z.of_nat nf) no_tables v -> [dn] ∈ dirs v /\ children [dn] v ≡ₚ numbered prefix <$> seqZ 0 (Z.of_nat nf).
Proof.
  intros ((Hwf & HD & Hc) & _ & He). split; [by rewrite HD |]. apply NoDup_Permutation; [apply NoDup_children, NoDup_elements | |].
  { apply NoDup_fmap_2_strong; [| apply NoDup_seqZ]. intros j1 j2 H1%elem_of_seqZ H2%elem_of_seqZ. apply numbered_inj; lia. }
  intros f. rewrite list_elem_of_fmap. unfold children. rewrite list_elem_of_omap. split.
  - intros (c & Hin & ->%child_of_Some). rewrite elem_of_elements, elem_of_union in Hin. destruct Hin as [[i Hi]%elem_of_dom|Hin].
    + destruct (proj2 Hwf _ _ Hi) as [b Hb]. destruct (Hc f i b) as (j & Hj & -> & _); [by apply look_Some |].
      exists j. split; [done |]. apply elem_of_seqZ. lia.
    + by destruct (not_dir v f HD).
  - intros (j & -> & Hj%elem_of_seqZ). exists ([dn] ++ [name j]). split; [| by apply child_of_Some].
    rewrite elem_of_elements, elem_of_union. left. apply elem_of_dom, He. lia.
Qed.

Lemma dircheck_same v :
  (nf <= MAX_NAMES)%nat -> Forall entry_ok (numbered prefix <$> seqZ 0 (Z.of_nat nf)) -> zown w (Z.of_nat nf) no_tables v ->
  sf (dircheck d nf) (zown w (Z.of_nat nf) no_tables) never v.
Proof.
  intros Hnf Hok Hz. eapply (dircheck_safe resolve listing listing_perm w _ _ (zown w (Z.of_nat nf))); [| | | exact d_mounted | exact Hz | exact children_same | | done | done |].
  - intros t v1 v2. apply zown_stable.
  - by intros t v1 (_ & ? & _).
  - intros t t' v1 Hz1. by apply zown_streams.
  - rewrite length_fmap, length_seqZ. lia.
  - apply NoDup_fmap_2_strong; [| apply NoDup_seqZ]. intros j1 j2 H1%elem_of_seqZ H2%elem_of_seqZ. apply numbered_inj; lia.
Qed.
End creator.

(** When both are through, every file has its contents. *)
Lemma same_joined v :
  zown Main (Z.of_nat nf) no_tables v -> tab_kid v = no_tables -> alone D dn (with_numbered prefix 0 nf ∅) v.
Proof.
  intros ((Hwf & HD & Hc) & Ht & He) Hk. assert (Hnp : forall i, ~ pending i v).
  { intros i ([|] & fd & o & Ho & _); cbn [tab] in *; [rewrite Ht in Ho | rewrite Hk in Ho]; cbn [no_tables fds] in Ho; by rewrite lookup_empty in Ho. }
  apply holds_intro; [done | done | done |]. intros f _. destruct (look v [dn; f]) as [[i b]|] eqn:E.
  - destruct (Hc f i b E) as (j & Hj & -> & [->|[_ Hp]]); [| by destruct (Hnp i)].
    rewrite with_numbered_in; [done | split; lia | lia].
  - rewrite with_numbered_out; [by rewrite lookup_empty |]. intros j Hj ->. destruct (He j ltac:(lia)) as [i Hi].
    apply look_None in E; [| done]. congruence.
Qed.

Lemma same_start v : alone D dn ∅ v -> zown Main 0 no_tables (forked v) /\ zown Kid 0 no_tables (forked v).
Proof.
  intros Hv. destruct (holds_parts _ _ _ _ _ _ Hv) as (Hwf & HD & Ht). assert (Hz : zinv (forked v)).
  { split_and!; [done | done |]. intros f i b Hb. assert (E := holds_look _ _ _ _ _ _ f Hv I).
    change (look (forked v) [dn; f]) with (look v [dn; f]) in Hb. rewrite Hb, lookup_empty in E. done. }
  split; (split_and!; [done | done | intros j Hj; lia]).
Qed.
End same.
End shared.
