(* ===== verification/LabRuns.v ===== *)
(** * The tests pass (src/test-lab-3-a.c, src/test-lab-3-b.c)

    On a file system that both mount points show and that does what POSIX says,
    every run of the test programs of LabTests.v ends with exit(0), however the
    two processes are interleaved: a failure that they report is one of the file
    system. *)

From stdpp Require Import sorting strings.
From S2P Require Import Prelude Address Posix PosixFiles LabTests LabSpecs LabShared.
#[local] Set Warnings "-clear-no-such-hyp".

(** *** Computation *)

(** A property of finitely many numbers, by computation. *)
Lemma by_range (P : Z -> Prop) `{forall j, Decision (P j)} (n : nat) :
  forallb (fun j => bool_decide (P j)) (seqZ 0 (Z.of_nat n)) = true -> forall j, 0 <= j < 0 + Z.of_nat n -> P j.
Proof.
  intros Hf j Hj. rewrite forallb_forall in Hf. apply (bool_decide_eq_true_1 (P j)), Hf, list_elem_of_In, elem_of_seqZ. lia.
Qed.

Lemma range_mine (N : key -> Prop) dn prefix n :
  prefix_ok prefix -> Z.of_nat n < 2 ^ 31 -> (forall j, N [dn; numbered prefix j]) -> all_mine N dn prefix 0 n.
Proof. intros Hp Hn HN. split_and!; [done | split; lia | intros j _; apply HN]. Qed.

(** One function call after the other, with the contents of the directory
    computed. *)
Ltac lab_side :=
  first
  [ assumption
  | match goal with |- mine _ _ _ => split; [apply (bool_decide_unpack _); vm_compute; exact I | exact I] end
  | match goal with |- all_mine _ _ _ _ _ => apply range_mine; [apply (bool_decide_unpack _); vm_compute; exact I | vm_compute; reflexivity | intros; exact I] end
  | match goal with |- forall f, everything _ => intros; exact I end
  | match goal with |- prefix_ok _ => apply (bool_decide_unpack _); vm_compute; exact I end
  | match goal with |- _ ∈ _ => apply (bool_decide_unpack _); vm_compute; exact I end
  | match goal with |- _ ∉ _ => apply (bool_decide_unpack _); vm_compute; exact I end
  | match goal with |- Forall _ _ => apply (bool_decide_unpack _); vm_compute; exact I end
  | match goal with |- map_Forall _ _ => apply (bool_decide_unpack _); vm_compute; exact I end
  | match goal with |- forall j, _ -> @?P j => apply (by_range P); vm_compute; reflexivity end
  | match goal with |- (_ <= MAX_NAMES)%nat => apply Nat.leb_le; vm_compute; reflexivity end
  | vm_compute; reflexivity
  | vm_compute; eexists; reflexivity ].

Ltac lab_call :=
  match goal with
  | |- does _ _ _ _ _ _ (create1 _ _ _) _ _ => eapply create1_does
  | |- does _ _ _ _ _ _ (check1 _ _ _) _ _ => eapply check1_does
  | |- does _ _ _ _ _ _ (unlink1 _ _) _ _ => eapply unlink1_does
  | |- does _ _ _ _ _ _ (checknot _ _) _ _ => eapply checknot_does
  | |- does _ _ _ _ _ _ (append1 _ _ _) _ _ => eapply append1_does
  | |- does _ _ _ _ _ _ (dircheck _ _) _ _ => eapply dircheck_does
  | |- does _ _ _ _ _ _ (createn _ _ _ _) _ _ => eapply createn_does
  | |- does _ _ _ _ _ _ (checkn _ _ _) _ _ => eapply checkn_does
  | |- does _ _ _ _ _ _ (unlinkn _ _ _) _ _ => eapply unlinkn_does
  end; lab_side.
Ltac lab_seq :=
  lazymatch goal with
  | |- does _ _ _ _ _ _ (seq _ _) _ _ => eapply does_seq; [lab_call | lab_seq]
  | |- _ => lab_call
  end.

Section tests.
Variable resolve : list Z -> option key.
Variable listing : Z -> list (list Z) -> list (list Z).
Hypothesis listing_perm : forall z l, listing z l ≡ₚ l.
Abbreviation good := (good resolve listing).
Abbreviation mounted := (mounted resolve).

Section one_directory.
Variables (D : gset key) (dn d1 d2 : list Z).
Hypothesis file_not_dir : forall f, [dn; f] ∉ D.
Hypothesis dn_dir : [dn] ∈ D.
Hypotheses (mounted1 : mounted d1 dn) (mounted2 : mounted d2 dn).

Abbreviation alone := (alone D dn).
Abbreviation does w N := (does resolve listing w N D dn).

Lemma does_last p m m' (Q : pred) v :
  alone m v -> does Main everything p m m' -> (forall v', alone m' v' -> Q v') -> good None p Q v.
Proof.
  intros Hv Hp HQ. eapply safe_good_last; [| exact HQ]. eapply safe_weaken; [| | exact (Hp v Hv)]; [by intros ? ? <- | done].
Qed.

Lemma does_eq w N p m m1 m2 : m1 = m2 -> does w N p m m1 -> does w N p m m2.
Proof. by intros <-. Qed.

(** *** One process *)

Lemma create_then_read_does : does Main everything (create_then_read d1 d2) ∅ {[str "f1" := str "aaa"]}.
Proof. eapply does_eq; [| unfold create_then_read; lab_seq]. vm_compute. reflexivity. Qed.

Lemma unlink_test_does : does Main everything (unlink_test d1 d2) {[str "f1" := str "aaa"]} ∅.
Proof. eapply does_eq; [| unfold unlink_test; lab_seq]. vm_compute. reflexivity. Qed.

Lemma append_test_does : does Main everything (append_test d1 d2) ∅ {[str "f1" := str "aaabbbccc"]}.
Proof. eapply does_eq; [| unfold append_test; lab_seq]. vm_compute. reflexivity. Qed.

Lemma readdir_test_does : does Main everything (readdir_test d1 d2) {[str "f1" := str "aaabbbccc"]} ∅.
Proof. eapply does_eq; [| unfold readdir_test; lab_seq]. vm_compute. reflexivity. Qed.

Lemma sequential_creates_does : does Main everything (sequential_creates d1 d2) ∅ ∅.
Proof. eapply does_eq; [| unfold sequential_creates; lab_seq]. vm_compute. reflexivity. Qed.

Lemma write_20000_does : does Main everything (write_20000 d1 d2) ∅ ∅.
Proof.
  unfold write_20000. assert (Hl : len big < 21000) by (unfold len, big; rewrite length_replicate; lia).
  revert Hl. generalize big. intros b Hl. eapply does_eq; [| lab_seq]. vm_compute. reflexivity.
Qed.

(** *** Two processes with different files *)

(** The names the child works on. *)
Definition kid_names (starts : list (list Z)) : key -> Prop := fun k => exists f, k = [dn; f] /\ take 3 f ∈ starts.

Lemma kid_names_file (starts : list (list Z)) f : kid_names starts [dn; f] <-> take 3 f ∈ starts.
Proof. split; [by intros (f' & [= <-] & ?) | intros H; by exists f]. Qed.

(** Prefixes have two characters, which tell the files of the processes apart. *)
Definition start (p : list Z) : list Z := take 2 p ++ [DASH].

Lemma take_numbered p j : length p = 2%nat -> take 3 (numbered p j) = start p.
Proof. destruct p as [|a [|b [|]]]; try done. Qed.

Lemma kid_other (starts : list (list Z)) p f j : length p = 2%nat -> start p ∈ starts -> take 3 f ∉ starts -> f <> numbered p j.
Proof. intros Hp Hs Hf ->. by rewrite take_numbered in Hf. Qed.

Lemma main_other (starts : list (list Z)) p f j : length p = 2%nat -> start p ∉ starts -> take 3 f ∈ starts -> f <> numbered p j.
Proof. intros Hp Hs Hf ->. by rewrite take_numbered in Hf. Qed.

Lemma kid_mine (starts : list (list Z)) p n :
  prefix_ok p -> length p = 2%nat -> Z.of_nat n < 2 ^ 31 -> start p ∈ starts -> all_mine (kid_names starts) dn p 0 n.
Proof. intros Hp Hl Hn Hs. apply range_mine; [done | done |]. intros j. by rewrite kid_names_file, take_numbered. Qed.

Lemma main_mine (starts : list (list Z)) p n :
  prefix_ok p -> length p = 2%nat -> Z.of_nat n < 2 ^ 31 -> start p ∉ starts -> all_mine (Nm (kid_names starts)) dn p 0 n.
Proof. intros Hp Hl Hn Hs. apply range_mine; [done | done |]. intros j. unfold Nm. by rewrite kid_names_file, take_numbered. Qed.

(** What the parent and the child do, [F] and what leads from [m] to [mc], is
    put together. *)
Lemma reap_names (starts : list (list Z)) (F : gmap (list Z) (list Z) -> gmap (list Z) (list Z)) mc m pid rest Q v :
  0 < pid -> holds Main (Nm (kid_names starts)) D dn (F m) v ->
  (forall f, take 3 f ∈ starts -> F mc !! f = mc !! f) -> (forall f, take 3 f ∉ starts -> F mc !! f = F m !! f) ->
  (forall v', alone (F mc) v' -> good None rest Q v') ->
  good (Some (pid, apart D (kid_names starts) dn mc)) (reap pid ;; rest) Q v.
Proof.
  intros Hpid Hv Hin Hout Hr. eapply reap_apart; [done | exact Hv |]. intros v' Hwf HD Ht Hm Hc. apply Hr, holds_intro; [done | done | done |].
  intros f _. destruct (decide (take 3 f ∈ starts)) as [Hf|Hf].
  - rewrite Hc by (by apply kid_names_file). by rewrite Hin.
  - rewrite Hm by (by rewrite kid_names_file). by rewrite Hout.
Qed.

(** Files created by the parent and files created and removed by the child. *)
Lemma with_numbered_kid (starts : list (list Z)) p n mc f :
  length p = 2%nat -> start p ∉ starts -> take 3 f ∈ starts -> with_numbered p 0 n mc !! f = mc !! f.
Proof. intros Hp Hs Hf. apply with_numbered_out. intros j _. by apply (main_other starts). Qed.

Lemma with_numbered_main (starts : list (list Z)) p n m mc f :
  (forall f, take 3 f ∉ starts -> mc !! f = m !! f) -> take 3 f ∉ starts -> with_numbered p 0 n mc !! f = with_numbered p 0 n m !! f.
Proof. intros Hm Hf. by apply with_numbered_congr, Hm. Qed.

Lemma concurrent_creates_good v (Q : pred) : alone ∅ v -> (forall v', alone ∅ v' -> Q v') -> good None (concurrent_creates d1 d2) Q v.
Proof.
  intros Hv HQ. set (starts := [start (str "xx")]). unfold concurrent_creates.
  eapply (fork_apart _ _ _ (kid_names starts) dn dn ∅ ∅ (with_numbered (str "xx") 0 10 ∅)); [exact Hv | exact Hv | |].
  { apply createn_does; [done .. | apply kid_mine; lab_side | done]. }
  intros pid v1 Hpid Hv1. eapply does_apart; [exact Hv1 | |].
  { apply createn_does; [done .. | apply main_mine; lab_side | done]. }
  intros v2 Hv2. set (mc := with_numbered (str "xx") 0 10 ∅).
  assert (Hmc : forall f, take 3 f ∉ starts -> mc !! f = (∅ : gmap (list Z) (list Z)) !! f).
  { intros f Hf. apply with_numbered_out. intros j _. apply (kid_other starts); lab_side. }
  eapply (reap_names starts (with_numbered (str "yy") 0 10)); [done | exact Hv2 | | |];
    [intros f; apply with_numbered_kid; lab_side | intros f; by apply with_numbered_main |].
  intros v3 Hv3. subst mc. eapply does_last; [exact Hv3 | lab_seq |]. intros v' Hv'. apply HQ. eapply eq_rect; [exact Hv' |]. vm_compute. reflexivity.
Qed.

Lemma create_delete_good v (Q : pred) : alone ∅ v -> (forall v', alone ∅ v' -> Q v') -> good None (create_delete d1 d2) Q v.
Proof.
  intros Hv HQ. set (starts := [start (str "x1"); start (str "x3")]). unfold create_delete.
  eapply does_good; [exact Hv | lab_call |]. clear v Hv. intros v Hv. eapply does_good; [exact Hv | lab_call |]. clear v Hv. intros v Hv.
  set (m := with_numbered (str "x2") 0 5 _) in Hv. set (mc := with_numbered (str "x3") 0 5 (without_numbered (str "x1") 0 5 m)).
  eapply (fork_apart _ _ _ (kid_names starts) dn dn m m mc); [exact Hv | exact Hv | |].
  { eapply does_seq; [apply unlinkn_does; [done .. | apply kid_mine; lab_side | lab_side] |].
    apply createn_does; [done .. | apply kid_mine; lab_side | lab_side]. }
  intros pid v1 Hpid Hv1. eapply does_apart; [exact Hv1 | |].
  { apply createn_does; [done .. | apply main_mine; lab_side | lab_side]. }
  intros v2 Hv2. assert (Hmc : forall f, take 3 f ∉ starts -> mc !! f = m !! f).
  { intros f Hf. unfold mc. rewrite with_numbered_out by (intros j _; apply (kid_other starts); lab_side).
    apply without_numbered_out. intros j _. apply (kid_other starts); lab_side. }
  eapply (reap_names starts (with_numbered (str "x4") 0 5)); [done | exact Hv2 | | |];
    [intros f; apply with_numbered_kid; lab_side | intros f; by apply with_numbered_main |].
  intros v3 Hv3. subst mc m. eapply does_last; [exact Hv3 | lab_seq |]. intros v' Hv'. apply HQ. eapply eq_rect; [exact Hv' |]. vm_compute. reflexivity.
Qed.

(** *** Two processes with the same files *)

Section same.
Variables (p : list Z) (nf : nat).
Hypotheses (p_ok : prefix_ok p) (nf_small : Z.of_nat nf < 2 ^ 31) (nf_max : (nf <= MAX_NAMES)%nat).
Hypothesis names_ok : Forall entry_ok (numbered p <$> seqZ 0 (Z.of_nat nf)).

(** Both create the same files, through any mount points; the parent counts
    them while the child is still at it. *)
Lemma same_good dm dc rest (Q : pred) v :
  mounted dm dn -> mounted dc dn -> alone ∅ v -> (forall v', alone (with_numbered p 0 nf ∅) v' -> good None rest Q v') ->
  good None (fork_ (createn dc p nf true) (fun pid => createn dm p nf true;; dircheck dm nf;; reap pid;; rest)) Q v.
Proof.
  intros Hm Hc Hv HQ. destruct (same_start D dn p nf v Hv) as [Zm Zk].
  assert (Pm := zrel_preorder D dn p nf Main). assert (Pk := zrel_preorder D dn p nf Kid).
  apply (fork_good resolve listing (Pact (zrel D dn p nf Main) (zrel D dn p nf Kid) (zown D dn p nf Kid (Z.of_nat nf) no_tables))); cbn [pt_main pt_kid pt_post].
  - done.
  - done.
  - intros v1 v2. apply (zown_stable D dn p nf Kid).
  - by apply (createn_same resolve listing D dn file_not_dir dn_dir p nf p_ok nf_small Kid).
  - intros pid Hpid. eapply safe_good; [done | by apply (createn_same resolve listing D dn file_not_dir dn_dir p nf p_ok nf_small Main) |].
    intros v1 Z1. eapply safe_good; [done | by apply (dircheck_same resolve listing listing_perm D dn file_not_dir dn_dir p nf nf_small Main) |].
    intros v2 Z2. apply reap_good; [done |]. cbn [pt_kid pt_post]. intros v3 HR Z3. apply HQ.
    apply (zown_stable D dn p nf Main _ _ _ _ HR) in Z2. destruct Z2 as (Hi & Ht & He).
    assert (Hnp : forall i, ~ pending i v3).
    { intros i ([|] & fd & o & Ho & _); [rewrite Ht in Ho | rewrite (proj1 (proj2 Z3)) in Ho]; cbn [no_tables fds] in Ho; by rewrite lookup_empty in Ho. }
    apply (same_joined D dn p nf nf_small).
    + destruct Hi as (Hwf & HD & Hc'). split_and!; [split_and!; [done | done |] | done | done].
      intros f i b Hb. destruct (Hc' f i b Hb) as (j & Hj & Hf & [->|[_ Hp]]); [| by destruct (Hnp i)]. exists j. split_and!; [apply Hj | apply Hj | done | by left].
    + done.
Qed.
End same.

Lemma same_file_good v (Q : pred) : alone ∅ v -> (forall v', alone ∅ v' -> Q v') -> good None (same_file d1 d2) Q v.
Proof.
  intros Hv HQ. unfold same_file. eapply same_good; [lab_side | done | lab_side | lab_side | done | done | exact Hv |].
  intros v1 Hv1. eapply does_last; [exact Hv1 | lab_seq |]. intros v' Hv'. apply HQ. eapply eq_rect; [exact Hv' |]. vm_compute. reflexivity.
Qed.

Lemma same_file_same_server_good v (Q : pred) : alone ∅ v -> (forall v', alone ∅ v' -> Q v') -> good None (same_file_same_server d1) Q v.
Proof.
  intros Hv HQ. unfold same_file_same_server. eapply same_good; [lab_side | done | lab_side | lab_side | done | done | exact Hv |].
  intros v1 Hv1. eapply does_last; [exact Hv1 | lab_seq |]. intros v' Hv'. apply HQ. eapply eq_rect; [exact Hv' |]. vm_compute. reflexivity.
Qed.

(** *** Two processes with parts of one file *)

Abbreviation www := (str "www").
Abbreviation in_part s := (fun j : nat => (s <= j < s + 64)%nat).
Abbreviation s2 := (Z.to_nat 10000).

(** What is in the file when both are through. *)
Definition written (v : vfs) : Prop :=
  wf v /\ tab_main v = no_tables /\ dirs v = D /\ exists i b, look v [dn; www] = Some (i, b) /\
    (forall j, (j < 64)%nat -> b !! j = Some 49) /\ (forall j, (j < 64)%nat -> b !! (s2 + j)%nat = Some 50).

Lemma writes_good rest b (Q : pred) v :
  Z.of_nat (length b) = 65535 -> alone {[www := b]} v -> (forall v', written v' -> good None rest Q v') ->
  good None (fork_ (write1 d2 www 10000 64 50) (fun pid => write1 d1 www 0 64 49;; reap pid;; rest)) Q v.
Proof.
  intros Hl Hv HQ. destruct (holds_parts _ _ _ _ _ _ Hv) as (Hwf & HD & Ht).
  assert (Hb := holds_look _ _ _ _ _ _ www Hv I). rewrite lookup_singleton_eq in Hb. apply fmap_Some in Hb as ([i b'] & Hb & ->).
  cbn [snd] in Hl. assert (Hok : name_ok www) by (apply (bool_decide_unpack _); vm_compute; exact I).
  set (L := length b') in *. set (E1 := edits dn www Main (in_part 0)). set (E2 := edits dn www Kid (in_part s2)).
  assert (P1 : PreOrder E1) by apply edits_preorder. assert (P2 : PreOrder E2) by apply edits_preorder.
  assert (H0 : forall w s c, part D dn www i L w s c 0 no_tables (forked v)).
  { intros w s c. split_and!; [done | by destruct w | done |]. exists b'. split_and!; [done | done |]. intros j Hj. lia. }
  assert (Hk : forall j, in_part s2 j -> in_part s2 j /\ ~ in_part 0 j) by (intros j Hj; lia).
  assert (Hm : forall j, in_part 0 j -> in_part 0 j /\ ~ in_part s2 j) by (intros j Hj; lia).
  apply (fork_good resolve listing (Pact E1 E2 (part D dn www i L Kid s2 50 64 no_tables))); cbn [pt_main pt_kid pt_post]; [done | done | | |].
  - intros v1 v2 HR. exact (part_stable D dn www i L Kid s2 64 50 (in_part s2) (in_part 0) Hk ltac:(lia) 64%nat _ v1 v2 ltac:(lia) HR).
  - change 10000 with (Z.of_nat s2). eapply (write1_part resolve listing D dn file_not_dir www i L Hok Kid s2 64 50 (in_part s2) (in_part 0)); [done | lia | done | apply H0].
  - intros pid Hpid. eapply safe_good; [done | |].
    + change 0 with (Z.of_nat 0). eapply (write1_part resolve listing D dn file_not_dir www i L Hok Main 0 64 49 (in_part 0) (in_part s2)); [done | lia | done | apply H0].
    + intros v1 Hv1. apply reap_good; [done |]. cbn [pt_kid pt_post]. intros v2 HR Hk2.
      apply (part_stable D dn www i L Main 0 64 49 (in_part 0) (in_part s2) Hm ltac:(lia) 64%nat _ v1 v2 ltac:(lia) HR) in Hv1.
      destruct Hv1 as (W & T & E & b1 & Hb1 & _ & Hc1). destruct Hk2 as (_ & _ & _ & b2 & Hb2 & _ & Hc2). rewrite Hb1 in Hb2. injection Hb2 as <-.
      apply HQ. split_and!; [done | done | done |]. exists i, b1. split_and!; [done | |]; intros j Hj; [apply Hc1 | apply Hc2]; lia.
Qed.

Lemma concurrent_writes_good v (Q : pred) : alone ∅ v -> (forall v', Q v') -> good None (concurrent_writes d1 d2) Q v.
Proof.
  intros Hv HQ. unfold concurrent_writes. assert (Hl : Z.of_nat (length huge) = 65535) by (unfold huge; rewrite length_replicate; lia).
  revert Hl. generalize huge. intros b Hl. eapply does_good; [exact Hv | lab_call |]. clear v Hv. intros v Hv.
  eapply (writes_good _ b); [done | exact Hv |]. clear v Hv. intros v (W & T & HD & i & b1 & Hb & H1 & H2).
  assert (Ho : own Main everything D (all_files v) no_tables v) by (by apply own_all).
  assert (Hi : all_files v !! [dn; www] = Some (i, b1)) by (by rewrite lookup_all_files).
  assert (Hread : forall d start c, mounted d dn -> 0 <= start -> (forall j, (j < 64)%nat -> b1 !! (Z.to_nat start + j)%nat = Some c) ->
    forall v', own Main everything D (all_files v) no_tables v' ->
    safe resolve listing Main eq (fun _ _ => True) (checkread d www start 64 c) (own Main everything D (all_files v) no_tables) never v').
  { intros d start c Hd Hs Hc v' Ho'. eapply safe_weaken; [| | eapply checkread_own; [done | exact Hd | | exact Ho' | exact Hi | done | done]]; [by intros ? ? <- | done | lab_side]. }
  do 3 (eapply safe_good; [apply _ | apply Hread; [done | done | done | eassumption] | clear Ho; intros ? Ho]).
  eapply safe_good_last; [apply Hread; [done | done | done | eassumption] | done].
Qed.

Lemma tests_a_good v : alone ∅ v -> good None (tests_a d1 d2) never v.
Proof.
  intros Hv. unfold tests_a.
  eapply does_good; [exact Hv | apply create_then_read_does |]. clear v Hv; intros v Hv.
  eapply does_good; [exact Hv | apply unlink_test_does |]. clear v Hv; intros v Hv.
  eapply does_good; [exact Hv | apply append_test_does |]. clear v Hv; intros v Hv.
  eapply does_good; [exact Hv | apply readdir_test_does |]. clear v Hv; intros v Hv.
  eapply does_good; [exact Hv | apply sequential_creates_does |]. clear v Hv; intros v Hv.
  eapply does_good; [exact Hv | apply write_20000_does |]. clear v Hv; intros v Hv.
  apply good_seq, concurrent_creates_good; [exact Hv |]. clear v Hv; intros v Hv.
  apply good_seq, same_file_good; [exact Hv |]. clear v Hv; intros v Hv.
  apply good_seq, create_delete_good; [exact Hv |]. clear v Hv; intros v Hv.
  apply good_seq, same_file_same_server_good; [exact Hv |]. clear v Hv; intros v Hv.
  apply good_seq, concurrent_writes_good; [exact Hv |]. by intros v'.
Qed.
End one_directory.

(** ** test-lab-3-b *)

Section two_directories.
Variables (D : gset key) (da db d1 d2 : list Z).
Hypothesis dirs_ne : da <> db.
Hypotheses (a_files : forall f, [da; f] ∉ D) (b_files : forall f, [db; f] ∉ D) (a_dir : [da] ∈ D) (b_dir : [db] ∈ D).
Hypotheses (mounted1 : mounted d1 da) (mounted2 : mounted d2 db).

Definition in_b : key -> Prop := fun k => exists f, k = [db; f].

(** One of the hundred files is left. *)
Definition left_over (p : list Z) : gmap (list Z) (list Z) := without_numbered p 0 99 (with_numbered p 0 100 ∅).

Lemma creates_and_unlinks w (N : key -> Prop) dn d p :
  (forall f, [dn; f] ∉ D) -> [dn] ∈ D -> mounted d dn -> (forall f, N [dn; f]) -> prefix_ok p ->
  does resolve listing w N D dn (createn_b d p 100) ∅ (with_numbered p 0 100 ∅) /\
  does resolve listing w N D dn (unlinkn_b d p 99) (with_numbered p 0 100 ∅) (left_over p).
Proof.
  intros Hf Hdn Hd HN Hp. split.
  - apply createn_does; [done | done | done | apply range_mine; [done | done | intros; apply HN] | done].
  - apply unlinkn_does; [done | apply range_mine; [done | done | intros; apply HN] |].
    intros j Hj. rewrite with_numbered_in; [done | split; lia | lia].
Qed.

Lemma dircheck_left w (N : key -> Prop) dn d p mi v :
  (forall f, [dn; f] ∉ D) -> [dn] ∈ D -> mounted d dn -> (forall f, N [dn; f]) ->
  own w N D mi no_tables v -> (forall f, snd <$> mi !! [dn; f] = left_over p !! f) ->
  size (left_over p) = 1%nat -> map_Forall (fun f _ => entry_ok f) (left_over p) ->
  safe resolve listing w (rely w N) (guar w N) (dircheck_b d 1) (own w N D mi no_tables) never v.
Proof.
  intros Hf Hdn Hd HN Ho Hm Hsz Hok. assert (Hn : names [dn] mi ≡ₚ (map_to_list (left_over p)).*1) by (apply (names_shows N); [done | intros f _; apply Hm]).
  eapply dircheck_own; [done | done | done | exact Hd | done | exact Ho | | apply Nat.leb_le; reflexivity |].
  - by rewrite Hn, length_fmap, length_map_to_list.
  - rewrite Hn. apply Forall_forall. intros f ([f' b] & -> & Hf')%list_elem_of_fmap. apply elem_of_map_to_list in Hf'. exact (Hok f' b Hf').
Qed.

Lemma tests_b_good v : alone D da ∅ v -> alone D db ∅ v -> good None (tests_b d1 d2) never v.
Proof.
  intros Ha Hb. unfold tests_b. apply good_seq.
  assert (HN : forall f, Nm in_b [da; f]) by (intros f (f' & [= E _]); congruence).
  assert (Px : prefix_ok (str "xx")) by lab_side. assert (Py : prefix_ok (str "yy")) by lab_side.
  destruct (creates_and_unlinks Kid in_b db d2 (str "xx")) as [Kc Ku]; [done | done | done | by intros f; exists f | done |].
  destruct (creates_and_unlinks Main (Nm in_b) da d1 (str "yy")) as [Mc Mu]; [done .. |].
  eapply (fork_apart _ _ _ in_b da db ∅ ∅ (left_over (str "xx"))); [exact Ha | exact Hb | by eapply does_seq |].
  intros pid v1 Hpid Hv1. eapply does_apart; [exact Hv1 | exact Mc |]. clear v1 Hv1; intros v1 Hv1.
  eapply does_apart; [exact Hv1 | exact Mu |]. clear v1 Hv1; intros v1 Hv1.
  eapply reap_apart; [done | exact Hv1 |]. clear v Ha Hb v1 Hv1. intros v W HD T Hm Hc.
  assert (Ho : own Main everything D (all_files v) no_tables v) by (by apply own_all).
  eapply safe_good; [apply _ | |].
  - eapply safe_weaken; [| | apply (dircheck_left Main everything da d1 (str "yy") (all_files v)); [done | done | done | done | exact Ho | | lab_side | lab_side]].
    + by intros ? ? <-.
    + done.
    + intros f. rewrite lookup_all_files. apply Hm, HN.
  - clear Ho. intros v' Ho. eapply (safe_good_last _ _ _ (own Main everything D (all_files v) no_tables)); [| by intros].
    eapply safe_weaken; [| | apply (dircheck_left Main everything db d2 (str "xx") (all_files v)); [done | done | done | done | exact Ho | | lab_side | lab_side]].
    + by intros ? ? <-.
    + done.
    + intros f. rewrite lookup_all_files. apply Hc. by exists f.
Qed.
End two_directories.

(** ** The programs *)

(** The file system is mounted at [argv]. *)
Definition mount (argv : list Z) : Prop :=
  (length argv <= 250)%nat /\
  forall f, name_ok f -> resolve (in_dir argv f) = Some [f] /\ forall g, name_ok g -> resolve (in_dir (in_dir argv f) g) = Some [f; g].

(** There is nothing with the name [dn] yet. *)
Definition absent (dn : list Z) (v : vfs) : Prop :=
  ([dn] ∉ dirs v) /\ ents v !! [dn] = None /\ (forall f, ([dn; f] ∉ dirs v) /\ ents v !! [dn; f] = None).

Definition fresh_dir (s : string) (pid : Z) : list Z := str s ++ print_dec pid.

Definition ready (pid : Z) (v : vfs) : Prop :=
  wf v /\ tab_main v = no_tables /\ [] ∈ dirs v /\
  absent (fresh_dir "d" pid) v /\ absent (fresh_dir "da" pid) v /\ absent (fresh_dir "db" pid) v.

Lemma fresh_dir_ok s pid : s ∈ ["d"; "da"; "db"]%string -> 0 < pid < 2 ^ 31 -> name_ok (fresh_dir s pid).
Proof.
  intros Hs Hp. pose proof (length_digits 20 pid []) as Hl. assert (Hd := print_dec_slash pid ltac:(lia)). unfold fresh_dir, print_dec in *. cbn [length] in Hl.
  assert (H : str s <> [] /\ Forall (fun c => c <> SLASH) (str s) /\ (length (str s) <= 2)%nat).
  { repeat (apply elem_of_cons in Hs as [->|Hs]); [apply (bool_decide_unpack _); vm_compute; exact I .. | by apply elem_of_nil in Hs]. }
  destruct H as (H1 & H2 & H3). split_and!; [by destruct (str s) | by apply Forall_app | rewrite length_app; lia].
Qed.

Lemma mount_mounted argv dn : mount argv -> name_ok dn -> mounted (in_dir argv dn) dn.
Proof.
  intros [Hl Hm] Hdn. destruct (Hm dn Hdn) as [H1 H2]. split_and!; [done | done |]. destruct Hdn as (_ & _ & Hdn).
  unfold in_dir. rewrite length_app. cbn [length]. lia.
Qed.

Definition with_dir (dn : list Z) (v : vfs) : vfs := Vfs ({[[dn]]} ∪ dirs v) (ents v) (files v) (tab_main v) (tab_kid v).

(** mkdir of a new name. *)
Lemma mkdir_good p dn k Q v :
  resolve p = Some [dn] -> [] ∈ dirs v -> [dn] ∉ dirs v -> ents v !! [dn] = None ->
  good None (k (Ans 0 0 [])) Q (with_dir dn v) -> good None (Sys (Mkdir p) k) Q v.
Proof.
  intros Hr Hroot Hd He Hk v1 <- z v2 a Hc. split; [done |]. cbn [vcall] in Hc.
  rewrite Hr, decide_False in Hc by (intros [?|[? ?]]; [done | congruence]). rewrite decide_True in Hc by done. injection Hc as <- <-. exact Hk.
Qed.

Lemma access_good p dn k Q v :
  resolve p = Some [dn] -> [dn] ∈ dirs v -> good None (k (Ans 0 0 [])) Q v -> good None (Sys (Access p) k) Q v.
Proof.
  intros Hr Hd Hk v1 <- z v2 a Hc. split; [done |]. cbn [vcall] in Hc. rewrite Hr, decide_True in Hc by (by left). injection Hc as <- <-. exact Hk.
Qed.

Lemma alone_empty dn v : wf v -> tab_main v = no_tables -> (forall f, ents v !! [dn; f] = None) -> alone (dirs v) dn ∅ v.
Proof. intros Hwf Ht He. apply holds_intro; [done | done | done |]. intros f _. rewrite (proj2 (look_None v [dn; f] Hwf)); [by rewrite lookup_empty | done]. Qed.

Lemma in_buffer_mount argv dn k : mount argv -> name_ok dn -> in_buffer (in_dir argv dn) k = k (in_dir argv dn).
Proof. intros [Hl _] Hdn. apply in_buffer_ok; [lia | done]. Qed.

Lemma main_a_good argv1 argv2 pid v :
  mount argv1 -> mount argv2 -> 0 < pid < 2 ^ 31 -> ready pid v -> good None (main_a argv1 argv2 pid) never v.
Proof.
  intros H1 H2 Hpid (Hwf & Ht & Hroot & (Hd & He & Hf) & _). assert (Hok : name_ok (fresh_dir "d" pid)) by (apply fresh_dir_ok; [by left | done]).
  pose proof (mount_mounted argv1 _ H1 Hok) as M1. pose proof (mount_mounted argv2 _ H2 Hok) as M2.
  unfold main_a. fold (fresh_dir "d" pid). set (dn := fresh_dir "d" pid) in *. rewrite in_buffer_mount by done.
  eapply mkdir_good; [apply M1 | done | done | done |]. cbn [res Z.eqb need]. rewrite in_buffer_mount by done.
  eapply access_good; [apply M2 | cbn [with_dir dirs]; set_solver |]. cbn [res Z.eqb need].
  eapply (tests_a_good (dirs (with_dir dn v)) dn); [| cbn [with_dir dirs]; set_solver | done | done |].
  - intros f. cbn [with_dir dirs]. rewrite not_elem_of_union, not_elem_of_singleton. split; [done | apply Hf].
  - apply alone_empty; [done | done |]. intros f. apply Hf.
Qed.

Lemma main_b_good argv1 argv2 pid v :
  mount argv1 -> mount argv2 -> 0 < pid < 2 ^ 31 -> ready pid v -> good None (main_b argv1 argv2 pid) never v.
Proof.
  intros H1 H2 Hpid (Hwf & Ht & Hroot & _ & (Hda & Hea & Hfa) & (Hdb & Heb & Hfb)).
  assert (Ha : name_ok (fresh_dir "da" pid)) by (apply fresh_dir_ok; [by right; left | done]).
  assert (Hb : name_ok (fresh_dir "db" pid)) by (apply fresh_dir_ok; [by right; right; left | done]).
  assert (Hne : fresh_dir "da" pid <> fresh_dir "db" pid) by (intros [=]).
  pose proof (mount_mounted argv1 _ H1 Ha) as M1. pose proof (mount_mounted argv2 _ H2 Ha) as M1'. pose proof (mount_mounted argv2 _ H2 Hb) as M2.
  unfold main_b. fold (fresh_dir "da" pid) (fresh_dir "db" pid). set (da := fresh_dir "da" pid) in *. set (db := fresh_dir "db" pid) in *.
  rewrite in_buffer_mount by done.
  eapply mkdir_good; [apply M1 | done | done | done |]. cbn [res Z.eqb need]. rewrite in_buffer_mount by done.
  eapply mkdir_good; [apply M2 | cbn [with_dir dirs]; set_solver | cbn [with_dir dirs]; rewrite not_elem_of_union, not_elem_of_singleton; split; [congruence | done] | done |].
  cbn [res Z.eqb need]. rewrite in_buffer_mount by done.
  eapply access_good; [apply M1' | cbn [with_dir dirs]; set_solver |]. cbn [res Z.eqb need].
  eapply (tests_b_good (dirs (with_dir db (with_dir da v))) da db); [done | | | | | done | done | |].
  - intros f. cbn [with_dir dirs]. rewrite !not_elem_of_union, !not_elem_of_singleton. split_and!; [done | done | apply Hfa].
  - intros f. cbn [with_dir dirs]. rewrite !not_elem_of_union, !not_elem_of_singleton. split_and!; [done | done | apply Hfb].
  - cbn [with_dir dirs]. set_solver.
  - cbn [with_dir dirs]. set_solver.
  - apply alone_empty; [done | done |]. intros f. apply Hfa.
  - apply alone_empty; [done | done |]. intros f. apply Hfb.
Qed.
End tests.


(** ** Runs *)

(** A system in which every path starts at a mount point. *)
Fixpoint split_path (cur p : list Z) : list (list Z) :=
  match p with
  | [] => [cur]
  | c :: p => if c =? SLASH then cur :: split_path [] p else split_path (cur ++ [c]) p
  end.

Definition demo_resolve (p : list Z) : option key := Some (tail (split_path [] p)).
Definition demo_listing (z : Z) (l : list (list Z)) : list (list Z) := l.
Definition demo_vfs : vfs := Vfs {[ [] ]} ∅ ∅ no_tables no_tables.

Lemma split_no_slash cur f p :
  Forall (fun c => c <> SLASH) f -> split_path cur (f ++ p) = split_path (cur ++ f) p.
Proof.
  revert cur. induction f as [|c f IH]; intros cur Hf; [by rewrite app_nil_r |]. apply Forall_cons in Hf as [Hc Hf]. cbn [app split_path].
  rewrite (proj2 (Z.eqb_neq c SLASH)) by done. rewrite IH by done. by rewrite <- app_assoc.
Qed.

Lemma demo_mount c : c <> SLASH -> mount demo_resolve [c].
Proof.
  intros Hc. split; [cbn; lia |]. intros f (_ & Hf & _). unfold demo_resolve, in_dir. split.
  - cbn [app split_path]. rewrite (proj2 (Z.eqb_neq c SLASH)) by done. cbn [app split_path]. rewrite Z.eqb_refl.
    rewrite <- (app_nil_r f) at 1. rewrite split_no_slash by done. done.
  - intros g (_ & Hg & _). cbn [app split_path]. rewrite (proj2 (Z.eqb_neq c SLASH)) by done. cbn [app split_path]. rewrite Z.eqb_refl.
    rewrite split_no_slash by done. cbn [app split_path]. rewrite Z.eqb_refl. rewrite <- (app_nil_r g) at 1. rewrite split_no_slash by done. done.
Qed.

Lemma demo_ready pid : ready pid demo_vfs.
Proof.
  assert (Ha : forall dn, absent dn demo_vfs).
  { intros dn. split; [| split; [done |]]; [| intros f; split; [| done]]; cbn [demo_vfs dirs]; by intros ?%elem_of_singleton. }
  split_and!; [| done | | by apply Ha ..].
  - split; intros *; cbn [demo_vfs ents]; by rewrite lookup_empty.
  - cbn [demo_vfs dirs]. by apply elem_of_singleton.
Qed.

